(* ===== verification/_CoqProject ===== *)
-Q . S2P
Prelude.v
Common.v
SlottedPage.v
UndoPage.v
MetaPage.v
WalCodec.v
Mvcc.v
PageStore.v
Node.v
NodeSpec.v
NodeProps.v
TxnKv.v
TxnKvSpec.v
TxnKvRun.v
TxnKvProps.v
Sequencer.v
SequencerProps.v
Secondary.v
SecondaryProps.v
BtreePage.v
Latch.v
Provider.v
Cache.v
CacheLaws.v
Btree.v
BtreeInv.v
BtreeRun.v
BtreeInsert.v
BtreeMap.v
BtreeCalm.v
BtreeRange.v
BtreeRemove.v
BtreeProps.v
Compute.v
ComputeSpec.v
TreeStore.v
ComputeUndo.v
ComputeProps.v
ComputeGc.v
ComputeCommit.v
CommitRun.v
CommitPut.v
TreeStoreProps.v
ColdStart.v
Tools.v
ToolsProps.v
