(* ===== verification/Prelude.v ===== *)
(** * scale-kv: a verification development

    scale-kv (src/) is a key-value store that keeps computation and storage apart.  This
    library translates its Rust code into executable definitions, one per function, and
    proves what the parts promise to each other.

    ** The program and the files that model it

    - Shared: [Prelude] (this file: outcomes, the state monad, machine integers, checked
      access to bytes, order of keys) and [Common] (src/src/common.rs: constants, errors).
    - Page formats, each a layout of 16 KiB: [SlottedPage] (slotted_page.rs: records in
      slots), [UndoPage] (undo_pg.rs: undo records and segments), [MetaPage] (meta_page.rs,
      btree_meta.rs: allocation state and tree roots).
    - The B+tree (page_bptree.rs): [BtreePage] is the format of its pages and the searches in
      them, [Latch] the table of page latches, [Provider] the trait behind which the pages
      live, [Btree] the operations;
      [BtreeInv], [BtreeRun], [BtreeInsert], [BtreeMap], [BtreeRange], [BtreeRemove] hold the
      invariant and the proofs, [BtreeCalm] what a row's rewrite leaves alone, [BtreeProps] the
      theorems.
    - A storage node: [WalCodec] (node_wal_codec.rs: frames of the log), [Mvcc] (node_mvcc.rs,
      active_reads.rs: versions and registered readers), [PageStore] (page_store.rs: buffer
      pool, page file, checkpoint, eviction), [Node] (node.rs, node_wal_writer.rs,
      node_wal_replay.rs, node_wal_files.rs, node_bootstrap.rs, node_maintenance.rs: commits,
      the writer and replay tasks, recovery); [NodeSpec] and [NodeProps] hold the proofs.
    - The transactional store over files: [TxnKv] (txn_kv.rs and txn_kv/: codec, local and
      quorum storage, manager); [TxnKvSpec], [TxnKvRun] and [TxnKvProps] hold the proofs.
    - Between compute and storage: [Sequencer] (client.rs and server.rs as calls that may be
      lost, quorum_client.rs, compute_sequencer.rs, embedded_compute_runtime.rs: reserving
      ranges of LSNs and sending batches to a quorum of nodes), theorems in [SequencerProps].
    - Secondary indexes: [Secondary] (secondary_index.rs, secondary_posting_log.rs,
      secondary_index_meta.rs: postings by LSN, the log of postings, the catalog page),
      theorems in [SecondaryProps].
    - Pages of the compute node: [Cache] (page_bptree.rs and txn_page_provider.rs: the LRU
      page cache, the provider that fetches missing pages and notes dirty ones), with the
      laws of the cache in [CacheLaws].
    - The compute node: [Compute] (embedded_compute.rs, embedded_compute_recovery.rs,
      embedded_compute_visibility.rs: transactions over the tree with intents and undo records,
      commit through the sequencer, recovery, garbage collection).  [ComputeStore] is the
      interface to the tree and its cache, [btree_store] the one of the program.  [ComputeSpec]
      states the laws the proofs need of it and the versions of a row, [ComputeUndo] that undo
      records stay readable, [ComputeProps] the theorems on one transaction, [ComputeGc] the
      one on a pass of the garbage collection.
    - Tree, cache and compute node together: [TreeStore] proves the laws of [ComputeSpec] for
      [btree_store], with theorems in [TreeStoreProps]; [ComputeCommit] is the stamping pass of
      a commit, [CommitRun] the whole commit over the in-process storage, [CommitPut] the
      operations [put] and [get] around it, [ColdStart] a node from its construction on.
    - Programs: [Tools] (bin/storage_server.rs, bin/workload_bench.rs: command lines, the node a
      server opens, the load and retry loops of the benchmark over the compute node, and what
      the metrics of node.rs count), theorems in [ToolsProps].

    A method that mutates its object is a function in a state monad; a structure is a
    record with the fields of the source.  Every index and slice is checked, so a theorem
    that a call returns [Ret] also says that it does not panic.  Arithmetic that can leave
    its machine width is wrapped or saturated as the source does it.

    ** What stands for the world outside

    A call to the operating system takes the next entry of a list of faults, which says
    whether it fails and how much of a write got out; theorems quantify over the list.  The
    clock, the order in which a [HashMap] is walked, the order in which spawned tasks finish
    and crc32fast's hash are arguments.  Background tasks are operations of their own, one
    per turn of their loop, and a method that waits for one is cut in two at the wait, so
    that interleavings are sequences of operations.

    What the global allocator grants is a class ([Allocator] of [Common]): it grants a
    request of up to four times the bytes the caller holds already, and may refuse a larger
    one, for which [Vec::with_capacity] panics or stops the process ([Panic]).  The three
    places that ask for room by a number nobody has checked go through it: the frames of the
    log, the records of the transactional store and the limit of an index query.

    What others do to a compute node while one of its calls waits for a transaction is a
    class too ([Others] of [Compute]): whether they notify the waiting call before its time
    is over, and the node they leave.

    ** What the theorems show

    - Pages: slotted pages refine a map from slots to payloads, undo pages a list of
      records, and each layout decodes to what was encoded.
    - B+tree: over every provider with the laws of [PageProviderLaws], [insert], [get] and
      the range scans refine a finite map from keys to values, and terminate, while page ids
      stay below the number of latch stripes (scans: while there are at most 8192 pages);
      with an id beyond it [insert] waits for its own latch.  [remove] refines the map on a
      tree of one leaf, and a run shows how it loses a row on a taller one.
    - Log frames are read back as written; on other bytes the reader ends with a batch or an
      error, unless a frame announces more records than the allocator grants.
    - Snapshot reads see a prefix of the log; collection of old versions changes no
      registered reader's view.
    - The page store refines a map of pages under any failures; a successful checkpoint
      survives a crash; eviction is least recently used.
    - A commit on a node is atomic and idempotent, and recovery redoes exactly the logged
      batches above the recorded LSN.  Three runs show where it falls short: a crash that
      loses commits, an append that is acknowledged and not applied, an append that waits
      whatever the node does afterwards.
    - The transactional store: when every write waits for all replicas, transactions answer as
      snapshot isolation over a history of commits, through checkpoints and restarts; replay of
      any log file returns the commits in front of the first bytes that are no record.  Runs
      show the windows in which a snapshot or a later commit is lost.
    - Latches: a write latch is granted exactly when nobody holds one of its stripe; a page
      stays in the cache until its shard has taken its capacity of other pages.
    - Secondary indexes: a query returns the rows whose indexed bytes match at its LSN, as
      long as no deleted row comes back with the bytes it had, and the log and the catalog
      are read back as written.
    - Sequencer: a commit leaves each node with all of its batch or none of it and succeeds
      only when a quorum has it, and batches reach the nodes in the order of their LSNs as
      long as no commit gives up its reservation; runs show how one lost batch or one unused reservation stops it.
    - Compute node: a read returns the version its snapshot selects, a write changes nothing
      for older snapshots that have read no page yet and is seen by its own transaction, a
      roll-back restores the rows, and a pass of the garbage collection removes and cuts
      exactly the rows it may and keeps what snapshots from its watermark on read.  A reader
      waits for a pending transaction until its deadline and a grace period.  The stamping
      pass of a commit publishes all rows of a transaction at its LSN.  These hold for every
      store with [StoreLaws], which leaves out eviction of undo pages and the tree's own
      [remove]; the pass of the garbage collection asks for a store that removes rows as a
      map does ([RemoveLaws]).
      Three runs show a reader that never returns, a row missing from an index and an
      uncommitted deletion that is collected.
    - The tree over the page cache answers every sequence of row and page operations as finite
      maps do, and so keeps [StoreLaws], while the cache has room for the pages they may add
      and the tree's ids stay below the number of latch stripes.
    - In-process node: [connect_inprocess] on an empty storage succeeds; a node that holds a
      map of committed rows returns from [put] of a new row holding the map with it, and [get]
      returns what the map has.  The commit is the one of the source: both stamping passes,
      the reservation, the meta page, the storage and the cache.  Asked for is a way to the
      leaf without full pages, and no secondary index; rows that are put again, and so write
      undo records, are covered up to the commit.
    - Programs: the node accepts the maintenance settings the server builds from any command
      line, and the benchmark retries a put with doubled, capped pauses, a bounded number of
      times.

    ** Bounds and fuel

    Loops without a structural measure take fuel and return [Spin] without it.  Descents
    of the tree take the height bound of the code's own retry limits or the number of pages,
    searches in a page its number of keys, the log readers the number of bytes (a record
    takes at least a header); the theorems state results, so [Spin] is excluded by them.

    The compute node follows undo records and log pages with one fuel per operation: its
    theorems ask for more fuel than the chain has records, and for one more unit than a reader
    is woken.  A call that waits for something only a later step can bring, a latch it holds
    itself or its turn to send, is [Spin] as well; the theorems about waiting say so.

    [good n] of a store leaves room for [n] insertions: 66 new pages each, which is what a
    tree of the greatest height can split, and one page that is not the tree's.  A new node
    with the default cache of 8192 pages has room for sixty of them, one with 1024 pages for a
    cold start and a put.  The table has 32768 latches, so the ids of a tree that can be
    inserted into without waiting are below 32768.

    ** Not modelled

    Connecting and listening, the bytes of RPC messages and the generated storage_capnp.rs
    (client.rs and server.rs are the handlers and calls between them), bin/perf_report.rs and
    tests: they move bytes over sockets, read other programs' output or drive the rest.
    Messages inside errors, metrics as text and log output are dropped, nothing branches on
    them.  Two operations of a compute node interleaved at their awaits, and the workers of
    the benchmark against each other: operations run one after the other here.  The checker
    [validate] of page_bptree.rs is compiled for tests only. *)

From stdpp Require Import base numbers list gmap.

#[global] Open Scope Z_scope.

(** ** Outcomes

    A Rust call returns a value, returns [Err e], or panics (an index or a slice
    out of range, [copy_from_slice] between slices of different lengths, an
    [unwrap] of nothing).  [Spin] is a call that does not return: the fuel given to a
    [while] or [loop] ran out, or the call waits for something that nobody but itself could
    bring.  A theorem that a call returns [Ret] shows that it is not reached.
    The error type is a parameter because the crate has two of them ([Error] and
    [TxnError]). *)

Inductive outcome (E A : Type) : Type :=
| Ret (a : A)
| Fail (e : E)
| Panic
| Spin.
Arguments Ret {E A} a.
Arguments Fail {E A} e.
Arguments Panic {E A}.
Arguments Spin {E A}.

#[global] Instance outcome_ret {E} : MRet (outcome E) := fun A a => Ret a.
#[global] Instance outcome_bind {E} : MBind (outcome E) := fun A B f m =>
  match m with
  | Ret a => f a
  | Fail e => Fail e
  | Panic => Panic
  | Spin => Spin
  end.
#[global] Instance outcome_fmap {E} : FMap (outcome E) := fun A B f m =>
  match m with
  | Ret a => Ret (f a)
  | Fail e => Fail e
  | Panic => Panic
  | Spin => Spin
  end.

(** [Option::ok_or]. *)
Definition ok_or {E A} (o : option A) (e : E) : outcome E A :=
  match o with Some a => Ret a | None => Fail e end.

Definition is_ret {E A} (m : outcome E A) : bool :=
  match m with Ret _ => true | _ => false end.

(** One step of a monadic computation whose head is known. *)
Ltac obind := cbn [mbind outcome_bind fmap option_fmap option_map ok_or].

Lemma bind_ret {E A B} (a : A) (f : A -> outcome E B) : (Ret a ≫= f) = f a.
Proof. reflexivity. Qed.

Lemma bind_Ret_inv {E A B} (m : outcome E A) (f : A -> outcome E B) b :
  (m ≫= f) = Ret b -> exists a, m = Ret a /\ f a = Ret b.
Proof. destruct m; simpl; naive_solver. Qed.

(** ** Stateful code

    A method of a component with mutable state: the outcome and the state it leaves,
    also when it returns an error. *)

Definition st (S E A : Type) : Type := S -> outcome E A * S.

#[global] Instance st_ret {S E} : MRet (st S E) := fun A a s => (Ret a, s).
#[global] Instance st_bind {S E} : MBind (st S E) := fun A B f m s =>
  match m s with
  | (Ret a, s') => f a s'
  | (Fail e, s') => (Fail e, s')
  | (Panic, s') => (Panic, s')
  | (Spin, s') => (Spin, s')
  end.

(** A pure call, an access to the state, an early [return Err]. *)
Definition lift {S E A} (m : outcome E A) : st S E A := fun s => (m, s).
Definition gets {S E A} (f : S -> A) : st S E A := fun s => (Ret (f s), s).
Definition modify {S E} (f : S -> S) : st S E unit := fun s => (Ret tt, f s).
Definition throw {S E A} (e : E) : st S E A := fun s => (Fail e, s).

(** How the body of a [for] loop leaves it: by a [return], or by a [break] or by using
    up the iterations. *)
Inductive ctl (A : Type) : Type :=
| Return (a : A)
| Leave.
Arguments Return {A} a.
Arguments Leave {A}.

(** Two ways to look at a run. *)
Lemma st_bind_ret {S E A B} (m : st S E A) (f : A -> st S E B) s a s' :
  m s = (Ret a, s') -> (m ≫= f) s = f a s'.
Proof. intros H. unfold mbind, st_bind. by rewrite H. Qed.

Lemma st_bind_fail {S E A B} (m : st S E A) (f : A -> st S E B) s e s' :
  m s = (Fail e, s') -> (m ≫= f) s = (Fail e, s').
Proof. intros H. unfold mbind, st_bind. by rewrite H. Qed.

Lemma st_bind_modify {S E B} (g : S -> S) (f : unit -> st S E B) s : (modify g ≫= f) s = f tt (g s).
Proof. reflexivity. Qed.

Lemma st_bind_gets {S E A B} (g : S -> A) (f : A -> st S E B) s : (gets g ≫= f) s = f (g s) s.
Proof. reflexivity. Qed.

Lemma st_bind_lift {S E A B} (m : outcome E A) (f : A -> st S E B) s a :
  m = Ret a -> (lift m ≫= f) s = f a s.
Proof. intros ->. reflexivity. Qed.

(** ** Machine integers

    A [w]-bit unsigned integer is a [Z] in [0, 2^w).  Casts ([as u16]) and the
    arithmetic of a release build wrap; [saturating_*] is written out. *)

Definition U16 : Z := 65536.
Definition U32 : Z := 4294967296.
Definition U64 : Z := 18446744073709551616.

Definition wrap16 (v : Z) : Z := v mod U16.
Definition wrap32 (v : Z) : Z := v mod U32.
Definition wrap64 (v : Z) : Z := v mod U64.

Definition sat_sub (a b : Z) : Z := Z.max 0 (a - b).
Definition sat_add16 (a b : Z) : Z := Z.min (a + b) (U16 - 1).
Definition sat_add64 (a b : Z) : Z := Z.min (a + b) (U64 - 1).

(** ** Byte slices *)

(** A byte is a [Z]; [bytes] are the contents of a [&[u8]], a [Vec<u8>] or a page. *)
Abbreviation bytes := (list Z) (only parsing).

Definition is_byte (b : Z) : Prop := 0 <= b < 256.
Definition wf_bytes (bs : bytes) : Prop := Forall is_byte bs.

Definition zlen {A} (l : list A) : Z := Z.of_nat (length l).

(** [n] elements of [l] from offset [a], and [l] with [bs] written over it at [a]:
    the total functions behind the checked accesses below. *)
Definition sub {A} (a n : Z) (l : list A) : list A := take (Z.to_nat n) (drop (Z.to_nat a) l).
Definition upd {A} (a : Z) (bs l : list A) : list A :=
  take (Z.to_nat a) l ++ bs ++ drop (Z.to_nat (a + zlen bs)) l.

(** [l[a..b]] as a read. *)
Definition get_range {E A} (l : list A) (a b : Z) : outcome E (list A) :=
  if (0 <=? a) && (a <=? b) && (b <=? zlen l) then Ret (sub a (b - a) l) else Panic.

(** [l[a..b].copy_from_slice(src)]. *)
Definition put_range {E A} (l : list A) (a b : Z) (src : list A) : outcome E (list A) :=
  if (0 <=? a) && (a <=? b) && (b <=? zlen l) && (zlen src =? b - a)
  then Ret (upd a src l) else Panic.

(** [l[i]] as a read and as an assignment. *)
Definition get_at {E A} (l : list A) (i : Z) : outcome E A :=
  if 0 <=? i then
    match l !! Z.to_nat i with Some x => Ret x | None => Panic end
  else Panic.
Definition put_at {E A} (l : list A) (i : Z) (x : A) : outcome E (list A) :=
  if (0 <=? i) && (i <? zlen l) then Ret (<[Z.to_nat i := x]> l) else Panic.

(** [vec![x; n]]. *)
Definition zrepeat {A} (x : A) (n : Z) : list A := replicate (Z.to_nat n) x.

(** ** Little-endian integers *)

Fixpoint le_bytes (n : nat) (v : Z) : bytes :=
  match n with
  | O => []
  | S n => v mod 256 :: le_bytes n (v / 256)
  end.

Fixpoint le_val (bs : bytes) : Z :=
  match bs with
  | [] => 0
  | b :: bs => b + 256 * le_val bs
  end.

(** ** The order of byte slices ([Ord for [u8]]) *)

Fixpoint bytes_cmp (a b : bytes) : comparison :=
  match a, b with
  | [], [] => Eq
  | [], _ :: _ => Lt
  | _ :: _, [] => Gt
  | x :: a, y :: b =>
      match x ?= y with
      | Eq => bytes_cmp a b
      | c => c
      end
  end.

Definition bytes_ltb (a b : bytes) : bool :=
  match bytes_cmp a b with Lt => true | _ => false end.
Definition bytes_leb (a b : bytes) : bool :=
  match bytes_cmp a b with Gt => false | _ => true end.
Definition bytes_eqb (a b : bytes) : bool :=
  match bytes_cmp a b with Eq => true | _ => false end.

Definition bytes_lt (a b : bytes) : Prop := bytes_cmp a b = Lt.
Definition bytes_le (a b : bytes) : Prop := bytes_cmp a b <> Gt.

(** ** Lemmas: slices *)

Create HintDb zlen discriminated.

Lemma zlen_nonneg {A} (l : list A) : 0 <= zlen l.
Proof. unfold zlen. lia. Qed.

Lemma zlen_nil {A} : zlen (@nil A) = 0.
Proof. reflexivity. Qed.

Lemma zlen_cons {A} (x : A) l : zlen (x :: l) = 1 + zlen l.
Proof. unfold zlen. simpl. lia. Qed.

Lemma zlen_app {A} (l k : list A) : zlen (l ++ k) = zlen l + zlen k.
Proof. unfold zlen. rewrite length_app. lia. Qed.

Lemma zlen_zrepeat {A} (x : A) n : 0 <= n -> zlen (zrepeat x n) = n.
Proof. intros. unfold zlen, zrepeat. rewrite length_replicate. lia. Qed.

Lemma zlen_le_bytes n v : zlen (le_bytes n v) = Z.of_nat n.
Proof. revert v. induction n; intros v; [done|]. simpl. rewrite zlen_cons, IHn. lia. Qed.

Lemma zlen_sub {A} a n (l : list A) :
  0 <= a -> 0 <= n -> a + n <= zlen l -> zlen (sub a n l) = n.
Proof. unfold zlen, sub. rewrite length_take, length_drop. lia. Qed.

Lemma zlen_upd {A} a (bs l : list A) :
  0 <= a -> a + zlen bs <= zlen l -> zlen (upd a bs l) = zlen l.
Proof. unfold zlen, upd. rewrite !length_app, length_take, length_drop. unfold zlen. lia. Qed.

Lemma zlen_upd_eq {A} N a (bs l : list A) :
  zlen l = N -> 0 <= a -> a + zlen bs <= N -> zlen (upd a bs l) = N.
Proof. intros <- ? ?. by apply zlen_upd. Qed.

Lemma zlen_insert {A} (i : nat) (x : A) l : zlen (<[i:=x]> l) = zlen l.
Proof. unfold zlen. by rewrite length_insert. Qed.

Lemma zlen_fmap {A B} (f : A -> B) l : zlen (f <$> l) = zlen l.
Proof. unfold zlen. by rewrite length_fmap. Qed.

(** The lengths of composed slices, with the side conditions left to [lia]. *)
Ltac upd_base l := lazymatch l with upd _ _ ?l' => upd_base l' | _ => l end.

Ltac zlens :=
  repeat first
    [ rewrite zlen_cons
    | match goal with |- context [zlen (@nil ?T)] => progress change (zlen (@nil T)) with 0 end
    | rewrite zlen_app | rewrite zlen_insert
    | rewrite zlen_le_bytes | rewrite zlen_fmap
    | rewrite zlen_zrepeat by lia
    | match goal with
      | |- context [zlen (upd ?a ?bs ?l)] =>
          let b := upd_base l in
          let H := fresh in
          assert (H : zlen (upd a bs l) = zlen b)
            by (repeat (apply zlen_upd_eq; [|lia|zlens; lia]); reflexivity);
          rewrite H; clear H
      end
    | rewrite zlen_sub by (zlens; lia) ].

Ltac zl := zlens; try lia.

Lemma list_eq_lookup_Z {A} (l k : list A) :
  zlen l = zlen k ->
  (forall i, 0 <= i < zlen l -> l !! Z.to_nat i = k !! Z.to_nat i) -> l = k.
Proof.
  intros Hlen Hi. apply list_eq. intros i.
  destruct (decide (i < length l)%nat) as [Hlt|Hge].
  - specialize (Hi (Z.of_nat i)). rewrite Nat2Z.id in Hi. apply Hi. unfold zlen. lia.
  - unfold zlen in Hlen. rewrite !lookup_ge_None_2; [done|lia|lia].
Qed.

Lemma lookup_sub {A} a n (l : list A) i :
  0 <= a -> 0 <= i < n -> sub a n l !! Z.to_nat i = l !! Z.to_nat (a + i).
Proof.
  intros. unfold sub. rewrite lookup_take_lt by lia. rewrite lookup_drop.
  f_equal. lia.
Qed.

Lemma lookup_upd_in {A} a (bs l : list A) i :
  0 <= a <= i -> i < a + zlen bs -> a + zlen bs <= zlen l ->
  upd a bs l !! Z.to_nat i = bs !! Z.to_nat (i - a).
Proof.
  unfold upd, zlen. intros.
  rewrite lookup_app_r by (rewrite length_take; lia).
  rewrite length_take, lookup_app_l by lia. f_equal. lia.
Qed.

Lemma lookup_upd_out {A} a (bs l : list A) i :
  0 <= a -> 0 <= i -> (i < a \/ a + zlen bs <= i) -> a + zlen bs <= zlen l ->
  upd a bs l !! Z.to_nat i = l !! Z.to_nat i.
Proof.
  unfold upd, zlen. intros Ha Hi [Hlt|Hge] Hle.
  - rewrite lookup_app_l by (rewrite length_take; lia). rewrite lookup_take_lt by lia. done.
  - rewrite lookup_app_r by (rewrite length_take; lia).
    rewrite length_take, lookup_app_r by lia. rewrite lookup_drop. f_equal. lia.
Qed.

(** Reading back what was written, inside and outside the written range. *)
Lemma sub_upd_same {A} a n (bs l : list A) :
  0 <= a -> n = zlen bs -> a + n <= zlen l -> sub a n (upd a bs l) = bs.
Proof.
  intros Ha -> Hle. pose proof (zlen_nonneg bs).
  apply list_eq_lookup_Z; [zl|]. intros i Hi.
  rewrite zlen_sub in Hi by zl.
  rewrite lookup_sub by lia. rewrite lookup_upd_in by lia. f_equal. lia.
Qed.

Lemma sub_upd_inside {A} a n b (bs l : list A) :
  0 <= b <= a -> 0 <= n -> a + n <= b + zlen bs -> b + zlen bs <= zlen l ->
  sub a n (upd b bs l) = sub (a - b) n bs.
Proof.
  intros. apply list_eq_lookup_Z; [zl|]. intros i Hi.
  rewrite zlen_sub in Hi by zl.
  rewrite !lookup_sub by lia. rewrite lookup_upd_in by lia. f_equal. lia.
Qed.

Lemma sub_upd_disjoint {A} a n b (bs l : list A) :
  0 <= a -> 0 <= n -> 0 <= b -> a + n <= zlen l -> b + zlen bs <= zlen l ->
  (a + n <= b \/ b + zlen bs <= a) ->
  sub a n (upd b bs l) = sub a n l.
Proof.
  intros. apply list_eq_lookup_Z; [zl|]. intros i Hi.
  rewrite zlen_sub in Hi by zl.
  rewrite !lookup_sub by lia. rewrite lookup_upd_out by lia. done.
Qed.

Lemma sub_app_l {A} a n (l k : list A) :
  0 <= a -> 0 <= n -> a + n <= zlen l -> sub a n (l ++ k) = sub a n l.
Proof.
  intros. pose proof (zlen_nonneg k). apply list_eq_lookup_Z; [zl|]. intros i Hi.
  rewrite zlen_sub in Hi by zl.
  rewrite !lookup_sub by lia. apply lookup_app_l. unfold zlen in *. lia.
Qed.

Lemma sub_app_r {A} a n (l k : list A) :
  zlen l <= a -> sub a n (l ++ k) = sub (a - zlen l) n k.
Proof.
  intros. unfold sub, zlen in *. rewrite drop_app_ge by lia. do 2 f_equal. lia.
Qed.

Lemma sub_all {A} n (l : list A) : n = zlen l -> sub 0 n l = l.
Proof. intros ->. unfold sub, zlen. rewrite Nat2Z.id. simpl. by rewrite take_ge. Qed.

Lemma sub_split {A} a n m (l : list A) :
  0 <= a -> 0 <= n -> 0 <= m -> a + n + m <= zlen l ->
  sub a (n + m) l = sub a n l ++ sub (a + n) m l.
Proof.
  intros. apply list_eq_lookup_Z; [zl|]. intros i Hi. rewrite zlen_sub in Hi by zl.
  rewrite lookup_sub by lia. destruct (decide (i < n)).
  - rewrite lookup_app_l by (pose proof (zlen_sub a n l); unfold zlen in *; lia).
    by rewrite lookup_sub by lia.
  - assert (Hl : zlen (sub a n l) = n) by zl. unfold zlen in Hl.
    rewrite lookup_app_r by lia.
    replace (Z.to_nat i - length (sub a n l))%nat with (Z.to_nat (i - n)) by lia.
    rewrite lookup_sub by lia. f_equal. lia.
Qed.

Lemma sub_sub {A} a n b m (l : list A) :
  0 <= a -> 0 <= b -> 0 <= m -> b + m <= n -> a + n <= zlen l ->
  sub b m (sub a n l) = sub (a + b) m l.
Proof.
  intros. apply list_eq_lookup_Z; [zl|]. intros i Hi. rewrite zlen_sub in Hi by zl.
  rewrite !lookup_sub by lia. f_equal. lia.
Qed.

Lemma sub_zrepeat {A} a n (x : A) m :
  0 <= a -> 0 <= n -> a + n <= m -> sub a n (zrepeat x m) = zrepeat x n.
Proof.
  intros. apply list_eq_lookup_Z; [zl|]. intros i Hi. rewrite zlen_sub in Hi by zl.
  rewrite lookup_sub by lia. unfold zrepeat. rewrite !lookup_replicate_2 by lia. done.
Qed.

(** Two adjacent stores are one store. *)
Lemma upd_adjacent {A} a b (bs cs l : list A) :
  0 <= a -> b = a + zlen bs -> b + zlen cs <= zlen l ->
  upd b cs (upd a bs l) = upd a (bs ++ cs) l.
Proof.
  intros ? -> ?. pose proof (zlen_nonneg bs). pose proof (zlen_nonneg cs).
  apply list_eq_lookup_Z; [zl|]. intros i Hi. rewrite zlen_upd in Hi by zl.
  rewrite zlen_upd in Hi by zl.
  destruct (decide (a <= i < a + zlen bs + zlen cs)).
  - rewrite (lookup_upd_in a (bs ++ cs)) by zl.
    destruct (decide (i < a + zlen bs)).
    + rewrite lookup_upd_out by zl. rewrite lookup_upd_in by zl.
      rewrite lookup_app_l by (unfold zlen in *; lia). done.
    + rewrite lookup_upd_in by zl. rewrite lookup_app_r by (unfold zlen in *; lia).
      f_equal. unfold zlen in *. lia.
  - rewrite !lookup_upd_out by zl. done.
Qed.

(** The checked accesses, in range. *)
Lemma get_range_ok {E A} (l : list A) a b :
  0 <= a <= b -> b <= zlen l -> get_range (E:=E) l a b = Ret (sub a (b - a) l).
Proof. intros. unfold get_range. repeat case_match; [done|lia]. Qed.

Lemma get_range_panic {E A} (l : list A) a b :
  zlen l < b -> get_range (E:=E) l a b = Panic.
Proof. intros. unfold get_range. destruct (Z.leb_spec b (zlen l)); [lia|]. by rewrite andb_false_r. Qed.

Lemma put_range_panic {E A} (l src : list A) a b :
  zlen l < b -> put_range (E:=E) l a b src = Panic.
Proof. intros. unfold put_range. destruct (Z.leb_spec b (zlen l)); [lia|]. by rewrite andb_false_r. Qed.

Lemma put_range_ok {E A} (l src : list A) a b :
  0 <= a -> b = a + zlen src -> b <= zlen l -> put_range (E:=E) l a b src = Ret (upd a src l).
Proof.
  intros ? -> ?. pose proof (zlen_nonneg src). unfold put_range.
  repeat case_match; [done|lia].
Qed.

(** The byte at an offset, as a total function. *)
Definition at0 (i : Z) (l : bytes) : Z := default 0 (l !! Z.to_nat i).

Lemma get_at_ok {E} (l : bytes) i : 0 <= i < zlen l -> get_at (E:=E) l i = Ret (at0 i l).
Proof.
  intros. unfold get_at, at0. case_match; [|lia].
  destruct (lookup_lt_is_Some_2 l (Z.to_nat i)) as [x ->]; [unfold zlen in *; lia|done].
Qed.

Lemma insert_upd {A} i (x : A) l :
  0 <= i < zlen l -> <[Z.to_nat i := x]> l = upd i [x] l.
Proof.
  intros. unfold upd, zlen in *. simpl. rewrite insert_take_drop by lia.
  do 3 f_equal. lia.
Qed.

Lemma put_at_ok {E A} (l : list A) i x :
  0 <= i < zlen l -> put_at (E:=E) l i x = Ret (upd i [x] l).
Proof.
  intros. unfold put_at. case_match; [|lia]. by rewrite insert_upd.
Qed.

Lemma at0_upd_same i x (l : bytes) : 0 <= i < zlen l -> at0 i (upd i [x] l) = x.
Proof.
  intros. unfold at0. rewrite lookup_upd_in by zl.
  rewrite Z.sub_diag. done.
Qed.

Lemma at0_upd_disjoint i b (bs l : bytes) :
  0 <= i -> 0 <= b -> (i < b \/ b + zlen bs <= i) -> b + zlen bs <= zlen l ->
  at0 i (upd b bs l) = at0 i l.
Proof. intros. unfold at0. by rewrite lookup_upd_out by lia. Qed.

Lemma at0_zrepeat i x m : 0 <= i < m -> at0 i (zrepeat x m) = x.
Proof. intros. unfold at0, zrepeat. by rewrite lookup_replicate_2 by lia. Qed.

Lemma at0_app_l i (l k : bytes) : 0 <= i < zlen l -> at0 i (l ++ k) = at0 i l.
Proof. intros. unfold at0, zlen in *. by rewrite lookup_app_l by lia. Qed.

(** ** Lemmas: little-endian integers *)

Lemma le_val_bytes n v : le_val (le_bytes n v) = v mod 256 ^ Z.of_nat n.
Proof.
  revert v. induction n as [|n IH]; intros v; cbn [le_bytes le_val].
  - by rewrite Z.mod_1_r.
  - rewrite IH. rewrite Nat2Z.inj_succ, Z.pow_succ_r by lia.
    rewrite Z.rem_mul_r by lia. lia.
Qed.

Lemma le_val_bytes_small n v : 0 <= v < 256 ^ Z.of_nat n -> le_val (le_bytes n v) = v.
Proof. intros. rewrite le_val_bytes. by apply Z.mod_small. Qed.

Lemma le_val_u16 v : 0 <= v < U16 -> le_val (le_bytes 2 v) = v.
Proof. intros. apply le_val_bytes_small. exact H. Qed.
Lemma le_val_u32 v : 0 <= v < U32 -> le_val (le_bytes 4 v) = v.
Proof. intros. apply le_val_bytes_small. exact H. Qed.
Lemma le_val_u64 v : 0 <= v < U64 -> le_val (le_bytes 8 v) = v.
Proof. intros. apply le_val_bytes_small. exact H. Qed.

Lemma le_val_bound bs : wf_bytes bs -> 0 <= le_val bs < 256 ^ zlen bs.
Proof.
  induction 1 as [|b bs Hb _ IH]; cbn [le_val]; [change (256 ^ zlen []) with 1; lia|].
  rewrite zlen_cons, Z.pow_add_r by (pose proof (zlen_nonneg bs); lia).
  unfold is_byte in Hb. lia.
Qed.

Lemma wf_le_bytes n v : wf_bytes (le_bytes n v).
Proof.
  revert v. induction n; intros v; simpl; constructor; [|apply IHn].
  unfold is_byte. pose proof (Z.mod_pos_bound v 256). lia.
Qed.

Lemma le_bytes_val n bs : wf_bytes bs -> length bs = n -> le_bytes n (le_val bs) = bs.
Proof.
  intros H <-. induction H as [|b bs Hb _ IH]; [done|]. cbn [length le_bytes le_val].
  unfold is_byte in Hb. f_equal.
  - rewrite Z.mul_comm, Z.mod_add by lia. by apply Z.mod_small.
  - rewrite Z.mul_comm, Z.div_add by lia. rewrite Z.div_small by lia. by rewrite Z.add_0_l.
Qed.

Lemma le_val_zrepeat n : le_val (zrepeat 0 n) = 0.
Proof. unfold zrepeat. induction (Z.to_nat n); simpl; lia. Qed.

Lemma wf_zrepeat x n : is_byte x -> wf_bytes (zrepeat x n).
Proof. intros. by apply Forall_replicate. Qed.

Lemma wf_sub a n l : wf_bytes l -> wf_bytes (sub a n l).
Proof. intros. by apply Forall_take, Forall_drop. Qed.

Lemma wf_upd a bs l : wf_bytes bs -> wf_bytes l -> wf_bytes (upd a bs l).
Proof. intros. apply Forall_app_2; [by apply Forall_take|]. apply Forall_app_2; [done|]. by apply Forall_drop. Qed.

Lemma at0_byte i l : wf_bytes l -> is_byte (at0 i l).
Proof.
  intros H. unfold at0. destruct (l !! Z.to_nat i) eqn:E; simpl.
  - by eapply Forall_lookup_1 in E.
  - unfold is_byte. lia.
Qed.

(** ** Lemmas: the order of byte slices *)

Lemma bytes_cmp_eq a b : bytes_cmp a b = Eq <-> a = b.
Proof.
  revert b. induction a as [|x a IH]; intros [|y b]; simpl; try naive_solver.
  destruct (Z.compare_spec x y); subst; rewrite ?IH; naive_solver lia.
Qed.

Lemma bytes_cmp_refl a : bytes_cmp a a = Eq.
Proof. by apply bytes_cmp_eq. Qed.

Lemma bytes_cmp_antisym a b : bytes_cmp b a = CompOpp (bytes_cmp a b).
Proof.
  revert b. induction a as [|x a IH]; intros [|y b]; simpl; try done.
  rewrite (Z.compare_antisym x y). destruct (x ?= y); simpl; auto.
Qed.

Lemma bytes_lt_trans a b c : bytes_lt a b -> bytes_lt b c -> bytes_lt a c.
Proof.
  unfold bytes_lt. revert b c. induction a as [|x a IH]; intros [|y b] [|z c]; simpl; try done.
  destruct (Z.compare_spec x y), (Z.compare_spec y z), (Z.compare_spec x z);
    subst; try done; try lia. eauto.
Qed.

Lemma bytes_lt_irrefl a : ~ bytes_lt a a.
Proof. unfold bytes_lt. by rewrite bytes_cmp_refl. Qed.

#[global] Instance bytes_lt_strict : StrictOrder bytes_lt.
Proof. split; [intros a H; by apply (bytes_lt_irrefl a)|intros a b c; apply bytes_lt_trans]. Qed.

Lemma bytes_le_lteq a b : bytes_le a b <-> bytes_lt a b \/ a = b.
Proof.
  unfold bytes_le, bytes_lt. rewrite <-bytes_cmp_eq. destruct (bytes_cmp a b); naive_solver.
Qed.

Lemma bytes_nlt_le a b : ~ bytes_lt a b <-> bytes_le b a.
Proof.
  unfold bytes_le, bytes_lt. rewrite (bytes_cmp_antisym a b).
  destruct (bytes_cmp a b); naive_solver.
Qed.

Lemma bytes_le_lt_trans a b c : bytes_le a b -> bytes_lt b c -> bytes_lt a c.
Proof. rewrite bytes_le_lteq. intros [H| ->] H'; [by etrans|done]. Qed.

Lemma bytes_lt_le_trans a b c : bytes_lt a b -> bytes_le b c -> bytes_lt a c.
Proof. rewrite bytes_le_lteq. intros H [H'| <-]; [by etrans|done]. Qed.

Lemma bytes_le_refl a : bytes_le a a.
Proof. unfold bytes_le. by rewrite bytes_cmp_refl. Qed.

Lemma bytes_le_trans a b c : bytes_le a b -> bytes_le b c -> bytes_le a c.
Proof. rewrite !bytes_le_lteq. intros [?| ->] [?| <-]; auto. left. by etrans. Qed.

Lemma bytes_lt_le a b : bytes_lt a b -> bytes_le a b.
Proof. rewrite bytes_le_lteq. auto. Qed.

Lemma bytes_total a b : bytes_lt a b \/ a = b \/ bytes_lt b a.
Proof.
  unfold bytes_lt. rewrite <-bytes_cmp_eq, (bytes_cmp_antisym a b).
  destruct (bytes_cmp a b); simpl; auto.
Qed.

Lemma bytes_ltb_spec a b : reflect (bytes_lt a b) (bytes_ltb a b).
Proof. unfold bytes_ltb, bytes_lt. destruct (bytes_cmp a b); constructor; done. Qed.

Lemma bytes_eqb_spec a b : reflect (a = b) (bytes_eqb a b).
Proof.
  unfold bytes_eqb. destruct (bytes_cmp a b) eqn:E; constructor; rewrite <-bytes_cmp_eq; congruence.
Qed.

#[global] Instance bytes_lt_dec a b : Decision (bytes_lt a b).
Proof. unfold bytes_lt. apply _. Defined.

#[export] Hint Resolve bytes_le_refl bytes_lt_le : core.
