(* ===== verification/Common.v ===== *)
(** * Common: constants, page identifiers and errors of the crate (src/src/common.rs)

    Error values keep the variant, its numeric payload and, for [Io], the
    [std::io::ErrorKind]; the human-readable message of an I/O error is not kept,
    nothing in the crate branches on it. *)

From stdpp Require Import base numbers list gmap.
From S2P Require Import Prelude.

Definition PAGE_SIZE : Z := 16 * 1024.
Definition KEY_SIZE : Z := 16.
Definition VALUE_SIZE : Z := 1024.

Abbreviation PageId := Z (only parsing).
Abbreviation Page := (list Z) (only parsing).
Abbreviation Value := (list Z) (only parsing).

(** [std::io::ErrorKind], the kinds the crate distinguishes; [OtherKind] stands for
    the ones that fall in its wildcard arms. *)
Inductive ErrorKind :=
| InvalidInput | AlreadyExists | NotFound | WouldBlock | TimedOut | Interrupted
| BrokenPipe | ConnectionRefused | ConnectionReset | ConnectionAborted | NotConnected
| AddrInUse | AddrNotAvailable | NetworkDown | NetworkUnreachable | HostUnreachable
| InvalidData | UnexpectedEof | PermissionDenied | OtherKind.

Inductive ErrorCategory :=
| CatInvalidInput | CatConflict | CatTimeout | CatBackpressure | CatUnavailable | CatInternal.

Inductive Error :=
| Io (kind : ErrorKind)
| Capnp
| InvalidPageSize (got expected : Z)
| InvalidValueSize (got max : Z)
| InvalidKeySize (got expected : Z)
| InMemoryPageMissing (page_id : Z)
| TxnTimeout.

#[global] Instance ErrorKind_eq_dec : EqDecision ErrorKind.
Proof. solve_decision. Defined.
#[global] Instance ErrorCategory_eq_dec : EqDecision ErrorCategory.
Proof. solve_decision. Defined.
#[global] Instance Error_eq_dec : EqDecision Error.
Proof. solve_decision. Defined.

(** The [match err.kind()] shared by [Error::category] and [TxnError::category]. *)
Definition kind_category (k : ErrorKind) : ErrorCategory :=
  match k with
  | InvalidInput | AlreadyExists | NotFound => CatInvalidInput
  | WouldBlock => CatBackpressure
  | TimedOut => CatTimeout
  | Interrupted | BrokenPipe | ConnectionRefused | ConnectionReset | ConnectionAborted
  | NotConnected | AddrInUse | AddrNotAvailable | NetworkDown | NetworkUnreachable
  | HostUnreachable => CatUnavailable
  | _ => CatInternal
  end.

Definition category (e : Error) : ErrorCategory :=
  match e with
  | InvalidPageSize _ _ | InvalidValueSize _ _ | InvalidKeySize _ _ => CatInvalidInput
  | TxnTimeout => CatTimeout
  | InMemoryPageMissing _ => CatInternal
  | Capnp => CatUnavailable
  | Io k => kind_category k
  end.

Definition is_retryable (e : Error) : bool :=
  match category e with
  | CatTimeout | CatBackpressure | CatUnavailable => true
  | _ => false
  end.

(** ** Fixed-width fields of a page

    [u16::from_le_bytes(page[off..off + 2])] and the matching stores; a copy of
    these helpers is private to each page format of the crate. *)

Definition read_le {E} (n : nat) (p : bytes) (off : Z) : outcome E Z :=
  bs ← get_range p off (off + Z.of_nat n); Ret (le_val bs).

Definition write_le {E} (n : nat) (p : bytes) (off v : Z) : outcome E bytes :=
  put_range p off (off + Z.of_nat n) (le_bytes n v).

(** The field as a total function of the page. *)
Definition fld (n : nat) (off : Z) (p : bytes) : Z := le_val (sub off (Z.of_nat n) p).

Lemma read_le_ok {E} n p off :
  0 <= off -> off + Z.of_nat n <= zlen p -> read_le (E:=E) n p off = Ret (fld n off p).
Proof.
  intros. unfold read_le, fld. rewrite get_range_ok by lia. cbn. by rewrite Z.add_simpl_l.
Qed.

Lemma read_le_panic {E} n p off :
  zlen p < off + Z.of_nat n -> read_le (E:=E) n p off = Panic.
Proof. intros. unfold read_le. by rewrite get_range_panic. Qed.

Lemma write_le_panic {E} n p off v :
  zlen p < off + Z.of_nat n -> write_le (E:=E) n p off v = Panic.
Proof. intros. unfold write_le. by rewrite put_range_panic. Qed.

Lemma write_le_ok {E} n p off v :
  0 <= off -> off + Z.of_nat n <= zlen p ->
  write_le (E:=E) n p off v = Ret (upd off (le_bytes n v) p).
Proof. intros. unfold write_le. apply put_range_ok; rewrite ?zlen_le_bytes; lia. Qed.

Lemma fld_upd_same n off v p :
  0 <= off -> off + Z.of_nat n <= zlen p -> 0 <= v < 256 ^ Z.of_nat n ->
  fld n off (upd off (le_bytes n v) p) = v.
Proof.
  intros. unfold fld. rewrite sub_upd_same by (rewrite ?zlen_le_bytes; lia).
  by apply le_val_bytes_small.
Qed.

Lemma fld_upd_disjoint n off b bs p :
  0 <= off -> off + Z.of_nat n <= zlen p -> 0 <= b -> b + zlen bs <= zlen p ->
  (off + Z.of_nat n <= b \/ b + zlen bs <= off) ->
  fld n off (upd b bs p) = fld n off p.
Proof. intros. unfold fld. by rewrite sub_upd_disjoint by lia. Qed.

Lemma fld_zrepeat n off m :
  0 <= off -> off + Z.of_nat n <= m -> fld n off (zrepeat 0 m) = 0.
Proof. intros. unfold fld. rewrite sub_zrepeat by lia. apply le_val_zrepeat. Qed.

Lemma fld_bound n off p :
  wf_bytes p -> 0 <= off -> off + Z.of_nat n <= zlen p -> 0 <= fld n off p < 256 ^ Z.of_nat n.
Proof.
  intros Hp ? ?. unfold fld. pose proof (le_val_bound (sub off (Z.of_nat n) p) (wf_sub _ _ _ Hp)) as Hb.
  rewrite zlen_sub in Hb by lia. done.
Qed.

Lemma zlen_PAGE (p : Page) : zlen p = PAGE_SIZE -> zlen p = 16384.
Proof. intros ->. reflexivity. Qed.

(** Fields of concatenated encodings. *)
Lemma fld_upd_inside n off b bs p :
  0 <= b <= off -> off + Z.of_nat n <= b + zlen bs -> b + zlen bs <= zlen p ->
  fld n off (upd b bs p) = fld n (off - b) bs.
Proof. intros. unfold fld. by rewrite sub_upd_inside by lia. Qed.

Lemma fld_app_l n off l k :
  0 <= off -> off + Z.of_nat n <= zlen l -> fld n off (l ++ k) = fld n off l.
Proof. intros. unfold fld. by rewrite sub_app_l by lia. Qed.

Lemma fld_app_r n off l k :
  zlen l <= off -> fld n off (l ++ k) = fld n (off - zlen l) k.
Proof. intros. unfold fld. by rewrite sub_app_r. Qed.

Lemma fld_le_bytes n v : 0 <= v < 256 ^ Z.of_nat n -> fld n 0 (le_bytes n v) = v.
Proof.
  intros. unfold fld. rewrite sub_all by (by rewrite zlen_le_bytes). by apply le_val_bytes_small.
Qed.

Lemma fld_le_bytes_app n v k :
  0 <= v < 256 ^ Z.of_nat n -> fld n 0 (le_bytes n v ++ k) = v.
Proof.
  intros. rewrite fld_app_l by (rewrite ?zlen_le_bytes; lia). by apply fld_le_bytes.
Qed.

(** Reading a field of a concatenation of [le_bytes] and other segments: evaluate a
    closed offset, skip the leading segment while the offset is past it, then read
    the one that starts there. *)
Ltac fld_eval :=
  match goal with
  | |- context [fld ?n ?o ?l] =>
      let o' := eval vm_compute in o in
      lazymatch o' with Z0 => idtac | Zpos _ => idtac end;
      progress change (fld n o l) with (fld n o' l)
  end.
Ltac fld_skip :=
  repeat fld_eval;
  repeat (rewrite fld_app_r by (zlens; lia); zlens; repeat fld_eval).

(** ** The allocator

    [Vec::with_capacity(count)] panics when the elements take more than [isize::MAX] bytes
    and ends the process when the allocator has no room; both are [Panic] here.  What the
    allocator does is not code of the crate.  [grants held n] says whether a request for [n]
    bytes is granted while a buffer of [held] bytes is in memory: a few times as much as such
    a buffer always is, more need not be. *)
Class Allocator := {
  grants : Z -> Z -> bool;
  grants_scaled held n : n <= 4 * held -> grants held n = true
}.

Definition ISIZE_MAX : Z := 2 ^ 63 - 1.

Definition fits `{Allocator} (held count size : Z) : bool := (count * size <=? ISIZE_MAX) && grants held (count * size).

Definition with_capacity `{Allocator} {E} (held count size : Z) : outcome E unit :=
  if fits held count size then Ret tt else Panic.

Lemma fits_scaled `{Allocator} held count size :
  count * size <= ISIZE_MAX -> count * size <= 4 * held -> fits held count size = true.
Proof. intros H1 H2. unfold fits. by rewrite (proj2 (Z.leb_le _ _) H1), grants_scaled. Qed.

(** An allocator that has [room] bytes besides. *)
Definition with_room (room : Z) : Allocator.
Proof.
  refine {| grants held n := n <=? Z.max (4 * held) room |}. intros held n Hn. apply Z.leb_le. lia.
Defined.

(** A machine that can give a vector of a gigabyte. *)
Definition machine : Allocator := with_room (2 ^ 30).
