(* ===== verification/SlottedPage.v ===== *)
(** * SlottedPage: slotted data pages (src/src/slotted_page.rs)

    A page is 16 KiB: a header ([slots], [free_start], [free_end]), a slot
    directory growing up and fixed-size payloads (key, value, MVCC header) growing
    down.  The operations below are the functions of the file, one by one, on the
    page's bytes; every slice access is checked, so a theorem that an operation
    returns [Ret] also says that it does not panic.  Operations on [&mut [u8]]
    return the new page; each of them returns its error before the first store. *)

From stdpp Require Import base numbers list list_numbers gmap.
From S2P Require Import Prelude Common.

(** Undo pointers (src/src/undo_pg.rs) are stored in data records. *)
Record UndoPtr := { up_page_id : Z; up_slot_id : Z }.

#[global] Instance UndoPtr_eq_dec : EqDecision UndoPtr.
Proof. solve_decision. Defined.

Definition PAGE_HEADER_SIZE : Z := 6.
Definition SLOT_ENTRY_SIZE : Z := 4.
Definition MVCC_HEADER_SIZE : Z := 8 + 8 + 2 + 2.
Definition FLAG_TOMBSTONE : Z := 1.

Module Slotted.

Abbreviation M := (outcome Error) (only parsing).

Definition read_u16 (page : Page) (offset : Z) : M Z := read_le 2 page offset.
Definition write_u16 (page : Page) (offset value : Z) : M Page := write_le 2 page offset value.

Definition read_header (page : Page) : M (Z * Z * Z) :=
  slots ← read_u16 page 0;
  free_start ← read_u16 page 2;
  free_end ← read_u16 page 4;
  Ret (slots, free_start, free_end).

Definition write_header (page : Page) (slots free_start free_end : Z) : M Page :=
  page ← write_u16 page 0 slots;
  page ← write_u16 page 2 free_start;
  write_u16 page 4 free_end.

Definition slot_offset (slot_id : Z) : Z := PAGE_HEADER_SIZE + SLOT_ENTRY_SIZE * slot_id.

Definition read_slot (page : Page) (slot_id : Z) : M (Z * Z) :=
  pos ← read_u16 page (slot_offset slot_id);
  len ← read_u16 page (slot_offset slot_id + 2);
  Ret (pos, len).

Definition write_slot (page : Page) (slot_id offset len : Z) : M Page :=
  page ← write_u16 page (slot_offset slot_id) offset;
  write_u16 page (slot_offset slot_id + 2) len.

Fixpoint find_free_in (page : Page) (ids : list Z) : M (option Z) :=
  match ids with
  | [] => Ret None
  | slot_id :: ids =>
      '(_, len) ← read_slot page slot_id;
      if len =? 0 then Ret (Some slot_id) else find_free_in page ids
  end.

Definition find_free_slot (page : Page) (slots : Z) : M (option Z) :=
  find_free_in page (seqZ 0 slots).

Definition payload_len : Z := KEY_SIZE + VALUE_SIZE + MVCC_HEADER_SIZE.

Definition slot_payload_offset (page : Page) (slot_id : Z) : M (option Z) :=
  if negb (zlen page =? PAGE_SIZE) then Ret None else
  '(pos, len) ← read_slot page slot_id;
  if negb (len =? payload_len) then Ret None else
  if PAGE_SIZE <? pos + payload_len then Ret None else
  Ret (Some pos).

Definition new_page : M Page :=
  write_header (zrepeat 0 PAGE_SIZE) 0 (wrap16 PAGE_HEADER_SIZE) (wrap16 PAGE_SIZE).

Definition page_free_space (page : Page) : M Z :=
  if negb (zlen page =? PAGE_SIZE) then Ret 0 else
  '(_, free_start, free_end) ← read_header page;
  Ret (sat_sub free_end free_start).

Definition slot_count (page : Page) : M Z :=
  if negb (zlen page =? PAGE_SIZE) then Ret 0 else
  '(slots, _, _) ← read_header page;
  Ret slots.

Definition clear_slot (page : Page) (slot_id : Z) : M Page :=
  if negb (zlen page =? PAGE_SIZE) then Ret page else
  write_slot page slot_id 0 0.

(** [defragment]: collect the live payloads, then pack them from the page's end. *)
Fixpoint collect_live (page : Page) (ids : list Z) : M (list (Z * bytes)) :=
  match ids with
  | [] => Ret []
  | slot_id :: ids =>
      '(pos, len) ← read_slot page slot_id;
      if len =? 0 then collect_live page ids else
      if PAGE_SIZE <? pos + len then Fail (InvalidPageSize (pos + len) PAGE_SIZE) else
      payload ← get_range page pos (pos + len);
      live ← collect_live page ids;
      Ret ((slot_id, payload) :: live)
  end.

Fixpoint pack_live (page : Page) (free_end : Z) (live : list (Z * bytes)) : M (Page * Z) :=
  match live with
  | [] => Ret (page, free_end)
  | (slot_id, payload) :: live =>
      let len := wrap16 (zlen payload) in
      let new_pos := wrap16 (free_end - len) in
      page ← put_range page new_pos (new_pos + zlen payload) payload;
      page ← write_slot page slot_id new_pos len;
      pack_live page new_pos live
  end.

Definition defragment (page : Page) : M Page :=
  if negb (zlen page =? PAGE_SIZE) then Fail (InvalidPageSize (zlen page) PAGE_SIZE) else
  '(slots, free_start, _) ← read_header page;
  live ← collect_live page (seqZ 0 slots);
  '(page, free_end) ← pack_live page (wrap16 PAGE_SIZE) live;
  write_header page slots free_start free_end.

Definition read_key (page : Page) (slot_id : Z) : M (option bytes) :=
  if negb (zlen page =? PAGE_SIZE) then Ret None else
  '(pos, len) ← read_slot page slot_id;
  if negb (len =? payload_len) then Ret None else
  if PAGE_SIZE <? pos + KEY_SIZE then Ret None else
  k ← get_range page pos (pos + KEY_SIZE);
  Ret (Some k).

Definition debug_slot (page : Page) (slot_id : Z) : M (option (Z * Z)) :=
  if negb (zlen page =? PAGE_SIZE) then Ret None else
  '(slots, _, _) ← read_header page;
  if slots <=? slot_id then Ret None else
  s ← read_slot page slot_id;
  Ret (Some s).

(** The shape shared by the keyed readers: the page and key sizes, the payload
    offset and the key comparison, then [f] on the payload offset. *)
Definition keyed {A} (page : Page) (slot_id : Z) (key : bytes)
    (f : Z -> M (option A)) : M (option A) :=
  if negb (zlen page =? PAGE_SIZE) || negb (zlen key =? KEY_SIZE) then Ret None else
  o ← slot_payload_offset page slot_id;
  match o with
  | None => Ret None
  | Some pos =>
      k ← get_range page pos (pos + KEY_SIZE);
      if negb (bytes_eqb k key) then Ret None else f pos
  end.

Definition read_value (page : Page) (slot_id : Z) (key : bytes) : M (option bytes) :=
  keyed page slot_id key (fun pos =>
    let v0 := pos + KEY_SIZE in
    let v1 := v0 + VALUE_SIZE in
    flags ← read_u16 page (v1 + 8 + 8 + 2);
    if negb (Z.land flags FLAG_TOMBSTONE =? 0) then Ret None else
    v ← get_range page v0 v1;
    Ret (Some v)).

Definition overwrite_value (page : Page) (slot_id : Z) (key value : bytes) : M Page :=
  if negb (zlen page =? PAGE_SIZE) then Fail (InvalidPageSize (zlen page) PAGE_SIZE) else
  if negb (zlen key =? KEY_SIZE) then Fail (InvalidKeySize (zlen key) KEY_SIZE) else
  if negb (zlen value =? VALUE_SIZE) then Fail (InvalidValueSize (zlen value) VALUE_SIZE) else
  '(pos, len) ← read_slot page slot_id;
  if negb (len =? payload_len) then Fail (Io InvalidInput) else
  if PAGE_SIZE <? pos + payload_len then Fail (InvalidPageSize (pos + payload_len) PAGE_SIZE) else
  k ← get_range page pos (pos + KEY_SIZE);
  if negb (bytes_eqb k key) then Fail (Io InvalidInput) else
  let v0 := pos + KEY_SIZE in
  put_range page v0 (v0 + VALUE_SIZE) value.

Definition read_commit_lsn (page : Page) (slot_id : Z) (key : bytes) : M (option Z) :=
  keyed page slot_id key (fun pos =>
    lsn ← read_le 8 page (pos + KEY_SIZE + VALUE_SIZE);
    Ret (Some lsn)).

Definition write_commit_lsn (page : Page) (slot_id commit_lsn : Z) : M Page :=
  o ← slot_payload_offset page slot_id;
  match o with
  | None => Ret page
  | Some pos => write_le 8 page (pos + KEY_SIZE + VALUE_SIZE) commit_lsn
  end.

Definition read_undo_ptr (page : Page) (slot_id : Z) (key : bytes) : M (option UndoPtr) :=
  keyed page slot_id key (fun pos =>
    let off := pos + KEY_SIZE + VALUE_SIZE + 8 in
    pid ← read_le 8 page off;
    if pid =? 0 then Ret None else
    sid ← read_u16 page (off + 8);
    Ret (Some {| up_page_id := pid; up_slot_id := sid |})).

Definition write_undo_ptr (page : Page) (slot_id : Z) (undo : option UndoPtr) : M Page :=
  o ← slot_payload_offset page slot_id;
  match o with
  | None => Ret page
  | Some pos =>
      let off := pos + KEY_SIZE + VALUE_SIZE + 8 in
      let '(pid, sid) :=
        match undo with Some u => (up_page_id u, up_slot_id u) | None => (0, 0) end in
      page ← write_le 8 page off pid;
      write_u16 page (off + 8) sid
  end.

Definition read_flags (page : Page) (slot_id : Z) (key : bytes) : M (option Z) :=
  keyed page slot_id key (fun pos =>
    flags ← read_u16 page (pos + KEY_SIZE + VALUE_SIZE + 8 + 8 + 2);
    Ret (Some flags)).

Definition write_flags (page : Page) (slot_id flags : Z) : M Page :=
  o ← slot_payload_offset page slot_id;
  match o with
  | None => Ret page
  | Some pos => write_u16 page (pos + KEY_SIZE + VALUE_SIZE + 8 + 8 + 2) flags
  end.

Definition mark_tombstone (page : Page) (slot_id : Z) : M Page :=
  o ← slot_payload_offset page slot_id;
  match o with
  | None => Ret page
  | Some pos =>
      let off := pos + KEY_SIZE + VALUE_SIZE + 8 + 8 + 2 in
      flags ← read_u16 page off;
      write_u16 page off (Z.lor flags FLAG_TOMBSTONE)
  end.

Definition insert_record (page : Page) (key value : bytes) : M (Page * Z) :=
  if negb (zlen page =? PAGE_SIZE) then Fail (InvalidPageSize (zlen page) PAGE_SIZE) else
  if negb (zlen key =? KEY_SIZE) then Fail (InvalidKeySize (zlen key) KEY_SIZE) else
  if negb (zlen value =? VALUE_SIZE) then Fail (InvalidValueSize (zlen value) VALUE_SIZE) else
  '(slots, free_start, free_end) ← read_header page;
  free_slot ← find_free_slot page slots;
  let needed := payload_len + (if free_slot is None then SLOT_ENTRY_SIZE else 0) in
  let free_bytes := sat_sub free_end free_start in
  if free_bytes <? needed then Fail (InvalidValueSize needed free_bytes) else
  let slot_id := default slots free_slot in
  let '(free_start, slots) :=
    match free_slot with
    | None => (sat_add16 free_start SLOT_ENTRY_SIZE, sat_add16 slots 1)
    | Some _ => (free_start, slots)
    end in
  let payload_offset := wrap16 (sat_sub free_end payload_len) in
  let cursor := payload_offset in
  page ← put_range page cursor (cursor + KEY_SIZE) key;
  let cursor := cursor + KEY_SIZE in
  page ← put_range page cursor (cursor + VALUE_SIZE) value;
  let cursor := cursor + VALUE_SIZE in
  page ← write_le 8 page cursor 0;
  let cursor := cursor + 8 in
  page ← write_le 8 page cursor 0;
  let cursor := cursor + 8 in
  page ← write_u16 page cursor 0;
  let cursor := cursor + 2 in
  page ← write_u16 page cursor 0;
  page ← write_slot page slot_id payload_offset (wrap16 payload_len);
  page ← write_header page slots free_start payload_offset;
  Ret (page, slot_id).

Definition insert_record_at_slot_checked (page : Page) (slot_id : Z) (key value : bytes) : M Page :=
  if negb (zlen page =? PAGE_SIZE) then Fail (InvalidPageSize (zlen page) PAGE_SIZE) else
  if negb (zlen key =? KEY_SIZE) then Fail (InvalidKeySize (zlen key) KEY_SIZE) else
  if negb (zlen value =? VALUE_SIZE) then Fail (InvalidValueSize (zlen value) VALUE_SIZE) else
  '(slots, _, _) ← read_header page;
  let fallback := '(page, _) ← insert_record page key value; Ret page in
  if slot_id <? slots then
    existing ← read_value page slot_id key;
    match existing with
    | Some _ => overwrite_value page slot_id key value
    | None =>
        '(_, len) ← read_slot page slot_id;
        if negb (len =? 0) then Fail (Io InvalidInput) else fallback
    end
  else fallback.

Definition fixed_key_bytes (input : bytes) : M bytes :=
  let n := Z.min (zlen input) KEY_SIZE in
  src ← get_range input 0 n;
  put_range (zrepeat 0 KEY_SIZE) 0 n src.

End Slotted.

(** ** The abstract view of a page: a partial map from slots to payloads *)

Module SlottedSpec.
Import Slotted.

Ltac consts :=
  unfold payload_len, slot_offset, MVCC_HEADER_SIZE, PAGE_HEADER_SIZE, SLOT_ENTRY_SIZE,
    PAGE_SIZE, KEY_SIZE, VALUE_SIZE, sat_sub, sat_add16, U16 in *.
Ltac clia := consts; zlens; lia.

Definition slots (p : Page) : Z := fld 2 0 p.
Definition free_start (p : Page) : Z := fld 2 2 p.
Definition free_end (p : Page) : Z := fld 2 4 p.
Definition slot_pos (p : Page) (i : Z) : Z := fld 2 (slot_offset i) p.
Definition slot_len (p : Page) (i : Z) : Z := fld 2 (slot_offset i + 2) p.

Definition live (p : Page) (i : Z) : Prop := 0 <= i < slots p /\ slot_len p i <> 0.

(** The payload stored in a slot, if the slot is live. *)
Definition record (p : Page) (i : Z) : option bytes :=
  if decide (0 <= i < slots p /\ slot_len p i <> 0)
  then Some (sub (slot_pos p i) payload_len p) else None.

(** The live slots as a finite set. *)
Definition live_set (p : Page) : gset Z :=
  filter (fun i => slot_len p i <> 0) (list_to_set (seqZ 0 (slots p))).

Lemma elem_of_live_set p i : i ∈ live_set p <-> live p i.
Proof.
  unfold live_set, live. rewrite elem_of_filter, elem_of_list_to_set, elem_of_seqZ.
  split; intros [? ?]; (split; [lia|done]) || (split; [done|lia]).
Qed.

(** Well-formed pages: the directory ends at [free_start], every live slot holds a
    whole payload above [free_end], payloads do not overlap and fit together. *)
Record wf (p : Page) : Prop := {
  wf_len : zlen p = PAGE_SIZE;
  wf_content : wf_bytes p;
  wf_start : free_start p = PAGE_HEADER_SIZE + SLOT_ENTRY_SIZE * slots p;
  wf_end : free_start p <= free_end p <= PAGE_SIZE;
  wf_slot : forall i, live p i ->
    slot_len p i = payload_len /\ free_end p <= slot_pos p i /\
    slot_pos p i + payload_len <= PAGE_SIZE;
  wf_disj : forall i j, live p i -> live p j -> i <> j ->
    slot_pos p i + payload_len <= slot_pos p j \/ slot_pos p j + payload_len <= slot_pos p i;
  wf_room : payload_len * Z.of_nat (size (live_set p)) <= PAGE_SIZE - free_end p
}.

Lemma read_header_ok p :
  zlen p = PAGE_SIZE -> read_header p = Ret (slots p, free_start p, free_end p).
Proof.
  intros. unfold read_header, read_u16.
  rewrite !read_le_ok by clia. reflexivity.
Qed.

Lemma read_slot_ok p i :
  zlen p = PAGE_SIZE -> 0 <= i -> slot_offset i + 4 <= PAGE_SIZE ->
  read_slot p i = Ret (slot_pos p i, slot_len p i).
Proof.
  intros. unfold read_slot, read_u16.
  rewrite !read_le_ok by clia. reflexivity.
Qed.

Lemma write_slot_ok p i pos len :
  zlen p = PAGE_SIZE -> 0 <= i -> slot_offset i + 4 <= PAGE_SIZE ->
  write_slot p i pos len = Ret (upd (slot_offset i) (le_bytes 2 pos ++ le_bytes 2 len) p).
Proof.
  intros. unfold write_slot, write_u16.
  rewrite write_le_ok by clia. cbn [mbind outcome_bind].
  rewrite write_le_ok by clia. rewrite upd_adjacent by clia. reflexivity.
Qed.

Lemma write_header_ok p s fs fe :
  zlen p = PAGE_SIZE ->
  write_header p s fs fe = Ret (upd 0 (le_bytes 2 s ++ le_bytes 2 fs ++ le_bytes 2 fe) p).
Proof.
  intros. unfold write_header, write_u16.
  rewrite write_le_ok by clia. cbn [mbind outcome_bind].
  rewrite write_le_ok by clia. cbn [mbind outcome_bind].
  rewrite upd_adjacent by clia.
  rewrite write_le_ok by clia. rewrite upd_adjacent by clia. by rewrite <-app_assoc.
Qed.

(** A directory entry of a well-formed page lies inside the page. *)
Lemma slot_dir_bound p i : wf p -> 0 <= i < slots p -> slot_offset i + 4 <= free_end p.
Proof. intros [] ?. clia. Qed.

Lemma slot_dir_in p i : wf p -> 0 <= i < slots p -> slot_offset i + 4 <= PAGE_SIZE.
Proof. intros Hwf ?. pose proof (slot_dir_bound p i Hwf). destruct Hwf. lia. Qed.

Lemma slots_nonneg p : wf p -> 0 <= slots p.
Proof. intros []. unfold slots. apply fld_bound; [done|lia|clia]. Qed.

Lemma record_Some p i r :
  record p i = Some r <-> live p i /\ r = sub (slot_pos p i) payload_len p.
Proof. unfold record, live. case_decide; naive_solver. Qed.

Lemma record_None p i : record p i = None <-> ~ live p i.
Proof. unfold record, live. case_decide; naive_solver. Qed.

Lemma record_zlen p i r : wf p -> record p i = Some r -> zlen r = payload_len.
Proof.
  intros Hwf [Hl ->]%record_Some. destruct (wf_slot p Hwf i Hl) as (_ & ? & ?).
  pose proof (slots_nonneg p Hwf). destruct Hwf. rewrite zlen_sub; clia.
Qed.

(** Stores that leave the header, a slot's directory entry and its payload alone. *)
Lemma record_upd_other p off bs i :
  wf p -> 0 <= off -> off + zlen bs <= PAGE_SIZE ->
  0 <= i < slots p ->
  PAGE_HEADER_SIZE <= off ->
  (slot_offset i + 4 <= off \/ off + zlen bs <= slot_offset i) ->
  (live p i -> slot_pos p i + payload_len <= off \/ off + zlen bs <= slot_pos p i) ->
  record (upd off bs p) i = record p i.
Proof.
  intros Hwf Hoff Hle Hi Hhd Hdir Hpay.
  pose proof (slot_dir_in p i Hwf Hi). pose proof (slot_dir_bound p i Hwf Hi).
  pose proof (wf_len p Hwf). pose proof (zlen_nonneg bs).
  assert (Hs : slots (upd off bs p) = slots p) by (apply fld_upd_disjoint; clia).
  assert (Hp : slot_pos (upd off bs p) i = slot_pos p i) by (apply fld_upd_disjoint; clia).
  assert (Hl : slot_len (upd off bs p) i = slot_len p i) by (apply fld_upd_disjoint; clia).
  unfold record. rewrite Hs, Hp, Hl. case_decide as Hd; [|done]. f_equal.
  destruct (wf_slot p Hwf i Hd) as (? & ? & ?). specialize (Hpay Hd).
  apply sub_upd_disjoint; clia.
Qed.

(** [record] is determined by the slot count, the directory entry and the payload. *)
Lemma record_ext p p' i :
  (0 <= i < slots p' <-> 0 <= i < slots p) ->
  (0 <= i < slots p -> slot_len p' i = slot_len p i) ->
  (live p i -> slot_pos p' i = slot_pos p i /\
    sub (slot_pos p i) payload_len p' = sub (slot_pos p i) payload_len p) ->
  record p' i = record p i.
Proof.
  intros Hs Hl Hp. unfold record. unfold live in Hp.
  destruct (decide (0 <= i < slots p /\ slot_len p i <> 0)) as [[Hi Hn]|Hn].
  - rewrite decide_True by (rewrite Hs, Hl; auto).
    destruct (Hp (conj Hi Hn)) as [-> ->]. done.
  - rewrite decide_False; [done|]. intros [Hi Hne]. apply Hn.
    rewrite <-Hs. split; [done|]. rewrite <-Hl; [done|by apply Hs].
Qed.

(** The page after a payload [r] is placed at [pos] under slot [s] and the header
    is rewritten: what [insert_record] builds. *)
Definition placed (p : Page) (s n fs pos : Z) (r : bytes) : Page :=
  upd 0 (le_bytes 2 n ++ le_bytes 2 fs ++ le_bytes 2 pos)
    (upd (slot_offset s) (le_bytes 2 pos ++ le_bytes 2 payload_len) (upd pos r p)).

Section Placed.
Context (p : Page) (s n fs pos : Z) (r : bytes).
Hypothesis Hwf : wf p.
Hypothesis Hr : zlen r = payload_len.
Hypothesis Hrb : wf_bytes r.
Hypothesis Hpos : pos = free_end p - payload_len.
Hypothesis Hfs : fs = PAGE_HEADER_SIZE + SLOT_ENTRY_SIZE * n.
Hypothesis Hroom : fs <= pos.
Hypothesis Hs : (0 <= s < slots p /\ n = slots p) \/ (s = slots p /\ n = slots p + 1).

Let p' := placed p s n fs pos r.

Lemma placed_bounds :
  0 <= slots p /\ 0 <= s < n /\ 0 <= pos /\ slot_offset s + 4 <= pos /\
  zlen p = 16384 /\ pos + payload_len <= 16384.
Proof. pose proof (slots_nonneg p Hwf). destruct Hwf. clia. Qed.

Lemma placed_len : zlen p' = PAGE_SIZE.
Proof. pose proof placed_bounds. unfold p', placed. destruct Hwf. zlens; clia. Qed.

Lemma placed_header : slots p' = n /\ free_start p' = fs /\ free_end p' = pos.
Proof.
  pose proof placed_bounds as H. unfold p', placed, slots, free_start, free_end.
  assert (0 <= n < 16384 /\ 0 <= fs < 16384 /\ 0 <= pos < 16384) by clia.
  repeat split; rewrite fld_upd_inside by clia; fld_skip; apply fld_le_bytes_app || apply fld_le_bytes;
    change (256 ^ Z.of_nat 2) with 65536; lia.
Qed.

Lemma placed_new_dir : slot_pos p' s = pos /\ slot_len p' s = payload_len.
Proof.
  pose proof placed_bounds as H. unfold p', placed, slot_pos, slot_len.
  split; rewrite fld_upd_disjoint by clia; rewrite fld_upd_inside by clia.
  - rewrite Z.sub_diag. apply fld_le_bytes_app. change (256 ^ Z.of_nat 2) with 65536. clia.
  - replace (slot_offset s + 2 - slot_offset s) with 2 by lia. fld_skip.
    apply fld_le_bytes. vm_compute. split; congruence.
Qed.

Lemma placed_old_dir i :
  0 <= i < slots p -> i <> s -> slot_pos p' i = slot_pos p i /\ slot_len p' i = slot_len p i.
Proof.
  intros Hi Hne. pose proof placed_bounds as H. pose proof (slot_dir_bound p i Hwf Hi).
  unfold p', placed, slot_pos, slot_len.
  assert (slot_offset i + 4 <= pos) by clia.
  split; rewrite !fld_upd_disjoint by clia; done.
Qed.

Lemma placed_old_payload i :
  live p i -> sub (slot_pos p i) payload_len p' = sub (slot_pos p i) payload_len p.
Proof.
  intros Hi. pose proof placed_bounds as H. destruct (wf_slot p Hwf i Hi) as (? & ? & ?).
  unfold p', placed. rewrite !sub_upd_disjoint by clia. done.
Qed.

Lemma placed_new_payload : sub pos payload_len p' = r.
Proof.
  pose proof placed_bounds as H. unfold p', placed.
  rewrite !sub_upd_disjoint by clia. apply sub_upd_same; clia.
Qed.

Lemma placed_live i : live p' i -> i = s \/ (i <> s /\ live p i).
Proof.
  intros [Hi Hl]. destruct (decide (i = s)); [by left|right]. split; [done|].
  destruct placed_header as (Hn & _ & _). rewrite Hn in Hi.
  assert (0 <= i < slots p) by lia. split; [done|].
  by rewrite (proj2 (placed_old_dir i ltac:(done) ltac:(done))) in Hl.
Qed.

Lemma placed_record i :
  (forall j, j = s -> ~ live p j) ->
  record p' i = if decide (i = s) then Some r else record p i.
Proof.
  intros Hdead. destruct placed_header as (Hn & _ & _). case_decide as Hi.
  - subst i. apply record_Some. destruct placed_new_dir as [Hp Hl]. split.
    + split; [rewrite Hn; apply placed_bounds|]. rewrite Hl. clia.
    + rewrite Hp. by rewrite placed_new_payload.
  - apply record_ext.
    + rewrite Hn. lia.
    + intros ?. by apply placed_old_dir.
    + intros Hl. split; [apply placed_old_dir; [apply Hl|done]|by apply placed_old_payload].
Qed.

Lemma placed_live_set : live_set p' = {[s]} ∪ live_set p.
Proof.
  apply set_eq. intros i. rewrite elem_of_union, elem_of_singleton, !elem_of_live_set.
  destruct placed_header as (Hn & _ & _). destruct placed_new_dir as [_ Hl]. split.
  - intros Hi. destruct (placed_live i Hi) as [|[]]; auto.
  - pose proof placed_bounds as Hb. intros [->|Hi].
    + split; [rewrite Hn; lia|]. rewrite Hl. clia.
    + destruct (decide (i = s)) as [->|Hne].
      * split; [rewrite Hn; lia|]. rewrite Hl. clia.
      * destruct Hi as [Hi Hli]. split; [rewrite Hn; lia|].
        by rewrite (proj2 (placed_old_dir i Hi Hne)).
Qed.

Lemma placed_wf : ~ live p s -> wf p'.
Proof.
  intros Hdead.
  pose proof placed_bounds as Hb. destruct placed_header as (Hn & Hst & Hen).
  destruct placed_new_dir as [Hp Hl].
  assert (Hslot : forall i, live p' i -> i <> s ->
    slot_pos p' i = slot_pos p i /\ slot_len p' i = slot_len p i /\ live p i /\
    free_end p <= slot_pos p i /\ slot_pos p i + payload_len <= PAGE_SIZE /\
    slot_len p i = payload_len).
  { intros i Hi Hne. destruct (placed_live i Hi) as [|[_ Hli]]; [done|].
    destruct (placed_old_dir i (proj1 Hli) Hne). destruct (wf_slot p Hwf i Hli) as (?&?&?).
    split_and!; auto. }
  split.
  - apply placed_len.
  - unfold p', placed. destruct Hwf.
    repeat (apply wf_upd || apply Forall_app_2 || apply wf_le_bytes || done).
  - lia.
  - clia.
  - intros i Hi. destruct (decide (i = s)) as [->|Hne].
    + rewrite Hl, Hp, Hen. clia.
    + destruct (Hslot i Hi Hne) as (->&->&?&?&?&?). rewrite Hen. clia.
  - intros i j Hi Hj Hij.
    destruct (decide (i = s)) as [->|Hni], (decide (j = s)) as [->|Hnj]; [done| | |].
    + destruct (Hslot j Hj Hnj) as (->&?&?&?&?&?). rewrite Hp. clia.
    + destruct (Hslot i Hi Hni) as (->&?&?&?&?&?). rewrite Hp. clia.
    + destruct (Hslot i Hi Hni) as (->&?&?&?), (Hslot j Hj Hnj) as (->&?&?&?).
      by apply (wf_disj p Hwf).
  - rewrite placed_live_set, size_union, size_singleton, Hen by (rewrite disjoint_singleton_l, elem_of_live_set; done).
    pose proof (wf_room p Hwf). clia.
Qed.
End Placed.

(** ** [insert_record] *)

(** The slot [find_free_slot] picks: the first directory entry of length zero. *)
Definition first_free (p : Page) (ids : list Z) : option Z :=
  snd <$> list_find (fun i => slot_len p i = 0) ids.

Lemma find_free_in_ok p ids :
  wf p -> Forall (fun i => 0 <= i < slots p) ids -> find_free_in p ids = Ret (first_free p ids).
Proof.
  intros Hwf. induction 1 as [|i ids Hi _ IH]; [done|]. cbn [find_free_in].
  rewrite read_slot_ok; [|apply Hwf|lia|by apply (slot_dir_in p)].
  cbn. unfold first_free. cbn [list_find]. rewrite IH. unfold first_free.
  destruct (slot_len p i =? 0) eqn:E.
  - rewrite decide_True by lia. done.
  - rewrite decide_False by lia. f_equal. by destruct (list_find _ ids) as [[]|].
Qed.

Definition free_slot (p : Page) : option Z := first_free p (seqZ 0 (slots p)).

Lemma find_free_slot_ok p : wf p -> find_free_slot p (slots p) = Ret (free_slot p).
Proof.
  intros Hwf. apply find_free_in_ok; [done|]. apply Forall_forall. intros i Hi.
  apply elem_of_seqZ in Hi. lia.
Qed.

Lemma free_slot_spec p :
  wf p ->
  match free_slot p with
  | Some s => 0 <= s < slots p /\ ~ live p s
  | None => forall i, 0 <= i < slots p -> live p i
  end.
Proof.
  intros Hwf. unfold free_slot, first_free. destruct (list_find _ _) as [[i s]|] eqn:E; simpl.
  - apply list_find_Some in E as (E & Hs & _). apply list_elem_of_lookup_2 in E.
    apply elem_of_seqZ in E. split; [lia|]. intros [_ ?]. done.
  - intros i Hi. apply list_find_None in E. split; [done|].
    rewrite Forall_forall in E. apply E, elem_of_seqZ. lia.
Qed.

(** The page slot a record goes to and the bytes its insertion takes. *)
Definition target_slot (p : Page) : Z := default (slots p) (free_slot p).
Definition needed (p : Page) : Z :=
  payload_len + match free_slot p with None => SLOT_ENTRY_SIZE | Some _ => 0 end.

Definition fresh_payload (key value : bytes) : bytes :=
  key ++ value ++ le_bytes 8 0 ++ le_bytes 8 0 ++ le_bytes 2 0 ++ le_bytes 2 0.

Lemma fresh_payload_len k v :
  zlen k = KEY_SIZE -> zlen v = VALUE_SIZE -> zlen (fresh_payload k v) = payload_len.
Proof. intros. unfold fresh_payload. zlens. clia. Qed.

Lemma target_slot_dead p : wf p -> ~ live p (target_slot p).
Proof.
  intros Hwf. pose proof (free_slot_spec p Hwf) as H. unfold target_slot.
  destruct (free_slot p); simpl; [apply H|]. intros [? _]. lia.
Qed.

Lemma insert_record_full p k v :
  wf p -> zlen k = KEY_SIZE -> zlen v = VALUE_SIZE ->
  free_end p - free_start p < needed p ->
  insert_record p k v = Fail (InvalidValueSize (needed p) (free_end p - free_start p)).
Proof.
  intros Hwf Hk Hv Hfull. unfold insert_record.
  rewrite (wf_len p Hwf), Hk, Hv, !Z.eqb_refl. cbn [negb].
  rewrite read_header_ok by apply Hwf. cbn [mbind outcome_bind].
  rewrite find_free_slot_ok by done. cbn [mbind outcome_bind].
  assert (Hfb : sat_sub (free_end p) (free_start p) = free_end p - free_start p)
    by (destruct Hwf; clia).
  rewrite Hfb. unfold needed in *. destruct (free_slot p); case_match; first [done|lia].
Qed.

Lemma insert_record_fits p k v :
  wf p -> zlen k = KEY_SIZE -> zlen v = VALUE_SIZE ->
  needed p <= free_end p - free_start p ->
  insert_record p k v =
    Ret (placed p (target_slot p)
           (match free_slot p with None => slots p + 1 | Some _ => slots p end)
           (match free_slot p with None => free_start p + SLOT_ENTRY_SIZE | Some _ => free_start p end)
           (free_end p - payload_len) (fresh_payload k v), target_slot p).
Proof.
  intros Hwf Hk Hv Hfit. pose proof (free_slot_spec p Hwf) as Hfree.
  pose proof (slots_nonneg p Hwf) as Hs0. pose proof (wf_len p Hwf) as Hlen.
  unfold insert_record. rewrite Hlen, Hk, Hv, !Z.eqb_refl. cbn [negb].
  rewrite read_header_ok by done. cbn [mbind outcome_bind].
  rewrite find_free_slot_ok by done. cbn [mbind outcome_bind].
  assert (Hfb : sat_sub (free_end p) (free_start p) = free_end p - free_start p)
    by (destruct Hwf; clia).
  rewrite Hfb. clear Hfb.
  assert (Hpo : wrap16 (sat_sub (free_end p) payload_len) = free_end p - payload_len).
  { unfold wrap16. destruct Hwf. unfold needed in Hfit.
    assert (0 <= free_end p - payload_len < 16384) by (destruct (free_slot p); clia).
    unfold sat_sub. rewrite Z.max_r by lia. apply Z.mod_small. clia. }
  rewrite Hpo. clear Hpo.
  assert (Hsa : free_slot p = None ->
    sat_add16 (free_start p) SLOT_ENTRY_SIZE = free_start p + SLOT_ENTRY_SIZE /\
    sat_add16 (slots p) 1 = slots p + 1).
  { intros E. unfold needed in Hfit. rewrite E in Hfit. destruct Hwf. clia. }
  assert (Hdir : slot_offset (target_slot p) + 4 <= PAGE_SIZE).
  { unfold needed, target_slot in *. destruct (free_slot p) as [s|] eqn:E; simpl.
    - apply (slot_dir_in p); [done|lia].
    - destruct Hwf. clia. }
  assert (Hts0 : 0 <= target_slot p) by (unfold target_slot; destruct (free_slot p); simpl; lia).
  assert (Hpos : 0 <= free_end p - payload_len /\ free_end p <= 16384).
  { unfold needed in Hfit. destruct Hwf, (free_slot p); clia. }
  unfold needed in Hfit. unfold write_u16, target_slot in *. change (wrap16 payload_len) with payload_len.
  set (pos := free_end p - payload_len) in *.
  destruct (free_slot p) as [s|] eqn:E; simpl default in *.
  all: match goal with |- context [?a <? ?b] => replace (a <? b) with false by clia end.
  all: try (destruct Hsa as [-> ->]; [done|]).
  all: rewrite put_range_ok by clia; cbn [mbind outcome_bind].
  all: rewrite put_range_ok by clia; cbn [mbind outcome_bind]; rewrite upd_adjacent by clia.
  all: rewrite write_le_ok by clia; cbn [mbind outcome_bind]; rewrite upd_adjacent by clia.
  all: rewrite write_le_ok by clia; cbn [mbind outcome_bind]; rewrite upd_adjacent by clia.
  all: rewrite write_le_ok by clia; cbn [mbind outcome_bind]; rewrite upd_adjacent by clia.
  all: rewrite write_le_ok by clia; cbn [mbind outcome_bind]; rewrite upd_adjacent by clia.
  all: rewrite <-!app_assoc; fold (fresh_payload k v).
  all: pose proof (fresh_payload_len k v Hk Hv) as Hfp.
  all: rewrite write_slot_ok by clia; cbn [mbind outcome_bind].
  all: rewrite write_header_ok by clia; cbn [mbind outcome_bind].
  all: reflexivity.
Qed.

(** ** Readers and writers of a live record *)

Definition rec_key (r : bytes) : bytes := sub 0 KEY_SIZE r.
Definition rec_value (r : bytes) : bytes := sub KEY_SIZE VALUE_SIZE r.
Definition rec_lsn (r : bytes) : Z := fld 8 (KEY_SIZE + VALUE_SIZE) r.
Definition rec_undo (r : bytes) : option UndoPtr :=
  let pid := fld 8 (KEY_SIZE + VALUE_SIZE + 8) r in
  if pid =? 0 then None
  else Some {| up_page_id := pid; up_slot_id := fld 2 (KEY_SIZE + VALUE_SIZE + 16) r |}.
Definition rec_flags (r : bytes) : Z := fld 2 (KEY_SIZE + VALUE_SIZE + 18) r.

Lemma slot_payload_offset_ok p s :
  wf p -> 0 <= s < slots p ->
  slot_payload_offset p s = Ret (if decide (slot_len p s <> 0) then Some (slot_pos p s) else None).
Proof.
  intros Hwf Hs. unfold slot_payload_offset. rewrite (wf_len p Hwf), Z.eqb_refl. cbn [negb].
  rewrite read_slot_ok; [|apply Hwf|lia|by apply (slot_dir_in p)]. cbn [mbind outcome_bind].
  case_decide as Hd.
  - destruct (wf_slot p Hwf s) as (-> & ? & ?); [done|]. rewrite Z.eqb_refl. cbn [negb].
    case_match; [lia|done].
  - case_match; [done|]. consts. lia.
Qed.

Lemma record_live p s r :
  wf p -> record p s = Some r ->
  0 <= s < slots p /\ slot_len p s <> 0 /\ 0 <= slot_pos p s /\
  slot_pos p s + payload_len <= 16384 /\ r = sub (slot_pos p s) payload_len p.
Proof.
  intros Hwf [[Hs Hl] ->]%record_Some. destruct (wf_slot p Hwf s) as (_ & ? & ?); [done|].
  pose proof (slots_nonneg p Hwf). destruct Hwf. split_and!; auto; clia.
Qed.

Lemma record_fld p s r n o :
  wf p -> record p s = Some r -> 0 <= o -> o + Z.of_nat n <= payload_len ->
  read_le (E:=Error) n p (slot_pos p s + o) = Ret (fld n o r).
Proof.
  intros Hwf Hr ? ?. pose proof (wf_len p Hwf).
  destruct (record_live p s r Hwf Hr) as (? & ? & ? & ? & ->).
  rewrite read_le_ok by clia. unfold fld. by rewrite sub_sub by clia.
Qed.

Lemma record_range p s r a b :
  wf p -> record p s = Some r -> 0 <= a <= b -> b <= payload_len ->
  get_range (E:=Error) p (slot_pos p s + a) (slot_pos p s + b) = Ret (sub a (b - a) r).
Proof.
  intros Hwf Hr ? ?. pose proof (wf_len p Hwf).
  destruct (record_live p s r Hwf Hr) as (? & ? & ? & ? & ->).
  rewrite get_range_ok by clia. rewrite sub_sub by clia. do 2 f_equal. lia.
Qed.

(** What a keyed reader returns: nothing on an empty slot or another key. *)
Definition if_key {A} (key : bytes) (r : option bytes) (f : bytes -> option A) : option A :=
  r ← r; if bytes_eqb (rec_key r) key then f r else None.

Lemma keyed_ok {A} p s key (f : Z -> outcome Error (option A)) (g : bytes -> option A) :
  wf p -> 0 <= s < slots p -> zlen key = KEY_SIZE ->
  (forall r, record p s = Some r -> f (slot_pos p s) = Ret (g r)) ->
  keyed p s key f = Ret (if_key key (record p s) g).
Proof.
  intros Hwf Hs Hk Hf. unfold keyed. rewrite (wf_len p Hwf), Hk, !Z.eqb_refl. cbn [negb orb].
  rewrite slot_payload_offset_ok by done. cbn [mbind outcome_bind].
  destruct (record p s) as [r|] eqn:Hr.
  - destruct (record_live p s r Hwf Hr) as (_ & Hl & _).
    rewrite decide_True by done. unfold if_key. cbn [mbind option_bind].
    replace (slot_pos p s) with (slot_pos p s + 0) at 1 by lia.
    rewrite (record_range p s r) by (done || clia). cbn [mbind outcome_bind].
    unfold rec_key. rewrite Z.sub_0_r. destruct (bytes_eqb _ _); cbn [negb]; auto.
  - apply record_None in Hr. unfold live in Hr. rewrite decide_False by naive_solver. done.
Qed.

Lemma read_value_ok p s key :
  wf p -> 0 <= s < slots p -> zlen key = KEY_SIZE ->
  read_value p s key = Ret (if_key key (record p s) (fun r =>
    if Z.land (rec_flags r) FLAG_TOMBSTONE =? 0 then Some (rec_value r) else None)).
Proof.
  intros. apply keyed_ok; auto. intros r Hr. unfold read_u16.
  replace (slot_pos p s + KEY_SIZE + VALUE_SIZE + 8 + 8 + 2)
    with (slot_pos p s + (KEY_SIZE + VALUE_SIZE + 18)) by lia.
  rewrite (record_fld p s r) by (done || clia). cbn [mbind outcome_bind]. unfold rec_flags.
  destruct (_ =? 0); cbn [negb]; [|done].
  replace (slot_pos p s + KEY_SIZE + VALUE_SIZE) with (slot_pos p s + (KEY_SIZE + VALUE_SIZE)) by lia.
  rewrite (record_range p s r) by (done || clia). cbn. unfold rec_value. by rewrite Z.add_simpl_l.
Qed.

Lemma read_commit_lsn_ok p s key :
  wf p -> 0 <= s < slots p -> zlen key = KEY_SIZE ->
  read_commit_lsn p s key = Ret (if_key key (record p s) (fun r => Some (rec_lsn r))).
Proof.
  intros. apply keyed_ok; auto. intros r Hr.
  rewrite <-Z.add_assoc, (record_fld p s r) by (done || clia). done.
Qed.

Lemma read_flags_ok p s key :
  wf p -> 0 <= s < slots p -> zlen key = KEY_SIZE ->
  read_flags p s key = Ret (if_key key (record p s) (fun r => Some (rec_flags r))).
Proof.
  intros. apply keyed_ok; auto. intros r Hr. unfold read_u16.
  replace (slot_pos p s + KEY_SIZE + VALUE_SIZE + 8 + 8 + 2)
    with (slot_pos p s + (KEY_SIZE + VALUE_SIZE + 18)) by lia.
  rewrite (record_fld p s r) by (done || clia). done.
Qed.

Lemma read_undo_ptr_ok p s key :
  wf p -> 0 <= s < slots p -> zlen key = KEY_SIZE ->
  read_undo_ptr p s key = Ret (if_key key (record p s) rec_undo).
Proof.
  intros. apply keyed_ok; auto. intros r Hr. unfold read_u16, rec_undo.
  replace (slot_pos p s + KEY_SIZE + VALUE_SIZE + 8)
    with (slot_pos p s + (KEY_SIZE + VALUE_SIZE + 8)) by lia.
  rewrite (record_fld p s r) by (done || clia). cbn [mbind outcome_bind].
  case_match; [done|].
  replace (slot_pos p s + (KEY_SIZE + VALUE_SIZE + 8) + 8)
    with (slot_pos p s + (KEY_SIZE + VALUE_SIZE + 16)) by lia.
  rewrite (record_fld p s r) by (done || clia). done.
Qed.

(** Writing inside a live payload changes that record and nothing else. *)
Lemma payload_write p s r o bs :
  wf p -> record p s = Some r -> 0 <= o -> o + zlen bs <= payload_len -> wf_bytes bs ->
  let p' := upd (slot_pos p s + o) bs p in
  wf p' /\ slots p' = slots p /\
  forall i, record p' i = if decide (i = s) then Some (upd o bs r) else record p i.
Proof.
  intros Hwf Hr Ho Hle Hbs p'. pose proof (wf_len p Hwf) as Hlen.
  pose proof (zlen_nonneg bs). pose proof (slots_nonneg p Hwf) as Hs0.
  destruct (record_live p s r Hwf Hr) as (Hs & Hl & Hp0 & Hp1 & Hreq).
  destruct (wf_slot p Hwf s) as (_ & Hfe & _); [done|].
  assert (Hfs := wf_start p Hwf). assert (Hfe2 := wf_end p Hwf).
  assert (Hhdr : slots p' = slots p /\ free_start p' = free_start p /\ free_end p' = free_end p).
  { unfold p', slots, free_start, free_end. split_and!; apply fld_upd_disjoint; clia. }
  destruct Hhdr as (Hn & Hst & Hen).
  assert (Hdir : forall i, 0 <= i < slots p ->
    slot_pos p' i = slot_pos p i /\ slot_len p' i = slot_len p i).
  { intros i Hi. subst p'. generalize dependent (slot_pos p s). intros sp **.
    unfold slot_pos, slot_len. split; apply fld_upd_disjoint; clia. }
  assert (Hlive : forall i, live p' i <-> live p i).
  { intros i. unfold live. rewrite Hn. split; intros [Hi ?]; split; auto;
      by rewrite ?(proj2 (Hdir i Hi)) in *. }
  split; [split|split].
  - unfold p'. zlens; clia.
  - apply wf_upd; [done|apply Hwf].
  - rewrite Hn, Hst. done.
  - rewrite Hst, Hen. done.
  - intros i Hi. rewrite Hlive in Hi. destruct (Hdir i (proj1 Hi)) as [-> ->]. rewrite Hen.
    by apply (wf_slot p Hwf).
  - intros i j Hi Hj ?. rewrite Hlive in Hi, Hj.
    destruct (Hdir i (proj1 Hi)) as [-> _], (Hdir j (proj1 Hj)) as [-> _]. by apply (wf_disj p Hwf).
  - replace (live_set p') with (live_set p); [rewrite Hen; apply Hwf|].
    apply set_eq. intros i. by rewrite !elem_of_live_set, Hlive.
  - done.
  - intros i. case_decide as Hi.
    + subst i. apply record_Some. rewrite Hlive. split; [done|].
      destruct (Hdir s Hs) as [-> _]. unfold p'. rewrite Hreq.
      apply list_eq_lookup_Z; [zlens; clia|]. intros j Hj.
      rewrite zlen_upd in Hj by (zlens; clia). rewrite zlen_sub in Hj by clia.
      rewrite lookup_sub by lia. destruct (decide (o <= j < o + zlen bs)).
      * rewrite !lookup_upd_in by (zlens; clia). f_equal. lia.
      * rewrite !lookup_upd_out by (zlens; clia). by rewrite lookup_sub by lia.
    + apply record_ext; [by rewrite Hn|intros; by apply Hdir|]. intros Hli.
      split; [apply Hdir, Hli|]. destruct (wf_slot p Hwf i Hli) as (_ & ? & ?).
      destruct (wf_disj p Hwf i s) as [?|?]; [done|done|done| |];
        unfold p'; rewrite sub_upd_disjoint by clia; done.
Qed.

(** ** [defragment] *)

(** The live records in slot order. *)
Definition live_records (p : Page) (ids : list Z) : list (Z * bytes) :=
  omap (fun i => (fun r => (i, r)) <$> record p i) ids.

Lemma collect_live_ok p ids :
  wf p -> Forall (fun i => 0 <= i < slots p) ids -> collect_live p ids = Ret (live_records p ids).
Proof.
  intros Hwf. induction 1 as [|i ids Hi _ IH]; [done|]. cbn [collect_live live_records omap list_omap].
  rewrite read_slot_ok; [|apply Hwf|lia|by apply (slot_dir_in p)]. cbn [mbind outcome_bind].
  destruct (record p i) as [r|] eqn:Hr; cbn [fmap option_fmap option_map].
  - destruct (record_live p i r Hwf Hr) as (_ & Hl & ? & ? & Hreq).
    destruct (wf_slot p Hwf i) as (Hpl & _ & _); [done|]. rewrite Hpl.
    replace (payload_len =? 0) with false by done. case_match; [clia|].
    pose proof (wf_len p Hwf). rewrite get_range_ok by clia. cbn [mbind outcome_bind].
    rewrite IH. cbn [mbind outcome_bind]. rewrite Z.add_simpl_l, <-Hreq. done.
  - apply record_None in Hr. unfold live in Hr.
    replace (slot_len p i =? 0) with true by lia. exact IH.
Qed.

(** What [pack_live] does to a page of which only the directory below [lim] and the
    header must survive: the [j]-th record goes to [fe - (j + 1) * payload_len]. *)
Record packed (lim fe : Z) (l : list (Z * bytes)) (p p' : Page) : Prop := {
  pk_len : zlen p' = PAGE_SIZE;
  pk_bytes : wf_bytes p';
  pk_low : forall o n, 0 <= o -> 0 <= n -> o + n <= PAGE_HEADER_SIZE -> sub o n p' = sub o n p;
  pk_high : forall o n, fe <= o -> 0 <= n -> o + n <= PAGE_SIZE -> sub o n p' = sub o n p;
  pk_old : forall i, 0 <= i -> slot_offset i + 4 <= lim -> i ∉ l.*1 ->
    slot_pos p' i = slot_pos p i /\ slot_len p' i = slot_len p i;
  pk_new : forall j i r, l !! j = Some (i, r) ->
    slot_pos p' i = fe - (Z.of_nat j + 1) * payload_len /\ slot_len p' i = payload_len /\
    sub (fe - (Z.of_nat j + 1) * payload_len) payload_len p' = r
}.

Definition packable (lim : Z) (ir : Z * bytes) : Prop :=
  0 <= ir.1 /\ slot_offset ir.1 + 4 <= lim /\ zlen ir.2 = payload_len /\ wf_bytes ir.2.

Lemma pack_live_ok lim l : forall p fe,
  zlen p = PAGE_SIZE -> wf_bytes p -> PAGE_HEADER_SIZE <= lim -> fe <= PAGE_SIZE ->
  lim + payload_len * zlen l <= fe -> NoDup l.*1 -> Forall (packable lim) l ->
  exists p', pack_live p fe l = Ret (p', fe - payload_len * zlen l) /\ packed lim fe l p p'.
Proof.
  induction l as [|[i r] l IH]; intros p fe Hlen Hb Hlim Hfe Hroom Hnd Hall.
  - exists p. split; [cbn [pack_live]; change (zlen (@nil (Z * bytes))) with 0; do 2 f_equal; lia|].
    split; done.
  - apply Forall_cons in Hall as [(Hi0 & Hdir & Hr & Hrb) Hall].
    apply NoDup_cons in Hnd as [Hni Hnd]. cbn [fst snd] in *. rewrite zlen_cons in Hroom.
    pose proof (zlen_nonneg l) as Hl0.
    assert (Hnp : wrap16 (fe - wrap16 (zlen r)) = fe - payload_len).
    { rewrite Hr. change (wrap16 payload_len) with payload_len.
      unfold wrap16. apply Z.mod_small. clia. }
    set (np := fe - payload_len) in *.
    set (p1 := upd (slot_offset i) (le_bytes 2 np ++ le_bytes 2 payload_len) (upd np r p)).
    destruct (IH p1 np) as (p' & Hp' & Hpk); [unfold p1; zlens; clia| |done|clia|clia|done|done|].
    { unfold p1. repeat (apply wf_upd || apply Forall_app_2 || apply wf_le_bytes || done). }
    exists p'. split.
    { cbn [pack_live]. rewrite Hnp. rewrite put_range_ok by clia. cbn [mbind outcome_bind].
      rewrite write_slot_ok by (zlens; clia). cbn [mbind outcome_bind].
      rewrite Hr. change (wrap16 payload_len) with payload_len. fold p1. rewrite Hp'.
      do 2 f_equal. rewrite zlen_cons. unfold np. lia. }
    assert (Hp1dir : slot_pos p1 i = np /\ slot_len p1 i = payload_len).
    { unfold p1, slot_pos, slot_len. split; rewrite fld_upd_inside by (zlens; clia).
      - rewrite Z.sub_diag. apply fld_le_bytes_app. change (256 ^ Z.of_nat 2) with 65536. clia.
      - replace (slot_offset i + 2 - slot_offset i) with 2 by lia. fld_skip.
        apply fld_le_bytes. vm_compute. split; congruence. }
    destruct Hpk as [Hk1 Hk2 Hk3 Hk4 Hk5 Hk6]. split; [done|done| | | |].
    + intros o n ? ? ?. rewrite Hk3 by lia. unfold p1. rewrite !sub_upd_disjoint by (zlens; clia). done.
    + intros o n ? ? ?. rewrite Hk4 by clia. unfold p1. rewrite !sub_upd_disjoint by (zlens; clia). done.
    + intros i' ? ? Hni'. rewrite fmap_cons, not_elem_of_cons in Hni'. destruct Hni' as [Hne Hni'].
      cbn [fst] in Hne. destruct (Hk5 i') as [-> ->]; [lia|done|done|].
      unfold p1, slot_pos, slot_len. split; rewrite !fld_upd_disjoint by (zlens; clia); done.
    + intros [|j] i' r' Hj; cbn in Hj.
      * injection Hj as <- <-. destruct (Hk5 i) as [-> ->]; [done|done|done|].
        replace (fe - (Z.of_nat 0 + 1) * payload_len) with np by (unfold np; lia).
        destruct Hp1dir as [-> ->]. split_and!; [done|done|].
        rewrite Hk4 by clia. unfold p1. rewrite sub_upd_disjoint by (zlens; clia).
        apply sub_upd_same; clia.
      * destruct (Hk6 j i' r' Hj) as (? & ? & ?).
        replace (fe - (Z.of_nat (S j) + 1) * payload_len)
          with (np - (Z.of_nat j + 1) * payload_len) by (unfold np; lia). done.
Qed.

Lemma live_records_ids p ids :
  (live_records p ids).*1 = filter (live p) ids.
Proof.
  induction ids as [|i ids IH]; [done|]. cbn [live_records omap list_omap].
  rewrite filter_cons. destruct (record p i) as [r|] eqn:Hr; cbn [fmap option_fmap option_map].
  - apply record_Some in Hr as [Hl _]. rewrite decide_True by done. cbn. by f_equal.
  - apply record_None in Hr. by rewrite decide_False by done.
Qed.

Lemma live_records_lookup p ids i r :
  (i, r) ∈ live_records p ids -> record p i = Some r.
Proof.
  unfold live_records. rewrite list_elem_of_omap. intros (j & _ & Hj).
  destruct (record p j) eqn:E; simplify_eq/=. done.
Qed.

Lemma live_records_elem p ids i r :
  i ∈ ids -> record p i = Some r -> (i, r) ∈ live_records p ids.
Proof. intros Hi Hr. apply list_elem_of_omap. exists i. by rewrite Hr. Qed.

Lemma live_records_len p :
  zlen (live_records p (seqZ 0 (slots p))) = Z.of_nat (size (live_set p)).
Proof.
  unfold zlen. rewrite <-(length_fmap fst), live_records_ids.
  rewrite <-(size_list_to_set (C:=gset Z)); [|apply NoDup_filter, NoDup_seqZ].
  do 2 f_equal. apply set_eq. intros i.
  rewrite elem_of_list_to_set, list_elem_of_filter, elem_of_live_set, elem_of_seqZ.
  unfold live. lia.
Qed.

Lemma wf_record_bytes p i r : wf p -> record p i = Some r -> wf_bytes r.
Proof. intros Hwf [_ ->]%record_Some. apply wf_sub, Hwf. Qed.

(** The page [defragment] leaves: the packed payloads under a new header. *)
Section Repacked.
Context (p q : Page).
Hypothesis Hwf : wf p.

Let l := live_records p (seqZ 0 (slots p)).
Let fe := PAGE_SIZE - payload_len * Z.of_nat (size (live_set p)).
Let hdr := le_bytes 2 (slots p) ++ le_bytes 2 (free_start p) ++ le_bytes 2 fe.
Let p' := upd 0 hdr q.

Hypothesis Hpk : packed (free_start p) PAGE_SIZE l p q.

Lemma repacked_bounds :
  0 <= slots p /\ free_start p = 6 + 4 * slots p /\ free_start p <= fe <= 16384 /\
  zlen q = 16384 /\ zlen hdr = 6.
Proof.
  pose proof (slots_nonneg p Hwf). pose proof (pk_len _ _ _ _ _ Hpk). unfold fe.
  pose proof (wf_start p Hwf). pose proof (wf_end p Hwf). pose proof (wf_room p Hwf).
  split_and!; [lia|clia|lia|clia|clia|reflexivity].
Qed.

Lemma repacked_header : slots p' = slots p /\ free_start p' = free_start p /\ free_end p' = fe.
Proof.
  pose proof repacked_bounds as Hb. unfold p', slots, free_start, free_end.
  split_and!; rewrite fld_upd_inside by clia; unfold hdr;
    fold (slots p) (free_start p); fld_skip;
    (apply fld_le_bytes_app || apply fld_le_bytes); change (256 ^ Z.of_nat 2) with 65536; clia.
Qed.

Lemma repacked_dir i :
  0 <= i < slots p -> slot_pos p' i = slot_pos q i /\ slot_len p' i = slot_len q i.
Proof.
  intros Hi. pose proof repacked_bounds as Hb. unfold p', slot_pos, slot_len.
  split; apply fld_upd_disjoint; clia.
Qed.

(** A live record's new place, and a dead slot. *)
Lemma repacked_live i r :
  record p i = Some r ->
  exists j, l !! j = Some (i, r) /\ Z.of_nat j < Z.of_nat (size (live_set p)) /\
    slot_pos p' i = PAGE_SIZE - (Z.of_nat j + 1) * payload_len /\
    slot_len p' i = payload_len /\ sub (slot_pos p' i) payload_len p' = r.
Proof.
  intros Hr. destruct (record_live p i r Hwf Hr) as (Hi & _). pose proof repacked_bounds as Hb.
  pose proof (live_records_len p) as Hll. fold l in Hll.
  assert (Hel : (i, r) ∈ l) by (apply live_records_elem; [apply elem_of_seqZ; lia|done]).
  apply list_elem_of_lookup in Hel as [j Hj]. exists j.
  assert (Hjl : Z.of_nat j < Z.of_nat (size (live_set p))).
  { apply lookup_lt_Some in Hj. unfold zlen in Hll. lia. }
  destruct (pk_new _ _ _ _ _ Hpk j i r Hj) as (Hp & Hl & Hsub).
  destruct (repacked_dir i Hi) as [-> ->]. rewrite Hp, Hl. split_and!; try done.
  unfold p'. rewrite sub_upd_disjoint; [done|clia..].
Qed.

Lemma repacked_dead i :
  0 <= i < slots p -> record p i = None -> slot_len p' i = 0.
Proof.
  intros Hi Hr. pose proof repacked_bounds as Hb. destruct (repacked_dir i Hi) as [_ ->].
  apply record_None in Hr. destruct (pk_old _ _ _ _ _ Hpk i) as [_ ->]; [lia|clia| |].
  - unfold l. rewrite live_records_ids, list_elem_of_filter. naive_solver.
  - unfold live in Hr. lia.
Qed.

Lemma repacked_record i : record p' i = record p i.
Proof.
  destruct repacked_header as (Hn & _ & _). destruct (record p i) as [r|] eqn:Hr.
  - destruct (record_live p i r Hwf Hr) as (Hi & _).
    destruct (repacked_live i r Hr) as (j & _ & _ & _ & Hl & Hs).
    apply record_Some. split; [|done]. split; [by rewrite Hn|]. rewrite Hl. clia.
  - apply record_None. intros [Hi Hl]. rewrite Hn in Hi. by rewrite repacked_dead in Hl.
Qed.

Lemma repacked_live_iff i : live p' i <-> live p i.
Proof.
  pose proof (repacked_record i) as H. pose proof (record_None p i). pose proof (record_None p' i).
  destruct (record p i) eqn:E, (record p' i) eqn:E'; try done.
  - apply record_Some in E as [? _]. apply record_Some in E' as [? _]. done.
  - naive_solver.
Qed.

Lemma repacked_wf : wf p'.
Proof.
  pose proof repacked_bounds as Hb. destruct repacked_header as (Hn & Hst & Hen).
  assert (Hpos : forall i, live p' i -> exists j r, l !! j = Some (i, r) /\
    Z.of_nat j < Z.of_nat (size (live_set p)) /\
    slot_pos p' i = PAGE_SIZE - (Z.of_nat j + 1) * payload_len /\ slot_len p' i = payload_len).
  { intros i Hi%repacked_live_iff. destruct (record p i) as [r|] eqn:Hr; [|by apply record_None in Hr].
    destruct (repacked_live i r Hr) as (j & ? & ? & ? & ? & _). eauto 10. }
  split.
  - unfold p'. zlens; clia.
  - apply wf_upd; [|apply Hpk]. repeat (apply Forall_app_2 || apply wf_le_bytes).
  - rewrite Hn, Hst. apply Hwf.
  - rewrite Hst, Hen. clia.
  - intros i Hi. destruct (Hpos i Hi) as (j & r & _ & ? & -> & ->). rewrite Hen. unfold fe. clia.
  - intros i i' Hi Hi' Hne. destruct (Hpos i Hi) as (j & r & Hj & _ & -> & _).
    destruct (Hpos i' Hi') as (j' & r' & Hj' & _ & -> & _).
    assert (j <> j') by (intros ->; congruence). clia.
  - replace (live_set p') with (live_set p); [rewrite Hen; unfold fe; lia|].
    apply set_eq. intros i. by rewrite !elem_of_live_set, repacked_live_iff.
Qed.
End Repacked.

Lemma defragment_ok p :
  wf p ->
  exists p', defragment p = Ret p' /\ wf p' /\ slots p' = slots p /\
    (forall i, record p' i = record p i) /\
    free_end p' = PAGE_SIZE - payload_len * Z.of_nat (size (live_set p)).
Proof.
  intros Hwf. pose proof (wf_len p Hwf) as Hlen. pose proof (slots_nonneg p Hwf) as Hs0.
  pose proof (live_records_len p) as Hll. pose proof (wf_room p Hwf) as Hroom.
  pose proof (wf_end p Hwf) as Hend. pose proof (wf_start p Hwf) as Hstart.
  destruct (pack_live_ok (free_start p) (live_records p (seqZ 0 (slots p))) p PAGE_SIZE)
    as (q & Hq & Hpk); [done|apply Hwf|clia|lia|rewrite Hll; lia| | |].
  { rewrite live_records_ids. apply NoDup_filter, NoDup_seqZ. }
  { apply Forall_forall. intros [i r] Hi. apply live_records_lookup in Hi.
    destruct (record_live p i r Hwf Hi) as (? & _).
    split_and!; [cbn; lia|cbn [fst]; clia|by apply (record_zlen p i)|by eapply wf_record_bytes]. }
  rewrite Hll in Hq. eexists. split_and!.
  - unfold defragment. rewrite Hlen, Z.eqb_refl. cbn [negb].
    rewrite read_header_ok by done. cbn [mbind outcome_bind].
    rewrite collect_live_ok; [|done|apply Forall_forall; intros ? ?%elem_of_seqZ; lia].
    cbn [mbind outcome_bind]. change (wrap16 PAGE_SIZE) with PAGE_SIZE. rewrite Hq.
    cbn [mbind outcome_bind]. apply write_header_ok, Hpk.
  - by apply repacked_wf.
  - by apply repacked_header.
  - intros i. by apply repacked_record.
  - by apply repacked_header.
Qed.

(** ** [new_page], [clear_slot], [overwrite_value] *)

Definition empty_page : Page :=
  upd 0 (le_bytes 2 0 ++ le_bytes 2 6 ++ le_bytes 2 16384) (zrepeat 0 PAGE_SIZE).

Lemma new_page_ok : new_page = Ret empty_page.
Proof. apply write_header_ok. reflexivity. Qed.

Lemma empty_page_header :
  slots empty_page = 0 /\ free_start empty_page = 6 /\ free_end empty_page = 16384.
Proof. split_and!; vm_compute; reflexivity. Qed.

Lemma empty_page_wf : wf empty_page.
Proof.
  destruct empty_page_header as (Hs & Hf & He).
  assert (Hno : forall i, ~ live empty_page i) by (intros i [Hi _]; lia).
  split.
  - reflexivity.
  - apply wf_upd; [|by apply wf_zrepeat]. repeat (apply Forall_app_2 || apply wf_le_bytes).
  - rewrite Hs, Hf. reflexivity.
  - rewrite Hf, He. clia.
  - intros i Hi. by destruct (Hno i).
  - intros i j Hi. by destruct (Hno i).
  - replace (live_set empty_page) with (∅ : gset Z); [rewrite size_empty, He; clia|].
    symmetry. apply elem_of_equiv_empty_L. intros i. rewrite elem_of_live_set. apply Hno.
Qed.

Lemma clear_slot_ok p s :
  wf p -> 0 <= s < slots p ->
  exists p', clear_slot p s = Ret p' /\ wf p' /\ slots p' = slots p /\
    forall i, record p' i = if decide (i = s) then None else record p i.
Proof.
  intros Hwf Hs. pose proof (wf_len p Hwf) as Hlen. pose proof (wf_start p Hwf).
  pose proof (wf_end p Hwf). unfold clear_slot. rewrite Hlen, Z.eqb_refl. cbn [negb].
  rewrite write_slot_ok; [|done|lia|by apply (slot_dir_in p)].
  set (p' := upd _ _ p). exists p'. split; [done|].
  assert (Hh : slots p' = slots p /\ free_start p' = free_start p /\ free_end p' = free_end p).
  { unfold p'. unfold slots at 1, free_start at 1, free_end at 1.
    split_and!; apply fld_upd_disjoint; clia. }
  destruct Hh as (Hn & Hst & Hen).
  assert (Hdir : forall i, 0 <= i < slots p -> i <> s ->
    slot_pos p' i = slot_pos p i /\ slot_len p' i = slot_len p i).
  { intros i ? ?. unfold p', slot_pos, slot_len. split; apply fld_upd_disjoint; clia. }
  assert (Hz : slot_len p' s = 0).
  { unfold p', slot_len. rewrite fld_upd_inside by clia.
    replace (slot_offset s + 2 - slot_offset s) with 2 by lia. reflexivity. }
  assert (Hlive : forall i, live p' i <-> i <> s /\ live p i).
  { intros i. unfold live. rewrite Hn. split.
    - intros [Hi Hl]. assert (i <> s) by (intros ->; done).
      split_and!; [done|lia|lia|]. by rewrite (proj2 (Hdir i Hi ltac:(done))) in Hl.
    - intros (Hne & Hi & Hl). split; [done|]. by rewrite (proj2 (Hdir i Hi Hne)). }
  split_and!; [|done|].
  - split.
    + unfold p'. zlens; clia.
    + apply wf_upd; [|apply Hwf]. apply Forall_app_2; apply wf_le_bytes.
    + rewrite Hn, Hst. done.
    + rewrite Hst, Hen. done.
    + intros i [Hne Hi]%Hlive. destruct (Hdir i (proj1 Hi) Hne) as [-> ->]. rewrite Hen.
      by apply (wf_slot p Hwf).
    + intros i j [Hni Hi]%Hlive [Hnj Hj]%Hlive ?.
      destruct (Hdir i (proj1 Hi) Hni) as [-> _], (Hdir j (proj1 Hj) Hnj) as [-> _].
      by apply (wf_disj p Hwf).
    + rewrite Hen. pose proof (wf_room p Hwf).
      assert (live_set p' ⊆ live_set p) as Hsub%subseteq_size; [|clia].
      intros i. rewrite !elem_of_live_set, Hlive. tauto.
  - intros i. case_decide as Hi.
    + subst i. apply record_None. rewrite Hlive. tauto.
    + apply record_ext; [by rewrite Hn|intros; by apply Hdir|]. intros Hli.
      destruct (Hdir i (proj1 Hli) Hi). split; [done|].
      destruct (wf_slot p Hwf i Hli) as (_ & ? & ?). unfold p'.
      rewrite sub_upd_disjoint by clia. done.
Qed.

Lemma upd_self {A} a n (l : list A) :
  0 <= a -> 0 <= n -> a + n <= zlen l -> upd a (sub a n l) l = l.
Proof.
  intros. apply list_eq_lookup_Z; [zl|]. intros i Hi. rewrite zlen_upd in Hi by zl.
  destruct (decide (a <= i < a + n)).
  - rewrite lookup_upd_in by zl. rewrite lookup_sub by lia. f_equal. lia.
  - rewrite lookup_upd_out by zl. done.
Qed.

(** Overwriting with the value already stored leaves the page as it is. *)
Lemma overwrite_same p s r key :
  wf p -> record p s = Some r -> rec_key r = key ->
  overwrite_value p s key (rec_value r) = Ret p.
Proof.
  intros Hwf Hr Hk. pose proof (wf_len p Hwf) as Hlen. pose proof (record_zlen p s r Hwf Hr) as Hrl.
  destruct (record_live p s r Hwf Hr) as (Hs & Hl & Hp0 & Hp1 & Hreq).
  destruct (wf_slot p Hwf s) as (Hpl & _ & _); [done|].
  assert (Hkl : zlen key = KEY_SIZE) by (rewrite <-Hk; unfold rec_key; zlens; clia).
  assert (Hvl : zlen (rec_value r) = VALUE_SIZE) by (unfold rec_value; zlens; clia).
  unfold overwrite_value. rewrite Hlen, Hkl, Hvl, !Z.eqb_refl. cbn [negb].
  rewrite read_slot_ok; [|done|lia|by apply (slot_dir_in p)]. cbn [mbind outcome_bind].
  rewrite Hpl, Z.eqb_refl. cbn [negb]. case_match; [clia|].
  replace (slot_pos p s) with (slot_pos p s + 0) at 1 by lia.
  rewrite (record_range p s r) by (done || clia). cbn [mbind outcome_bind].
  rewrite Z.sub_0_r. fold (rec_key r). rewrite Hk.
  destruct (bytes_eqb_spec key key) as [_|]; [|done]. cbn [negb].
  rewrite put_range_ok by clia. f_equal. unfold rec_value. rewrite Hreq.
  rewrite sub_sub by clia. apply upd_self; clia.
Qed.

End SlottedSpec.

(** ** Properties of the slotted page *)

Module SlottedProps.
Import Slotted SlottedSpec.

Lemma fresh_fields k v :
  zlen k = KEY_SIZE -> zlen v = VALUE_SIZE ->
  rec_key (fresh_payload k v) = k /\ rec_value (fresh_payload k v) = v /\
  rec_lsn (fresh_payload k v) = 0 /\ rec_undo (fresh_payload k v) = None /\
  rec_flags (fresh_payload k v) = 0.
Proof.
  intros Hk Hv. unfold rec_key, rec_value, rec_lsn, rec_undo, rec_flags, fresh_payload, fld.
  assert (Htail : forall a n, 0 <= a -> 0 <= n -> a + n <= 20 ->
    sub (KEY_SIZE + VALUE_SIZE + a) n (k ++ v ++ le_bytes 8 0 ++ le_bytes 8 0 ++ le_bytes 2 0 ++ le_bytes 2 0)
    = sub a n (le_bytes 8 0 ++ le_bytes 8 0 ++ le_bytes 2 0 ++ le_bytes 2 0)).
  { intros. rewrite sub_app_r by clia. rewrite sub_app_r by clia. f_equal. lia. }
  split_and!.
  - rewrite sub_app_l by clia. apply sub_all. lia.
  - rewrite sub_app_r by clia. rewrite sub_app_l by clia. rewrite Hk, Z.sub_diag. by apply sub_all.
  - rewrite <-(Z.add_0_r (KEY_SIZE + VALUE_SIZE)), Htail by lia. reflexivity.
  - rewrite Htail by lia. reflexivity.
  - rewrite Htail by lia. reflexivity.
Qed.

Lemma insert_record_places p k v :
  wf p -> zlen k = KEY_SIZE -> zlen v = VALUE_SIZE -> wf_bytes k -> wf_bytes v ->
  needed p <= free_end p - free_start p ->
  exists p', insert_record p k v = Ret (p', target_slot p) /\ wf p' /\
    forall i, record p' i = if decide (i = target_slot p) then Some (fresh_payload k v) else record p i.
Proof.
  intros Hwf Hk Hv Hbk Hbv Hfit. rewrite insert_record_fits by done.
  pose proof (free_slot_spec p Hwf) as Hfree. pose proof (target_slot_dead p Hwf) as Hdead.
  pose proof (slots_nonneg p Hwf). pose proof (wf_start p Hwf). pose proof (wf_end p Hwf).
  assert (Hb : wf_bytes (fresh_payload k v)).
  { unfold fresh_payload. repeat (apply Forall_app_2; [first [done|apply wf_le_bytes]|]). apply wf_le_bytes. }
  pose proof (fresh_payload_len k v Hk Hv) as Hfl. unfold needed, target_slot in *.
  eexists. split; [reflexivity|].
  destruct (free_slot p) as [s|]; simpl in *; [destruct Hfree as [Hs _]|].
  all: split; [apply placed_wf; first [done|clia]|].
  all: intros i; apply placed_record; first [done|clia|by intros ? ->].
Qed.

(** C14: on a well-formed page, [insert_record] of a well-sized record behaves as an
    insertion into the partial map from slots to payloads.  It reports
    [InvalidValueSize needed free] exactly when the free gap is too small; otherwise it
    picks an unoccupied slot, maps it to the new payload, leaves every other slot's
    payload as it was, keeps the page well-formed, and the record reads back with a zero
    commit LSN, no undo pointer and no flags. *)
Theorem insert_record_refines_map p k v :
  wf p -> zlen k = KEY_SIZE -> zlen v = VALUE_SIZE -> wf_bytes k -> wf_bytes v ->
  (free_end p - free_start p < needed p /\
   insert_record p k v = Fail (InvalidValueSize (needed p) (free_end p - free_start p))) \/
  (needed p <= free_end p - free_start p /\ exists p' s,
     insert_record p k v = Ret (p', s) /\ wf p' /\ record p s = None /\
     (forall i, i <> s -> record p' i = record p i) /\
     read_value p' s k = Ret (Some v) /\ read_commit_lsn p' s k = Ret (Some 0) /\
     read_undo_ptr p' s k = Ret None /\ read_flags p' s k = Ret (Some 0)).
Proof.
  intros Hwf Hk Hv Hbk Hbv.
  destruct (Z_lt_le_dec (free_end p - free_start p) (needed p)) as [Hlt|Hle];
    [left; split; [done|by apply insert_record_full]|right; split; [done|]].
  destruct (insert_record_places p k v) as (p' & Hins & Hwf' & Hrec); try done.
  assert (Hs : record p' (target_slot p) = Some (fresh_payload k v))
    by (rewrite Hrec; by rewrite decide_True).
  destruct (record_live p' _ _ Hwf' Hs) as (Hsl & _).
  destruct (fresh_fields k v Hk Hv) as (Fk & Fv & Fl & Fu & Ff).
  exists p', (target_slot p). split_and!; try done.
  - apply record_None, target_slot_dead; done.
  - intros i Hi. rewrite Hrec. by rewrite decide_False.
  - rewrite read_value_ok by done. rewrite Hs. unfold if_key. cbn.
    rewrite Fk, Fv, Ff. by destruct (bytes_eqb_spec k k).
  - rewrite read_commit_lsn_ok by done. rewrite Hs. unfold if_key. cbn.
    rewrite Fk, Fl. by destruct (bytes_eqb_spec k k).
  - rewrite read_undo_ptr_ok by done. rewrite Hs. unfold if_key. cbn.
    rewrite Fk, Fu. by destruct (bytes_eqb_spec k k).
  - rewrite read_flags_ok by done. rewrite Hs. unfold if_key. cbn.
    rewrite Fk, Ff. by destruct (bytes_eqb_spec k k).
Qed.

Lemma insert_record_refines_map_witness :
  exists p' s, insert_record empty_page (zrepeat 7 KEY_SIZE) (zrepeat 9 VALUE_SIZE) = Ret (p', s) /\
    read_value p' s (zrepeat 7 KEY_SIZE) = Ret (Some (zrepeat 9 VALUE_SIZE)).
Proof.
  destruct (insert_record_refines_map empty_page (zrepeat 7 KEY_SIZE) (zrepeat 9 VALUE_SIZE))
    as [[Hlt _]|(_ & p' & s & Hins & _ & _ & _ & Hrd & _)];
    [apply empty_page_wf|reflexivity|reflexivity|by apply wf_zrepeat|by apply wf_zrepeat
    |exfalso; revert Hlt; vm_compute; discriminate|].
  exists p', s. split; [exact Hins|exact Hrd].
Defined.

(** [defragment] keeps the whole contents of a well-formed page (every slot keeps
    its payload and its slot id) and gives back all the dead space: afterwards the free
    gap is exactly the page minus the header, the directory and the live payloads, so no
    other layout of the same records leaves more room. *)
Theorem defragment_preserves_and_compacts p :
  wf p ->
  exists p', defragment p = Ret p' /\ wf p' /\ slots p' = slots p /\
    (forall i, record p' i = record p i) /\
    page_free_space p' = Ret (PAGE_SIZE - payload_len * Z.of_nat (size (live_set p))
                              - (PAGE_HEADER_SIZE + SLOT_ENTRY_SIZE * slots p)).
Proof.
  intros Hwf. destruct (defragment_ok p Hwf) as (p' & Hd & Hwf' & Hs & Hr & He).
  exists p'. split_and!; try done. unfold page_free_space.
  rewrite (wf_len p' Hwf'), Z.eqb_refl. cbn [negb]. rewrite read_header_ok by apply Hwf'.
  cbn [mbind outcome_bind]. f_equal. pose proof (wf_end p' Hwf'). pose proof (wf_start p' Hwf') as H0.
  rewrite H0 in *. rewrite Hs, He in *. unfold sat_sub. lia.
Qed.

Lemma defragment_preserves_and_compacts_witness :
  exists p', defragment empty_page = Ret p' /\ wf p'.
Proof.
  destruct (defragment_preserves_and_compacts empty_page empty_page_wf)
    as (p' & Hd & Hwf & _).
  exists p'. split; [exact Hd|exact Hwf].
Defined.

(** WAL redo of a record insert is idempotent.  Replaying the logged insert on the
    page the insert started from gives the page the insert produced, and replaying it
    again on that page changes nothing. *)
Theorem redo_insert_idempotent p k v p' s :
  wf p -> wf_bytes k -> wf_bytes v ->
  insert_record p k v = Ret (p', s) ->
  insert_record_at_slot_checked p s k v = Ret p' /\
  insert_record_at_slot_checked p' s k v = Ret p'.
Proof.
  intros Hwf Hbk Hbv Hins. pose proof (wf_len p Hwf) as Hlen.
  assert (Hsz : zlen k = KEY_SIZE /\ zlen v = VALUE_SIZE).
  { revert Hins. unfold insert_record. rewrite Hlen, Z.eqb_refl. cbn [negb].
    destruct (Z.eqb_spec (zlen k) KEY_SIZE); [|done].
    destruct (Z.eqb_spec (zlen v) VALUE_SIZE); done. }
  destruct Hsz as [Hk Hv].
  assert (Hfit : needed p <= free_end p - free_start p).
  { destruct (Z_lt_le_dec (free_end p - free_start p) (needed p)); [|done].
    rewrite insert_record_full in Hins by done. done. }
  destruct (insert_record_places p k v) as (p1 & Hins1 & Hwf' & Hrec); try done.
  rewrite Hins in Hins1. injection Hins1 as <- ->.
  assert (Hs : record p' (target_slot p) = Some (fresh_payload k v))
    by (rewrite Hrec; by rewrite decide_True).
  destruct (record_live p' _ _ Hwf' Hs) as (Hsl & _).
  destruct (fresh_fields k v Hk Hv) as (Fk & Fv & _ & _ & Ff).
  unfold insert_record_at_slot_checked.
  rewrite Hlen, (wf_len p' Hwf'), Hk, Hv, !Z.eqb_refl. cbn [negb].
  rewrite !read_header_ok by first [apply Hwf|apply Hwf']. cbn [mbind outcome_bind]. split.
  - destruct (Z.ltb_spec (target_slot p) (slots p)); [|by rewrite Hins].
    pose proof (proj2 (record_None p _) (target_slot_dead p Hwf)) as Hnone.
    pose proof (free_slot_spec p Hwf) as Hfs.
    assert (Ht : 0 <= target_slot p < slots p).
    { unfold target_slot in *. destruct (free_slot p); simpl in *; [apply Hfs|lia]. }
    rewrite read_value_ok by done. rewrite Hnone. cbn [mbind outcome_bind if_key option_bind].
    rewrite read_slot_ok; [|done|lia|by apply (slot_dir_in p)]. cbn [mbind outcome_bind].
    destruct (Z.eqb_spec (slot_len p (target_slot p)) 0) as [_|Hl]; cbn [negb]; [by rewrite Hins|].
    by destruct (target_slot_dead p Hwf).
  - destruct (Z.ltb_spec (target_slot p) (slots p')); [|lia].
    rewrite read_value_ok by done. rewrite Hs. unfold if_key. cbn [mbind outcome_bind option_bind].
    rewrite Fk, Fv, Ff. destruct (bytes_eqb_spec k k) as [_|]; [|done].
    change (Z.land 0 FLAG_TOMBSTONE =? 0) with true. cbv iota.
    rewrite <-Fv at 1. by apply (overwrite_same p' _ (fresh_payload k v)).
Qed.

Lemma redo_insert_idempotent_witness :
  exists p' s, insert_record empty_page (zrepeat 7 KEY_SIZE) (zrepeat 9 VALUE_SIZE) = Ret (p', s) /\
    insert_record_at_slot_checked p' s (zrepeat 7 KEY_SIZE) (zrepeat 9 VALUE_SIZE) = Ret p'.
Proof.
  assert (Hk : wf_bytes (zrepeat 7 KEY_SIZE)) by (by apply wf_zrepeat).
  assert (Hv : wf_bytes (zrepeat 9 VALUE_SIZE)) by (by apply wf_zrepeat).
  destruct (insert_record empty_page (zrepeat 7 KEY_SIZE) (zrepeat 9 VALUE_SIZE))
    as [[p' s]|e| |] eqn:Hi; [|exfalso; revert Hi; vm_compute; discriminate..].
  exists p', s. split; [reflexivity|].
  exact (proj2 (redo_insert_idempotent _ _ _ _ _ empty_page_wf Hk Hv Hi)).
Defined.

(** The slot readers and [clear_slot] do not check the slot id against the page: on
    a full-size page every slot id from 4094 up indexes the directory past the page end
    and panics, whatever the page holds. *)
Theorem slot_id_out_of_page_panics p s k :
  zlen p = PAGE_SIZE -> zlen k = KEY_SIZE -> 4094 <= s ->
  read_value p s k = Panic /\ read_commit_lsn p s k = Panic /\ clear_slot p s = Panic.
Proof.
  intros Hp Hk Hs.
  assert (Hrs : read_slot p s = Panic).
  { unfold read_slot, read_u16. rewrite (read_le_panic 2 p (slot_offset s + 2)) by clia.
    by destruct (read_le 2 p (slot_offset s)) as [|e| |] eqn:He;
      [|unfold read_le, get_range in He; case_match..]. }
  unfold read_value, read_commit_lsn, keyed, clear_slot, slot_payload_offset.
  rewrite Hp, Hk, !Z.eqb_refl. cbn [negb orb]. rewrite Hrs. split_and!; [done|done|].
  unfold write_slot, write_u16. destruct (Z.eq_dec s 4094) as [->|].
  - rewrite (write_le_ok 2 p (slot_offset 4094)) by clia. cbn [mbind outcome_bind].
    rewrite write_le_panic by clia. done.
  - rewrite write_le_panic by clia. done.
Qed.

Lemma slot_id_out_of_page_panics_witness : clear_slot empty_page 5000 = Panic.
Proof.
  refine (proj2 (proj2 (slot_id_out_of_page_panics empty_page 5000 (zrepeat 0 KEY_SIZE) _ _ _)));
    [reflexivity|reflexivity|lia].
Defined.

End SlottedProps.
