(* ===== verification/UndoPage.v ===== *)
(** * UndoPage: undo pages and undo segments (src/src/undo_pg.rs)

    An undo page is a 16 KiB page holding an append-only array of fixed-size undo
    records; a segment-head page carries the transaction's segment header as well.
    The operations are the functions of the file on the page's bytes.  The abstract
    view of a page is the list of its records. *)

From stdpp Require Import base numbers list list_numbers.
From S2P Require Import Prelude Common SlottedPage.

Definition UNDO_PAGE_TYPE : Z := 1.
Definition UNDO_SEGMENT_PAGE_TYPE : Z := 2.

Definition SEGMENT_STATE_IN_PROGRESS : Z := 0.
Definition SEGMENT_STATE_COMMITTED : Z := 1.
Definition SEGMENT_STATE_ABORTED : Z := 2.
Definition SEGMENT_STATE_PURGED : Z := 3.

Definition UNDO_RECORD_SIZE : Z := 56 + VALUE_SIZE.

(** [UndoRecord]; [UndoRecordRef] has the same fields, its value shared with the page
    instead of copied. *)
Record UndoRecord := {
  data_page_id : PageId;
  data_slot_id : Z;
  prev : option UndoPtr;
  txn_id : Z;
  txn_next : option UndoPtr;
  old_commit_lsn : Z;
  old_flags : Z;
  old_value : bytes
}.

Record UndoSegmentHeader := {
  seg_txn_id : Z;
  begin_lsn : Z;
  commit_lsn : Z;
  state : Z;
  first_page_id : PageId;
  last_page_id : PageId;
  record_count : Z;
  history_prev : PageId;
  history_next : PageId
}.

Module Undo.

Definition OFF_PAGE_TYPE : Z := 0.
Definition OFF_FREE_END : Z := 2.
Definition OFF_COUNT : Z := 4.
Definition OFF_PAGE_NEXT : Z := 8.
Definition BASE_HDR_SIZE : Z := 16.
Definition OFF_SEG_TXN_ID : Z := 16.
Definition OFF_SEG_BEGIN_LSN : Z := 24.
Definition OFF_SEG_COMMIT_LSN : Z := 32.
Definition OFF_SEG_STATE : Z := 40.
Definition OFF_SEG_FIRST_PAGE_ID : Z := 48.
Definition OFF_SEG_LAST_PAGE_ID : Z := 56.
Definition OFF_SEG_RECORD_COUNT : Z := 64.
Definition OFF_SEG_HISTORY_PREV : Z := 72.
Definition OFF_SEG_HISTORY_NEXT : Z := 80.
Definition SEG_HDR_SIZE : Z := 72.
Definition SEG_PAGE_HDR_SIZE : Z := BASE_HDR_SIZE + SEG_HDR_SIZE.

Abbreviation M := (outcome Error) (only parsing).

Definition read_u16 (p : bytes) (off : Z) : M Z := read_le 2 p off.
Definition write_u16 (p : bytes) (off v : Z) : M bytes := write_le 2 p off v.
Definition read_u32 (p : bytes) (off : Z) : M Z := read_le 4 p off.
Definition write_u32 (p : bytes) (off v : Z) : M bytes := write_le 4 p off v.
Definition read_u64 (p : bytes) (off : Z) : M Z := read_le 8 p off.
Definition write_u64 (p : bytes) (off v : Z) : M bytes := write_le 8 p off v.

Definition page_hdr_size (page : bytes) : M Z :=
  if negb (zlen page =? PAGE_SIZE) then Fail (InvalidPageSize (zlen page) PAGE_SIZE) else
  t ← get_at page OFF_PAGE_TYPE;
  if t =? UNDO_PAGE_TYPE then Ret BASE_HDR_SIZE
  else if t =? UNDO_SEGMENT_PAGE_TYPE then Ret SEG_PAGE_HDR_SIZE
  else Fail (Io InvalidInput).

Definition new_undo_page : M Page :=
  p ← put_at (zrepeat 0 PAGE_SIZE) OFF_PAGE_TYPE UNDO_PAGE_TYPE;
  p ← write_u16 p OFF_FREE_END (wrap16 PAGE_SIZE);
  p ← write_u16 p OFF_COUNT 0;
  write_u64 p OFF_PAGE_NEXT 0.

Definition new_undo_segment_page (txn_id : Z) (page_id : PageId) : M Page :=
  p ← put_at (zrepeat 0 PAGE_SIZE) OFF_PAGE_TYPE UNDO_SEGMENT_PAGE_TYPE;
  p ← write_u16 p OFF_FREE_END (wrap16 PAGE_SIZE);
  p ← write_u16 p OFF_COUNT 0;
  p ← write_u64 p OFF_PAGE_NEXT 0;
  p ← write_u64 p OFF_SEG_TXN_ID txn_id;
  p ← write_u64 p OFF_SEG_BEGIN_LSN 0;
  p ← write_u64 p OFF_SEG_COMMIT_LSN 0;
  p ← put_at p OFF_SEG_STATE SEGMENT_STATE_IN_PROGRESS;
  p ← write_u64 p OFF_SEG_FIRST_PAGE_ID page_id;
  p ← write_u64 p OFF_SEG_LAST_PAGE_ID page_id;
  p ← write_u32 p OFF_SEG_RECORD_COUNT 0;
  p ← write_u64 p OFF_SEG_HISTORY_PREV 0;
  write_u64 p OFF_SEG_HISTORY_NEXT 0.

Definition undo_count (page : bytes) : M Z :=
  if negb (zlen page =? PAGE_SIZE) then Ret 0 else read_u16 page OFF_COUNT.

Definition page_next_id (page : bytes) : M PageId :=
  if negb (zlen page =? PAGE_SIZE) then Fail (InvalidPageSize (zlen page) PAGE_SIZE) else
  t ← get_at page OFF_PAGE_TYPE;
  if negb (t =? UNDO_PAGE_TYPE) && negb (t =? UNDO_SEGMENT_PAGE_TYPE)
  then Fail (Io InvalidInput)
  else read_u64 page OFF_PAGE_NEXT.

Definition set_page_next_id (page : bytes) (next : PageId) : M bytes :=
  _ ← page_hdr_size page;
  write_u64 page OFF_PAGE_NEXT next.

Definition read_segment_header (page : bytes) : M UndoSegmentHeader :=
  if negb (zlen page =? PAGE_SIZE) then Fail (InvalidPageSize (zlen page) PAGE_SIZE) else
  t ← get_at page OFF_PAGE_TYPE;
  if negb (t =? UNDO_SEGMENT_PAGE_TYPE) then Fail (Io InvalidInput) else
  txn ← read_u64 page OFF_SEG_TXN_ID;
  b ← read_u64 page OFF_SEG_BEGIN_LSN;
  c ← read_u64 page OFF_SEG_COMMIT_LSN;
  st ← get_at page OFF_SEG_STATE;
  f ← read_u64 page OFF_SEG_FIRST_PAGE_ID;
  l ← read_u64 page OFF_SEG_LAST_PAGE_ID;
  n ← read_u32 page OFF_SEG_RECORD_COUNT;
  hp ← read_u64 page OFF_SEG_HISTORY_PREV;
  hn ← read_u64 page OFF_SEG_HISTORY_NEXT;
  Ret {| seg_txn_id := txn; begin_lsn := b; commit_lsn := c; state := st;
         first_page_id := f; last_page_id := l; record_count := n;
         history_prev := hp; history_next := hn |}.

Definition write_segment_header (page : bytes) (hdr : UndoSegmentHeader) : M bytes :=
  if negb (zlen page =? PAGE_SIZE) then Fail (InvalidPageSize (zlen page) PAGE_SIZE) else
  t ← get_at page OFF_PAGE_TYPE;
  if negb (t =? UNDO_SEGMENT_PAGE_TYPE) then Fail (Io InvalidInput) else
  page ← write_u64 page OFF_SEG_TXN_ID (seg_txn_id hdr);
  page ← write_u64 page OFF_SEG_BEGIN_LSN (begin_lsn hdr);
  page ← write_u64 page OFF_SEG_COMMIT_LSN (commit_lsn hdr);
  page ← put_at page OFF_SEG_STATE (state hdr);
  page ← write_u64 page OFF_SEG_FIRST_PAGE_ID (first_page_id hdr);
  page ← write_u64 page OFF_SEG_LAST_PAGE_ID (last_page_id hdr);
  page ← write_u32 page OFF_SEG_RECORD_COUNT (record_count hdr);
  page ← write_u64 page OFF_SEG_HISTORY_PREV (history_prev hdr);
  write_u64 page OFF_SEG_HISTORY_NEXT (history_next hdr).

(** [opt.map(|p| (p.page_id, p.slot_id)).unwrap_or((0, 0))] and its inverse. *)
Definition ptr_pair (u : option UndoPtr) : Z * Z :=
  match u with Some p => (up_page_id p, up_slot_id p) | None => (0, 0) end.
Definition pair_ptr (pid sid : Z) : option UndoPtr :=
  if pid =? 0 then None else Some {| up_page_id := pid; up_slot_id := sid |}.

Definition append_record (page : bytes) (rec : UndoRecord) : M (bytes * Z) :=
  hdr_size ← page_hdr_size page;
  free_end ← read_u16 page OFF_FREE_END;
  count ← read_u16 page OFF_COUNT;
  let dir_bytes := hdr_size + (count + 1) * 2 in
  if free_end <? dir_bytes + UNDO_RECORD_SIZE then Fail (Io OtherKind) else
  let free_end := free_end - UNDO_RECORD_SIZE in
  let off := free_end in
  page ← write_u64 page off (data_page_id rec);
  page ← write_u16 page (off + 8) (data_slot_id rec);
  page ← write_u16 page (off + 10) 0;
  let '(prev_pid, prev_sid) := ptr_pair (prev rec) in
  page ← write_u64 page (off + 12) prev_pid;
  page ← write_u16 page (off + 20) prev_sid;
  page ← write_u16 page (off + 22) 0;
  page ← write_u64 page (off + 24) (txn_id rec);
  let '(txn_next_pid, txn_next_sid) := ptr_pair (txn_next rec) in
  page ← write_u64 page (off + 32) txn_next_pid;
  page ← write_u16 page (off + 40) txn_next_sid;
  page ← write_u16 page (off + 42) 0;
  page ← write_u64 page (off + 44) (old_commit_lsn rec);
  page ← write_u16 page (off + 52) (old_flags rec);
  page ← write_u16 page (off + 54) 0;
  page ← put_range page (off + 56) (off + 56 + VALUE_SIZE) (old_value rec);
  page ← write_u16 page (hdr_size + count * 2) (wrap16 off);
  let count := wrap16 (count + 1) in
  page ← write_u16 page OFF_FREE_END (wrap16 free_end);
  page ← write_u16 page OFF_COUNT count;
  Ret (page, wrap16 (count - 1)).

Definition read_record (page : bytes) (slot_id : Z) : M UndoRecord :=
  hdr_size ← page_hdr_size page;
  count ← read_u16 page OFF_COUNT;
  if count <=? slot_id then Fail (Io InvalidInput) else
  off ← read_u16 page (hdr_size + slot_id * 2);
  if PAGE_SIZE <? off + UNDO_RECORD_SIZE
  then Fail (InvalidPageSize (off + UNDO_RECORD_SIZE) PAGE_SIZE) else
  dpid ← read_u64 page off;
  dsid ← read_u16 page (off + 8);
  ppid ← read_u64 page (off + 12);
  psid ← read_u16 page (off + 20);
  tid ← read_u64 page (off + 24);
  npid ← read_u64 page (off + 32);
  nsid ← read_u16 page (off + 40);
  lsn ← read_u64 page (off + 44);
  fl ← read_u16 page (off + 52);
  v ← get_range page (off + 56) (off + 56 + VALUE_SIZE);
  Ret {| data_page_id := dpid; data_slot_id := dsid; prev := pair_ptr ppid psid;
         txn_id := tid; txn_next := pair_ptr npid nsid;
         old_commit_lsn := lsn; old_flags := fl; old_value := v |}.

(** [read_record_ref] differs from [read_record] only in sharing the value bytes. *)
Definition read_record_ref (page : Page) (slot_id : Z) : M UndoRecord := read_record page slot_id.

End Undo.

(** ** The abstract view: the list of records of a page *)

Module UndoSpec.
Import Undo.

Ltac consts :=
  unfold OFF_PAGE_TYPE, OFF_FREE_END, OFF_COUNT, OFF_PAGE_NEXT, OFF_SEG_TXN_ID, OFF_SEG_BEGIN_LSN,
    OFF_SEG_COMMIT_LSN, OFF_SEG_STATE, OFF_SEG_FIRST_PAGE_ID, OFF_SEG_LAST_PAGE_ID,
    OFF_SEG_RECORD_COUNT, OFF_SEG_HISTORY_PREV, OFF_SEG_HISTORY_NEXT, SEG_PAGE_HDR_SIZE,
    SEG_HDR_SIZE, BASE_HDR_SIZE, UNDO_RECORD_SIZE, UNDO_PAGE_TYPE, UNDO_SEGMENT_PAGE_TYPE,
    PAGE_SIZE, VALUE_SIZE in *.
Ltac clia := consts; zlens; lia.

Definition free_end (p : bytes) : Z := fld 2 OFF_FREE_END p.
Definition count (p : bytes) : Z := fld 2 OFF_COUNT p.
Definition hdr (p : bytes) : Z :=
  if at0 OFF_PAGE_TYPE p =? UNDO_PAGE_TYPE then BASE_HDR_SIZE else SEG_PAGE_HDR_SIZE.
Definition rec_off (i : Z) : Z := PAGE_SIZE - (i + 1) * UNDO_RECORD_SIZE.

Definition encode (r : UndoRecord) : bytes :=
  le_bytes 8 (data_page_id r) ++ le_bytes 2 (data_slot_id r) ++ le_bytes 2 0 ++
  le_bytes 8 (ptr_pair (prev r)).1 ++ le_bytes 2 (ptr_pair (prev r)).2 ++ le_bytes 2 0 ++
  le_bytes 8 (txn_id r) ++
  le_bytes 8 (ptr_pair (txn_next r)).1 ++ le_bytes 2 (ptr_pair (txn_next r)).2 ++ le_bytes 2 0 ++
  le_bytes 8 (old_commit_lsn r) ++ le_bytes 2 (old_flags r) ++ le_bytes 2 0 ++ old_value r.

Definition decode (bs : bytes) : UndoRecord := {|
  data_page_id := fld 8 0 bs; data_slot_id := fld 2 8 bs;
  prev := pair_ptr (fld 8 12 bs) (fld 2 20 bs); txn_id := fld 8 24 bs;
  txn_next := pair_ptr (fld 8 32 bs) (fld 2 40 bs); old_commit_lsn := fld 8 44 bs;
  old_flags := fld 2 52 bs; old_value := sub 56 VALUE_SIZE bs |}.

Definition record_bytes (p : bytes) (i : Z) : bytes := sub (rec_off i) UNDO_RECORD_SIZE p.

(** The records of a page, oldest first. *)
Definition records (p : bytes) : list UndoRecord :=
  (fun i => decode (record_bytes p i)) <$> seqZ 0 (count p).

Record wf (p : bytes) : Prop := {
  wf_len : zlen p = PAGE_SIZE;
  wf_content : wf_bytes p;
  wf_type : at0 OFF_PAGE_TYPE p = UNDO_PAGE_TYPE \/ at0 OFF_PAGE_TYPE p = UNDO_SEGMENT_PAGE_TYPE;
  wf_free : free_end p = PAGE_SIZE - count p * UNDO_RECORD_SIZE;
  wf_room : hdr p + 2 * count p <= free_end p;
  wf_dir : forall i, 0 <= i < count p -> fld 2 (hdr p + i * 2) p = rec_off i
}.

(** Records whose fields fit their widths; a pointer to page 0 is not representable. *)
Definition ptr_ok (u : option UndoPtr) : Prop :=
  match u with
  | Some p => 0 < up_page_id p < U64 /\ 0 <= up_slot_id p < U16
  | None => True
  end.

Record rec_ok (r : UndoRecord) : Prop := {
  ok_page : 0 <= data_page_id r < U64;
  ok_slot : 0 <= data_slot_id r < U16;
  ok_prev : ptr_ok (prev r);
  ok_txn : 0 <= txn_id r < U64;
  ok_next : ptr_ok (txn_next r);
  ok_lsn : 0 <= old_commit_lsn r < U64;
  ok_flags : 0 <= old_flags r < U16;
  ok_value : zlen (old_value r) = VALUE_SIZE;
  ok_bytes : wf_bytes (old_value r)
}.

Lemma encode_len r : zlen (old_value r) = VALUE_SIZE -> zlen (encode r) = UNDO_RECORD_SIZE.
Proof. intros. unfold encode. zlens. clia. Qed.

Lemma encode_bytes r : rec_ok r -> wf_bytes (encode r).
Proof.
  intros []. unfold encode. repeat (apply Forall_app_2; [apply wf_le_bytes|]). done.
Qed.

Lemma pair_ptr_pair u : ptr_ok u -> pair_ptr (ptr_pair u).1 (ptr_pair u).2 = u.
Proof.
  destruct u as [[pid sid]|]; [|done]. cbn. intros [? _]. unfold pair_ptr.
  by destruct (Z.eqb_spec pid 0); [lia|].
Qed.

Lemma ptr_pair_bound u :
  ptr_ok u -> 0 <= (ptr_pair u).1 < U64 /\ 0 <= (ptr_pair u).2 < U16.
Proof. destruct u; cbn; unfold U64, U16; lia. Qed.

Ltac fld_done :=
  first [ rewrite fld_le_bytes_app by (unfold U64, U16 in *; lia)
        | rewrite fld_le_bytes by (unfold U64, U16 in *; lia) ]; try done.

Lemma decode_encode r : rec_ok r -> decode (encode r) = r.
Proof.
  intros []. pose proof (ptr_pair_bound (prev r) ltac:(done)).
  pose proof (ptr_pair_bound (txn_next r) ltac:(done)).
  assert (Hp := pair_ptr_pair (prev r) ltac:(done)).
  assert (Hn := pair_ptr_pair (txn_next r) ltac:(done)). consts.
  destruct r; unfold decode, encode; cbn [data_page_id data_slot_id prev txn_id txn_next
    old_commit_lsn old_flags old_value] in *; f_equal.
  all: try (fld_skip; fld_done).
  - etransitivity; [|exact Hp]; f_equal; fld_skip; fld_done.
  - etransitivity; [|exact Hn]; f_equal; fld_skip; fld_done.
  - repeat (rewrite sub_app_r by (zlens; lia)). zlens. by apply sub_all.
Qed.

Lemma count_nonneg p : wf p -> 0 <= count p.
Proof.
  intros Hwf. unfold count. pose proof (wf_len p Hwf).
  apply fld_bound; [apply Hwf|clia|clia].
Qed.

Lemma hdr_bound p : hdr p = 16 \/ hdr p = 88.
Proof. unfold hdr. destruct (_ =? _); [left|right]; reflexivity. Qed.

Lemma page_hdr_size_ok p : wf p -> page_hdr_size p = Ret (hdr p).
Proof.
  intros Hwf. unfold page_hdr_size, hdr. rewrite (wf_len p Hwf), Z.eqb_refl. cbn [negb].
  rewrite get_at_ok by (rewrite (wf_len p Hwf); clia). cbn [mbind outcome_bind].
  destruct (wf_type p Hwf) as [->| ->]; done.
Qed.

Lemma count_max p : wf p -> count p <= 15.
Proof. intros []. pose proof (hdr_bound p). clia. Qed.

Lemma records_len p : wf p -> zlen (records p) = count p.
Proof. intros Hwf. pose proof (count_nonneg p Hwf). unfold records, zlen. rewrite length_fmap, length_seqZ. lia. Qed.

Lemma records_lookup p i :
  0 <= i < count p -> records p !! Z.to_nat i = Some (decode (record_bytes p i)).
Proof.
  intros. unfold records. rewrite list_lookup_fmap, lookup_seqZ_lt by lia. cbn. do 3 f_equal. lia.
Qed.

(** Reading inside a record area. *)
Lemma record_bytes_fld p i n o :
  zlen p = PAGE_SIZE -> 0 <= i -> 0 <= rec_off i -> 0 <= o -> o + Z.of_nat n <= UNDO_RECORD_SIZE ->
  fld n (rec_off i + o) p = fld n o (record_bytes p i).
Proof.
  intros. unfold fld, record_bytes. rewrite sub_sub; [done|..]; unfold rec_off in *; clia.
Qed.

Lemma rec_off_bound p i :
  wf p -> 0 <= i < count p -> free_end p <= rec_off i /\ rec_off i + UNDO_RECORD_SIZE <= PAGE_SIZE
    /\ 0 <= rec_off i.
Proof. intros Hwf Hi. pose proof (hdr_bound p). destruct Hwf. unfold rec_off. clia. Qed.

Lemma read_record_ok p i :
  wf p -> 0 <= i ->
  read_record p i = match records p !! Z.to_nat i with
                    | Some r => Ret r
                    | None => Fail (Io InvalidInput)
                    end.
Proof.
  intros Hwf Hi. pose proof (wf_len p Hwf) as Hlen. pose proof (count_nonneg p Hwf).
  pose proof (hdr_bound p). pose proof (count_max p Hwf).
  unfold read_record, read_u16, read_u64. rewrite page_hdr_size_ok by done. cbn [mbind outcome_bind].
  rewrite (read_le_ok 2 p OFF_COUNT) by clia. cbn [mbind outcome_bind]. fold (count p).
  destruct (Z.leb_spec (count p) i).
  - rewrite (lookup_ge_None_2 (records p)); [done|].
    pose proof (records_len p Hwf). unfold zlen in *. lia.
  - rewrite records_lookup by lia. destruct (rec_off_bound p i) as (? & ? & ?); [done|lia|].
    rewrite (read_le_ok 2 p) by clia. cbn [mbind outcome_bind].
    rewrite (wf_dir p Hwf) by lia. destruct (Z.ltb_spec PAGE_SIZE (rec_off i + UNDO_RECORD_SIZE)); [lia|].
    rewrite <-(Z.add_0_r (rec_off i)) at 1.
    do 9 (rewrite read_le_ok by clia; rewrite record_bytes_fld by clia; cbn [mbind outcome_bind]).
    rewrite get_range_ok by clia. cbn [mbind outcome_bind]. unfold decode. do 2 f_equal.
    unfold record_bytes. rewrite sub_sub by clia. f_equal. lia.
Qed.

(** ** [append_record] *)

(** The page after appending a record: the record area, its directory entry, the header. *)
Definition appended (p : bytes) (r : UndoRecord) : bytes :=
  upd OFF_COUNT (le_bytes 2 (count p + 1))
    (upd OFF_FREE_END (le_bytes 2 (rec_off (count p)))
      (upd (hdr p + count p * 2) (le_bytes 2 (rec_off (count p)))
        (upd (rec_off (count p)) (encode r) p))).

Lemma room_iff p :
  wf p -> count p < 15 <-> hdr p + (count p + 1) * 2 + UNDO_RECORD_SIZE <= free_end p.
Proof. intros []. pose proof (hdr_bound p). clia. Qed.

Lemma append_record_full p r : wf p -> count p = 15 -> append_record p r = Fail (Io OtherKind).
Proof.
  intros Hwf Hc. pose proof (wf_len p Hwf). pose proof (room_iff p Hwf).
  unfold append_record, read_u16. rewrite page_hdr_size_ok by done. cbn [mbind outcome_bind].
  rewrite !read_le_ok by clia. cbn [mbind outcome_bind]. fold (count p) (free_end p).
  destruct (Z.ltb_spec (free_end p) (hdr p + (count p + 1) * 2 + UNDO_RECORD_SIZE)); [done|lia].
Qed.

Lemma append_record_fits p r :
  wf p -> zlen (old_value r) = VALUE_SIZE -> count p < 15 ->
  append_record p r = Ret (appended p r, count p).
Proof.
  intros Hwf Hv Hc. pose proof (wf_len p Hwf) as Hlen. pose proof (proj1 (room_iff p Hwf) Hc).
  pose proof (hdr_bound p). pose proof (count_nonneg p Hwf). pose proof (encode_len r Hv) as He.
  assert (Hoff : free_end p - UNDO_RECORD_SIZE = rec_off (count p))
    by (rewrite (wf_free p Hwf); unfold rec_off; clia).
  assert (0 <= rec_off (count p) /\ rec_off (count p) + UNDO_RECORD_SIZE <= PAGE_SIZE) by (unfold rec_off; clia).
  unfold append_record, read_u16, write_u16, write_u64. rewrite page_hdr_size_ok by done.
  cbn [mbind outcome_bind]. rewrite !read_le_ok by clia. cbn [mbind outcome_bind].
  fold (count p) (free_end p). rewrite Hoff.
  destruct (Z.ltb_spec (free_end p) (hdr p + (count p + 1) * 2 + UNDO_RECORD_SIZE)); [lia|].
  rewrite write_le_ok by clia. cbn [mbind outcome_bind].
  do 2 (rewrite write_le_ok by clia; cbn [mbind outcome_bind]; rewrite upd_adjacent by clia).
  destruct (ptr_pair (prev r)) as [pp ps] eqn:Ep.
  do 4 (rewrite write_le_ok by clia; cbn [mbind outcome_bind]; rewrite upd_adjacent by clia).
  destruct (ptr_pair (txn_next r)) as [np ns] eqn:En.
  do 6 (rewrite write_le_ok by clia; cbn [mbind outcome_bind]; rewrite upd_adjacent by clia).
  rewrite put_range_ok by clia. cbn [mbind outcome_bind]. rewrite upd_adjacent by clia.
  rewrite <-!app_assoc.
  assert (Heq : encode r = encode r) by done. unfold encode in Heq at 1. rewrite Ep, En in Heq.
  cbn [fst snd] in Heq. rewrite Heq. clear Heq.
  assert (Hw : wrap16 (rec_off (count p)) = rec_off (count p)) by (apply Z.mod_small; unfold U16; clia).
  assert (Hw1 : wrap16 (count p + 1) = count p + 1) by (apply Z.mod_small; unfold U16; clia).
  assert (Hw2 : wrap16 (count p + 1 - 1) = count p)
    by (rewrite Z.add_simpl_r; apply Z.mod_small; unfold U16; clia).
  rewrite Hw, Hw1, Hw2. do 3 (rewrite write_le_ok by clia; cbn [mbind outcome_bind]). done.
Qed.

Section Appended.
Context (p : bytes) (r : UndoRecord).
Hypothesis Hwf : wf p.
Hypothesis Hr : rec_ok r.
Hypothesis Hc : count p < 15.

Let p' := appended p r.

Lemma appended_bounds :
  zlen p = PAGE_SIZE /\ 0 <= count p /\ (hdr p = 16 \/ hdr p = 88) /\
  zlen (encode r) = UNDO_RECORD_SIZE /\ hdr p + (count p + 1) * 2 <= rec_off (count p) /\
  rec_off (count p) + UNDO_RECORD_SIZE <= PAGE_SIZE /\
  (forall i, 0 <= i < count p -> rec_off (count p) + UNDO_RECORD_SIZE <= rec_off i).
Proof using Hwf Hr Hc.
  pose proof (wf_len p Hwf). pose proof (proj1 (room_iff p Hwf) Hc). pose proof (wf_free p Hwf).
  pose proof (encode_len r (ok_value r Hr)). pose proof (count_nonneg p Hwf).
  split_and!; auto using hdr_bound; unfold rec_off; intros; clia.
Qed.

(** Bytes away from the four stores. *)
Lemma appended_sub_other a n :
  0 <= a -> 0 <= n -> a + n <= PAGE_SIZE ->
  (a + n <= 2 \/ (6 <= a /\ a + n <= hdr p + count p * 2) \/
   rec_off (count p) + UNDO_RECORD_SIZE <= a) ->
  sub a n p' = sub a n p.
Proof using Hwf Hr Hc.
  intros. destruct appended_bounds as (? & ? & ? & ? & ? & ? & _). unfold p', appended.
  rewrite !sub_upd_disjoint by clia. done.
Qed.

Lemma appended_hdr : at0 OFF_PAGE_TYPE p' = at0 OFF_PAGE_TYPE p /\ hdr p' = hdr p.
Proof using Hwf Hr Hc.
  destruct appended_bounds as (? & ? & ? & ? & ? & ? & _).
  assert (E : at0 OFF_PAGE_TYPE p' = at0 OFF_PAGE_TYPE p).
  { unfold p', appended. rewrite !at0_upd_disjoint by clia. done. }
  split; [done|]. unfold hdr at 1. rewrite E. done.
Qed.

Lemma appended_count : count p' = count p + 1 /\ free_end p' = rec_off (count p).
Proof using Hwf Hr Hc.
  destruct appended_bounds as (? & ? & ? & ? & ? & ? & _). unfold count at 1, free_end, p', appended. split.
  - rewrite fld_upd_same; [done|clia..].
  - rewrite fld_upd_disjoint by clia. rewrite fld_upd_same; [done|clia..].
Qed.

Lemma appended_dir i : 0 <= i < count p + 1 -> fld 2 (hdr p + i * 2) p' = rec_off i.
Proof using Hwf Hr Hc.
  intros Hi. destruct appended_bounds as (? & ? & ? & ? & ? & ? & _).
  destruct (decide (i = count p)) as [->|].
  - unfold p', appended. rewrite 2!fld_upd_disjoint by clia. rewrite fld_upd_same; [done|clia..].
  - unfold fld. rewrite appended_sub_other by clia. fold (fld 2 (hdr p + i * 2) p).
    apply (wf_dir p Hwf). lia.
Qed.

Lemma appended_wf : wf p'.
Proof using Hwf Hr Hc.
  destruct appended_bounds as (? & ? & ? & ? & ? & ? & _). destruct appended_hdr as [Ht Hh].
  destruct appended_count as [Hn Hf]. split.
  - unfold p', appended. clia.
  - unfold p', appended. do 3 (apply wf_upd; [apply wf_le_bytes|]).
    apply wf_upd; [by apply encode_bytes|apply Hwf].
  - rewrite Ht. apply Hwf.
  - rewrite Hf, Hn. unfold rec_off. clia.
  - rewrite Hh, Hn, Hf. clia.
  - intros i Hi. rewrite Hn in Hi. rewrite Hh. by apply appended_dir.
Qed.

Lemma appended_records : records p' = records p ++ [r].
Proof using Hwf Hr Hc.
  destruct appended_bounds as (? & ? & ? & ? & ? & ? & Hsep). destruct appended_count as [Hn _].
  unfold records. rewrite Hn. replace (seqZ 0 (count p + 1)) with (seqZ 0 (count p) ++ [count p]).
  2:{ rewrite seqZ_app by lia. rewrite Z.add_0_l. by rewrite (seqZ_cons _ 1). }
  rewrite fmap_app. f_equal.
  - apply list_fmap_ext. intros k i Hi. apply lookup_seqZ in Hi as [-> ?]. f_equal.
    unfold record_bytes. pose proof (Hsep (0 + Z.of_nat k) ltac:(lia)).
    apply appended_sub_other; unfold rec_off in *; clia.
  - cbn. f_equal. transitivity (decode (encode r)); [f_equal|by apply decode_encode].
    unfold record_bytes, p', appended. rewrite 3!sub_upd_disjoint by clia.
    rewrite sub_upd_same by clia. done.
Qed.
End Appended.

(** ** Segment headers *)

Definition seg_header (p : bytes) : UndoSegmentHeader := {|
  seg_txn_id := fld 8 OFF_SEG_TXN_ID p; begin_lsn := fld 8 OFF_SEG_BEGIN_LSN p;
  commit_lsn := fld 8 OFF_SEG_COMMIT_LSN p; state := at0 OFF_SEG_STATE p;
  first_page_id := fld 8 OFF_SEG_FIRST_PAGE_ID p; last_page_id := fld 8 OFF_SEG_LAST_PAGE_ID p;
  record_count := fld 4 OFF_SEG_RECORD_COUNT p; history_prev := fld 8 OFF_SEG_HISTORY_PREV p;
  history_next := fld 8 OFF_SEG_HISTORY_NEXT p |}.

Lemma read_segment_header_ok p :
  zlen p = PAGE_SIZE -> at0 OFF_PAGE_TYPE p = UNDO_SEGMENT_PAGE_TYPE ->
  read_segment_header p = Ret (seg_header p).
Proof.
  intros Hlen Ht. unfold read_segment_header, read_u64, read_u32. rewrite Hlen, Z.eqb_refl. cbn [negb].
  rewrite (get_at_ok p OFF_PAGE_TYPE) by clia. cbn [mbind outcome_bind]. rewrite Ht, Z.eqb_refl. cbn [negb].
  do 3 (rewrite read_le_ok by clia; cbn [mbind outcome_bind]).
  rewrite get_at_ok by clia. cbn [mbind outcome_bind].
  do 5 (rewrite read_le_ok by clia; cbn [mbind outcome_bind]). done.
Qed.

Record seg_ok (h : UndoSegmentHeader) : Prop := {
  sok_txn : 0 <= seg_txn_id h < U64;
  sok_begin : 0 <= begin_lsn h < U64;
  sok_commit : 0 <= commit_lsn h < U64;
  sok_state : is_byte (state h);
  sok_first : 0 <= first_page_id h < U64;
  sok_last : 0 <= last_page_id h < U64;
  sok_count : 0 <= record_count h < U32;
  sok_prev : 0 <= history_prev h < U64;
  sok_next : 0 <= history_next h < U64
}.

Definition with_header (p : bytes) (h : UndoSegmentHeader) : bytes :=
  upd OFF_SEG_HISTORY_NEXT (le_bytes 8 (history_next h))
  (upd OFF_SEG_HISTORY_PREV (le_bytes 8 (history_prev h))
  (upd OFF_SEG_RECORD_COUNT (le_bytes 4 (record_count h))
  (upd OFF_SEG_LAST_PAGE_ID (le_bytes 8 (last_page_id h))
  (upd OFF_SEG_FIRST_PAGE_ID (le_bytes 8 (first_page_id h))
  (upd OFF_SEG_STATE [state h]
  (upd OFF_SEG_COMMIT_LSN (le_bytes 8 (commit_lsn h))
  (upd OFF_SEG_BEGIN_LSN (le_bytes 8 (begin_lsn h))
  (upd OFF_SEG_TXN_ID (le_bytes 8 (seg_txn_id h)) p)))))))).

Lemma write_segment_header_ok p h :
  zlen p = PAGE_SIZE -> at0 OFF_PAGE_TYPE p = UNDO_SEGMENT_PAGE_TYPE ->
  write_segment_header p h = Ret (with_header p h).
Proof.
  intros Hlen Ht. unfold write_segment_header, write_u64, write_u32.
  rewrite Hlen, Z.eqb_refl. cbn [negb]. rewrite (get_at_ok p OFF_PAGE_TYPE) by clia. cbn [mbind outcome_bind].
  rewrite Ht, Z.eqb_refl. cbn [negb].
  do 3 (rewrite write_le_ok by clia; cbn [mbind outcome_bind]).
  rewrite put_at_ok by clia. cbn [mbind outcome_bind].
  do 5 (rewrite write_le_ok by clia; cbn [mbind outcome_bind]). done.
Qed.

Lemma with_header_sub_other p h a n :
  zlen p = PAGE_SIZE -> 0 <= a -> 0 <= n -> a + n <= PAGE_SIZE -> (a + n <= 16 \/ 88 <= a) ->
  sub a n (with_header p h) = sub a n p.
Proof. intros. unfold with_header. rewrite !sub_upd_disjoint by clia. done. Qed.

Lemma with_header_read p h :
  zlen p = PAGE_SIZE -> seg_ok h -> seg_header (with_header p h) = h.
Proof.
  intros Hlen []. unfold seg_header, with_header.
  destruct h; cbn [seg_txn_id begin_lsn commit_lsn state first_page_id last_page_id record_count
    history_prev history_next] in *. unfold U64, U32 in *. f_equal.
  all: repeat first [rewrite fld_upd_disjoint by clia | rewrite at0_upd_disjoint by clia].
  all: first [apply fld_upd_same | apply at0_upd_same]; clia.
Qed.
End UndoSpec.

(** ** Properties of undo pages *)

Module UndoProps.
Import Undo UndoSpec.

Lemma page_next_id_ok p : wf p -> page_next_id p = Ret (fld 8 OFF_PAGE_NEXT p).
Proof.
  intros Hwf. pose proof (wf_len p Hwf) as Hlen. unfold page_next_id, read_u64.
  rewrite Hlen, Z.eqb_refl. cbn [negb]. rewrite get_at_ok by clia. cbn [mbind outcome_bind].
  rewrite read_le_ok by clia. destruct (wf_type p Hwf) as [->| ->]; done.
Qed.

Lemma appended_links p r :
  wf p -> rec_ok r -> count p < 15 ->
  page_next_id (appended p r) = page_next_id p /\
  read_segment_header (appended p r) = read_segment_header p.
Proof.
  intros Hwf Hr Hc. pose proof (appended_wf p r Hwf Hr Hc) as Hwf'.
  destruct (appended_bounds p r Hwf Hr Hc) as (Hlen & ? & Hh & ? & ? & ? & _).
  destruct (appended_hdr p r Hwf Hr Hc) as [Ht _].
  assert (Hf : forall n o, 6 <= o -> o + Z.of_nat n <= hdr p -> fld n o (appended p r) = fld n o p)
    by (intros; unfold fld; rewrite (appended_sub_other p r Hwf Hr Hc) by clia; done).
  split.
  - rewrite !page_next_id_ok by done. f_equal. apply Hf; clia.
  - destruct (wf_type p Hwf) as [Hty|Hty].
    + unfold read_segment_header. rewrite Hlen, (wf_len _ Hwf'), !Z.eqb_refl. cbn [negb].
      rewrite 2!(get_at_ok _ OFF_PAGE_TYPE) by (rewrite ?(wf_len _ Hwf'); clia).
      cbn [mbind outcome_bind]. rewrite Ht, Hty. done.
    + assert (hdr p = 88) by (unfold hdr; rewrite Hty; reflexivity).
      rewrite !read_segment_header_ok by (apply Hwf || apply Hwf' || congruence).
      f_equal. unfold seg_header. f_equal; try (apply Hf; clia).
      unfold appended. rewrite !at0_upd_disjoint by clia. done.
Qed.

(** An undo page is an append-only list of at most fifteen records.  On a
    well-formed page [append_record] returns the next slot id and appends the record to
    the list (leaving the chain pointer and the segment header alone) while the page
    holds fewer than fifteen, fails with "undo page full" afterwards, and [read_record]
    returns exactly the element of the list at its slot, or the out-of-range error. *)
Theorem append_record_refines_list p r :
  wf p -> rec_ok r ->
  (forall i, 0 <= i -> read_record p i =
     match records p !! Z.to_nat i with Some x => Ret x | None => Fail (Io InvalidInput) end) /\
  ((length (records p) = 15%nat /\ append_record p r = Fail (Io OtherKind)) \/
   ((length (records p) < 15)%nat /\ exists p',
      append_record p r = Ret (p', zlen (records p)) /\ wf p' /\ records p' = records p ++ [r] /\
      page_next_id p' = page_next_id p /\ read_segment_header p' = read_segment_header p)).
Proof.
  intros Hwf Hr. split; [intros; by apply read_record_ok|].
  pose proof (records_len p Hwf) as Hl. pose proof (count_max p Hwf). unfold zlen in Hl.
  destruct (decide (count p = 15)) as [Hc|Hc].
  - left. split; [lia|by apply append_record_full].
  - right. split; [lia|]. exists (appended p r).
    rewrite append_record_fits by (done || apply Hr || lia).
    destruct (appended_links p r Hwf Hr); [lia|]. unfold zlen. rewrite Hl.
    split_and!; try done; [apply appended_wf|apply appended_records]; done || lia.
Qed.

Definition empty_undo_page : bytes :=
  upd 8 (le_bytes 8 0) (upd 4 (le_bytes 2 0) (upd 2 (le_bytes 2 16384) (upd 0 [1] (zrepeat 0 PAGE_SIZE)))).

Lemma new_undo_page_ok : new_undo_page = Ret empty_undo_page.
Proof. vm_compute. reflexivity. Qed.

Lemma empty_undo_page_wf : wf empty_undo_page /\ records empty_undo_page = [].
Proof.
  split; [|vm_compute; reflexivity].
  assert (count empty_undo_page = 0) as Hc by (vm_compute; reflexivity). split.
  - reflexivity.
  - apply (bool_decide_unpack _). vm_compute. exact I.
  - left. reflexivity.
  - vm_compute. reflexivity.
  - vm_compute. discriminate.
  - rewrite Hc. lia.
Qed.

Definition sample_record : UndoRecord := {|
  data_page_id := 19; data_slot_id := 9; prev := Some {| up_page_id := 29; up_slot_id := 2 |};
  txn_id := 39; txn_next := None; old_commit_lsn := 59; old_flags := 9;
  old_value := zrepeat 9 VALUE_SIZE |}.

Lemma sample_record_ok : rec_ok sample_record.
Proof.
  split; cbn; unfold U64, U16; try lia; [reflexivity|]. apply wf_zrepeat. vm_compute. split; discriminate || done.
Qed.

Lemma append_record_refines_list_witness :
  exists p', append_record empty_undo_page sample_record = Ret (p', 0) /\ records p' = [sample_record].
Proof.
  destruct empty_undo_page_wf as [Hwf Hnil].
  destruct (append_record_refines_list empty_undo_page sample_record Hwf sample_record_ok)
    as [_ [[Hl _]|(_ & p' & Ha & _ & Hr & _)]]; rewrite Hnil in *; [discriminate Hl|].
  exists p'. split; [exact Ha|exact Hr].
Defined.

(** Rewriting a segment header round-trips every field, and touches neither the
    undo records stored in the page nor its chain pointer. *)
Theorem segment_header_roundtrip p h :
  wf p -> at0 OFF_PAGE_TYPE p = UNDO_SEGMENT_PAGE_TYPE -> seg_ok h ->
  exists p', write_segment_header p h = Ret p' /\ read_segment_header p' = Ret h /\ wf p' /\
    records p' = records p /\ page_next_id p' = page_next_id p.
Proof.
  intros Hwf Ht Hh. pose proof (wf_len p Hwf) as Hlen. exists (with_header p h).
  assert (Hl' : zlen (with_header p h) = PAGE_SIZE) by (unfold with_header; clia).
  assert (Ht' : at0 OFF_PAGE_TYPE (with_header p h) = UNDO_SEGMENT_PAGE_TYPE)
    by (unfold with_header; rewrite !at0_upd_disjoint by clia; done).
  assert (Hf : forall n o, 0 <= o -> o + Z.of_nat n <= PAGE_SIZE ->
    o + Z.of_nat n <= 16 \/ 88 <= o -> fld n o (with_header p h) = fld n o p)
    by (intros; unfold fld; rewrite with_header_sub_other by clia; done).
  assert (Hhd : hdr (with_header p h) = 88 /\ hdr p = 88)
    by (unfold hdr; rewrite Ht, Ht'; split; reflexivity).
  destruct Hhd as [Hhd' Hhd].
  assert (Hc : count (with_header p h) = count p) by (apply Hf; clia).
  assert (He : free_end (with_header p h) = free_end p) by (apply Hf; clia).
  pose proof (count_max p Hwf).
  assert (Hwf' : wf (with_header p h)).
  { split; [done| |by right|rewrite Hc, He; apply Hwf|rewrite Hc, He, Hhd', <-Hhd; apply Hwf|].
    - destruct Hh. unfold with_header. repeat (apply wf_upd; [first [apply wf_le_bytes|by apply Forall_singleton]|]).
      apply Hwf.
    - intros i Hi. rewrite Hc in Hi. rewrite Hhd', Hf by clia. rewrite <-Hhd. by apply (wf_dir p Hwf). }
  split_and!; [by apply write_segment_header_ok| |done| |].
  - rewrite read_segment_header_ok by done. f_equal. by apply with_header_read.
  - unfold records. rewrite Hc. apply list_fmap_ext. intros k i Hi.
    apply lookup_seqZ in Hi as [-> ?]. f_equal. unfold record_bytes.
    destruct (rec_off_bound p (0 + Z.of_nat k)) as (? & ? & ?); [done|lia|].
    apply with_header_sub_other; try clia. pose proof (wf_room p Hwf). clia.
  - rewrite !page_next_id_ok by done. f_equal. apply Hf; clia.
Qed.

Definition empty_segment_page : bytes :=
  default [] (match new_undo_segment_page 7 123 with Ret p => Some p | _ => None end).

Lemma empty_segment_page_wf :
  wf empty_segment_page /\ at0 OFF_PAGE_TYPE empty_segment_page = UNDO_SEGMENT_PAGE_TYPE.
Proof.
  split; [|vm_compute; reflexivity].
  assert (count empty_segment_page = 0) as Hc by (vm_compute; reflexivity). split.
  - vm_compute. reflexivity.
  - apply (bool_decide_unpack _). vm_compute. exact I.
  - right. vm_compute. reflexivity.
  - vm_compute. reflexivity.
  - vm_compute. discriminate.
  - rewrite Hc. lia.
Qed.

Definition sample_header : UndoSegmentHeader := {|
  seg_txn_id := 7; begin_lsn := 11; commit_lsn := 12; state := SEGMENT_STATE_COMMITTED;
  first_page_id := 123; last_page_id := 123; record_count := 13;
  history_prev := 1001; history_next := 1002 |}.

Lemma sample_seg_header_ok : seg_ok sample_header.
Proof. split; vm_compute; split; discriminate || reflexivity. Qed.

Lemma segment_header_roundtrip_witness :
  exists p', write_segment_header empty_segment_page sample_header = Ret p' /\
    read_segment_header p' = Ret sample_header.
Proof.
  destruct empty_segment_page_wf as [Hwf Ht].
  destruct (segment_header_roundtrip empty_segment_page sample_header Hwf Ht sample_seg_header_ok)
    as (p' & Hw & Hr & _).
  exists p'. split; [exact Hw|exact Hr].
Defined.

End UndoProps.
