(* ===== verification/MetaPage.v ===== *)
(** * MetaPage: the metadata pages (src/src/meta_page.rs, src/src/btree_meta.rs)

    Page 0 holds the engine's allocation state (tree root, next page ids, the stack of
    free undo pages and the undo history list); each B+tree opened by id has a meta page
    with its root.  Both are fixed layouts written by [encode] and read by [decode]. *)

From stdpp Require Import base numbers list list_numbers.
From S2P Require Import Prelude Common.

Definition META_PAGE_ID : PageId := 0.
Definition UNDO_FREE_CAP : Z := 1024.

Record MetaPage := {
  root_page_id : PageId;
  next_bptree_page_id : PageId;
  next_data_page_id : PageId;
  next_undo_page_id : PageId;
  undo_free : list PageId;
  undo_history_head : PageId;
  undo_history_tail : PageId
}.

Record BtreeMeta := { btree_root_page_id : PageId }.

Module Meta.

Abbreviation M := (outcome Error) (only parsing).

(** [b"SKVMETA\0"] *)
Definition MAGIC : bytes := [83; 75; 86; 77; 69; 84; 65; 0].
Definition VERSION_V3 : Z := 3.
Definition OFF_UNDO_FREE_LEN : Z := 44.
Definition OFF_UNDO_FREE_IDS : Z := 48.
Definition OFF_UNDO_HISTORY_HEAD : Z := OFF_UNDO_FREE_IDS + UNDO_FREE_CAP * 8.
Definition OFF_UNDO_HISTORY_TAIL : Z := OFF_UNDO_HISTORY_HEAD + 8.

(** The loop of [encode] over the free list. *)
Fixpoint put_ids (page : bytes) (off : Z) (ids : list PageId) : M bytes :=
  match ids with
  | [] => Ret page
  | pid :: ids =>
      page ← put_range page off (off + 8) (le_bytes 8 pid);
      put_ids page (off + 8) ids
  end.

Definition encode (m : MetaPage) : M Page :=
  page ← put_range (zrepeat 0 PAGE_SIZE) 0 8 MAGIC;
  page ← put_range page 8 12 (le_bytes 4 VERSION_V3);
  page ← put_range page 12 20 (le_bytes 8 (root_page_id m));
  page ← put_range page 20 28 (le_bytes 8 (next_bptree_page_id m));
  page ← put_range page 28 36 (le_bytes 8 (next_data_page_id m));
  page ← put_range page 36 44 (le_bytes 8 (next_undo_page_id m));
  let n := wrap32 (Z.min (zlen (undo_free m)) UNDO_FREE_CAP) in
  page ← put_range page OFF_UNDO_FREE_LEN (OFF_UNDO_FREE_LEN + 4) (le_bytes 4 n);
  page ← put_ids page OFF_UNDO_FREE_IDS (take (Z.to_nat UNDO_FREE_CAP) (undo_free m));
  page ← put_range page OFF_UNDO_HISTORY_HEAD (OFF_UNDO_HISTORY_HEAD + 8)
           (le_bytes 8 (undo_history_head m));
  put_range page OFF_UNDO_HISTORY_TAIL (OFF_UNDO_HISTORY_TAIL + 8)
    (le_bytes 8 (undo_history_tail m)).

(** The loop of [decode] over the free list: zero ids are dropped. *)
Fixpoint get_ids (page : bytes) (off : Z) (n : nat) (undo_free : list PageId) : M (list PageId) :=
  match n with
  | O => Ret undo_free
  | S n =>
      pid ← read_le 8 page off;
      get_ids page (off + 8) n (if pid =? 0 then undo_free else undo_free ++ [pid])
  end.

Definition decode (page : bytes) : M MetaPage :=
  if negb (zlen page =? PAGE_SIZE) then Fail (InvalidPageSize (zlen page) PAGE_SIZE) else
  magic ← get_range page 0 8;
  if negb (bytes_eqb magic MAGIC) then Fail (Io InvalidData) else
  ver ← read_le 4 page 8;
  if negb (ver =? VERSION_V3) then Fail (Io InvalidData) else
  root ← read_le 8 page 12;
  nb ← read_le 8 page 20;
  nd ← read_le 8 page 28;
  nu ← read_le 8 page 36;
  n ← read_le 4 page OFF_UNDO_FREE_LEN;
  free ← get_ids page OFF_UNDO_FREE_IDS (Z.to_nat (Z.min n UNDO_FREE_CAP)) [];
  hh ← read_le 8 page OFF_UNDO_HISTORY_HEAD;
  ht ← read_le 8 page OFF_UNDO_HISTORY_TAIL;
  Ret {| root_page_id := root; next_bptree_page_id := nb; next_data_page_id := nd;
         next_undo_page_id := nu; undo_free := free;
         undo_history_head := hh; undo_history_tail := ht |}.

(** [self.undo_free.pop()]: the popped id and the remaining state. *)
Definition with_free (m : MetaPage) (f : list PageId) : MetaPage := {|
  root_page_id := root_page_id m; next_bptree_page_id := next_bptree_page_id m;
  next_data_page_id := next_data_page_id m; next_undo_page_id := next_undo_page_id m;
  undo_free := f; undo_history_head := undo_history_head m;
  undo_history_tail := undo_history_tail m |}.

Definition pop_free_undo (m : MetaPage) : option PageId * MetaPage :=
  (last (undo_free m), with_free m (take (length (undo_free m) - 1) (undo_free m))).

Definition push_free_undo (m : MetaPage) (pid : PageId) : MetaPage :=
  if zlen (undo_free m) <? UNDO_FREE_CAP then with_free m (undo_free m ++ [pid]) else m.

End Meta.

Module BtreeMetaPage.

Definition BTREE_META_PAGE_ID : PageId := 8.
(** [b"SKBTREE\0"] *)
Definition BTREE_MAGIC : bytes := [83; 75; 66; 84; 82; 69; 69; 0].
Definition BTREE_VERSION : Z := 1.

Definition btree_encode (m : BtreeMeta) : outcome Error Page :=
  p ← put_range (zrepeat 0 PAGE_SIZE) 0 8 BTREE_MAGIC;
  p ← put_range p 8 12 (le_bytes 4 BTREE_VERSION);
  put_range p 12 20 (le_bytes 8 (btree_root_page_id m)).

Definition btree_decode (page : bytes) : outcome Error BtreeMeta :=
  if negb (zlen page =? PAGE_SIZE) then Fail (InvalidPageSize (zlen page) PAGE_SIZE) else
  magic ← get_range page 0 8;
  if negb (bytes_eqb magic BTREE_MAGIC) then Fail (Io InvalidData) else
  ver ← read_le 4 page 8;
  if negb (ver =? BTREE_VERSION) then Fail (Io InvalidData) else
  root ← read_le 8 page 12;
  Ret {| btree_root_page_id := root |}.

End BtreeMetaPage.

Module MetaProps.
Import Meta BtreeMetaPage.

Ltac consts :=
  unfold OFF_UNDO_HISTORY_TAIL, OFF_UNDO_HISTORY_HEAD, OFF_UNDO_FREE_IDS, OFF_UNDO_FREE_LEN,
    UNDO_FREE_CAP, PAGE_SIZE in *.
Ltac clia := consts; zlens; lia.

Definition ids_bytes (ids : list PageId) : bytes := ids ≫= le_bytes 8.

Lemma ids_bytes_len ids : zlen (ids_bytes ids) = 8 * zlen ids.
Proof.
  induction ids as [|i ids IH]; [done|]. unfold ids_bytes in *. cbn [mbind list_bind].
  rewrite zlen_app, zlen_cons, zlen_le_bytes, IH. lia.
Qed.

Lemma put_ids_ok ids : forall page off,
  0 <= off -> off + 8 * zlen ids <= zlen page ->
  put_ids page off ids = Ret (upd off (ids_bytes ids) page).
Proof.
  induction ids as [|i ids IH]; intros page off Ho Hle.
  - cbn. f_equal. unfold upd. cbn. by rewrite Z.add_0_r, take_drop.
  - rewrite zlen_cons in Hle. pose proof (zlen_nonneg ids). cbn [put_ids].
    rewrite put_range_ok by clia. cbn [mbind outcome_bind]. rewrite IH by clia. f_equal.
    pose proof (ids_bytes_len ids). rewrite upd_adjacent by clia. done.
Qed.

(** The ids [decode] keeps. *)
Lemma get_ids_ok ids : forall page off acc,
  0 <= off -> off + 8 * zlen ids <= zlen page -> Forall (fun i => 0 <= i < U64) ids ->
  sub off (8 * zlen ids) page = ids_bytes ids ->
  get_ids page off (length ids) acc = Ret (acc ++ filter (fun i => i <> 0) ids).
Proof.
  induction ids as [|i ids IH]; intros page off acc Ho Hle Hb Hsub.
  - cbn. by rewrite app_nil_r.
  - apply Forall_cons in Hb as [Hi Hb]. rewrite zlen_cons in *. pose proof (zlen_nonneg ids).
    unfold ids_bytes in Hsub. cbn [mbind list_bind] in Hsub. fold (ids_bytes ids) in Hsub.
    replace (8 * (1 + zlen ids)) with (8 + 8 * zlen ids) in Hsub by lia.
    rewrite sub_split in Hsub by lia.
    apply app_inj_1 in Hsub as [H1 H2]; [|by apply (inj Z.of_nat); change (zlen (sub off 8 page) = zlen (le_bytes 8 i)); zlens].
    cbn [length get_ids]. rewrite read_le_ok by lia. cbn [mbind outcome_bind].
    unfold fld. change (Z.of_nat 8) with 8. rewrite H1, le_val_u64 by done.
    rewrite IH by (done || lia). f_equal. destruct (Z.eqb_spec i 0) as [->|].
    + by rewrite filter_cons_False by lia.
    + rewrite filter_cons_True by done. by rewrite <-app_assoc.
Qed.

Record meta_ok (m : MetaPage) : Prop := {
  mok_root : 0 <= root_page_id m < U64;
  mok_bptree : 0 <= next_bptree_page_id m < U64;
  mok_data : 0 <= next_data_page_id m < U64;
  mok_undo : 0 <= next_undo_page_id m < U64;
  mok_free : Forall (fun i => 0 <= i < U64) (undo_free m);
  mok_head : 0 <= undo_history_head m < U64;
  mok_tail : 0 <= undo_history_tail m < U64
}.

(** The page [encode] writes, as stores of the fixed header, the ids and the tail. *)
Definition meta_bytes (m : MetaPage) : bytes :=
  MAGIC ++ le_bytes 4 VERSION_V3 ++ le_bytes 8 (root_page_id m) ++
  le_bytes 8 (next_bptree_page_id m) ++ le_bytes 8 (next_data_page_id m) ++
  le_bytes 8 (next_undo_page_id m) ++ le_bytes 4 (Z.min (zlen (undo_free m)) UNDO_FREE_CAP).

Definition meta_ids (m : MetaPage) : list PageId := take (Z.to_nat UNDO_FREE_CAP) (undo_free m).

Definition encoded (m : MetaPage) : bytes :=
  upd OFF_UNDO_HISTORY_HEAD (le_bytes 8 (undo_history_head m) ++ le_bytes 8 (undo_history_tail m))
    (upd OFF_UNDO_FREE_IDS (ids_bytes (meta_ids m)) (upd 0 (meta_bytes m) (zrepeat 0 PAGE_SIZE))).

Lemma meta_ids_len m : zlen (meta_ids m) = Z.min (zlen (undo_free m)) UNDO_FREE_CAP.
Proof. unfold meta_ids, zlen. rewrite length_take. clia. Qed.

Lemma meta_bytes_len m : zlen (meta_bytes m) = 48.
Proof. unfold meta_bytes. zlens. reflexivity. Qed.

Lemma encode_ok m : encode m = Ret (encoded m).
Proof.
  pose proof (meta_ids_len m) as Hl. pose proof (ids_bytes_len (meta_ids m)) as Hib.
  pose proof (zlen_nonneg (undo_free m)).
  assert (Hw : wrap32 (Z.min (zlen (undo_free m)) UNDO_FREE_CAP) = Z.min (zlen (undo_free m)) UNDO_FREE_CAP)
    by (apply Z.mod_small; unfold U32; clia).
  unfold encode. rewrite Hw. fold (meta_ids m). assert (zlen MAGIC = 8) as Hmg by reflexivity.
  rewrite put_range_ok by clia. cbn [mbind outcome_bind].
  do 6 (rewrite put_range_ok by clia; cbn [mbind outcome_bind]; rewrite upd_adjacent by clia).
  rewrite <-!app_assoc. fold (meta_bytes m). pose proof (meta_bytes_len m).
  rewrite put_ids_ok by clia. cbn [mbind outcome_bind].
  do 2 (rewrite put_range_ok by clia; cbn [mbind outcome_bind]). rewrite upd_adjacent by clia. done.
Qed.

Lemma encoded_len m : zlen (encoded m) = PAGE_SIZE.
Proof.
  pose proof (meta_bytes_len m). pose proof (ids_bytes_len (meta_ids m)).
  pose proof (meta_ids_len m). pose proof (zlen_nonneg (undo_free m)). unfold encoded. clia.
Qed.

Lemma encoded_head m a n :
  0 <= a -> 0 <= n -> a + n <= 48 -> sub a n (encoded m) = sub a n (meta_bytes m).
Proof.
  intros. pose proof (meta_bytes_len m). pose proof (ids_bytes_len (meta_ids m)).
  pose proof (meta_ids_len m). pose proof (zlen_nonneg (undo_free m)).
  unfold encoded. rewrite 2!sub_upd_disjoint by clia. rewrite sub_upd_inside by clia.
  by rewrite Z.sub_0_r.
Qed.

Lemma encoded_fld m n o :
  0 <= o -> o + Z.of_nat n <= 48 -> read_le (E:=Error) n (encoded m) o = Ret (fld n o (meta_bytes m)).
Proof.
  intros. pose proof (encoded_len m). rewrite read_le_ok by clia. unfold fld.
  by rewrite encoded_head by lia.
Qed.

Lemma encoded_tail m n o :
  8240 <= o -> o + Z.of_nat n <= 8256 ->
  read_le (E:=Error) n (encoded m) o =
    Ret (fld n (o - 8240) (le_bytes 8 (undo_history_head m) ++ le_bytes 8 (undo_history_tail m))).
Proof.
  intros. pose proof (encoded_len m). pose proof (meta_bytes_len m).
  pose proof (ids_bytes_len (meta_ids m)). pose proof (meta_ids_len m).
  pose proof (zlen_nonneg (undo_free m)). rewrite read_le_ok by clia. unfold encoded.
  rewrite fld_upd_inside by clia. done.
Qed.

Lemma encoded_ids m : sub OFF_UNDO_FREE_IDS (8 * zlen (meta_ids m)) (encoded m) = ids_bytes (meta_ids m).
Proof.
  pose proof (meta_bytes_len m). pose proof (ids_bytes_len (meta_ids m)).
  pose proof (meta_ids_len m). pose proof (zlen_nonneg (undo_free m)). unfold encoded.
  rewrite sub_upd_disjoint by clia. apply sub_upd_same; clia.
Qed.

Ltac fld_done :=
  fld_skip; first [ rewrite fld_le_bytes_app by (unfold U64, U32 in *; clia)
                  | rewrite fld_le_bytes by (unfold U64, U32 in *; clia) ].

Lemma decode_encoded m :
  meta_ok m -> decode (encoded m) = Ret (with_free m (filter (fun i => i <> 0) (meta_ids m))).
Proof.
  intros []. pose proof (zlen_nonneg (undo_free m)). pose proof (meta_ids_len m) as Hil.
  generalize (encoded_len m), (encoded_head m), (encoded_fld m), (encoded_tail m), (encoded_ids m).
  generalize (encoded m). intros q Hlen encoded_head encoded_fld encoded_tail encoded_ids.
  unfold decode. rewrite Hlen, Z.eqb_refl. cbn [negb].
  rewrite get_range_ok by clia. cbn [mbind outcome_bind]. rewrite encoded_head by lia.
  change (sub 0 (8 - 0) (meta_bytes m)) with MAGIC.
  destruct (bytes_eqb_spec MAGIC MAGIC) as [_|]; [|done]. cbn [negb].
  rewrite (encoded_fld 4%nat 8) by lia. cbn [mbind outcome_bind].
  change (fld 4 8 (meta_bytes m)) with VERSION_V3. rewrite Z.eqb_refl. cbn [negb].
  rewrite (encoded_fld 8%nat 12), (encoded_fld 8%nat 20), (encoded_fld 8%nat 28),
    (encoded_fld 8%nat 36), (encoded_fld 4%nat OFF_UNDO_FREE_LEN) by clia. cbn [mbind outcome_bind].
  replace (fld 4 OFF_UNDO_FREE_LEN (meta_bytes m)) with (Z.min (zlen (undo_free m)) UNDO_FREE_CAP)
    by (unfold meta_bytes; assert (zlen MAGIC = 8) by reflexivity; fld_done; done).
  replace (Z.to_nat (Z.min (Z.min (zlen (undo_free m)) UNDO_FREE_CAP) UNDO_FREE_CAP))
    with (length (meta_ids m)) by (rewrite <-Hil; unfold zlen in *; clia).
  rewrite get_ids_ok; [|clia|clia|by apply Forall_take|apply encoded_ids].
  cbn [mbind outcome_bind]. rewrite !encoded_tail by clia. cbn [mbind outcome_bind].
  unfold with_free, meta_bytes. assert (zlen MAGIC = 8) by reflexivity.
  f_equal. f_equal; fld_done; done.
Qed.

(** The engine's meta page round-trips.  [encode] never panics, writes a full page,
    and [decode] of that page returns the same state, except that the free list is cut
    to its capacity of 1024 ids and loses its zero ids; a state whose free list is
    within the capacity and has no zero id comes back unchanged. *)
Theorem meta_roundtrip m :
  meta_ok m ->
  exists p, encode m = Ret p /\ zlen p = PAGE_SIZE /\
    decode p = Ret (with_free m (filter (fun i => i <> 0) (take (Z.to_nat UNDO_FREE_CAP) (undo_free m)))) /\
    (zlen (undo_free m) <= UNDO_FREE_CAP -> Forall (fun i => i <> 0) (undo_free m) -> decode p = Ret m).
Proof.
  intros Hok. exists (encoded m). rewrite encode_ok. pose proof (encoded_len m) as Hlen.
  rewrite decode_encoded by done. split_and!; [done|done|done|].
  intros Hcap Hnz. unfold meta_ids. rewrite take_ge by (unfold zlen in *; lia).
  replace (filter _ (undo_free m)) with (undo_free m); [by destruct m|].
  clear Hok Hlen Hcap. induction Hnz; [done|]. by rewrite filter_cons_True, <-IHHnz.
Qed.

Definition sample_meta : MetaPage := {|
  root_page_id := 10; next_bptree_page_id := 11; next_data_page_id := 12; next_undo_page_id := 13;
  undo_free := [21; 22; 0; 23]; undo_history_head := 31; undo_history_tail := 32 |}.

Lemma meta_roundtrip_witness :
  exists p, encode sample_meta = Ret p /\ decode p = Ret (with_free sample_meta [21; 22; 23]).
Proof.
  destruct (meta_roundtrip sample_meta) as (p & He & _ & Hd & _).
  - split; cbn [root_page_id next_bptree_page_id next_data_page_id next_undo_page_id undo_free
      undo_history_head undo_history_tail sample_meta]; unfold U64; try lia.
    repeat (apply Forall_cons; split; [lia|]). apply Forall_nil. exact I.
  - exists p. split; [exact He|exact Hd].
Defined.

(** A B+tree's meta page round-trips its root page id, and [btree_decode] accepts no
    page that does not carry the magic and version [btree_encode] writes. *)
Theorem btree_meta_roundtrip m p :
  0 <= btree_root_page_id m < U64 ->
  (exists q, btree_encode m = Ret q /\ btree_decode q = Ret m) /\
  (forall m', btree_decode p = Ret m' ->
     zlen p = PAGE_SIZE /\ sub 0 8 p = BTREE_MAGIC /\ fld 4 8 p = BTREE_VERSION /\
     btree_root_page_id m' = fld 8 12 p).
Proof.
  intros Hm. split.
  - assert (zlen BTREE_MAGIC = 8) as Hmg by reflexivity. unfold btree_encode.
    rewrite put_range_ok by clia. cbn [mbind outcome_bind].
    do 2 (rewrite put_range_ok by clia; cbn [mbind outcome_bind]; rewrite upd_adjacent by clia).
    eexists. split; [reflexivity|]. rewrite <-app_assoc. set (b := BTREE_MAGIC ++ _).
    assert (Hb : zlen b = 20) by (unfold b; clia).
    assert (Hq : exists z, upd 0 b (zrepeat 0 PAGE_SIZE) = upd 0 b z /\ zlen z = PAGE_SIZE)
      by (eexists; split; [done|clia]).
    destruct Hq as (z & -> & Hz). unfold btree_decode. rewrite zlen_upd, Hz, Z.eqb_refl by clia.
    cbn [negb]. rewrite get_range_ok by clia. cbn [mbind outcome_bind]. rewrite sub_upd_inside by clia.
    change (sub (0 - 0) (8 - 0) b) with BTREE_MAGIC.
    destruct (bytes_eqb_spec BTREE_MAGIC BTREE_MAGIC) as [_|]; [|done]. cbn [negb].
    rewrite (read_le_ok 4 _ 8) by clia. cbn [mbind outcome_bind]. rewrite fld_upd_inside by clia.
    change (fld 4 (8 - 0) b) with BTREE_VERSION. rewrite Z.eqb_refl. cbn [negb].
    rewrite read_le_ok by clia. cbn [mbind outcome_bind]. rewrite fld_upd_inside by clia.
    destruct m; cbn [btree_root_page_id] in *. do 2 f_equal. unfold b. fld_done. done.
  - intros m'. unfold btree_decode. destruct (Z.eqb_spec (zlen p) PAGE_SIZE) as [Hl|]; [cbn [negb]|done].
    rewrite get_range_ok by clia. cbn [mbind outcome_bind].
    destruct (bytes_eqb_spec (sub 0 (8 - 0) p) BTREE_MAGIC) as [Hg|]; [cbn [negb]|done].
    rewrite (read_le_ok 4 _ 8) by clia. cbn [mbind outcome_bind].
    destruct (Z.eqb_spec (fld 4 8 p) BTREE_VERSION) as [Hv|]; [cbn [negb]|done].
    rewrite read_le_ok by clia. cbn [mbind outcome_bind]. intros [= <-]. done.
Qed.

Lemma btree_meta_roundtrip_witness :
  exists q, btree_encode {| btree_root_page_id := 123 |} = Ret q /\
    btree_decode q = Ret {| btree_root_page_id := 123 |}.
Proof.
  apply (btree_meta_roundtrip {| btree_root_page_id := 123 |} []).
  vm_compute; split; discriminate || reflexivity.
Defined.

End MetaProps.
