(* ===== verification/WalCodec.v ===== *)
(** * WalCodec: WAL records, batches and their frames (src/src/node_wal_codec.rs)

    A segment file is a concatenation of frames, each a little-endian length and a batch.
    The reader works on the bytes left in the file; the parser of a frame threads the
    cursor the code threads through [read_u64_from] and its siblings, and asks the allocator
    for the number of records the frame announces. *)

From stdpp Require Import base numbers list list_numbers.
From S2P Require Import Prelude Common.

Record WalRecord := {
  lsn : Z;
  op : Z;
  page_id : Z;
  slot_id : Z;
  key : bytes;
  value : bytes
}.

Record WalBatch := {
  request_id : Z;
  start_lsn : Z;
  end_lsn : Z;
  records : list WalRecord
}.

#[global] Instance WalRecord_eq_dec : EqDecision WalRecord.
Proof. solve_decision. Defined.
#[global] Instance WalBatch_eq_dec : EqDecision WalBatch.
Proof. solve_decision. Defined.

Definition WAL_OP_PAGE_IMAGE : Z := 1.
Definition WAL_OP_PAGE_PUT : Z := 11.
Definition WAL_OP_PAGE_DEL : Z := 12.
Definition WAL_OP_TXN_PUT : Z := 21.
Definition WAL_OP_TXN_DEL : Z := 22.
Definition WAL_OP_TXN_COMMIT : Z := 23.

Definition MAX_WAL_FRAME_LEN : Z := 16 * 1024 * 1024.

Module WalCodec.

(** ** Encoding *)

Definition encode_record (record : WalRecord) : bytes :=
  le_bytes 8 (lsn record) ++ [op record] ++ le_bytes 8 (page_id record) ++ le_bytes 2 (slot_id record) ++
  le_bytes 4 (wrap32 (zlen (key record))) ++ le_bytes 4 (wrap32 (zlen (value record))) ++
  key record ++ value record.

Fixpoint encode_records (records : list WalRecord) : bytes :=
  match records with
  | [] => []
  | record :: records => encode_record record ++ encode_records records
  end.

Definition encode_body (batch : WalBatch) : bytes :=
  le_bytes 8 (request_id batch) ++ le_bytes 8 (start_lsn batch) ++ le_bytes 8 (end_lsn batch) ++
  le_bytes 4 (wrap32 (zlen (records batch))) ++ encode_records (records batch).

(** [u32::try_from(buf.len())] fails from 4 GiB on. *)
Definition encode_wal_batch (batch : WalBatch) (out : bytes) : outcome Error bytes :=
  let buf := encode_body batch in
  if zlen buf <? U32 then Ret (out ++ le_bytes 4 (zlen buf) ++ buf) else Fail (Io InvalidData).

Fixpoint records_len (records : list WalRecord) (len : Z) : Z :=
  match records with
  | [] => len
  | r :: records => records_len records (len + (8 + 1 + 8 + 2 + 4 + 4) + (zlen (key r) + zlen (value r)))
  end.

Definition wal_batch_encoded_len (batch : WalBatch) : Z :=
  records_len (records batch) (4 + 8 + 8 + 8 + 4).

(** ** Decoding *)

Abbreviation rd := (st Z Error) (only parsing).

(** [if *cursor + n > buf.len() { return Err(..) }], the copy and the advance. *)
Definition read_uint (n : nat) (buf : bytes) : rd Z := fun cursor =>
  if zlen buf <? cursor + Z.of_nat n then (Fail (Io UnexpectedEof), cursor) else
  match get_range buf cursor (cursor + Z.of_nat n) with
  | Ret bs => (Ret (le_val bs), cursor + Z.of_nat n)
  | Fail e => (Fail e, cursor)
  | Panic => (Panic, cursor)
  | Spin => (Spin, cursor)
  end.

Definition read_u64_from (buf : bytes) : rd Z := read_uint 8 buf.
Definition read_u32_from (buf : bytes) : rd Z := read_uint 4 buf.
Definition read_u16_from (buf : bytes) : rd Z := read_uint 2 buf.
Definition read_u8_from (buf : bytes) : rd Z := fun cursor =>
  if zlen buf <? cursor + 1 then (Fail (Io UnexpectedEof), cursor) else
  match get_at buf cursor with
  | Ret b => (Ret b, cursor + 1)
  | Fail e => (Fail e, cursor)
  | Panic => (Panic, cursor)
  | Spin => (Spin, cursor)
  end.

(** [buf[cursor..cursor + n].to_vec()] and the advance. *)
Definition take_slice (buf : bytes) (n : Z) : rd bytes := fun cursor =>
  (get_range buf cursor (cursor + n), cursor + n).

Definition read_record (buf : bytes) : rd WalRecord :=
  lsn ← read_u64_from buf;
  op ← read_u8_from buf;
  page_id ← read_u64_from buf;
  slot_id ← read_u16_from buf;
  key_len ← read_u32_from buf;
  val_len ← read_u32_from buf;
  cursor ← gets id;
  if zlen buf <? cursor + key_len + val_len then throw (Io InvalidData) else
  key ← take_slice buf key_len;
  value ← take_slice buf val_len;
  mret {| lsn := lsn; op := op; page_id := page_id; slot_id := slot_id; key := key; value := value |}.

(** [size_of::<WalRecord>()]: two vectors, two [u64], a [u16] and a [u8], on a 64-bit machine. *)
Definition WAL_RECORD_SIZE : Z := 72.

(** [for _ in 0..count]. *)
Fixpoint read_records (count : nat) (buf : bytes) : rd (list WalRecord) :=
  match count with
  | O => mret []
  | S count => r ← read_record buf; rs ← read_records count buf; mret (r :: rs)
  end.

Definition read_body {AL : Allocator} (buf : bytes) : rd WalBatch :=
  request_id ← read_u64_from buf;
  start_lsn ← read_u64_from buf;
  end_lsn ← read_u64_from buf;
  count ← read_u32_from buf;
  _ ← lift (with_capacity (zlen buf) count WAL_RECORD_SIZE);
  records ← read_records (Z.to_nat count) buf;
  mret {| request_id := request_id; start_lsn := start_lsn; end_lsn := end_lsn; records := records |}.

(** [File::read_exact]: at the end of the file what is left is consumed and the call
    fails with [UnexpectedEof]. *)
Definition read_exact (n : Z) : st bytes Error bytes := fun file =>
  if zlen file <? n then (Fail (Io UnexpectedEof), []) else
  (Ret (take (Z.to_nat n) file), drop (Z.to_nat n) file).

Definition read_wal_batch {AL : Allocator} : st bytes Error (option WalBatch) := fun file =>
  match read_exact 4 file with
  | (Fail (Io UnexpectedEof), file) => (Ret None, file)
  | (Fail e, file) => (Fail e, file)
  | (Panic, file) => (Panic, file)
  | (Spin, file) => (Spin, file)
  | (Ret len_buf, file) =>
      let total_len := le_val len_buf in
      if total_len =? 0 then (Fail (Io InvalidData), file) else
      if MAX_WAL_FRAME_LEN <? total_len then (Fail (Io InvalidData), file) else
      (buf ← read_exact total_len; lift (Some <$> (read_body buf 0).1)) file
  end.

End WalCodec.

(** ** The parser inverts the printer *)

Module WalCodecSpec.
Import WalCodec.

Record record_ok (r : WalRecord) : Prop := {
  ro_lsn : 0 <= lsn r < U64;
  ro_op : is_byte (op r);
  ro_page : 0 <= page_id r < U64;
  ro_slot : 0 <= slot_id r < U16;
  ro_key : zlen (key r) < U32;
  ro_value : zlen (value r) < U32
}.

Record batch_ok (b : WalBatch) : Prop := {
  bo_req : 0 <= request_id b < U64;
  bo_start : 0 <= start_lsn b < U64;
  bo_end : 0 <= end_lsn b < U64;
  bo_count : zlen (records b) < U32;
  bo_records : Forall record_ok (records b)
}.

(** The cursor [c] of a parser of [buf] stands in front of [rest]. *)
Definition before (buf : bytes) (c : Z) (rest : bytes) : Prop := exists pre, buf = pre ++ rest /\ c = zlen pre.

(** A reader that consumes exactly the encoding [bs] of [a]. *)
Definition reads {A} (m : rd A) (buf bs : bytes) (a : A) : Prop :=
  forall c rest, before buf c (bs ++ rest) -> m c = (Ret a, c + zlen bs) /\ before buf (c + zlen bs) rest.

Lemma reads_bind {A B} (m : rd A) (f : A -> rd B) buf bs bs' a b :
  reads m buf bs a -> reads (f a) buf bs' b -> reads (m ≫= f) buf (bs ++ bs') b.
Proof.
  intros Hm Hf c rest Hc. rewrite <-app_assoc in Hc. destruct (Hm c _ Hc) as [Hr Hc'].
  destruct (Hf _ _ Hc') as [Hr' Hc'']. rewrite (st_bind_ret _ _ _ _ _ Hr), Hr', zlen_app, Z.add_assoc. done.
Qed.

Lemma reads_ret {A} buf (a : A) : reads (mret a) buf [] a.
Proof. intros c rest Hc. rewrite zlen_nil, Z.add_0_r. done. Qed.

Lemma before_app buf c bs rest : before buf c (bs ++ rest) -> before buf (c + zlen bs) rest.
Proof. intros (pre & -> & ->). exists (pre ++ bs). by rewrite <-app_assoc, zlen_app. Qed.

Lemma before_range {E} buf c bs rest n :
  before buf c (bs ++ rest) -> n = zlen bs ->
  c + n <= zlen buf /\ get_range (E:=E) buf c (c + n) = Ret bs.
Proof.
  intros (pre & -> & ->) ->. pose proof (zlen_nonneg pre). pose proof (zlen_nonneg bs). pose proof (zlen_nonneg rest).
  rewrite !zlen_app. split; [lia|].
  rewrite get_range_ok by (rewrite ?zlen_app; lia). f_equal. rewrite Z.add_simpl_l, sub_app_r, Z.sub_diag by lia.
  rewrite sub_app_l by lia. by apply sub_all.
Qed.

Lemma reads_uint n buf v : 0 <= v < 256 ^ Z.of_nat n -> reads (read_uint n buf) buf (le_bytes n v) v.
Proof.
  intros Hv c rest Hc. pose proof (zlen_le_bytes n v) as Hl.
  destruct (before_range (E:=Error) buf c _ rest (Z.of_nat n) Hc (eq_sym Hl)) as [Hle Hr].
  unfold read_uint. destruct (Z.ltb_spec (zlen buf) (c + Z.of_nat n)); [lia|]. rewrite Hr, Hl, le_val_bytes_small by done.
  split; [done|]. rewrite <-Hl. by apply before_app.
Qed.

Lemma reads_u64 buf v : 0 <= v < U64 -> reads (read_u64_from buf) buf (le_bytes 8 v) v.
Proof. exact (reads_uint 8 buf v). Qed.
Lemma reads_u32 buf v : 0 <= v < U32 -> reads (read_u32_from buf) buf (le_bytes 4 v) v.
Proof. exact (reads_uint 4 buf v). Qed.
Lemma reads_u16 buf v : 0 <= v < U16 -> reads (read_u16_from buf) buf (le_bytes 2 v) v.
Proof. exact (reads_uint 2 buf v). Qed.

Lemma reads_byte buf v : reads (read_u8_from buf) buf [v] v.
Proof.
  intros c rest Hc. destruct (before_range (E:=Error) buf c [v] rest 1 Hc eq_refl) as [Hle _].
  unfold read_u8_from. destruct (Z.ltb_spec (zlen buf) (c + 1)); [lia|].
  destruct Hc as (pre & -> & ->). cbn [app] in *. unfold get_at. pose proof (zlen_nonneg pre).
  destruct (Z.leb_spec 0 (zlen pre)); [|lia]. unfold zlen. rewrite Nat2Z.id, list_lookup_middle by done.
  split; [done|]. apply (before_app (pre ++ v :: rest) (zlen pre) [v]). by exists pre.
Qed.

Lemma reads_slice buf bs : reads (take_slice buf (zlen bs)) buf bs bs.
Proof.
  intros c rest Hc. destruct (before_range (E:=Error) buf c bs rest _ Hc eq_refl) as [_ Hr].
  unfold take_slice. rewrite Hr. split; [done|by apply before_app].
Qed.

Lemma reads_record buf r : record_ok r -> reads (read_record buf) buf (encode_record r) r.
Proof.
  intros [Hl Ho Hp Hs Hk Hv]. unfold encode_record, read_record, wrap32.
  pose proof (zlen_nonneg (key r)). pose proof (zlen_nonneg (value r)). rewrite !Z.mod_small by lia.
  eapply reads_bind; [apply (reads_u64 buf (lsn r)); lia|].
  eapply reads_bind; [apply (reads_byte buf (op r))|].
  eapply reads_bind; [apply (reads_u64 buf (page_id r)); lia|].
  eapply reads_bind; [apply (reads_u16 buf (slot_id r)); lia|].
  eapply reads_bind; [apply (reads_u32 buf (zlen (key r))); lia|].
  eapply reads_bind; [apply (reads_u32 buf (zlen (value r))); lia|].
  intros c rest Hc. rewrite (st_bind_ret _ _ _ _ _ (eq_refl : gets id c = (Ret c, c))).
  destruct (before_range (E:=Error) buf c _ rest _ Hc eq_refl) as [Hle _]. rewrite zlen_app in Hle.
  destruct (Z.ltb_spec (zlen buf) (c + zlen (key r) + zlen (value r))); [lia|].
  cut (reads (key' ← take_slice buf (zlen (key r)); value' ← take_slice buf (zlen (value r));
    mret {| lsn := lsn r; op := op r; page_id := page_id r; slot_id := slot_id r; key := key'; value := value' |})
    buf (key r ++ value r ++ []) r); [rewrite app_nil_r; intros Hrd; exact (Hrd c rest Hc)|].
  eapply reads_bind; [apply reads_slice|]. eapply reads_bind; [apply reads_slice|]. destruct r. apply reads_ret.
Qed.

Lemma reads_records buf rs : Forall record_ok rs -> reads (read_records (length rs) buf) buf (encode_records rs) rs.
Proof.
  induction 1 as [|r rs Hr _ IH]; [apply reads_ret|]. cbn [length read_records encode_records].
  eapply reads_bind; [by apply reads_record|]. rewrite <-(app_nil_r (encode_records rs)).
  eapply reads_bind; [exact IH|]. apply reads_ret.
Qed.

Lemma reads_capacity {AL : Allocator} buf count size : fits (zlen buf) count size = true -> reads (lift (with_capacity (zlen buf) count size)) buf [] tt.
Proof. intros Hf c rest Hc. unfold lift, with_capacity. rewrite Hf, zlen_nil, Z.add_0_r. done. Qed.

Lemma zlen_encode_record r : zlen (encode_record r) = 27 + (zlen (key r) + zlen (value r)).
Proof. unfold encode_record. zlens. lia. Qed.

Lemma encode_records_count rs : 27 * zlen rs <= zlen (encode_records rs).
Proof.
  induction rs as [|r rs IH]; [done|]. cbn [encode_records]. rewrite zlen_cons, zlen_app, zlen_encode_record.
  pose proof (zlen_nonneg (key r)). pose proof (zlen_nonneg (value r)). lia.
Qed.

Lemma zlen_encode_body b : zlen (encode_body b) = 28 + zlen (encode_records (records b)).
Proof. unfold encode_body. zlens. lia. Qed.

Lemma read_body_encode {AL : Allocator} b : batch_ok b -> (read_body (encode_body b) 0).1 = Ret b.
Proof.
  intros [Hq Hs He Hc Hr]. set (buf := encode_body b).
  assert (Hreads : reads (read_body buf) buf (encode_body b) b).
  { unfold encode_body, read_body, wrap32. pose proof (zlen_nonneg (records b)). rewrite Z.mod_small by lia.
    eapply reads_bind; [apply (reads_u64 buf (request_id b)); lia|].
    eapply reads_bind; [apply (reads_u64 buf (start_lsn b)); lia|].
    eapply reads_bind; [apply (reads_u64 buf (end_lsn b)); lia|].
    eapply reads_bind; [apply (reads_u32 buf (zlen (records b))); lia|].
    pose proof (encode_records_count (records b)). pose proof (zlen_encode_body b) as Hl. fold buf in Hl.
    change (encode_records (records b)) with ([] ++ encode_records (records b)).
    eapply reads_bind; [apply reads_capacity, fits_scaled; unfold WAL_RECORD_SIZE, ISIZE_MAX, U32 in *; lia|].
    rewrite <-(app_nil_r (encode_records (records b))).
    eapply reads_bind; [unfold zlen; rewrite Nat2Z.id; by apply reads_records|].
    destruct b. apply reads_ret. }
  destruct (Hreads 0 []) as [-> _]; [|done]. exists []. by rewrite app_nil_r.
Qed.

Lemma records_len_encode rs : forall n, records_len rs n = n + zlen (encode_records rs).
Proof.
  induction rs as [|r rs IH]; intros n; cbn [records_len encode_records]; [rewrite zlen_nil; lia|].
  rewrite IH, zlen_app, zlen_encode_record. lia.
Qed.

Lemma encoded_len_frame b : wal_batch_encoded_len b = 4 + zlen (encode_body b).
Proof. unfold wal_batch_encoded_len. rewrite records_len_encode, zlen_encode_body. lia. Qed.

(** The frame of a batch. *)
Definition frame (b : WalBatch) : bytes := le_bytes 4 (zlen (encode_body b)) ++ encode_body b.

Lemma encode_frame b out :
  zlen (encode_body b) < U32 -> encode_wal_batch b out = Ret (out ++ frame b).
Proof. intros H. unfold encode_wal_batch. destruct (Z.ltb_spec (zlen (encode_body b)) U32); [done|lia]. Qed.

Lemma zlen_frame b : zlen (frame b) = wal_batch_encoded_len b.
Proof. unfold frame. rewrite encoded_len_frame. zlens. lia. Qed.

Lemma read_exact_app bs rest : read_exact (zlen bs) (bs ++ rest) = (Ret bs, rest).
Proof.
  unfold read_exact. rewrite zlen_app. pose proof (zlen_nonneg rest).
  destruct (Z.ltb_spec (zlen bs + zlen rest) (zlen bs)); [lia|]. unfold zlen. rewrite Nat2Z.id.
  by rewrite take_app_length, drop_app_length.
Qed.

Lemma read_frame {AL : Allocator} b rest :
  batch_ok b -> zlen (encode_body b) <= MAX_WAL_FRAME_LEN -> read_wal_batch (frame b ++ rest) = (Ret (Some b), rest).
Proof.
  intros Hok Hmax. unfold frame. rewrite <-app_assoc. unfold read_wal_batch.
  change 4 with (zlen (le_bytes 4 (zlen (encode_body b)))) at 1. rewrite read_exact_app.
  pose proof (zlen_encode_body b) as Hl. pose proof (zlen_nonneg (encode_records (records b))).
  rewrite le_val_u32 by (unfold U32, MAX_WAL_FRAME_LEN in *; lia).
  destruct (Z.eqb_spec (zlen (encode_body b)) 0); [lia|].
  destruct (Z.ltb_spec MAX_WAL_FRAME_LEN (zlen (encode_body b))); [lia|].
  rewrite (st_bind_ret _ _ _ _ _ (read_exact_app _ _)). unfold lift. by rewrite read_body_encode.
Qed.

End WalCodecSpec.

Module WalCodecProps.
Import WalCodec WalCodecSpec.

(** ** The parser is total *)

(** From a cursor that is not negative a reader returns or fails, and moves forward; a
    reader of integers returns one that is not negative. *)
Definition total {A} (Q : A -> Prop) (m : rd A) : Prop := forall c, 0 <= c ->
  match m c with
  | (Ret a, c') => c <= c' /\ Q a
  | (Fail e, _) => e = Io UnexpectedEof \/ e = Io InvalidData
  | _ => False
  end.

Lemma total_bind {A B} (Q : A -> Prop) (R : B -> Prop) (m : rd A) (f : A -> rd B) :
  total Q m -> (forall a, Q a -> total R (f a)) -> total R (m ≫= f).
Proof.
  intros Hm Hf c Hc. specialize (Hm c Hc). unfold mbind, st_bind.
  destruct (m c) as [[a|e| |] c']; try done. destruct Hm as [Hcc Ha]. specialize (Hf a Ha c' ltac:(lia)).
  destruct (f a c') as [[b|e| |] c'']; try done. destruct Hf. split; [lia|done].
Qed.

Lemma total_uint n buf : wf_bytes buf -> total (fun v => 0 <= v) (read_uint n buf).
Proof.
  intros Hwf c Hc. unfold read_uint. destruct (Z.ltb_spec (zlen buf) (c + Z.of_nat n)); [by left|].
  rewrite get_range_ok by lia. split; [lia|]. apply le_val_bound, wf_sub, Hwf.
Qed.

Lemma total_byte buf : total (fun _ => True) (read_u8_from buf).
Proof.
  intros c Hc. unfold read_u8_from. destruct (Z.ltb_spec (zlen buf) (c + 1)); [by left|].
  unfold get_at. destruct (Z.leb_spec 0 c); [|lia].
  destruct (lookup_lt_is_Some_2 buf (Z.to_nat c)) as [x ->]; [unfold zlen in *; lia|]. split; [lia|done].
Qed.

Lemma total_record buf : wf_bytes buf -> total (fun _ => True) (read_record buf).
Proof.
  intros Hwf. unfold read_record. eapply total_bind; [by apply total_uint|]. intros l _.
  eapply total_bind; [apply total_byte|]. intros o _. eapply total_bind; [by apply total_uint|]. intros p _.
  eapply total_bind; [by apply total_uint|]. intros s _. eapply total_bind; [by apply total_uint|]. intros kl Hk.
  eapply total_bind; [by apply total_uint|]. intros vl Hv c Hc. cbv beta in Hk, Hv.
  rewrite (st_bind_ret _ _ _ _ _ (eq_refl : gets id c = (Ret c, c))).
  destruct (Z.ltb_spec (zlen buf) (c + kl + vl)); [by right|]. unfold mbind, st_bind, take_slice.
  rewrite !get_range_ok by lia. split; [lia|done].
Qed.

Lemma total_records n buf : wf_bytes buf -> total (fun _ => True) (read_records n buf).
Proof.
  intros Hwf. induction n as [|n IH]; cbn [read_records]; [intros c Hc; split; [lia|done]|].
  eapply total_bind; [by apply total_record|]. intros r _. eapply total_bind; [exact IH|]. intros rs _ c Hc.
  split; [lia|done].
Qed.

(** The fields of the body: 24 bytes, then the number of records. *)
Definition announced (buf : bytes) : Z := fld 4 24 buf.

Lemma bind_uint {A} n buf (k : Z -> rd A) c :
  0 <= c -> ((read_uint n buf ≫= k) c).1 =
    if zlen buf <? c + Z.of_nat n then Fail (Io UnexpectedEof) else (k (fld n c buf) (c + Z.of_nat n)).1.
Proof.
  intros Hc. unfold mbind, st_bind, read_uint. destruct (Z.ltb_spec (zlen buf) (c + Z.of_nat n)); [done|].
  rewrite get_range_ok by lia. unfold fld. by replace (c + Z.of_nat n - c) with (Z.of_nat n) by lia.
Qed.

(** A parser of a body returns or fails with one of two errors; it stops only when the
    allocator refuses the records that are announced. *)
Lemma read_body_total {AL : Allocator} buf :
  wf_bytes buf ->
  match (read_body buf 0).1 with
  | Ret _ => 28 <= zlen buf
  | Fail e => e = Io UnexpectedEof \/ e = Io InvalidData
  | Panic => 28 <= zlen buf /\ fits (zlen buf) (announced buf) WAL_RECORD_SIZE = false
  | Spin => False
  end.
Proof.
  intros Hwf. unfold read_body, read_u64_from, read_u32_from. 
  rewrite (bind_uint 8 buf _ 0), (bind_uint 8 buf _ 8), (bind_uint 8 buf _ 16), (bind_uint 4 buf _ 24) by done.
  do 3 (destruct (zlen buf <? _); [by left|]). destruct (Z.ltb_spec (zlen buf) (24 + Z.of_nat 4)); [by left|].
  change (24 + Z.of_nat 4) with 28. change (fld 4 24 buf) with (announced buf).
  unfold with_capacity, lift, mbind, st_bind. destruct (fits _ _ _) eqn:Hf; [|split; [lia|done]].
  pose proof (total_records (Z.to_nat (announced buf)) buf Hwf 28 ltac:(lia)) as Ht.
  destruct (read_records _ _ _) as [[rs|e| |] c]; [cbn; lia|exact Ht|done|done].
Qed.

Lemma read_exact_short n file : zlen file < n -> read_exact n file = (Fail (Io UnexpectedEof), []).
Proof. intros H. unfold read_exact. destruct (Z.ltb_spec (zlen file) n); [done|lia]. Qed.

(** ** Properties *)

#[local] Existing Instance machine.

Definition sample_record (n : Z) : WalRecord :=
  {| lsn := n; op := WAL_OP_TXN_PUT; page_id := 7; slot_id := 2; key := [1; 2; 3]; value := [9; n] |}.
Definition sample_batch : WalBatch :=
  {| request_id := 5; start_lsn := 1; end_lsn := 3; records := [sample_record 1; sample_record 2] |}.

Lemma sample_batch_ok : batch_ok sample_batch.
Proof.
  assert (Hr : forall n, 0 <= n < 256 -> record_ok (sample_record n)).
  { intros n Hn. split; cbn; unfold U64, U32, U16, is_byte, WAL_OP_TXN_PUT, zlen; cbn; lia. }
  split; try (cbn; unfold U64, U32, zlen; cbn; lia).
  repeat (apply Forall_cons; split; [apply Hr; lia|]). by apply Forall_nil.
Qed.

(** C16: A batch of well-formed records whose body fits a frame is written as one frame of
    the length [wal_batch_encoded_len] announces, after what the buffer holds already, and
    reading a file that starts with that frame gives the batch back and leaves the file
    exactly behind the frame. *)
Theorem wal_batch_roundtrip {AL : Allocator} b out rest :
  batch_ok b -> zlen (encode_body b) <= MAX_WAL_FRAME_LEN ->
  exists f, encode_wal_batch b out = Ret (out ++ f) /\ zlen f = wal_batch_encoded_len b /\
    read_wal_batch (f ++ rest) = (Ret (Some b), rest).
Proof.
  intros Hok Hmax. exists (frame b). split; [apply encode_frame; unfold MAX_WAL_FRAME_LEN, U32 in *; lia|].
  split; [apply zlen_frame|by apply read_frame].
Qed.

Lemma wal_batch_roundtrip_witness : exists f,
  encode_wal_batch sample_batch [0; 0] = Ret ([0; 0] ++ f) /\ zlen f = wal_batch_encoded_len sample_batch /\
  read_wal_batch (f ++ [1; 2; 3]) = (Ret (Some sample_batch), [1; 2; 3]).
Proof.
  exact (wal_batch_roundtrip sample_batch [0; 0] [1; 2; 3] sample_batch_ok ltac:(vm_compute; discriminate)).
Defined.

(** What a crash in the middle of a write leaves is not treated uniformly: a file that
    ends inside the length of a frame reads as the end of the log, but one that ends inside
    the body makes the reader fail with [UnexpectedEof]. *)
Theorem torn_frame_read {AL : Allocator} b n :
  0 <= n < zlen (frame b) -> zlen (encode_body b) <= MAX_WAL_FRAME_LEN ->
  (read_wal_batch (take (Z.to_nat n) (frame b))).1 =
    if n <? 4 then Ret None else Fail (Io UnexpectedEof).
Proof.
  intros Hn Hmax. pose proof (zlen_frame b) as Hf. rewrite encoded_len_frame in Hf.
  pose proof (zlen_encode_body b). pose proof (zlen_nonneg (encode_records (records b))).
  unfold read_wal_batch. destruct (Z.ltb_spec n 4) as [Hlt|Hge].
  - rewrite read_exact_short; [done|]. unfold zlen in *. rewrite length_take. lia.
  - unfold frame. rewrite take_app, (take_ge (le_bytes 4 _)) by (pose proof (zlen_le_bytes 4 (zlen (encode_body b))); unfold zlen in *; lia).
    change 4 with (zlen (le_bytes 4 (zlen (encode_body b)))) at 1. rewrite read_exact_app.
    rewrite le_val_u32 by (unfold U32, MAX_WAL_FRAME_LEN in *; lia).
    destruct (Z.eqb_spec (zlen (encode_body b)) 0); [lia|].
    destruct (Z.ltb_spec MAX_WAL_FRAME_LEN (zlen (encode_body b))); [lia|].
    unfold mbind, st_bind. rewrite read_exact_short; [done|].
    pose proof (zlen_le_bytes 4 (zlen (encode_body b))). unfold zlen in *. rewrite length_take. lia.
Qed.

Lemma torn_frame_read_witness : (read_wal_batch (take (Z.to_nat 20) (frame sample_batch))).1 = Fail (Io UnexpectedEof).
Proof.
  exact (torn_frame_read sample_batch 20 ltac:(vm_compute; split; [discriminate|reflexivity]) ltac:(vm_compute; discriminate)).
Defined.

(** The writer accepts batches the reader refuses: any body between 16 MiB and 4 GiB is
    encoded without error, and the frame then fails to read with [InvalidData]. *)
Theorem oversized_frame_unreadable {AL : Allocator} b out rest :
  MAX_WAL_FRAME_LEN < zlen (encode_body b) < U32 ->
  exists f, encode_wal_batch b out = Ret (out ++ f) /\ (read_wal_batch (f ++ rest)).1 = Fail (Io InvalidData).
Proof.
  intros Hb. exists (frame b). split; [apply encode_frame; lia|]. unfold frame. rewrite <-app_assoc. unfold read_wal_batch.
  change 4 with (zlen (le_bytes 4 (zlen (encode_body b)))) at 1. rewrite read_exact_app.
  pose proof (zlen_nonneg (encode_body b)). rewrite le_val_u32 by lia.
  destruct (Z.eqb_spec (zlen (encode_body b)) 0); [unfold MAX_WAL_FRAME_LEN in *; lia|].
  destruct (Z.ltb_spec MAX_WAL_FRAME_LEN (zlen (encode_body b))); [done|lia].
Qed.

Definition huge_batch : WalBatch := {| request_id := 5; start_lsn := 1; end_lsn := 2; records :=
  [{| lsn := 1; op := WAL_OP_TXN_PUT; page_id := 0; slot_id := 0; key := []; value := zrepeat 0 MAX_WAL_FRAME_LEN |}] |}.

Lemma huge_batch_len : zlen (encode_body huge_batch) = 55 + MAX_WAL_FRAME_LEN.
Proof.
  rewrite zlen_encode_body. cbn [huge_batch records encode_records].
  rewrite app_nil_r, zlen_encode_record. cbn [key value]. rewrite zlen_nil, zlen_zrepeat by done. lia.
Qed.

Lemma oversized_frame_unreadable_witness : exists f,
  encode_wal_batch huge_batch [] = Ret ([] ++ f) /\ (read_wal_batch (f ++ [])).1 = Fail (Io InvalidData).
Proof.
  apply (oversized_frame_unreadable huge_batch [] []). rewrite huge_batch_len. unfold MAX_WAL_FRAME_LEN, U32. lia.
Defined.

(** C17: Reading arbitrary bytes.  On any file [read_wal_batch] returns: the end of the log
    exactly when fewer than four bytes are left, an error of one of two kinds, or a batch, and
    then the file stands behind the frame, whose length was announced and checked.  It stops
    the process in one case only, a complete frame whose announced number of records is more
    than the allocator grants; no index or slice is out of range. *)
Theorem read_wal_batch_total {AL : Allocator} file :
  wf_bytes file ->
  let total := le_val (take 4 file) in
  let body := sub 4 total file in
  match read_wal_batch file with
  | (Ret None, _) => zlen file < 4
  | (Ret (Some _), rest) => 28 <= total <= MAX_WAL_FRAME_LEN /\ file = take 4 file ++ body ++ rest /\ zlen body = total
  | (Fail e, _) => 4 <= zlen file /\ (e = Io UnexpectedEof \/ e = Io InvalidData)
  | (Panic, _) => total <= MAX_WAL_FRAME_LEN /\ 4 + total <= zlen file /\ fits total (announced body) WAL_RECORD_SIZE = false
  | (Spin, _) => False
  end.
Proof.
  intros Hwf total body. unfold read_wal_batch, read_exact. destruct (Z.ltb_spec (zlen file) 4) as [Hs|Hs]; [exact Hs|].
  change (Z.to_nat 4) with 4%nat. fold total. destruct (total =? 0); [split; [exact Hs|by right]|].
  destruct (Z.ltb_spec MAX_WAL_FRAME_LEN total) as [Hm|Hm]; [split; [exact Hs|by right]|]. unfold mbind, st_bind.
  destruct (Z.ltb_spec (zlen (drop 4 file)) total) as [Hd|Hd]; [split; [exact Hs|by left]|]. unfold lift.
  assert (Ht : 0 <= total) by (apply le_val_bound, Forall_take, Hwf).
  assert (Hb : take (Z.to_nat total) (drop 4 file) = body) by reflexivity.
  assert (Hlen : zlen body = total). { rewrite <-Hb. unfold zlen in *. rewrite length_take. lia. }
  rewrite Hb. pose proof (read_body_total body ltac:(rewrite <-Hb; by apply Forall_take, Forall_drop)) as Hr.
  destruct (read_body body 0) as [[r|e| |] c]; cbn [fst fmap outcome_fmap] in Hr |- *.
  - rewrite Hlen in Hr. split; [lia|]. split; [|exact Hlen]. by rewrite <-Hb, take_drop, take_drop.
  - split; [exact Hs|exact Hr].
  - rewrite Hlen in Hr. destruct Hr. split; [exact Hm|]. split; [|done]. unfold zlen in *. rewrite length_drop in Hd. lia.
  - done.
Qed.

(** A body of 28 bytes that announces as many records as a [u32] can. *)
Definition corrupt_count : bytes := le_bytes 4 28 ++ zrepeat 0 24 ++ le_bytes 4 (U32 - 1).

Lemma read_wal_batch_total_witness :
  read_wal_batch corrupt_count = (Panic, []) /\ fits 28 (announced (sub 4 28 corrupt_count)) WAL_RECORD_SIZE = false.
Proof.
  assert (Hp : read_wal_batch corrupt_count = (Panic, [])) by (vm_compute; reflexivity). split; [exact Hp|].
  assert (Hwf : wf_bytes corrupt_count).
  { apply Forall_app. split; [apply wf_le_bytes|]. apply Forall_app. split; [by apply wf_zrepeat|apply wf_le_bytes]. }
  pose proof (read_wal_batch_total corrupt_count Hwf) as Ht. cbv zeta in Ht. rewrite Hp in Ht. apply Ht.
Defined.

End WalCodecProps.
