(* ===== verification/Mvcc.v ===== *)
(** * Mvcc: the version store of a storage node (src/src/node_mvcc.rs) and the registry of
      active reads that bounds its garbage collection (src/src/active_reads.rs)

    The store maps a key to the versions committed under it, in commit order.  The theorems
    show that reads at an LSN see the prefix of the log up to it, and that garbage
    collection below the watermark the node computes does not change what any registered
    reader sees. *)

From stdpp Require Import base numbers list list_numbers gmap fin_maps sorting.
From S2P Require Import Prelude Common WalCodec.

Record MvccVersion := {
  commit_lsn : Z;
  version_value : option bytes
}.

Abbreviation mvcc_store := (gmap (list Z) (list MvccVersion)) (only parsing).

Module Mvcc.

(** [store.entry(key).or_default().push(v)]. *)
Definition push_version (k : bytes) (v : MvccVersion) (store : mvcc_store) : mvcc_store :=
  <[k := default [] (store !! k) ++ [v]]> store.

Definition apply_record (commit : Z) (store : mvcc_store) (record : WalRecord) : mvcc_store :=
  if op record =? WAL_OP_TXN_PUT then
    push_version (key record) {| commit_lsn := commit; version_value := Some (value record) |} store
  else if op record =? WAL_OP_TXN_DEL then
    push_version (key record) {| commit_lsn := commit; version_value := None |} store
  else store.

Definition apply_txn_batch_to_mvcc (mvcc : mvcc_store) (batch : WalBatch) : mvcc_store :=
  match last (records batch) with
  | None => mvcc
  | Some lst =>
      if negb (op lst =? WAL_OP_TXN_COMMIT) then mvcc
      else foldl (apply_record (end_lsn batch)) mvcc (records batch)
  end.

(** [versions.iter().rfind(|v| v.commit_lsn <= read_lsn)]. *)
Fixpoint rfind (versions : list MvccVersion) (read_lsn : Z) : option MvccVersion :=
  match versions with
  | [] => None
  | v :: versions =>
      match rfind versions read_lsn with
      | Some w => Some w
      | None => if commit_lsn v <=? read_lsn then Some v else None
      end
  end.

Definition mvcc_get_at (mvcc : mvcc_store) (k : bytes) (read_lsn : Z) : option (option bytes) :=
  versions ← mvcc !! k;
  version_value <$> rfind versions read_lsn.

(** The loop over [versions.iter().enumerate()] that stops at the first version past the
    watermark. *)
Fixpoint last_visible (versions : list MvccVersion) (idx : nat) (watermark : Z) (acc : option nat) : option nat :=
  match versions with
  | [] => acc
  | v :: versions =>
      if commit_lsn v <=? watermark then last_visible versions (S idx) watermark (Some idx) else acc
  end.

(** What is drained from the versions of one key. *)
Definition gc_versions (watermark : Z) (versions : list MvccVersion) : nat :=
  if bool_decide (length versions <= 1)%nat then 0%nat else
  default 0%nat (last_visible versions 0 watermark None).

Definition gc_mvcc_versions (store : mvcc_store) (watermark : Z) : mvcc_store * (Z * Z) :=
  let drained := gc_versions watermark <$> store in
  ((fun versions => drop (gc_versions watermark versions) versions) <$> store,
   (map_fold (fun _ idx n => if (0 <? idx)%nat then n + 1 else n) 0 drained,
    map_fold (fun _ idx n => n + Z.of_nat idx) 0 drained)).

End Mvcc.

(** ** Active reads *)

Record ActiveReads := {
  ar_next_id : Z;
  ar_map : gmap Z Z
}.

Module ActiveReadsM.

Definition new : ActiveReads := {| ar_next_id := 1; ar_map := ∅ |}.

(** [register] returns the guard, which is its id. *)
Definition register (read_lsn : Z) (ar : ActiveReads) : Z * ActiveReads :=
  let id := ar_next_id ar in
  (id, {| ar_next_id := wrap64 (id + 1); ar_map := <[id := read_lsn]> (ar_map ar) |}).

Definition unregister (id : Z) (ar : ActiveReads) : ActiveReads :=
  {| ar_next_id := ar_next_id ar; ar_map := delete id (ar_map ar) |}.

(** [Drop for ReadGuard]. *)
Definition drop_guard (id : Z) (ar : ActiveReads) : ActiveReads := unregister id ar.

Definition contains (id : Z) (ar : ActiveReads) : bool := bool_decide (is_Some (ar_map ar !! id)).

Definition abort (id : Z) (ar : ActiveReads) : bool * ActiveReads :=
  (bool_decide (is_Some (ar_map ar !! id)), {| ar_next_id := ar_next_id ar; ar_map := delete id (ar_map ar) |}).

(** The keys of a [BTreeMap] come out in ascending order. *)
Definition list_active (ar : ActiveReads) : list Z := merge_sort Z.le (map_to_list (ar_map ar)).*1.

Definition opt_min (a : option Z) (b : Z) : option Z :=
  match a with Some a => Some (Z.min a b) | None => Some b end.

Definition min_read_lsn (ar : ActiveReads) : option Z := map_fold (fun _ l acc => opt_min acc l) None (ar_map ar).

Definition active_len (ar : ActiveReads) : Z := Z.of_nat (size (ar_map ar)).
Definition is_empty (ar : ActiveReads) : bool := bool_decide (ar_map ar = ∅).

End ActiveReadsM.

(** [active_reads.min_read_lsn().unwrap_or(durable).min(durable)]. *)
Definition gc_watermark (ar : ActiveReads) (durable : Z) : Z :=
  Z.min (default durable (ActiveReadsM.min_read_lsn ar)) durable.

(** ** Specification: the log as a sequence of states *)

Module MvccSpec.
Import Mvcc ActiveReadsM.

Definition committed (b : WalBatch) : bool :=
  match last (records b) with Some lst => op lst =? WAL_OP_TXN_COMMIT | None => false end.

Abbreviation snap := (gmap (list Z) (option (list Z))) (only parsing).

(** The effect of one record on the current state; [None] under a key is a deletion. *)
Definition effect (m : snap) (r : WalRecord) : snap :=
  if op r =? WAL_OP_TXN_PUT then <[key r := Some (value r)]> m
  else if op r =? WAL_OP_TXN_DEL then <[key r := None]> m
  else m.

(** The state after the committed batches of the log up to [read_lsn]. *)
Definition snapshot (log : list WalBatch) (read_lsn : Z) : snap :=
  foldl (fun m b => if committed b && (end_lsn b <=? read_lsn) then foldl effect m (records b) else m) ∅ log.

Lemma rfind_app vs ws r :
  rfind (vs ++ ws) r = match rfind ws r with Some w => Some w | None => rfind vs r end.
Proof.
  induction vs as [|v vs IH]; cbn; [by destruct (rfind ws r)|]. rewrite IH.
  by destruct (rfind ws r).
Qed.

(** The store and a state agree on the reads at [r]. *)
Definition agree (r : Z) (store : mvcc_store) (m : snap) : Prop := forall k, mvcc_get_at store k r = m !! k.

Lemma get_at_push store k v k' r :
  mvcc_get_at (push_version k v store) k' r =
    if bool_decide (k = k' /\ commit_lsn v <= r) then Some (version_value v) else mvcc_get_at store k' r.
Proof.
  unfold mvcc_get_at, push_version. destruct (decide (k = k')) as [<-|Hne].
  - rewrite lookup_insert_eq. cbn [mbind option_bind]. rewrite rfind_app. cbn [rfind].
    destruct (Z.leb_spec (commit_lsn v) r).
    + by rewrite bool_decide_eq_true_2.
    + rewrite bool_decide_eq_false_2 by lia. by destruct (store !! k).
  - rewrite lookup_insert_ne by done. by rewrite bool_decide_eq_false_2 by naive_solver.
Qed.

Lemma agree_record c r store m rec :
  agree r store m -> agree r (apply_record c store rec) (if c <=? r then effect m rec else m).
Proof.
  intros Ha k. unfold apply_record, effect.
  destruct (op rec =? WAL_OP_TXN_PUT); [|destruct (op rec =? WAL_OP_TXN_DEL); [|case_match; apply Ha]];
    rewrite get_at_push; cbn [commit_lsn version_value]; (destruct (Z.leb_spec c r);
      [destruct (decide (key rec = k)) as [<-|];
        [by rewrite bool_decide_eq_true_2, lookup_insert_eq
        |rewrite bool_decide_eq_false_2, lookup_insert_ne by naive_solver; apply Ha]
      |rewrite bool_decide_eq_false_2 by lia; apply Ha]).
Qed.

Lemma agree_records c r rs : forall store m, agree r store m ->
  agree r (foldl (apply_record c) store rs) (if c <=? r then foldl effect m rs else m).
Proof.
  induction rs as [|rec rs IH]; intros store m Ha; cbn; [by case_match|].
  pose proof (IH _ _ (agree_record c r store m rec Ha)) as H. by destruct (c <=? r).
Qed.

Lemma agree_batch r store m b : agree r store m ->
  agree r (apply_txn_batch_to_mvcc store b)
    (if committed b && (end_lsn b <=? r) then foldl effect m (records b) else m).
Proof.
  intros Ha. unfold apply_txn_batch_to_mvcc, committed. destruct (last (records b)) as [lst|]; [|done].
  destruct (op lst =? WAL_OP_TXN_COMMIT); cbn [negb andb]; [by apply agree_records|done].
Qed.

Lemma agree_log r log : forall store m, agree r store m ->
  agree r (foldl apply_txn_batch_to_mvcc store log)
    (foldl (fun m b => if committed b && (end_lsn b <=? r) then foldl effect m (records b) else m) m log).
Proof. induction log as [|b log IH]; intros store m Ha; cbn; [done|]. by apply IH, agree_batch. Qed.

(** ** Garbage collection *)

Lemma last_visible_spec vs w : forall idx acc i,
  last_visible vs idx w acc = Some i ->
  acc = Some i \/ ((idx <= i)%nat /\ exists v, vs !! (i - idx)%nat = Some v /\ commit_lsn v <= w).
Proof.
  induction vs as [|v vs IH]; intros idx acc i; cbn; [by left|].
  destruct (Z.leb_spec (commit_lsn v) w); [|by left]. intros [Hi|(Hi & x & Hx & Hc)]%IH; right.
  - injection Hi as <-. split; [lia|]. exists v. by rewrite Nat.sub_diag.
  - split; [lia|]. exists x. by replace (i - idx)%nat with (S (i - S idx)) by lia.
Qed.

(** Dropping versions before one that is visible at [r] does not change a read at [r]. *)
Lemma rfind_drop vs n r :
  n = 0%nat \/ (exists v, vs !! n = Some v /\ commit_lsn v <= r) -> rfind (drop n vs) r = rfind vs r.
Proof.
  intros [->|(v & Hv & Hc)]; [done|]. rewrite <-(take_drop n vs) at 2. rewrite rfind_app, (drop_S _ _ _ Hv).
  cbn [rfind]. destruct (rfind (drop (S n) vs) r); [done|]. destruct (Z.leb_spec (commit_lsn v) r); [done|lia].
Qed.

Lemma gc_versions_visible w vs :
  gc_versions w vs = 0%nat \/ exists v, vs !! gc_versions w vs = Some v /\ commit_lsn v <= w.
Proof.
  unfold gc_versions. case_bool_decide; [by left|].
  destruct (last_visible vs 0 w None) as [i|] eqn:E; [|by left].
  apply last_visible_spec in E as [?|(_ & v & Hv & Hc)]; [done|]. right. exists v. by rewrite Nat.sub_0_r in Hv.
Qed.

Lemma gc_get_at store w k r : w <= r -> mvcc_get_at (gc_mvcc_versions store w).1 k r = mvcc_get_at store k r.
Proof.
  intros Hr. unfold mvcc_get_at. cbn [gc_mvcc_versions fst]. rewrite lookup_fmap.
  destruct (store !! k) as [vs|]; [|done]. cbn. rewrite rfind_drop; [done|].
  destruct (gc_versions_visible w vs) as [->|(v & Hv & Hc)]; [by left|right]. exists v. split; [done|lia].
Qed.

(** In commit order, the loop finds the last version at or below the watermark. *)
Lemma last_visible_max vs w : forall idx acc,
  StronglySorted Z.le (commit_lsn <$> vs) ->
  forall j v, vs !! j = Some v -> commit_lsn v <= w -> exists i, last_visible vs idx w acc = Some i /\ (idx + j <= i)%nat.
Proof.
  induction vs as [|x vs IH]; intros idx acc Hs j v Hj Hv; [done|]. cbn in *.
  apply StronglySorted_inv in Hs as [Hs Hx]. destruct (Z.leb_spec (commit_lsn x) w) as [Hle|Hgt].
  - destruct j as [|j].
    + destruct vs as [|y vs]; [exists idx; split; [done|lia]|].
      destruct (decide (commit_lsn y <= w)) as [Hy|Hy].
      * destruct (IH (S idx) (Some idx) Hs 0%nat y eq_refl Hy) as (i & Hi & Hle'). exists i. split; [done|lia].
      * exists idx. split; [|lia]. cbn. destruct (Z.leb_spec (commit_lsn y) w); [lia|done].
    + destruct (IH (S idx) (Some idx) Hs j v Hj Hv) as (i & Hi & Hle'). exists i. split; [done|lia].
  - exfalso. destruct j as [|j]; [cbn in Hj; simplify_eq; lia|].
    rewrite Forall_forall in Hx. assert (commit_lsn x <= commit_lsn v); [|lia].
    apply Hx, list_elem_of_fmap_2. by eapply list_elem_of_lookup_2.
Qed.

Lemma gc_versions_max w vs j v :
  StronglySorted Z.le (commit_lsn <$> vs) -> vs !! j = Some v -> commit_lsn v <= w ->
  (j <= gc_versions w vs)%nat.
Proof.
  intros Hs Hj Hv. unfold gc_versions. pose proof (lookup_lt_Some _ _ _ Hj). case_bool_decide; [lia|].
  destruct (last_visible_max vs w 0 None Hs j v Hj Hv) as (i & -> & Hi). cbn. lia.
Qed.

(** ** The watermark *)

Lemma min_read_lsn_spec ar :
  match min_read_lsn ar with
  | None => ar_map ar = ∅
  | Some m => (exists id, ar_map ar !! id = Some m) /\ forall id l, ar_map ar !! id = Some l -> m <= l
  end.
Proof.
  unfold min_read_lsn. apply (map_fold_weak_ind (fun acc m => match acc with
    | None => m = ∅
    | Some x => (exists id, m !! id = Some x) /\ forall id l, m !! id = Some l -> x <= l end)); [done|].
  intros i x m acc Hi Hacc. destruct acc as [a|]; cbn.
  - destruct Hacc as [(id & Hid) Hlb]. split.
    + destruct (Z.min_spec a x) as [[_ ->]|[_ ->]]; [exists id; rewrite lookup_insert_ne by naive_solver; done|].
      exists i. apply lookup_insert_eq.
    + intros j l. destruct (decide (i = j)) as [<-|]; [rewrite lookup_insert_eq; intros [= <-]; lia|].
      rewrite lookup_insert_ne by done. intros Hl%Hlb. lia.
  - subst m. split; [exists i; apply lookup_insert_eq|]. intros j l.
    destruct (decide (i = j)) as [<-|]; [rewrite lookup_insert_eq; intros [= <-]; lia|].
    by rewrite lookup_insert_ne.
Qed.

Lemma watermark_below ar durable id l : ar_map ar !! id = Some l -> gc_watermark ar durable <= l.
Proof.
  intros Hl. unfold gc_watermark. pose proof (min_read_lsn_spec ar) as Hm. destruct (min_read_lsn ar) as [m|]; cbn.
  - destruct Hm as [_ Hm]. apply Hm in Hl. lia.
  - by rewrite Hm in Hl.
Qed.

End MvccSpec.

(** ** Histories of the registry *)

Module ActiveReadsSpec.
Import ActiveReadsM.

Inductive ar_op :=
| OpRegister (read_lsn : Z)
| OpDrop (id : Z)
| OpAbort (id : Z).

Definition ar_apply (ar : ActiveReads) (o : ar_op) : ActiveReads :=
  match o with
  | OpRegister l => (register l ar).2
  | OpDrop id => drop_guard id ar
  | OpAbort id => (abort id ar).2
  end.

(** The operation ends the registration [id]. *)
Definition ends (id : Z) (o : ar_op) : bool :=
  match o with OpRegister _ => false | OpDrop i | OpAbort i => i =? id end.

(** Ids in use lie below the next one. *)
Definition ids_below (ar : ActiveReads) : Prop :=
  0 <= ar_next_id ar /\ forall id, is_Some (ar_map ar !! id) -> id < ar_next_id ar.

Lemma ar_apply_ids ar o :
  ids_below ar -> ar_next_id ar + 1 < U64 ->
  ids_below (ar_apply ar o) /\ ar_next_id ar <= ar_next_id (ar_apply ar o) <= ar_next_id ar + 1.
Proof.
  intros [H0 Hi] Hn. destruct o as [l|i|i]; cbn.
  - unfold wrap64. rewrite Z.mod_small by lia. split; [|lia]. split; cbn; [lia|]. intros id [x Hx].
    destruct (decide (ar_next_id ar = id)) as [<-|]; [lia|]. rewrite lookup_insert_ne in Hx by done.
    assert (id < ar_next_id ar) by (apply Hi; by exists x). lia.
  - split; [|lia]. split; [done|]. cbn. intros id [x [_ Hx]%lookup_delete_Some]. apply Hi. by exists x.
  - split; [|lia]. split; [done|]. cbn. intros id [x [_ Hx]%lookup_delete_Some]. apply Hi. by exists x.
Qed.

(** A registration survives every operation that does not end it. *)
Lemma ar_keeps os : forall ar id l,
  ids_below ar -> ar_next_id ar + zlen os < U64 -> ar_map ar !! id = Some l ->
  forallb (fun o => negb (ends id o)) os = true -> ar_map (foldl ar_apply ar os) !! id = Some l.
Proof.
  induction os as [|o os IH]; intros ar id l Hids Hn Hl He; [done|]. cbn [forallb] in He.
  apply andb_true_iff in He as [Ho He]. rewrite zlen_cons in Hn. pose proof (zlen_nonneg os).
  destruct (ar_apply_ids ar o Hids ltac:(lia)) as [Hids' Hnext]. cbn [foldl]. apply IH; [done|lia| |done].
  destruct o as [r|i|i]; cbn in *.
  - rewrite lookup_insert_ne; [done|]. intros <-. destruct Hids as [_ Hids].
    specialize (Hids (ar_next_id ar) ltac:(by exists l)). lia.
  - rewrite lookup_delete_ne; [done|]. intros ->. by rewrite Z.eqb_refl in Ho.
  - rewrite lookup_delete_ne; [done|]. intros ->. by rewrite Z.eqb_refl in Ho.
Qed.

End ActiveReadsSpec.

Module MvccProps.
Import Mvcc ActiveReadsM MvccSpec ActiveReadsSpec.

(** C13: Snapshot reads: after any log of batches, reading a key at an LSN returns what the
    committed batches up to that LSN left under it (a value, a deletion or nothing);
    batches without a commit marker and later batches are invisible. *)
Theorem mvcc_read_is_log_prefix log k read_lsn :
  mvcc_get_at (foldl apply_txn_batch_to_mvcc ∅ log) k read_lsn = snapshot log read_lsn !! k.
Proof. apply agree_log. intros k'. unfold mvcc_get_at. by rewrite !lookup_empty. Qed.

(** C18: Garbage collection never changes what a registered reader sees: with the watermark
    the node computes from the registry and the durable LSN, every read at the LSN of an
    active registration, and every read at the durable LSN, gives the same answer before
    and after. *)
Theorem gc_preserves_active_reads store ar durable k l :
  (exists id, ar_map ar !! id = Some l) \/ l = durable ->
  mvcc_get_at (gc_mvcc_versions store (gc_watermark ar durable)).1 k l = mvcc_get_at store k l.
Proof.
  intros Hl. apply gc_get_at. destruct Hl as [(id & Hid)| ->]; [by eapply watermark_below|].
  unfold gc_watermark. lia.
Qed.

Definition sample_versions : mvcc_store :=
  {[ [7] := [{| commit_lsn := 2; version_value := Some [1] |}; {| commit_lsn := 5; version_value := None |};
             {| commit_lsn := 9; version_value := Some [3] |}] ]}.
Definition sample_reads : ActiveReads := (register 6 (register 8 new).2).2.

Lemma gc_preserves_active_reads_witness :
  mvcc_get_at (gc_mvcc_versions sample_versions (gc_watermark sample_reads 9)).1 [7] 6 = mvcc_get_at sample_versions [7] 6 /\
  (gc_mvcc_versions sample_versions (gc_watermark sample_reads 9)).2 = (1, 1).
Proof.
  split; [|vm_compute; reflexivity].
  apply (gc_preserves_active_reads sample_versions sample_reads 9 [7] 6). left. exists 2. vm_compute. reflexivity.
Defined.

(** Garbage collection removes everything it may: when the versions of a key are in
    commit order, at most the first of the versions it keeps is at or below the
    watermark. *)
Theorem gc_leaves_one_old_version watermark vs j v :
  StronglySorted Z.le (commit_lsn <$> vs) ->
  drop (gc_versions watermark vs) vs !! j = Some v -> commit_lsn v <= watermark -> j = 0%nat.
Proof.
  intros Hs Hj Hv. rewrite lookup_drop in Hj. pose proof (gc_versions_max watermark vs _ v Hs Hj Hv). lia.
Qed.

Definition three_versions : list MvccVersion :=
  [{| commit_lsn := 2; version_value := Some [1] |}; {| commit_lsn := 5; version_value := None |};
   {| commit_lsn := 9; version_value := Some [3] |}].

Lemma gc_leaves_one_old_version_witness :
  drop (gc_versions 6 three_versions) three_versions !! 0%nat = Some {| commit_lsn := 5; version_value := None |} /\
  (0 = 0)%nat.
Proof.
  split; [vm_compute; reflexivity|].
  apply (gc_leaves_one_old_version 6 three_versions 0 {| commit_lsn := 5; version_value := None |}).
  - repeat (constructor; try (cbn; lia)).
  - vm_compute. reflexivity.
  - cbn. lia.
Defined.

(** A registration keeps its snapshot: from any state whose ids lie below the next one,
    [register] takes an id not in use, and however the registry is used afterwards (fewer
    than 2^64 calls), the registration holds its LSN, and so bounds [min_read_lsn], until
    its own guard is dropped or it is aborted. *)
Theorem registration_is_stable ar l os :
  ids_below ar -> ar_next_id ar + zlen os + 1 < U64 ->
  let '(id, ar1) := register l ar in
  ar_map ar !! id = None /\
  (forallb (fun o => negb (ends id o)) os = true ->
   let ar2 := foldl ar_apply ar1 os in
   contains id ar2 = true /\ exists m, min_read_lsn ar2 = Some m /\ m <= l).
Proof.
  intros Hids Hn. cbn [register]. pose proof (zlen_nonneg os). split.
  { destruct (ar_map ar !! ar_next_id ar) eqn:E; [|done]. destruct Hids as [_ Hids].
    specialize (Hids (ar_next_id ar) ltac:(by eexists)). lia. }
  intros Hos. destruct (ar_apply_ids ar (OpRegister l) Hids ltac:(lia)) as [Hids1 Hn1]. cbn in Hids1, Hn1.
  pose proof (ar_keeps os _ (ar_next_id ar) l Hids1 ltac:(cbn; lia) (lookup_insert_eq _ _ _) Hos) as Hk.
  split; [apply bool_decide_eq_true_2; by eexists|].
  pose proof (min_read_lsn_spec (foldl ar_apply {| ar_next_id := wrap64 (ar_next_id ar + 1);
    ar_map := <[ar_next_id ar := l]> (ar_map ar) |} os)) as Hm.
  destruct (min_read_lsn _) as [m|]; [exists m; split; [done|by eapply Hm]|]. by rewrite Hm in Hk.
Qed.

Lemma registration_is_stable_witness :
  contains 1 (foldl ar_apply (register 5 new).2 [OpRegister 3; OpDrop 2; OpRegister 9; OpAbort 3]) = true.
Proof.
  pose proof (registration_is_stable new 5 [OpRegister 3; OpDrop 2; OpRegister 9; OpAbort 3]) as H.
  cbn [register new ar_next_id ar_map] in H. destruct H as [_ H]; [split; [cbn; lia|by intros id [x Hx]]|done|].
  apply (H eq_refl).
Defined.

End MvccProps.
