(* ===== verification/PageStore.v ===== *)
(** * PageStore: the buffer pool and the page file of a storage node (src/src/page_store.rs)

    The state holds the buffer pool, the disk and the counters.  The disk has the bytes of
    the page file, those of them that would survive a crash (the bytes at the last
    successful sync) and the checkpoint file.  Calls to the operating system can fail: each
    one takes the next entry of [faults], which says whether it fails and, for a write, how
    many bytes got out before it did.  The
    clock ([Instant::now]) is an argument of the operations that read it, and the order in
    which a [HashMap] is walked is an argument of the operations that walk it.

    [checkpoint] and [evict_cold_pages] release the pool between their phases; the phases
    are definitions of their own, so that other operations can run between them. *)

From stdpp Require Import base numbers list list_numbers gmap fin_maps sorting.
From S2P Require Import Prelude Common.

Record CheckpointConfig := {
  interval : Z;
  max_dirty_pages : Z;
  max_dirty_bytes : Z
}.

Record BufferPoolConfig := {
  max_pages : Z;
  eviction_batch_size : Z
}.

(** The defaults; times are in nanoseconds. *)
Definition default_checkpoint_config : CheckpointConfig :=
  {| interval := 60 * 1000000000; max_dirty_pages := 1000; max_dirty_bytes := 64 * 1024 * 1024 |}.
Definition default_buffer_config : BufferPoolConfig := {| max_pages := 10000; eviction_batch_size := 100 |}.

Record BufferPage := {
  data : bytes;
  dirty : bool;
  bp_lsn : Z;
  last_accessed : Z
}.

Record BufferStats := {
  total_pages : Z;
  dirty_count : Z;
  dirty_bytes : Z;
  max_lsn : Z
}.

(** A call to the operating system that fails. *)
Record fault := {
  fault_kind : ErrorKind;
  fault_written : Z
}.

(** [PageFile] and the files around it. *)
Record Disk := mkDisk {
  pf_bytes : bytes;
  pf_size : Z;
  synced : bytes;
  checkpoint_file : option bytes;
  faults : list (option fault)
}.

Record PageStore := mkStore {
  buffer_pool : gmap Z BufferPage;
  disk : Disk;
  checkpoint_lsn : Z;
  max_page_id : Z;
  cache_hits : Z;
  cache_misses : Z;
  last_checkpoint : Z;
  shutdown : bool
}.

Module PageFileM.

Abbreviation D := (st Disk Error) (only parsing).

(** The next call to the operating system: it works, or it fails after [n] bytes. *)
Definition sys : st Disk Error (option fault) := fun d =>
  match faults d with
  | [] => (Ret None, d)
  | f :: fs => (Ret f, mkDisk (pf_bytes d) (pf_size d) (synced d) (checkpoint_file d) fs)
  end.

Definition sys_ok : D unit :=
  f ← sys; match f with Some f => throw (Io (fault_kind f)) | None => mret tt end.

(** [set_len], [sync_all] and a positioned [write_all]. *)
Definition set_len (n : Z) : D unit :=
  _ ← sys_ok;
  modify (fun d => mkDisk (take (Z.to_nat n) (pf_bytes d ++ zrepeat 0 (n - zlen (pf_bytes d))))
                     (pf_size d) (synced d) (checkpoint_file d) (faults d)).

Definition set_size (n : Z) : D unit :=
  modify (fun d => mkDisk (pf_bytes d) n (synced d) (checkpoint_file d) (faults d)).

Definition write_at (offset : Z) (buf : bytes) : D unit :=
  modify (fun d => mkDisk (upd offset buf (pf_bytes d)) (pf_size d) (synced d) (checkpoint_file d) (faults d)).

Definition write_all (offset : Z) (buf : bytes) : D unit :=
  f ← sys;
  match f with
  | Some f => _ ← write_at offset (take (Z.to_nat (fault_written f)) buf); throw (Io (fault_kind f))
  | None => write_at offset buf
  end.

Definition sync : D unit :=
  _ ← sys_ok;
  modify (fun d => mkDisk (pf_bytes d) (pf_size d) (pf_bytes d) (checkpoint_file d) (faults d)).

(** [read_exact] at an offset. *)
Definition read_at (offset n : Z) : D bytes :=
  f ← sys;
  match f with
  | Some f => throw (Io (fault_kind f))
  | None =>
      file ← gets pf_bytes;
      if zlen file <? offset + n then throw (Io UnexpectedEof) else mret (sub offset n file)
  end.

(** The [match] on the result of [read_exact] in [PageFile::read_page]: a page of zeros and
    the end of the file both count as no page. *)
Definition page_of_read (m : D bytes) : D (option Page) := fun d =>
  match m d with
  | (Ret buf, d) => if forallb (fun b => b =? 0) buf then (Ret None, d) else (Ret (Some buf), d)
  | (Fail (Io UnexpectedEof), d) => (Ret None, d)
  | (Fail e, d) => (Fail e, d)
  | (Panic, d) => (Panic, d)
  | (Spin, d) => (Spin, d)
  end.

Definition read_page (page_id : PageId) : D (option Page) :=
  let offset := wrap64 (page_id * PAGE_SIZE) in
  size ← gets pf_size;
  if size <? wrap64 (offset + PAGE_SIZE) then mret None else
  _ ← sys_ok;
  page_of_read (read_at offset PAGE_SIZE).

Definition write_page (page_id : PageId) (buf : bytes) : D unit :=
  if negb (zlen buf =? PAGE_SIZE) then throw (InvalidPageSize (zlen buf) PAGE_SIZE) else
  let offset := wrap64 (page_id * PAGE_SIZE) in
  let required_size := wrap64 (offset + PAGE_SIZE) in
  size ← gets pf_size;
  _ ← (if size <? required_size then _ ← set_len required_size; set_size required_size else mret tt);
  _ ← sys_ok;
  write_all offset buf.

(** [read_checkpoint_state] and [write_checkpoint_state]: the new state is written to a
    temporary file, synced and renamed over the old one. *)
Definition read_checkpoint_state : D Z := fun d =>
  match sys_ok d with
  | (Ret _, d) =>
      match checkpoint_file d with
      | None => (Ret 0, d)
      | Some file => (_ ← sys_ok; if zlen file <? 8 then throw (Io UnexpectedEof) else mret (le_val (take 8 file))) d
      end
  | (Fail (Io NotFound), d) => (Ret 0, d)
  | (Fail e, d) => (Fail e, d)
  | (Panic, d) => (Panic, d)
  | (Spin, d) => (Spin, d)
  end.

Definition write_checkpoint_state (lsn : Z) : D unit :=
  _ ← sys_ok;
  _ ← sys_ok;
  _ ← sys_ok;
  _ ← sys_ok;
  modify (fun d => mkDisk (pf_bytes d) (pf_size d) (synced d) (Some (le_bytes 8 lsn)) (faults d)).

End PageFileM.

Module PageStoreM.
Import PageFileM.

Abbreviation T := (st PageStore Error) (only parsing).

(** Struct updates. *)
Definition with_pool (p : gmap Z BufferPage) (s : PageStore) : PageStore :=
  mkStore p (disk s) (checkpoint_lsn s) (max_page_id s) (cache_hits s) (cache_misses s) (last_checkpoint s) (shutdown s).
Definition with_disk (d : Disk) (s : PageStore) : PageStore :=
  mkStore (buffer_pool s) d (checkpoint_lsn s) (max_page_id s) (cache_hits s) (cache_misses s) (last_checkpoint s) (shutdown s).
Definition with_checkpoint_lsn (l : Z) (s : PageStore) : PageStore :=
  mkStore (buffer_pool s) (disk s) l (max_page_id s) (cache_hits s) (cache_misses s) (last_checkpoint s) (shutdown s).
Definition with_max_page_id (i : Z) (s : PageStore) : PageStore :=
  mkStore (buffer_pool s) (disk s) (checkpoint_lsn s) i (cache_hits s) (cache_misses s) (last_checkpoint s) (shutdown s).
Definition with_hits (n : Z) (s : PageStore) : PageStore :=
  mkStore (buffer_pool s) (disk s) (checkpoint_lsn s) (max_page_id s) n (cache_misses s) (last_checkpoint s) (shutdown s).
Definition with_misses (n : Z) (s : PageStore) : PageStore :=
  mkStore (buffer_pool s) (disk s) (checkpoint_lsn s) (max_page_id s) (cache_hits s) n (last_checkpoint s) (shutdown s).
Definition with_last_checkpoint (t : Z) (s : PageStore) : PageStore :=
  mkStore (buffer_pool s) (disk s) (checkpoint_lsn s) (max_page_id s) (cache_hits s) (cache_misses s) t (shutdown s).
Definition with_shutdown (b : bool) (s : PageStore) : PageStore :=
  mkStore (buffer_pool s) (disk s) (checkpoint_lsn s) (max_page_id s) (cache_hits s) (cache_misses s) (last_checkpoint s) b.

(** A call to the page file, under its lock. *)
Definition on_disk {A} (m : st Disk Error A) : T A := fun s =>
  let '(r, d) := m (disk s) in (r, with_disk d s).

(** [open]: a new store over what is on the disk. *)
Definition open (now : Z) (d : Disk) : outcome Error PageStore * Disk :=
  match sys_ok d with
  | (Ret _, d) =>
      let '(r, d) := read_checkpoint_state d in
      let lsn := match r with Ret l => l | _ => 0 end in
      match (_ ← sys_ok; _ ← sys_ok; set_size (zlen (pf_bytes d))) d with
      | (Ret _, d) =>
          let max_id := if 0 <? pf_size d then sat_sub (pf_size d / PAGE_SIZE) 1 else 0 in
          (Ret (mkStore ∅ d lsn max_id 0 0 now false), d)
      | (Fail e, d) => (Fail e, d)
      | (Panic, d) => (Panic, d)
      | (Spin, d) => (Spin, d)
      end
  | (Fail e, d) => (Fail e, d)
  | (Panic, d) => (Panic, d)
  | (Spin, d) => (Spin, d)
  end.

(** [BufferPage::from_slice]. *)
Definition from_slice (now : Z) (slice : bytes) (dirty : bool) (lsn : Z) : outcome Error BufferPage :=
  if negb (zlen slice =? PAGE_SIZE) then Fail (InvalidPageSize (zlen slice) PAGE_SIZE)
  else Ret {| data := slice; dirty := dirty; bp_lsn := lsn; last_accessed := now |}.

Definition touch (now : Z) (bp : BufferPage) : BufferPage :=
  {| data := data bp; dirty := dirty bp; bp_lsn := bp_lsn bp; last_accessed := now |}.

Definition get_with_lsn (now : Z) (page_id : PageId) (s : PageStore) : option (Page * Z) * PageStore :=
  match buffer_pool s !! page_id with
  | Some bp =>
      (Some (data bp, bp_lsn bp),
       with_hits (wrap64 (cache_hits s + 1)) (with_pool (<[page_id := touch now bp]> (buffer_pool s)) s))
  | None =>
      let '(r, s) := on_disk (read_page page_id) s in
      let s := with_misses (wrap64 (cache_misses s + 1)) s in
      (match r with Ret (Some data) => Some (data, 0) | _ => None end, s)
  end.

Definition get (now : Z) (page_id : PageId) (s : PageStore) : option Page * PageStore :=
  let '(r, s) := get_with_lsn now page_id s in (fst <$> r, s).

(** The [for page_id in start_page_id..=max_id] of [scan_pages_with_lsn]. *)
Fixpoint scan_ids (now : Z) (ids : list Z) (limit : Z) (out : list (PageId * (Z * Page))) (s : PageStore) :
    list (PageId * (Z * Page)) * PageStore :=
  match ids with
  | [] => (out, s)
  | page_id :: ids =>
      let '(r, s) := get_with_lsn now page_id s in
      match r with
      | None => scan_ids now ids limit out s
      | Some (page, lsn) =>
          let out := out ++ [(page_id, (lsn, page))] in
          if limit <=? zlen out then (out, s) else scan_ids now ids limit out s
      end
  end.

Definition scan_pages_with_lsn (now start_page_id limit : Z) (s : PageStore) :
    list (PageId * (Z * Page)) * PageStore :=
  if limit =? 0 then ([], s) else
  scan_ids now (seqZ start_page_id (max_page_id s + 1 - start_page_id)) limit [] s.

Definition put (now : Z) (page_id : PageId) (data : bytes) (lsn : Z) : T unit :=
  bp ← lift (from_slice now data true lsn);
  _ ← modify (fun s => with_pool (<[page_id := bp]> (buffer_pool s)) s);
  modify (fun s => with_max_page_id (Z.max (max_page_id s) page_id) s).

Definition put_direct (now : Z) (page_id : PageId) (data : bytes) : T unit := put now page_id data 0.

Definition delete (page_id : PageId) (s : PageStore) : PageStore :=
  with_pool (base.delete page_id (buffer_pool s)) s.

Definition contains (now : Z) (page_id : PageId) (s : PageStore) : bool * PageStore :=
  let '(r, s) := get now page_id s in (bool_decide (is_Some r), s).

Definition buffer_stats (s : PageStore) : BufferStats :=
  map_fold (fun _ bp st => {|
      total_pages := total_pages st;
      dirty_count := if dirty bp then dirty_count st + 1 else dirty_count st;
      dirty_bytes := if dirty bp then dirty_bytes st + PAGE_SIZE else dirty_bytes st;
      max_lsn := if max_lsn st <? bp_lsn bp then bp_lsn bp else max_lsn st |})
    {| total_pages := Z.of_nat (size (buffer_pool s)); dirty_count := 0; dirty_bytes := 0; max_lsn := 0 |}
    (buffer_pool s).

(** ** Checkpoints *)

(** First phase, under the read lock: the dirty pages in the order of their ids. *)
Definition by_id : relation (PageId * (bytes * Z)) := fun a b => a.1 <= b.1.
#[global] Instance by_id_dec a b : Decision (by_id a b) := _ : Decision (a.1 <= b.1).

Definition dirty_pages (s : PageStore) : list (PageId * (bytes * Z)) :=
  merge_sort by_id
    (omap (fun '(id, bp) => if dirty bp then Some (id, (data bp, bp_lsn bp)) else None)
       (map_to_list (buffer_pool s))).

(** Second phase, under the lock of the page file. *)
Fixpoint write_pages (pages : list (PageId * (bytes * Z))) (max_lsn : Z) : D Z :=
  match pages with
  | [] => mret max_lsn
  | (page_id, (data, lsn)) :: pages =>
      _ ← write_page page_id data;
      write_pages pages (if max_lsn <? lsn then lsn else max_lsn)
  end.

Definition flush_pages (pages : list (PageId * (bytes * Z))) : D Z :=
  m ← write_pages pages 0; _ ← sync; mret m.

(** Third phase, under the write lock. *)
Definition clean (bp : BufferPage) : BufferPage :=
  {| data := data bp; dirty := false; bp_lsn := bp_lsn bp; last_accessed := last_accessed bp |}.

Definition clear_dirty (ids : list PageId) (pool : gmap Z BufferPage) : gmap Z BufferPage :=
  foldl (fun pool id => alter clean id pool) pool ids.

Definition finish_checkpoint (now : Z) (pages : list (PageId * (bytes * Z))) (max_lsn : Z) : T unit :=
  _ ← modify (fun s => with_pool (clear_dirty pages.*1 (buffer_pool s)) s);
  cur ← gets checkpoint_lsn;
  _ ← (if cur <? max_lsn then
         _ ← modify (with_checkpoint_lsn max_lsn);
         on_disk (write_checkpoint_state max_lsn)
       else mret tt);
  modify (with_last_checkpoint now).

Definition checkpoint (now : Z) : T unit :=
  pages ← gets dirty_pages;
  if bool_decide (pages = []) then mret tt else
  max_lsn ← on_disk (flush_pages pages);
  finish_checkpoint now pages max_lsn.

Definition should_checkpoint (now : Z) (config : CheckpointConfig) (s : PageStore) : bool :=
  let stats := buffer_stats s in
  (max_dirty_pages config <? dirty_count stats) || (max_dirty_bytes config <? dirty_bytes stats) ||
  (interval config <? now - last_checkpoint s).

Definition maybe_checkpoint (now : Z) (config : CheckpointConfig) : T bool :=
  due ← gets (should_checkpoint now config);
  if due : bool then _ ← checkpoint now; mret true else mret false.

(** ** Eviction *)

(** The oldest [to_evict] pages; [order] is the order in which the pool is walked. *)
Definition by_age : relation (PageId * (Z * bool)) := fun a b => a.2.1 <= b.2.1.
#[global] Instance by_age_dec a b : Decision (by_age a b) := _ : Decision (a.2.1 <= b.2.1).

Definition candidates (order : list PageId) (pool : gmap Z BufferPage) : list (PageId * (Z * bool)) :=
  merge_sort by_age (omap (fun id => bp ← pool !! id; Some (id, (last_accessed bp, dirty bp))) order).

Definition to_flush (victims : list (PageId * (Z * bool))) (pool : gmap Z BufferPage) : list (PageId * bytes) :=
  omap (fun '(id, (_, is_dirty)) =>
          if is_dirty : bool then bp ← pool !! id; Some (id, data bp) else None) victims.

Fixpoint write_all_pages (pages : list (PageId * bytes)) : D unit :=
  match pages with
  | [] => mret tt
  | (page_id, data) :: pages => _ ← write_page page_id data; write_all_pages pages
  end.

Definition flush_victims (pages : list (PageId * bytes)) : D unit :=
  if bool_decide (pages = []) then mret tt else _ ← write_all_pages pages; sync.

Fixpoint remove_victims (ids : list PageId) (pool : gmap Z BufferPage) (evicted : Z) : gmap Z BufferPage * Z :=
  match ids with
  | [] => (pool, evicted)
  | id :: ids =>
      match pool !! id with
      | Some _ => remove_victims ids (base.delete id pool) (evicted + 1)
      | None => remove_victims ids pool evicted
      end
  end.

Definition evict_cold_pages (order : list PageId) (config : BufferPoolConfig) : T Z :=
  pool ← gets buffer_pool;
  let current_count := Z.of_nat (size pool) in
  if current_count <=? max_pages config then mret 0 else
  let to_evict := current_count - max_pages config + eviction_batch_size config in
  let victims := take (Z.to_nat to_evict) (candidates order pool) in
  _ ← on_disk (flush_victims (to_flush victims pool));
  pool ← gets buffer_pool;
  let '(pool, evicted) := remove_victims victims.*1 pool 0 in
  _ ← modify (with_pool pool);
  mret evicted.

Definition maybe_evict (order : list PageId) (config : BufferPoolConfig) : T Z :=
  pool ← gets buffer_pool;
  if max_pages config <? Z.of_nat (size pool) then evict_cold_pages order config else mret 0.

(** ** Background work and accessors *)

(** One turn of the loops of [start_background_checkpoint] and
    [start_background_checkpoint_with_eviction]: errors are ignored. *)
Definition checkpoint_tick (now : Z) (config : CheckpointConfig) (s : PageStore) : PageStore :=
  if shutdown s then s else (maybe_checkpoint now config s).2.

Definition checkpoint_eviction_tick (now : Z) (order : list PageId) (config : CheckpointConfig)
    (buffer_config : BufferPoolConfig) (s : PageStore) : PageStore :=
  if shutdown s then s else (maybe_evict order buffer_config (maybe_checkpoint now config s).2).2.

(** The last checkpoint when the loop ends. *)
Definition background_exit (now : Z) (s : PageStore) : PageStore := (checkpoint now s).2.

Definition set_shutdown (s : PageStore) : PageStore := with_shutdown true s.
Definition is_shutdown (s : PageStore) : bool := shutdown s.
Definition store_len (s : PageStore) : Z := Z.of_nat (size (buffer_pool s)).
Definition store_is_empty (s : PageStore) : bool := bool_decide (buffer_pool s = ∅).
Definition keys (s : PageStore) : list PageId := (map_to_list (buffer_pool s)).*1.

End PageStoreM.

(** ** What the disk holds *)

Module PageStoreSpec.
Import PageFileM PageStoreM.

(** Page ids whose offset fits a [u64]. *)
Definition MAX_ID : Z := 2 ^ 49.
Definition id_ok (id : PageId) : Prop := 0 <= id < MAX_ID.

(** A page of zeros reads as no page. *)
Definition zero_page (p : Page) : bool := forallb (fun b => b =? 0) p.
Definition nonzero (p : Page) : option Page := if zero_page p then None else Some p.

Definition page_at (b : bytes) (id : PageId) : option Page :=
  if zlen b <? (id + 1) * PAGE_SIZE then None else nonzero (sub (id * PAGE_SIZE) PAGE_SIZE b).

Lemma offset_ok id : id_ok id ->
  wrap64 (id * PAGE_SIZE) = id * PAGE_SIZE /\ wrap64 (id * PAGE_SIZE + PAGE_SIZE) = (id + 1) * PAGE_SIZE.
Proof.
  unfold id_ok, MAX_ID, wrap64, PAGE_SIZE, U64. intros Hid. rewrite !Z.mod_small by lia. lia.
Qed.

(** The size bookkeeping of the page file: whole pages. *)
Record file_ok (d : Disk) : Prop := {
  fo_size : pf_size d = zlen (pf_bytes d);
  fo_whole : zlen (pf_bytes d) mod PAGE_SIZE = 0
}.

(** What a run on the disk may change: the region of one page, and only in the page file. *)
Record touches (id : PageId) (d d' : Disk) : Prop := {
  to_ok : file_ok d';
  to_len : zlen (pf_bytes d) <= zlen (pf_bytes d');
  to_other : forall i, id_ok i -> i <> id -> page_at (pf_bytes d') i = page_at (pf_bytes d) i;
  to_synced : synced d' = synced d;
  to_ckpt : checkpoint_file d' = checkpoint_file d
}.

Lemma touches_refl id d : file_ok d -> touches id d d.
Proof. intros. by split. Qed.

Lemma touches_trans id d1 d2 d3 : touches id d1 d2 -> touches id d2 d3 -> touches id d1 d3.
Proof.
  intros [A1 B1 C1 D1 E1] [A2 B2 C2 D2 E2]. split; [done|lia| |congruence|congruence].
  intros i Hi Hne. by rewrite C2, C1.
Qed.

(** [sys] only consumes a fault. *)
Definition same_files (d d' : Disk) : Prop :=
  pf_bytes d' = pf_bytes d /\ pf_size d' = pf_size d /\ synced d' = synced d /\ checkpoint_file d' = checkpoint_file d.

Lemma sys_cases d : exists f d', sys d = (Ret f, d') /\ same_files d d' /\ (faults d = [] -> f = None /\ faults d' = []).
Proof.
  unfold sys. destruct (faults d) as [|f fs] eqn:E; [exists None, d|eexists f, _]; (split; [done|]); (split; [done|]); [|done].
  by rewrite E.
Qed.

Lemma sys_ok_cases d :
  (exists d', sys_ok d = (Ret tt, d') /\ same_files d d' /\ (faults d = [] -> faults d' = [])) \/
  (exists k d', sys_ok d = (Fail (Io k), d') /\ same_files d d' /\ faults d <> []).
Proof.
  destruct (sys_cases d) as (f & d' & Hs & Hf & Hn). unfold sys_ok. rewrite (st_bind_ret _ _ _ _ _ Hs).
  destruct f as [f|]; [right|left].
  - exists (fault_kind f), d'. split; [done|]. split; [done|]. intros H. by destruct (Hn H).
  - exists d'. split; [done|]. split; [done|]. intros H. by apply Hn.
Qed.

Lemma sys_ok_none d : faults d = [] -> sys_ok d = (Ret tt, d).
Proof. intros H. unfold sys_ok, sys, mbind, st_bind. by rewrite H. Qed.

Lemma touches_same id d d' : file_ok d -> same_files d d' -> touches id d d'.
Proof.
  intros [Hs Hw] (Hb & Hz & Hy & Hc). split; rewrite ?Hb; try done. split; by rewrite ?Hb, ?Hz.
Qed.

(** Writing inside the region of a page. *)
Lemma page_at_upd_other b id buf i :
  id_ok id -> id_ok i -> i <> id -> zlen buf <= PAGE_SIZE -> (id + 1) * PAGE_SIZE <= zlen b ->
  page_at (upd (id * PAGE_SIZE) buf b) i = page_at b i.
Proof.
  unfold id_ok, MAX_ID, PAGE_SIZE. intros Hid Hi Hne Hl Hb. pose proof (zlen_nonneg buf).
  unfold page_at, PAGE_SIZE. rewrite zlen_upd by lia. destruct (zlen b <? (i + 1) * (16 * 1024)) eqn:E; [done|].
  apply Z.ltb_ge in E. rewrite sub_upd_disjoint by lia. done.
Qed.

Lemma page_at_upd_same b id buf :
  id_ok id -> zlen buf = PAGE_SIZE -> (id + 1) * PAGE_SIZE <= zlen b ->
  page_at (upd (id * PAGE_SIZE) buf b) id = nonzero buf.
Proof.
  unfold id_ok, MAX_ID, PAGE_SIZE. intros Hid Hl Hb. unfold page_at, PAGE_SIZE. rewrite zlen_upd by lia.
  destruct (zlen b <? (id + 1) * (16 * 1024)) eqn:E; [apply Z.ltb_lt in E; lia|].
  by rewrite sub_upd_same by lia.
Qed.

(** Extending the file by zeros. *)
Lemma zero_page_zrepeat n : zero_page (zrepeat 0 n) = true.
Proof. unfold zrepeat. by induction (Z.to_nat n). Qed.

Lemma page_at_extend b n i :
  id_ok i -> zlen b mod PAGE_SIZE = 0 -> 0 <= n -> page_at (b ++ zrepeat 0 n) i = page_at b i.
Proof.
  intros Hi Hm Hn. unfold page_at. rewrite zlen_app, zlen_zrepeat by done. unfold id_ok, MAX_ID in Hi.
  pose proof (Z.div_mod (zlen b) PAGE_SIZE ltac:(done)) as Hd. rewrite Hm in Hd. unfold PAGE_SIZE in *.
  destruct (Z.ltb_spec (zlen b) ((i + 1) * (16 * 1024))).
  - destruct (_ <? _) eqn:E; [done|]. apply Z.ltb_ge in E. rewrite sub_app_r by lia.
    rewrite sub_zrepeat by lia. unfold nonzero. by rewrite zero_page_zrepeat.
  - destruct (Z.ltb_spec (zlen b + n) ((i + 1) * (16 * 1024))); [lia|]. by rewrite sub_app_l by lia.
Qed.

(** The first part of [write_page]: the file is long enough for the page. *)
Lemma set_len_cases d n :
  file_ok d -> zlen (pf_bytes d) <= n -> n mod PAGE_SIZE = 0 ->
  (exists d', (_ ← set_len n; set_size n) d = (Ret tt, d') /\ pf_bytes d' = pf_bytes d ++ zrepeat 0 (n - zlen (pf_bytes d)) /\
     file_ok d' /\ synced d' = synced d /\ checkpoint_file d' = checkpoint_file d /\ (faults d = [] -> faults d' = [])) \/
  (exists k d', (_ ← set_len n; set_size n) d = (Fail (Io k), d') /\ same_files d d' /\ faults d <> []).
Proof.
  intros [Hs Hw] Hn Hm. unfold set_len.
  destruct (sys_ok_cases d) as [(d1 & Hsys & (Hb & Hz & Hy & Hc) & Hf)|(k & d1 & Hsys & Hsame & Hf)]; [left|right].
  2: { exists k, d1. split; [|done]. apply st_bind_fail. by apply st_bind_fail. }
  eexists. split; [erewrite st_bind_ret by (rewrite (st_bind_ret _ _ _ _ _ Hsys); reflexivity); reflexivity|]. cbn [pf_bytes pf_size synced checkpoint_file faults]. rewrite Hb.
  assert (Hl : zlen (pf_bytes d ++ zrepeat 0 (n - zlen (pf_bytes d))) = n) by (rewrite zlen_app, zlen_zrepeat by lia; lia).
  assert (Ht : take (Z.to_nat n) (pf_bytes d ++ zrepeat 0 (n - zlen (pf_bytes d))) = pf_bytes d ++ zrepeat 0 (n - zlen (pf_bytes d))).
  { apply take_ge. unfold zlen in Hl |- *. lia. }
  rewrite Ht. split_and!; try done. split; cbn; by rewrite Hl.
Qed.

Lemma extend_cases d id :
  file_ok d -> id_ok id ->
  let m := (size ← gets pf_size; if size <? (id + 1) * PAGE_SIZE then _ ← set_len ((id + 1) * PAGE_SIZE); set_size ((id + 1) * PAGE_SIZE) else mret tt) in
  (exists d', m d = (Ret tt, d') /\ touches id d d' /\ (id + 1) * PAGE_SIZE <= zlen (pf_bytes d') /\ (faults d = [] -> faults d' = [])) \/
  (exists k d', m d = (Fail (Io k), d') /\ touches id d d' /\ faults d <> []).
Proof.
  intros Hok Hid m. destruct Hok as [Hs Hw] eqn:E; clear E. unfold m.
  rewrite st_bind_gets, Hs.
  destruct (Z.ltb_spec (zlen (pf_bytes d)) ((id + 1) * PAGE_SIZE)) as [Hlt|Hge].
  - destruct (set_len_cases d ((id + 1) * PAGE_SIZE)) as [(d' & -> & Hb & Hok' & Hy & Hc & Hf)|(k & d' & -> & Hsame & Hf)];
      [by split|lia|apply Z.mod_mul; done| |right; exists k, d'; split_and!; [done|by apply touches_same|done]].
    left. exists d'. split; [done|]. split; [|split; [rewrite Hb, zlen_app, zlen_zrepeat by lia; lia|done]].
    split; [done|rewrite Hb, zlen_app, zlen_zrepeat by lia; lia| |done|done].
    intros i Hi Hne. rewrite Hb. apply page_at_extend; [done|done|lia].
  - left. exists d. split; [done|]. split; [by apply touches_refl; split|done].
Qed.

Lemma write_all_cases d id buf :
  file_ok d -> id_ok id -> zlen buf = PAGE_SIZE -> (id + 1) * PAGE_SIZE <= zlen (pf_bytes d) ->
  (exists d', write_all (id * PAGE_SIZE) buf d = (Ret tt, d') /\ touches id d d' /\
     page_at (pf_bytes d') id = nonzero buf /\ (faults d = [] -> faults d' = [])) \/
  (exists k d', write_all (id * PAGE_SIZE) buf d = (Fail (Io k), d') /\ touches id d d' /\ faults d <> []).
Proof.
  intros [Hs Hw] Hid Hl Hb. unfold write_all. destruct (sys_cases d) as (f & d1 & Hsys & (H1 & H2 & H3 & H4) & Hf).
  rewrite (st_bind_ret _ _ _ _ _ Hsys). assert (Hid' := Hid). unfold id_ok, MAX_ID in Hid'.
  assert (Hto : forall x, zlen x <= PAGE_SIZE -> touches id d
    (mkDisk (upd (id * PAGE_SIZE) x (pf_bytes d1)) (pf_size d1) (synced d1) (checkpoint_file d1) (faults d1))).
  { intros x Hx. pose proof (zlen_nonneg x). assert (Hz : zlen (upd (id * PAGE_SIZE) x (pf_bytes d)) = zlen (pf_bytes d)).
    { apply zlen_upd; unfold PAGE_SIZE in *; lia. }
    split; cbn; rewrite ?H1; [split; cbn; rewrite ?H1, ?H2, ?Hz; done|lia| |done|done].
    intros i Hi Hne. by apply page_at_upd_other. }
  destruct f as [f|].
  - right. eexists _, _. split; [reflexivity|]. split; [|intros E; by destruct (Hf E)]. apply Hto. unfold zlen. rewrite length_take. unfold zlen in Hl. lia.
  - left. eexists. split; [reflexivity|]. split; [apply Hto; lia|]. cbn. rewrite H1. split; [by apply page_at_upd_same|]. intros E. by apply Hf.
Qed.

(** [write_page] changes nothing but its own page, whatever fails on the way. *)
Lemma write_page_cases d id buf :
  file_ok d -> id_ok id -> zlen buf = PAGE_SIZE ->
  (exists d', write_page id buf d = (Ret tt, d') /\ touches id d d' /\
     page_at (pf_bytes d') id = nonzero buf /\ (faults d = [] -> faults d' = [])) \/
  (exists k d', write_page id buf d = (Fail (Io k), d') /\ touches id d d' /\ faults d <> []).
Proof.
  intros Hok Hid Hl. destruct (offset_ok id Hid) as [Ho Hr].
  assert (Hw : write_page id buf d =
    (_ ← (size ← gets pf_size; if size <? (id + 1) * PAGE_SIZE then _ ← set_len ((id + 1) * PAGE_SIZE); set_size ((id + 1) * PAGE_SIZE) else mret tt);
     _ ← sys_ok; write_all (id * PAGE_SIZE) buf) d).
  { unfold write_page. rewrite Hl, Z.eqb_refl, Ho, Hr. cbn [negb]. reflexivity. }
  rewrite Hw. clear Hw. destruct (extend_cases d id Hok Hid) as [(d1 & He & Ht1 & Hl1 & Hf1)|(k & d1 & He & Ht1 & Hf1)].
  - rewrite (st_bind_ret _ _ _ _ _ He).
    destruct (sys_ok_cases d1) as [(d2 & Hy & Hs2 & Hf2)|(k & d2 & Hy & Hs2 & Hf2)].
    + rewrite (st_bind_ret _ _ _ _ _ Hy). assert (Ht2 : touches id d d2) by (eapply touches_trans; [exact Ht1|by apply touches_same; [apply Ht1|]]).
      destruct (write_all_cases d2 id buf) as [(d3 & -> & Ht3 & Hp & Hf3)|(k & d3 & -> & Ht3 & Hf3)];
        [apply Ht2|done|done|by destruct Hs2 as (-> & _)|left|right].
      * exists d3. split; [done|]. split; [by eapply touches_trans|]. split; [done|auto].
      * exists k, d3. split; [done|]. split; [by eapply touches_trans|]. intros E. by apply Hf3, Hf2, Hf1.
    + right. exists k, d2. split; [by apply st_bind_fail|].
      split; [by eapply touches_trans; [exact Ht1|apply touches_same; [apply Ht1|]]|].
      intros E. by apply Hf2, Hf1.
  - right. exists k, d1. split; [by apply st_bind_fail|done].
Qed.

(** The same for a list of pages. *)
Record touches_in (ids : list PageId) (d d' : Disk) : Prop := {
  ti_ok : file_ok d';
  ti_other : forall i, id_ok i -> i ∉ ids -> page_at (pf_bytes d') i = page_at (pf_bytes d) i;
  ti_synced : synced d' = synced d;
  ti_ckpt : checkpoint_file d' = checkpoint_file d
}.

Lemma touches_in_cons id ids d1 d2 d3 :
  touches id d1 d2 -> touches_in ids d2 d3 -> touches_in (id :: ids) d1 d3.
Proof.
  intros [A1 B1 C1 D1 E1] [A2 C2 D2 E2]. split; [done| |congruence|congruence].
  intros i Hi Hne. rewrite C2, C1; [done|done|set_solver|done|set_solver].
Qed.

Lemma touches_in_one id ids d1 d2 : touches id d1 d2 -> touches_in (id :: ids) d1 d2.
Proof. intros [A1 B1 C1 D1 E1]. split; try done. intros i Hi Hne. apply C1; [done|set_solver]. Qed.

Definition pages_ok (pages : list (PageId * bytes)) : Prop :=
  NoDup pages.*1 /\ Forall (fun p => id_ok p.1 /\ zlen p.2 = PAGE_SIZE) pages.

(** Writing a list of pages: all of them reach the file, or the call fails. *)
Lemma write_all_pages_cases pages : forall d,
  file_ok d -> pages_ok pages ->
  (exists d', write_all_pages pages d = (Ret tt, d') /\ touches_in pages.*1 d d' /\
     (forall id p, (id, p) ∈ pages -> page_at (pf_bytes d') id = nonzero p) /\ (faults d = [] -> faults d' = [])) \/
  (exists k d', write_all_pages pages d = (Fail (Io k), d') /\ touches_in pages.*1 d d' /\ faults d <> []).
Proof.
  induction pages as [|[id p] pages IH]; intros d Hok [Hnd Hall].
  - left. exists d. split; [done|]. split; [by split|]. split; [|done]. intros id p Hin. by apply elem_of_nil in Hin.
  - cbn [write_all_pages]. apply NoDup_cons in Hnd as [Hni Hnd]. apply Forall_cons in Hall as [[Hid Hl] Hall].
    destruct (write_page_cases d id p Hok Hid Hl) as [(d1 & Hw & Ht1 & Hp & Hf1)|(k & d1 & Hw & Ht1 & Hf1)].
    + rewrite (st_bind_ret _ _ _ _ _ Hw).
      destruct (IH d1 (to_ok _ _ _ Ht1) (conj Hnd Hall)) as [(d2 & Hw2 & Ht2 & Hp2 & Hf2)|(k & d2 & Hw2 & Ht2 & Hf2)].
      * left. exists d2. split; [done|]. split; [by eapply touches_in_cons|]. split; [|auto].
        intros i q [[= -> ->]|Hin]%elem_of_cons; [|by apply Hp2].
        rewrite (ti_other _ _ _ Ht2); [done|done|done].
      * right. exists k, d2. split; [done|]. split; [by eapply touches_in_cons|]. intros E. by apply Hf2, Hf1.
    + right. exists k, d1. split; [by apply st_bind_fail|]. split; [by apply touches_in_one|done].
Qed.

(** [write_pages] is the same loop with the largest LSN on the side. *)
Definition untag (pages : list (PageId * (bytes * Z))) : list (PageId * bytes) := (fun p => (p.1, p.2.1)) <$> pages.

Definition max_of (pages : list (PageId * (bytes * Z))) (m : Z) : Z := foldl (fun m p => Z.max m p.2.2) m pages.

Lemma write_pages_eq pages : forall m d,
  write_pages pages m d = (_ ← write_all_pages (untag pages); mret (max_of pages m)) d.
Proof.
  induction pages as [|[id [p l]] pages IH]; intros m d; [done|]. cbn [write_pages untag fmap list_fmap write_all_pages].
  unfold mbind, st_bind. fold (untag pages). cbn [fst snd]. destruct (write_page id p d) as [[u|e| |] d1]; try done.
  rewrite IH. unfold mbind, st_bind. cbn [max_of foldl snd]. fold (max_of pages).
  replace (if m <? l then l else m) with (Z.max m l) by (destruct (Z.ltb_spec m l); lia). done.
Qed.

Lemma sync_cases d :
  (exists d', sync d = (Ret tt, d') /\ pf_bytes d' = pf_bytes d /\ pf_size d' = pf_size d /\ synced d' = pf_bytes d /\
     checkpoint_file d' = checkpoint_file d /\ (faults d = [] -> faults d' = [])) \/
  (exists k d', sync d = (Fail (Io k), d') /\ same_files d d' /\ faults d <> []).
Proof.
  unfold sync. destruct (sys_ok_cases d) as [(d1 & Hy & (Hb & Hz & Hs & Hc) & Hf)|(k & d1 & Hy & Hs & Hf)].
  - left. eexists. split; [rewrite (st_bind_ret _ _ _ _ _ Hy); reflexivity|]. cbn. rewrite Hb. done.
  - right. exists k, d1. split; [by apply st_bind_fail|done].
Qed.

(** ** The invariant of the store *)

Record store_ok (s : PageStore) : Prop := {
  so_file : file_ok (disk s);
  so_pool : forall id bp, buffer_pool s !! id = Some bp -> id_ok id /\ zlen (data bp) = PAGE_SIZE;
  so_clean : forall id bp, buffer_pool s !! id = Some bp -> dirty bp = false ->
    page_at (pf_bytes (disk s)) id = nonzero (data bp) /\ page_at (synced (disk s)) id = nonzero (data bp);
  so_out : forall id, id_ok id -> buffer_pool s !! id = None ->
    page_at (pf_bytes (disk s)) id = page_at (synced (disk s)) id
}.

Lemma elem_dirty_pages s id p l :
  (id, (p, l)) ∈ dirty_pages s <->
  exists bp, buffer_pool s !! id = Some bp /\ dirty bp = true /\ data bp = p /\ bp_lsn bp = l.
Proof.
  unfold dirty_pages. rewrite merge_sort_Permutation, list_elem_of_omap. split.
  - intros ([i bp] & Hin%elem_of_map_to_list & Hd). destruct (dirty bp) eqn:E; [|done]. injection Hd as -> <- <-.
    by exists bp.
  - intros (bp & Hbp & Hd & <- & <-). exists (id, bp). split; [by apply elem_of_map_to_list|]. by rewrite Hd.
Qed.

Lemma dirty_pages_nodup s : NoDup (dirty_pages s).*1.
Proof.
  unfold dirty_pages. rewrite merge_sort_Permutation.
  assert (Hs : sublist (omap (fun '(id, bp) => if dirty bp then Some (id, (data bp, bp_lsn bp)) else None)
    (map_to_list (buffer_pool s))).*1 (map_to_list (buffer_pool s)).*1).
  { induction (map_to_list (buffer_pool s)) as [|[i bp] l IH]; [done|]. cbn. destruct (dirty bp); cbn.
    - by apply sublist_skip.
    - by apply sublist_cons. }
  eapply sublist_NoDup; [|exact Hs]. apply NoDup_fst_map_to_list.
Qed.

Lemma elem_dirty_ids s id : id ∈ (dirty_pages s).*1 <-> exists bp, buffer_pool s !! id = Some bp /\ dirty bp = true.
Proof.
  rewrite list_elem_of_fmap. split.
  - intros ([i [p l]] & -> & (bp & Hb & Hd & _)%elem_dirty_pages). by exists bp.
  - intros (bp & Hb & Hd). exists (id, (data bp, bp_lsn bp)). split; [done|]. apply elem_dirty_pages. by exists bp.
Qed.

Lemma no_dirty_pages s : (forall id bp, buffer_pool s !! id = Some bp -> dirty bp = false) -> dirty_pages s = [].
Proof.
  intros H. destruct (dirty_pages s) as [|[id x] l] eqn:E; [reflexivity|exfalso].
  assert (Hin : id ∈ (dirty_pages s).*1) by (rewrite E; by left). apply elem_dirty_ids in Hin as (bp & Hb & Hd).
  rewrite (H id bp Hb) in Hd. discriminate Hd.
Qed.

Lemma untag_fst pages : (untag pages).*1 = pages.*1.
Proof. unfold untag. rewrite <-list_fmap_compose. by apply list_fmap_ext. Qed.

Lemma dirty_pages_ok s : store_ok s -> pages_ok (untag (dirty_pages s)).
Proof.
  intros Hok. split; [rewrite untag_fst; apply dirty_pages_nodup|]. unfold untag. apply Forall_fmap, Forall_forall.
  intros [id [p l]] (bp & Hb & _ & <- & _)%elem_dirty_pages. by apply (so_pool s Hok).
Qed.

Lemma lookup_clear_dirty ids : forall pool id,
  clear_dirty ids pool !! id = if bool_decide (id ∈ ids) then clean <$> pool !! id else pool !! id.
Proof.
  unfold clear_dirty. induction ids as [|i ids IH]; intros pool id; [done|]. cbn [foldl]. rewrite IH.
  destruct (decide (i = id)) as [->|Hne].
  - rewrite lookup_alter_eq, (bool_decide_eq_true_2 (id ∈ id :: ids)) by set_solver.
    case_bool_decide; [|done]. by destruct (pool !! id).
  - rewrite lookup_alter_ne by done. rewrite (bool_decide_ext (id ∈ i :: ids) (id ∈ ids)) by set_solver. done.
Qed.

Lemma flush_pages_cases d pages :
  file_ok d -> pages_ok (untag pages) ->
  (exists d', flush_pages pages d = (Ret (max_of pages 0), d') /\ file_ok d' /\ synced d' = pf_bytes d' /\
     (forall i, id_ok i -> i ∉ pages.*1 -> page_at (pf_bytes d') i = page_at (pf_bytes d) i) /\
     (forall id p l, (id, (p, l)) ∈ pages -> page_at (pf_bytes d') id = nonzero p) /\
     checkpoint_file d' = checkpoint_file d /\ (faults d = [] -> faults d' = [])) \/
  (exists k d', flush_pages pages d = (Fail (Io k), d') /\ touches_in pages.*1 d d' /\ faults d <> []).
Proof.
  intros Hok Hp. unfold flush_pages.
  destruct (write_all_pages_cases (untag pages) d Hok Hp) as [(d1 & Hw & Ht & Hin & Hf)|(k & d1 & Hw & Ht & Hf)];
    rewrite untag_fst in Ht.
  - assert (Hw' : write_pages pages 0 d = (Ret (max_of pages 0), d1)).
    { rewrite write_pages_eq, (st_bind_ret _ _ _ _ _ Hw). done. }
    rewrite (st_bind_ret _ _ _ _ _ Hw').
    destruct (sync_cases d1) as [(d2 & Hy & Hb & Hz & Hs & Hc & Hf2)|(k & d2 & Hy & Hs & Hf2)].
    + left. exists d2. split; [rewrite (st_bind_ret _ _ _ _ _ Hy); done|]. destruct Ht as [[Hz1 Hm1] Ho Hsy Hck].
      split; [split; rewrite ?Hb, ?Hz; done|]. split; [congruence|]. rewrite Hb. split; [done|].
      split; [|split; [congruence|auto]]. intros id p l Hin'. apply Hin. unfold untag.
      apply list_elem_of_fmap. by exists (id, (p, l)).
    + right. exists k, d2. split; [by apply st_bind_fail|]. destruct Ht as [[Hz1 Hm1] Ho Hsy Hck].
      destruct Hs as (Hb & Hz & Hs & Hc). split; [|intros E; by apply Hf2, Hf].
      split; [split; rewrite ?Hb, ?Hz; done|by rewrite Hb|congruence|congruence].
  - right. exists k, d1. split; [|done]. apply st_bind_fail. rewrite write_pages_eq. by apply st_bind_fail.
Qed.

(** What [write_checkpoint_state] does, and each of its suffixes. *)
Definition sets_checkpoint (lsn : Z) (m : D unit) : Prop := forall d,
  (exists d', m d = (Ret tt, d') /\ pf_bytes d' = pf_bytes d /\ pf_size d' = pf_size d /\
     synced d' = synced d /\ checkpoint_file d' = Some (le_bytes 8 lsn) /\ (faults d = [] -> faults d' = [])) \/
  (exists k d', m d = (Fail (Io k), d') /\ same_files d d' /\ faults d <> []).

Lemma sets_checkpoint_sys lsn m : sets_checkpoint lsn m -> sets_checkpoint lsn (_ ← sys_ok; m).
Proof.
  intros IH d. destruct (sys_ok_cases d) as [(d1 & Hy & (Hb & Hz & Hs & Hc) & Hf)|(k & d1 & Hy & Hs & Hf)].
  - rewrite (st_bind_ret _ _ _ _ _ Hy). destruct (IH d1) as [(d2 & Hm & ? & ? & ? & ? & ?)|(k & d2 & Hm & Hsame & Hf2)].
    + left. exists d2. split; [exact Hm|]. split_and!; try congruence. auto.
    + right. exists k, d2. split; [exact Hm|]. destruct Hsame as (? & ? & ? & ?).
      split; [split_and!; congruence|]. intros E. by apply Hf2, Hf.
  - right. exists k, d1. split; [by apply st_bind_fail|done].
Qed.

Lemma write_checkpoint_state_cases lsn : sets_checkpoint lsn (write_checkpoint_state lsn).
Proof. do 4 apply sets_checkpoint_sys. intros d. left. by eexists. Qed.

(** The last phase never fails because of the pool, only because of the checkpoint file. *)
Lemma finish_checkpoint_cases now pages m s :
  exists r s', finish_checkpoint now pages m s = (r, s') /\
    buffer_pool s' = clear_dirty pages.*1 (buffer_pool s) /\ checkpoint_lsn s' = Z.max (checkpoint_lsn s) m /\
    pf_bytes (disk s') = pf_bytes (disk s) /\ pf_size (disk s') = pf_size (disk s) /\ synced (disk s') = synced (disk s) /\
    max_page_id s' = max_page_id s /\
    ((r = Ret tt /\ (faults (disk s) = [] -> faults (disk s') = [])) \/ (exists k, r = Fail (Io k) /\ faults (disk s) <> [])).
Proof.
  unfold finish_checkpoint. set (s1 := with_pool (clear_dirty pages.*1 (buffer_pool s)) s).
  rewrite st_bind_modify. fold s1. rewrite st_bind_gets. change (checkpoint_lsn s1) with (checkpoint_lsn s).
  destruct (Z.ltb_spec (checkpoint_lsn s) m) as [Hlt|Hge].
  - set (s2 := with_checkpoint_lsn m s1).
    destruct (write_checkpoint_state_cases m (disk s)) as [(d & Hw & Hb & Hz & Hs & Hc & Hf)|(k & d & Hw & (Hb & Hz & Hs & Hc) & Hf)].
    + eexists _, _. split.
      { erewrite (st_bind_ret _ _ s1 tt (with_disk d s2)); [reflexivity|].
        rewrite st_bind_modify. fold s2. unfold on_disk.
        change (disk s2) with (disk s). by rewrite Hw. }
      cbn. split_and!; try done; [lia|by left].
    + eexists _, _. split.
      { apply (st_bind_fail _ _ s1 (Io k) (with_disk d s2)).
        rewrite st_bind_modify. fold s2. unfold on_disk.
        change (disk s2) with (disk s). by rewrite Hw. }
      cbn. split_and!; try done; [lia|right; by exists k].
  - eexists _, _. split; [reflexivity|]. cbn. split_and!; try done; [lia|by left].
Qed.

(** What every checkpoint keeps, and what a successful one achieves. *)
Record checkpointed (s s' : PageStore) : Prop := {
  cp_ok : store_ok s';
  cp_data : forall id, data <$> buffer_pool s' !! id = data <$> buffer_pool s !! id;
  cp_lsn : checkpoint_lsn s <= checkpoint_lsn s';
  cp_max : max_page_id s' = max_page_id s;
  cp_out : forall id, id_ok id -> buffer_pool s !! id = None -> page_at (pf_bytes (disk s')) id = page_at (pf_bytes (disk s)) id
}.

Lemma max_of_le pages : forall m, m <= max_of pages m /\ forall id p l, (id, (p, l)) ∈ pages -> l <= max_of pages m.
Proof.
  induction pages as [|[i [q x]] pages IH]; intros m; cbn.
  - split; [lia|]. intros id p l Hin. by apply elem_of_nil in Hin.
  - fold (max_of pages (Z.max m x)). destruct (IH (Z.max m x)) as [H1 H2]. split; [lia|].
    intros id p l [[= -> -> ->]|Hin]%elem_of_cons; [lia|by eapply H2].
Qed.

Lemma checkpoint_cases now s :
  store_ok s ->
  exists r s', checkpoint now s = (r, s') /\ checkpointed s s' /\
    ((r = Ret tt /\ (faults (disk s) = [] -> faults (disk s') = []) /\
      (forall id bp, buffer_pool s' !! id = Some bp -> dirty bp = false) /\
      (forall id bp, buffer_pool s !! id = Some bp -> dirty bp = true -> bp_lsn bp <= checkpoint_lsn s')) \/
     (exists k, r = Fail (Io k) /\ faults (disk s) <> [])).
Proof.
  intros Hok. unfold checkpoint.
  rewrite st_bind_gets.
  case_bool_decide as Hnil.
  { exists (Ret tt), s. split; [done|]. split; [by split|]. left. split_and!; try done.
    - intros id bp Hb. destruct (dirty bp) eqn:E; [|done]. exfalso.
      assert (Hin : id ∈ (dirty_pages s).*1) by (apply elem_dirty_ids; by exists bp). rewrite Hnil in Hin. by apply elem_of_nil in Hin.
    - intros id bp Hb Hd. exfalso.
      assert (Hin : id ∈ (dirty_pages s).*1) by (apply elem_dirty_ids; by exists bp). rewrite Hnil in Hin. by apply elem_of_nil in Hin. }
  destruct (flush_pages_cases (disk s) (dirty_pages s) (so_file s Hok) (dirty_pages_ok s Hok))
    as [(d & Hf & Hfo & Hsy & Hother & Hin & Hck & Hfl)|(k & d & Hf & [Hfo Hother Hsy Hck] & Hfl)].
  - set (s1 := with_disk d s).
    assert (Hd : on_disk (flush_pages (dirty_pages s)) s = (Ret (max_of (dirty_pages s) 0), s1)) by (unfold on_disk; by rewrite Hf).
    rewrite (st_bind_ret _ _ _ _ _ Hd).
    destruct (finish_checkpoint_cases now (dirty_pages s) (max_of (dirty_pages s) 0) s1)
      as (r & s2 & -> & Hp & Hl & Hb & Hz & Hs & Hmx & Hr).
    cbn [s1 with_disk disk buffer_pool checkpoint_lsn] in Hp, Hl, Hb, Hz, Hs, Hr.
    exists r, s2. split; [done|].
    assert (Hclean : forall id bp, buffer_pool s2 !! id = Some bp -> exists bp0, buffer_pool s !! id = Some bp0 /\
      data bp = data bp0 /\ dirty bp = false).
    { intros id bp. rewrite Hp, lookup_clear_dirty. case_bool_decide as Hi.
      - apply elem_dirty_ids in Hi as (b0 & Hb0 & _). rewrite Hb0. intros [= <-]. by exists b0.
      - intros Hbp. exists bp. split; [done|]. split; [done|]. destruct (dirty bp) eqn:E; [|done].
        exfalso. apply Hi, elem_dirty_ids. by exists bp. }
    assert (Hdisk : forall id bp, buffer_pool s2 !! id = Some bp -> page_at (pf_bytes d) id = nonzero (data bp)).
    { intros id bp Hbp. destruct (Hclean id bp Hbp) as (b0 & Hb0 & -> & _). destruct (dirty b0) eqn:E.
      - apply (Hin id (data b0) (bp_lsn b0)), elem_dirty_pages. by exists b0.
      - rewrite Hother; [by apply (so_clean s Hok)|by eapply (so_pool s Hok)|].
        intros (b1 & Hb1 & Hd1)%elem_dirty_ids. simplify_eq. congruence. }
    split; [split|].
    + split.
      * destruct Hfo as [Hz' Hm']. split; rewrite ?Hz, ?Hb; done.
      * intros id bp Hbp. destruct (Hclean id bp Hbp) as (b0 & Hb0 & -> & _). by apply (so_pool s Hok).
      * intros id bp Hbp _. rewrite Hb, Hs, Hsy. by rewrite (Hdisk id bp Hbp).
      * intros id _ _. by rewrite Hb, Hs, Hsy.
    + intros id. rewrite Hp, lookup_clear_dirty. case_bool_decide; [|done]. by destruct (buffer_pool s !! id).
    + rewrite Hl. lia.
    + exact Hmx.
    + intros id Hid Hno. rewrite Hb. apply Hother; [exact Hid|]. intros (b1 & Hb1 & _)%elem_dirty_ids. congruence.
    + destruct Hr as [[-> Hr]|(k & -> & Hr)]; [left|right; exists k; split; [done|auto]].
      split; [done|]. split; [auto|]. split; [by intros id bp (b0 & _ & _ & Hb0)%Hclean|].
      intros id bp Hbp Hdi. rewrite Hl. destruct (max_of_le (dirty_pages s) 0) as [_ Hm].
      specialize (Hm id (data bp) (bp_lsn bp) ltac:(apply elem_dirty_pages; by exists bp)). lia.
  - exists (Fail (Io k)), (with_disk d s). split.
    { apply st_bind_fail. unfold on_disk. by rewrite Hf. }
    split; [split; [|done|cbn; lia|done|]|right; by exists k].
    2: { intros id Hid Hno. apply Hother; [exact Hid|]. intros (b1 & Hb1 & _)%elem_dirty_ids. congruence. }
    split; cbn [with_disk disk buffer_pool]; [done|apply (so_pool s Hok)| |].
    + intros id bp Hbp Hcl. rewrite Hsy, Hother; [by apply (so_clean s Hok)|by eapply (so_pool s Hok)|].
      intros (b1 & Hb1 & Hd1)%elem_dirty_ids. simplify_eq. congruence.
    + intros id Hid Hno. rewrite Hsy, Hother; [by apply (so_out s Hok)|done|].
      intros (b1 & Hb1 & Hd1)%elem_dirty_ids. simplify_eq.
Qed.

(** ** Reads and writes *)

(** What a reader sees when no call fails. *)
Definition contents (s : PageStore) (id : PageId) : option Page :=
  match buffer_pool s !! id with
  | Some bp => Some (data bp)
  | None => page_at (pf_bytes (disk s)) id
  end.

Lemma read_page_cases d id :
  file_ok d -> id_ok id ->
  exists r d', read_page id d = (r, d') /\ same_files d d' /\ (faults d = [] -> faults d' = []) /\
    (r = Ret (page_at (pf_bytes d) id) \/ (faults d <> [] /\ (r = Ret None \/ exists k, r = Fail (Io k)))).
Proof.
  intros [Hs Hw] Hid. destruct (offset_ok id Hid) as [Ho Hr]. assert (Hid' := Hid). unfold id_ok, MAX_ID in Hid'.
  unfold read_page, page_at. rewrite Ho, Hr, st_bind_gets, Hs.
  destruct (Z.ltb_spec (zlen (pf_bytes d)) ((id + 1) * PAGE_SIZE)) as [Hlt|Hge].
  { eexists _, d. split; [reflexivity|]. split; [done|]. split; [done|]. by left. }
  destruct (sys_ok_cases d) as [(d1 & Hy & Hs1 & Hf1)|(k & d1 & Hy & Hs1 & Hf1)].
  2: { exists (Fail (Io k)), d1. split; [by apply st_bind_fail|]. split; [done|]. split; [done|]. right.
       split; [done|]. right. by exists k. }
  rewrite (st_bind_ret _ _ _ _ _ Hy). unfold page_of_read, read_at.
  destruct (sys_cases d1) as (f & d2 & Hy2 & Hs2 & Hf2). rewrite (st_bind_ret _ _ _ _ _ Hy2).
  assert (Hs12 : same_files d d2) by (destruct Hs1 as (? & ? & ? & ?), Hs2 as (? & ? & ? & ?); split_and!; congruence).
  destruct f as [f|].
  - assert (Hne : faults d <> []) by (intros E; destruct (Hf2 (Hf1 E)); done).
    unfold throw. destruct (fault_kind f); eexists _, d2; (split; [reflexivity|]); (split; [done|]); (split; [done|]); right;
      (split; [done|]); eauto.
  - rewrite st_bind_gets. destruct Hs12 as (Hb & ? & ? & ?). rewrite Hb.
    destruct (Z.ltb_spec (zlen (pf_bytes d)) (id * PAGE_SIZE + PAGE_SIZE)); [lia|]. cbn [mret st_ret].
    eexists _, d2. split; [|split; [done|split; [intros E; apply Hf2, Hf1, E|left; reflexivity]]].
    unfold nonzero, zero_page. by destruct (forallb _ _).
Qed.

(** The invariant only looks at the data and the dirty flags of the pool. *)
Definition same_pages (s s' : PageStore) : Prop :=
  forall i, (fun b => (data b, dirty b)) <$> buffer_pool s' !! i = (fun b => (data b, dirty b)) <$> buffer_pool s !! i.

Lemma same_pages_lookup s s' i b :
  same_pages s s' -> buffer_pool s' !! i = Some b ->
  exists b0, buffer_pool s !! i = Some b0 /\ data b = data b0 /\ dirty b = dirty b0.
Proof.
  intros H Hb. specialize (H i). rewrite Hb in H. destruct (buffer_pool s !! i) as [b0|]; [|discriminate H].
  injection H as H1 H2. by exists b0.
Qed.

Lemma same_pages_none s s' i : same_pages s s' -> buffer_pool s' !! i = None -> buffer_pool s !! i = None.
Proof. intros H Hb. specialize (H i). rewrite Hb in H. by destruct (buffer_pool s !! i). Qed.

Lemma store_ok_same s s' :
  store_ok s -> same_pages s s' -> same_files (disk s) (disk s') -> store_ok s'.
Proof.
  intros [Hf Hp Hc Ho] Hpool (Hb & Hz & Hs & Hk). split.
  - destruct Hf as [Hf1 Hf2]. split; rewrite ?Hb, ?Hz; assumption.
  - intros i b Hi. destruct (same_pages_lookup _ _ _ _ Hpool Hi) as (b0 & Hb0 & -> & _). exact (Hp i b0 Hb0).
  - intros i b Hi. destruct (same_pages_lookup _ _ _ _ Hpool Hi) as (b0 & Hb0 & -> & ->). rewrite Hb, Hs. exact (Hc i b0 Hb0).
  - intros i Hi Hn. rewrite Hb, Hs. apply Ho; [assumption|]. exact (same_pages_none _ _ _ Hpool Hn).
Qed.

Lemma contents_same s s' i : same_pages s s' -> same_files (disk s) (disk s') -> contents s' i = contents s i.
Proof.
  intros H (Hb & _). unfold contents. specialize (H i). rewrite Hb.
  destruct (buffer_pool s' !! i), (buffer_pool s !! i); try discriminate H; [|reflexivity]. injection H as -> _. reflexivity.
Qed.

Lemma same_pages_touch now id bp s n :
  buffer_pool s !! id = Some bp ->
  same_pages s (with_hits n (with_pool (<[id := touch now bp]> (buffer_pool s)) s)).
Proof.
  intros Hbp i. cbn [with_hits with_pool buffer_pool]. destruct (decide (id = i)) as [<-|].
  - rewrite lookup_insert_eq, Hbp. reflexivity.
  - rewrite lookup_insert_ne by assumption. reflexivity.
Qed.

Lemma get_with_lsn_cases now id s :
  store_ok s -> id_ok id ->
  exists r s', get_with_lsn now id s = (r, s') /\ store_ok s' /\ (forall i, contents s' i = contents s i) /\
    (fst <$> r = contents s id \/ (r = None /\ faults (disk s) <> [])) /\
    (faults (disk s) = [] -> faults (disk s') = []) /\ synced (disk s') = synced (disk s) /\ max_page_id s' = max_page_id s.
Proof.
  intros Hok Hid. unfold get_with_lsn. destruct (buffer_pool s !! id) as [bp|] eqn:Hbp.
  - eexists _, _. split; [reflexivity|]. pose proof (same_pages_touch now id bp s (wrap64 (cache_hits s + 1)) Hbp) as Hsp.
    split; [apply (store_ok_same s _ Hok Hsp); split_and!; reflexivity|].
    split; [intros i; apply (contents_same s _ i Hsp); split_and!; reflexivity|].
    split; [left; unfold contents; rewrite Hbp; reflexivity|split_and!; [trivial|reflexivity|reflexivity]].
  - destruct (read_page_cases (disk s) id (so_file s Hok) Hid) as (r & d & Hr & Hsame & Hf & Hcase).
    unfold on_disk. rewrite Hr. eexists _, _. split; [reflexivity|].
    split; [apply (store_ok_same s _ Hok); [intros i; reflexivity|exact Hsame]|].
    split; [intros i; apply (contents_same s); [intros j; reflexivity|exact Hsame]|].
    split; [|split_and!; [exact Hf|apply Hsame|reflexivity]]. unfold contents. rewrite Hbp.
    destruct Hcase as [->|[Hfl [->|(k & ->)]]]; [left; by destruct (page_at _ _)|by right|by right].
Qed.

Definition put_page (now : Z) (id : PageId) (p : bytes) (l : Z) (s : PageStore) : PageStore :=
  with_max_page_id (Z.max (max_page_id s) id)
    (with_pool (<[id := {| data := p; dirty := true; bp_lsn := l; last_accessed := now |}]> (buffer_pool s)) s).

Lemma put_eq now id p l s : zlen p = PAGE_SIZE -> put now id p l s = (Ret tt, put_page now id p l s).
Proof. intros Hl. unfold put, from_slice. rewrite Hl, Z.eqb_refl. reflexivity. Qed.

Lemma put_ok now id p l s :
  store_ok s -> id_ok id -> zlen p = PAGE_SIZE ->
  exists s', put now id p l s = (Ret tt, s') /\ store_ok s' /\ disk s' = disk s /\
    (forall i, contents s' i = if bool_decide (i = id) then Some p else contents s i).
Proof.
  intros Hok Hid Hl. set (bp := {| data := p; dirty := true; bp_lsn := l; last_accessed := now |}).
  exists (put_page now id p l s). split; [by apply put_eq|]. unfold put_page. fold bp.
  assert (Hlk : forall i b, <[id := bp]> (buffer_pool s) !! i = Some b ->
    (i = id /\ b = bp) \/ buffer_pool s !! i = Some b).
  { intros i b. destruct (decide (id = i)) as [<-|].
    - rewrite lookup_insert_eq. intros [= <-]. by left.
    - rewrite lookup_insert_ne by assumption. by right. }
  split; [|split; [reflexivity|]].
  - destruct Hok as [Hf Hp Hc Ho]. split; cbn [with_max_page_id with_pool disk buffer_pool]; [assumption| | |].
    + intros i b [[-> ->]|Hb]%Hlk; [split; assumption|exact (Hp i b Hb)].
    + intros i b [[-> ->]|Hb]%Hlk; [intros Hd; discriminate Hd|exact (Hc i b Hb)].
    + intros i Hi Hn. apply Ho; [assumption|]. by apply lookup_insert_None in Hn as [Hn _].
  - intros i. unfold contents. cbn [with_max_page_id with_pool buffer_pool disk]. case_bool_decide as E.
    + subst i. by rewrite lookup_insert_eq.
    + by rewrite lookup_insert_ne.
Qed.

Lemma nonzero_idemp p : nonzero p ≫= nonzero = nonzero p.
Proof. unfold nonzero. destruct (zero_page p) eqn:E; [done|]. cbn. by rewrite E. Qed.

Lemma page_at_idemp b id : page_at b id = page_at b id ≫= nonzero.
Proof. unfold page_at. destruct (_ <? _); [done|]. by rewrite nonzero_idemp. Qed.

Lemma page_at_len b id p : 0 <= id -> page_at b id = Some p -> zlen p = PAGE_SIZE.
Proof.
  unfold page_at, nonzero. intros Hid. destruct (Z.ltb_spec (zlen b) ((id + 1) * PAGE_SIZE)) as [|Hge]; [done|].
  destruct (zero_page _); [done|]. intros [= <-]. apply zlen_sub; unfold PAGE_SIZE in *; lia.
Qed.

Lemma contents_len s id p : store_ok s -> id_ok id -> contents s id = Some p -> zlen p = PAGE_SIZE.
Proof.
  intros Hok [Hid _]. unfold contents. destruct (buffer_pool s !! id) as [bp|] eqn:E.
  - intros [= <-]. apply (so_pool s Hok id bp E).
  - by apply page_at_len.
Qed.

(** ** Eviction *)

#[local] Opaque page_at nonzero.

Lemma elem_candidates order pool id t d :
  (id, (t, d)) ∈ candidates order pool <->
  id ∈ order /\ exists bp, pool !! id = Some bp /\ last_accessed bp = t /\ dirty bp = d.
Proof.
  unfold candidates. rewrite merge_sort_Permutation, list_elem_of_omap. split.
  - intros (i & Hin & Hd). destruct (pool !! i) as [bp|] eqn:E; [|discriminate Hd]. injection Hd as -> <- <-.
    split; [done|]. by exists bp.
  - intros (Hin & bp & Hbp & <- & <-). exists id. split; [done|]. by rewrite Hbp.
Qed.

Lemma candidates_ids order pool :
  (forall i, i ∈ order -> is_Some (pool !! i)) -> (candidates order pool).*1 ≡ₚ order.
Proof.
  intros Hall. unfold candidates. rewrite merge_sort_Permutation.
  induction order as [|i order IH]; [done|]. cbn.
  destruct (Hall i ltac:(by left)) as [bp ->]. cbn. rewrite IH; [done|]. intros j Hj. apply Hall. by right.
Qed.

Lemma elem_to_flush victims pool id p :
  (id, p) ∈ to_flush victims pool <->
  exists t bp, (id, (t, true)) ∈ victims /\ pool !! id = Some bp /\ data bp = p.
Proof.
  unfold to_flush. rewrite list_elem_of_omap. split.
  - intros ([i [t d]] & Hin & Hd). destruct d; [|discriminate Hd]. destruct (pool !! i) as [bp|] eqn:E; [|discriminate Hd].
    injection Hd as -> <-. by exists t, bp.
  - intros (t & bp & Hin & Hbp & <-). exists (id, (t, true)). split; [done|]. by rewrite Hbp.
Qed.

Lemma to_flush_ids victims pool : sublist (to_flush victims pool).*1 victims.*1.
Proof.
  induction victims as [|[i [t d]] l IH]; [done|]. unfold to_flush. cbn. destruct d; [|by apply sublist_cons].
  destruct (pool !! i); cbn; [by apply sublist_skip|by apply sublist_cons].
Qed.

Lemma flush_victims_cases d pages :
  file_ok d -> pages_ok pages ->
  (exists d', flush_victims pages d = (Ret tt, d') /\ file_ok d' /\
     (pages = [] /\ d' = d \/ synced d' = pf_bytes d') /\
     (forall i, id_ok i -> i ∉ pages.*1 -> page_at (pf_bytes d') i = page_at (pf_bytes d) i) /\
     (forall id p, (id, p) ∈ pages -> page_at (pf_bytes d') id = nonzero p) /\ (faults d = [] -> faults d' = [])) \/
  (exists k d', flush_victims pages d = (Fail (Io k), d') /\ touches_in pages.*1 d d' /\ faults d <> []).
Proof.
  intros Hok Hp. unfold flush_victims. case_bool_decide as Hnil.
  { left. exists d. subst pages. split; [done|]. split; [done|]. split; [by left|]. split; [done|]. split; [|done].
    intros id p Hin. by apply elem_of_nil in Hin. }
  destruct (write_all_pages_cases pages d Hok Hp) as [(d1 & Hw & Ht & Hin & Hf)|(k & d1 & Hw & Ht & Hf)].
  - rewrite (st_bind_ret _ _ _ _ _ Hw). destruct Ht as [[Hz1 Hm1] Ho Hsy Hck].
    destruct (sync_cases d1) as [(d2 & Hy & Hb & Hz & Hs & Hc & Hf2)|(k & d2 & Hy & (Hb & Hz & Hs & Hc) & Hf2)].
    + left. exists d2. split; [done|]. split; [split; rewrite ?Hb, ?Hz; done|]. split; [right; congruence|].
      rewrite Hb. split; [done|]. split; [done|auto].
    + right. exists k, d2. split; [done|]. split; [|intros E; by apply Hf2, Hf].
      split; [split; rewrite ?Hb, ?Hz; done|by rewrite Hb|congruence|congruence].
  - right. exists k, d1. split; [by apply st_bind_fail|done].
Qed.

Lemma remove_victims_eq ids : forall pool n,
  NoDup ids -> (forall i, i ∈ ids -> is_Some (pool !! i)) ->
  exists pool', remove_victims ids pool n = (pool', n + zlen ids) /\
    (forall i, pool' !! i = if bool_decide (i ∈ ids) then None else pool !! i) /\
    Z.of_nat (size pool') = Z.of_nat (size pool) - zlen ids.
Proof.
  induction ids as [|i ids IH]; intros pool n Hnd Hall; cbn [remove_victims].
  - exists pool. split; [by rewrite Z.add_0_r|]. split; [done|]. unfold zlen. cbn. lia.
  - destruct (Hall i ltac:(by left)) as [bp Hbp]. rewrite Hbp. apply NoDup_cons in Hnd as [Hni Hnd].
    destruct (IH (base.delete i pool) (n + 1)) as (pool' & -> & Hl & Hs); [done| |].
    { intros j Hj. rewrite lookup_delete_ne by (intros ->; done). apply Hall. by right. }
    exists pool'. split; [f_equal; unfold zlen; cbn; lia|]. split.
    + intros j. rewrite Hl. destruct (decide (i = j)) as [<-|Hne].
      * rewrite (bool_decide_eq_true_2 (i ∈ i :: ids)) by (by left). case_bool_decide; [done|]. apply lookup_delete_eq.
      * rewrite (bool_decide_ext (j ∈ i :: ids) (j ∈ ids)) by set_solver. by rewrite lookup_delete_ne.
    + rewrite Hs, map_size_delete, Hbp. cbn [length].
      assert (size pool <> 0%nat) by (intros E%map_size_empty_iff; subst; by rewrite lookup_empty in Hbp). unfold zlen. cbn. lia.
Qed.

(** The pages an eviction chooses. *)
Definition victims_of (order : list PageId) (config : BufferPoolConfig) (s : PageStore) : list (PageId * (Z * bool)) :=
  take (Z.to_nat (Z.of_nat (size (buffer_pool s)) - max_pages config + eviction_batch_size config))
    (candidates order (buffer_pool s)).

Section Evict.
Context (order : list PageId) (config : BufferPoolConfig) (s : PageStore).
Hypothesis Hok : store_ok s.
Hypothesis Horder : order ≡ₚ keys s.

Lemma order_in_pool i : i ∈ order <-> is_Some (buffer_pool s !! i).
Proof using Horder.
  rewrite Horder. unfold keys. rewrite list_elem_of_fmap. split.
  - intros ([j bp] & -> & Hin%elem_of_map_to_list). by exists bp.
  - intros [bp Hbp]. exists (i, bp). split; [done|]. by apply elem_of_map_to_list.
Qed.

Lemma elem_victims id t d :
  (id, (t, d)) ∈ victims_of order config s ->
  exists bp, buffer_pool s !! id = Some bp /\ last_accessed bp = t /\ dirty bp = d.
Proof using Type.
  intros Hin. apply (subseteq_take _ _ _) in Hin. by apply elem_candidates in Hin as [_ ?].
Qed.

Lemma elem_victim_ids id :
  id ∈ (victims_of order config s).*1 ->
  exists bp, buffer_pool s !! id = Some bp /\ (id, (last_accessed bp, dirty bp)) ∈ victims_of order config s.
Proof using Type.
  intros ([i [t d]] & -> & Hin)%list_elem_of_fmap. destruct (elem_victims _ _ _ Hin) as (bp & Hbp & <- & <-). by exists bp.
Qed.

Lemma victims_nodup : NoDup (victims_of order config s).*1.
Proof using Horder.
  unfold victims_of. rewrite fmap_take. eapply sublist_NoDup; [|apply sublist_take].
  rewrite candidates_ids by (intros i; apply order_in_pool). rewrite Horder. apply NoDup_fst_map_to_list.
Qed.

Lemma victims_len :
  zlen (victims_of order config s) =
  Z.min (Z.max 0 (Z.of_nat (size (buffer_pool s)) - max_pages config + eviction_batch_size config)) (Z.of_nat (size (buffer_pool s))).
Proof using Horder.
  assert (Hl : length (candidates order (buffer_pool s)) = size (buffer_pool s)).
  { rewrite <-(length_fmap fst), candidates_ids by (intros i; apply order_in_pool).
    rewrite Horder. unfold keys. rewrite length_fmap. by rewrite length_map_to_list. }
  unfold zlen, victims_of. rewrite length_take, Hl. lia.
Qed.

Lemma flushed_ok : pages_ok (to_flush (victims_of order config s) (buffer_pool s)).
Proof using Hok Horder.
  split; [eapply sublist_NoDup; [apply victims_nodup|apply to_flush_ids]|].
  apply Forall_forall. intros [id p] (t & bp & _ & Hbp & <-)%elem_to_flush. exact (so_pool s Hok id bp Hbp).
Qed.

Lemma flushed_dirty id : id ∈ (to_flush (victims_of order config s) (buffer_pool s)).*1 ->
  exists bp, buffer_pool s !! id = Some bp /\ dirty bp = true.
Proof using Type.
  intros ([i p] & -> & (t & bp & Hin & Hbp & _)%elem_to_flush)%list_elem_of_fmap.
  destruct (elem_victims _ _ _ Hin) as (b & Hb & _ & Hd). exists b. by rewrite <-Hb.
Qed.

(** A page that stays was used at least as recently as every page that goes. *)
Lemma victims_oldest id bp i b :
  id ∈ (victims_of order config s).*1 -> buffer_pool s !! id = Some bp ->
  i ∉ (victims_of order config s).*1 -> buffer_pool s !! i = Some b ->
  last_accessed bp <= last_accessed b.
Proof using Horder.
  intros (bp' & Hbp & Hv)%elem_victim_ids Hbp' Hni Hb. rewrite Hbp in Hbp'. injection Hbp' as ->.
  assert (Hc : (i, (last_accessed b, dirty b)) ∈ candidates order (buffer_pool s)).
  { apply elem_candidates. split; [apply order_in_pool; by exists b|by exists b]. }
  unfold victims_of in Hv, Hni. set (n := Z.to_nat _) in Hv, Hni.
  rewrite <-(take_drop n (candidates order (buffer_pool s))) in Hc. apply elem_of_app in Hc as [Hc|Hc].
  { exfalso. apply Hni, list_elem_of_fmap. by exists (i, (last_accessed b, dirty b)). }
  assert (Hs : StronglySorted by_age (candidates order (buffer_pool s))).
  { apply StronglySorted_merge_sort; [intros x y z; unfold by_age; lia|intros x y; unfold by_age; lia]. }
  rewrite <-(take_drop n (candidates order (buffer_pool s))) in Hs.
  apply StronglySorted_app in Hs as (Hs & _ & _). exact (Hs _ _ Hv Hc).
Qed.

(** What an eviction keeps. *)
Record evicted (s' : PageStore) : Prop := {
  ev_ok : store_ok s';
  ev_contents : forall id, id_ok id -> contents s' id ≫= nonzero = contents s id ≫= nonzero
}.

Lemma evict_failed d :
  touches_in (to_flush (victims_of order config s) (buffer_pool s)).*1 (disk s) d -> evicted (with_disk d s).
Proof using Hok Horder.
  intros [Hfo Hother Hsy Hck].
  assert (Hkeep : forall id, id_ok id -> (forall bp, buffer_pool s !! id = Some bp -> dirty bp = false) ->
    page_at (pf_bytes d) id = page_at (pf_bytes (disk s)) id).
  { intros id Hid Hcl. apply Hother; [done|]. intros (bp & Hbp & Hd)%flushed_dirty. rewrite (Hcl bp Hbp) in Hd. done. }
  split.
  - split; cbn [with_disk disk buffer_pool]; [done|apply (so_pool s Hok)| |].
    + intros id bp Hbp Hcl. rewrite Hsy, Hkeep; [exact (so_clean s Hok id bp Hbp Hcl)|exact (proj1 (so_pool s Hok id bp Hbp))|].
      intros b Hb. rewrite Hbp in Hb. by injection Hb as <-.
    + intros id Hid Hn. rewrite Hsy, Hkeep; [exact (so_out s Hok id Hid Hn)|done|]. intros b Hb. by rewrite Hn in Hb.
  - intros id Hid. unfold contents. cbn [with_disk disk buffer_pool]. destruct (buffer_pool s !! id) as [bp|] eqn:Hbp; [done|].
    rewrite Hkeep; [done|done|]. intros b Hb. by rewrite Hbp in Hb.
Qed.

Lemma evict_done d pool' :
  file_ok d ->
  (to_flush (victims_of order config s) (buffer_pool s) = [] /\ d = disk s \/ synced d = pf_bytes d) ->
  (forall i, id_ok i -> i ∉ (to_flush (victims_of order config s) (buffer_pool s)).*1 ->
     page_at (pf_bytes d) i = page_at (pf_bytes (disk s)) i) ->
  (forall id p, (id, p) ∈ to_flush (victims_of order config s) (buffer_pool s) -> page_at (pf_bytes d) id = nonzero p) ->
  (forall i, pool' !! i = if bool_decide (i ∈ (victims_of order config s).*1) then None else buffer_pool s !! i) ->
  evicted (with_pool pool' (with_disk d s)).
Proof using Hok Horder.
  intros Hfo Hsy Hother Hin Hpool.
  assert (Hgone : forall id bp, id ∈ (victims_of order config s).*1 -> buffer_pool s !! id = Some bp ->
    page_at (pf_bytes d) id = nonzero (data bp)).
  { intros id bp (b & Hb & Hv)%elem_victim_ids Hbp. rewrite Hb in Hbp. injection Hbp as ->. destruct (dirty bp) eqn:Hd.
    - apply Hin, elem_to_flush. by exists (last_accessed bp), bp.
    - rewrite Hother; [exact (proj1 (so_clean s Hok id bp Hb Hd))|exact (proj1 (so_pool s Hok id bp Hb))|].
      intros (b & Hb' & Hd')%flushed_dirty. rewrite Hb in Hb'. injection Hb' as <-. congruence. }
  assert (Hrest : forall id, id_ok id -> id ∉ (victims_of order config s).*1 ->
    page_at (pf_bytes d) id = page_at (pf_bytes (disk s)) id).
  { intros id Hid Hni. apply Hother; [done|]. intros Hf. apply Hni.
    exact (elem_of_sublist _ _ _ Hf (to_flush_ids _ _)). }
  split.
  - split; cbn [with_disk with_pool disk buffer_pool]; [done| | |]; intros id bp; rewrite Hpool;
      case_bool_decide as Hv.
    + intros [=].
    + apply (so_pool s Hok).
    + intros [=].
    + intros Hbp Hcl. destruct (so_clean s Hok id bp Hbp Hcl) as [H1 H2]. destruct (so_pool s Hok id bp Hbp) as [Hid _].
      destruct Hsy as [[_ E]|E]; rewrite E; [exact (conj H1 H2)|]. rewrite Hrest by assumption. exact (conj H1 H1).
    + intros _. destruct Hsy as [[Hnil E]|E]; rewrite E; [|reflexivity]. destruct (elem_victim_ids id Hv) as (b & Hb & Hin').
      assert (Hd : dirty b = false \/ dirty b = true) by (destruct (dirty b); auto). destruct Hd as [Hd|Hd].
      * destruct (so_clean s Hok id b Hb Hd) as [H1 H2]. rewrite H1, H2. reflexivity.
      * exfalso. assert (Hf : (id, data b) ∈ to_flush (victims_of order config s) (buffer_pool s)).
        { apply elem_to_flush. exists (last_accessed b), b. by rewrite Hd in Hin'. }
        rewrite Hnil in Hf. by apply elem_of_nil in Hf.
    + intros Hn. destruct Hsy as [[_ E]|E]; rewrite E; [exact (so_out s Hok id bp Hn)|reflexivity].
  - intros id Hid. unfold contents. cbn [with_disk with_pool disk buffer_pool]. rewrite Hpool.
    case_bool_decide as Hv; [|destruct (buffer_pool s !! id); [done|by rewrite Hrest]].
    destruct (elem_victim_ids id Hv) as (b & Hb & _). rewrite Hb, (Hgone id b Hv Hb). cbn. apply nonzero_idemp.
Qed.

Lemma evict_cold_pages_cases :
  0 <= max_pages config ->
  0 <= eviction_batch_size config ->
  exists r s', evict_cold_pages order config s = (r, s') /\ evicted s' /\
    ((exists n, r = Ret n /\ (faults (disk s) = [] -> faults (disk s') = []) /\
        Z.of_nat (size (buffer_pool s')) = Z.of_nat (size (buffer_pool s)) - n /\
        Z.of_nat (size (buffer_pool s')) <= max_pages config /\
        (forall id bp i b, buffer_pool s !! id = Some bp -> buffer_pool s' !! id = None -> buffer_pool s' !! i = Some b ->
           last_accessed bp <= last_accessed b)) \/
     (exists k, r = Fail (Io k) /\ faults (disk s) <> [] /\ buffer_pool s' = buffer_pool s)).
Proof using Hok Horder.
  intros Hmax Hbatch. unfold evict_cold_pages. rewrite st_bind_gets. destruct (Z.leb_spec (Z.of_nat (size (buffer_pool s))) (max_pages config)) as [Hle|Hgt].
  { exists (Ret 0), s. split; [done|]. split; [by split|]. left. exists 0. split; [done|]. split; [done|].
    split; [lia|]. split; [lia|]. intros id bp i b Hs Hn. by rewrite Hs in Hn. }
  cbn zeta. fold (victims_of order config s).
  destruct (flush_victims_cases (disk s) _ (so_file s Hok) flushed_ok)
    as [(d & Hf & Hfo & Hsy & Hother & Hin & Hfl)|(k & d & Hf & Ht & Hfl)].
  - assert (Hd : on_disk (flush_victims (to_flush (victims_of order config s) (buffer_pool s))) s = (Ret tt, with_disk d s)).
    { unfold on_disk. by rewrite Hf. }
    rewrite (st_bind_ret _ _ _ _ _ Hd), st_bind_gets. cbn [with_disk buffer_pool].
    destruct (remove_victims_eq (victims_of order config s).*1 (buffer_pool s) 0 victims_nodup)
      as (pool' & -> & Hl & Hsz).
    { intros i (b & Hb & _)%elem_victim_ids. by exists b. }
    eexists _, _. split; [rewrite st_bind_modify; reflexivity|]. fold (with_disk d s).
    split; [by apply evict_done|]. left. eexists. split; [reflexivity|]. cbn [with_pool with_disk disk buffer_pool].
    split; [exact Hfl|]. pose proof victims_len as Hvl.
    assert (Hz : zlen (victims_of order config s).*1 = zlen (victims_of order config s)) by (unfold zlen; by rewrite length_fmap).
    rewrite Hsz. split; [lia|]. split; [lia|]. intros id bp i b Hbp. rewrite !Hl.
    case_bool_decide as H1; [|intros Hn; by rewrite Hbp in Hn]. intros _.
    case_bool_decide as H2; [intros [=]|]. intros Hb. by apply (victims_oldest id bp i b).
  - exists (Fail (Io k)), (with_disk d s). split; [apply st_bind_fail; unfold on_disk; by rewrite Hf|].
    split; [by apply evict_failed|]. right. by exists k.
Qed.

End Evict.

Lemma checkpoint_contents s s' id : id_ok id -> checkpointed s s' -> contents s' id = contents s id.
Proof.
  intros Hid [_ Hd _ _ Hout]. unfold contents. specialize (Hd id). specialize (Hout id Hid).
  destruct (buffer_pool s' !! id), (buffer_pool s !! id); try discriminate Hd.
  - injection Hd as ->. reflexivity.
  - exact (Hout eq_refl).
Qed.

(** ** Crashes *)

(** What a crash can leave of the page file: pages that were equal in the file and on the
    medium are there; any other page may hold anything. *)
Definition survives (d : Disk) (b : bytes) : Prop :=
  zlen b mod PAGE_SIZE = 0 /\
  forall i, id_ok i -> page_at (pf_bytes d) i = page_at (synced d) i -> page_at b i = page_at (synced d) i.

Definition crashed (b : bytes) (d : Disk) : Disk := mkDisk b 0 b (checkpoint_file d) [].

(** The LSN in the checkpoint file, or in [wal_state]. *)
Definition stored_lsn (file : option bytes) : Z :=
  match file with Some f => if zlen f <? 8 then 0 else le_val (take 8 f) | None => 0 end.

Lemma read_checkpoint_state_none d : faults d = [] ->
  exists r, read_checkpoint_state d = (r, d) /\ match r with Ret l => l | _ => 0 end = stored_lsn (checkpoint_file d).
Proof.
  intros H. unfold read_checkpoint_state, stored_lsn. rewrite (sys_ok_none d H). destruct (checkpoint_file d) as [f|]; [|by eexists].
  rewrite (st_bind_ret _ _ _ _ _ (sys_ok_none d H)). destruct (zlen f <? 8); by eexists.
Qed.

(** Opening a store on a working disk. *)
Lemma open_none now d :
  faults d = [] -> zlen (pf_bytes d) mod PAGE_SIZE = 0 -> synced d = pf_bytes d ->
  exists s d', open now d = (Ret s, d') /\ disk s = d' /\ store_ok s /\ buffer_pool s = ∅ /\
    pf_bytes d' = pf_bytes d /\ faults d' = [] /\ checkpoint_lsn s = stored_lsn (checkpoint_file d) /\
    max_page_id s = if 0 <? zlen (pf_bytes d) then sat_sub (zlen (pf_bytes d) / PAGE_SIZE) 1 else 0.
Proof.
  intros Hf Hm Hs. unfold open. rewrite (sys_ok_none d Hf).
  destruct (read_checkpoint_state_none d Hf) as (r & -> & Hl).
  rewrite (st_bind_ret _ _ _ _ _ (sys_ok_none d Hf)), (st_bind_ret _ _ _ _ _ (sys_ok_none d Hf)).
  eexists _, _. split; [reflexivity|]. cbn [disk buffer_pool pf_bytes pf_size faults checkpoint_lsn max_page_id].
  split_and!; try reflexivity; try assumption.
  split; cbn [disk buffer_pool].
  - split; [reflexivity|exact Hm].
  - intros id bp Hn. by rewrite lookup_empty in Hn.
  - intros id bp Hn. by rewrite lookup_empty in Hn.
  - intros id _ _. cbn [pf_bytes synced]. by rewrite Hs.
Qed.

(** A reopened store has every page that was not dirty. *)
Lemma contents_crashed now s b :
  store_ok s -> survives (disk s) b ->
  exists s' d', open now (crashed b (disk s)) = (Ret s', d') /\ store_ok s' /\
    forall id, id_ok id -> (forall bp, buffer_pool s !! id = Some bp -> dirty bp = false) ->
      contents s' id = contents s id ≫= nonzero.
Proof.
  intros Hok [Hm Hsv]. destruct (open_none now (crashed b (disk s)) eq_refl Hm eq_refl) as (s' & d' & Ho & Hd & Hok' & Hpool & Hb & _).
  cbn [crashed pf_bytes] in Hb.
  exists s', d'. split; [done|]. split; [done|]. intros id Hid Hcl. unfold contents. rewrite Hpool, lookup_empty, Hd, Hb.
  destruct (buffer_pool s !! id) as [bp|] eqn:Hbp.
  - destruct (so_clean s Hok id bp Hbp (Hcl bp eq_refl)) as [H1 H2]. rewrite (Hsv id Hid) by (rewrite H1, H2; reflexivity). rewrite H2. reflexivity.
  - pose proof (so_out s Hok id Hid Hbp) as E. rewrite (Hsv id Hid E), <-E. apply page_at_idemp.
Qed.

(** ** The store as a map of pages *)

Inductive request :=
| RPut (now : Z) (id : PageId) (p : Page) (lsn : Z)
| RGet (now : Z) (id : PageId)
| RCheckpoint (now : Z)
| REvict (config : BufferPoolConfig).

Definition request_ok (r : request) : Prop :=
  match r with
  | RPut _ id p _ => id_ok id /\ zlen p = PAGE_SIZE
  | RGet _ id => id_ok id
  | RCheckpoint _ => True
  | REvict config => 0 <= max_pages config /\ 0 <= eviction_batch_size config
  end.

(** A run of the store; [order] is how its [HashMap] happens to be walked. *)
Definition step (order : PageStore -> list PageId) (r : request) (s : PageStore) : list (option Page) * PageStore :=
  match r with
  | RPut now id p lsn => ([], (put now id p lsn s).2)
  | RGet now id => let '(o, s) := get now id s in ([o], s)
  | RCheckpoint now => ([], (checkpoint now s).2)
  | REvict config => ([], (evict_cold_pages (order s) config s).2)
  end.

Fixpoint run (order : PageStore -> list PageId) (rs : list request) (s : PageStore) : list (option Page) * PageStore :=
  match rs with
  | [] => ([], s)
  | r :: rs => let '(o, s) := step order r s in let '(os, s) := run order rs s in (o ++ os, s)
  end.

(** The same requests on a map of pages. *)
Definition spec_step (r : request) (m : PageId -> option Page) : list (option Page) * (PageId -> option Page) :=
  match r with
  | RPut _ id p _ => ([], fun i => if bool_decide (i = id) then nonzero p else m i)
  | RGet _ id => ([m id], m)
  | _ => ([], m)
  end.

Fixpoint spec_run (rs : list request) (m : PageId -> option Page) : list (option Page) * (PageId -> option Page) :=
  match rs with
  | [] => ([], m)
  | r :: rs => let '(o, m) := spec_step r m in let '(os, m) := spec_run rs m in (o ++ os, m)
  end.

Definition abs (s : PageStore) (m : PageId -> option Page) : Prop :=
  forall id, id_ok id -> contents s id ≫= nonzero = m id.

(** An answer is right up to pages of zeros, or a read failed and was taken for a missing page. *)
Definition answers (faulty : bool) (o e : option Page) : Prop :=
  o ≫= nonzero = e \/ (faulty = true /\ o = None).

Definition faulty (s : PageStore) : bool := negb (bool_decide (faults (disk s) = [])).

Lemma faulty_mono s s' : (faults (disk s) = [] -> faults (disk s') = []) -> faulty s' = true -> faulty s = true.
Proof. unfold faulty. intros H. repeat case_bool_decide; try done. by apply H in H1. Qed.

Lemma step_abs order r s m :
  (forall s, order s ≡ₚ keys s) -> request_ok r -> store_ok s -> abs s m ->
  let '(o, s') := step order r s in let '(e, m') := spec_step r m in
  store_ok s' /\ abs s' m' /\ Forall2 (answers (faulty s)) o e /\ (faulty s' = true -> faulty s = true).
Proof.
  intros Hord Hr Hok Ha. destruct r as [now id p lsn|now id|now|config]; cbn [step spec_step request_ok] in *.
  - destruct Hr as [Hid Hl]. destruct (put_ok now id p lsn s Hok Hid Hl) as (s' & -> & Hok' & Hd & Hc). cbn [snd].
    split; [done|]. split; [|split; [done|apply faulty_mono; by rewrite Hd]].
    intros i Hi. rewrite Hc. case_bool_decide; [done|by apply Ha].
  - unfold get. destruct (get_with_lsn_cases now id s Hok Hr) as (r & s' & -> & Hok' & Hc & Hres & Hf & _).
    split; [done|]. split; [intros i Hi; rewrite Hc; by apply Ha|]. split; [|by apply faulty_mono].
    apply Forall2_cons; split; [|done]. unfold answers, faulty. destruct Hres as [->|[-> Hne]]; [left; by apply Ha|right].
    by rewrite bool_decide_eq_false_2.
  - destruct (checkpoint_cases now s Hok) as (r & s' & -> & Hcp & Hres). cbn [snd].
    split; [apply Hcp|]. split; [intros i Hi; rewrite (checkpoint_contents s s' i Hi Hcp); by apply Ha|]. split; [done|].
    apply faulty_mono. destruct Hres as [(_ & H & _)|(k & _ & H)]; [done|by intros E].
  - destruct Hr as [Hm Hb]. destruct (evict_cold_pages_cases (order s) config s Hok (Hord s) Hm Hb) as (r & s' & -> & [Hok' Hc] & Hres).
    cbn [snd]. split; [done|]. split; [intros i Hi; rewrite Hc by done; by apply Ha|]. split; [done|].
    apply faulty_mono. destruct Hres as [(n & _ & H & _)|(k & _ & H & _)]; [done|by intros E].
Qed.

Lemma answers_mono (b b' : bool) o e : (b = true -> b' = true) -> answers b o e -> answers b' o e.
Proof. intros Hb [H|[H1 H2]]; [by left|right; auto]. Qed.

Lemma run_abs order : (forall s, order s ≡ₚ keys s) -> forall rs s m,
  Forall request_ok rs -> store_ok s -> abs s m ->
  store_ok (run order rs s).2 /\ abs (run order rs s).2 (spec_run rs m).2 /\
  Forall2 (answers (faulty s)) (run order rs s).1 (spec_run rs m).1.
Proof.
  intros Hord. induction rs as [|r rs IH]; intros s m Hrs Hok Ha; [done|]. apply Forall_cons in Hrs as [Hr Hrs].
  cbn [run spec_run]. pose proof (step_abs order r s m Hord Hr Hok Ha) as Hs.
  destruct (step order r s) as [o s1], (spec_step r m) as [e m1]. destruct Hs as (Hok1 & Ha1 & Hans & Hf).
  destruct (IH s1 m1 Hrs Hok1 Ha1) as (H1 & H2 & H3).
  destruct (run order rs s1) as [os s2], (spec_run rs m1) as [es m2]. split; [done|]. split; [done|].
  apply Forall2_app; [done|]. eapply Forall2_impl; [exact H3|]. intros x y. by apply answers_mono.
Qed.

End PageStoreSpec.

Module PageStoreProps.
Import PageFileM PageStoreM PageStoreSpec.

Definition sample_store : PageStore := mkStore ∅ (mkDisk [] 0 [] None []) 0 0 0 0 0 false.
Definition sample_page (b : Z) : Page := zrepeat b PAGE_SIZE.

Lemma sample_store_ok : store_ok sample_store.
Proof.
  split; cbn [sample_store disk buffer_pool].
  - by split.
  - intros id bp Hn. by rewrite lookup_empty in Hn.
  - intros id bp Hn. by rewrite lookup_empty in Hn.
  - reflexivity.
Qed.

Lemma sample_page_len b : zlen (sample_page b) = PAGE_SIZE.
Proof. unfold sample_page. by rewrite zlen_zrepeat. Qed.

Lemma sample_page_zero b : b <> 0 -> zero_page (sample_page b) = false.
Proof.
  intros Hb. unfold sample_page, zrepeat. replace (Z.to_nat PAGE_SIZE) with (S (Z.to_nat (PAGE_SIZE - 1))) by (unfold PAGE_SIZE; lia).
  cbn [replicate zero_page forallb]. by destruct (Z.eqb_spec b 0).
Qed.

Lemma sample_id_ok : id_ok 3.
Proof. unfold id_ok, MAX_ID. lia. Qed.

Definition sample_requests : list request :=
  [RPut 1 3 (sample_page 7) 9; RCheckpoint 2; REvict {| max_pages := 0; eviction_batch_size := 1 |}; RGet 3 3].

Lemma sample_requests_ok : Forall request_ok sample_requests.
Proof.
  unfold sample_requests. repeat (apply Forall_cons; split); [|exact I| |exact sample_id_ok|by apply Forall_nil].
  - exact (conj sample_id_ok (sample_page_len 7)).
  - cbn [request_ok max_pages eviction_batch_size]. lia.
Qed.

Lemma sample_store_abs : abs sample_store (fun _ => None).
Proof.
  intros id Hid. unfold contents. cbn [sample_store disk buffer_pool pf_bytes]. rewrite lookup_empty. unfold page_at.
  destruct (Z.ltb_spec (zlen (@nil Z)) ((id + 1) * PAGE_SIZE)) as [|Hge]; [reflexivity|].
  exfalso. unfold id_ok in Hid. unfold PAGE_SIZE, zlen in Hge. cbn [length] in Hge. lia.
Qed.

#[local] Opaque page_at nonzero zrepeat.

Lemma survives_self s : store_ok s -> (forall id bp, buffer_pool s !! id = Some bp -> dirty bp = false) ->
  survives (disk s) (pf_bytes (disk s)).
Proof. intros Hok Hcl. split; [apply (so_file s Hok)|]. intros i _ E. exact E. Qed.



(** C19: a checkpoint that reports success is durable: the store reopened after a crash
    returns for every page what the store returned before the checkpoint (pages of zeros
    read as missing), whatever the crash leaves of unsynced data. *)
Theorem checkpoint_survives_crash (now now' : Z) (s s1 : PageStore) (b : bytes) :
  store_ok s -> checkpoint now s = (Ret tt, s1) -> survives (disk s1) b ->
  exists s2 d2, open now' (crashed b (disk s1)) = (Ret s2, d2) /\ store_ok s2 /\
    forall id, id_ok id -> contents s2 id = contents s id ≫= nonzero.
Proof.
  intros Hok Hc Hsv. destruct (checkpoint_cases now s Hok) as (r & s' & Hc' & Hcp & Hr).
  rewrite Hc in Hc'. injection Hc' as <- <-. destruct Hr as [(_ & _ & Hcl & _)|(k & Hk & _)]; [|discriminate Hk].
  destruct (contents_crashed now' s1 b (cp_ok _ _ Hcp) Hsv) as (s2 & d2 & Ho & Hok2 & Hc2).
  exists s2, d2. split; [done|]. split; [done|]. intros id Hid. rewrite Hc2; [|done|intros bp; apply Hcl].
  by rewrite (checkpoint_contents s s1 id Hid Hcp).
Qed.

Lemma checkpoint_survives_crash_witness :
  exists s1 s2 d2, checkpoint 2 (put 1 3 (sample_page 7) 9 sample_store).2 = (Ret tt, s1) /\
    open 5 (crashed (pf_bytes (disk s1)) (disk s1)) = (Ret s2, d2) /\ contents s2 3 = nonzero (sample_page 7).
Proof.
  destruct (put_ok 1 3 (sample_page 7) 9 sample_store sample_store_ok sample_id_ok (sample_page_len 7)) as (s & Hp & Hok & Hd & Hc).
  destruct (checkpoint_cases 2 s Hok) as (r & s1 & Hck & Hcp & [(-> & _ & Hcl & _)|(k & _ & Hk)]).
  - destruct (checkpoint_survives_crash 2 5 s s1 (pf_bytes (disk s1)) Hok Hck (survives_self s1 (cp_ok _ _ Hcp) Hcl))
      as (s2 & d2 & Ho & _ & Hc2).
    exists s1, s2, d2. rewrite Hp. cbn [snd]. split; [exact Hck|]. split; [exact Ho|].
    rewrite (Hc2 3 sample_id_ok), Hc. reflexivity.
  - exfalso. apply Hk. rewrite Hd. reflexivity.
Defined.

(** An eviction that succeeds leaves at most [max_pages] pages in the pool, reports
    how many it removed, removes the least recently used ones, and keeps every page
    readable; one that fails removes nothing. *)
Theorem eviction_is_lru (order : list PageId) (config : BufferPoolConfig) (s : PageStore) :
  store_ok s -> order ≡ₚ keys s -> 0 <= max_pages config -> 0 <= eviction_batch_size config ->
  exists r s', evict_cold_pages order config s = (r, s') /\ evicted s s' /\
    ((exists n, r = Ret n /\ (faults (disk s) = [] -> faults (disk s') = []) /\
        Z.of_nat (size (buffer_pool s')) = Z.of_nat (size (buffer_pool s)) - n /\
        Z.of_nat (size (buffer_pool s')) <= max_pages config /\
        (forall id bp i b, buffer_pool s !! id = Some bp -> buffer_pool s' !! id = None -> buffer_pool s' !! i = Some b ->
           last_accessed bp <= last_accessed b)) \/
     (exists k, r = Fail (Io k) /\ faults (disk s) <> [] /\ buffer_pool s' = buffer_pool s)).
Proof. intros Hok Hord. exact (evict_cold_pages_cases order config s Hok Hord). Qed.

Lemma eviction_is_lru_witness :
  exists s r s', put 1 3 (sample_page 7) 9 sample_store = (Ret tt, s) /\
    evict_cold_pages (keys s) {| max_pages := 0; eviction_batch_size := 1 |} s = (r, s') /\ contents s' 3 ≫= nonzero = nonzero (sample_page 7).
Proof.
  destruct (put_ok 1 3 (sample_page 7) 9 sample_store sample_store_ok sample_id_ok (sample_page_len 7)) as (s & Hp & Hok & _ & Hc).
  destruct (eviction_is_lru (keys s) {| max_pages := 0; eviction_batch_size := 1 |} s Hok (reflexivity (keys s))
    (Z.le_refl 0) Z.le_0_1) as (r & s' & He & [_ Hev] & _).
  exists s, r, s'. split; [exact Hp|]. split; [exact He|]. rewrite (Hev 3 sample_id_ok), Hc. reflexivity.
Defined.

(** The phases of [checkpoint] with a put of the same page between the snapshot of the dirty
    pages and the last phase. *)
Definition raced_checkpoint (now : Z) (id : PageId) (q : bytes) (lsn : Z) : st PageStore Error unit :=
  pages ← gets dirty_pages;
  max_lsn ← on_disk (flush_pages pages);
  _ ← put now id q lsn;
  finish_checkpoint now pages max_lsn.

(** C20: a page written again while a checkpoint runs is marked clean without having been
    written: the pool holds the new page, the disk the old one, no page is dirty, so no later
    checkpoint or eviction writes it. *)
Theorem checkpoint_race_drops_write (now : Z) (s : PageStore) (id : PageId) (p q : Page) (l l' : Z) :
  store_ok s -> id_ok id -> faults (disk s) = [] -> zlen p = PAGE_SIZE -> zlen q = PAGE_SIZE ->
  exists s1 s4, put now id p l s = (Ret tt, s1) /\ raced_checkpoint now id q l' s1 = (Ret tt, s4) /\
    contents s4 id = Some q /\ page_at (pf_bytes (disk s4)) id = nonzero p /\ page_at (synced (disk s4)) id = nonzero p /\
    dirty_pages s4 = [].
Proof.
  intros Hok Hid Hfl Hp Hq. destruct (put_ok now id p l s Hok Hid Hp) as (s1 & Hp1 & Hok1 & Hd1 & _).
  assert (Es1 : s1 = put_page now id p l s) by (rewrite put_eq in Hp1 by exact Hp; congruence).
  assert (Hin1 : (id, (p, l)) ∈ dirty_pages s1).
  { apply elem_dirty_pages. eexists. split; [rewrite Es1; apply lookup_insert_eq|]. split_and!; reflexivity. }
  destruct (flush_pages_cases (disk s1) (dirty_pages s1) (so_file s1 Hok1) (dirty_pages_ok s1 Hok1))
    as [(d & Hf & Hfo & Hsy & Hother & Hin & Hck & Hfl1)|(k & d & _ & _ & Hne)]; [|exfalso; apply Hne; congruence].
  assert (Hd : on_disk (flush_pages (dirty_pages s1)) s1 = (Ret (max_of (dirty_pages s1) 0), with_disk d s1)) by (unfold on_disk; by rewrite Hf).
  pose proof (put_eq now id q l' (with_disk d s1) Hq) as Hp3.
  destruct (finish_checkpoint_cases now (dirty_pages s1) (max_of (dirty_pages s1) 0) (put_page now id q l' (with_disk d s1)))
    as (r & s4 & Hfin & Hpool & _ & Hb & _ & Hs & _ & Hr).
  cbn [put_page with_max_page_id with_pool with_disk disk buffer_pool] in Hpool, Hb, Hs, Hr.
  exists s1, s4. split; [exact Hp1|].
  destruct Hr as [[-> _]|(k & _ & Hne)]; [|exfalso; apply Hne, Hfl1; congruence].
  split; [unfold raced_checkpoint; rewrite st_bind_gets, (st_bind_ret _ _ _ _ _ Hd), (st_bind_ret _ _ _ _ _ Hp3); exact Hfin|].
  assert (Hid1 : id ∈ (dirty_pages s1).*1) by (apply list_elem_of_fmap; by exists (id, (p, l))).
  split; [|rewrite Hb, Hs, Hsy; split; [exact (Hin id p l Hin1)|split; [exact (Hin id p l Hin1)|]]].
  - unfold contents. rewrite Hpool, lookup_clear_dirty, bool_decide_eq_true_2 by exact Hid1. rewrite lookup_insert_eq. reflexivity.
  - apply no_dirty_pages. intros i bp. rewrite Hpool, lookup_clear_dirty. case_bool_decide as Hi.
    + intros (b0 & _ & E)%fmap_Some. rewrite E. reflexivity.
    + rewrite lookup_insert_ne by (intros <-; exact (Hi Hid1)). intros Hbp. destruct (dirty bp) eqn:E; [|reflexivity].
      exfalso. apply Hi, elem_dirty_ids. by exists bp.
Qed.

Lemma checkpoint_race_drops_write_witness :
  exists s1 s4, put 1 3 (sample_page 7) 9 sample_store = (Ret tt, s1) /\ raced_checkpoint 1 3 (sample_page 8) 10 s1 = (Ret tt, s4) /\
    contents s4 3 = Some (sample_page 8) /\ page_at (pf_bytes (disk s4)) 3 = nonzero (sample_page 7) /\
    page_at (synced (disk s4)) 3 = nonzero (sample_page 7) /\ dirty_pages s4 = [].
Proof.
  exact (checkpoint_race_drops_write 1 sample_store 3 (sample_page 7) (sample_page 8) 9 10 sample_store_ok sample_id_ok
    eq_refl (sample_page_len 7) (sample_page_len 8)).
Defined.

End PageStoreProps.
