(* ===== verification/Node.v ===== *)
(** * Node: the storage node (src/src/node.rs and its submodules)

    [StorageNode] runs two background tasks besides its methods: the WAL writer, which takes
    requests from a channel, appends their batches to the segment files and acknowledges
    them, and the replay task, which applies the written batches to the page store.  Here
    each turn of a task is an operation on the node's state, the channels are lists, and a
    method that waits for a task is two operations: up to the wait, and from it.

    The directory of a node holds the page file (part of [PageStore]), the WAL segments and
    the [wal_state] file.  Calls to the operating system fail as in [PageStore]: each takes
    the next entry of a list of faults.  The clock is an argument of the operations that
    read it, read once per operation. *)

From stdpp Require Import base numbers list list_numbers gmap fin_maps sorting.
From S2P Require Import Prelude Common SlottedPage WalCodec Mvcc PageStore.

Definition MAX_SEGMENT_SIZE : Z := 64 * 1024 * 1024.

Record StorageMaintenanceConfig := {
  mc_checkpoint : CheckpointConfig;
  truncate_wal_cfg : bool;
  max_wal_bytes : Z;
  max_wal_segments : Z;
  mvcc_gc_every_wal_batches : Z;
  wal_group_commit_max_batches : Z;
  wal_group_commit_wait_us : Z
}.

Record StorageMetricsInner := {
  wal_backpressure_count : Z;
  checkpoint_runs : Z;
  checkpoint_total_duration_ms : Z;
  checkpoint_last_duration_ms : Z;
  gc_runs : Z;
  gc_versions_removed_total : Z;
  gc_last_duration_ms : Z
}.

(** [ack] is the number of the [oneshot] channel the answer goes to. *)
Record WalWriteRequest := {
  batch : WalBatch;
  ack : option Z
}.

Record ReplayBuffer := {
  buf_bytes : Z;
  buf_records : list WalRecord
}.

(** The WAL segments by number, the [wal_state] file, and the failures to come. *)
Record WalDir := mkDir {
  segments : gmap Z bytes;
  wal_state : option bytes;
  dir_faults : list (option fault)
}.

Record WalWriter := {
  ww_file_id : Z;
  ww_size : Z
}.

Record PageStoreReplay := mkReplay {
  rp_store : PageStore;
  rp_dir : WalDir;
  rp_last_applied : Z;
  rp_index : gset Z;
  rp_applied : Z
}.

Definition default_maintenance : StorageMaintenanceConfig := {|
  mc_checkpoint := default_checkpoint_config;
  truncate_wal_cfg := true;
  max_wal_bytes := 512 * 1024 * 1024;
  max_wal_segments := 64;
  mvcc_gc_every_wal_batches := 128;
  wal_group_commit_max_batches := 64;
  wal_group_commit_wait_us := 200 |}.

(** ** WAL files (node_wal_files.rs) *)

Module WalFilesM.

Definition dir_sys : st WalDir Error (option fault) := fun d =>
  match dir_faults d with
  | [] => (Ret None, d)
  | f :: fs => (Ret f, mkDir (segments d) (wal_state d) fs)
  end.

Definition dir_ok : st WalDir Error unit :=
  f ← dir_sys; match f with Some f => throw (Io (fault_kind f)) | None => mret tt end.

Definition set_segments (s : gmap Z bytes) (d : WalDir) : WalDir := mkDir s (wal_state d) (dir_faults d).

(** [unwrap_or] on the result of a call: its error is dropped. *)
Definition unwrap_or {S A} (m : st S Error A) (a : A) : st S Error A := fun d =>
  match m d with
  | (Fail _, d) => (Ret a, d)
  | r => r
  end.

Definition create_wal_segment (file_id : Z) : st WalDir Error unit :=
  _ ← dir_ok; modify (fun d => set_segments (<[file_id := []]> (segments d)) d).

Definition segment_ids (d : WalDir) : list Z := merge_sort Z.le (map_to_list (segments d)).*1.

Definition list_wal_segments : st WalDir Error (list Z) := _ ← dir_ok; gets segment_ids.

Fixpoint sum_sizes (ids : list Z) (bytes : Z) : st WalDir Error Z :=
  match ids with
  | [] => mret bytes
  | id :: ids =>
      _ ← dir_ok;
      file ← gets (fun d => segments d !! id);
      match file with
      | Some file => sum_sizes ids (sat_add64 bytes (zlen file))
      | None => throw (Io NotFound)
      end
  end.

Definition wal_usage : st WalDir Error (Z * Z) :=
  segments ← list_wal_segments;
  bytes ← sum_sizes segments 0;
  mret (zlen segments, bytes).

Definition wal_usage_exceeds_limits (config : StorageMaintenanceConfig) (incoming_bytes : Z) :
    st WalDir Error (option (Z * Z)) :=
  '(segments, bytes) ← wal_usage;
  let bytes_over := max_wal_bytes config <? sat_add64 bytes incoming_bytes in
  let segments_over := max_wal_segments config <? segments in
  if bytes_over || segments_over then mret (Some (segments, bytes)) else mret None.

(** [read_wal_batch] on an open segment: the rest of the file is [file], and the system may
    fail the call. *)
Definition read_next {AL : Allocator} (file : bytes) : st WalDir Error (outcome Error (option WalBatch) * bytes) :=
  f ← dir_sys;
  match f with
  | Some f => mret (Fail (Io (fault_kind f)), file)
  | None => mret (WalCodec.read_wal_batch file)
  end.

(** The loop of [get_wal_segment_max_lsn]; each turn but the last consumes a frame, so the
    length of the file bounds them. *)
Fixpoint max_lsn_loop {AL : Allocator} (fuel : nat) (file : bytes) (max_lsn : Z) : st WalDir Error Z :=
  match fuel with
  | O => lift Spin
  | S fuel =>
      '(r, file) ← read_next file;
      match r with
      | Ret (Some batch) => max_lsn_loop fuel file (if max_lsn <? end_lsn batch then end_lsn batch else max_lsn)
      | Ret None => mret max_lsn
      | Fail _ => mret max_lsn
      | Panic => lift Panic
      | Spin => lift Spin
      end
  end.

Definition get_wal_segment_max_lsn {AL : Allocator} (file_id : Z) : st WalDir Error Z :=
  _ ← dir_ok;
  file ← gets (fun d => segments d !! file_id);
  match file with
  | Some file => max_lsn_loop (S (length file)) file 0
  | None => throw (Io NotFound)
  end.

Definition remove_file (file_id : Z) : st WalDir Error unit :=
  _ ← dir_ok; modify (fun d => set_segments (delete file_id (segments d)) d).

Fixpoint truncate_loop {AL : Allocator} (ids : list Z) (checkpoint_lsn deleted : Z) : st WalDir Error Z :=
  match ids with
  | [] => mret deleted
  | file_id :: ids =>
      max_lsn ← unwrap_or (get_wal_segment_max_lsn file_id) 0;
      if (0 <? max_lsn) && (max_lsn <=? checkpoint_lsn) then
        ok ← unwrap_or (_ ← remove_file file_id; mret true) false;
        truncate_loop ids checkpoint_lsn (if ok : bool then deleted + 1 else deleted)
      else truncate_loop ids checkpoint_lsn deleted
  end.

Definition truncate_wal_segments {AL : Allocator} (checkpoint_lsn : Z) : st WalDir Error Z :=
  segments ← list_wal_segments;
  if zlen segments <=? 1 then mret 0 else
  truncate_loop (take (length segments - 1) segments) checkpoint_lsn 0.

(** ** The [wal_state] file (node_bootstrap.rs) *)

Definition read_wal_state : st WalDir Error Z := fun d =>
  match dir_ok d with
  | (Ret _, d) =>
      match wal_state d with
      | None => (Ret 0, d)
      | Some file => (_ ← dir_ok; if zlen file <? 8 then throw (Io UnexpectedEof) else mret (le_val (take 8 file))) d
      end
  | (Fail (Io NotFound), d) => (Ret 0, d)
  | (Fail e, d) => (Fail e, d)
  | (Panic, d) => (Panic, d)
  | (Spin, d) => (Spin, d)
  end.

(** Open the temporary file, write it, sync it, rename it. *)
Definition write_wal_state (last_applied_lsn : Z) : st WalDir Error unit :=
  _ ← dir_ok;
  _ ← dir_ok;
  _ ← dir_ok;
  _ ← dir_ok;
  modify (fun d => mkDir (segments d) (Some (le_bytes 8 last_applied_lsn)) (dir_faults d)).

End WalFilesM.

(** ** The WAL writer (node_wal_writer.rs) *)

Module WalWriterM.
Import WalFilesM.

Definition file_size (file_id : Z) (d : WalDir) : Z := zlen (default [] (segments d !! file_id)).

Definition open : st WalDir Error WalWriter :=
  segments ← list_wal_segments;
  match last segments with
  | None => _ ← create_wal_segment 1; mret {| ww_file_id := 1; ww_size := 0 |}
  | Some file_id =>
      _ ← dir_ok;
      _ ← dir_ok;
      size ← gets (file_size file_id);
      mret {| ww_file_id := file_id; ww_size := size |}
  end.

Definition rotate_if_needed (w : WalWriter) : st WalDir Error WalWriter :=
  if ww_size w <? MAX_SEGMENT_SIZE then mret w else
  let file_id := wrap64 (ww_file_id w + 1) in
  _ ← create_wal_segment file_id;
  mret {| ww_file_id := file_id; ww_size := 0 |}.

Definition append_bytes (file_id : Z) (buf : bytes) : st WalDir Error unit :=
  modify (fun d => set_segments (alter (fun file => file ++ buf) file_id (segments d)) d).

(** [write_all] at the end of the segment. *)
Definition write_all (file_id : Z) (buf : bytes) : st WalDir Error unit :=
  f ← dir_sys;
  match f with
  | Some f => _ ← append_bytes file_id (take (Z.to_nat (fault_written f)) buf); throw (Io (fault_kind f))
  | None => append_bytes file_id buf
  end.

(** [append_batch]: the writer after the call, also when it fails. *)
Definition append_batch (b : WalBatch) (w : WalWriter) : WalDir -> outcome Error unit * WalWriter * WalDir := fun d =>
  match rotate_if_needed w d with
  | (Ret w, d) =>
      match (buf ← lift (WalCodec.encode_wal_batch b []); _ ← write_all (ww_file_id w) buf; mret (zlen buf)) d with
      | (Ret n, d) => (Ret tt, {| ww_file_id := ww_file_id w; ww_size := wrap64 (ww_size w + n) |}, d)
      | (Fail e, d) => (Fail e, w, d)
      | (Panic, d) => (Panic, w, d)
      | (Spin, d) => (Spin, w, d)
      end
  | (Fail e, d) => (Fail e, {| ww_file_id := wrap64 (ww_file_id w + 1); ww_size := ww_size w |}, d)
  | (Panic, d) => (Panic, w, d)
  | (Spin, d) => (Spin, w, d)
  end.

(** [sync_data]. *)
Definition flush : st WalDir Error unit := dir_ok.

(** The loop over the pending requests: the writer, whether an append failed, how many did
    not, and the largest [end_lsn] of those. *)
Fixpoint append_all (pending : list WalWriteRequest) (w : WalWriter) (count max_end : Z) :
    WalDir -> outcome Error unit * WalWriter * Z * Z * WalDir := fun d =>
  match pending with
  | [] => (Ret tt, w, count, max_end, d)
  | req :: pending =>
      match append_batch (batch req) w d with
      | (Ret _, w, d) => append_all pending w (count + 1) (Z.max max_end (end_lsn (batch req))) d
      | (r, w, d) => (r, w, count, max_end, d)
      end
  end.

End WalWriterM.

(** ** Replay (node_wal_replay.rs and the replay structs of node.rs) *)

Module ReplayM.
Import WalFilesM.

Abbreviation R := (st PageStoreReplay Error) (only parsing).

Definition new (store : PageStore) (dir : WalDir) (last_applied_lsn : Z) (index : gset Z) : PageStoreReplay :=
  mkReplay store dir last_applied_lsn index last_applied_lsn.

Definition on_store {A} (m : st PageStore Error A) : R A := fun r =>
  let '(a, s) := m (rp_store r) in (a, mkReplay s (rp_dir r) (rp_last_applied r) (rp_index r) (rp_applied r)).

Definition on_dir {A} (m : st WalDir Error A) : R A := fun r =>
  let '(a, d) := m (rp_dir r) in (a, mkReplay (rp_store r) d (rp_last_applied r) (rp_index r) (rp_applied r)).

Definition write_page (now : Z) (page_id : PageId) (page : bytes) (lsn : Z) : R unit :=
  _ ← on_store (PageStoreM.put now page_id page lsn);
  modify (fun r => mkReplay (rp_store r) (rp_dir r) (rp_last_applied r) ({[page_id]} ∪ rp_index r) (rp_applied r)).

Definition read_page (now : Z) (page_id : PageId) : R (option Page) :=
  on_store (fun s => let '(p, s) := PageStoreM.get now page_id s in (Ret p, s)).

(** [let _ = m.await]: a panic of the callee is still one of the caller. *)
Definition ignore {S A} (m : st S Error A) : st S Error unit := fun s =>
  match m s with
  | (Ret _, s) | (Fail _, s) => (Ret tt, s)
  | (Panic, s) => (Panic, s)
  | (Spin, s) => (Spin, s)
  end.

Definition update_last_applied (lsn : Z) : R unit :=
  prev ← gets rp_last_applied;
  _ ← modify (fun r => mkReplay (rp_store r) (rp_dir r) (Z.max prev lsn) (rp_index r) (rp_applied r));
  if prev <? lsn then
    _ ← modify (fun r => mkReplay (rp_store r) (rp_dir r) (rp_last_applied r) (rp_index r) lsn);
    ignore (on_dir (write_wal_state lsn))
  else mret tt.

Definition apply_wal_record (page : Page) (record : WalRecord) : outcome Error Page :=
  if op record =? WAL_OP_PAGE_IMAGE then
    if negb (zlen (value record) =? PAGE_SIZE) then Fail (InvalidPageSize (zlen (value record)) PAGE_SIZE) else
    if zlen page =? zlen (value record) then Ret (value record) else Panic
  else if op record =? WAL_OP_PAGE_PUT then
    Slotted.insert_record_at_slot_checked page (slot_id record) (key record) (value record)
  else if op record =? WAL_OP_PAGE_DEL then Slotted.clear_slot page (slot_id record)
  else Ret page.

Definition blank_page : Page := zrepeat 0 PAGE_SIZE.

Definition apply_record (now : Z) (record : WalRecord) : R unit :=
  page ← read_page now (page_id record);
  page ← lift (apply_wal_record (default blank_page page) record);
  _ ← write_page now (page_id record) page (lsn record);
  update_last_applied (lsn record).

(** [ReplayBuffer]. *)
Definition buffer_new : ReplayBuffer := {| buf_bytes := 0; buf_records := [] |}.

Definition buffer_push (record : WalRecord) (b : ReplayBuffer) : ReplayBuffer :=
  {| buf_bytes := buf_bytes b + (zlen (key record) + zlen (value record) + 32); buf_records := buf_records b ++ [record] |}.

Definition should_flush (b : ReplayBuffer) : bool := 8 * 1024 <=? buf_bytes b.

Definition buffer_take (b : ReplayBuffer) : list WalRecord * ReplayBuffer := (buf_records b, buffer_new).

Fixpoint apply_records (page : Page) (records : list WalRecord) (max_lsn : Z) : outcome Error (Page * Z) :=
  match records with
  | [] => Ret (page, max_lsn)
  | record :: records =>
      let max_lsn := if max_lsn <? lsn record then lsn record else max_lsn in
      page ← apply_wal_record page record;
      apply_records page records max_lsn
  end.

Definition replay_page_records (now : Z) (page_id : PageId) (records : list WalRecord) : R unit :=
  if bool_decide (records = []) then mret tt else
  page ← read_page now page_id;
  '(page, max_lsn) ← lift (apply_records (default blank_page page) records 0);
  _ ← write_page now page_id page max_lsn;
  update_last_applied max_lsn.

(** The operations a transaction logs beside its pages. *)
Definition is_txn_op (record : WalRecord) : bool :=
  (op record =? WAL_OP_TXN_PUT) || (op record =? WAL_OP_TXN_DEL) || (op record =? WAL_OP_TXN_COMMIT).

(** The [for record in batch.records] of [wal_replay_loop]. *)
Fixpoint replay_records (now : Z) (records : list WalRecord) (last_seen : Z) (buffers : gmap Z ReplayBuffer) :
    R (gmap Z ReplayBuffer) :=
  match records with
  | [] => mret buffers
  | record :: records =>
      if lsn record <=? last_seen then replay_records now records last_seen buffers else
      if negb (lsn record =? last_seen + 1) then mret buffers else
      let last_seen := lsn record in
      if is_txn_op record then replay_records now records last_seen buffers else
      let buffer := buffer_push record (default buffer_new (buffers !! page_id record)) in
      if should_flush buffer then
        let '(taken, buffer) := buffer_take buffer in
        _ ← ignore (replay_page_records now (page_id record) taken);
        replay_records now records last_seen (<[page_id record := buffer]> buffers)
      else replay_records now records last_seen (<[page_id record := buffer]> buffers)
  end.

(** The drain of the buffers when the channel closes; [order] is how the map is walked. *)
Fixpoint drain_buffers (now : Z) (order : list PageId) (buffers : gmap Z ReplayBuffer) : R unit :=
  match order with
  | [] => mret tt
  | page_id :: order =>
      match buffers !! page_id with
      | Some buffer => _ ← ignore (replay_page_records now page_id (buffer_take buffer).1); drain_buffers now order buffers
      | None => drain_buffers now order buffers
      end
  end.

(** ** Recovery *)

(** What recovery rebuilds besides the pages. *)
Record Recovered := {
  rc_mvcc : gmap (list Z) (list MvccVersion);
  rc_requests : gmap Z Z
}.

Definition recover_batch_index (b : WalBatch) (rc : Recovered) : Recovered :=
  {| rc_mvcc := Mvcc.apply_txn_batch_to_mvcc (rc_mvcc rc) b;
     rc_requests := if request_id b =? 0 then rc_requests rc else <[request_id b := end_lsn b]> (rc_requests rc) |}.

Fixpoint recover_records (now : Z) (records : list WalRecord) : R unit :=
  match records with
  | [] => mret tt
  | record :: records =>
      last_applied ← gets rp_last_applied;
      if (lsn record <=? last_applied) || is_txn_op record then recover_records now records else
      _ ← apply_record now record;
      recover_records now records
  end.

(** The [loop] over the frames of a segment. *)
Fixpoint recover_frames {AL : Allocator} (fuel : nat) (now : Z) (file : bytes) (rc : Recovered) : R Recovered :=
  match fuel with
  | O => lift Spin
  | S fuel =>
      '(r, file) ← on_dir (read_next file);
      r ← lift r;
      match r with
      | None => mret rc
      | Some batch =>
          _ ← recover_records now (records batch);
          recover_frames fuel now file (recover_batch_index batch rc)
      end
  end.

Fixpoint recover_segments {AL : Allocator} (now : Z) (ids : list Z) (rc : Recovered) : R Recovered :=
  match ids with
  | [] => mret rc
  | file_id :: ids =>
      _ ← on_dir dir_ok;
      file ← gets (fun r => segments (rp_dir r) !! file_id);
      match file with
      | None => throw (Io NotFound)
      | Some file =>
          rc ← recover_frames (S (length file)) now file rc;
          recover_segments now ids rc
      end
  end.

Definition replay_wal_segments_to_store {AL : Allocator} (now : Z) (rc : Recovered) : R Recovered :=
  ids ← on_dir list_wal_segments;
  if bool_decide (ids = []) then mret rc else recover_segments now ids rc.

End ReplayM.

(** ** The node *)

Inductive WriterTask :=
| NotStarted
| Running (w : WalWriter)
| Stopped.

(** The state of the replay task between two batches. *)
Record ReplayTask := {
  rt_last_applied : Z;
  rt_buffers : gmap Z ReplayBuffer;
  rt_gc_counter : Z
}.

(** The two channels, the answers sent on [oneshot] channels, and the lock of the sender,
    which a synchronous append holds until its answer is there. *)
Record Channels := {
  ch_queue : list WalWriteRequest;
  ch_replay : list WalBatch;
  ch_acks : gmap Z (outcome Error Z);
  ch_next_ack : Z;
  ch_locked : bool
}.

Record StorageNode := mkNode {
  sn_store : PageStore;
  sn_index : gset Z;
  sn_dir : WalDir;
  sn_channels : Channels;
  sn_writer : WriterTask;
  sn_task : ReplayTask;
  sn_durable : Z;
  sn_applied : Z;
  sn_mvcc : gmap (list Z) (list MvccVersion);
  sn_requests : gmap Z Z;
  sn_reads : ActiveReads;
  sn_maintenance : StorageMaintenanceConfig;
  sn_metrics : StorageMetricsInner
}.

Record MvccReadHandle := {
  mh_read_lsn : Z;
  mh_started_at : Z;
  mh_timeout : option Z;
  mh_guard : option Z
}.

Module NodeM.
Import WalFilesM ReplayM.

Abbreviation N := (st StorageNode Error) (only parsing).

(** Struct updates. *)
Definition with_store (x : PageStore) (n : StorageNode) : StorageNode :=
  mkNode x (sn_index n) (sn_dir n) (sn_channels n) (sn_writer n) (sn_task n) (sn_durable n) (sn_applied n) (sn_mvcc n) (sn_requests n) (sn_reads n) (sn_maintenance n) (sn_metrics n).
Definition with_index (x : gset Z) (n : StorageNode) : StorageNode :=
  mkNode (sn_store n) x (sn_dir n) (sn_channels n) (sn_writer n) (sn_task n) (sn_durable n) (sn_applied n) (sn_mvcc n) (sn_requests n) (sn_reads n) (sn_maintenance n) (sn_metrics n).
Definition with_dir (x : WalDir) (n : StorageNode) : StorageNode :=
  mkNode (sn_store n) (sn_index n) x (sn_channels n) (sn_writer n) (sn_task n) (sn_durable n) (sn_applied n) (sn_mvcc n) (sn_requests n) (sn_reads n) (sn_maintenance n) (sn_metrics n).
Definition with_channels (x : Channels) (n : StorageNode) : StorageNode :=
  mkNode (sn_store n) (sn_index n) (sn_dir n) x (sn_writer n) (sn_task n) (sn_durable n) (sn_applied n) (sn_mvcc n) (sn_requests n) (sn_reads n) (sn_maintenance n) (sn_metrics n).
Definition with_writer (x : WriterTask) (n : StorageNode) : StorageNode :=
  mkNode (sn_store n) (sn_index n) (sn_dir n) (sn_channels n) x (sn_task n) (sn_durable n) (sn_applied n) (sn_mvcc n) (sn_requests n) (sn_reads n) (sn_maintenance n) (sn_metrics n).
Definition with_task (x : ReplayTask) (n : StorageNode) : StorageNode :=
  mkNode (sn_store n) (sn_index n) (sn_dir n) (sn_channels n) (sn_writer n) x (sn_durable n) (sn_applied n) (sn_mvcc n) (sn_requests n) (sn_reads n) (sn_maintenance n) (sn_metrics n).
Definition with_durable (x : Z) (n : StorageNode) : StorageNode :=
  mkNode (sn_store n) (sn_index n) (sn_dir n) (sn_channels n) (sn_writer n) (sn_task n) x (sn_applied n) (sn_mvcc n) (sn_requests n) (sn_reads n) (sn_maintenance n) (sn_metrics n).
Definition with_applied (x : Z) (n : StorageNode) : StorageNode :=
  mkNode (sn_store n) (sn_index n) (sn_dir n) (sn_channels n) (sn_writer n) (sn_task n) (sn_durable n) x (sn_mvcc n) (sn_requests n) (sn_reads n) (sn_maintenance n) (sn_metrics n).
Definition with_mvcc (x : gmap (list Z) (list MvccVersion)) (n : StorageNode) : StorageNode :=
  mkNode (sn_store n) (sn_index n) (sn_dir n) (sn_channels n) (sn_writer n) (sn_task n) (sn_durable n) (sn_applied n) x (sn_requests n) (sn_reads n) (sn_maintenance n) (sn_metrics n).
Definition with_requests (x : gmap Z Z) (n : StorageNode) : StorageNode :=
  mkNode (sn_store n) (sn_index n) (sn_dir n) (sn_channels n) (sn_writer n) (sn_task n) (sn_durable n) (sn_applied n) (sn_mvcc n) x (sn_reads n) (sn_maintenance n) (sn_metrics n).
Definition with_reads (x : ActiveReads) (n : StorageNode) : StorageNode :=
  mkNode (sn_store n) (sn_index n) (sn_dir n) (sn_channels n) (sn_writer n) (sn_task n) (sn_durable n) (sn_applied n) (sn_mvcc n) (sn_requests n) x (sn_maintenance n) (sn_metrics n).
Definition with_metrics (x : StorageMetricsInner) (n : StorageNode) : StorageNode :=
  mkNode (sn_store n) (sn_index n) (sn_dir n) (sn_channels n) (sn_writer n) (sn_task n) (sn_durable n) (sn_applied n) (sn_mvcc n) (sn_requests n) (sn_reads n) (sn_maintenance n) x.

Definition on_page_store {A} (m : st PageStore Error A) : N A := fun n =>
  let '(a, s) := m (sn_store n) in (a, with_store s n).
Definition on_wal {A} (m : st WalDir Error A) : N A := fun n =>
  let '(a, d) := m (sn_dir n) in (a, with_dir d n).

(** The part of the node a [PageStoreReplay] shares. *)
Definition replay_of (n : StorageNode) : PageStoreReplay :=
  mkReplay (sn_store n) (sn_dir n) (rt_last_applied (sn_task n)) (sn_index n) (sn_applied n).

Definition put_replay (r : PageStoreReplay) (n : StorageNode) : StorageNode :=
  with_store (rp_store r) (with_dir (rp_dir r) (with_index (rp_index r) (with_applied (rp_applied r)
    (with_task {| rt_last_applied := rp_last_applied r; rt_buffers := rt_buffers (sn_task n);
                  rt_gc_counter := rt_gc_counter (sn_task n) |} n)))).

Definition on_replay {A} (m : st PageStoreReplay Error A) : N A := fun n =>
  let '(a, r) := m (replay_of n) in (a, put_replay r n).

Definition set_buffers (b : gmap Z ReplayBuffer) (n : StorageNode) : StorageNode :=
  with_task {| rt_last_applied := rt_last_applied (sn_task n); rt_buffers := b; rt_gc_counter := rt_gc_counter (sn_task n) |} n.
Definition set_gc_counter (c : Z) (n : StorageNode) : StorageNode :=
  with_task {| rt_last_applied := rt_last_applied (sn_task n); rt_buffers := rt_buffers (sn_task n); rt_gc_counter := c |} n.

(** ** Maintenance (node_maintenance.rs) *)

Definition count_checkpoint (ms : Z) (m : StorageMetricsInner) : StorageMetricsInner := {|
  wal_backpressure_count := wal_backpressure_count m;
  checkpoint_runs := wrap64 (checkpoint_runs m + 1);
  checkpoint_total_duration_ms := wrap64 (checkpoint_total_duration_ms m + ms);
  checkpoint_last_duration_ms := ms;
  gc_runs := gc_runs m;
  gc_versions_removed_total := gc_versions_removed_total m;
  gc_last_duration_ms := gc_last_duration_ms m |}.

Definition count_backpressure (m : StorageMetricsInner) : StorageMetricsInner := {|
  wal_backpressure_count := wrap64 (wal_backpressure_count m + 1);
  checkpoint_runs := checkpoint_runs m;
  checkpoint_total_duration_ms := checkpoint_total_duration_ms m;
  checkpoint_last_duration_ms := checkpoint_last_duration_ms m;
  gc_runs := gc_runs m;
  gc_versions_removed_total := gc_versions_removed_total m;
  gc_last_duration_ms := gc_last_duration_ms m |}.

Definition count_gc (removed ms : Z) (m : StorageMetricsInner) : StorageMetricsInner := {|
  wal_backpressure_count := wal_backpressure_count m;
  checkpoint_runs := checkpoint_runs m;
  checkpoint_total_duration_ms := checkpoint_total_duration_ms m;
  checkpoint_last_duration_ms := checkpoint_last_duration_ms m;
  gc_runs := wrap64 (gc_runs m + 1);
  gc_versions_removed_total := wrap64 (gc_versions_removed_total m + removed);
  gc_last_duration_ms := ms |}.

Definition checkpoint_with_metrics (now ms : Z) : N unit :=
  _ ← on_page_store (PageStoreM.checkpoint now);
  modify (fun n => with_metrics (count_checkpoint ms (sn_metrics n)) n).

Definition over_pressure (n : StorageNode) : bool :=
  let stats := PageStoreM.buffer_stats (sn_store n) in
  let config := mc_checkpoint (sn_maintenance n) in
  (max_dirty_pages config <? dirty_count stats) || (max_dirty_bytes config <? dirty_bytes stats).

Definition maybe_checkpoint_by_pressure (now ms : Z) : N bool :=
  over ← gets over_pressure;
  if over : bool then _ ← checkpoint_with_metrics now ms; mret true else mret false.

Definition maybe_checkpoint_with_config (now ms : Z) (config : CheckpointConfig) : N bool :=
  due ← gets (fun n => PageStoreM.should_checkpoint now config (sn_store n));
  if due : bool then _ ← checkpoint_with_metrics now ms; mret true else mret false.

(** ** The tasks *)

Definition writer_start : N unit := fun n =>
  match WalWriterM.open (sn_dir n) with
  | (Ret w, d) => (Ret tt, with_writer (Running w) (with_dir d n))
  | (_, d) => (Ret tt, with_writer Stopped (with_dir d n))
  end.

Definition send_ack (req : WalWriteRequest) (r : outcome Error Z) (acks : gmap Z (outcome Error Z)) :
    gmap Z (outcome Error Z) :=
  match ack req with Some t => <[t := r]> acks | None => acks end.

(** The last loop of a turn of the writer. *)
Fixpoint publish (pending : list WalWriteRequest) (idx count : Z) (replay : list WalBatch)
    (acks : gmap Z (outcome Error Z)) : list WalBatch * gmap Z (outcome Error Z) :=
  match pending with
  | [] => (replay, acks)
  | req :: pending =>
      if idx <? count then publish pending (idx + 1) count (replay ++ [batch req]) (send_ack req (Ret (end_lsn (batch req))) acks)
      else publish pending (idx + 1) count replay (send_ack req (Fail (Io OtherKind)) acks)
  end.

Definition set_tasks (queue : list WalWriteRequest) (replay : list WalBatch) (acks : gmap Z (outcome Error Z)) (c : Channels) : Channels :=
  {| ch_queue := queue; ch_replay := replay; ch_acks := acks; ch_next_ack := ch_next_ack c; ch_locked := ch_locked c |}.

(** A turn of [wal_writer_loop] that found [k] requests to commit together. *)
Definition writer_turn (k : nat) (n : StorageNode) : StorageNode :=
  match sn_writer n with
  | Running w =>
      let c := sn_channels n in
      let pending := take k (ch_queue c) in
      let queue := drop k (ch_queue c) in
      let '(r, w, count, max_end, d) := WalWriterM.append_all pending w 0 0 (sn_dir n) in
      let '(r, d) := match r with Ret _ => WalWriterM.flush d | _ => (r, d) end in
      let n := with_writer (Running w) (with_dir d n) in
      match r with
      | Ret _ =>
          let '(replay, acks) := publish pending 0 count (ch_replay c) (ch_acks c) in
          with_channels (set_tasks queue replay acks c) (with_durable max_end n)
      | _ =>
          let acks := foldl (fun acks req => send_ack req (Fail (Io OtherKind)) acks) (ch_acks c) pending in
          with_channels (set_tasks queue (ch_replay c) acks c) n
      end
  | _ => n
  end.

(** Garbage collection after enough batches. *)
Definition gc_turn (ms : Z) : N unit :=
  n ← gets id;
  let counter := rt_gc_counter (sn_task n) + 1 in
  if counter <? mvcc_gc_every_wal_batches (sn_maintenance n) then modify (set_gc_counter counter) else
  let watermark := gc_watermark (sn_reads n) (sn_durable n) in
  let '(store, (_, removed)) := Mvcc.gc_mvcc_versions (sn_mvcc n) watermark in
  modify (fun n => with_metrics (count_gc removed ms (sn_metrics n)) (with_mvcc store (set_gc_counter 0 n))).

Definition index_batch (b : WalBatch) (n : StorageNode) : StorageNode :=
  with_mvcc (Mvcc.apply_txn_batch_to_mvcc (sn_mvcc n) b)
    (if request_id b =? 0 then n else with_requests (<[request_id b := end_lsn b]> (sn_requests n)) n).

(** What follows the records of a batch. *)
Definition replay_maintenance {AL : Allocator} (now ms : Z) : N unit :=
  _ ← ignore (maybe_checkpoint_by_pressure now ms);
  n ← gets id;
  _ ← (if truncate_wal_cfg (sn_maintenance n) then
         ignore (on_wal (truncate_wal_segments (checkpoint_lsn (sn_store n))))
       else mret tt);
  _ ← ignore (on_wal (wal_usage_exceeds_limits (sn_maintenance n) 0));
  gc_turn ms.

(** The body of [wal_replay_loop] for one batch. *)
Definition replay_batch {AL : Allocator} (now ms : Z) (b : WalBatch) : N unit :=
  _ ← modify (index_batch b);
  n ← gets id;
  buffers ← on_replay (replay_records now (records b) (rt_last_applied (sn_task n)) (rt_buffers (sn_task n)));
  _ ← modify (set_buffers buffers);
  replay_maintenance now ms.

(** A turn of the replay task, when a batch is waiting. *)
Definition replay_turn {AL : Allocator} (now ms : Z) : N unit :=
  c ← gets sn_channels;
  match ch_replay c with
  | [] => mret tt
  | b :: rest =>
      _ ← modify (with_channels (set_tasks (ch_queue c) rest (ch_acks c) c));
      replay_batch now ms b
  end.

(** The end of the replay task, when its channel is closed. *)
Definition replay_exit (now : Z) (order : list PageId) : N unit :=
  n ← gets id;
  _ ← on_replay (drain_buffers now order (rt_buffers (sn_task n)));
  modify (set_buffers ∅).

(** ** Methods *)

Definition validate (c : StorageMaintenanceConfig) : outcome Error unit :=
  if interval (mc_checkpoint c) =? 0 then Fail (Io InvalidInput) else
  if max_dirty_pages (mc_checkpoint c) =? 0 then Fail (Io InvalidInput) else
  if max_dirty_bytes (mc_checkpoint c) =? 0 then Fail (Io InvalidInput) else
  if max_wal_bytes c =? 0 then Fail (Io InvalidInput) else
  if max_wal_segments c =? 0 then Fail (Io InvalidInput) else
  if mvcc_gc_every_wal_batches c =? 0 then Fail (Io InvalidInput) else
  if wal_group_commit_max_batches c =? 0 then Fail (Io InvalidInput) else
  Ret tt.

(** [0..=max_page_id] of [build_page_index]. *)
Fixpoint index_pages (now : Z) (ids : list Z) (index : gset Z) (s : PageStore) : gset Z * PageStore :=
  match ids with
  | [] => (index, s)
  | page_id :: ids =>
      let '(r, s) := PageStoreM.get now page_id s in
      index_pages now ids (match r with Some _ => {[page_id]} ∪ index | None => index end) s
  end.

Definition build_page_index (now : Z) (s : PageStore) : gset Z * PageStore :=
  index_pages now (seqZ 0 (max_page_id s + 1)) ∅ s.

Definition no_channels : Channels :=
  {| ch_queue := []; ch_replay := []; ch_acks := ∅; ch_next_ack := 0; ch_locked := false |}.

Definition no_metrics : StorageMetricsInner := {|
  wal_backpressure_count := 0; checkpoint_runs := 0; checkpoint_total_duration_ms := 0;
  checkpoint_last_duration_ms := 0; gc_runs := 0; gc_versions_removed_total := 0; gc_last_duration_ms := 0 |}.

(** What is on the disk of a node. *)
Record NodeFiles := {
  nf_pages : Disk;
  nf_dir : WalDir
}.

(** [open_with_maintenance], up to the start of the writer task; [created] is the result of
    [create_dir_all]. *)
Definition open_with_maintenance {AL : Allocator} (now : Z) (maintenance : StorageMaintenanceConfig) (files : NodeFiles) :
    outcome Error StorageNode :=
  _ ← validate maintenance;
  let '(created, d) := dir_ok (nf_dir files) in
  _ ← created;
  store ← (PageStoreM.open now (nf_pages files)).1;
  let '(r, d) := unwrap_or read_wal_state 0 d in
  state ← r;
  let last_applied_lsn := Z.max state (checkpoint_lsn store) in
  let '(rc, rp) := replay_wal_segments_to_store now {| rc_mvcc := ∅; rc_requests := ∅ |}
    (ReplayM.new store d last_applied_lsn ∅) in
  rc ← rc;
  let '(r, d) := unwrap_or read_wal_state last_applied_lsn (rp_dir rp) in
  state ← r;
  let recovered := Z.max state last_applied_lsn in
  let '(index, store) := build_page_index now (rp_store rp) in
  Ret (mkNode store index d no_channels NotStarted
        {| rt_last_applied := recovered; rt_buffers := ∅; rt_gc_counter := 0 |}
        (sat_add64 recovered 1) recovered (rc_mvcc rc) (rc_requests rc) ActiveReadsM.new maintenance no_metrics).

Definition open {AL : Allocator} (now : Z) (files : NodeFiles) : outcome Error StorageNode :=
  open_with_maintenance now default_maintenance files.

(** The loop of [validate_incoming_wal_batch] over the records. *)
Fixpoint lsns_match (records : list WalRecord) (want : Z) : bool :=
  match records with
  | [] => true
  | r :: records => (lsn r =? wrap64 want) && lsns_match records (want + 1)
  end.

Definition validate_incoming_wal_batch (b : WalBatch) (n : StorageNode) : outcome Error unit :=
  if negb (start_lsn b =? sn_durable n) then Fail (Io InvalidInput) else
  if end_lsn b <? start_lsn b then Fail (Io InvalidInput) else
  if negb (sat_sub (end_lsn b) (start_lsn b) =? zlen (records b)) then Fail (Io InvalidInput) else
  if lsns_match (records b) (start_lsn b) then Ret tt else Fail (Io InvalidInput).

Definition wal_usage_exceeds (incoming_bytes : Z) : N (option (Z * Z)) :=
  m ← gets sn_maintenance; on_wal (wal_usage_exceeds_limits m incoming_bytes).

Definition truncate_wal {AL : Allocator} : N Z :=
  l ← gets (fun n => checkpoint_lsn (sn_store n)); on_wal (truncate_wal_segments l).

Definition enforce_wal_limits {AL : Allocator} (now ms incoming_bytes : Z) : N unit :=
  over ← wal_usage_exceeds incoming_bytes;
  if bool_decide (over = None) then mret tt else
  before ← wal_usage_exceeds incoming_bytes;
  if bool_decide (before = None) then mret tt else
  _ ← checkpoint_with_metrics now ms;
  m ← gets sn_maintenance;
  _ ← (if truncate_wal_cfg m then _ ← truncate_wal; mret tt else mret tt);
  over ← wal_usage_exceeds incoming_bytes;
  match over with
  | Some _ =>
      _ ← modify (fun n => with_metrics (count_backpressure (sn_metrics n)) n);
      throw (Io WouldBlock)
  | None => mret tt
  end.

(** Putting a request on the channel; it is closed when the writer has stopped. *)
Definition send (b : WalBatch) (ticket : option Z) : N unit :=
  n ← gets id;
  match sn_writer n with
  | Stopped => throw (Io BrokenPipe)
  | _ =>
      let c := sn_channels n in
      modify (with_channels {| ch_queue := ch_queue c ++ [{| batch := b; ack := ticket |}]; ch_replay := ch_replay c;
                               ch_acks := ch_acks c; ch_next_ack := ch_next_ack c; ch_locked := ch_locked c |})
  end.

(** What both appends do before they take the sender's lock. *)
Definition append_check {AL : Allocator} (now ms : Z) (b : WalBatch) : N unit :=
  n ← gets id;
  _ ← lift (validate_incoming_wal_batch b n);
  enforce_wal_limits now ms (WalCodec.wal_batch_encoded_len b).

Definition append_wal_batch {AL : Allocator} (now ms : Z) (b : WalBatch) : N unit :=
  _ ← append_check now ms b; send b None.

(** [append_wal_batch_sync] from the lock on: the request is sent with a fresh ticket. *)
Definition set_lock (locked : bool) (next : Z) (n : StorageNode) : StorageNode :=
  let c := sn_channels n in
  with_channels {| ch_queue := ch_queue c; ch_replay := ch_replay c; ch_acks := ch_acks c; ch_next_ack := next; ch_locked := locked |} n.

Definition sender_free (n : StorageNode) : bool := negb (ch_locked (sn_channels n)).

Definition append_send (b : WalBatch) : N Z :=
  n ← gets id;
  let ticket := ch_next_ack (sn_channels n) in
  _ ← send b (Some ticket);
  _ ← modify (set_lock true (ticket + 1));
  mret ticket.

(** The two waits: [None] while one of them lasts. *)
Definition append_wait (ticket : Z) (b : WalBatch) (n : StorageNode) : option (outcome Error Z * StorageNode) :=
  let unlocked := set_lock false (ch_next_ack (sn_channels n)) n in
  match ch_acks (sn_channels n) !! ticket with
  | Some (Ret durable) =>
      if sn_applied n <? sat_sub (end_lsn b) 1 then None else Some (Ret durable, unlocked)
  | Some r => Some (r, unlocked)
  | None => if sn_writer n is Stopped then Some (Fail (Io BrokenPipe), unlocked) else None
  end.

(** The records of a transaction's pages. *)
Fixpoint image_records (start_lsn : Z) (writes : list (PageId * Page)) : outcome Error (list WalRecord) :=
  match writes with
  | [] => Ret []
  | (page_id, page) :: writes =>
      if negb (zlen page =? PAGE_SIZE) then Fail (InvalidPageSize (zlen page) PAGE_SIZE) else
      records ← image_records (start_lsn + 1) writes;
      Ret ({| lsn := wrap64 start_lsn; op := WAL_OP_PAGE_IMAGE; page_id := page_id; slot_id := 0; key := []; value := page |} :: records)
  end.

(** [append_txn_batch_with_lsn_sync] up to its call of [append_wal_batch_sync]: an answer, or
    the batch to append. *)
Definition txn_batch (request_id start_lsn end_lsn : Z) (writes : list (PageId * Page)) (n : StorageNode) :
    outcome Error (Z + WalBatch) :=
  match (if request_id =? 0 then None else sn_requests n !! request_id) with
  | Some l => Ret (inl l)
  | None =>
      if bool_decide (writes = []) then Fail (Io InvalidInput) else
      if negb (end_lsn =? wrap64 (start_lsn + zlen writes)) then Fail (Io InvalidInput) else
      records ← image_records start_lsn writes;
      Ret (inr {| request_id := request_id; start_lsn := start_lsn; end_lsn := end_lsn; records := records |})
  end.

Definition remember_request (request_id commit_lsn : Z) (n : StorageNode) : StorageNode :=
  if request_id =? 0 then n else with_requests (<[request_id := commit_lsn]> (sn_requests n)) n.

(** The synchronous appends from start to end, when the node does nothing else meanwhile: the
    writer takes a turn, then the replay task takes one.  [Spin] says that the caller is still
    waiting after that. *)
Definition append_await (ticket : Z) (b : WalBatch) : N Z := fun n =>
  match append_wait ticket b n with Some r => r | None => (Spin, n) end.

Definition append_wal_batch_sync {AL : Allocator} (now ms : Z) (b : WalBatch) : N Z :=
  _ ← append_check now ms b;
  ticket ← append_send b;
  _ ← modify (writer_turn 1);
  _ ← replay_turn now ms;
  append_await ticket b.

Definition append_txn_batch_with_lsn_sync {AL : Allocator} (now ms request_id start_lsn end_lsn : Z) (writes : list (PageId * Page)) : N Z :=
  n ← gets id;
  r ← lift (txn_batch request_id start_lsn end_lsn writes n);
  match r with
  | inl commit_lsn => mret commit_lsn
  | inr b =>
      commit_lsn ← append_wal_batch_sync now ms b;
      _ ← modify (remember_request request_id commit_lsn);
      mret commit_lsn
  end.

(** ** Snapshot reads *)

Definition begin_mvcc_ro_with_timeout (now : Z) (timeout : option Z) (n : StorageNode) : MvccReadHandle * StorageNode :=
  let read_lsn := sn_durable n in
  let '(id, reads) := ActiveReadsM.register read_lsn (sn_reads n) in
  ({| mh_read_lsn := read_lsn; mh_started_at := now; mh_timeout := timeout; mh_guard := Some id |}, with_reads reads n).

Definition handle_is_active (h : MvccReadHandle) (n : StorageNode) : bool :=
  match mh_guard h with Some id => ActiveReadsM.contains id (sn_reads n) | None => false end.

Definition handle_close (h : MvccReadHandle) (n : StorageNode) : MvccReadHandle * StorageNode :=
  ({| mh_read_lsn := mh_read_lsn h; mh_started_at := mh_started_at h; mh_timeout := mh_timeout h; mh_guard := None |},
   match mh_guard h with Some id => with_reads (ActiveReadsM.drop_guard id (sn_reads n)) n | None => n end).

Definition is_timed_out (now : Z) (h : MvccReadHandle) : bool :=
  match mh_timeout h with Some t => t <? now - mh_started_at h | None => false end.

Definition mvcc_get (now : Z) (h : MvccReadHandle) (k : bytes) (n : StorageNode) :
    outcome Error (option bytes) * MvccReadHandle * StorageNode :=
  if is_timed_out now h then let '(h, n) := handle_close h n in (Fail TxnTimeout, h, n) else
  if negb (handle_is_active h n) then (Fail (Io Interrupted), h, n) else
  (Ret (default None (Mvcc.mvcc_get_at (sn_mvcc n) k (mh_read_lsn h))), h, n).

Definition abort_active_read (id : Z) (n : StorageNode) : bool * StorageNode :=
  let '(b, reads) := ActiveReadsM.abort id (sn_reads n) in (b, with_reads reads n).

Definition txn_get (k : bytes) (read_lsn : Z) (n : StorageNode) : option (option bytes) :=
  Mvcc.mvcc_get_at (sn_mvcc n) k read_lsn.

(** ** Pages *)

Definition get_page_latest (now page_id : Z) (n : StorageNode) : option (Page * Z) * StorageNode :=
  let '(r, s) := PageStoreM.get_with_lsn now page_id (sn_store n) in (r, with_store s n).

Definition scan_pages_latest (now start_page_id limit : Z) (n : StorageNode) : list (PageId * (Z * Page)) * StorageNode :=
  let '(r, s) := PageStoreM.scan_pages_with_lsn now start_page_id limit (sn_store n) in (r, with_store s n).

Definition put (now page_id : Z) (value : bytes) (n : StorageNode) : StorageNode :=
  let n := with_store (PageStoreM.put_direct now page_id value (sn_store n)).2 n in
  with_index ({[page_id]} ∪ sn_index n) n.

Definition get (now page_id : Z) (n : StorageNode) : option Page * StorageNode :=
  if bool_decide (page_id ∈ sn_index n) then
    let '(r, s) := PageStoreM.get now page_id (sn_store n) in (r, with_store s n)
  else (None, n).

Definition delete (now page_id : Z) (n : StorageNode) : StorageNode :=
  let n := with_store (PageStoreM.put_direct now page_id blank_page (sn_store n)).2 n in
  with_index (sn_index n ∖ {[page_id]}) n.

Definition contains (now page_id : Z) (n : StorageNode) : bool * StorageNode :=
  if bool_decide (page_id ∈ sn_index n) then
    let '(r, s) := PageStoreM.contains now page_id (sn_store n) in (r, with_store s n)
  else (false, n).

Definition node_keys (n : StorageNode) : list PageId := elements (sn_index n).
Definition node_len (n : StorageNode) : Z := Z.of_nat (size (sn_index n)).
Definition node_is_empty (n : StorageNode) : bool := bool_decide (sn_index n = ∅).

Definition checkpoint_and_truncate {AL : Allocator} (now ms : Z) : N Z := _ ← checkpoint_with_metrics now ms; truncate_wal.

(** One turn, and the end, of the loop of [start_background_checkpoint_with_truncate]. *)
Definition background_tick {AL : Allocator} (now ms : Z) (config : CheckpointConfig) (truncate : bool) : N unit :=
  n ← gets id;
  if shutdown (sn_store n) then mret tt else
  done ← unwrap_or (maybe_checkpoint_with_config now ms config) false;
  if (done : bool) && truncate then ignore truncate_wal else mret tt.

Definition background_exit {AL : Allocator} (now ms : Z) (truncate : bool) : N unit :=
  _ ← ignore (checkpoint_with_metrics now ms);
  if truncate : bool then ignore truncate_wal else mret tt.

Definition node_shutdown (n : StorageNode) : StorageNode := with_store (PageStoreM.set_shutdown (sn_store n)) n.

End NodeM.
