(* ===== verification/NodeSpec.v ===== *)
(** * NodeSpec: the log of a node, recovery from it, and commits

    What the directory of a node holds is described by the batches in each segment
    ([render]); the pages of a node by the map [contents] of its page store.  The lemmas
    follow a commit through the writer and the replay task, and recovery through the
    segments. *)

From stdpp Require Import base numbers list list_numbers gmap fin_maps sorting.
From S2P Require Import Prelude Common WalCodec Mvcc PageStore Node.

Module NodeSpec.
Import WalCodecSpec PageStoreSpec WalFilesM ReplayM NodeM.

Lemma wrap64_small v : 0 <= v < U64 -> wrap64 v = v.
Proof. intros H. unfold wrap64. by apply Z.mod_small. Qed.

(** ** The directory *)

Definition readable (b : WalBatch) : Prop := batch_ok b /\ zlen (WalCodec.encode_body b) <= MAX_WAL_FRAME_LEN.

Definition render (bs : list WalBatch) : bytes := concat (frame <$> bs).

(** The segments hold the frames of the batches of [L], and no call will fail. *)
Record dir_log (d : WalDir) (L : gmap Z (list WalBatch)) : Prop := {
  dl_faults : dir_faults d = [];
  dl_segments : segments d = render <$> L;
  dl_readable : map_Forall (fun _ bs => Forall readable bs) L
}.

Lemma dir_ok_none d : dir_faults d = [] -> dir_ok d = (Ret tt, d).
Proof. intros H. unfold dir_ok, dir_sys, mbind, st_bind. by rewrite H. Qed.

Lemma dir_sys_none d : dir_faults d = [] -> dir_sys d = (Ret None, d).
Proof. intros H. unfold dir_sys. by rewrite H. Qed.

Lemma list_wal_segments_none d : dir_faults d = [] -> list_wal_segments d = (Ret (segment_ids d), d).
Proof. intros H. unfold list_wal_segments. by rewrite (st_bind_ret _ _ _ _ _ (dir_ok_none d H)). Qed.

Lemma elem_segment_ids d id : id ∈ segment_ids d <-> is_Some (segments d !! id).
Proof.
  unfold segment_ids. rewrite merge_sort_Permutation, list_elem_of_fmap. split.
  - intros ([i f] & -> & Hin%elem_of_map_to_list). by exists f.
  - intros [f Hf]. exists (id, f). split; [done|]. by apply elem_of_map_to_list.
Qed.

Lemma segment_ids_nodup d : NoDup (segment_ids d).
Proof. unfold segment_ids. rewrite merge_sort_Permutation. apply NoDup_fst_map_to_list. Qed.

Lemma read_next_none {AL : Allocator} d file : dir_faults d = [] -> read_next file d = (Ret (WalCodec.read_wal_batch file), d).
Proof. intros H. unfold read_next. by rewrite (st_bind_ret _ _ _ _ _ (dir_sys_none d H)). Qed.

Lemma sum_sizes_none d ids : dir_faults d = [] -> (forall i, i ∈ ids -> is_Some (segments d !! i)) ->
  forall n, exists k, sum_sizes ids n d = (Ret k, d).
Proof.
  intros H. induction ids as [|i ids IH]; intros Hall n; [by eexists|]. cbn [sum_sizes].
  rewrite (st_bind_ret _ _ _ _ _ (dir_ok_none d H)), st_bind_gets.
  destruct (Hall i ltac:(by left)) as [f ->]. apply IH. intros j Hj. apply Hall. by right.
Qed.

Lemma wal_usage_none d config n : dir_faults d = [] -> exists o, wal_usage_exceeds_limits config n d = (Ret o, d).
Proof.
  intros H. unfold wal_usage_exceeds_limits.
  destruct (sum_sizes_none d (segment_ids d) H ltac:(intros i; apply elem_segment_ids) 0) as [k Hk].
  assert (Hu : wal_usage d = (Ret (zlen (segment_ids d), k), d)).
  { unfold wal_usage. rewrite (st_bind_ret _ _ _ _ _ (list_wal_segments_none d H)), (st_bind_ret _ _ _ _ _ Hk). done. }
  rewrite (st_bind_ret _ _ _ _ _ Hu). destruct (_ || _); by eexists.
Qed.

(** ** Reading a segment *)

Lemma read_end {AL : Allocator} : WalCodec.read_wal_batch [] = (Ret None, []).
Proof. reflexivity. Qed.

Lemma read_render {AL : Allocator} b bs : readable b -> WalCodec.read_wal_batch (render (b :: bs)) = (Ret (Some b), render bs).
Proof. intros [Hb Hl]. unfold render. cbn [fmap list_fmap concat]. by apply read_frame. Qed.

Lemma length_frame b : (1 <= length (frame b))%nat.
Proof.
  pose proof (zlen_frame b) as H. rewrite encoded_len_frame in H. pose proof (zlen_nonneg (WalCodec.encode_body b)).
  unfold zlen in *. lia.
Qed.

Lemma length_render bs : (length bs <= length (render bs))%nat.
Proof.
  induction bs as [|b bs IH]; [done|]. unfold render in *. cbn [fmap list_fmap concat length].
  rewrite length_app. pose proof (length_frame b). lia.
Qed.

Definition max_end (bs : list WalBatch) (m : Z) : Z := foldl (fun m b => Z.max m (end_lsn b)) m bs.

Lemma max_lsn_loop_render {AL : Allocator} d bs : dir_faults d = [] -> Forall readable bs ->
  forall fuel m, (length bs < fuel)%nat -> max_lsn_loop fuel (render bs) m d = (Ret (max_end bs m), d).
Proof.
  intros H. induction bs as [|b bs IH]; intros Hr fuel m Hf; (destruct fuel as [|fuel]; [cbn in Hf; lia|]); cbn [max_lsn_loop];
    rewrite (st_bind_ret _ _ _ _ _ (read_next_none d _ H)).
  - change (render []) with (@nil Z). by rewrite read_end.
  - apply Forall_cons in Hr as [Hb Hr]. rewrite read_render by done. cbn [length] in Hf. rewrite IH; [|done|lia].
    unfold max_end. cbn [foldl]. do 3 f_equal. destruct (Z.ltb_spec m (end_lsn b)); lia.
Qed.

Lemma segment_max_lsn {AL : Allocator} d L id bs :
  dir_log d L -> L !! id = Some bs -> get_wal_segment_max_lsn id d = (Ret (max_end bs 0), d).
Proof.
  intros [Hf Hs Hr] Hid. unfold get_wal_segment_max_lsn. rewrite (st_bind_ret _ _ _ _ _ (dir_ok_none d Hf)), st_bind_gets.
  rewrite Hs, lookup_fmap, Hid. cbn [fmap option_fmap option_map]. apply max_lsn_loop_render; [done|by apply (Hr id)|].
  pose proof (length_render bs). lia.
Qed.

Lemma max_end_le bs : forall m, m <= max_end bs m /\ forall b, b ∈ bs -> end_lsn b <= max_end bs m.
Proof.
  induction bs as [|b bs IH]; intros m; cbn.
  - split; [lia|]. intros b Hin. by apply elem_of_nil in Hin.
  - fold (max_end bs (Z.max m (end_lsn b))). destruct (IH (Z.max m (end_lsn b))) as [H1 H2]. split; [lia|].
    intros b' [->|Hin]%elem_of_cons; [lia|by apply H2].
Qed.

(** ** Truncation *)

(** What truncation removes: whole segments, all of whose batches end below the LSN. *)
Record truncated (L L' : gmap Z (list WalBatch)) (keep : list Z) (l : Z) : Prop := {
  tr_sub : forall id bs, L' !! id = Some bs -> L !! id = Some bs;
  tr_keep : forall id, id ∈ keep -> L' !! id = L !! id;
  tr_gone : forall id bs, L !! id = Some bs -> L' !! id = None -> Forall (fun b => end_lsn b <= l) bs
}.

Lemma truncated_refl L keep l : truncated L L keep l.
Proof. split; [done|done|]. intros id bs H1 H2. by rewrite H1 in H2. Qed.

Lemma truncated_trans L1 L2 L3 keep l : truncated L1 L2 keep l -> truncated L2 L3 keep l -> truncated L1 L3 keep l.
Proof.
  intros [A1 B1 C1] [A2 B2 C2]. split.
  - intros id bs H. by apply A1, A2.
  - intros id Hid. by rewrite B2, B1.
  - intros id bs H1 H3. destruct (L2 !! id) as [bs'|] eqn:H2; [|by eapply C1].
    pose proof (A1 _ _ H2) as H. rewrite H in H1. injection H1 as <-. by eapply C2.
Qed.

Lemma truncate_loop_cases {AL : Allocator} keep l ids : forall d L k,
  dir_log d L -> (forall i, i ∈ ids -> is_Some (L !! i) /\ i ∉ keep) -> NoDup ids ->
  exists n d' L', truncate_loop ids l k d = (Ret n, d') /\ dir_log d' L' /\ truncated L L' keep l /\
    wal_state d' = wal_state d.
Proof.
  induction ids as [|i ids IH]; intros d L k Hd Hall Hnd; cbn [truncate_loop].
  - exists k, d, L. split; [done|]. split; [done|]. split; [apply truncated_refl|done].
  - apply NoDup_cons in Hnd as [Hni Hnd]. destruct (Hall i ltac:(by left)) as [[bs Hbs] Hk].
    assert (Hm : unwrap_or (get_wal_segment_max_lsn i) 0 d = (Ret (max_end bs 0), d)).
    { unfold unwrap_or. by rewrite (segment_max_lsn d L i bs Hd Hbs). }
    rewrite (st_bind_ret _ _ _ _ _ Hm). destruct (_ && _) eqn:E.
    + apply andb_true_iff in E as [_ E%Z.leb_le].
      set (d1 := set_segments (base.delete i (segments d)) d).
      assert (Hrm : unwrap_or (_ ← remove_file i; mret true) false d = (Ret true, d1)).
      { unfold unwrap_or, remove_file. erewrite st_bind_ret; [reflexivity|].
        rewrite (st_bind_ret _ _ _ _ _ (dir_ok_none d (dl_faults d L Hd))). done. }
      rewrite (st_bind_ret _ _ _ _ _ Hrm).
      assert (Hd1 : dir_log d1 (base.delete i L)).
      { destruct Hd as [Hf Hs Hr]. split; cbn; [done|by rewrite Hs, fmap_delete|by apply map_Forall_delete]. }
      destruct (IH d1 (base.delete i L) (k + 1) Hd1) as (n & d' & L' & Ht & Hd' & Htr & Hw); [|done|].
      { intros j Hj. destruct (Hall j ltac:(by right)) as [[bs' Hbs'] Hkj]. split; [|done].
        exists bs'. rewrite lookup_delete_ne; [done|intros ->; done]. }
      exists n, d', L'. split; [done|]. split; [done|]. split; [|by rewrite Hw]. eapply truncated_trans; [|exact Htr].
      split.
      * intros j b Hj. by apply lookup_delete_Some in Hj as [_ ?].
      * intros j Hj. apply lookup_delete_ne. intros ->. done.
      * intros j b Hj Hn. destruct (decide (i = j)) as [<-|Hne]; [|by rewrite lookup_delete_ne, Hj in Hn].
        rewrite Hbs in Hj. injection Hj as <-. apply Forall_forall. intros b Hb.
        destruct (max_end_le bs 0) as [_ Hle]. specialize (Hle b Hb). lia.
    + apply IH; [done| |done]. intros j Hj. apply Hall. by right.
Qed.

Lemma truncate_cases {AL : Allocator} d L l :
  dir_log d L ->
  exists n d' L', truncate_wal_segments l d = (Ret n, d') /\ dir_log d' L' /\ wal_state d' = wal_state d /\
    truncated L L' (match last (segment_ids d) with Some i => [i] | None => [] end) l.
Proof.
  intros Hd. unfold truncate_wal_segments. rewrite (st_bind_ret _ _ _ _ _ (list_wal_segments_none d (dl_faults d L Hd))).
  destruct (Z.leb_spec (zlen (segment_ids d)) 1) as [Hle|Hgt].
  { exists 0, d, L. split; [done|]. split; [done|]. split; [done|]. apply truncated_refl. }
  destruct (exists_last (l := segment_ids d)) as (ids & i & Hids); [intros E; rewrite E in Hgt; by compute in Hgt|].
  pose proof (segment_ids_nodup d) as Hnd. rewrite Hids in Hnd |- *. rewrite last_snoc.
  apply NoDup_app in Hnd as (Hnd & Hdis & _).
  replace (take (length (ids ++ [i]) - 1) (ids ++ [i])) with ids
    by (rewrite length_app; cbn [length]; replace (length ids + 1 - 1)%nat with (length ids) by lia; by rewrite take_app_length).
  destruct (truncate_loop_cases [i] l ids d L 0 Hd) as (n & d' & L' & Ht & Hd' & Htr & Hw); [|done|].
  - intros j Hj. split.
    + assert (Hin : j ∈ segment_ids d) by (rewrite Hids; set_solver).
      apply elem_segment_ids in Hin as [f Hf]. rewrite (dl_segments d L Hd), lookup_fmap in Hf.
      destruct (L !! j); [by eexists|discriminate Hf].
    + intros ->%list_elem_of_singleton. exact (Hdis i Hj ltac:(by left)).
  - exists n, d', L'. done.
Qed.

(** ** Applying page images *)

Record image_ok (r : WalRecord) : Prop := {
  im_op : op r = WAL_OP_PAGE_IMAGE;
  im_len : zlen (value r) = PAGE_SIZE;
  im_id : id_ok (page_id r)
}.

Definition write_image (m : PageId -> option Page) (r : WalRecord) : PageId -> option Page :=
  fun i => if bool_decide (i = page_id r) then nonzero (value r) else m i.

(** A replay over working disks whose pages are [m]. *)
Record rp_ok (rp : PageStoreReplay) (m : PageId -> option Page) : Prop := {
  rk_store : store_ok (rp_store rp);
  rk_faults : faults (disk (rp_store rp)) = [];
  rk_dir : dir_faults (rp_dir rp) = [];
  rk_max : max_page_id (rp_store rp) < MAX_ID;
  rk_abs : abs (rp_store rp) m
}.

#[local] Opaque page_at nonzero.

Lemma read_page_none now rp m id :
  rp_ok rp m -> id_ok id ->
  exists p rp', read_page now id rp = (Ret p, rp') /\ rp_ok rp' m /\ zlen (default blank_page p) = PAGE_SIZE /\
    rp_dir rp' = rp_dir rp /\ rp_last_applied rp' = rp_last_applied rp /\ rp_index rp' = rp_index rp /\ rp_applied rp' = rp_applied rp.
Proof.
  intros [Hs Hf Hd Hm Ha] Hid. unfold read_page, on_store, PageStoreM.get.
  destruct (get_with_lsn_cases now id (rp_store rp) Hs Hid) as (r & s' & -> & Hok & Hc & Hr & Hf' & _ & Hmax).
  eexists _, _. split; [reflexivity|]. split; [split; cbn [rp_store rp_dir]; rewrite ?Hmax; auto|].
  { intros i Hi. rewrite Hc. by apply Ha. }
  split; [|done]. destruct Hr as [->|[_ Hne]]; [|by rewrite Hf in Hne].
  destruct (contents (rp_store rp) id) as [p|] eqn:E; cbn [default]; [exact (contents_len _ _ _ Hs Hid E)|].
  unfold blank_page. by apply zlen_zrepeat.
Qed.

Lemma write_page_none now rp m id p l :
  rp_ok rp m -> id_ok id -> zlen p = PAGE_SIZE ->
  exists rp', write_page now id p l rp = (Ret tt, rp') /\
    rp_ok rp' (fun i => if bool_decide (i = id) then nonzero p else m i) /\
    rp_dir rp' = rp_dir rp /\ rp_last_applied rp' = rp_last_applied rp /\ rp_applied rp' = rp_applied rp /\
    rp_index rp' = {[id]} ∪ rp_index rp.
Proof.
  intros [Hs Hf Hd Hm Ha] Hid Hl. unfold write_page.
  destruct (put_ok now id p l (rp_store rp) Hs Hid Hl) as (s' & Hp & Hok & Hdisk & Hc).
  set (rp1 := mkReplay s' (rp_dir rp) (rp_last_applied rp) (rp_index rp) (rp_applied rp)).
  assert (Hon : on_store (PageStoreM.put now id p l) rp = (Ret tt, rp1)) by (unfold on_store; by rewrite Hp).
  rewrite (st_bind_ret _ _ _ _ _ Hon). eexists. split; [reflexivity|]. split; [|done].
  split; cbn [rp_store rp_dir rp1]; [done|by rewrite Hdisk|done| |].
  { rewrite put_eq in Hp by done. injection Hp as <-. cbn [put_page max_page_id]. unfold id_ok in Hid.
    cbn. lia. }
  intros i Hi. rewrite Hc. case_bool_decide; [done|by apply Ha].
Qed.

(** The state of the directory when the LSN moves from [l] to [l']. *)
Definition moved_dir (l l' : Z) (d : WalDir) : WalDir :=
  if l <? l' then mkDir (segments d) (Some (le_bytes 8 l')) [] else d.

Lemma write_wal_state_none l d : dir_faults d = [] ->
  write_wal_state l d = (Ret tt, mkDir (segments d) (Some (le_bytes 8 l)) []).
Proof.
  intros H. unfold write_wal_state. do 4 rewrite (st_bind_ret _ _ _ _ _ (dir_ok_none d H)). unfold modify. by rewrite H.
Qed.

Lemma update_last_applied_none l rp :
  dir_faults (rp_dir rp) = [] ->
  update_last_applied l rp = (Ret tt, mkReplay (rp_store rp) (moved_dir (rp_last_applied rp) l (rp_dir rp))
    (Z.max (rp_last_applied rp) l) (rp_index rp) (if rp_last_applied rp <? l then l else rp_applied rp)).
Proof.
  intros H. unfold update_last_applied, moved_dir. rewrite st_bind_gets, st_bind_modify.
  destruct (rp_last_applied rp <? l); [|done]. rewrite st_bind_modify. unfold ignore, on_dir. cbn [rp_dir rp_store rp_last_applied rp_index rp_applied].
  by rewrite (write_wal_state_none l _ H).
Qed.

Lemma apply_image page r : image_ok r -> zlen page = PAGE_SIZE -> apply_wal_record page r = Ret (value r).
Proof. intros [Ho Hl _] Hp. unfold apply_wal_record. by rewrite Ho, Hl, Hp. Qed.

(** Redo of one image, on either path. *)
Record redone (rp rp' : PageStoreReplay) (l : Z) : Prop := {
  rd_dir : rp_dir rp' = moved_dir (rp_last_applied rp) l (rp_dir rp);
  rd_last : rp_last_applied rp' = Z.max (rp_last_applied rp) l;
  rd_applied : rp_applied rp' = if rp_last_applied rp <? l then l else rp_applied rp
}.

Lemma apply_record_image now rp m r :
  rp_ok rp m -> image_ok r ->
  exists rp', apply_record now r rp = (Ret tt, rp') /\ rp_ok rp' (write_image m r) /\ redone rp rp' (lsn r).
Proof.
  intros Hok Hr. unfold apply_record.
  destruct (read_page_none now rp m (page_id r) Hok (im_id r Hr)) as (p & rp1 & H1 & Hok1 & Hl1 & Hd1 & Hla1 & _ & Hap1).
  rewrite (st_bind_ret _ _ _ _ _ H1), (st_bind_lift _ _ _ _ (apply_image _ r Hr Hl1)).
  destruct (write_page_none now rp1 m (page_id r) (value r) (lsn r) Hok1 (im_id r Hr) (im_len r Hr))
    as (rp2 & H2 & Hok2 & Hd2 & Hla2 & Hap2 & _).
  rewrite (st_bind_ret _ _ _ _ _ H2), (update_last_applied_none _ _ (rk_dir _ _ Hok2)).
  eexists. split; [reflexivity|]. split.
  - destruct Hok2 as [A B C M D]. split; cbn [rp_store rp_dir]; [done|done| |done|done].
    unfold moved_dir. by destruct (_ <? _).
  - split; cbn [rp_dir rp_last_applied rp_applied]; rewrite ?Hd2, ?Hla2, ?Hap2, ?Hd1, ?Hla1, ?Hap1; reflexivity.
Qed.

(** ** Recovery *)

(** The pages after redoing the images above [l]; the last LSN seen. *)
Definition redo (l : Z) (m : PageId -> option Page) (recs : list WalRecord) : PageId -> option Page :=
  foldl (fun m r => if l <? lsn r then write_image m r else m) m recs.

Definition top (l : Z) (recs : list WalRecord) : Z := foldl (fun x r => Z.max x (lsn r)) l recs.

Lemma redo_app l m r1 r2 : redo l m (r1 ++ r2) = redo l (redo l m r1) r2.
Proof. apply foldl_app. Qed.

Lemma top_app l r1 r2 : top l (r1 ++ r2) = top (top l r1) r2.
Proof. apply foldl_app. Qed.

Lemma top_le l recs : l <= top l recs.
Proof. revert l. induction recs as [|r recs IH]; intros l; cbn; [lia|]. etransitivity; [|apply IH]. lia. Qed.

Lemma moved_dir_trans a b c d : dir_faults d = [] -> a <= b <= c -> moved_dir b c (moved_dir a b d) = moved_dir a c d.
Proof.
  intros Hf Habc. unfold moved_dir. destruct (Z.ltb_spec a b), (Z.ltb_spec b c), (Z.ltb_spec a c); try lia; try done.
  by replace c with b by lia.
Qed.

Lemma moved_dir_same l d : moved_dir l l d = d.
Proof. unfold moved_dir. by rewrite Z.ltb_irrefl. Qed.

(** The records above [l] are page images, each numbered above everything before it. *)
Definition later (l : Z) : relation WalRecord := fun r1 r2 => l < lsn r2 -> lsn r1 < lsn r2.

Record redoable (l : Z) (recs : list WalRecord) : Prop := {
  re_images : Forall (fun r => l < lsn r -> image_ok r) recs;
  re_sorted : StronglySorted (later l) recs
}.

(** A log of old records has nothing to redo. *)
Lemma redo_old l recs : Forall (fun r => lsn r <= l) recs -> forall m, redo l m recs = m.
Proof.
  intros H. induction H as [|r recs Hr _ IH]; intros m; [done|]. unfold redo in *. cbn [foldl].
  destruct (Z.ltb_spec l (lsn r)); [lia|]. apply IH.
Qed.

Lemma redoable_old l recs : Forall (fun r => lsn r <= l) recs -> redoable l recs.
Proof.
  intros H. split.
  - eapply Forall_impl; [exact H|]. cbn. intros r Hr Hl. lia.
  - induction H as [|r recs Hr Hrs IH]; constructor; [done|]. eapply Forall_impl; [exact Hrs|]. unfold later. cbn. intros x Hx Hl. lia.
Qed.

(** Records that are still to be looked at, and what looking at them does. *)
Record pending (l : Z) (rp : PageStoreReplay) (recs : list WalRecord) : Prop := {
  pe_redo : redoable l recs;
  pe_next : Forall (fun r => l < lsn r -> rp_last_applied rp < lsn r) recs;
  pe_from : l <= rp_last_applied rp
}.

Record recovered (l : Z) (rp : PageStoreReplay) (m : PageId -> option Page) (rp' : PageStoreReplay) (recs : list WalRecord) : Prop := {
  rv_ok : rp_ok rp' (redo l m recs);
  rv_last : rp_last_applied rp' = top (rp_last_applied rp) recs;
  rv_dir : rp_dir rp' = moved_dir (rp_last_applied rp) (rp_last_applied rp') (rp_dir rp)
}.

Lemma recovered_nil l rp m : rp_ok rp m -> recovered l rp m rp [].
Proof. intros H. split; [done|done|]. by rewrite moved_dir_same. Qed.

Lemma recovered_trans l rp m rp1 rp2 r1 r2 :
  dir_faults (rp_dir rp) = [] -> recovered l rp m rp1 r1 -> recovered l rp1 (redo l m r1) rp2 r2 -> recovered l rp m rp2 (r1 ++ r2).
Proof.
  intros Hf [A1 B1 C1] [A2 B2 C2]. split.
  - by rewrite redo_app.
  - by rewrite top_app, <-B1.
  - rewrite C2, C1. apply moved_dir_trans; [done|]. rewrite B1 at 1. rewrite B2. split; apply top_le.
Qed.

Lemma pending_app l rp r1 r2 :
  pending l rp (r1 ++ r2) -> pending l rp r1 /\
  (forall m rp', recovered l rp m rp' r1 -> pending l rp' r2).
Proof.
  intros [[Hi Hs] Hn Hl]. apply Forall_app in Hi as [Hi1 Hi2], Hn as [Hn1 Hn2].
  apply StronglySorted_app in Hs as (Hx & Hs1 & Hs2). split; [by split|]. intros m rp' [_ Hlast _]. split; [by split| |].
  - rewrite Forall_forall in Hn2 |- *. intros r Hr Hlr. rewrite Hlast. specialize (Hn2 r Hr Hlr).
    assert (Hall : Forall (fun r' => lsn r' < lsn r) r1).
    { apply Forall_forall. intros r' Hr'. by apply (Hx r' r). }
    clear -Hn2 Hall. revert Hn2. generalize (rp_last_applied rp) as x. induction r1 as [|r' r1 IH]; intros x Hx; [done|].
    apply Forall_cons in Hall as [H1 H2]. cbn. apply IH; [done|lia].
  - rewrite Hlast. pose proof (top_le (rp_last_applied rp) r1). lia.
Qed.

Lemma image_not_txn r : image_ok r -> is_txn_op r = false.
Proof. intros [Ho _ _]. unfold is_txn_op. by rewrite Ho. Qed.

Lemma recover_records_redo now l recs : forall rp m,
  rp_ok rp m -> pending l rp recs ->
  exists rp', recover_records now recs rp = (Ret tt, rp') /\ recovered l rp m rp' recs.
Proof.
  induction recs as [|r recs IH]; intros rp m Hok Hp; cbn [recover_records].
  { exists rp. split; [done|by apply recovered_nil]. }
  destruct (pending_app l rp [r] recs Hp) as [[[Hi1 _] Hn1 Hl] Hp2]. apply Forall_cons in Hi1 as [Hi _].
  apply Forall_cons in Hn1 as [Hn _]. rewrite st_bind_gets.
  destruct (Z.leb_spec (lsn r) (rp_last_applied rp)) as [Hle|Hgt]; cbn [orb].
  - assert (Hrv : recovered l rp m rp [r]).
    { split; cbn; [|lia|by rewrite moved_dir_same]. destruct (Z.ltb_spec l (lsn r)) as [Hlt|]; [|done]. specialize (Hn Hlt). lia. }
    destruct (IH rp m Hok (Hp2 m rp Hrv)) as (rp' & Hrun & Hrv'). exists rp'. split; [done|].
    apply (recovered_trans l rp m rp rp' [r] recs (rk_dir _ _ Hok) Hrv). destruct Hrv' as [A B C]. split; [|done|done].
    cbn. destruct (Z.ltb_spec l (lsn r)) as [Hlt|]; [specialize (Hn Hlt); lia|done].
  - assert (Hr : image_ok r) by (apply Hi; lia). rewrite (image_not_txn r Hr).
    destruct (apply_record_image now rp m r Hok Hr) as (rp1 & H1 & Hok1 & [Hd1 Hla1 _]).
    rewrite (st_bind_ret _ _ _ _ _ H1).
    assert (Hredo : redo l m [r] = write_image m r) by (cbn; destruct (Z.ltb_spec l (lsn r)); [done|lia]).
    assert (Hrv : recovered l rp m rp1 [r]).
    { split; [by rewrite Hredo|by rewrite Hla1|]. rewrite Hd1, Hla1. f_equal. lia. }
    destruct (IH rp1 (write_image m r) Hok1 (Hp2 m rp1 Hrv)) as (rp' & Hrun & Hrv'). exists rp'. split; [done|].
    apply (recovered_trans l rp m rp1 rp' [r] recs (rk_dir _ _ Hok) Hrv). by rewrite Hredo.
Qed.

Definition log_records (bs : list WalBatch) : list WalRecord := concat (records <$> bs).

Lemma recover_frames_redo {AL : Allocator} now l bs : forall fuel rp m rc,
  (length bs < fuel)%nat -> Forall readable bs -> rp_ok rp m -> pending l rp (log_records bs) ->
  exists rp', recover_frames fuel now (render bs) rc rp = (Ret (foldl (fun rc b => recover_batch_index b rc) rc bs), rp') /\
    recovered l rp m rp' (log_records bs).
Proof.
  induction bs as [|b bs IH]; intros fuel rp m rc Hfuel Hr Hok Hp; (destruct fuel as [|fuel]; [cbn in Hfuel; lia|]);
    cbn [recover_frames].
  - assert (Hn : on_dir (read_next (render [])) rp = (Ret (Ret None, []), rp)).
    { unfold on_dir. rewrite (read_next_none _ _ (rk_dir _ _ Hok)). change (render []) with (@nil Z). rewrite read_end. by destruct rp. }
    rewrite (st_bind_ret _ _ _ _ _ Hn). exists rp. split; [done|by apply recovered_nil].
  - apply Forall_cons in Hr as [Hb Hr]. cbn [length] in Hfuel.
    assert (Hn : on_dir (read_next (render (b :: bs))) rp = (Ret (Ret (Some b), render bs), rp)).
    { unfold on_dir. rewrite (read_next_none _ _ (rk_dir _ _ Hok)), (read_render b bs Hb). by destruct rp. }
    rewrite (st_bind_ret _ _ _ _ _ Hn). cbv iota beta. rewrite (st_bind_lift _ _ _ (Some b)) by reflexivity.
    change (log_records (b :: bs)) with (records b ++ log_records bs) in Hp |- *.
    destruct (pending_app _ _ _ _ Hp) as [Hp1 Hp2].
    destruct (recover_records_redo now l (records b) rp m Hok Hp1) as (rp1 & H1 & Hrv1).
    rewrite (st_bind_ret _ _ _ _ _ H1).
    destruct (IH fuel rp1 (redo l m (records b)) (recover_batch_index b rc) ltac:(lia) Hr (rv_ok _ _ _ _ _ Hrv1) (Hp2 m rp1 Hrv1))
      as (rp' & H2 & Hrv2).
    exists rp'. split; [done|]. exact (recovered_trans l rp m rp1 rp' _ _ (rk_dir _ _ Hok) Hrv1 Hrv2).
Qed.

(** The batches of the log in the order recovery meets them. *)
Definition batches_of (L : gmap Z (list WalBatch)) (ids : list Z) : list WalBatch :=
  concat ((fun id => default [] (L !! id)) <$> ids).

Lemma log_records_app b1 b2 : log_records (b1 ++ b2) = log_records b1 ++ log_records b2.
Proof. unfold log_records. by rewrite fmap_app, concat_app. Qed.

Lemma segments_moved l l' d : segments (moved_dir l l' d) = segments d.
Proof. unfold moved_dir. by destruct (l <? l'). Qed.

Lemma recover_segments_redo {AL : Allocator} now l L ids : forall rp m rc,
  segments (rp_dir rp) = render <$> L -> map_Forall (fun _ bs => Forall readable bs) L ->
  (forall i, i ∈ ids -> is_Some (L !! i)) -> rp_ok rp m -> pending l rp (log_records (batches_of L ids)) ->
  exists rp', recover_segments now ids rc rp =
      (Ret (foldl (fun rc b => recover_batch_index b rc) rc (batches_of L ids)), rp') /\
    recovered l rp m rp' (log_records (batches_of L ids)).
Proof.
  induction ids as [|i ids IH]; intros rp m rc Hseg Hr Hall Hok Hp; cbn [recover_segments].
  { exists rp. split; [done|by apply recovered_nil]. }
  destruct (Hall i ltac:(by left)) as [bs Hbs].
  assert (Hbo : batches_of L (i :: ids) = bs ++ batches_of L ids) by (unfold batches_of; cbn; by rewrite Hbs).
  rewrite Hbo, log_records_app in Hp |- *. destruct (pending_app _ _ _ _ Hp) as [Hp1 Hp2].
  assert (Hdok : on_dir dir_ok rp = (Ret tt, rp)) by (unfold on_dir; rewrite (dir_ok_none _ (rk_dir _ _ Hok)); by destruct rp).
  rewrite (st_bind_ret _ _ _ _ _ Hdok), st_bind_gets, Hseg, lookup_fmap, Hbs. cbn [fmap option_fmap option_map].
  destruct (recover_frames_redo now l bs (S (length (render bs))) rp m rc) as (rp1 & H1 & Hrv1);
    [pose proof (length_render bs); lia|by apply (Hr i)|done|done|].
  rewrite (st_bind_ret _ _ _ _ _ H1).
  destruct (IH rp1 (redo l m (log_records bs)) (foldl (fun rc b => recover_batch_index b rc) rc bs)) as (rp' & H2 & Hrv2).
  - rewrite (rv_dir _ _ _ _ _ Hrv1), segments_moved. exact Hseg.
  - exact Hr.
  - intros j Hj. apply Hall. by right.
  - exact (rv_ok _ _ _ _ _ Hrv1).
  - exact (Hp2 m rp1 Hrv1).
  - exists rp'. rewrite foldl_app. split; [exact H2|].
    exact (recovered_trans l rp m rp1 rp' _ _ (rk_dir _ _ Hok) Hrv1 Hrv2).
Qed.

Lemma replay_wal_segments_redo {AL : Allocator} now l L rp m rc :
  dir_log (rp_dir rp) L -> rp_ok rp m -> pending l rp (log_records (batches_of L (segment_ids (rp_dir rp)))) ->
  exists rc' rp', replay_wal_segments_to_store now rc rp = (Ret rc', rp') /\
    recovered l rp m rp' (log_records (batches_of L (segment_ids (rp_dir rp)))).
Proof.
  intros [Hf Hs Hr] Hok Hp. unfold replay_wal_segments_to_store.
  assert (Hl : on_dir list_wal_segments rp = (Ret (segment_ids (rp_dir rp)), rp)).
  { unfold on_dir. rewrite (list_wal_segments_none _ Hf). by destruct rp. }
  rewrite (st_bind_ret _ _ _ _ _ Hl). case_bool_decide as Hnil.
  { exists rc, rp. split; [done|]. rewrite Hnil. by apply recovered_nil. }
  destruct (recover_segments_redo now l L (segment_ids (rp_dir rp)) rp m rc Hs Hr) as (rp' & H & Hrv); [|done|done|].
  - intros i Hi%elem_segment_ids. destruct Hi as [f Hf']. rewrite Hs, lookup_fmap in Hf'.
    destruct (L !! i); [by eexists|discriminate Hf'].
  - by eexists _, rp'.
Qed.

(** ** Reopening a node *)

Lemma index_pages_none now ids : forall index s,
  store_ok s -> Forall id_ok ids ->
  exists index' s', index_pages now ids index s = (index', s') /\ store_ok s' /\ (forall i, contents s' i = contents s i) /\
    (faults (disk s) = [] -> faults (disk s') = []).
Proof.
  induction ids as [|i ids IH]; intros index s Hok Hids; cbn [index_pages]; [by exists index, s|].
  apply Forall_cons in Hids as [Hi Hids]. unfold PageStoreM.get.
  destruct (get_with_lsn_cases now i s Hok Hi) as (r & s1 & -> & Hok1 & Hc1 & _ & Hf1 & _).
  edestruct (IH (match fst <$> r with Some _ => {[i]} ∪ index | None => index end) s1 Hok1 Hids) as (index' & s' & -> & Hok' & Hc' & Hf').
  exists index', s'. split; [done|]. split; [done|]. split; [intros j; by rewrite Hc', Hc1|auto].
Qed.

(** The state a node is reopened with: working disks, a page file with the pages [m], and
    the log [L]. *)
Record files_ok (files : NodeFiles) (L : gmap Z (list WalBatch)) : Prop := {
  fk_faults : faults (nf_pages files) = [];
  fk_whole : zlen (pf_bytes (nf_pages files)) mod PAGE_SIZE = 0;
  fk_synced : synced (nf_pages files) = pf_bytes (nf_pages files);
  fk_size : zlen (pf_bytes (nf_pages files)) <= MAX_ID * PAGE_SIZE;
  fk_log : dir_log (nf_dir files) L
}.

Lemma read_wal_state_none d x : dir_faults d = [] ->
  unwrap_or read_wal_state x d = (Ret (match wal_state d with Some f => if zlen f <? 8 then x else le_val (take 8 f) | None => 0 end), d).
Proof.
  intros H. unfold unwrap_or, read_wal_state. rewrite (dir_ok_none d H). destruct (wal_state d) as [f|]; [|done].
  rewrite (st_bind_ret _ _ _ _ _ (dir_ok_none d H)). by destruct (zlen f <? 8).
Qed.

(** The LSN below which nothing is replayed. *)
Definition replay_from (files : NodeFiles) : Z :=
  Z.max (stored_lsn (wal_state (nf_dir files))) (stored_lsn (checkpoint_file (nf_pages files))).

Definition log_of (files : NodeFiles) (L : gmap Z (list WalBatch)) : list WalRecord :=
  log_records (batches_of L (segment_ids (nf_dir files))).

Lemma top_bound l recs : 0 <= l < U64 -> Forall (fun r => 0 <= lsn r < U64) recs -> 0 <= top l recs < U64.
Proof.
  revert l. induction recs as [|r recs IH]; intros l Hl Hr; [done|]. apply Forall_cons in Hr as [H1 H2]. cbn.
  apply IH; [lia|done].
Qed.

Lemma log_lsns L ids : map_Forall (fun _ bs => Forall readable bs) L ->
  Forall (fun r => 0 <= lsn r < U64) (log_records (batches_of L ids)).
Proof.
  intros HL. unfold log_records, batches_of. apply Forall_concat, Forall_fmap, Forall_concat, Forall_fmap, Forall_forall.
  intros id _. unfold compose. destruct (L !! id) as [bs|] eqn:E; cbn [default]; [|by apply Forall_nil]. eapply Forall_impl; [exact (HL id bs E)|].
  intros b [[_ _ _ _ Hb] _]. cbn. eapply Forall_impl; [exact Hb|]. intros r Hr. apply Hr.
Qed.

Lemma reread_state l l' d :
  0 <= l' < U64 -> l <= l' -> dir_faults d = [] -> stored_lsn (wal_state d) <= l ->
  exists x, unwrap_or read_wal_state l (moved_dir l l' d) = (Ret x, moved_dir l l' d) /\ Z.max x l = l'.
Proof.
  intros Hl' Hle Hf Hst. unfold moved_dir. destruct (Z.ltb_spec l l') as [Hlt|Hge].
  - rewrite read_wal_state_none by done. cbn [wal_state].
    rewrite zlen_le_bytes, take_ge by (pose proof (zlen_le_bytes 8 l'); unfold zlen in *; lia).
    eexists. split; [reflexivity|]. change (Z.of_nat 8 <? 8) with false. cbv iota. rewrite le_val_u64 by exact Hl'. lia.
  - rewrite read_wal_state_none by done. eexists. split; [reflexivity|]. unfold stored_lsn in Hst.
    destruct (wal_state d) as [f|]; [destruct (zlen f <? 8)|]; lia.
Qed.

Lemma open_redo {AL : Allocator} now maintenance files L :
  files_ok files L -> validate maintenance = Ret tt -> 0 <= replay_from files < U64 ->
  redoable (replay_from files) (log_of files L) ->
  exists n, open_with_maintenance now maintenance files = Ret n /\ store_ok (sn_store n) /\
    abs (sn_store n) (redo (replay_from files) (page_at (pf_bytes (nf_pages files))) (log_of files L)) /\
    sn_applied n = top (replay_from files) (log_of files L) /\ sn_durable n = sat_add64 (sn_applied n) 1.
Proof.
  intros [Hff Hwh Hsy Hsz Hlog] Hv Hl Hre. unfold open_with_maintenance. rewrite Hv. obind. rewrite (dir_ok_none _ (dl_faults _ _ Hlog)). obind.
  destruct (open_none now (nf_pages files) Hff Hwh Hsy) as (s & d' & Ho & Hd & Hok & Hpool & Hb & Hf & Hck & Hmax).
  rewrite Ho. cbn [fst]. obind. rewrite (read_wal_state_none _ _ (dl_faults _ _ Hlog)). obind.
  fold (stored_lsn (wal_state (nf_dir files))). rewrite Hck. fold (replay_from files).
  set (rp := ReplayM.new s (nf_dir files) (replay_from files) ∅).
  assert (Hrp : rp_ok rp (page_at (pf_bytes (nf_pages files)))).
  { split; cbn [rp rp_store rp_dir ReplayM.new]; [done|by rewrite Hd|apply (dl_faults _ _ Hlog)| |].
    - rewrite Hmax. assert (zlen (pf_bytes (nf_pages files)) / PAGE_SIZE <= MAX_ID).
      { apply Z.div_le_upper_bound; [done|lia]. } unfold sat_sub, MAX_ID in *. destruct (0 <? _); lia.
    - intros id Hid. unfold contents. rewrite Hpool, lookup_empty, Hd, Hb. symmetry. apply page_at_idemp. }
  destruct (replay_wal_segments_redo now (replay_from files) L rp (page_at (pf_bytes (nf_pages files)))
    {| rc_mvcc := ∅; rc_requests := ∅ |} Hlog Hrp) as (rc & rp' & Hrun & Hrv).
  { split; [done| |reflexivity]. apply Forall_forall. intros r _ Hr. exact Hr. }
  rewrite Hrun. obind. destruct Hrv as [Hok' Hlast Hdir]. fold (log_of files L) in Hok', Hlast. cbn [rp ReplayM.new rp_last_applied rp_dir] in Hlast, Hdir.
  pose proof (top_bound (replay_from files) (log_of files L) Hl (log_lsns L _ (dl_readable _ _ Hlog))) as Htop.
  destruct (reread_state (replay_from files) (rp_last_applied rp') (nf_dir files)) as (x & Hx & Hxl);
    [by rewrite Hlast|rewrite Hlast; apply top_le|apply (dl_faults _ _ Hlog)|unfold replay_from; lia|].
  rewrite Hdir, Hx. obind. unfold build_page_index.
  destruct (index_pages_none now (seqZ 0 (max_page_id (rp_store rp') + 1)) ∅ (rp_store rp') (rk_store _ _ Hok'))
    as (index & s' & -> & Hok2 & Hc2 & _).
  { apply Forall_forall. intros i Hi%elem_of_seqZ. pose proof (rk_max _ _ Hok'). unfold id_ok. lia. }
  eexists. split; [reflexivity|]. cbn [sn_store sn_applied sn_durable]. rewrite Hxl, Hlast.
  split; [done|]. split; [|done]. intros id Hid. rewrite Hc2. by apply (rk_abs _ _ Hok').
Qed.

(** ** The parts of a node that maintenance leaves alone *)

Definition file_of (n : StorageNode) : option Z := match sn_writer n with Running w => Some (ww_file_id w) | _ => None end.

(** The files are in order: the pages are [m], the log is [L], and the writer is at its
    last segment. *)
Record node_ok (n : StorageNode) (L : gmap Z (list WalBatch)) (m : PageId -> option Page) : Prop := {
  no_store : store_ok (sn_store n);
  no_faults : faults (disk (sn_store n)) = [];
  no_max : max_page_id (sn_store n) < MAX_ID;
  no_dir : dir_log (sn_dir n) L;
  no_abs : abs (sn_store n) m;
  no_file : exists i, file_of n = Some i /\ is_Some (L !! i) /\ forall j, is_Some (L !! j) -> j <= i
}.

Record same_core (n n' : StorageNode) : Prop := {
  sc_channels : sn_channels n' = sn_channels n;
  sc_writer : sn_writer n' = sn_writer n;
  sc_last : rt_last_applied (sn_task n') = rt_last_applied (sn_task n);
  sc_buffers : rt_buffers (sn_task n') = rt_buffers (sn_task n);
  sc_durable : sn_durable n' = sn_durable n;
  sc_applied : sn_applied n' = sn_applied n;
  sc_requests : sn_requests n' = sn_requests n;
  sc_state : wal_state (sn_dir n') = wal_state (sn_dir n)
}.

Lemma same_core_refl n : same_core n n.
Proof. by split. Qed.

Lemma same_core_trans n1 n2 n3 : same_core n1 n2 -> same_core n2 n3 -> same_core n1 n3.
Proof. intros [] []. split; congruence. Qed.

(** Batches of [L'] come from [L]. *)
Definition from_log (L L' : gmap Z (list WalBatch)) : Prop := forall i bs, L' !! i = Some bs -> L !! i = Some bs.

Definition maintained (n : StorageNode) (L : gmap Z (list WalBatch)) (m : PageId -> option Page) (n' : StorageNode) : Prop :=
  exists L', node_ok n' L' m /\ same_core n n' /\ from_log L L'.

Lemma maintained_refl n L m : node_ok n L m -> maintained n L m n.
Proof. intros H. exists L. split; [done|]. split; [apply same_core_refl|by intros i bs]. Qed.

Lemma maintained_trans n L m n1 n2 :
  maintained n L m n1 -> (forall L1, node_ok n1 L1 m -> maintained n1 L1 m n2) -> maintained n L m n2.
Proof.
  intros (L1 & H1 & S1 & F1) H. destruct (H L1 H1) as (L2 & H2 & S2 & F2). exists L2. split; [done|].
  split; [by eapply same_core_trans|]. intros i bs Hi. by apply F1, F2.
Qed.

Lemma checkpoint_maintained now ms n L m :
  node_ok n L m -> exists n', checkpoint_with_metrics now ms n = (Ret tt, n') /\ maintained n L m n'.
Proof.
  intros [Hs Hf Hm Hd Ha Hw]. unfold checkpoint_with_metrics.
  destruct (checkpoint_cases now (sn_store n) Hs) as (r & s' & Hc & Hcp & [(-> & Hf' & _)|(k & _ & Hne)]); [|by rewrite Hf in Hne].
  assert (Hon : on_page_store (PageStoreM.checkpoint now) n = (Ret tt, with_store s' n)) by (unfold on_page_store; by rewrite Hc).
  rewrite (st_bind_ret _ _ _ _ _ Hon). eexists. split; [reflexivity|]. exists L. split; [|split; [by split|by intros i bs]].
  split; cbn; [apply Hcp|by apply Hf'|by rewrite (cp_max _ _ Hcp)|done| |done].
  intros i Hi. rewrite (checkpoint_contents _ _ i Hi Hcp). by apply Ha.
Qed.

Lemma last_segment_id d L i : dir_log d L -> is_Some (L !! i) -> (forall j, is_Some (L !! j) -> j <= i) -> last (segment_ids d) = Some i.
Proof.
  intros Hd Hi Hmax. assert (Hin : i ∈ segment_ids d).
  { apply elem_segment_ids. rewrite (dl_segments d L Hd), lookup_fmap. destruct Hi as [bs ->]. by eexists. }
  destruct (exists_last (l := segment_ids d)) as (ids & j & Hids); [intros E; rewrite E in Hin; by apply elem_of_nil in Hin|].
  rewrite Hids, last_snoc. f_equal.
  assert (Hj : j <= i).
  { apply Hmax. assert (Hj : j ∈ segment_ids d) by (rewrite Hids; set_solver). apply elem_segment_ids in Hj as [f Hf].
    rewrite (dl_segments d L Hd), lookup_fmap in Hf. destruct (L !! j); [by eexists|discriminate Hf]. }
  assert (Hs : StronglySorted Z.le (segment_ids d)) by (apply StronglySorted_merge_sort; [intros x y z|intros x y]; lia).
  rewrite Hids in Hs, Hin. apply elem_of_app in Hin as [Hin|Hin]; [|by apply list_elem_of_singleton in Hin].
  apply StronglySorted_app in Hs as (Hx & _). specialize (Hx i j Hin ltac:(by left)). lia.
Qed.

Lemma truncate_maintained {AL : Allocator} n L m :
  node_ok n L m -> exists k n', truncate_wal n = (Ret k, n') /\ maintained n L m n'.
Proof.
  intros [Hs Hf Hm Hd Ha (i & Hi & HLi & Hmax)]. unfold truncate_wal. rewrite st_bind_gets.
  destruct (truncate_cases (sn_dir n) L (checkpoint_lsn (sn_store n)) Hd) as (k & d' & L' & Ht & Hd' & Hws & [Hsub Hkeep _]).
  rewrite (last_segment_id _ L i Hd HLi Hmax) in Hkeep.
  exists k, (with_dir d' n). split; [unfold on_wal; by rewrite Ht|]. exists L'. split; [|split; [by split|done]].
  split; cbn; [done|done|done|done|done|]. exists i. split; [done|]. split; [by rewrite Hkeep by (by left)|].
  intros j [bs Hj]. apply Hmax. exists bs. by apply Hsub.
Qed.

Lemma usage_maintained n L m k :
  node_ok n L m -> exists o, wal_usage_exceeds k n = (Ret o, n).
Proof.
  intros Hn. unfold wal_usage_exceeds. rewrite st_bind_gets. unfold on_wal.
  destruct (wal_usage_none (sn_dir n) (sn_maintenance n) k (dl_faults _ _ (no_dir _ _ _ Hn))) as [o ->]. exists o. by destruct n.
Qed.

Lemma enforce_maintained {AL : Allocator} now ms k n L m :
  node_ok n L m ->
  exists r n', enforce_wal_limits now ms k n = (r, n') /\ maintained n L m n' /\
    (r = Ret tt \/ (r = Fail (Io WouldBlock) /\ (wal_usage_exceeds k n).1 <> Ret None)).
Proof.
  intros Hn. unfold enforce_wal_limits. destruct (usage_maintained n L m k Hn) as [o Ho].
  rewrite (st_bind_ret _ _ _ _ _ Ho). case_bool_decide; [exists (Ret tt), n; split; [done|]; split; [by apply maintained_refl|by left]|].
  assert (Hover : (wal_usage_exceeds k n).1 <> Ret None) by (rewrite Ho; cbn; congruence).
  rewrite (st_bind_ret _ _ _ _ _ Ho). rewrite bool_decide_eq_false_2 by done.
  destruct (checkpoint_maintained now ms n L m Hn) as (n1 & H1 & M1). rewrite (st_bind_ret _ _ _ _ _ H1), st_bind_gets.
  assert (Hmid : exists n2, (if truncate_wal_cfg (sn_maintenance n1) then _ ← truncate_wal; mret tt else mret tt) n1 = (Ret tt, n2) /\ maintained n L m n2).
  { destruct (truncate_wal_cfg _); [|by exists n1]. destruct M1 as (L1 & Hn1 & S1 & F1).
    destruct (truncate_maintained n1 L1 m Hn1) as (k' & n2 & H2 & M2). exists n2.
    split; [by rewrite (st_bind_ret _ _ _ _ _ H2)|]. apply (maintained_trans n L m n1 n2); [by exists L1|].
    intros L1' Hn1'. destruct (truncate_maintained n1 L1' m Hn1') as (k'' & n2' & H2' & M2'). rewrite H2 in H2'. by injection H2' as <- <-. }
  destruct Hmid as (n2 & H2 & M2). rewrite (st_bind_ret _ _ _ _ _ H2). destruct M2 as (L2 & Hn2 & S2 & F2).
  destruct (usage_maintained n2 L2 m k Hn2) as [o2 Ho2]. rewrite (st_bind_ret _ _ _ _ _ Ho2). destruct o2 as [o2|].
  - rewrite st_bind_modify. eexists _, _. split; [reflexivity|]. split; [|by right]. exists L2.
    split; [|split; [|done]]; [destruct Hn2 as [A B C D E F]; by split|]. eapply same_core_trans; [exact S2|by split].
  - eexists _, n2. split; [reflexivity|]. split; [by exists L2|by left].
Qed.

(** ** Appending a batch *)

Definition log_has (L : gmap Z (list WalBatch)) (b : WalBatch) : Prop := exists i bs, L !! i = Some bs /\ b ∈ bs.

Lemma from_log_has L L' b : from_log L L' -> log_has L' b -> log_has L b.
Proof. intros H (i & bs & Hi & Hb). exists i, bs. split; [by apply H|done]. Qed.

Lemma render_snoc bs b : render (bs ++ [b]) = render bs ++ frame b.
Proof. unfold render. rewrite fmap_app, concat_app. cbn. by rewrite app_nil_r. Qed.

(** The log with [b] at the end of segment [i]. *)
Definition log_append (i : Z) (b : WalBatch) (L : gmap Z (list WalBatch)) : gmap Z (list WalBatch) :=
  alter (fun bs => bs ++ [b]) i L.

Lemma append_bytes_log i b d L :
  dir_log d L -> readable b -> exists d', WalWriterM.append_bytes i (frame b) d = (Ret tt, d') /\ dir_log d' (log_append i b L) /\
    wal_state d' = wal_state d.
Proof.
  intros [Hf Hs Hr] Hb. eexists. split; [reflexivity|]. split; [|done]. split; cbn; [done| |].
  - unfold log_append. rewrite Hs. apply map_eq. intros j. destruct (decide (i = j)) as [<-|Hne].
    + rewrite lookup_alter_eq, !lookup_fmap, lookup_alter_eq. destruct (L !! i); [|done]. cbn [fmap option_fmap option_map]. by rewrite render_snoc.
    + by rewrite lookup_alter_ne, !lookup_fmap, lookup_alter_ne.
  - intros j bs. unfold log_append. destruct (decide (i = j)) as [<-|Hne].
    + rewrite lookup_alter_eq. intros (bs0 & H0 & ->)%fmap_Some. apply Forall_app. split; [by apply (Hr i)|by apply Forall_singleton].
    + rewrite lookup_alter_ne by done. apply Hr.
Qed.

Lemma log_append_has i b L x : log_has (log_append i b L) x -> x = b \/ log_has L x.
Proof.
  intros (j & bs & Hj & Hx). unfold log_append in Hj. destruct (decide (i = j)) as [<-|Hne].
  - rewrite lookup_alter_eq in Hj. apply fmap_Some in Hj as (bs0 & H0 & ->). apply elem_of_app in Hx as [Hx|Hx].
    + right. by exists i, bs0.
    + left. by apply list_elem_of_singleton in Hx.
  - rewrite lookup_alter_ne in Hj by done. right. by exists j, bs.
Qed.

Lemma is_Some_append i b L j : is_Some (log_append i b L !! j) <-> is_Some (L !! j).
Proof. unfold log_append. destruct (decide (i = j)) as [<-|]; [rewrite lookup_alter_eq; apply fmap_is_Some|by rewrite lookup_alter_ne]. Qed.

Lemma append_batch_log b w d L bound :
  dir_log d L -> readable b -> is_Some (L !! ww_file_id w) -> (forall j, is_Some (L !! j) -> j <= ww_file_id w) ->
  0 <= ww_file_id w <= bound -> bound + 1 < U64 ->
  exists w' d' L', WalWriterM.append_batch b w d = (Ret tt, w', d') /\ dir_log d' L' /\ wal_state d' = wal_state d /\
    is_Some (L' !! ww_file_id w') /\ (forall j, is_Some (L' !! j) -> j <= ww_file_id w') /\ 0 <= ww_file_id w' <= bound + 1 /\
    (forall x, log_has L' x -> x = b \/ log_has L x) /\ log_has L' b.
Proof.
  intros Hd Hb Hi Hmax Hbd Hu. unfold WalWriterM.append_batch.
  assert (Hrot : exists w1 d1 L1, WalWriterM.rotate_if_needed w d = (Ret w1, d1) /\ dir_log d1 L1 /\ wal_state d1 = wal_state d /\
    is_Some (L1 !! ww_file_id w1) /\ (forall j, is_Some (L1 !! j) -> j <= ww_file_id w1) /\ 0 <= ww_file_id w1 <= bound + 1 /\
    (forall x, log_has L1 x -> log_has L x)).
  { unfold WalWriterM.rotate_if_needed. destruct (_ <? _); [exists w, d, L; split_and!; try done; lia|].
    unfold create_wal_segment. rewrite (wrap64_small (ww_file_id w + 1)) by lia.
    eexists {| ww_file_id := ww_file_id w + 1; ww_size := 0 |}, _, (<[ww_file_id w + 1 := []]> L). split.
    { erewrite st_bind_ret by (rewrite (st_bind_ret _ _ _ _ _ (dir_ok_none d (dl_faults d L Hd))); reflexivity). reflexivity. }
    cbn [ww_file_id]. destruct Hd as [Hf Hs Hr]. split; [split; cbn; [done|by rewrite Hs, fmap_insert|by apply map_Forall_insert_2]|].
    split; [done|]. split; [by rewrite lookup_insert_eq|]. split; [|split; [lia|]].
    - intros j [bs Hj]. destruct (decide (ww_file_id w + 1 = j)) as [<-|Hne]; [lia|]. rewrite lookup_insert_ne in Hj by done.
      specialize (Hmax j ltac:(by exists bs)). lia.
    - intros x (j & bs & Hj & Hx). destruct (decide (ww_file_id w + 1 = j)) as [<-|Hne].
      + rewrite lookup_insert_eq in Hj. injection Hj as <-. by apply elem_of_nil in Hx.
      + rewrite lookup_insert_ne in Hj by done. by exists j, bs. }
  destruct Hrot as (w1 & d1 & L1 & -> & Hd1 & Hw1 & Hi1 & Hmax1 & Hbd1 & Hsub1).
  rewrite (st_bind_lift _ _ _ ([] ++ frame b)) by (apply encode_frame; destruct Hb as [_ Hb]; unfold MAX_WAL_FRAME_LEN, U32 in *; lia).
  cbn [app]. destruct (append_bytes_log (ww_file_id w1) b d1 L1 Hd1 Hb) as (d2 & H2 & Hd2 & Hw2).
  assert (Hwr : WalWriterM.write_all (ww_file_id w1) (frame b) d1 = (Ret tt, d2)).
  { unfold WalWriterM.write_all. by rewrite (st_bind_ret _ _ _ _ _ (dir_sys_none d1 (dl_faults _ _ Hd1))). }
  rewrite (st_bind_ret _ _ _ _ _ Hwr). eexists _, d2, _. split; [reflexivity|]. split; [exact Hd2|]. cbn [ww_file_id].
  split; [congruence|]. split; [by apply is_Some_append|]. split; [intros j Hj%is_Some_append; by apply Hmax1|]. split; [done|]. split.
  - intros x [->|Hx]%log_append_has; [by left|right; by apply Hsub1].
  - destruct Hi1 as [bs Hbs]. exists (ww_file_id w1), (bs ++ [b]). unfold log_append. rewrite lookup_alter_eq, Hbs. split; [done|set_solver].
Qed.

(** ** Replaying page images *)

Definition empty_buffers (buffers : gmap Z ReplayBuffer) : Prop := map_Forall (fun _ b => b = buffer_new) buffers.

Lemma replay_one_image now rp m r :
  rp_ok rp m -> image_ok r -> 0 < lsn r ->
  exists rp', replay_page_records now (page_id r) [r] rp = (Ret tt, rp') /\ rp_ok rp' (write_image m r) /\ redone rp rp' (lsn r).
Proof.
  intros Hok Hr Hpos. unfold replay_page_records. rewrite bool_decide_eq_false_2 by done.
  destruct (read_page_none now rp m (page_id r) Hok (im_id r Hr)) as (p & rp1 & H1 & Hok1 & Hl1 & Hd1 & Hla1 & _ & Hap1).
  rewrite (st_bind_ret _ _ _ _ _ H1).
  assert (Ha : apply_records (default blank_page p) [r] 0 = Ret (value r, lsn r)).
  { cbn [apply_records]. rewrite (apply_image _ r Hr Hl1). obind. destruct (Z.ltb_spec 0 (lsn r)); [done|lia]. }
  rewrite (st_bind_lift _ _ _ _ Ha).
  destruct (write_page_none now rp1 m (page_id r) (value r) (lsn r) Hok1 (im_id r Hr) (im_len r Hr))
    as (rp2 & H2 & Hok2 & Hd2 & Hla2 & Hap2 & _).
  rewrite (st_bind_ret _ _ _ _ _ H2), (update_last_applied_none _ _ (rk_dir _ _ Hok2)).
  eexists. split; [reflexivity|]. split.
  - destruct Hok2 as [A B C M D]. split; cbn [rp_store rp_dir]; [done|done| |done|done]. unfold moved_dir. by destruct (_ <? _).
  - split; cbn [rp_dir rp_last_applied rp_applied]; rewrite ?Hd2, ?Hla2, ?Hap2, ?Hd1, ?Hla1, ?Hap1; reflexivity.
Qed.

(** Images numbered from [l + 1]. *)
Fixpoint numbered (l : Z) (recs : list WalRecord) : Prop :=
  match recs with
  | [] => True
  | r :: recs => lsn r = l + 1 /\ numbered (l + 1) recs
  end.

Lemma replay_records_images now recs : forall l rp m buffers,
  rp_ok rp m -> Forall image_ok recs -> numbered l recs -> 0 <= l -> rp_last_applied rp = l -> rp_applied rp = l ->
  empty_buffers buffers ->
  exists buffers' rp', replay_records now recs l buffers rp = (Ret buffers', rp') /\
    rp_ok rp' (foldl write_image m recs) /\ empty_buffers buffers' /\
    rp_last_applied rp' = l + zlen recs /\ rp_applied rp' = l + zlen recs /\ rp_dir rp' = moved_dir l (l + zlen recs) (rp_dir rp).
Proof.
  induction recs as [|r recs IH]; intros l rp m buffers Hok Him Hnum Hl Hla Hap Hbuf; cbn [replay_records].
  { exists buffers, rp. rewrite zlen_nil, Z.add_0_r, moved_dir_same. done. }
  apply Forall_cons in Him as [Hr Him]. destruct Hnum as [Hlsn Hnum].
  destruct (Z.leb_spec (lsn r) l); [lia|]. destruct (Z.eqb_spec (lsn r) (l + 1)); [|lia]. cbn [negb].
  rewrite (image_not_txn r Hr).
  assert (Hbuf0 : default buffer_new (buffers !! page_id r) = buffer_new).
  { destruct (buffers !! page_id r) as [b|] eqn:E; [|done]. exact (Hbuf _ _ E). }
  assert (Hfl : should_flush (buffer_push r (default buffer_new (buffers !! page_id r))) = true).
  { rewrite Hbuf0. unfold should_flush. cbn [buffer_push buf_bytes buffer_new]. rewrite (im_len r Hr). pose proof (zlen_nonneg (key r)).
    apply Z.leb_le. unfold PAGE_SIZE. lia. }
  rewrite Hfl. rewrite Hbuf0. cbn [buffer_take buffer_push buf_records buffer_new app].
  destruct (replay_one_image now rp m r Hok Hr ltac:(lia)) as (rp1 & H1 & Hok1 & [Hd1 Hla1 Hap1]).
  assert (Hig : ignore (replay_page_records now (page_id r) [r]) rp = (Ret tt, rp1)) by (unfold ignore; by rewrite H1).
  rewrite (st_bind_ret _ _ _ _ _ Hig).
  destruct (IH (lsn r) rp1 (write_image m r) (<[page_id r := buffer_new]> buffers)) as (buffers' & rp' & H2 & Hok2 & Hb2 & Hla2 & Hap2 & Hd2);
    [done|done|by rewrite Hlsn|lia|lia| |by apply map_Forall_insert_2|].
  { rewrite Hap1, Hla, Hlsn. destruct (Z.ltb_spec l (l + 1)); lia. }
  exists buffers', rp'. split; [done|]. split; [done|]. split; [done|]. rewrite zlen_cons.
  split; [lia|]. split; [lia|]. rewrite Hd2, Hd1, Hla, Hlsn. rewrite moved_dir_trans; [|apply (rk_dir _ _ Hok)|pose proof (zlen_nonneg recs); lia].
  f_equal. lia.
Qed.

(** ** Commits *)

(** A node between two commits of a single writer. *)
Record quiet (n : StorageNode) (L : gmap Z (list WalBatch)) (m : PageId -> option Page) : Prop := {
  qu_ok : node_ok n L m;
  qu_queue : ch_queue (sn_channels n) = [];
  qu_replay : ch_replay (sn_channels n) = [];
  qu_last : rt_last_applied (sn_task n) = sn_applied n;
  qu_buffers : empty_buffers (rt_buffers (sn_task n));
  qu_durable : sn_durable n = sn_applied n + 1;
  qu_pos : 0 <= sn_applied n;
  qu_file : exists i, file_of n = Some i /\ 0 <= i <= sn_durable n;
  qu_log : forall b, log_has L b -> Forall (fun r => lsn r <= sn_applied n) (records b)
}.

Lemma quiet_maintained n L m n' :
  quiet n L m -> maintained n L m n' -> exists L', quiet n' L' m /\ from_log L L' /\ same_core n n'.
Proof.
  intros [A B C D E F G H I] (L' & Hok & Hsc & Hfrom). exists L'. split; [|done]. destruct Hsc as [S1 S2 S3 S4 S5 S6 S7 S8].
  split; rewrite ?S1, ?S3, ?S4, ?S5, ?S6; try done.
  - unfold file_of. rewrite S2. exact H.
  - intros b Hb. apply I. by eapply from_log_has.
Qed.

(** The batch a transaction logs. *)
Definition image (l : Z) (w : PageId * Page) : WalRecord :=
  {| lsn := l; op := WAL_OP_PAGE_IMAGE; page_id := w.1; slot_id := 0; key := []; value := w.2 |}.

Fixpoint images (l : Z) (writes : list (PageId * Page)) : list WalRecord :=
  match writes with [] => [] | w :: writes => image l w :: images (l + 1) writes end.

Definition write_ok (w : PageId * Page) : Prop := id_ok w.1 /\ zlen w.2 = PAGE_SIZE.

Lemma image_records_ok writes : forall l, 0 <= l -> l + zlen writes <= U64 -> Forall write_ok writes ->
  image_records l writes = Ret (images l writes).
Proof.
  induction writes as [|[i p] writes IH]; intros l Hl Hu Hw; [done|]. apply Forall_cons in Hw as [[_ Hp] Hw]. cbn [image_records images].
  cbn in Hp. rewrite Hp, Z.eqb_refl. cbn [negb]. rewrite zlen_cons in Hu. pose proof (zlen_nonneg writes).
  rewrite IH by (done || lia). obind. unfold image. by rewrite wrap64_small by lia.
Qed.

Lemma images_ok l writes : Forall write_ok writes -> Forall image_ok (images l writes).
Proof.
  intros H. revert l. induction H as [|[i p] writes [Hi Hp] _ IH]; intros l; [by apply Forall_nil|].
  cbn [images]. apply Forall_cons. split; [by split|apply IH].
Qed.

Lemma images_numbered writes : forall l, numbered l (images (l + 1) writes).
Proof. induction writes as [|w writes IH]; intros l; [done|]. cbn. split; [done|apply IH]. Qed.

Lemma zlen_images writes : forall l, zlen (images l writes) = zlen writes.
Proof. induction writes as [|w writes IH]; intros l; [done|]. cbn [images]. by rewrite !zlen_cons, IH. Qed.

Lemma lsns_match_images writes : forall l, 0 <= l -> l + zlen writes <= U64 -> lsns_match (images l writes) l = true.
Proof.
  induction writes as [|w writes IH]; intros l Hl Hu; [done|]. cbn [images lsns_match]. rewrite zlen_cons in Hu. pose proof (zlen_nonneg writes).
  cbn [image lsn]. rewrite wrap64_small by lia. rewrite Z.eqb_refl. cbn [andb]. apply IH; lia.
Qed.

Lemma images_bound writes : forall l, Forall (fun r => l <= lsn r < l + zlen writes) (images l writes).
Proof.
  induction writes as [|w writes IH]; intros l; [by apply Forall_nil|]. cbn [images]. rewrite zlen_cons. pose proof (zlen_nonneg writes).
  apply Forall_cons. split; [cbn; lia|]. eapply Forall_impl; [apply IH|]. cbn. intros r Hr. lia.
Qed.

Lemma images_record_ok l writes : 0 <= l -> l + zlen writes <= U64 -> Forall write_ok writes -> Forall record_ok (images l writes).
Proof.
  intros Hl Hu Hw. pose proof (images_bound writes l) as Hb. pose proof (images_ok l writes Hw) as Hi.
  apply Forall_forall. intros r Hr. rewrite Forall_forall in Hb, Hi. specialize (Hb r Hr). destruct (Hi r Hr) as [Ho Hlen Hid].
  assert (Hk : key r = [] /\ slot_id r = 0).
  { clear -Hr. revert l Hr. induction writes as [|w writes IH]; intros l Hr; [by apply elem_of_nil in Hr|]. cbn [images] in Hr.
    apply elem_of_cons in Hr as [->|Hr]; [done|by eapply IH]. }
  destruct Hk as [Hk Hsl]. split.
  - lia.
  - rewrite Ho. unfold is_byte, WAL_OP_PAGE_IMAGE. lia.
  - unfold id_ok, MAX_ID in Hid. unfold U64. lia.
  - rewrite Hsl. unfold U16. lia.
  - rewrite Hk, zlen_nil. unfold U32. lia.
  - rewrite Hlen. unfold PAGE_SIZE, U32. lia.
Qed.

Lemma ignore_ret {S A} (m : st S Error A) s a s' : m s = (Ret a, s') -> ignore m s = (Ret tt, s').
Proof. intros H. unfold ignore. by rewrite H. Qed.

Lemma gc_maintained ms n L m : node_ok n L m -> exists n', gc_turn ms n = (Ret tt, n') /\ maintained n L m n'.
Proof.
  intros [A B C D E F]. unfold gc_turn. rewrite st_bind_gets. cbv zeta. unfold id at 1.
  destruct (_ <? _).
  - eexists. split; [reflexivity|]. exists L. split; [by split|]. split; [by split|by intros i bs].
  - unfold id. destruct (Mvcc.gc_mvcc_versions _ _) as [store [touched removed]].
    eexists. split; [reflexivity|]. exists L. split; [by split|]. split; [by split|by intros i bs].
Qed.

Lemma replay_maintenance_maintained {AL : Allocator} now ms n L m :
  node_ok n L m -> exists n', replay_maintenance now ms n = (Ret tt, n') /\ maintained n L m n'.
Proof.
  intros Hn. unfold replay_maintenance.
  assert (H1 : exists n1, ignore (maybe_checkpoint_by_pressure now ms) n = (Ret tt, n1) /\ maintained n L m n1).
  { unfold maybe_checkpoint_by_pressure. destruct (over_pressure n) eqn:E.
    - destruct (checkpoint_maintained now ms n L m Hn) as (n1 & H1 & M1). exists n1. split; [|done].
      apply ignore_ret with true. rewrite st_bind_gets, E. by rewrite (st_bind_ret _ _ _ _ _ H1).
    - exists n. split; [|by apply maintained_refl]. apply ignore_ret with false. by rewrite st_bind_gets, E. }
  destruct H1 as (n1 & H1 & (L1 & Hn1 & S1 & F1)). rewrite (st_bind_ret _ _ _ _ _ H1), st_bind_gets. unfold id.
  assert (H2 : exists n2, (if truncate_wal_cfg (sn_maintenance n1) then
      ignore (on_wal (truncate_wal_segments (checkpoint_lsn (sn_store n1)))) else mret tt) n1 = (Ret tt, n2) /\ maintained n1 L1 m n2).
  { destruct (truncate_wal_cfg _); [|exists n1; split; [done|by apply maintained_refl]].
    destruct (truncate_maintained n1 L1 m Hn1) as (k & n2 & H2 & M2). exists n2. split; [|done]. by apply ignore_ret with k. }
  destruct H2 as (n2 & H2 & (L2 & Hn2 & S2 & F2)). rewrite (st_bind_ret _ _ _ _ _ H2).
  assert (H3 : ignore (on_wal (wal_usage_exceeds_limits (sn_maintenance n1) 0)) n2 = (Ret tt, n2)).
  { destruct (wal_usage_none (sn_dir n2) (sn_maintenance n1) 0 (dl_faults _ _ (no_dir _ _ _ Hn2))) as [o Ho].
    apply ignore_ret with o. unfold on_wal. rewrite Ho. by destruct n2. }
  rewrite (st_bind_ret _ _ _ _ _ H3). destruct (gc_maintained ms n2 L2 m Hn2) as (n3 & H4 & (L3 & Hn3 & S3 & F3)).
  exists n3. split; [done|]. exists L3. split; [done|]. split; [exact (same_core_trans _ _ _ S1 (same_core_trans _ _ _ S2 S3))|].
  intros i bs Hi. by apply F1, F2, F3.
Qed.

Section Commit.
Context (now ms : Z) (n : StorageNode) (L : gmap Z (list WalBatch)) (m : PageId -> option Page) (b : WalBatch).
Hypothesis Hq : quiet n L m.
Hypothesis Hb : readable b.
Hypothesis Him : Forall image_ok (records b).
Hypothesis Hstart : start_lsn b = sn_durable n.
Hypothesis Hnum : numbered (sn_applied n) (records b).
Hypothesis Hend : end_lsn b = sn_durable n + zlen (records b).
Hypothesis Hmore : records b <> [].

Lemma end_bounds : sn_durable n < end_lsn b < U64.
Proof using Hb Hend Hmore.
  destruct Hb as [[_ _ He _ _] _]. split; [|lia]. rewrite Hend. assert (zlen (records b) <> 0).
  { intros E. apply Hmore, nil_length_inv. unfold zlen in E. lia. }
  pose proof (zlen_nonneg (records b)). lia.
Qed.

Lemma numbered_lt l recs r : numbered l recs -> r ∈ recs -> l < lsn r <= l + zlen recs.
Proof using Type.
  revert l. induction recs as [|r' recs IH]; intros l Hn Hr; [by apply elem_of_nil in Hr|]. destruct Hn as [H1 H2]. rewrite zlen_cons.
  pose proof (zlen_nonneg recs). apply elem_of_cons in Hr as [->|Hr]; [lia|]. specialize (IH (l + 1) H2 Hr). lia.
Qed.

(** After the writer's turn: the batch is in the log and with the replay task. *)
Definition sent (ticket : Z) (c : Channels) : Channels :=
  {| ch_queue := [{| batch := b; ack := Some ticket |}]; ch_replay := []; ch_acks := ch_acks c; ch_next_ack := ticket + 1; ch_locked := true |}.

Definition written (ticket : Z) (c : Channels) : Channels :=
  {| ch_queue := []; ch_replay := [b]; ch_acks := <[ticket := Ret (end_lsn b)]> (ch_acks c); ch_next_ack := ticket + 1; ch_locked := true |}.

Lemma append_send_quiet :
  let t := ch_next_ack (sn_channels n) in
  append_send b n = (Ret t, with_channels (sent t (sn_channels n)) n).
Proof using Hq.
  cbv zeta. destruct Hq as [_ Hqu Hre _ _ _ _ (i & Hi & _) _]. unfold append_send, send. rewrite st_bind_gets. unfold id.
  unfold file_of in Hi. destruct (sn_writer n) as [|w|] eqn:Ew; try discriminate Hi.
  rewrite (st_bind_ret _ _ n tt (with_channels {| ch_queue := [{| batch := b; ack := Some (ch_next_ack (sn_channels n)) |}];
    ch_replay := []; ch_acks := ch_acks (sn_channels n); ch_next_ack := ch_next_ack (sn_channels n);
    ch_locked := ch_locked (sn_channels n) |} n)).
  - rewrite st_bind_modify. reflexivity.
  - rewrite st_bind_gets, Ew, Hqu, Hre. reflexivity.
Qed.

Lemma writer_turn_quiet :
  let t := ch_next_ack (sn_channels n) in
  sn_durable n + 1 < U64 -> 0 <= end_lsn b ->
  exists n3 L3, writer_turn 1 (with_channels (sent t (sn_channels n)) n) = n3 /\ node_ok n3 L3 m /\
    sn_channels n3 = written t (sn_channels n) /\ sn_durable n3 = end_lsn b /\ sn_applied n3 = sn_applied n /\
    sn_task n3 = sn_task n /\ sn_requests n3 = sn_requests n /\
    (exists i, file_of n3 = Some i /\ 0 <= i <= sn_durable n + 1) /\ (forall x, log_has L3 x -> x = b \/ log_has L x) /\ log_has L3 b.
Proof using Hq Hb.
  cbv zeta. set (t := ch_next_ack (sn_channels n)). intros Hu He.
  destruct Hq as [[Hs Hf Hmx Hd Ha (i & Hi & HLi & Hmax)] Hqu Hre Hla Hbu Hdu Hpo (i' & Hi' & Hib) _].
  unfold file_of in Hi, Hi'. destruct (sn_writer n) as [|w|] eqn:Ew; try discriminate Hi. injection Hi as <-. injection Hi' as <-.
  destruct (append_batch_log b w (sn_dir n) L (sn_durable n) Hd Hb HLi Hmax Hib Hu)
    as (w' & d' & L' & Happ & Hd' & _ & HL' & Hmax' & Hib' & Hhas & Hhb).
  eexists _, L'. split; [reflexivity|]. unfold writer_turn. cbn [with_channels sn_writer sn_channels sn_dir]. rewrite Ew.
  cbn [sent ch_queue take drop WalWriterM.append_all batch]. rewrite Happ. unfold WalWriterM.flush.
  rewrite (dir_ok_none d' (dl_faults _ _ Hd')). cbn [publish]. change (0 <? 0 + 1) with true. cbn -[Z.max].
  split; [split; cbn; try done|].
  { exists (ww_file_id w'). done. }
  split; [done|]. split; [lia|]. split; [done|]. split; [done|]. split; [done|]. split; [|done].
  exists (ww_file_id w'). split; [done|lia].
Qed.

Definition replayed (t : Z) (c : Channels) : Channels :=
  {| ch_queue := []; ch_replay := []; ch_acks := <[t := Ret (end_lsn b)]> (ch_acks c); ch_next_ack := t + 1; ch_locked := true |}.

Definition indexed (reqs : gmap Z Z) : gmap Z Z := if request_id b =? 0 then reqs else <[request_id b := end_lsn b]> reqs.

(** The replay of the batch, before the maintenance that follows it. *)
Lemma replay_records_quiet n3 L3 :
  node_ok n3 L3 m -> sn_applied n3 = sn_applied n -> sn_task n3 = sn_task n ->
  exists buffers n4, on_replay (replay_records now (records b) (rt_last_applied (sn_task n3)) (rt_buffers (sn_task n3))) n3 = (Ret buffers, n4) /\
    node_ok n4 L3 (foldl write_image m (records b)) /\ empty_buffers buffers /\ sn_channels n4 = sn_channels n3 /\
    sn_writer n4 = sn_writer n3 /\ sn_durable n4 = sn_durable n3 /\ sn_applied n4 = end_lsn b - 1 /\
    rt_last_applied (sn_task n4) = end_lsn b - 1 /\ sn_requests n4 = sn_requests n3 /\
    wal_state (sn_dir n4) = Some (le_bytes 8 (end_lsn b - 1)).
Proof using Hq Hb Him Hnum Hend Hmore.
  intros [Hs Hf Hmx Hd Ha Hfi] Hap Hta. pose proof end_bounds as Hbd. destruct Hq as [_ _ _ Hla Hbu Hdu Hpo _ _].
  destruct (replay_records_images now (records b) (sn_applied n) (replay_of n3) m (rt_buffers (sn_task n3)))
    as (buffers & rp' & Hrun & [Hs' Hf' Hd' Hmx' Ha'] & Hbuf & Hla' & Hap' & Hdir);
    [by split; try apply (dl_faults _ _ Hd)|done|done|done|cbn; congruence|cbn; congruence|by rewrite Hta|].
  replace (sn_applied n + zlen (records b)) with (end_lsn b - 1) in Hla', Hap', Hdir by lia.
  cbn [replay_of rp_dir] in Hdir. unfold moved_dir in Hdir. destruct (Z.ltb_spec (sn_applied n) (end_lsn b - 1)) as [Hlt|Hge]; [|lia].
  assert (Hl3 : rt_last_applied (sn_task n3) = sn_applied n) by (rewrite Hta; exact Hla).
  exists buffers, (put_replay rp' n3). split; [unfold on_replay; rewrite Hl3, Hrun; reflexivity|].
  split; [|cbn; rewrite Hdir; done].
  split; cbn; [done|done|done| |done|done]. rewrite Hdir. destruct Hd as [D1 D2 D3]. by split.
Qed.

(** A turn of the replay task, given what replaying the records does. *)
Record replays (n3 n4 : StorageNode) (L3 : gmap Z (list WalBatch)) (m' : PageId -> option Page) (a : Z) (ws : option bytes) : Prop := {
  ry_ok : node_ok n4 L3 m';
  ry_channels : sn_channels n4 = sn_channels n3;
  ry_writer : sn_writer n4 = sn_writer n3;
  ry_durable : sn_durable n4 = sn_durable n3;
  ry_requests : sn_requests n4 = sn_requests n3;
  ry_applied : sn_applied n4 = a;
  ry_last : rt_last_applied (sn_task n4) = a;
  ry_state : wal_state (sn_dir n4) = ws
}.

Lemma replay_turn_with {AL : Allocator} n3 L3 t c m' a ws (P : gmap Z ReplayBuffer -> Prop) :
  node_ok n3 L3 m -> sn_channels n3 = written t c ->
  (forall n3', node_ok n3' L3 m -> sn_applied n3' = sn_applied n3 -> sn_task n3' = sn_task n3 -> sn_dir n3' = sn_dir n3 ->
     exists buffers n4, on_replay (replay_records now (records b) (rt_last_applied (sn_task n3')) (rt_buffers (sn_task n3'))) n3' = (Ret buffers, n4) /\
       P buffers /\ replays n3' n4 L3 m' a ws) ->
  exists n4 L4, replay_turn now ms n3 = (Ret tt, n4) /\ from_log L3 L4 /\ P (rt_buffers (sn_task n4)) /\ node_ok n4 L4 m' /\
    sn_channels n4 = replayed t c /\ sn_writer n4 = sn_writer n3 /\ sn_durable n4 = sn_durable n3 /\
    sn_applied n4 = a /\ rt_last_applied (sn_task n4) = a /\
    sn_requests n4 = indexed (sn_requests n3) /\ wal_state (sn_dir n4) = ws.
Proof using Type.
  intros Hn3 Hch Hrec. unfold replay_turn. rewrite st_bind_gets, Hch. cbn [written ch_replay ch_queue ch_acks].
  rewrite st_bind_modify. unfold replay_batch. rewrite st_bind_modify, st_bind_gets. unfold id.
  set (n3' := index_batch b (with_channels (set_tasks [] [] (<[t := Ret (end_lsn b)]> (ch_acks c)) (written t c)) n3)).
  assert (Hn3' : node_ok n3' L3 m).
  { unfold n3', index_batch. destruct (request_id b =? 0); destruct Hn3 as [A B C D E F]; by split. }
  assert (Hfields : sn_applied n3' = sn_applied n3 /\ sn_task n3' = sn_task n3 /\ sn_dir n3' = sn_dir n3 /\ sn_channels n3' = replayed t c /\
    sn_writer n3' = sn_writer n3 /\ sn_durable n3' = sn_durable n3 /\ sn_requests n3' = indexed (sn_requests n3)).
  { unfold n3', index_batch, indexed. by destruct (request_id b =? 0). }
  destruct Hfields as (E1 & E2 & E0 & E3 & E4 & E5 & E6).
  destruct (Hrec n3' Hn3' E1 E2 E0) as (buffers & n4 & Hrun & Hbuf & [Hok4 C4 W4 D4 R4 A4 T4 S4]).
  rewrite (st_bind_ret _ _ _ _ _ Hrun), st_bind_modify.
  assert (Hok5 : node_ok (set_buffers buffers n4) L3 m') by (destruct Hok4 as [A B C D E F]; by split).
  destruct (replay_maintenance_maintained now ms _ L3 _ Hok5) as (n6 & H6 & (L6 & Hok6 & [S1 S2 S3 S5 S6 S7 S8 S9] & F6)).
  exists n6, L6. split; [done|]. split; [done|].
  cbn [set_buffers with_task sn_channels sn_writer sn_task sn_durable sn_applied sn_requests sn_dir rt_last_applied rt_buffers] in S1, S2, S3, S5, S6, S7, S8, S9.
  rewrite S1, S2, S3, S5, S6, S7, S8, S9, C4, W4, D4, A4, T4, R4, S4, E3, E4, E5, E6. done.
Qed.

Lemma replay_turn_quiet {AL : Allocator} n3 L3 t c :
  node_ok n3 L3 m -> sn_channels n3 = written t c -> sn_applied n3 = sn_applied n -> sn_task n3 = sn_task n ->
  exists n4 L4, replay_turn now ms n3 = (Ret tt, n4) /\ from_log L3 L4 /\ empty_buffers (rt_buffers (sn_task n4)) /\
    node_ok n4 L4 (foldl write_image m (records b)) /\
    sn_channels n4 = replayed t c /\ sn_writer n4 = sn_writer n3 /\ sn_durable n4 = sn_durable n3 /\
    sn_applied n4 = end_lsn b - 1 /\ rt_last_applied (sn_task n4) = end_lsn b - 1 /\
    sn_requests n4 = indexed (sn_requests n3) /\ wal_state (sn_dir n4) = Some (le_bytes 8 (end_lsn b - 1)).
Proof using Hq Hb Him Hnum Hend Hmore.
  intros Hn3 Hch Hap Hta. apply replay_turn_with; [done|done|]. intros n3' Hn3' E1 E2 _.
  destruct (replay_records_quiet n3' L3 Hn3' ltac:(congruence) ltac:(congruence))
    as (buffers & n4 & Hrun & Hok4 & Hbuf & C4 & W4 & D4 & A4 & T4 & R4 & S4).
  exists buffers, n4. split; [done|]. split; [done|]. by split.
Qed.

End Commit.

(** The whole of [append_wal_batch_sync]. *)
Lemma append_sync_quiet {AL : Allocator} now ms n L m b :
  quiet n L m -> readable b -> Forall image_ok (records b) -> start_lsn b = sn_durable n -> numbered (sn_applied n) (records b) ->
  end_lsn b = sn_durable n + zlen (records b) -> records b <> [] -> validate_incoming_wal_batch b n = Ret tt ->
  exists r n' L', append_wal_batch_sync now ms b n = (r, n') /\
    ((r = Ret (end_lsn b) /\ quiet n' L' (foldl write_image m (records b)) /\ sn_applied n' = end_lsn b - 1 /\
      sn_requests n' = indexed b (sn_requests n) /\ wal_state (sn_dir n') = Some (le_bytes 8 (end_lsn b - 1))) \/
     (r = Fail (Io WouldBlock) /\ quiet n' L' m /\ same_core n n' /\
      (wal_usage_exceeds (WalCodec.wal_batch_encoded_len b) n).1 <> Ret None)).
Proof.
  intros Hq Hb Him Hstart Hnum Hend Hmore Hval. unfold append_wal_batch_sync.
  destruct (enforce_maintained now ms (WalCodec.wal_batch_encoded_len b) n L m (qu_ok _ _ _ Hq)) as (r & n1 & He & M1 & Hr).
  assert (Hchk : append_check now ms b n = (r, n1)).
  { unfold append_check. rewrite st_bind_gets. unfold id. rewrite (st_bind_lift _ _ _ _ Hval). exact He. }
  destruct (quiet_maintained n L m n1 Hq M1) as (L1 & Hq1 & F1 & S1).
  destruct Hr as [->|[-> Hover]]; [|exists (Fail (Io WouldBlock)), n1, L1; split; [by apply st_bind_fail|by right]].
  rewrite (st_bind_ret _ _ _ _ _ Hchk). set (t := ch_next_ack (sn_channels n1)).
  assert (Hst : start_lsn b = sn_durable n1) by (rewrite (sc_durable _ _ S1); done).
  assert (Hnu : numbered (sn_applied n1) (records b)) by (rewrite (sc_applied _ _ S1); done).
  assert (Hen : end_lsn b = sn_durable n1 + zlen (records b)) by (rewrite (sc_durable _ _ S1); done).
  rewrite (st_bind_ret _ _ _ _ _ (append_send_quiet n1 L1 m b Hq1)). cbv zeta. fold t. rewrite st_bind_modify.
  destruct (end_bounds n1 b Hb Hen Hmore) as [Hb1 Hb2]. pose proof (qu_pos _ _ _ Hq1). pose proof (qu_durable _ _ _ Hq1).
  destruct (writer_turn_quiet n1 L1 m b Hq1 Hb ltac:(lia) ltac:(lia)) as (n3 & L3 & H3 & Hok3 & C3 & D3 & A3 & T3 & R3 & F3 & Hlog3 & _).
  fold t in H3, C3. rewrite H3.
  destruct (replay_turn_quiet now ms n1 L1 m b Hq1 Hb Him Hnu Hen Hmore n3 L3 t _ Hok3 C3 A3 T3)
    as (n4 & L4 & H4 & F4 & B4 & Hok4 & C4 & W4 & D4 & A4 & T4 & R4 & S4).
  rewrite (st_bind_ret _ _ _ _ _ H4). unfold append_await, append_wait. rewrite C4. cbn [replayed ch_acks ch_next_ack].
  rewrite lookup_insert_eq, A4. destruct (Z.ltb_spec (end_lsn b - 1) (sat_sub (end_lsn b) 1)) as [Hlt|_].
  { exfalso. unfold sat_sub in Hlt. lia. }
  eexists _, _, L4. split; [reflexivity|]. left. split; [done|]. cbn [set_lock with_channels sn_applied sn_requests sn_dir].
  split; [|split; [exact A4|split; [rewrite R4, R3, (sc_requests _ _ S1); done|exact S4]]].
  split; cbn [set_lock with_channels sn_channels ch_queue ch_replay sn_task sn_applied sn_durable]; rewrite ?C4, ?A4, ?D4, ?D3, ?T4;
    cbn [replayed ch_queue ch_replay]; [|reflexivity|reflexivity|reflexivity|exact B4|lia|lia| |].
  - destruct Hok4 as [A B C D E F]. split; assumption.
  - destruct F3 as (i & Hi & Hib). exists i. split; [|lia]. unfold file_of in Hi |- *. cbn [set_lock with_channels sn_writer]. by rewrite W4.
  - intros x Hx. apply (from_log_has _ _ _ F4), Hlog3 in Hx as [->|Hx].
    + apply Forall_forall. intros r Hr. pose proof (numbered_lt _ _ _ Hnu Hr). lia.
    + eapply Forall_impl; [exact (qu_log _ _ _ Hq1 x Hx)|]. cbn. intros r Hr. lia.
Qed.


(** ** Transactions *)

Definition apply_writes (m : PageId -> option Page) (writes : list (PageId * Page)) : PageId -> option Page :=
  foldl (fun m w i => if bool_decide (i = w.1) then nonzero w.2 else m i) m writes.

Lemma write_images writes : forall l m, foldl write_image m (images l writes) = apply_writes m writes.
Proof. induction writes as [|w writes IH]; intros l m; [done|]. cbn [images foldl apply_writes]. by rewrite IH. Qed.

Lemma zlen_encode_images writes : forall l, Forall write_ok writes ->
  zlen (WalCodec.encode_records (images l writes)) = 16411 * zlen writes.
Proof.
  induction writes as [|w writes IH]; intros l Hw; [done|]. apply Forall_cons in Hw as [[_ Hp] Hw].
  cbn [images WalCodec.encode_records]. rewrite zlen_app, zlen_encode_record, IH, zlen_cons by done.
  cbn [image key value]. rewrite Hp, zlen_nil. unfold PAGE_SIZE. lia.
Qed.

(** What a transaction may ask for; the page limit keeps its frame within what the reader
    of the log accepts. *)
Record txn_ok (n : StorageNode) (request_id end_lsn : Z) (writes : list (PageId * Page)) : Prop := {
  tk_request : 0 <= request_id < U64;
  tk_writes : Forall write_ok writes;
  tk_some : writes <> [];
  tk_many : zlen writes <= 1000;
  tk_end : end_lsn = sn_durable n + zlen writes;
  tk_room : end_lsn < U64
}.

Lemma commit_cases {AL : Allocator} now ms n L m req e writes :
  quiet n L m -> txn_ok n req e writes -> (req = 0 \/ sn_requests n !! req = None) ->
  exists r n' L', append_txn_batch_with_lsn_sync now ms req (sn_durable n) e writes n = (r, n') /\
    ((r = Ret e /\ quiet n' L' (apply_writes m writes) /\ sn_applied n' = e - 1 /\
      (req <> 0 -> sn_requests n' !! req = Some e) /\ wal_state (sn_dir n') = Some (le_bytes 8 (e - 1))) \/
     (r = Fail (Io WouldBlock) /\ quiet n' L' m /\ same_core n n' /\
      (wal_usage_exceeds (32 + 16411 * zlen writes) n).1 <> Ret None)).
Proof.
  intros Hq [Hreq Hw Hne Hmany He Hroom] Hnew. pose proof (qu_pos _ _ _ Hq) as Hpos. pose proof (qu_durable _ _ _ Hq) as Hdur.
  pose proof (zlen_nonneg writes) as Hwl.
  set (b := {| request_id := req; start_lsn := sn_durable n; end_lsn := e; records := images (sn_durable n) writes |}).
  unfold append_txn_batch_with_lsn_sync. rewrite st_bind_gets. unfold id.
  assert (Hbat : txn_batch req (sn_durable n) e writes n = Ret (inr b)).
  { unfold txn_batch. replace (if req =? 0 then None else sn_requests n !! req) with (@None Z)
      by (destruct (Z.eqb_spec req 0); [done|destruct Hnew as [|Hn]; [done|by rewrite Hn]]).
    rewrite bool_decide_eq_false_2 by done. rewrite wrap64_small by lia. rewrite He, Z.eqb_refl. cbn [negb].
    rewrite image_records_ok by (done || lia). unfold b. by rewrite He. }
  rewrite (st_bind_lift _ _ _ _ Hbat).
  assert (Hread : readable b).
  { split; [split; cbn [b request_id start_lsn end_lsn records]; try lia|].
    - rewrite zlen_images. unfold U32. lia.
    - apply images_record_ok; [lia|lia|done].
    - rewrite zlen_encode_body. cbn [b records]. rewrite zlen_encode_images by done. unfold MAX_WAL_FRAME_LEN. lia. }
  assert (Hval : validate_incoming_wal_batch b n = Ret tt).
  { unfold validate_incoming_wal_batch. cbn [b start_lsn end_lsn records]. rewrite Z.eqb_refl. cbn [negb].
    destruct (Z.ltb_spec e (sn_durable n)); [lia|]. rewrite zlen_images. unfold sat_sub. rewrite Z.max_r by lia.
    replace (e - sn_durable n) with (zlen writes) by lia. rewrite Z.eqb_refl. cbn [negb]. by rewrite lsns_match_images by lia. }
  destruct (append_sync_quiet now ms n L m b Hq Hread) as (r & n1 & L1 & Hrun & Hres); cbn [b start_lsn end_lsn records].
  - by apply images_ok.
  - reflexivity.
  - rewrite Hdur. apply images_numbered.
  - by rewrite zlen_images.
  - destruct writes; [done|discriminate].
  - exact Hval.
  - destruct Hres as [(-> & Hq1 & Ha1 & Hr1 & Hs1)|(-> & Hq1 & Hs1 & Hover)].
    + rewrite (st_bind_ret _ _ _ _ _ Hrun), st_bind_modify. cbn [b records end_lsn] in Hq1, Ha1, Hs1. rewrite write_images in Hq1.
      eexists (Ret e), _, L1. split; [reflexivity|]. left. split; [done|]. unfold remember_request.
      destruct (Z.eqb_spec req 0) as [E|E]; [done|].
      split; [|split; [done|split; [intros _; apply lookup_insert_eq|done]]].
      destruct Hq1 as [[A1 A2 A3 A4 A5 A6] B C D E' F G H I]. split; try done; try (by split).
    + rewrite (st_bind_fail _ _ _ _ _ Hrun). exists (Fail (Io WouldBlock)), n1, L1. split; [done|]. right.
      split; [done|]. split; [done|]. split; [done|]. replace (32 + 16411 * zlen writes) with (WalCodec.wal_batch_encoded_len b); [done|].
      rewrite encoded_len_frame, zlen_encode_body. cbn [b records]. rewrite zlen_encode_images by done. lia.
Qed.

(** ** Batches the replay task does not apply *)

Lemma replay_records_stale now recs : forall l buffers rp,
  Forall (fun r => lsn r <= l) recs -> replay_records now recs l buffers rp = (Ret buffers, rp).
Proof.
  induction recs as [|r recs IH]; intros l buffers rp Hr; [done|]. apply Forall_cons in Hr as [H1 H2]. cbn [replay_records].
  destruct (Z.leb_spec (lsn r) l); [by apply IH|lia].
Qed.

Lemma put_replay_same n : put_replay (replay_of n) n = n.
Proof. by destruct n as [? ? ? ? ? []]. Qed.

(** The sender of a batch that was checked earlier: it is written, acknowledged and not
    applied. *)
Lemma stale_append_quiet {AL : Allocator} now ms n L m b :
  quiet n L m -> readable b -> Forall (fun r => lsn r <= sn_applied n) (records b) -> sn_durable n + 1 < U64 ->
  end_lsn b <= sn_applied n + 1 ->
  exists t n3 n4 n5 L', append_send b n = (Ret t, n3) /\ replay_turn now ms (writer_turn 1 n3) = (Ret tt, n4) /\
    append_wait t b n4 = Some (Ret (end_lsn b), n5) /\ node_ok n5 L' m /\ sn_durable n5 = end_lsn b /\ sn_applied n5 = sn_applied n.
Proof.
  intros Hq Hb Hst Hu Hle. set (t := ch_next_ack (sn_channels n)). exists t. eexists.
  assert (He : 0 <= end_lsn b) by (destruct Hb as [[] _]; lia).
  destruct (writer_turn_quiet n L m b Hq Hb Hu He) as (n3 & L3 & H3 & Hok3 & C3 & D3 & A3 & T3 & R3 & _ & _ & _).
  destruct (replay_turn_with now ms m b n3 L3 t (sn_channels n) m (sn_applied n) (wal_state (sn_dir n3)) (fun _ => True) Hok3 C3)
    as (n4 & L4 & H4 & _ & _ & Hok4 & C4 & _ & D4 & A4 & _ & _ & _).
  { intros n3' Hn3' E1 E2 E3. eexists _, n3'. split; [|split; [done|]].
    - unfold on_replay. rewrite replay_records_stale; [by rewrite put_replay_same|]. rewrite E2, T3, (qu_last _ _ _ Hq). exact Hst.
    - split; try done; [by rewrite E1, A3|by rewrite E2, T3, (qu_last _ _ _ Hq)|by rewrite E3]. }
  exists n4, (set_lock false (ch_next_ack (sn_channels n4)) n4), L4.
  split; [apply (append_send_quiet n L m b Hq)|]. cbv zeta. fold t in H3 |- *. rewrite H3. split; [done|]. split; [|split; [|split]].
  - unfold append_wait. rewrite C4. cbn [replayed ch_acks]. rewrite lookup_insert_eq, A4.
    destruct (Z.ltb_spec (sn_applied n) (sat_sub (end_lsn b) 1)) as [Hlt|]; [|done]. unfold sat_sub in Hlt. pose proof (qu_pos _ _ _ Hq). lia.
  - destruct Hok4 as [A B C D E F]. by split.
  - cbn. congruence.
  - done.
Qed.

(** A small page record stays in its buffer. *)
Definition small_put (r : WalRecord) : Prop := op r = WAL_OP_PAGE_PUT /\ zlen (key r) + zlen (value r) + 32 < 8 * 1024.

Lemma small_append_waits {AL : Allocator} now ms n L m b r :
  quiet n L m -> readable b -> records b = [r] -> small_put r -> lsn r = sn_durable n -> start_lsn b = sn_durable n ->
  end_lsn b = sn_durable n + 1 -> sn_durable n + 1 < U64 ->
  exists res n', append_wal_batch_sync now ms b n = (res, n') /\
    ((res = Spin /\ ch_queue (sn_channels n') = [] /\ ch_replay (sn_channels n') = [] /\ sender_free n' = false /\
      sn_durable n' = end_lsn b /\ sn_applied n' < end_lsn b - 1 /\
      ch_acks (sn_channels n') !! ch_next_ack (sn_channels n) = Some (Ret (end_lsn b))) \/
     (res = Fail (Io WouldBlock) /\ same_core n n' /\ (wal_usage_exceeds (WalCodec.wal_batch_encoded_len b) n).1 <> Ret None)).
Proof.
  intros Hq Hb Hrec [Hop Hsmall] Hlsn Hstart Hend Hu. pose proof (qu_pos _ _ _ Hq) as Hpos. pose proof (qu_durable _ _ _ Hq) as Hdur.
  assert (Hval : validate_incoming_wal_batch b n = Ret tt).
  { unfold validate_incoming_wal_batch. rewrite Hstart, Z.eqb_refl, Hend, Hrec. cbn [negb].
    destruct (Z.ltb_spec (sn_durable n + 1) (sn_durable n)); [lia|].
    replace (sat_sub (sn_durable n + 1) (sn_durable n)) with 1 by (unfold sat_sub; lia). cbn [zlen length]. change (1 =? Z.of_nat 1) with true. cbn [negb].
    cbn [lsns_match]. rewrite wrap64_small by lia. by rewrite Hlsn, !Z.eqb_refl. }
  unfold append_wal_batch_sync.
  destruct (enforce_maintained now ms (WalCodec.wal_batch_encoded_len b) n L m (qu_ok _ _ _ Hq)) as (res & n1 & He & M1 & Hr).
  assert (Hchk : append_check now ms b n = (res, n1)).
  { unfold append_check. rewrite st_bind_gets. unfold id. rewrite (st_bind_lift _ _ _ _ Hval). exact He. }
  destruct (quiet_maintained n L m n1 Hq M1) as (L1 & Hq1 & F1 & S1).
  destruct Hr as [->|[-> Hover]]; [|exists (Fail (Io WouldBlock)), n1; split; [by apply st_bind_fail|by right]].
  rewrite (st_bind_ret _ _ _ _ _ Hchk), (st_bind_ret _ _ _ _ _ (append_send_quiet n1 L1 m b Hq1)). cbv zeta. rewrite st_bind_modify.
  set (t := ch_next_ack (sn_channels n1)). pose proof (sc_durable _ _ S1) as Ed. pose proof (sc_applied _ _ S1) as Ea.
  destruct (writer_turn_quiet n1 L1 m b Hq1 Hb ltac:(lia) ltac:(lia)) as (n3 & L3 & H3 & Hok3 & C3 & D3 & A3 & T3 & _).
  fold t in H3, C3. rewrite H3.
  destruct (replay_turn_with now ms m b n3 L3 t (sn_channels n1) m (sn_applied n1) (wal_state (sn_dir n3)) (fun _ => True) Hok3 C3)
    as (n4 & L4 & H4 & _ & _ & _ & C4 & _ & D4 & A4 & _).
  { intros n3' Hn3' E1 E2 E3. eexists _, n3'. split; [|split; [done|]].
    - unfold on_replay. rewrite Hrec, E2, T3, (qu_last _ _ _ Hq1). cbn [replay_records].
      destruct (Z.leb_spec (lsn r) (sn_applied n1)); [lia|]. destruct (Z.eqb_spec (lsn r) (sn_applied n1 + 1)); [|lia]. cbn [negb].
      replace (is_txn_op r) with false by (unfold is_txn_op; by rewrite Hop).
      assert (Hb0 : default buffer_new (rt_buffers (sn_task n1) !! page_id r) = buffer_new).
      { destruct (_ !! _) as [x|] eqn:E; [|done]. exact (qu_buffers _ _ _ Hq1 _ _ E). }
      rewrite Hb0. replace (should_flush (buffer_push r buffer_new)) with false; [unfold mret, st_ret; by rewrite put_replay_same|].
      symmetry. unfold should_flush. cbn [buffer_push buf_bytes buffer_new]. apply Z.leb_gt. lia.
    - split; try done; [by rewrite E1, A3|by rewrite E2, T3, (qu_last _ _ _ Hq1)|by rewrite E3]. }
  rewrite (st_bind_ret _ _ _ _ _ H4). unfold append_await, append_wait. rewrite C4. cbn [replayed ch_acks]. rewrite lookup_insert_eq, A4.
  destruct (Z.ltb_spec (sn_applied n1) (sat_sub (end_lsn b) 1)) as [Hlt|Hge]; [|unfold sat_sub in Hge; lia].
  eexists _, n4. split; [reflexivity|]. left. unfold sender_free. rewrite C4, A4, D4, D3. cbn [replayed ch_queue ch_replay ch_locked negb].
  split_and!; try done; [lia|]. unfold t. rewrite (sc_channels _ _ S1). apply lookup_insert_eq.
Qed.

End NodeSpec.
