(* ===== verification/NodeProps.v ===== *)
(** * NodeProps: what the storage node guarantees

    Commits, recovery, truncation of the log, and three ways in which they fall short. *)

From stdpp Require Import base numbers list list_numbers gmap fin_maps sorting.
From S2P Require Import Prelude Common WalCodec Mvcc PageStore Node NodeSpec.

Module NodeProps.
Import WalCodecSpec PageStoreSpec PageStoreProps WalFilesM ReplayM NodeM NodeSpec.

#[local] Opaque page_at nonzero zrepeat.

(** ** A new node *)

Definition empty_files : NodeFiles := {| nf_pages := mkDisk [] 0 [] None []; nf_dir := mkDir ∅ None [] |}.

Definition new_node : StorageNode :=
  mkNode sample_store ∅ (mkDir {[1 := []]} None []) no_channels (Running {| ww_file_id := 1; ww_size := 0 |})
    {| rt_last_applied := 0; rt_buffers := ∅; rt_gc_counter := 0 |} 1 0 ∅ ∅ ActiveReadsM.new default_maintenance no_metrics.

Definition new_log : gmap Z (list WalBatch) := {[1 := []]}.

Lemma new_log_lookup i bs : new_log !! i = Some bs -> i = 1 /\ bs = [].
Proof. unfold new_log. intros [<- <-]%lookup_singleton_Some. done. Qed.

Lemma new_node_quiet : quiet new_node new_log (fun _ => None).
Proof.
  split; try done.
  - split; [apply sample_store_ok|done|unfold MAX_ID; cbn; lia| |apply sample_store_abs|].
    + split; [done| |].
      * unfold new_log. by rewrite map_fmap_singleton.
      * intros i bs [_ ->]%new_log_lookup. by apply Forall_nil.
    + exists 1. split; [done|]. split; [by eexists|]. intros j [bs [-> _]%new_log_lookup]. done.
  - exists 1. split; [done|cbn; lia].
  - intros b (i & bs & [_ ->]%new_log_lookup & Hb). by apply elem_of_nil in Hb.
Qed.

Lemma sample_txn_ok : txn_ok new_node 77 2 [(3, sample_page 7)].
Proof.
  split; [unfold U64; lia| |done|unfold zlen; cbn [length]; lia|reflexivity|unfold U64; lia].
  apply Forall_singleton. split; [apply sample_id_ok|apply sample_page_len].
Qed.

(** C4: a transaction on a node that does nothing else is atomic and gets what it asked
    for: [append_txn_batch_with_lsn_sync] returns its end LSN with every page image
    readable and nothing else changed, or reports back-pressure with no page changed, which
    it does only when the log exceeds its limits; the node is ready for the next one in both cases, and sending a request again that has been
    committed, with any pages and LSNs, gives the same LSN and changes nothing. *)
Theorem commit_refines_map {AL : Allocator} (now ms : Z) (n : StorageNode) L m (req e : Z) (writes : list (PageId * Page)) :
  quiet n L m -> txn_ok n req e writes -> (req = 0 \/ sn_requests n !! req = None) ->
  exists r n' L', append_txn_batch_with_lsn_sync now ms req (sn_durable n) e writes n = (r, n') /\
    ((r = Ret e /\ quiet n' L' (apply_writes m writes) /\ sn_durable n' = e /\
      wal_state (sn_dir n') = Some (le_bytes 8 (sn_applied n')) /\
      (req <> 0 -> forall now' ms' start' end' writes',
         append_txn_batch_with_lsn_sync now' ms' req start' end' writes' n' = (Ret e, n'))) \/
     (r = Fail (Io WouldBlock) /\ quiet n' L' m /\ sn_durable n' = sn_durable n /\
      (wal_usage_exceeds (32 + 16411 * zlen writes) n).1 <> Ret None)).
Proof.
  intros Hq Ht Hnew. destruct (commit_cases now ms n L m req e writes Hq Ht Hnew) as (r & n' & L' & Hrun & [(-> & Hq' & Ha & Hreq & Hs)|(-> & Hq' & Hc & Hover)]).
  - exists (Ret e), n', L'. split; [exact Hrun|]. left. split; [reflexivity|]. split; [exact Hq'|].
    split; [rewrite (qu_durable _ _ _ Hq'), Ha; lia|]. split; [by rewrite Ha|]. intros Hne now' ms' start' end' writes'.
    unfold append_txn_batch_with_lsn_sync. rewrite st_bind_gets. unfold id.
    rewrite (st_bind_lift _ _ _ (inl e)); [reflexivity|]. unfold txn_batch. destruct (Z.eqb_spec req 0) as [|_]; [done|]. by rewrite (Hreq Hne).
  - exists (Fail (Io WouldBlock)), n', L'. split; [exact Hrun|]. right. split; [reflexivity|]. split; [exact Hq'|]. split; [apply Hc|exact Hover].
Qed.

#[local] Existing Instance machine.

Lemma commit_refines_map_witness :
  exists r n' L', append_txn_batch_with_lsn_sync 0 0 77 1 2 [(3, sample_page 7)] new_node = (r, n') /\
    ((r = Ret 2 /\ quiet n' L' (apply_writes (fun _ => None) [(3, sample_page 7)]) /\ sn_durable n' = 2 /\
      wal_state (sn_dir n') = Some (le_bytes 8 (sn_applied n')) /\
      (77 <> 0 -> forall now' ms' start' end' writes',
         append_txn_batch_with_lsn_sync now' ms' 77 start' end' writes' n' = (Ret 2, n'))) \/
     (r = Fail (Io WouldBlock) /\ quiet n' L' (fun _ => None) /\ sn_durable n' = sn_durable new_node /\
      (wal_usage_exceeds (32 + 16411 * 1) new_node).1 <> Ret None)).
Proof.
  exact (commit_refines_map 0 0 new_node new_log (fun _ => None) 77 2 [(3, sample_page 7)] new_node_quiet sample_txn_ok (or_intror eq_refl)).
Defined.

(** C12: recovery redoes the log: opening a node applies to the pages of the page file, in
    log order, exactly the page images above the LSN the node had recorded, and the node
    accepts the next batch at the LSN after the last one in the log. *)
Theorem recovery_redoes_log {AL : Allocator} (now : Z) (maintenance : StorageMaintenanceConfig) (files : NodeFiles) L :
  files_ok files L -> validate maintenance = Ret tt -> 0 <= replay_from files < U64 ->
  redoable (replay_from files) (log_of files L) ->
  exists n, open_with_maintenance now maintenance files = Ret n /\ store_ok (sn_store n) /\
    abs (sn_store n) (redo (replay_from files) (page_at (pf_bytes (nf_pages files))) (log_of files L)) /\
    sn_applied n = top (replay_from files) (log_of files L) /\ sn_durable n = sat_add64 (sn_applied n) 1.
Proof. exact (open_redo now maintenance files L). Qed.

(** Two transactions in the log of a node that had recorded the first. *)
Definition logged_batch (l : Z) (v : Z) : WalBatch :=
  {| request_id := 0; start_lsn := l; end_lsn := l + 1; records := [image l (3, sample_page v)] |}.
Definition logged : gmap Z (list WalBatch) := {[1 := [logged_batch 1 7; logged_batch 2 8]]}.
Definition logged_files : NodeFiles :=
  {| nf_pages := mkDisk [] 0 [] None []; nf_dir := mkDir (render <$> logged) (Some (le_bytes 8 1)) [] |}.

Lemma logged_batch_readable l v : 0 <= l -> l + 1 < U64 -> readable (logged_batch l v).
Proof.
  intros Hl Hu. assert (Hw : Forall write_ok [(3, sample_page v)]).
  { apply Forall_singleton. split; [apply sample_id_ok|apply sample_page_len]. }
  split; [split; cbn [logged_batch request_id start_lsn end_lsn records]; try lia|].
  - unfold zlen, U32. cbn [length]. lia.
  - exact (images_record_ok l [(3, sample_page v)] Hl ltac:(unfold zlen; cbn [length]; lia) Hw).
  - rewrite zlen_encode_body. cbn [logged_batch records]. change [image l (3, sample_page v)] with (images l [(3, sample_page v)]).
    rewrite zlen_encode_images by exact Hw. unfold MAX_WAL_FRAME_LEN, zlen. cbn [length]. lia.
Qed.

Lemma logged_files_ok : files_ok logged_files logged.
Proof.
  split; cbn [logged_files nf_pages nf_dir faults pf_bytes synced]; try reflexivity.
  - unfold MAX_ID, PAGE_SIZE, zlen. cbn [length]. lia.
  - split; cbn [dir_faults segments]; [reflexivity|reflexivity|]. unfold logged. intros i bs [_ <-]%lookup_singleton_Some.
    apply Forall_cons; split; [apply logged_batch_readable; unfold U64; lia|].
    apply Forall_cons; split; [apply logged_batch_readable; unfold U64; lia|by apply Forall_nil].
Qed.

Lemma logged_log : log_of logged_files logged = [image 1 (3, sample_page 7); image 2 (3, sample_page 8)].
Proof.
  assert (Hids : segment_ids (nf_dir logged_files) = [1]).
  { apply Permutation_singleton_r. unfold segment_ids. rewrite merge_sort_Permutation.
    cbn [logged_files nf_dir segments]. unfold logged. rewrite map_fmap_singleton, map_to_list_singleton. reflexivity. }
  unfold log_of. rewrite Hids. unfold batches_of, logged. cbn [fmap list_fmap]. rewrite lookup_singleton_eq. reflexivity.
Qed.

Lemma logged_from : replay_from logged_files = 1.
Proof. reflexivity. Qed.

Lemma logged_redoable : redoable 1 [image 1 (3, sample_page 7); image 2 (3, sample_page 8)].
Proof.
  split.
  - repeat (apply Forall_cons; split; [intros _; split; [reflexivity|apply sample_page_len|apply sample_id_ok]|]). by apply Forall_nil.
  - repeat constructor.
Qed.

Lemma recovery_redoes_log_witness :
  exists n, open_with_maintenance 0 default_maintenance logged_files = Ret n /\ store_ok (sn_store n) /\
    abs (sn_store n) (redo (replay_from logged_files) (page_at (pf_bytes (nf_pages logged_files))) (log_of logged_files logged)) /\
    sn_applied n = top (replay_from logged_files) (log_of logged_files logged) /\ sn_durable n = sat_add64 (sn_applied n) 1.
Proof.
  refine (recovery_redoes_log 0 default_maintenance logged_files logged logged_files_ok eq_refl _ _).
  - rewrite logged_from. unfold U64. lia.
  - rewrite logged_from, logged_log. exact logged_redoable.
Defined.

(** C21: a crash undoes every commit since the last checkpoint.  The node records the LSN
    of a commit in [wal_state] when its pages are only in the buffer pool, and recovery
    starts after that LSN: reopened after a crash, a node that was between two commits has
    the pages of the page file as the crash left it, whatever its log holds. *)
Theorem crash_recovery_ignores_log {AL : Allocator} (now : Z) (maintenance : StorageMaintenanceConfig) (n : StorageNode) L m (b : bytes) :
  quiet n L m -> wal_state (sn_dir n) = Some (le_bytes 8 (sn_applied n)) -> sn_applied n < U64 ->
  survives (disk (sn_store n)) b -> zlen b <= MAX_ID * PAGE_SIZE ->
  0 <= stored_lsn (checkpoint_file (disk (sn_store n))) < U64 -> validate maintenance = Ret tt ->
  exists n', open_with_maintenance now maintenance {| nf_pages := crashed b (disk (sn_store n)); nf_dir := sn_dir n |} = Ret n' /\
    abs (sn_store n') (page_at b).
Proof.
  intros Hq Hws Hu [Hwh _] Hsz Hck Hv. set (files := {| nf_pages := crashed b (disk (sn_store n)); nf_dir := sn_dir n |}).
  pose proof (qu_pos _ _ _ Hq) as Hpos.
  assert (Hst : stored_lsn (wal_state (sn_dir n)) = sn_applied n).
  { rewrite Hws. unfold stored_lsn. rewrite zlen_le_bytes. change (Z.of_nat 8 <? 8) with false.
    rewrite take_ge by (pose proof (zlen_le_bytes 8 (sn_applied n)); unfold zlen in *; lia). apply le_val_u64. lia. }
  assert (Hfrom : sn_applied n <= replay_from files < U64).
  { unfold replay_from. cbn [files nf_dir nf_pages crashed checkpoint_file]. lia. }
  assert (Hold : Forall (fun r => lsn r <= replay_from files) (log_of files L)).
  { unfold log_of, log_records, batches_of. apply Forall_concat, Forall_fmap, Forall_concat, Forall_fmap, Forall_forall.
    intros id _. unfold compose. destruct (L !! id) as [bs|] eqn:E; cbn [default]; [|by apply Forall_nil].
    apply Forall_forall. intros x Hx. eapply Forall_impl; [exact (qu_log _ _ _ Hq x ltac:(by exists id, bs))|]. cbn. intros r Hr. lia. }
  destruct (open_redo now maintenance files L) as (n' & Ho & _ & Ha & _); [|done|lia| |].
  - split; cbn [files nf_pages nf_dir crashed faults pf_bytes synced]; [done|done|done|done|apply (no_dir _ _ _ (qu_ok _ _ _ Hq))].
  - exact (redoable_old _ _ Hold).
  - exists n'. split; [exact Ho|]. rewrite (redo_old _ _ Hold) in Ha. exact Ha.
Qed.

(** A node after its first commit: page 3 is in the pool, the log has it, the page file is
    still empty. *)
Definition committed_store : PageStore := put_page 0 3 (sample_page 7) 1 sample_store.

Definition committed_node : StorageNode :=
  mkNode committed_store {[3]} (mkDir (render <$> {[1 := [logged_batch 1 7]]}) (Some (le_bytes 8 1)) []) no_channels
    (Running {| ww_file_id := 1; ww_size := 16443 |}) {| rt_last_applied := 1; rt_buffers := ∅; rt_gc_counter := 1 |} 2 1 ∅ ∅
    ActiveReadsM.new default_maintenance no_metrics.

Definition committed_pages : PageId -> option Page := apply_writes (fun _ => None) [(3, sample_page 7)].

Lemma committed_store_ok : store_ok committed_store /\ disk committed_store = disk sample_store /\ abs committed_store committed_pages.
Proof.
  destruct (put_ok 0 3 (sample_page 7) 1 sample_store sample_store_ok sample_id_ok (sample_page_len 7)) as (s & Hp & Hok & Hd & Hc).
  rewrite put_eq in Hp by apply sample_page_len. injection Hp as <-. split; [exact Hok|]. split; [exact Hd|].
  intros i Hi. unfold committed_store. rewrite Hc. unfold committed_pages, apply_writes. cbn [foldl fst snd].
  case_bool_decide; [reflexivity|]. exact (sample_store_abs i Hi).
Qed.

Lemma committed_node_quiet : quiet committed_node {[1 := [logged_batch 1 7]]} committed_pages.
Proof.
  destruct committed_store_ok as (Hok & Hd & Ha).
  assert (HL : forall i bs, ({[1 := [logged_batch 1 7]]} : gmap Z (list WalBatch)) !! i = Some bs -> i = 1 /\ bs = [logged_batch 1 7]).
  { intros i bs [<- <-]%lookup_singleton_Some. done. }
  split; cbn [committed_node sn_channels no_channels ch_queue ch_replay sn_task rt_last_applied rt_buffers sn_applied sn_durable];
    [|reflexivity|reflexivity|reflexivity|apply map_Forall_empty|lia|lia| |].
  - split; cbn [committed_node sn_store sn_dir]; [exact Hok|rewrite Hd; reflexivity|unfold MAX_ID; cbn; lia| |exact Ha|].
    + split; [reflexivity|reflexivity|]. intros i bs [_ ->]%HL. apply Forall_singleton, logged_batch_readable; unfold U64; lia.
    + exists 1. split; [reflexivity|]. split; [by eexists|]. intros j [bs [-> _]%HL]. lia.
  - exists 1. split; [reflexivity|lia].
  - intros b (i & bs & [_ ->]%HL & Hb). apply list_elem_of_singleton in Hb as ->. apply Forall_singleton. cbn. lia.
Qed.

Lemma crash_recovery_ignores_log_witness :
  contents (sn_store committed_node) 3 = Some (sample_page 7) /\
  exists n', open_with_maintenance 9 default_maintenance
      {| nf_pages := crashed [] (disk (sn_store committed_node)); nf_dir := sn_dir committed_node |} = Ret n' /\
    abs (sn_store n') (page_at []).
Proof.
  split; [reflexivity|]. destruct committed_store_ok as (_ & Hd & _).
  refine (crash_recovery_ignores_log 9 default_maintenance committed_node _ _ [] committed_node_quiet eq_refl _ _ _ _ eq_refl).
  - unfold U64. cbn. lia.
  - cbn [committed_node sn_store]. rewrite Hd. split; [reflexivity|]. intros i _ E. exact E.
  - unfold MAX_ID, PAGE_SIZE, zlen. cbn [length]. lia.
  - cbn [committed_node sn_store]. rewrite Hd. unfold U64. cbn. lia.
Defined.

(** C22: two appends checked against the same LSN both succeed, and the second undoes the
    first's progress.  A batch that was checked before another one was committed, and is
    sent after it, is written to the log and acknowledged, is never applied, and moves the
    durable LSN back to its own end. *)
Theorem stale_append_acknowledged {AL : Allocator} (now ms : Z) (n : StorageNode) L m (b : WalBatch) :
  quiet n L m -> readable b -> Forall (fun r => lsn r <= sn_applied n) (records b) -> sn_durable n + 1 < U64 ->
  end_lsn b <= sn_applied n + 1 ->
  exists t n3 n4 n5 L', append_send b n = (Ret t, n3) /\ replay_turn now ms (writer_turn 1 n3) = (Ret tt, n4) /\
    append_wait t b n4 = Some (Ret (end_lsn b), n5) /\ node_ok n5 L' m /\ sn_durable n5 = end_lsn b /\ sn_applied n5 = sn_applied n.
Proof. exact (stale_append_quiet now ms n L m b). Qed.

Lemma stale_append_acknowledged_witness :
  validate_incoming_wal_batch (logged_batch 1 8) new_node = Ret tt /\
  exists t n3 n4 n5 L', append_send (logged_batch 1 8) committed_node = (Ret t, n3) /\ replay_turn 0 0 (writer_turn 1 n3) = (Ret tt, n4) /\
    append_wait t (logged_batch 1 8) n4 = Some (Ret 2, n5) /\ node_ok n5 L' committed_pages /\ sn_durable n5 = 2 /\ sn_applied n5 = 1.
Proof.
  split; [reflexivity|].
  refine (stale_append_acknowledged 0 0 committed_node _ committed_pages (logged_batch 1 8) committed_node_quiet _ _ _ _).
  - apply logged_batch_readable; unfold U64; lia.
  - apply Forall_singleton. cbn. lia.
  - unfold U64. cbn. lia.
  - cbn. lia.
Defined.

(** *** A caller that waits *)

(** Calls that leave the channels and the applied LSN alone, whatever their result. *)
Definition framed {A} (m : st StorageNode Error A) : Prop :=
  forall n, sn_channels (m n).2 = sn_channels n /\ sn_applied (m n).2 = sn_applied n.

Lemma framed_bind {A B} (m : st StorageNode Error A) (f : A -> st StorageNode Error B) :
  framed m -> (forall a, framed (f a)) -> framed (m ≫= f).
Proof.
  intros Hm Hf n. specialize (Hm n). unfold mbind, st_bind. destruct (m n) as [[a|e| |] n']; cbn in Hm; try exact Hm.
  destruct (Hf a n'), Hm. split; congruence.
Qed.

Lemma framed_ret {A} (a : A) : framed (mret a).
Proof. done. Qed.
Lemma framed_lift {A} (r : outcome Error A) : framed (lift r).
Proof. done. Qed.
Lemma framed_throw {A} e : framed (throw (A := A) e).
Proof. done. Qed.
Lemma framed_gets {A} (f : StorageNode -> A) : framed (gets f).
Proof. done. Qed.
Lemma framed_modify f : (forall n, sn_channels (f n) = sn_channels n /\ sn_applied (f n) = sn_applied n) -> framed (modify f).
Proof. intros Hf n. apply Hf. Qed.
Lemma framed_store {A} (m : st PageStore Error A) : framed (on_page_store m).
Proof. intros n. unfold on_page_store. by destruct (m (sn_store n)). Qed.
Lemma framed_wal {A} (m : st WalDir Error A) : framed (on_wal m).
Proof. intros n. unfold on_wal. by destruct (m (sn_dir n)). Qed.
Lemma framed_ignore {A} (m : st StorageNode Error A) : framed m -> framed (ReplayM.ignore m).
Proof. intros Hm n. specialize (Hm n). unfold ReplayM.ignore. by destruct (m n) as [[]]. Qed.
Lemma framed_unwrap {A} (m : st StorageNode Error A) a : framed m -> framed (WalFilesM.unwrap_or m a).
Proof. intros Hm n. specialize (Hm n). unfold WalFilesM.unwrap_or. by destruct (m n) as [[]]. Qed.

Create HintDb framed.
#[local] Hint Resolve framed_bind framed_ret framed_lift framed_throw framed_gets framed_store framed_wal framed_ignore framed_unwrap : framed.

Ltac framed := repeat first
  [ progress intros | case_match | apply framed_bind | apply framed_ignore | apply framed_unwrap | apply framed_modify; by intros | solve [eauto 3 with framed] ].

Lemma framed_checkpoint now ms : framed (checkpoint_with_metrics now ms).
Proof. unfold checkpoint_with_metrics. framed. Qed.
Lemma framed_truncate {AL : Allocator} : framed truncate_wal.
Proof. unfold truncate_wal. framed. Qed.
#[local] Hint Resolve framed_checkpoint framed_truncate : framed.

Lemma framed_check {AL : Allocator} now ms b : framed (append_check now ms b).
Proof. unfold append_check, enforce_wal_limits, wal_usage_exceeds. framed. Qed.
Lemma framed_tick {AL : Allocator} now ms config truncate : framed (background_tick now ms config truncate).
Proof. unfold background_tick, maybe_checkpoint_with_config. framed. Qed.

(** What the node does while a caller waits: turns of the writer and of the replay task when
    there is work for them, other appends up to the sender's lock and beyond it when it is
    free, checkpoints, reads and direct writes. *)
Inductive goes_on {AL : Allocator} : StorageNode -> StorageNode -> Prop :=
| go_writer k n : ch_queue (sn_channels n) <> [] -> goes_on n (writer_turn (S k) n)
| go_replay now ms n : ch_replay (sn_channels n) <> [] -> goes_on n (replay_turn now ms n).2
| go_check now ms b n : goes_on n (append_check now ms b n).2
| go_send b n : sender_free n = true -> goes_on n (append_send b n).2
| go_send_async b n : sender_free n = true -> goes_on n (send b None n).2
| go_checkpoint now ms n : goes_on n (checkpoint_and_truncate now ms n).2
| go_background now ms config truncate n : goes_on n (background_tick now ms config truncate n).2
| go_put now id value n : goes_on n (put now id value n)
| go_delete now id n : goes_on n (delete now id n)
| go_get now id n : goes_on n (get now id n).2
| go_begin now timeout n : goes_on n (begin_mvcc_ro_with_timeout now timeout n).2
| go_shutdown n : goes_on n (node_shutdown n).

(** An append that is acknowledged and not applied, with nothing left to apply. *)
Record stuck (ticket : Z) (b : WalBatch) (n : StorageNode) : Prop := {
  sk_queue : ch_queue (sn_channels n) = [];
  sk_replay : ch_replay (sn_channels n) = [];
  sk_lock : sender_free n = false;
  sk_ack : ch_acks (sn_channels n) !! ticket = Some (Ret (end_lsn b));
  sk_applied : sn_applied n < end_lsn b - 1
}.

Lemma stuck_framed t b n n' :
  stuck t b n -> sn_channels n' = sn_channels n -> sn_applied n' = sn_applied n -> stuck t b n'.
Proof. intros [A B C D E] Hc Ha. unfold sender_free in *. split; unfold sender_free; by rewrite ?Hc, ?Ha. Qed.

Lemma stuck_goes_on {AL : Allocator} t b n n' : stuck t b n -> goes_on n n' -> stuck t b n'.
Proof.
  intros Hs Hg. destruct Hg as [k n Hq|now ms n Hq|now ms b' n|b' n Hf|b' n Hf|now ms n|now ms cf tr n|now id v n|now id n|now id n|now tm n|n];
    try (by destruct Hs); try (by eapply stuck_framed).
  - eapply stuck_framed; [exact Hs|apply framed_check..].
  - destruct Hs. congruence.
  - destruct Hs. congruence.
  - assert (Hfr : framed (checkpoint_and_truncate now ms)) by (unfold checkpoint_and_truncate; framed).
    eapply stuck_framed; [exact Hs|apply Hfr..].
  - eapply stuck_framed; [exact Hs|apply framed_tick..].
  - eapply stuck_framed; [exact Hs|..]; unfold get; case_bool_decide; try done; by destruct (PageStoreM.get now id (sn_store n)).
Qed.

Lemma stuck_for_ever {AL : Allocator} t b n n' : stuck t b n -> rtc goes_on n n' -> stuck t b n'.
Proof. intros Hs Hgo. induction Hgo as [|x y z Hxy _ IH]; [done|]. by apply IH, (stuck_goes_on t b x). Qed.

(** C23: a synchronous append of one small page record to a node whose log is within its
    limits never returns.  The record waits in the replay buffer for more, and the applied
    LSN stays below it; the caller keeps the sender's lock, so no later append gets beyond
    it; and after any sequence of turns of the tasks and of calls of other clients, short of
    the tasks being stopped, the caller is still waiting. *)
Theorem small_append_never_returns {AL : Allocator} (now ms : Z) (n : StorageNode) L m (b : WalBatch) (r : WalRecord) :
  quiet n L m -> readable b -> records b = [r] -> small_put r -> lsn r = sn_durable n -> start_lsn b = sn_durable n ->
  end_lsn b = sn_durable n + 1 -> sn_durable n + 1 < U64 ->
  (wal_usage_exceeds (WalCodec.wal_batch_encoded_len b) n).1 = Ret None ->
  exists n', append_wal_batch_sync now ms b n = (Spin, n') /\
    forall n'', rtc goes_on n' n'' ->
      append_wait (ch_next_ack (sn_channels n)) b n'' = None /\ sender_free n'' = false /\ sn_applied n'' < end_lsn b - 1.
Proof.
  intros Hq Hb Hrec Hsm Hl Hst He Hu Hlim.
  destruct (small_append_waits now ms n L m b r Hq Hb Hrec Hsm Hl Hst He Hu) as (res & n' & Hap & [Hs|(_ & _ & Hov)]); [|done].
  destruct Hs as (-> & H1 & H2 & H3 & _ & H4 & H5). exists n'. split; [exact Hap|]. intros n'' Hgo.
  assert (Hs : stuck (ch_next_ack (sn_channels n)) b n'') by (eapply stuck_for_ever; [|exact Hgo]; by split).
  destruct Hs as [_ _ S3 S4 S5]. split; [|done]. unfold append_wait. rewrite S4. pose proof (qu_pos _ _ _ Hq).
  destruct (Z.ltb_spec (sn_applied n'') (sat_sub (end_lsn b) 1)) as [|Hge]; [done|]. unfold sat_sub in Hge. lia.
Qed.

Definition small_record : WalRecord :=
  {| lsn := 1; op := WAL_OP_PAGE_PUT; page_id := 3; slot_id := 0; key := zrepeat 1 KEY_SIZE; value := zrepeat 2 VALUE_SIZE |}.
Definition small_batch : WalBatch := {| request_id := 0; start_lsn := 1; end_lsn := 2; records := [small_record] |}.

Lemma small_batch_readable : readable small_batch.
Proof.
  assert (Hk : zlen (key small_record) = 16) by (cbn [small_record key]; by rewrite zlen_zrepeat).
  assert (Hv : zlen (value small_record) = 1024) by (cbn [small_record value]; by rewrite zlen_zrepeat).
  split; [split; cbn [small_batch request_id start_lsn end_lsn records]; try (unfold U64, U32, zlen; cbn [length]; lia)|].
  - apply Forall_singleton. split; rewrite ?Hk, ?Hv; cbn [small_record lsn op page_id slot_id]; unfold U64, U32, U16, is_byte, WAL_OP_PAGE_PUT; lia.
  - rewrite zlen_encode_body. cbn [small_batch records WalCodec.encode_records]. rewrite app_nil_r, zlen_encode_record, Hk, Hv.
    unfold MAX_WAL_FRAME_LEN. lia.
Qed.

Lemma small_append_never_returns_witness :
  exists n', append_wal_batch_sync 0 0 small_batch new_node = (Spin, n') /\
    forall n'', rtc goes_on n' n'' -> append_wait 0 small_batch n'' = None /\ sender_free n'' = false /\ sn_applied n'' < 2 - 1.
Proof.
  refine (small_append_never_returns 0 0 new_node new_log (fun _ => None) small_batch small_record new_node_quiet small_batch_readable
    eq_refl _ eq_refl eq_refl eq_refl _ _).
  - split; [reflexivity|]. cbn [small_record key value]. rewrite !zlen_zrepeat by done. unfold KEY_SIZE, VALUE_SIZE. lia.
  - unfold U64. cbn. lia.
  - vm_compute. reflexivity.
Defined.

(** Truncation of the log is safe: it removes whole segments whose batches all end at
    or below the given LSN, never the last segment, keeps the others as they are, and leaves
    every call to come working. *)
Theorem truncation_keeps_later_batches {AL : Allocator} (d : WalDir) L (l : Z) :
  dir_log d L ->
  exists k d' L', truncate_wal_segments l d = (Ret k, d') /\ dir_log d' L' /\ wal_state d' = wal_state d /\
    truncated L L' (match last (segment_ids d) with Some i => [i] | None => [] end) l.
Proof. exact (truncate_cases d L l). Qed.

Lemma truncation_keeps_later_batches_witness :
  exists k d' L', truncate_wal_segments 2 (nf_dir logged_files) = (Ret k, d') /\ dir_log d' L' /\
    wal_state d' = wal_state (nf_dir logged_files) /\
    truncated logged L' (match last (segment_ids (nf_dir logged_files)) with Some i => [i] | None => [] end) 2.
Proof. exact (truncation_keeps_later_batches (nf_dir logged_files) logged 2 (fk_log _ _ logged_files_ok)). Defined.

End NodeProps.
