(* ===== verification/TxnKv.v ===== *)
(** * TxnKv: the transactional key-value store (src/src/txn_kv.rs and src/src/txn_kv/)

    [TxnError] and its classification, the records of the log and the snapshot file, the
    storage behind a manager (the trait [TxnStorage] as a type class, the local file and the
    quorum of files as its instances), and the manager with its transactions.

    [crc32fast::hash] is a parameter.  Files fail as in [PageStore]: each call to the
    operating system takes the next entry of a list of faults.  The clock and the order in
    which a [HashMap] is walked are arguments. *)

From stdpp Require Import base numbers list list_numbers gmap fin_maps sorting.
From S2P Require Import Prelude Common PageStore.

(** ** Errors (error.rs) *)

Inductive TxnError :=
| TIo (kind : ErrorKind)
| TInvalidKeySize (got expected : Z)
| TInvalidValueSize (got max : Z)
| WriteWriteConflict
| CorruptWal
| QuorumNotMet (required succeeded : Z)
| InvalidQuorum (quorum replicas : Z)
| TTxnTimeout.

#[global] Instance TxnError_eq_dec : EqDecision TxnError.
Proof. solve_decision. Defined.

Module TxnErrorM.

Definition category (e : TxnError) : ErrorCategory :=
  match e with
  | TInvalidKeySize _ _ | TInvalidValueSize _ _ | InvalidQuorum _ _ => CatInvalidInput
  | WriteWriteConflict => CatConflict
  | TTxnTimeout => CatTimeout
  | QuorumNotMet _ _ => CatUnavailable
  | CorruptWal => CatInternal
  | TIo k => kind_category k
  end.

Definition is_retryable (e : TxnError) : bool :=
  match category e with
  | CatTimeout | CatBackpressure | CatUnavailable | CatConflict => true
  | _ => false
  end.

End TxnErrorM.

Abbreviation Key := (list Z) (only parsing).

Record Version := mkVersion {
  v_commit_ts : Z;
  v_value : option Value
}.

Abbreviation versions := (gmap (list Z) (list Version)) (only parsing).
Abbreviation write := (list Z * option (list Z))%type (only parsing).

(** ** Log records and snapshots (codec.rs) *)

Module TxnCodec.

Abbreviation M := (outcome TxnError) (only parsing).

Definition WAL_MAGIC : Z := 1397446231.
Definition WAL_HEADER_LEN : Z := 12.
Definition SNAPSHOT_MAGIC : Z := 1397968464.
Definition SNAPSHOT_VERSION : Z := 1.

Fixpoint encode_ops (writes : list write) : M bytes :=
  match writes with
  | [] => Ret []
  | (key, value) :: writes =>
      match value with
      | Some v =>
          if VALUE_SIZE <? zlen v then Fail (TInvalidValueSize (zlen v) VALUE_SIZE) else
          rest ← encode_ops writes;
          Ret (key ++ [1] ++ le_bytes 4 (wrap32 (zlen v)) ++ v ++ rest)
      | None => rest ← encode_ops writes; Ret (key ++ [0] ++ rest)
      end
  end.

(** [writes] is the walk over the write set. *)
Definition encode_payload (commit_ts : Z) (writes : list write) : M bytes :=
  if U32 - 1 <? zlen writes then Fail CorruptWal else
  ops ← encode_ops writes;
  Ret (le_bytes 8 commit_ts ++ le_bytes 4 (wrap32 (zlen writes)) ++ ops).

Definition read_int (n : nat) (p : bytes) (cursor : Z) : M Z :=
  bs ← get_range p cursor (cursor + Z.of_nat n); Ret (le_val bs).

(** One operation: the operation and the cursor behind it. *)
Definition decode_op (payload : bytes) (cursor : Z) : M (write * Z) :=
  if zlen payload <? cursor + KEY_SIZE + 1 then Fail CorruptWal else
  key ← get_range payload cursor (cursor + KEY_SIZE);
  let cursor := cursor + KEY_SIZE in
  op ← get_at payload cursor;
  let cursor := cursor + 1 in
  if op =? 0 then Ret ((key, None), cursor) else
  if op =? 1 then
    if zlen payload <? cursor + 4 then Fail CorruptWal else
    len ← read_int 4 payload cursor;
    let cursor := cursor + 4 in
    if VALUE_SIZE <? len then Fail (TInvalidValueSize len VALUE_SIZE) else
    if zlen payload <? cursor + len then Fail CorruptWal else
    value ← get_range payload cursor (cursor + len);
    Ret ((key, Some value), cursor + len)
  else Fail CorruptWal.

Fixpoint decode_ops (num_ops : nat) (payload : bytes) (cursor : Z) : M (list write * Z) :=
  match num_ops with
  | O => Ret ([], cursor)
  | S num_ops =>
      '(w, cursor) ← decode_op payload cursor;
      '(ws, cursor) ← decode_ops num_ops payload cursor;
      Ret (w :: ws, cursor)
  end.

(** [size_of] a key with an optional value, on a 64-bit machine. *)
Definition WAL_OP_SIZE : Z := 40.

Definition decode_payload {AL : Allocator} (payload : bytes) : M (Z * list write) :=
  if zlen payload <? 12 then Fail CorruptWal else
  commit_ts ← read_int 8 payload 0;
  num_ops ← read_int 4 payload 8;
  _ ← with_capacity (zlen payload) num_ops WAL_OP_SIZE;
  '(ops, cursor) ← decode_ops (Z.to_nat num_ops) payload 12;
  if negb (cursor =? zlen payload) then Fail CorruptWal else
  Ret (commit_ts, ops).

(** [store.entry(key).or_default().push(..)]. *)
Definition push_version (commit_ts : Z) (store : versions) (w : write) : versions :=
  <[w.1 := default [] (store !! w.1) ++ [mkVersion commit_ts w.2]]> store.

Definition push_all (commit_ts : Z) (writes : list write) (store : versions) : versions :=
  foldl (push_version commit_ts) store writes.

(** [write_snapshot_file]: the live keys in order, with their last value. *)
Definition key_le (a b : Key * Value) : Prop := bytes_leb a.1 b.1 = true.
#[global] Instance key_le_dec a b : Decision (key_le a b) := _ : Decision (bytes_leb a.1 b.1 = true).

Definition live (kv : Key * list Version) : option (Key * Value) :=
  v ← last kv.2; value ← v_value v; Some (kv.1, value).

Definition snapshot_entries (store : versions) : list (Key * Value) :=
  merge_sort key_le (omap live (map_to_list store)).

Fixpoint encode_entries (entries : list (Key * Value)) : M bytes :=
  match entries with
  | [] => Ret []
  | (key, value) :: entries =>
      if VALUE_SIZE <? zlen value then Fail (TInvalidValueSize (zlen value) VALUE_SIZE) else
      rest ← encode_entries entries;
      Ret (key ++ le_bytes 4 (wrap32 (zlen value)) ++ value ++ rest)
  end.

Definition encode_snapshot (commit_ts : Z) (store : versions) : M bytes :=
  let entries := snapshot_entries store in
  if U32 - 1 <? zlen entries then Fail CorruptWal else
  body ← encode_entries entries;
  Ret (le_bytes 4 SNAPSHOT_MAGIC ++ le_bytes 4 SNAPSHOT_VERSION ++ le_bytes 8 commit_ts ++
       le_bytes 4 (wrap32 (zlen entries)) ++ body).

Fixpoint decode_entries (n : nat) (data : bytes) (commit_ts cursor : Z) (store : versions) : M (versions * Z) :=
  match n with
  | O => Ret (store, cursor)
  | S n =>
      if zlen data <? cursor + KEY_SIZE + 4 then Fail CorruptWal else
      key ← get_range data cursor (cursor + KEY_SIZE);
      let cursor := cursor + KEY_SIZE in
      len ← read_int 4 data cursor;
      let cursor := cursor + 4 in
      if VALUE_SIZE <? len then Fail (TInvalidValueSize len VALUE_SIZE) else
      if zlen data <? cursor + len then Fail CorruptWal else
      value ← get_range data cursor (cursor + len);
      decode_entries n data commit_ts (cursor + len) (push_version commit_ts store (key, Some value))
  end.

Definition decode_snapshot (data : bytes) : M (versions * Z) :=
  if zlen data <? 4 + 4 + 8 + 4 then Fail CorruptWal else
  magic ← read_int 4 data 0;
  if negb (magic =? SNAPSHOT_MAGIC) then Fail CorruptWal else
  version ← read_int 4 data 4;
  if negb (version =? SNAPSHOT_VERSION) then Fail CorruptWal else
  commit_ts ← read_int 8 data 8;
  num_entries ← read_int 4 data 16;
  '(store, cursor) ← decode_entries (Z.to_nat num_entries) data commit_ts 20 ∅;
  if negb (cursor =? zlen data) then Fail CorruptWal else
  Ret (store, commit_ts).

Section Hash.
Context (hash : bytes -> Z).

(** The record [commit] appends: magic, length, checksum, payload. *)
Definition wal_record (payload : bytes) : bytes :=
  le_bytes 4 WAL_MAGIC ++ le_bytes 4 (wrap32 (zlen payload)) ++ le_bytes 4 (hash payload) ++ payload.

(** The loop of [replay_wal_with_base]: the store, the largest timestamp, the length of the
    readable part.  Each turn moves [offset] on by at least a header. *)
Fixpoint replay_loop {AL : Allocator} (fuel : nat) (data : bytes) (base_ts offset : Z) (store : versions) (max_ts : Z) :
    M (versions * Z * Z) :=
  match fuel with
  | O => Spin
  | S fuel =>
      if zlen data <? offset + WAL_HEADER_LEN then Ret (store, max_ts, offset) else
      magic ← read_int 4 data offset;
      if negb (magic =? WAL_MAGIC) then Ret (store, max_ts, offset) else
      len ← read_int 4 data (offset + 4);
      crc ← read_int 4 data (offset + 8);
      let payload_start := offset + WAL_HEADER_LEN in
      let payload_end := payload_start + len in
      if zlen data <? payload_end then Ret (store, max_ts, offset) else
      payload ← get_range data payload_start payload_end;
      if negb (hash payload =? crc) then Ret (store, max_ts, offset) else
      match decode_payload payload with
      | Ret (commit_ts, ops) =>
          let store := if base_ts <? commit_ts then push_all commit_ts ops store else store in
          let max_ts := if (base_ts <? commit_ts) && (max_ts <? commit_ts) then commit_ts else max_ts in
          replay_loop fuel data base_ts payload_end store max_ts
      | Fail _ => Ret (store, max_ts, offset)
      | Panic => Panic
      | Spin => Spin
      end
  end.

Definition replay_wal_with_base {AL : Allocator} (data : bytes) (store : versions) (base_ts : Z) : M (versions * Z * Z) :=
  replay_loop (S (length data)) data base_ts 0 store base_ts.

End Hash.

End TxnCodec.

(** ** Storage (storage.rs) *)

(** [TxnStorage]: what a manager asks of its storage. *)
Class TxnStorage (S : Type) := {
  load_snapshot : st S TxnError (option (versions * Z));
  write_snapshot : Z -> versions -> st S TxnError unit;
  replay_wal : versions -> Z -> st S TxnError (versions * Z);
  append_wal_record : bytes -> st S TxnError unit;
  truncate_wal : st S TxnError unit
}.

(** A replica: its log and snapshot files, the failures to come, and the position of the
    open log file, when it is open. *)
Record Replica := mkReplica {
  r_wal : bytes;
  r_snapshot : option bytes;
  r_faults : list (option fault);
  r_pos : option Z
}.

Module LocalStorage.
Import TxnCodec.

Abbreviation L := (st Replica TxnError) (only parsing).

Definition sys : st Replica TxnError (option fault) := fun r =>
  match r_faults r with
  | [] => (Ret None, r)
  | f :: fs => (Ret f, mkReplica (r_wal r) (r_snapshot r) fs (r_pos r))
  end.

Definition sys_ok : L unit :=
  f ← sys; match f with Some f => throw (TIo (fault_kind f)) | None => mret tt end.

Definition set_wal (b : bytes) : L unit := modify (fun r => mkReplica b (r_snapshot r) (r_faults r) (r_pos r)).
Definition seek (p : Z) : L unit := modify (fun r => mkReplica (r_wal r) (r_snapshot r) (r_faults r) (Some p)).

(** Bytes written at a position of a file, behind its end after a hole of zeros. *)
Definition write_over (p : Z) (buf file : bytes) : bytes :=
  take (Z.to_nat p) (file ++ zrepeat 0 (p - zlen file)) ++ buf ++ drop (Z.to_nat (p + zlen buf)) file.

Definition position (r : Replica) : Z := default 0 (r_pos r).

Definition write_at_pos (buf : bytes) : L unit :=
  r ← gets id;
  _ ← set_wal (write_over (position r) buf (r_wal r));
  seek (position r + zlen buf).

Definition write_all (buf : bytes) : L unit :=
  f ← sys;
  match f with
  | Some f => _ ← write_at_pos (take (Z.to_nat (fault_written f)) buf); throw (TIo (fault_kind f))
  | None => write_at_pos buf
  end.

(** [LocalFileStorage::open]: the file is created when it is not there. *)
Definition open : L unit := _ ← sys_ok; seek 0.

Definition load_snapshot_file : L (option (versions * Z)) := fun r =>
  match sys_ok r with
  | (Ret _, r) =>
      match r_snapshot r with
      | None => (Ret None, r)
      | Some data => (_ ← sys_ok; _ ← sys_ok; s ← lift (decode_snapshot data); mret (Some s)) r
      end
  | (_, r) => (Ret None, r)
  end.

(** The temporary file is opened, written, synced and renamed; the failures of the sync of
    the directory are ignored. *)
Definition write_snapshot_file (commit_ts : Z) (store : versions) : L unit :=
  buf ← lift (encode_snapshot commit_ts store);
  _ ← sys_ok;
  _ ← sys_ok;
  _ ← sys_ok;
  _ ← sys_ok;
  _ ← modify (fun r => mkReplica (r_wal r) (Some buf) (r_faults r) (r_pos r));
  f ← sys;
  match f with Some _ => mret tt | None => _ ← sys; mret tt end.

Definition replay_file {AL : Allocator} (hash : bytes -> Z) (base_store : versions) (base_ts : Z) : L (versions * Z) :=
  _ ← sys_ok;
  _ ← sys_ok;
  data ← gets r_wal;
  '(store, max_ts, valid_len) ← lift (replay_wal_with_base hash data base_store base_ts);
  _ ← sys_ok;
  _ ← (if valid_len <? zlen data then _ ← sys_ok; set_wal (take (Z.to_nat valid_len) data) else mret tt);
  _ ← sys_ok;
  r ← gets id;
  _ ← seek (zlen (r_wal r));
  mret (store, max_ts).

Definition append_record (record : bytes) : L unit := _ ← write_all record; sys_ok.

Definition truncate_file : L unit :=
  _ ← sys_ok;
  _ ← set_wal [];
  _ ← sys_ok;
  _ ← seek 0;
  sys_ok.

(** [TxnStorage for LocalFileStorage]. *)
Definition local_storage {AL : Allocator} (hash : bytes -> Z) : TxnStorage Replica := {|
  load_snapshot := load_snapshot_file;
  write_snapshot := write_snapshot_file;
  replay_wal := replay_file hash;
  append_wal_record := append_record;
  truncate_wal := truncate_file
|}.

End LocalStorage.

Inductive QuorumOp :=
| OpAppend (record : bytes)
| OpSnapshot (commit_ts : Z) (store : versions)
| OpTruncate.

Record RepairTask := {
  replica_index : nat;
  repair_op : QuorumOp;
  attempt : Z
}.

(** [in_flight] are the tasks spawned by a write that had its quorum before they ran. *)
Record QuorumStorage := mkQuorum {
  replicas : list Replica;
  quorum : Z;
  repairs : list RepairTask;
  in_flight : list (nat * QuorumOp)
}.

Module QuorumM.
Import LocalStorage.

Abbreviation Q := (st QuorumStorage TxnError) (only parsing).

Definition apply (op : QuorumOp) : st Replica TxnError unit :=
  match op with
  | OpAppend record => append_record record
  | OpSnapshot commit_ts store => write_snapshot_file commit_ts store
  | OpTruncate => truncate_file
  end.

Definition close (r : Replica) : Replica := mkReplica (r_wal r) (r_snapshot r) (r_faults r) None.

(** [rs] are the files found under the paths; a replica is opened when it is used first. *)
Definition open (rs : list Replica) (quorum : Z) : outcome TxnError QuorumStorage :=
  if (quorum <? 1) || (zlen rs <? quorum) then Fail (InvalidQuorum quorum (zlen rs)) else
  Ret (mkQuorum (close <$> rs) quorum [] []).

(** [with_replica]: the replica is opened when it is used first. *)
Definition with_replica : st Replica TxnError unit :=
  r ← gets r_pos;
  match r with
  | Some _ => mret tt
  | None => _ ← sys_ok; LocalStorage.open
  end.

Definition on_replica {A} (index : nat) (m : st Replica TxnError A) : Q A := fun q =>
  match replicas q !! index with
  | Some r => let '(a, r) := m r in (a, mkQuorum (<[index := r]> (replicas q)) (quorum q) (repairs q) (in_flight q))
  | None => (Panic, q)
  end.

(** The task spawned for each replica; an error is handed to the repair worker. *)
Definition write_replica (op : QuorumOp) (index : nat) (q : QuorumStorage) : outcome TxnError unit * QuorumStorage :=
  let '(r, q) := on_replica index (_ ← with_replica; apply op) q in
  (r, match r with
      | Fail _ =>
          mkQuorum (replicas q) (quorum q)
            (repairs q ++ [{| replica_index := index; repair_op := op; attempt := 1 |}]) (in_flight q)
      | _ => q
      end).

(** The loop over the results as they come in: the tasks that have not run when the quorum
    is reached stay in flight. *)
Fixpoint count_results (op : QuorumOp) (order : list nat) (successes : Z) (last_err : option TxnError) : Q unit := fun q =>
  match order with
  | [] => (Fail (default (QuorumNotMet (quorum q) successes) last_err), q)
  | index :: order =>
      let '(r, q) := write_replica op index q in
      match r with
      | Ret _ =>
          if quorum q <=? successes + 1 then
            (Ret tt, mkQuorum (replicas q) (quorum q) (repairs q) (in_flight q ++ ((fun i => (i, op)) <$> order)))
          else count_results op order (successes + 1) last_err q
      | Fail e => count_results op order successes (Some e) q
      | _ => count_results op order successes last_err q
      end
  end.

(** [quorum_write]; [order] is the order in which the tasks of the replicas run. *)
Definition quorum_write (order : list nat) (op : QuorumOp) : Q unit := count_results op order 0 None.

(** One of the tasks in flight runs. *)
Definition late_turn (k : nat) (q : QuorumStorage) : QuorumStorage :=
  match in_flight q !! k with
  | Some (index, op) =>
      (write_replica op index (mkQuorum (replicas q) (quorum q) (repairs q) (base.delete k (in_flight q)))).2
  | None => q
  end.

Definition replace_best (best : option (versions * Z)) (v : versions * Z) : option (versions * Z) :=
  match best with
  | Some (_, best_ts) => if best_ts <? v.2 then Some v else best
  | None => Some v
  end.

Fixpoint load_best (indices : list nat) (best : option (versions * Z)) (saw_ok : bool) (last_err : option TxnError) :
    Q (option (versions * Z)) := fun q =>
  match indices with
  | [] =>
      (if bool_decide (is_Some best) then Ret best else
       if saw_ok then Ret None else Fail (default (QuorumNotMet (quorum q) 0) last_err), q)
  | index :: indices =>
      match on_replica index (_ ← with_replica; load_snapshot_file) q with
      | (Ret None, q) => load_best indices best true last_err q
      | (Ret (Some v), q) => load_best indices (replace_best best v) true last_err q
      | (Fail e, q) => load_best indices best saw_ok (Some e) q
      | (Panic, q) => (Panic, q)
      | (Spin, q) => (Spin, q)
      end
  end.

Definition load_snapshot_quorum : Q (option (versions * Z)) := fun q =>
  load_best (seq 0 (length (replicas q))) None false None q.

Section Hash.
Context (hash : bytes -> Z).

(** The snapshot and the log of one replica: [inl] is the error that [?] returns at once. *)
Definition replay_replica {AL : Allocator} : st Replica TxnError (TxnError + (versions * Z)) := fun r =>
  match load_snapshot_file r with
  | (Ret s, r) =>
      let '(base_store, base_ts) := default (∅, 0) s in
      let '(a, r) := replay_file hash base_store base_ts r in (inr <$> a, r)
  | (Fail e, r) => (Ret (inl e), r)
  | (Panic, r) => (Panic, r)
  | (Spin, r) => (Spin, r)
  end.

Fixpoint replay_best {AL : Allocator} (indices : list nat) (best : option (versions * Z)) (last_err : option TxnError) :
    Q (versions * Z) := fun q =>
  match indices with
  | [] => (match best with Some v => Ret v | None => Fail (default (QuorumNotMet (quorum q) 0) last_err) end, q)
  | index :: indices =>
      match on_replica index (_ ← with_replica; replay_replica) q with
      | (Ret (inl e), q) => (Fail e, q)
      | (Ret (inr v), q) => replay_best indices (replace_best best v) last_err q
      | (Fail e, q) => replay_best indices best (Some e) q
      | (Panic, q) => (Panic, q)
      | (Spin, q) => (Spin, q)
      end
  end.

Definition replay_quorum {AL : Allocator} (base_store : versions) (base_ts : Z) : Q (versions * Z) := fun q =>
  replay_best (seq 0 (length (replicas q))) None None q.

(** [TxnStorage for QuorumStorage]. *)
Definition quorum_storage {AL : Allocator} (order : list nat) : TxnStorage QuorumStorage := {|
  load_snapshot := load_snapshot_quorum;
  write_snapshot := fun commit_ts store => quorum_write order (OpSnapshot commit_ts store);
  replay_wal := replay_quorum;
  append_wal_record := fun record => quorum_write order (OpAppend record);
  truncate_wal := quorum_write order OpTruncate
|}.

End Hash.

Definition REPAIR_MAX_ATTEMPTS : Z := 5.

(** The retries of [repair_worker] for the task at the head of its queue: at most
    [REPAIR_MAX_ATTEMPTS], counting from the task's own. *)
Fixpoint repair_attempts (tries : nat) (task : RepairTask) (q : QuorumStorage) : QuorumStorage :=
  match tries with
  | O => q
  | S tries =>
      let '(r, q) := on_replica (replica_index task) (_ ← with_replica; apply (repair_op task)) q in
      match r with Ret _ => q | _ =>
      if REPAIR_MAX_ATTEMPTS <=? attempt task then q else
      repair_attempts tries {| replica_index := replica_index task; repair_op := repair_op task; attempt := attempt task + 1 |} q
      end
  end.

Definition repair_turn (q : QuorumStorage) : QuorumStorage :=
  match repairs q with
  | [] => q
  | task :: rest =>
      repair_attempts (Z.to_nat REPAIR_MAX_ATTEMPTS) task (mkQuorum (replicas q) (quorum q) rest (in_flight q))
  end.

End QuorumM.

(** ** The manager (manager.rs) *)

Record TxnManager (S : Type) := mkManager {
  tm_store : versions;
  tm_commit_ts : Z;
  tm_storage : S
}.
Arguments mkManager {S}.
Arguments tm_store {S}.
Arguments tm_commit_ts {S}.
Arguments tm_storage {S}.

Record Txn := {
  tx_read_ts : Z;
  tx_started_at : Z;
  tx_timeout : option Z;
  tx_writes : gmap (list Z) (option (list Z));
  tx_read_only : bool
}.

Module TxnM.
Import TxnCodec.

Definition parse_key (key : bytes) : outcome TxnError Key :=
  if negb (zlen key =? KEY_SIZE) then Fail (TInvalidKeySize (zlen key) KEY_SIZE) else Ret key.

(** [rfind] from the back of a version list. *)
Fixpoint rfind_version (vs : list Version) (read_ts : Z) : option Version :=
  match vs with
  | [] => None
  | v :: vs =>
      match rfind_version vs read_ts with
      | Some v => Some v
      | None => if v_commit_ts v <=? read_ts then Some v else None
      end
  end.

Definition read_at_ts (store : versions) (key : Key) (read_ts : Z) : option Value :=
  vs ← store !! key; v ← rfind_version vs read_ts; v_value v.

Definition ensure_not_timed_out (now : Z) (tx : Txn) : outcome TxnError unit :=
  match tx_timeout tx with
  | Some timeout => if timeout <? now - tx_started_at tx then Fail TTxnTimeout else Ret tt
  | None => Ret tt
  end.

Definition get (now : Z) (tx : Txn) (store : versions) (key : bytes) : outcome TxnError (option Value) :=
  _ ← ensure_not_timed_out now tx;
  key ← parse_key key;
  match tx_writes tx !! key with
  | Some entry => Ret entry
  | None => Ret (read_at_ts store key (tx_read_ts tx))
  end.

Definition set_write (key : Key) (v : option Value) (tx : Txn) : Txn := {|
  tx_read_ts := tx_read_ts tx; tx_started_at := tx_started_at tx; tx_timeout := tx_timeout tx;
  tx_writes := <[key := v]> (tx_writes tx); tx_read_only := tx_read_only tx |}.

Definition put (now : Z) (key value : bytes) (tx : Txn) : outcome TxnError Txn :=
  _ ← ensure_not_timed_out now tx;
  key ← parse_key key;
  if VALUE_SIZE <? zlen value then Fail (TInvalidValueSize (zlen value) VALUE_SIZE) else
  Ret (set_write key (Some value) tx).

Definition delete (now : Z) (key : bytes) (tx : Txn) : outcome TxnError Txn :=
  _ ← ensure_not_timed_out now tx;
  key ← parse_key key;
  Ret (set_write key None tx).

(** The rows of the store between two keys at the snapshot, the write set laid over them,
    in key order.  [BTreeMap::range] panics when the bounds are the wrong way round. *)
Definition in_range (start end_ key : Key) : bool := bytes_leb start key && bytes_ltb key end_.

Definition visible (store : versions) (read_ts : Z) (start end_ : Key) : gmap (list Z) (list Z) :=
  map_imap (fun key vs => if in_range start end_ key then v ← rfind_version vs read_ts; v_value v else None) store.

Definition overlay (start end_ : Key) (writes : gmap (list Z) (option (list Z))) (rows : gmap (list Z) (list Z)) :
    gmap (list Z) (list Z) :=
  merge (fun w row => match w with Some w => w | None => row end)
    (filter (fun kv => in_range start end_ kv.1 = true) writes) rows.

Definition scan (now : Z) (tx : Txn) (store : versions) (start end_ : bytes) (limit : Z) :
    outcome TxnError (list (Key * Value)) :=
  _ ← ensure_not_timed_out now tx;
  if limit =? 0 then Ret [] else
  start ← parse_key start;
  end_ ← parse_key end_;
  if bytes_eqb start end_ then Ret [] else
  if bytes_ltb end_ start then Panic else
  Ret (take (Z.to_nat limit)
    (merge_sort key_le (map_to_list (overlay start end_ (tx_writes tx) (visible store (tx_read_ts tx) start end_))))).

(** Is there a newer version of a key of the write set? *)
Definition conflicts (store : versions) (read_ts : Z) (key : Key) : bool :=
  match v ← store !! key; last v with
  | Some v => read_ts <? v_commit_ts v
  | None => false
  end.

Section Manager.
Context {S : Type} {TS : TxnStorage S} (hash : bytes -> Z).

Abbreviation T := (st (TxnManager S) TxnError) (only parsing).

Definition on_storage {A} (m : st S TxnError A) : T A := fun tm =>
  let '(a, s) := m (tm_storage tm) in (a, mkManager (tm_store tm) (tm_commit_ts tm) s).

Definition open_with_storage (s : S) : outcome TxnError (TxnManager S) :=
  let '(snapshot, s) := load_snapshot s in
  snapshot ← snapshot;
  let '(base_store, base_ts) := default (∅, 0) snapshot in
  let '(r, s) := replay_wal base_store base_ts s in
  '(store, max_ts) ← r;
  Ret (mkManager store max_ts s).

Definition checkpoint : T unit :=
  tm ← gets id;
  _ ← on_storage (write_snapshot (tm_commit_ts tm) (tm_store tm));
  on_storage truncate_wal.

Definition begin_tx (now : Z) (read_only : bool) (timeout : option Z) (tm : TxnManager S) : Txn := {|
  tx_read_ts := tm_commit_ts tm; tx_started_at := now; tx_timeout := timeout; tx_writes := ∅; tx_read_only := read_only |}.

Definition begin_ro_timeout (now timeout : Z) (tm : TxnManager S) : Txn := begin_tx now true (Some timeout) tm.
Definition begin_rw_timeout (now timeout : Z) (tm : TxnManager S) : Txn := begin_tx now false (Some timeout) tm.

(** [commit] under the commit lock, up to the append; [walk] is the walk over the write set. *)
Definition commit_begin (tx : Txn) (walk : list write) : T (Z * bytes) :=
  tm ← gets id;
  if existsb (fun w => conflicts (tm_store tm) (tx_read_ts tx) w.1) walk then throw WriteWriteConflict else
  let commit_ts := wrap64 (tm_commit_ts tm + 1) in
  _ ← modify (fun tm => mkManager (tm_store tm) commit_ts (tm_storage tm));
  payload ← lift (encode_payload commit_ts walk);
  mret (commit_ts, wal_record hash payload).

(** The versions reach the store when the record is in the log. *)
Definition commit_end (commit_ts : Z) (walk : list write) : T unit :=
  modify (fun tm => mkManager (push_all commit_ts walk (tm_store tm)) (tm_commit_ts tm) (tm_storage tm)).

Definition commit (now : Z) (tx : Txn) (walk : list write) : T Z :=
  _ ← lift (ensure_not_timed_out now tx);
  if tx_read_only tx || bool_decide (tx_writes tx = ∅) then mret (tx_read_ts tx) else
  '(commit_ts, record) ← commit_begin tx walk;
  _ ← on_storage (append_wal_record record);
  _ ← commit_end commit_ts walk;
  mret commit_ts.

End Manager.

Definition open_quorum {AL : Allocator} (hash : bytes -> Z) (order : list nat) (rs : list Replica) (quorum : Z) :
    outcome TxnError (TxnManager QuorumStorage) :=
  q ← QuorumM.open rs quorum;
  open_with_storage (TS := QuorumM.quorum_storage hash order) q.

End TxnM.
