(* ===== verification/TxnKvSpec.v ===== *)
(** * TxnKvSpec: the log of the transactional store, and what its storage promises

    The log is the concatenation of the records of its commits ([log_bytes]); replaying it
    redoes them in order ([redo]).  [TxnStorageLaws] states what a manager relies on from
    its storage; the local file and the quorum of files, without faults, satisfy it. *)

From stdpp Require Import base numbers list list_numbers gmap fin_maps sorting.
From S2P Require Import Prelude Common PageStore TxnKv.

Module TxnKvSpec.
Import TxnCodec LocalStorage QuorumM TxnM.

(** ** Records *)

Definition write_ok (w : list Z * option (list Z)) : Prop :=
  zlen w.1 = KEY_SIZE /\ from_option (fun v => zlen v <= VALUE_SIZE) True w.2.

Definition op_bytes (w : list Z * option (list Z)) : bytes :=
  w.1 ++ match w.2 with Some v => [1] ++ le_bytes 4 (zlen v) ++ v | None => [0] end.

Definition ops_bytes (ws : list (list Z * option (list Z))) : bytes := concat (op_bytes <$> ws).

Definition payload_bytes (c : Z * list (list Z * option (list Z))) : bytes :=
  le_bytes 8 c.1 ++ le_bytes 4 (zlen c.2) ++ ops_bytes c.2.

Abbreviation commit_t := (Z * list (list Z * option (list Z)))%type (only parsing).

(** A commit the log can hold: an operation takes at most [16 + 1 + 4 + 1024] bytes. *)
Definition MAX_OP : Z := 1045.

Definition commit_ok (c : commit_t) : Prop :=
  0 <= c.1 < U64 /\ Forall write_ok c.2 /\ 12 + MAX_OP * zlen c.2 < U32.

(** Lengths of concatenations. *)
Ltac bl := rewrite ?zlen_app, ?zlen_le_bytes, ?zlen_cons; pose proof (@zlen_nil Z); unfold KEY_SIZE in *; lia.

Lemma get_range_mid {E A} (pre bs suf : list A) a b :
  a = zlen pre -> b = zlen pre + zlen bs -> get_range (E:=E) (pre ++ bs ++ suf) a b = Ret bs.
Proof.
  intros -> ->. assert (0 <= zlen pre) by apply zlen_nonneg. assert (0 <= zlen bs) by apply zlen_nonneg.
  assert (0 <= zlen suf) by apply zlen_nonneg.
  rewrite get_range_ok by bl.
  rewrite sub_app_r, Z.sub_diag, sub_app_l, sub_all by lia. done.
Qed.

Lemma read_int_mid n (pre suf : bytes) v a :
  a = zlen pre -> 0 <= v < 256 ^ Z.of_nat n -> read_int n (pre ++ le_bytes n v ++ suf) a = Ret v.
Proof.
  intros -> Hv. unfold read_int. rewrite (get_range_mid pre (le_bytes n v) suf) by (rewrite ?zlen_le_bytes; lia).
  obind. by rewrite le_val_bytes_small.
Qed.

Lemma read_int_head n (suf : bytes) v : 0 <= v < 256 ^ Z.of_nat n -> read_int n (le_bytes n v ++ suf) 0 = Ret v.
Proof. exact (read_int_mid n [] suf v 0 eq_refl). Qed.

Lemma op_bytes_len w : write_ok w -> 17 <= zlen (op_bytes w) <= MAX_OP.
Proof.
  destruct w as [k [v|]]; intros [Hk Hv]; cbn in *; unfold op_bytes, KEY_SIZE, VALUE_SIZE, MAX_OP in *;
    cbn [fst snd]; rewrite !zlen_app, ?zlen_le_bytes, ?zlen_cons, ?zlen_nil; pose proof (zlen_nonneg k);
    try pose proof (zlen_nonneg v); lia.
Qed.

Lemma ops_bytes_len ws : Forall write_ok ws -> 17 * zlen ws <= zlen (ops_bytes ws) <= MAX_OP * zlen ws.
Proof.
  induction 1 as [|w ws Hw _ IH]; [unfold ops_bytes, zlen; cbn; lia|].
  unfold ops_bytes in *. cbn [fmap list_fmap concat]. rewrite zlen_app, zlen_cons.
  pose proof (op_bytes_len w Hw). unfold MAX_OP in *. lia.
Qed.

(** A commit whose record the reader accepts. *)
Definition readable (c : commit_t) : Prop :=
  0 <= c.1 < U64 /\ Forall write_ok c.2 /\ zlen (payload_bytes c) < U32.

Lemma zlen_payload c : zlen (payload_bytes c) = 12 + zlen (ops_bytes c.2).
Proof. unfold payload_bytes. rewrite !zlen_app, !zlen_le_bytes. lia. Qed.

Lemma payload_len c : readable c -> 12 <= zlen (payload_bytes c) < U32.
Proof. intros (_ & _ & Hn). pose proof (zlen_payload c). pose proof (zlen_nonneg (ops_bytes c.2)). lia. Qed.

Lemma commit_readable c : commit_ok c -> readable c.
Proof. intros (Ht & Hw & Hn). split_and!; [lia..|done|]. pose proof (ops_bytes_len _ Hw). rewrite zlen_payload. lia. Qed.

Lemma encode_ops_ok ws : Forall write_ok ws -> encode_ops ws = Ret (ops_bytes ws).
Proof.
  induction 1 as [|[k [v|]] ws [Hk Hv] _ IH]; [done| |]; cbn in Hv; cbn [encode_ops].
  - rewrite (proj2 (Z.ltb_ge _ _)) by done. rewrite IH. obind. unfold ops_bytes, op_bytes. cbn [fmap list_fmap concat fst snd].
    unfold wrap32. rewrite Z.mod_small by (pose proof (zlen_nonneg v); unfold VALUE_SIZE, U32 in *; lia).
    by rewrite <-!app_assoc.
  - rewrite IH. obind. unfold ops_bytes, op_bytes. cbn [fmap list_fmap concat fst snd]. by rewrite <-!app_assoc.
Qed.

Lemma encode_payload_ok c : commit_ok c -> encode_payload c.1 c.2 = Ret (payload_bytes c).
Proof.
  intros (_ & Hw & Hn). unfold encode_payload, MAX_OP in *. pose proof (zlen_nonneg c.2).
  rewrite (proj2 (Z.ltb_ge _ _)) by lia. rewrite encode_ops_ok by done. obind.
  unfold wrap32. by rewrite Z.mod_small by lia.
Qed.

Lemma decode_op_ok (pre suf : bytes) w :
  write_ok w -> decode_op (pre ++ op_bytes w ++ suf) (zlen pre) = Ret (w, zlen pre + zlen (op_bytes w)).
Proof.
  destruct w as [k o]; intros [Hk Hv]. cbn in Hk, Hv. unfold decode_op, op_bytes. cbn [fst snd].
  pose proof (zlen_nonneg pre). pose proof (zlen_nonneg suf). pose proof Hk as Hk'. unfold KEY_SIZE in Hk'.
  destruct o as [v|]; cbn in Hv.
  - pose proof (zlen_nonneg v). unfold VALUE_SIZE in *.
    rewrite (proj2 (Z.ltb_ge _ _)) by bl.
    rewrite <-!app_assoc. rewrite (get_range_mid pre k) by lia. obind.
    rewrite (app_assoc pre k). rewrite get_at_ok by bl.
    obind. assert (at0 (zlen pre + KEY_SIZE) ((pre ++ k) ++ [1] ++ le_bytes 4 (zlen v) ++ v ++ suf) = 1) as ->.
    { unfold at0. rewrite lookup_app_r by (unfold zlen, KEY_SIZE in *; rewrite length_app; lia).
      replace (_ - _)%nat with 0%nat by (unfold zlen, KEY_SIZE in *; rewrite length_app; lia). done. }
    cbn [Z.eqb Pos.eqb]. rewrite (proj2 (Z.ltb_ge _ _)) by bl.
    rewrite (app_assoc _ [1]). rewrite read_int_mid by bl.
    obind. rewrite (proj2 (Z.ltb_ge _ _)) by lia.
    rewrite (proj2 (Z.ltb_ge _ _)) by bl.
    rewrite (app_assoc _ (le_bytes 4 _)).
    rewrite get_range_mid by bl. obind.
    do 2 f_equal. bl.
  - rewrite (proj2 (Z.ltb_ge _ _)) by bl.
    rewrite <-!app_assoc. rewrite (get_range_mid pre k) by lia. obind.
    rewrite (app_assoc pre k). rewrite get_at_ok by bl.
    obind. assert (at0 (zlen pre + KEY_SIZE) ((pre ++ k) ++ [0] ++ suf) = 0) as ->.
    { unfold at0. rewrite lookup_app_r by (unfold zlen, KEY_SIZE in *; rewrite length_app; lia).
      replace (_ - _)%nat with 0%nat by (unfold zlen, KEY_SIZE in *; rewrite length_app; lia). done. }
    cbn [Z.eqb]. do 2 f_equal. bl.
Qed.

Lemma decode_ops_ok ws (pre suf : bytes) :
  Forall write_ok ws ->
  decode_ops (length ws) (pre ++ ops_bytes ws ++ suf) (zlen pre) = Ret (ws, zlen pre + zlen (ops_bytes ws)).
Proof.
  intros Hw. revert pre. induction Hw as [|w ws Hw _ IH]; intros pre; cbn [length decode_ops].
  - do 2 f_equal. unfold ops_bytes, zlen. cbn. lia.
  - unfold ops_bytes in *. cbn [fmap list_fmap concat]. rewrite <-app_assoc, decode_op_ok by done. obind.
    rewrite <-zlen_app, app_assoc, IH. obind. do 2 f_equal. bl.
Qed.

Lemma decode_payload_ok {AL : Allocator} c : readable c -> decode_payload (payload_bytes c) = Ret c.
Proof.
  intros Hc. pose proof (payload_len c Hc). destruct Hc as (Hts & Hw & Hn). unfold decode_payload.
  rewrite (proj2 (Z.ltb_ge _ _)) by lia. pose proof (zlen_nonneg c.2). pose proof (zlen_payload c) as Hpl. pose proof (ops_bytes_len _ Hw).
  assert (read_int 8 (payload_bytes c) 0 = Ret c.1) as -> by (apply read_int_head; done). obind.
  assert (read_int 4 (payload_bytes c) 8 = Ret (zlen c.2)) as ->
    by (apply (read_int_mid 4 (le_bytes 8 c.1)); rewrite ?zlen_le_bytes; unfold U32 in *; lia). obind.
  unfold with_capacity. rewrite fits_scaled by (unfold WAL_OP_SIZE, ISIZE_MAX, U32 in *; lia). obind.
  replace (Z.to_nat (zlen c.2)) with (length c.2) by (unfold zlen; lia).
  assert (decode_ops (length c.2) (payload_bytes c) 12 = Ret (c.2, zlen (payload_bytes c))) as ->.
  { pose proof (decode_ops_ok c.2 (le_bytes 8 c.1 ++ le_bytes 4 (zlen c.2)) [] Hw) as Hd.
    rewrite app_nil_r, <-app_assoc, <-zlen_app, <-app_assoc, zlen_app, !zlen_le_bytes in Hd. exact Hd. }
  obind. rewrite Z.eqb_refl. by destruct c.
Qed.

(** ** The log *)

Section Log.
Context (hash : bytes -> Z) (hash_u32 : forall p, 0 <= hash p < U32).

Definition record_bytes (c : commit_t) : bytes := wal_record hash (payload_bytes c).
Definition log_bytes (cs : list commit_t) : bytes := concat (record_bytes <$> cs).

(** One commit redone: those the base covers are skipped. *)
Definition redo1 (base_ts : Z) (s : versions * Z) (c : commit_t) : versions * Z :=
  (if base_ts <? c.1 then push_all c.1 c.2 s.1 else s.1,
   if (base_ts <? c.1) && (s.2 <? c.1) then c.1 else s.2).

Definition redo (base_ts : Z) (cs : list commit_t) (s : versions * Z) : versions * Z := foldl (redo1 base_ts) s cs.

Lemma record_split c :
  readable c ->
  record_bytes c = le_bytes 4 WAL_MAGIC ++ le_bytes 4 (zlen (payload_bytes c)) ++ le_bytes 4 (hash (payload_bytes c)) ++ payload_bytes c.
Proof.
  intros Hc. pose proof (payload_len c Hc). unfold record_bytes, wal_record, wrap32. by rewrite Z.mod_small by lia.
Qed.

Lemma record_len c : readable c -> zlen (record_bytes c) = 12 + zlen (payload_bytes c).
Proof. intros. rewrite record_split by done. bl. Qed.

Lemma log_bytes_cons c cs : log_bytes (c :: cs) = record_bytes c ++ log_bytes cs.
Proof. done. Qed.

Lemma log_bytes_app cs ds : log_bytes (cs ++ ds) = log_bytes cs ++ log_bytes ds.
Proof. unfold log_bytes. by rewrite fmap_app, concat_app. Qed.

(** The fields of a header in the middle of a file. *)
Lemma header_fields (pre rest : bytes) len crc :
  0 <= len < U32 -> 0 <= crc < U32 ->
  let data := pre ++ le_bytes 4 WAL_MAGIC ++ le_bytes 4 len ++ le_bytes 4 crc ++ rest in
  read_int 4 data (zlen pre) = Ret WAL_MAGIC /\ read_int 4 data (zlen pre + 4) = Ret len /\
  read_int 4 data (zlen pre + 8) = Ret crc.
Proof.
  intros Hl Hc data. unfold data. split; [apply read_int_mid; [done|unfold WAL_MAGIC; done]|]. split.
  - rewrite (app_assoc pre). apply read_int_mid; [bl|exact Hl].
  - rewrite (app_assoc pre), (app_assoc (pre ++ _)). apply read_int_mid; [bl|exact Hc].
Qed.

(** The bytes of a record with some checksum. *)
Definition framed (crc : Z) (payload : bytes) : bytes := le_bytes 4 WAL_MAGIC ++ le_bytes 4 (zlen payload) ++ le_bytes 4 crc ++ payload.

(** One turn of the reader at such bytes. *)
Lemma replay_loop_framed {AL : Allocator} fuel pre suf base crc payload st ts :
  zlen payload < U32 -> 0 <= crc < U32 ->
  replay_loop hash (S fuel) (pre ++ framed crc payload ++ suf) base (zlen pre) st ts =
  if negb (hash payload =? crc) then Ret (st, ts, zlen pre) else
  match decode_payload payload with
  | Ret c => replay_loop hash fuel (pre ++ framed crc payload ++ suf) base (zlen (pre ++ framed crc payload))
      (redo1 base (st, ts) c).1 (redo1 base (st, ts) c).2
  | Fail _ => Ret (st, ts, zlen pre)
  | Panic => Panic
  | Spin => Spin
  end.
Proof.
  intros Hlen Hcrc. pose proof (zlen_nonneg payload). pose proof (zlen_nonneg pre). pose proof (zlen_nonneg suf).
  assert (Hfl : zlen (framed crc payload) = 12 + zlen payload) by (unfold framed; bl).
  rewrite (zlen_app pre (framed crc payload)), Hfl. cbn [replay_loop]. unfold WAL_HEADER_LEN.
  rewrite (proj2 (Z.ltb_ge _ _)) by (rewrite !zlen_app, Hfl; lia). unfold framed. rewrite <-!app_assoc.
  destruct (header_fields pre (payload ++ suf) (zlen payload) crc) as (-> & -> & ->); [lia..|].
  obind. rewrite Z.eqb_refl. cbn [negb]. rewrite (proj2 (Z.ltb_ge _ _)) by bl.
  rewrite (app_assoc pre), (app_assoc (pre ++ _)), (app_assoc ((pre ++ _) ++ _)), get_range_mid by bl. obind.
  destruct (hash payload =? crc); [|done]. cbn [negb]. destruct (decode_payload payload) as [[cts ws]|e| |]; try done.
  unfold redo1. cbn [fst snd]. f_equal. lia.
Qed.

Lemma replay_loop_record {AL : Allocator} fuel pre suf base c s :
  readable c ->
  replay_loop hash (S fuel) (pre ++ record_bytes c ++ suf) base (zlen pre) s.1 s.2 =
  replay_loop hash fuel ((pre ++ record_bytes c) ++ suf) base (zlen (pre ++ record_bytes c))
    (redo1 base s c).1 (redo1 base s c).2.
Proof using hash_u32.
  intros Hc. pose proof (payload_len c Hc) as Hlen. rewrite record_split by done. fold (framed (hash (payload_bytes c)) (payload_bytes c)).
  rewrite replay_loop_framed by (lia || apply hash_u32). rewrite Z.eqb_refl. cbn [negb].
  rewrite decode_payload_ok by done. rewrite <-app_assoc. by destruct s.
Qed.

(** What a crash leaves of a record does not read as one. *)
Lemma replay_loop_torn {AL : Allocator} fuel pre base c n store ts :
  commit_ok c -> (n < length (record_bytes c))%nat ->
  replay_loop hash (S fuel) (pre ++ take n (record_bytes c)) base (zlen pre) store ts = Ret (store, ts, zlen pre).
Proof using hash_u32.
  intros Hc%commit_readable Hn. pose proof (payload_len c Hc) as Hlen. pose proof (hash_u32 (payload_bytes c)) as Hh.
  pose proof (record_len c Hc) as Hrl. pose proof (zlen_nonneg pre). cbn [replay_loop]. unfold WAL_HEADER_LEN.
  assert (Htl : zlen (take n (record_bytes c)) = Z.of_nat n) by (unfold zlen; rewrite length_take; lia).
  case_match eqn:Hlt; [done|]. apply Z.ltb_ge in Hlt. rewrite zlen_app in Hlt.
  rewrite record_split in * by done.
  assert (Htake : take n (le_bytes 4 WAL_MAGIC ++ le_bytes 4 (zlen (payload_bytes c)) ++
      le_bytes 4 (hash (payload_bytes c)) ++ payload_bytes c) =
    le_bytes 4 WAL_MAGIC ++ le_bytes 4 (zlen (payload_bytes c)) ++
      le_bytes 4 (hash (payload_bytes c)) ++ take (n - 12) (payload_bytes c)).
  { assert (forall m v, length (le_bytes m v) = m) as Hl
      by (intros m v; pose proof (zlen_le_bytes m v); unfold zlen in *; lia).
    rewrite !take_app, !Hl, !(take_ge (le_bytes 4 _)) by (rewrite Hl; lia). do 4 f_equal. lia. }
  rewrite Htake in *. clear Htake.
  destruct (header_fields pre (take (n - 12) (payload_bytes c)) (zlen (payload_bytes c)) (hash (payload_bytes c)))
    as (-> & -> & ->); [lia..|]. obind. rewrite Z.eqb_refl. cbn [negb].
  rewrite (proj2 (Z.ltb_lt _ _)); [done|].
  revert Htl. rewrite !zlen_app, !zlen_le_bytes. unfold zlen in *. rewrite length_take. rewrite !length_app in Hn, Hrl.
  lia.
Qed.

(** Bytes at which the reader stops. *)
Definition stops {AL : Allocator} (tail : bytes) : Prop := forall base fuel pre st ts,
  replay_loop hash (S fuel) (pre ++ tail) base (zlen pre) st ts = Ret (st, ts, zlen pre).

Lemma torn_stops {AL : Allocator} c n : commit_ok c -> (n < length (record_bytes c))%nat -> stops (take n (record_bytes c)).
Proof using hash_u32. intros Hc Hn base fuel pre st ts. by apply replay_loop_torn. Qed.

Lemma nil_stops {AL : Allocator} : stops [].
Proof.
  intros base fuel pre st ts. cbn [replay_loop]. rewrite app_nil_r. by rewrite (proj2 (Z.ltb_lt _ _)) by (unfold WAL_HEADER_LEN; lia).
Qed.

Lemma garbage_stops {AL : Allocator} b rest : zlen b = 4 -> le_val b <> WAL_MAGIC -> stops (b ++ rest).
Proof.
  intros Hb Hm base fuel pre st ts. cbn [replay_loop]. case_match; [done|].
  assert (read_int 4 (pre ++ b ++ rest) (zlen pre) = Ret (le_val b)) as ->
    by (unfold read_int; by rewrite get_range_mid by (change (Z.of_nat 4) with 4; lia)).
  obind. by rewrite (proj2 (Z.eqb_neq _ _)).
Qed.

Lemma replay_loop_log {AL : Allocator} cs tail base : stops tail -> forall fuel pre s,
  Forall commit_ok cs -> (length cs < fuel)%nat ->
  replay_loop hash fuel (pre ++ log_bytes cs ++ tail) base (zlen pre) s.1 s.2 =
  Ret ((redo base cs s).1, (redo base cs s).2, zlen (pre ++ log_bytes cs)).
Proof using hash_u32.
  intros Htail. induction cs as [|d cs IH]; intros fuel pre s Hcs Hf; (destruct fuel as [|fuel]; [cbn in Hf; lia|]).
  - cbn [log_bytes fmap list_fmap concat app]. rewrite app_nil_r. apply Htail.
  - apply Forall_cons in Hcs as [Hd%commit_readable Hcs]. cbn in Hf. rewrite log_bytes_cons, <-!app_assoc, replay_loop_record by done.
    rewrite IH by (done || lia). by rewrite <-app_assoc.
Qed.

Lemma log_fuel cs : Forall commit_ok cs -> (length cs <= length (log_bytes cs))%nat.
Proof using hash_u32.
  induction 1 as [|c cs Hc _ IH]; [done|]. rewrite log_bytes_cons, length_app.
  apply commit_readable in Hc. pose proof (record_len c Hc). pose proof (payload_len c Hc). unfold zlen in *. cbn [length]. lia.
Qed.

(** Replaying a log with something unreadable behind it. *)
Lemma replay_stops {AL : Allocator} cs tail base store :
  Forall commit_ok cs -> stops tail ->
  replay_wal_with_base hash (log_bytes cs ++ tail) store base = Ret (redo base cs (store, base), zlen (log_bytes cs)).
Proof using hash_u32.
  intros Hcs Ht. pose proof (log_fuel cs Hcs). unfold replay_wal_with_base.
  pose proof (replay_loop_log cs tail base Ht (S (length (log_bytes cs ++ tail))) [] (store, base) Hcs) as Hr.
  rewrite (@zlen_nil Z) in Hr. cbn [app fst snd] in Hr. rewrite Hr by (rewrite length_app; lia). by destruct (redo base cs (store, base)).
Qed.

Lemma replay_log {AL : Allocator} cs base store :
  Forall commit_ok cs ->
  replay_wal_with_base hash (log_bytes cs) store base = Ret (redo base cs (store, base), zlen (log_bytes cs)).
Proof using hash_u32.
  intros Hcs. pose proof (replay_stops cs [] base store Hcs nil_stops) as Hr. by rewrite app_nil_r in Hr.
Qed.

End Log.

(** ** Snapshots *)

(** The last value of each key. *)
Definition latest (store : versions) : gmap (list Z) (list Z) := omap (fun vs => v ← last vs; v_value v) store.

Definition compact (ts : Z) (store : versions) : versions := (fun v => [mkVersion ts (Some v)]) <$> latest store.

Definition row_ok (kv : list Z * list Z) : Prop := zlen kv.1 = KEY_SIZE /\ zlen kv.2 <= VALUE_SIZE.

Definition entry_bytes (kv : list Z * list Z) : bytes := kv.1 ++ le_bytes 4 (zlen kv.2) ++ kv.2.
Definition entries_bytes (kvs : list (list Z * list Z)) : bytes := concat (entry_bytes <$> kvs).

Definition snapshot_bytes (ts : Z) (kvs : list (list Z * list Z)) : bytes :=
  le_bytes 4 SNAPSHOT_MAGIC ++ le_bytes 4 SNAPSHOT_VERSION ++ le_bytes 8 ts ++ le_bytes 4 (zlen kvs) ++ entries_bytes kvs.

Lemma live_rows store : omap live (map_to_list store) ≡ₚ map_to_list (latest store).
Proof.
  apply NoDup_Permutation.
  - pose proof (NoDup_fst_map_to_list store) as Hnd. revert Hnd.
    induction (map_to_list store) as [|[k vs] l IH]; cbn; intros Hnd; [constructor|].
    apply NoDup_cons in Hnd as [Hk Hnd]. unfold live at 1. cbn.
    destruct (last vs) as [v|]; cbn; [|by apply IH]. destruct (v_value v) as [x|]; cbn; [|by apply IH].
    apply NoDup_cons. split; [|by apply IH]. intros ([k' vs'] & Hin & Hl)%list_elem_of_omap. apply Hk.
    unfold live in Hl. cbn in Hl. destruct (last vs') as [v'|]; [|done]. cbn in Hl. destruct (v_value v'); [|done].
    cbn in Hl. injection Hl as -> ->. apply list_elem_of_fmap. by exists (k, vs').
  - apply NoDup_map_to_list.
  - intros [k x]. rewrite list_elem_of_omap, elem_of_map_to_list. unfold latest. rewrite lookup_omap_Some. split.
    + intros ([k' vs] & Hin%elem_of_map_to_list & Hl). unfold live in Hl. cbn in Hl.
      destruct (last vs) as [v|] eqn:Hv; [|done]. cbn in Hl. destruct (v_value v) as [y|] eqn:Hy; [|done]. cbn in Hl. injection Hl as -> ->.
      exists vs. by rewrite Hv; cbn.
    + intros (vs & Hl & Hin). exists (k, vs). rewrite elem_of_map_to_list. split; [done|]. unfold live. cbn.
      destruct (last vs) as [v|]; [|done]. cbn in Hl |- *. by rewrite Hl.
Qed.

Lemma snapshot_entries_perm store : snapshot_entries store ≡ₚ map_to_list (latest store).
Proof. unfold snapshot_entries. by rewrite merge_sort_Permutation, live_rows. Qed.

Lemma encode_rows_ok kvs : Forall row_ok kvs -> encode_entries kvs = Ret (entries_bytes kvs).
Proof.
  induction 1 as [|[k v] kvs [Hk Hv] _ IH]; [done|]. cbn in Hv. cbn [encode_entries].
  rewrite (proj2 (Z.ltb_ge _ _)) by done. rewrite IH. obind. unfold entries_bytes, entry_bytes. cbn [fmap list_fmap concat fst snd].
  unfold wrap32. rewrite Z.mod_small by (pose proof (zlen_nonneg v); unfold VALUE_SIZE, U32 in *; lia). by rewrite <-!app_assoc.
Qed.

Lemma decode_entries_ok ts kvs : forall (pre : bytes) store,
  Forall row_ok kvs ->
  decode_entries (length kvs) (pre ++ entries_bytes kvs) ts (zlen pre) store =
  Ret (foldl (push_version ts) store (prod_map id Some <$> kvs), zlen (pre ++ entries_bytes kvs)).
Proof.
  induction kvs as [|[k v] kvs IH]; intros pre store Hok; cbn [length decode_entries].
  - by rewrite app_nil_r.
  - apply Forall_cons in Hok as [[Hk Hv] Hok]. cbn in Hk, Hv. pose proof (zlen_nonneg v). pose proof (zlen_nonneg pre).
    unfold entries_bytes in *. cbn [fmap list_fmap concat]. set (rest := concat _) in *. pose proof (zlen_nonneg rest).
    pose proof Hk as Hk'. unfold KEY_SIZE in Hk'. unfold entry_bytes. cbn [fst snd]. rewrite <-!app_assoc.
    rewrite (proj2 (Z.ltb_ge _ _)) by bl.
    rewrite (get_range_mid pre k) by lia. obind. rewrite (app_assoc pre k).
    rewrite read_int_mid by first [bl | change (256 ^ Z.of_nat 4) with U32; unfold U32, VALUE_SIZE in *; lia]. obind.
    rewrite (proj2 (Z.ltb_ge _ _)) by done. rewrite (proj2 (Z.ltb_ge _ _)) by bl.
    rewrite (app_assoc (pre ++ k)). rewrite get_range_mid by bl. obind.
    replace (zlen pre + KEY_SIZE + 4 + zlen v) with (zlen (((pre ++ k) ++ le_bytes 4 (zlen v)) ++ v)) by bl.
    rewrite (app_assoc _ v), IH by done. done.
Qed.

Lemma push_rows ts kvs : forall store,
  NoDup kvs.*1 -> (forall k, k ∈ kvs.*1 -> store !! k = None) ->
  foldl (push_version ts) store (prod_map id Some <$> kvs) =
  list_to_map (prod_map id (fun v => [mkVersion ts (Some v)]) <$> kvs) ∪ store.
Proof.
  induction kvs as [|[k v] kvs IH]; intros store Hnd Hfresh; cbn; [by rewrite (left_id_L ∅ (∪))|].
  cbn in Hnd. apply NoDup_cons in Hnd as [Hk Hnd]. rewrite IH; [|done|].
  - unfold push_version. cbn. rewrite (Hfresh k) by (cbn; left). cbn.
    rewrite <-insert_union_l. rewrite <-insert_union_r; [done|].
    apply not_elem_of_list_to_map_1. by rewrite <-list_fmap_compose.
  - intros k' Hk'. unfold push_version. cbn. rewrite lookup_insert_ne by (intros ->; done). apply Hfresh. by right.
Qed.

(** What a snapshot can hold. *)
Definition rows_ok (store : versions) : Prop :=
  map_Forall (fun k v => row_ok (k, v)) (latest store) /\ Z.of_nat (size (latest store)) < U32.

Lemma entries_rows_ok store : rows_ok store -> Forall row_ok (snapshot_entries store).
Proof.
  intros [Hok _]. rewrite snapshot_entries_perm. apply Forall_forall. intros [k v] Hin%elem_of_map_to_list. by apply Hok.
Qed.

Lemma entries_len store : zlen (snapshot_entries store) = Z.of_nat (size (latest store)).
Proof. unfold zlen. by rewrite snapshot_entries_perm, length_map_to_list. Qed.

Lemma encode_snapshot_ok ts store :
  rows_ok store -> encode_snapshot ts store = Ret (snapshot_bytes ts (snapshot_entries store)).
Proof.
  intros Hok. pose proof (entries_rows_ok store Hok) as Hrows. destruct Hok as [_ Hn]. unfold encode_snapshot.
  pose proof (zlen_nonneg (snapshot_entries store)). rewrite <-entries_len in Hn.
  rewrite (proj2 (Z.ltb_ge _ _)) by lia. rewrite encode_rows_ok by done. obind. unfold snapshot_bytes, wrap32.
  by rewrite Z.mod_small by lia.
Qed.

Lemma decode_snapshot_bytes ts kvs :
  0 <= ts < U64 -> zlen kvs < U32 -> Forall row_ok kvs ->
  decode_snapshot (snapshot_bytes ts kvs) = Ret (foldl (push_version ts) ∅ (prod_map id Some <$> kvs), ts).
Proof.
  intros Hts Hn Hok. unfold decode_snapshot. pose proof (zlen_nonneg kvs). pose proof (zlen_nonneg (entries_bytes kvs)).
  set (data := snapshot_bytes ts kvs).
  assert (zlen data = 20 + zlen (entries_bytes kvs)) as Hlen by (unfold data, snapshot_bytes; bl).
  rewrite (proj2 (Z.ltb_ge _ _)) by lia.
  assert (read_int 4 data 0 = Ret SNAPSHOT_MAGIC) as -> by (apply read_int_head; done). obind. rewrite Z.eqb_refl. cbn [negb].
  assert (read_int 4 data 4 = Ret SNAPSHOT_VERSION) as ->
    by (unfold data, snapshot_bytes; apply read_int_mid; done).
  obind. rewrite Z.eqb_refl. cbn [negb].
  assert (read_int 8 data 8 = Ret ts) as ->
    by (unfold data, snapshot_bytes; rewrite app_assoc; apply read_int_mid; done).
  obind.
  assert (read_int 4 data 16 = Ret (zlen kvs)) as ->.
  { unfold data, snapshot_bytes. rewrite app_assoc, (app_assoc (_ ++ _)). apply read_int_mid; [done|].
    change (256 ^ Z.of_nat 4) with U32. lia. }
  obind. replace (Z.to_nat (zlen kvs)) with (length kvs) by (unfold zlen; lia).
  pose proof (decode_entries_ok ts kvs
    (le_bytes 4 SNAPSHOT_MAGIC ++ le_bytes 4 SNAPSHOT_VERSION ++ le_bytes 8 ts ++ le_bytes 4 (zlen kvs)) ∅ Hok) as Hd.
  rewrite <-!app_assoc in Hd. fold (snapshot_bytes ts kvs) in Hd. fold data in Hd.
  rewrite !(zlen_app (le_bytes _ _)), !zlen_le_bytes in Hd. change (Z.of_nat 4 + _) with 20 in Hd.
  rewrite Hd. obind. by rewrite Z.eqb_refl.
Qed.

Lemma snapshot_roundtrip ts store :
  0 <= ts < U64 -> rows_ok store ->
  decode_snapshot (snapshot_bytes ts (snapshot_entries store)) = Ret (compact ts store, ts).
Proof.
  intros Hts Hok. rewrite decode_snapshot_bytes; [|done|rewrite entries_len; apply Hok|by apply entries_rows_ok].
  pose proof (snapshot_entries_perm store) as Hp.
  assert (Hnd : NoDup (snapshot_entries store).*1) by (rewrite Hp; apply NoDup_fst_map_to_list).
  rewrite push_rows by (done || (intros; apply lookup_empty)). rewrite (right_id_L ∅ (∪)). do 2 f_equal.
  unfold compact. rewrite <-(list_to_map_to_list (latest store)) at 1. rewrite <-list_to_map_fmap.
  rewrite list_to_map_proper with (l2 := prod_map id (fun v => [mkVersion ts (Some v)]) <$> map_to_list (latest store));
    [done| |by rewrite Hp].
  rewrite <-list_fmap_compose. exact Hnd.
Qed.

(** ** What a manager relies on

    [stored s st ts]: the files under [s] hold the versions [st] up to timestamp [ts].
    [ready s st ts]: they do, and [s] is open for appending.  [settled s]: the snapshot
    covers the log.  [restart] is what is left when the process stops. *)

Class Restart (S : Type) := restart : S -> S.

Class TxnStorageLaws (S : Type) `{TxnStorage S, Restart S} (hash : bytes -> Z) := {
  stored : S -> versions -> Z -> Prop;
  ready : S -> versions -> Z -> Prop;
  settled : S -> Prop;
  ready_ts : forall s st ts, ready s st ts -> 0 <= ts < U64;
  restart_stored : forall s st ts, ready s st ts -> stored (restart s) st ts;
  open_law : forall s st ts, stored s st ts ->
    exists snap s1 s2, load_snapshot s = (Ret snap, s1) /\
      replay_wal (default (∅, 0) snap).1 (default (∅, 0) snap).2 s1 = (Ret (st, ts), s2) /\ ready s2 st ts;
  append_law : forall s st ts ts' ws, ready s st ts -> ts < ts' -> commit_ok (ts', ws) ->
    exists s', append_wal_record (record_bytes hash (ts', ws)) s = (Ret tt, s') /\ ready s' (push_all ts' ws st) ts';
  snapshot_law : forall s st st' ts, ready s st ts -> rows_ok st' ->
    exists s', write_snapshot ts st' s = (Ret tt, s') /\ ready s' (compact ts st') ts /\ settled s';
  truncate_law : forall s st ts, ready s st ts -> settled s ->
    exists s', truncate_wal s = (Ret tt, s') /\ ready s' st ts
}.

(** ** One replica *)

Section Replica.
Context (hash : bytes -> Z) (hash_u32 : forall p, 0 <= hash p < U32).

Definition snapshot_of (r : Replica) (base : versions * Z) : Prop :=
  match r_snapshot r with Some data => decode_snapshot data = Ret base | None => base = (∅, 0) end.

(** The files of a replica without faults: a snapshot and a log of commits. *)
Record files (r : Replica) (base : versions * Z) (cs : list commit_t) : Prop := {
  files_quiet : r_faults r = [];
  files_wal : r_wal r = log_bytes hash cs;
  files_snapshot : snapshot_of r base;
  files_ok : Forall commit_ok cs;
  files_base : 0 <= base.2 < U64
}.

Definition stored1 (r : Replica) (st : versions) (ts : Z) : Prop :=
  exists base cs, files r base cs /\ redo base.2 cs base = (st, ts).

Definition at_end (r : Replica) : Prop := r_pos r = Some (zlen (r_wal r)).
Definition ready1 (r : Replica) (st : versions) (ts : Z) : Prop := stored1 r st ts /\ at_end r.
Definition settled1 (r : Replica) : Prop :=
  exists base cs, files r base cs /\ Forall (fun c => c.1 <= base.2) cs.

Lemma redo_cons base c cs s : redo base (c :: cs) s = redo base cs (redo1 base s c).
Proof. done. Qed.

Lemma redo_ts base cs s : 0 <= s.2 < U64 -> Forall commit_ok cs -> 0 <= (redo base cs s).2 < U64.
Proof.
  intros Hs Hcs. revert s Hs. induction Hcs as [|c cs [Hc _] _ IH]; intros s Hs; [done|]. rewrite redo_cons. apply IH.
  unfold redo1. cbn. by case_match.
Qed.

Lemma redo_commits_app base cs ds s : redo base (cs ++ ds) s = redo base ds (redo base cs s).
Proof. apply foldl_app. Qed.

Lemma redo_ts_ge base cs s : s.2 <= (redo base cs s).2.
Proof.
  revert s. induction cs as [|c cs IH]; intros s; [done|]. rewrite redo_cons. etrans; [|apply IH]. unfold redo1. cbn.
  case_match eqn:Hc; [|done]. apply andb_true_iff in Hc as [_ ?%Z.ltb_lt]. lia.
Qed.

Lemma redo_covered base cs s : Forall (fun c => c.1 <= base) cs -> redo base cs s = s.
Proof.
  intros Hcs. revert s. induction Hcs as [|c cs Hc _ IH]; intros [st ts]; [done|]. rewrite redo_cons, IH. unfold redo1. cbn.
  by rewrite (proj2 (Z.ltb_ge _ _)) by lia.
Qed.

Lemma redo_max base cs s c : base <= s.2 -> c ∈ cs -> c.1 <= (redo base cs s).2.
Proof.
  revert s. induction cs as [|d cs IH]; intros s Hs Hin; [by apply not_elem_of_nil in Hin|]. rewrite redo_cons.
  assert (base <= (redo1 base s d).2 /\ d.1 <= (redo1 base s d).2) as [Hb Hd].
  { unfold redo1. cbn. case_match eqn:Hc; [apply andb_true_iff in Hc as [?%Z.ltb_lt ?%Z.ltb_lt]; lia|].
    apply andb_false_iff in Hc as [?%Z.ltb_ge|?%Z.ltb_ge]; lia. }
  apply elem_of_cons in Hin as [->|Hin]; [|by apply IH]. etrans; [exact Hd|]. apply redo_ts_ge.
Qed.

Lemma sys_ok_quiet r : r_faults r = [] -> sys_ok r = (Ret tt, r).
Proof. intros Hr. unfold sys_ok, sys, mbind, st_bind. by rewrite Hr. Qed.

Lemma files_pos r base cs p : files r base cs -> files (mkReplica (r_wal r) (r_snapshot r) (r_faults r) p) base cs.
Proof. intros []. by constructor. Qed.

Lemma with_replica_ok r base cs :
  files r base cs -> exists r', with_replica r = (Ret tt, r') /\ files r' base cs /\ (at_end r -> r' = r).
Proof.
  intros Hf. pose proof (files_quiet _ _ _ Hf) as Hq. unfold with_replica. rewrite st_bind_gets.
  destruct (r_pos r) eqn:Hp; [by eexists|]. rewrite (st_bind_ret _ _ _ _ _ (sys_ok_quiet r Hq)).
  unfold LocalStorage.open. rewrite (st_bind_ret _ _ _ _ _ (sys_ok_quiet r Hq)).
  eexists. split; [reflexivity|]. split; [by apply files_pos|]. unfold at_end. by rewrite Hp.
Qed.

Lemma load_quiet r base :
  r_faults r = [] -> snapshot_of r base -> exists snap, load_snapshot_file r = (Ret snap, r) /\ default (∅, 0) snap = base.
Proof.
  intros Hq Hs. unfold load_snapshot_file, snapshot_of in *. rewrite (sys_ok_quiet r Hq).
  destruct (r_snapshot r) as [data|].
  - rewrite !(st_bind_ret _ _ _ _ _ (sys_ok_quiet r Hq)). rewrite (st_bind_lift _ _ _ base Hs). by exists (Some base).
  - exists None. by rewrite Hs.
Qed.

Lemma load_ok r base cs :
  files r base cs -> exists snap, load_snapshot_file r = (Ret snap, r) /\ default (∅, 0) snap = base.
Proof. intros [Hq _ Hs _ _]. by apply load_quiet. Qed.

Lemma replay_ok {AL : Allocator} r base cs :
  files r base cs ->
  replay_file hash base.1 base.2 r =
  (Ret (redo base.2 cs base), mkReplica (r_wal r) (r_snapshot r) (r_faults r) (Some (zlen (r_wal r)))).
Proof using hash_u32.
  intros [Hq Hw _ Hok _]. unfold replay_file. rewrite !(st_bind_ret _ _ _ _ _ (sys_ok_quiet r Hq)). rewrite st_bind_gets.
  rewrite (st_bind_lift _ _ _ (redo base.2 cs base, zlen (log_bytes hash cs)))
    by (rewrite Hw; destruct base; by apply replay_log).
  destruct (redo base.2 cs base) as [st ts]. rewrite !(st_bind_ret _ _ _ _ _ (sys_ok_quiet r Hq)).
  rewrite Hw, Z.ltb_irrefl. rewrite (st_bind_ret _ _ _ tt r) by done.
  rewrite !(st_bind_ret _ _ _ _ _ (sys_ok_quiet r Hq)). unfold gets, seek, modify, mbind, st_bind, mret, st_ret. cbn. by rewrite Hw.
Qed.

Lemma write_over_end buf file : write_over (zlen file) buf file = file ++ buf.
Proof.
  unfold write_over. rewrite Z.sub_diag. unfold zrepeat. cbn [Z.to_nat replicate]. rewrite app_nil_r.
  rewrite take_ge, drop_ge, app_nil_r by (unfold zlen; lia). done.
Qed.

(** An append without a fault extends the log by the record. *)
Lemma append_ok r rec :
  r_faults r = [] -> at_end r ->
  append_record rec r =
  (Ret tt, mkReplica (r_wal r ++ rec) (r_snapshot r) [] (Some (zlen (r_wal r ++ rec)))).
Proof.
  destruct r as [w sn fs p]. unfold at_end. cbn. intros -> ->.
  unfold append_record, write_all, sys_ok, sys, write_at_pos, set_wal, seek, gets, modify, position, mbind, st_bind.
  cbn -[write_over zlen]. by rewrite write_over_end, zlen_app.
Qed.

Lemma append1 r st ts ts' ws :
  ready1 r st ts -> ts < ts' -> commit_ok (ts', ws) ->
  exists r', append_record (record_bytes hash (ts', ws)) r = (Ret tt, r') /\ ready1 r' (push_all ts' ws st) ts'.
Proof.
  intros [(base & cs & Hf & Hr) Hp] Hts Hc. pose proof (files_quiet _ _ _ Hf) as Hq.
  rewrite append_ok by done. eexists. split; [reflexivity|]. split; [|done].
  exists base, (cs ++ [(ts', ws)]). pose proof (redo_ts_ge base.2 cs base) as Hge. rewrite Hr in Hge. cbn in Hge. split.
  - destruct Hf as [_ Hw Hs Hok Hb]. constructor; [done| |done| |done].
    + cbn. rewrite Hw, log_bytes_app. unfold log_bytes at 3. cbn. by rewrite app_nil_r.
    + apply Forall_app. split; [done|]. by constructor.
  - rewrite redo_commits_app, Hr. unfold redo, redo1. cbn. by rewrite !(proj2 (Z.ltb_lt _ _)) by lia.
Qed.

Lemma write_snapshot_ok r ts st :
  r_faults r = [] -> rows_ok st ->
  write_snapshot_file ts st r =
  (Ret tt, mkReplica (r_wal r) (Some (snapshot_bytes ts (snapshot_entries st))) [] (r_pos r)).
Proof.
  intros Hq Hok. unfold write_snapshot_file. rewrite (st_bind_lift _ _ _ _ (encode_snapshot_ok ts st Hok)).
  rewrite !(st_bind_ret _ _ _ _ _ (sys_ok_quiet r Hq)). unfold modify, sys, mbind, st_bind. cbn. by rewrite Hq.
Qed.

Lemma snapshot1 r st st' ts :
  ready1 r st ts -> rows_ok st' ->
  exists r', write_snapshot_file ts st' r = (Ret tt, r') /\ ready1 r' (compact ts st') ts /\ settled1 r'.
Proof.
  intros [(base & cs & Hf & Hr) Hp] Hok. pose proof (files_quiet _ _ _ Hf) as Hq.
  rewrite write_snapshot_ok by done. eexists. split; [reflexivity|].
  pose proof (redo_ts base.2 cs base (files_base _ _ _ Hf) (files_ok _ _ _ Hf)) as Hts. rewrite Hr in Hts. cbn in Hts.
  assert (files (mkReplica (r_wal r) (Some (snapshot_bytes ts (snapshot_entries st'))) [] (r_pos r)) (compact ts st', ts) cs) as Hf'.
  { destruct Hf. constructor; try done. unfold snapshot_of. cbn. by apply snapshot_roundtrip. }
  assert (Forall (fun c => c.1 <= ts) cs) as Hall.
  { apply Forall_forall. intros c Hc. pose proof (redo_max base.2 cs base c (Z.le_refl _) Hc) as Hm. by rewrite Hr in Hm. }
  split; [split|]; [|exact Hp|by exists (compact ts st', ts), cs].
  exists (compact ts st', ts), cs. split; [done|]. by apply redo_covered.
Qed.

Lemma decode_base r base base' : snapshot_of r base -> snapshot_of r base' -> base = base'.
Proof. unfold snapshot_of. destruct (r_snapshot r); congruence. Qed.

Lemma truncate1 {AL : Allocator} r st ts :
  ready1 r st ts -> settled1 r -> exists r', truncate_file r = (Ret tt, r') /\ ready1 r' st ts.
Proof.
  intros [(base & cs & Hf & Hr) Hp] (base' & cs' & Hf' & Hall). pose proof (files_quiet _ _ _ Hf) as Hq.
  assert (redo base.2 cs base = base) as Hbase.
  { pose proof (decode_base r base base' (files_snapshot _ _ _ Hf) (files_snapshot _ _ _ Hf')) as <-.
    pose proof (replay_ok r base cs Hf) as H1. pose proof (replay_ok r base cs' Hf') as H2.
    rewrite H1 in H2. injection H2 as H2. rewrite H2. by apply redo_covered. }
  unfold truncate_file, set_wal, seek, modify, mbind, st_bind. rewrite (sys_ok_quiet r Hq).
  rewrite !sys_ok_quiet by done. eexists. split; [reflexivity|]. split; [|done].
  exists base, []. rewrite <-Hr, Hbase. split; [|done]. destruct Hf. by constructor.
Qed.

Lemma open1 {AL : Allocator} r st ts :
  stored1 r st ts ->
  exists snap r', load_snapshot_file r = (Ret snap, r) /\
    replay_file hash (default (∅, 0) snap).1 (default (∅, 0) snap).2 r = (Ret (st, ts), r') /\ ready1 r' st ts.
Proof using hash_u32.
  intros (base & cs & Hf & Hr). destruct (load_ok r base cs Hf) as (snap & Hl & Hd). exists snap. eexists. split; [done|].
  split; [rewrite Hd, (replay_ok r base cs Hf), Hr; reflexivity|]. split; [|done].
  exists base, cs. split; [by apply files_pos|done].
Qed.

Lemma ready1_ts r st ts : ready1 r st ts -> 0 <= ts < U64.
Proof.
  intros [(base & cs & Hf & Hr) _]. pose proof (redo_ts base.2 cs base (files_base _ _ _ Hf) (files_ok _ _ _ Hf)) as Hts.
  by rewrite Hr in Hts.
Qed.

(** A process that stops leaves the files. *)
Lemma close_stored1 r st ts p : stored1 r st ts -> stored1 (mkReplica (r_wal r) (r_snapshot r) (r_faults r) p) st ts.
Proof. intros (base & cs & Hf & Hr). exists base, cs. split; [by apply files_pos|done]. Qed.

#[export] Instance local_restart : Restart Replica := fun r => mkReplica (r_wal r) (r_snapshot r) (r_faults r) (Some 0).

#[export] Instance local_laws {AL : Allocator} : TxnStorageLaws Replica (H := local_storage hash) hash.
Proof using hash_u32.
  refine {| stored := stored1; ready := ready1; settled := settled1 |}.
  - exact ready1_ts.
  - intros s st ts [Hs _]. by apply close_stored1.
  - intros s st ts Hs. destruct (open1 s st ts Hs) as (snap & r' & ? & ? & ?). by exists snap, s, r'.
  - exact append1.
  - exact snapshot1.
  - exact truncate1.
Defined.

(** ** All the replicas of a quorum

    Without faults, and when a write waits for every replica. *)

Definition with_replicas (q : QuorumStorage) (rs : list Replica) : QuorumStorage :=
  mkQuorum rs (quorum q) (repairs q) (in_flight q).

Lemma on_replica_ok {A} i (m : st Replica TxnError A) q r a r' :
  replicas q !! i = Some r -> m r = (Ret a, r') -> on_replica i m q = (Ret a, with_replicas q (<[i := r']> (replicas q))).
Proof. intros Hi Hm. unfold on_replica. by rewrite Hi, Hm. Qed.

Lemma count_all (P Q : Replica -> Prop) op :
  (forall r, P r -> exists r', ((with_replica ≫= fun _ => apply op) r) = (Ret tt, r') /\ Q r') ->
  forall order q successes err,
  NoDup order -> order <> [] -> (forall i, i ∈ order -> exists r, replicas q !! i = Some r /\ P r) ->
  quorum q = successes + zlen order ->
  exists rs, count_results op order successes err q = (Ret tt, with_replicas q rs) /\
    length rs = length (replicas q) /\
    (forall i r, rs !! i = Some r -> (i ∈ order /\ Q r) \/ ((i ∉ order) /\ replicas q !! i = Some r)).
Proof.
  intros Hop. induction order as [|i order IH]; intros q successes err Hnd Hne HP Hq; [done|].
  apply NoDup_cons in Hnd as [Hi Hnd]. destruct (HP i) as (r & Hr & HPr); [left|]. destruct (Hop r HPr) as (r' & Hm & HQ).
  cbn [count_results]. unfold write_replica. rewrite (on_replica_ok _ _ _ _ _ _ Hr Hm). cbn. rewrite zlen_cons in Hq.
  pose proof (lookup_lt_Some _ _ _ Hr) as Hlt.
  destruct order as [|j order].
  - rewrite (proj2 (Z.leb_le _ _)) by (rewrite Hq; unfold zlen; cbn; lia). cbn. rewrite app_nil_r.
    eexists. split; [reflexivity|]. split; [by rewrite length_insert|]. intros k x Hk.
    destruct (decide (k = i)) as [->|Hne'].
    + rewrite list_lookup_insert_eq in Hk by done. injection Hk as <-. left. split; [left|done].
    + rewrite list_lookup_insert_ne in Hk by done. right. split; [|done]. by rewrite list_elem_of_singleton.
  - rewrite (proj2 (Z.leb_gt _ _)) by (rewrite Hq, zlen_cons; pose proof (zlen_nonneg order); lia).
    destruct (IH (with_replicas q (<[i := r']> (replicas q))) (successes + 1) err) as (rs & Hc & Hl & Hrs); [done|done| |cbn; lia|].
    + intros k Hk. cbn. rewrite list_lookup_insert_ne by (intros ->; done). apply HP. by right.
    + cbn in Hl, Hrs. rewrite length_insert in Hl. exists rs. split; [exact Hc|]. split; [done|].
      intros k x Hk. destruct (Hrs k x Hk) as [[Hin HQx]|[Hin Hlk]]; [left; split; [by right|done]|].
      destruct (decide (k = i)) as [->|Hne'].
      * rewrite list_lookup_insert_eq in Hlk by done. injection Hlk as <-. left. split; [left|done].
      * rewrite list_lookup_insert_ne in Hlk by done. right. split; [|done]. rewrite elem_of_cons. tauto.
Qed.

Context (order : list nat).

Record whole (P : Replica -> Prop) (q : QuorumStorage) : Prop := {
  whole_replicas : Forall P (replicas q);
  whole_quorum : quorum q = zlen (replicas q);
  whole_some : replicas q <> [];
  whole_order : order ≡ₚ seq 0 (length (replicas q));
  whole_repairs : repairs q = [];
  whole_in_flight : in_flight q = []
}.

Lemma quorum_write_all (P Q : Replica -> Prop) op q :
  (forall r, P r -> exists r', ((with_replica ≫= fun _ => apply op) r) = (Ret tt, r') /\ Q r') ->
  whole P q -> exists q', quorum_write order op q = (Ret tt, q') /\ whole Q q'.
Proof.
  intros Hop [HP Hq Hs Ho Hr Hf].
  assert (Hne : order <> []).
  { intros He. rewrite He in Ho. apply Permutation_nil_l in Ho. by destruct (replicas q). }
  assert (Hin : forall i, i ∈ order <-> (i < length (replicas q))%nat) by (intros i; rewrite Ho, elem_of_seq; lia).
  destruct (count_all P Q op Hop order q 0 None) as (rs & Hc & Hl & Hrs); [rewrite Ho; apply NoDup_seq|done| | |].
  - intros i Hi%Hin%lookup_lt_is_Some. destruct Hi as [r Hi]. exists r. split; [done|]. by eapply (Forall_lookup_1 P).
  - rewrite Hq. unfold zlen. rewrite Ho, length_seq. lia.
  - eexists. split; [exact Hc|]. constructor; cbn; try done.
    + apply Forall_lookup_2. intros i r Hi. destruct (Hrs i r Hi) as [[_ ?]|[Hni _]]; [done|]. exfalso. apply Hni, Hin.
      rewrite <-Hl. by eapply lookup_lt_Some.
    + unfold zlen. by rewrite Hl.
    + destruct rs; [|done]. cbn in Hl. by destruct (replicas q).
    + by rewrite Hl.
Qed.

Lemma with_replica_ready r st ts : ready1 r st ts -> with_replica r = (Ret tt, r).
Proof.
  intros [(base & cs & Hf & _) Hp]. destruct (with_replica_ok r base cs Hf) as (r' & Hw & _ & He).
  by rewrite Hw, He.
Qed.

Lemma ready_then {A} (m : st Replica TxnError A) r st ts : ready1 r st ts -> (_ ← with_replica; m) r = m r.
Proof. intros Hr. by rewrite (st_bind_ret _ _ _ _ _ (with_replica_ready r st ts Hr)). Qed.

(** The files of [r'] are those of [r]. *)
Definition keeps (r r' : Replica) : Prop := forall base cs, files r base cs -> files r' base cs.

#[local] Instance keeps_preorder : PreOrder keeps.
Proof. split; [by intros r base cs|]. intros x y z Hxy Hyz base cs Hf. by apply Hyz, Hxy. Qed.

Lemma keeps_stored r r' st ts : keeps r r' -> stored1 r st ts -> stored1 r' st ts.
Proof. intros Hk (base & cs & Hf & Hr). exists base, cs. split; [by apply Hk|done]. Qed.

Lemma load_best_ok : forall indices q best saw_ok err,
  Forall (fun r => exists base cs, files r base cs) (replicas q) -> Forall (fun i => i < length (replicas q))%nat indices ->
  indices <> [] \/ saw_ok = true ->
  exists snap rs, load_best indices best saw_ok err q = (Ret snap, with_replicas q rs) /\ Forall2 keeps (replicas q) rs.
Proof using hash.
  induction indices as [|i indices IH]; intros q best saw_ok err Hst Hi Hsaw; cbn [load_best].
  - destruct Hsaw as [?| ->]; [done|]. exists best, (replicas q). split; [|reflexivity].
    destruct q. unfold with_replicas. cbn. case_bool_decide as Hb; [done|]. by apply eq_None_not_Some in Hb as ->.
  - apply Forall_cons in Hi as [[r Hr]%lookup_lt_is_Some Hi].
    pose proof (Forall_lookup_1 _ _ _ _ Hst Hr) as (base & cs & Hf).
    destruct (with_replica_ok r base cs Hf) as (r1 & Hw & Hf1 & _). destruct (load_ok r1 base cs Hf1) as (snap & Hl & Hd).
    rewrite (on_replica_ok i (with_replica ≫= fun _ => load_snapshot_file) q r snap r1 Hr)
      by (by rewrite (st_bind_ret _ _ _ _ _ Hw)).
    set (q' := with_replicas q _).
    assert (Hkeep : Forall2 keeps (replicas q) (replicas q')).
    { cbn. apply Forall2_same_length_lookup_2; [by rewrite length_insert|]. intros j x y Hx Hy base' cs' Hf'.
      destruct (decide (j = i)) as [->|Hne]; [|rewrite list_lookup_insert_ne in Hy by done; by simplify_eq].
      rewrite list_lookup_insert_eq in Hy by (by eapply lookup_lt_Some). rewrite Hr in Hx. injection Hx as <-. injection Hy as <-.
      destruct (with_replica_ok r base' cs' Hf') as (r1' & Hw' & ? & _). rewrite Hw in Hw'. by injection Hw' as <-. }
    assert (Forall (fun r => exists base cs, files r base cs) (replicas q')) as Hst' by (apply Forall_insert; [done|by exists base, cs]).
    assert (Forall (fun i => i < length (replicas q'))%nat indices) as Hi' by (cbn; by rewrite length_insert).
    assert (Hnext : forall best' , exists snap' rs, load_best indices best' true err q' = (Ret snap', with_replicas q rs) /\
      Forall2 keeps (replicas q) rs).
    { intros best'. destruct (IH q' best' true err Hst' Hi' (or_intror eq_refl)) as (snap' & rs & Hl' & Hk'). exists snap', rs.
      split; [done|]. by transitivity (replicas q'). }
    destruct snap; apply Hnext.
Qed.

Lemma replay_replica_ok {AL : Allocator} r st ts :
  stored1 r st ts ->
  exists r', (_ ← with_replica; replay_replica hash) r = (Ret (inr (st, ts)), r') /\ ready1 r' st ts.
Proof using hash_u32.
  intros (base & cs & Hf & Hr). destruct (with_replica_ok r base cs Hf) as (r1 & Hw & Hf1 & _).
  rewrite (st_bind_ret _ _ _ _ _ Hw). unfold replay_replica. destruct (load_ok r1 base cs Hf1) as (snap & -> & ->).
  destruct base as [bst bts]. pose proof (replay_ok r1 (bst, bts) cs Hf1) as Hrep. cbn [fst snd] in Hrep. rewrite Hrep.
  cbn [fst snd] in Hr. rewrite Hr. eexists. split; [reflexivity|]. split; [|done].
  exists (bst, bts), cs. split; [by apply files_pos|done].
Qed.

Lemma replay_best_ok {AL : Allocator} st ts : forall indices q best err,
  Forall (fun r => stored1 r st ts) (replicas q) -> NoDup indices -> Forall (fun i => i < length (replicas q))%nat indices ->
  best = Some (st, ts) \/ (best = None /\ indices <> []) ->
  exists rs, replay_best hash indices best err q = (Ret (st, ts), with_replicas q rs) /\ length rs = length (replicas q) /\
    (forall i r, rs !! i = Some r -> (i ∈ indices /\ ready1 r st ts) \/ ((i ∉ indices) /\ replicas q !! i = Some r)).
Proof using hash_u32.
  induction indices as [|i indices IH]; intros q best err Hst Hnd Hi Hb; cbn [replay_best].
  - destruct Hb as [-> |[_ ?]]; [|done]. exists (replicas q). split; [by destruct q|]. split; [done|].
    intros i r Hi'. right. split; [apply not_elem_of_nil|done].
  - apply NoDup_cons in Hnd as [Hni Hnd]. apply Forall_cons in Hi as [Hlt Hi].
    destruct (lookup_lt_is_Some_2 _ _ Hlt) as [r Hr].
    destruct (replay_replica_ok r st ts (Forall_lookup_1 _ _ _ _ Hst Hr)) as (r' & Hm & Hready).
    rewrite (on_replica_ok _ _ _ _ _ _ Hr Hm). set (q' := with_replicas q _).
    assert (replace_best best (st, ts) = Some (st, ts)) as ->.
    { destruct Hb as [-> |[-> _]]; [|done]. cbn. by rewrite Z.ltb_irrefl. }
    destruct (IH q' (Some (st, ts)) err) as (rs & Hrep & Hl & Hrs); [| done | | by left|].
    + apply Forall_insert; [done|]. apply Hready.
    + cbn. by rewrite length_insert.
    + cbn in Hl, Hrs. rewrite length_insert in Hl. exists rs. split; [done|]. split; [done|]. intros k x Hk.
      destruct (Hrs k x Hk) as [[? ?]|[Hin Hlk]]; [left; split; [by right|done]|]. destruct (decide (k = i)) as [->|Hne].
      * rewrite list_lookup_insert_eq in Hlk by done. injection Hlk as <-. left. split; [left|done].
      * rewrite list_lookup_insert_ne in Hlk by done. right. rewrite elem_of_cons. split; [tauto|done].
Qed.

(** Replicas that hold different things: the first of those with the highest timestamp wins. *)
Lemma replay_best_fold {AL : Allocator} : forall indices vals q best err,
  NoDup indices -> Forall2 (fun i v => exists r, replicas q !! i = Some r /\ stored1 r v.1 v.2) indices vals ->
  (replay_best hash indices best err q).1 =
  match foldl replace_best best vals with Some v => Ret v | None => Fail (default (QuorumNotMet (quorum q) 0) err) end.
Proof using hash_u32.
  induction indices as [|i indices IH]; intros vals q best err Hnd Hv; [by apply Forall2_nil_inv_l in Hv as ->|].
  apply Forall2_cons_inv_l in Hv as ([st ts] & vals' & (r & Hr & Hst) & Hv & ->). apply NoDup_cons in Hnd as [Hni Hnd].
  cbn [replay_best]. destruct (replay_replica_ok r st ts Hst) as (r' & Hm & _). rewrite (on_replica_ok _ _ _ _ _ _ Hr Hm).
  apply (IH vals' (with_replicas q (<[i := r']> (replicas q)))); [done|].
  apply Forall2_same_length_lookup_2; [by apply Forall2_length in Hv|]. intros j k v Hj Hvj. cbn.
  rewrite list_lookup_insert_ne by (intros ->; apply Hni; by eapply list_elem_of_lookup_2).
  exact (Forall2_lookup_lr _ _ _ _ _ _ Hv Hj Hvj).
Qed.

Lemma open_fold {AL : Allocator} q vals :
  replicas q <> [] -> Forall2 (fun r v => stored1 r v.1 v.2) (replicas q) vals ->
  exists q', open_with_storage (TS := quorum_storage hash order) q =
    match foldl replace_best None vals with Some v => Ret (mkManager v.1 v.2 q') | None => Fail (QuorumNotMet (quorum q) 0) end.
Proof using hash_u32.
  intros Hne Hv. unfold open_with_storage. cbn [load_snapshot replay_wal quorum_storage]. unfold load_snapshot_quorum.
  assert (Hall : Forall (fun i => i < length (replicas q))%nat (seq 0 (length (replicas q)))) by (apply Forall_seq; lia).
  destruct (load_best_ok (seq 0 (length (replicas q))) q None false None) as (snap & rs & -> & Hk); [|done|left; by destruct (replicas q)|].
  { eapply Forall2_Forall_l; [exact Hv|]. apply Forall_true. intros v r (base & cs & Hf & _). by exists base, cs. }
  obind. destruct (default (∅, 0) snap) as [bst bts].
  assert (Hrep : (replay_quorum hash bst bts (with_replicas q rs)).1 =
    match foldl replace_best None vals with Some v => Ret v | None => Fail (QuorumNotMet (quorum q) 0) end).
  { unfold replay_quorum. rewrite replay_best_fold with (vals := vals); [done|apply NoDup_seq|]. cbn.
    apply Forall2_same_length_lookup_2.
    - rewrite length_seq. apply Forall2_length in Hv, Hk. congruence.
    - intros i k v Hi Hvi. apply lookup_seq in Hi as [-> Hlt]. destruct (lookup_lt_is_Some_2 rs _ Hlt) as [r' Hr'].
      destruct (Forall2_lookup_r _ _ _ _ _ Hk Hr') as (r & Hr & Hkr). exists r'. split; [done|].
      eapply keeps_stored; [exact Hkr|]. exact (Forall2_lookup_lr _ _ _ _ _ _ Hv Hr Hvi). }
  destruct (replay_quorum hash bst bts (with_replicas q rs)) as [o q']. cbn in Hrep. subst o. exists q'.
  by destruct (foldl replace_best None vals) as [[st ts]|].
Qed.

Lemma open_all {AL : Allocator} q st ts :
  whole (fun r => stored1 r st ts) q ->
  exists snap q1 q2, load_snapshot_quorum q = (Ret snap, q1) /\
    replay_quorum hash (default (∅, 0) snap).1 (default (∅, 0) snap).2 q1 = (Ret (st, ts), q2) /\
    whole (fun r => ready1 r st ts) q2.
Proof using hash_u32.
  intros [HP Hq Hs Ho Hr Hf]. unfold load_snapshot_quorum, replay_quorum.
  assert (Hne : seq 0 (length (replicas q)) <> []) by (destruct (replicas q); done).
  assert (Hall : forall n, Forall (fun i => i < n)%nat (seq 0 n)) by (intros n; apply Forall_seq; lia).
  destruct (load_best_ok (seq 0 (length (replicas q))) q None false None) as (snap & rs & Hl & Hk);
    [eapply Forall_impl; [exact HP|]; intros r (base & cs & ? & _); by exists base, cs|apply Hall|by left|].
  pose proof (Forall2_length _ _ _ Hk) as Hlen. symmetry in Hlen.
  assert (Hst : Forall (fun r => stored1 r st ts) rs).
  { eapply Forall2_Forall_r; [exact Hk|]. eapply Forall_impl; [exact HP|]. intros r Hr' r' Hk'. by eapply keeps_stored. }
  destruct (replay_best_ok st ts (seq 0 (length rs)) (with_replicas q rs) None None) as (rs' & Hrep & Hlen' & Hready);
    [done|apply NoDup_seq|apply Hall|right; by rewrite Hlen|].
  exists snap, (with_replicas q rs), (with_replicas q rs'). split; [done|]. split; [done|]. cbn in Hlen'.
  constructor; cbn; try done.
  - apply Forall_lookup_2. intros i r Hi. destruct (Hready i r Hi) as [[_ ?]|[Hni _]]; [done|].
    exfalso. apply Hni, elem_of_seq. apply lookup_lt_Some in Hi. lia.
  - rewrite Hq. unfold zlen. lia.
  - destruct rs'; [|done]. cbn in Hlen'. destruct (replicas q); [done|]. cbn in Hlen. lia.
  - by rewrite Hlen', Hlen.
Qed.

Lemma whole_impl (P Q : Replica -> Prop) q : (forall r, P r -> Q r) -> whole P q -> whole Q q.
Proof. intros HPQ []. constructor; try done. by eapply Forall_impl. Qed.

Lemma whole_close (P Q : Replica -> Prop) q :
  (forall r, P r -> Q (close r)) -> whole P q -> whole Q (mkQuorum (close <$> replicas q) (quorum q) [] []).
Proof.
  intros HPQ [HP Hq Hs Ho _ _]. constructor; cbn; try done.
  - apply Forall_fmap. by eapply Forall_impl.
  - by rewrite zlen_fmap.
  - by destruct (replicas q).
  - by rewrite length_fmap.
Qed.

#[export] Instance quorum_restart : Restart QuorumStorage := fun q => mkQuorum (close <$> replicas q) (quorum q) [] [].

#[export] Instance quorum_laws {AL : Allocator} : TxnStorageLaws QuorumStorage (H := quorum_storage hash order) hash.
Proof using hash_u32.
  refine {| stored := fun q st ts => whole (fun r => stored1 r st ts) q;
    ready := fun q st ts => whole (fun r => ready1 r st ts) q;
    settled := whole settled1 |}.
  - intros q st ts [HP _ Hs _ _ _]. destruct (replicas q) as [|r rs]; [done|]. apply Forall_cons in HP as [Hr _]. by eapply ready1_ts.
  - intros q st ts. apply whole_close. intros r [Hr _]. by apply close_stored1.
  - exact open_all.
  - intros q st ts ts' ws Hq Hts Hc. apply quorum_write_all with (P := fun r => ready1 r st ts); [|done].
    intros r Hr. rewrite (ready_then _ r st ts Hr). by apply append1 with (ts := ts).
  - intros q st st' ts Hq Hrows.
    destruct (quorum_write_all (fun r => ready1 r st ts) (fun r => ready1 r (compact ts st') ts /\ settled1 r)
      (OpSnapshot ts st') q) as (q' & Hw & Hq'); [|done|].
    + intros r Hr. rewrite (ready_then _ r st ts Hr). by apply (snapshot1 r st).
    + exists q'. split; [done|]. split; (eapply whole_impl; [|exact Hq']); by intros ? [].
  - intros q st ts Hq Hset. destruct Hset as [Hall _ _ _ _ _].
    apply quorum_write_all with (P := fun r => ready1 r st ts /\ settled1 r).
    + intros r [Hr Hs]. rewrite (ready_then _ r st ts Hr). by apply truncate1.
    + destruct Hq as [HP ? ? ? ? ?]. constructor; try done. by apply Forall_and.
Defined.

End Replica.

End TxnKvSpec.
