(* ===== verification/TxnKvRun.v ===== *)
(** * TxnKvRun: a manager and its transactions against a history of commits

    [step] runs one call of a client on a manager with a pool of open transactions, or stops
    the process and opens the files again.  The specification [spec_step] keeps the list of
    commits instead: a transaction reads the database as of its timestamp and commits when
    no later commit wrote one of its keys.  [run_refines] is proved against the laws of the
    storage. *)

From stdpp Require Import base numbers list list_numbers gmap fin_maps sorting.
From S2P Require Import Prelude Common PageStore TxnKv TxnKvSpec.

Module TxnKvRun.
Import TxnCodec TxnM TxnKvSpec.

Abbreviation writes_t := (gmap (list Z) (option (list Z))) (only parsing).
Abbreviation rows_t := (gmap (list Z) (list Z)) (only parsing).

Implicit Types (t ts : Z) (k : list Z) (w : writes_t) (m : rows_t) (ws : list (list Z * option (list Z))) (st : versions).

(** ** Histories *)

Definition history := list (Z * writes_t).

Definition apply_writes (w : writes_t) (m : rows_t) : rows_t :=
  merge (fun o row => match o with Some o => o | None => row end) w m.

(** The database as of a timestamp. *)
Definition db_at (h : history) (t : Z) : rows_t :=
  foldl (fun m c => if c.1 <=? t then apply_writes c.2 m else m) ∅ h.

(** Did a commit after [t] write [k]? *)
Definition touched (h : history) (t : Z) (k : list Z) : bool :=
  existsb (fun c => (t <? c.1) && bool_decide (is_Some (c.2 !! k))) h.

Arguments apply_writes : simpl never.
Arguments db_at : simpl never.
Arguments touched : simpl never.

Lemma lookup_apply_writes w m k :
  apply_writes w m !! k = match w !! k with Some o => o | None => m !! k end.
Proof. unfold apply_writes. rewrite lookup_merge. by destruct (w !! k), (m !! k). Qed.

Lemma db_at_snoc h c t : db_at (h ++ [c]) t = if c.1 <=? t then apply_writes c.2 (db_at h t) else db_at h t.
Proof. unfold db_at. by rewrite foldl_app. Qed.

Lemma touched_snoc h c t k : touched (h ++ [c]) t k = touched h t k || ((t <? c.1) && bool_decide (is_Some (c.2 !! k))).
Proof. unfold touched. rewrite existsb_app. cbn. by rewrite orb_false_r. Qed.

Definition upto (h : history) (t : Z) : Prop := Forall (fun c => c.1 <= t) h.

Lemma db_at_upto h t t' : upto h t -> t <= t' -> db_at h t' = db_at h t.
Proof.
  intros Hh Ht. unfold db_at. generalize (∅ : rows_t) as m. induction Hh as [|c h Hc _ IH]; intros m; [done|]. cbn.
  by rewrite !(proj2 (Z.leb_le _ _)), IH by lia.
Qed.

Lemma touched_upto h t t' k : upto h t -> t <= t' -> touched h t' k = false.
Proof.
  intros Hh Ht. unfold touched. induction Hh as [|c h Hc _ IH]; [done|]. cbn. by rewrite (proj2 (Z.ltb_ge _ _)), IH by lia.
Qed.

(** ** Versions *)

Lemma push_all_cons ts x ws st : push_all ts (x :: ws) st = push_all ts ws (push_version ts st x).
Proof. done. Qed.

Lemma push_all_other ts ws st k : k ∉ ws.*1 -> push_all ts ws st !! k = st !! k.
Proof.
  revert st. induction ws as [|[k' o] ws IH]; intros st Hk; [done|]. cbn in Hk. apply not_elem_of_cons in Hk as [Hne Hk].
  rewrite push_all_cons, IH by done. unfold push_version. cbn. by rewrite lookup_insert_ne.
Qed.

Lemma push_all_in ts ws st k o :
  NoDup ws.*1 -> (k, o) ∈ ws -> push_all ts ws st !! k = Some (default [] (st !! k) ++ [mkVersion ts o]).
Proof.
  revert st. induction ws as [|[k' o'] ws IH]; intros st Hnd Hin; [by apply not_elem_of_nil in Hin|]. cbn in Hnd.
  apply NoDup_cons in Hnd as [Hk' Hnd]. rewrite push_all_cons. apply elem_of_cons in Hin as [[= -> ->]|Hin].
  - rewrite push_all_other by done. unfold push_version. cbn. by rewrite lookup_insert_eq.
  - rewrite IH by done. unfold push_version. cbn. rewrite lookup_insert_ne; [done|].
    intros ->. apply Hk', list_elem_of_fmap. by exists (k, o).
Qed.

Lemma lookup_push_all ts (w : writes_t) ws st k :
  ws ≡ₚ map_to_list w ->
  push_all ts ws st !! k =
  match w !! k with Some o => Some (default [] (st !! k) ++ [mkVersion ts o]) | None => st !! k end.
Proof.
  intros Hp. assert (Hnd : NoDup ws.*1) by (rewrite Hp; apply NoDup_fst_map_to_list). destruct (w !! k) as [o|] eqn:Hk.
  - apply push_all_in; [done|]. rewrite Hp. by apply elem_of_map_to_list.
  - apply push_all_other. rewrite Hp. intros ([k' o] & -> & Hin%elem_of_map_to_list)%list_elem_of_fmap. cbn in Hk. by rewrite Hk in Hin.
Qed.

Lemma rfind_snoc vs v t : rfind_version (vs ++ [v]) t = if v_commit_ts v <=? t then Some v else rfind_version vs t.
Proof.
  induction vs as [|u vs IH]; cbn; [by case_match|]. rewrite IH. by destruct (v_commit_ts v <=? t).
Qed.

Lemma read_push_all ts w ws st k t :
  ws ≡ₚ map_to_list w ->
  read_at_ts (push_all ts ws st) k t =
  match w !! k with Some o => if ts <=? t then o else read_at_ts st k t | None => read_at_ts st k t end.
Proof.
  intros Hp. unfold read_at_ts. rewrite (lookup_push_all ts w) by done. destruct (w !! k) as [o|]; [|done]. cbn.
  rewrite rfind_snoc. cbn. destruct (ts <=? t); [done|]. by destruct (st !! k).
Qed.

Lemma conflicts_push_all ts w ws st k t :
  ws ≡ₚ map_to_list w ->
  conflicts (push_all ts ws st) t k = match w !! k with Some _ => t <? ts | None => conflicts st t k end.
Proof.
  intros Hp. unfold conflicts. rewrite (lookup_push_all ts w) by done. destruct (w !! k) as [o|]; [|done]. cbn.
  by rewrite last_snoc.
Qed.

Lemma lookup_latest st k : latest st !! k = (vs ← st !! k; v ← last vs; v_value v).
Proof. unfold latest. rewrite lookup_omap. by destruct (st !! k). Qed.

Lemma latest_push_all ts w ws st : ws ≡ₚ map_to_list w -> latest (push_all ts ws st) = apply_writes w (latest st).
Proof.
  intros Hp. apply map_eq. intros k. rewrite lookup_latest, lookup_apply_writes, (lookup_push_all ts w), lookup_latest by done.
  destruct (w !! k) as [o|]; [|done]. cbn. by rewrite last_snoc.
Qed.

(** No version is newer than a timestamp. *)
Definition bounded (st : versions) (ts : Z) : Prop := map_Forall (fun _ vs => Forall (fun v => v_commit_ts v <= ts) vs) st.

Lemma bounded_push_all ts ts' w ws st :
  ws ≡ₚ map_to_list w -> bounded st ts -> ts <= ts' -> bounded (push_all ts' ws st) ts'.
Proof.
  intros Hp Hb Hle k vs. rewrite (lookup_push_all ts' w) by done.
  assert (forall us, st !! k = Some us -> Forall (fun v => v_commit_ts v <= ts') us) as Hst.
  { intros us Hus. eapply Forall_impl; [apply (Hb _ _ Hus)|]. cbn. lia. }
  destruct (w !! k) as [o|]; [|apply Hst]. intros [= <-]. apply Forall_app. split; [|by constructor].
  destruct (st !! k) eqn:Hk; [by apply Hst|constructor].
Qed.

Lemma bounded_compact ts st : bounded (compact ts st) ts.
Proof. intros k vs. unfold compact. rewrite lookup_fmap_Some. intros (v & <- & _). by constructor. Qed.

Lemma latest_compact ts st : latest (compact ts st) = latest st.
Proof.
  apply map_eq. intros k. rewrite lookup_latest. unfold compact. rewrite lookup_fmap. by destruct (latest st !! k).
Qed.

Lemma rfind_last vs t : Forall (fun v => v_commit_ts v <= t) vs -> rfind_version vs t = last vs.
Proof.
  induction vs as [|v vs IH] using rev_ind; [done|]. rewrite Forall_app, Forall_singleton. intros [_ Hv].
  by rewrite rfind_snoc, last_snoc, (proj2 (Z.leb_le _ _)).
Qed.

Lemma read_bounded st ts k t : bounded st ts -> ts <= t -> read_at_ts st k t = latest st !! k.
Proof.
  intros Hb Ht. unfold read_at_ts. rewrite lookup_latest. destruct (st !! k) as [vs|] eqn:Hk; [|done]. cbn.
  rewrite rfind_last; [done|]. eapply Forall_impl; [apply (Hb _ _ Hk)|]. cbn. lia.
Qed.

Lemma conflicts_bounded st ts k t : bounded st ts -> ts <= t -> conflicts st t k = false.
Proof.
  intros Hb Ht. unfold conflicts. destruct (st !! k) as [vs|] eqn:Hk; [|done]. cbn.
  destruct (last vs) as [v|] eqn:Hl; [|done]. apply last_Some_elem_of in Hl.
  pose proof (proj1 (Forall_forall _ _) (Hb _ _ Hk) _ Hl). cbn in *. apply Z.ltb_ge. lia.
Qed.

(** ** Calls *)

Inductive call :=
| CBegin (i : nat) (now : Z) (read_only : bool) (timeout : option Z)
| CPut (i : nat) (now : Z) (key value : bytes)
| CDelete (i : nat) (now : Z) (key : bytes)
| CGet (i : nat) (now : Z) (key : bytes)
| CScan (i : nat) (now : Z) (start end_ : bytes) (limit : Z)
| CCommit (i : nat) (now : Z)
| CCheckpoint
| CReopen.

Inductive answer :=
| NoTxn
| Done
| AValue (o : option (list Z))
| ARows (rows : list (list Z * list Z))
| Committed (ts : Z).

Definition pool := gmap nat Txn.

(** A call on one transaction of the pool. *)
Definition with_tx {X} (txs : pool) (i : nat) (s : X) (f : Txn -> outcome TxnError answer * X) : outcome TxnError answer * X :=
  match txs !! i with Some tx => f tx | None => (Ret NoTxn, s) end.

Definition edited (txs : pool) (i : nat) (r : outcome TxnError Txn) : outcome TxnError answer * pool :=
  match r with
  | Ret tx => (Ret Done, <[i := tx]> txs)
  | Fail e => (Fail e, txs)
  | Panic => (Panic, txs)
  | Spin => (Spin, txs)
  end.

(** ** The specification *)

Record spec := mkSpec { sp_history : history; sp_ts : Z; sp_txs : pool }.

Definition spec_get (now : Z) (tx : Txn) (db : rows_t) (key : bytes) : outcome TxnError (option (list Z)) :=
  _ ← ensure_not_timed_out now tx;
  key ← parse_key key;
  Ret (apply_writes (tx_writes tx) db !! key).

Definition spec_scan (now : Z) (tx : Txn) (db : rows_t) (start end_ : bytes) (limit : Z) :
    outcome TxnError (list (list Z * list Z)) :=
  _ ← ensure_not_timed_out now tx;
  if limit =? 0 then Ret [] else
  start ← parse_key start;
  end_ ← parse_key end_;
  if bytes_eqb start end_ then Ret [] else
  if bytes_ltb end_ start then Panic else
  Ret (take (Z.to_nat limit) (merge_sort key_le
    (map_to_list (filter (fun kv => in_range start end_ kv.1 = true) (apply_writes (tx_writes tx) db))))).

Definition spec_commit (now : Z) (tx : Txn) (s : spec) : outcome TxnError answer * spec :=
  match ensure_not_timed_out now tx with
  | Ret _ =>
      if tx_read_only tx || bool_decide (tx_writes tx = ∅) then (Ret (Committed (tx_read_ts tx)), s) else
      if bool_decide (map_Forall (fun k _ => touched (sp_history s) (tx_read_ts tx) k = false) (tx_writes tx)) then
        (Ret (Committed (sp_ts s + 1)), mkSpec (sp_history s ++ [(sp_ts s + 1, tx_writes tx)]) (sp_ts s + 1) (sp_txs s))
      else (Fail WriteWriteConflict, s)
  | Fail e => (Fail e, s)
  | Panic => (Panic, s)
  | Spin => (Spin, s)
  end.

Definition set_txs (s : spec) (txs : pool) : spec := mkSpec (sp_history s) (sp_ts s) txs.

Definition spec_step (c : call) (s : spec) : outcome TxnError answer * spec :=
  let edit i (f : Txn -> outcome TxnError Txn) :=
    with_tx (sp_txs s) i s (fun tx => let '(a, txs) := edited (sp_txs s) i (f tx) in (a, set_txs s txs)) in
  match c with
  | CBegin i now ro timeout =>
      (Ret Done, set_txs s (<[i := {| tx_read_ts := sp_ts s; tx_started_at := now; tx_timeout := timeout;
                                     tx_writes := ∅; tx_read_only := ro |}]> (sp_txs s)))
  | CPut i now key value => edit i (put now key value)
  | CDelete i now key => edit i (delete now key)
  | CGet i now key => with_tx (sp_txs s) i s (fun tx => (AValue <$> spec_get now tx (db_at (sp_history s) (tx_read_ts tx)) key, s))
  | CScan i now start end_ limit =>
      with_tx (sp_txs s) i s (fun tx => (ARows <$> spec_scan now tx (db_at (sp_history s) (tx_read_ts tx)) start end_ limit, s))
  | CCommit i now => with_tx (sp_txs s) i s (fun tx => spec_commit now tx (set_txs s (base.delete i (sp_txs s))))
  | CCheckpoint => (Ret Done, s)
  | CReopen => (Ret Done, set_txs s ∅)
  end.

Section Run.
Context {S : Type} {TS : TxnStorage S} {TR : Restart S} (hash : bytes -> Z).

(** The order in which a [HashMap] is walked is some order of its entries. *)
Context (walk : writes_t -> list (list Z * option (list Z))).

(** ** The code *)

Definition step (c : call) (s : TxnManager S * pool) : outcome TxnError answer * (TxnManager S * pool) :=
  let '(tm, txs) := s in
  let edit i (f : Txn -> outcome TxnError Txn) :=
    with_tx txs i s (fun tx => let '(a, txs) := edited txs i (f tx) in (a, (tm, txs))) in
  match c with
  | CBegin i now ro timeout => (Ret Done, (tm, <[i := begin_tx now ro timeout tm]> txs))
  | CPut i now key value => edit i (put now key value)
  | CDelete i now key => edit i (delete now key)
  | CGet i now key => with_tx txs i s (fun tx => (AValue <$> get now tx (tm_store tm) key, s))
  | CScan i now start end_ limit => with_tx txs i s (fun tx => (ARows <$> scan now tx (tm_store tm) start end_ limit, s))
  | CCommit i now =>
      with_tx txs i s (fun tx =>
        let '(a, tm) := commit hash now tx (walk (tx_writes tx)) tm in (Committed <$> a, (tm, base.delete i txs)))
  | CCheckpoint => let '(a, tm) := checkpoint tm in ((fun _ => Done) <$> a, (tm, txs))
  | CReopen =>
      match open_with_storage (restart (tm_storage tm)) with
      | Ret tm => (Ret Done, (tm, ∅))
      | Fail e => (Fail e, s)
      | Panic => (Panic, s)
      | Spin => (Spin, s)
      end
  end.

Fixpoint run {X} (f : call -> X -> outcome TxnError answer * X) (cs : list call) (s : X) : list (outcome TxnError answer) :=
  match cs with
  | [] => []
  | c :: cs => let '(a, s) := f c s in a :: run f cs s
  end.

(** ** The simulation *)

Context {L : TxnStorageLaws S hash} (walk_perm : forall w, walk w ≡ₚ map_to_list w).

Definition tx_ok (K : gset (list Z)) (floor : Z) (tx : Txn) : Prop :=
  floor <= tx_read_ts tx /\ map_Forall (fun k o => write_ok (k, o) /\ k ∈ K) (tx_writes tx).

(** From [floor] on, the versions in memory are those of the history. *)
Record mirrors (h : history) (floor : Z) (st : versions) : Prop := {
  mirrors_read : forall t k, floor <= t -> read_at_ts st k t = db_at h t !! k;
  mirrors_conflicts : forall t k, floor <= t -> conflicts st t k = touched h t k
}.

(** [n] bounds the number of calls so far, [K] holds the keys they wrote. *)
Record matches (n : Z) (K : gset (list Z)) (s : TxnManager S * pool) (p : spec) : Prop := {
  matches_txs : sp_txs p = s.2;
  matches_ts : sp_ts p = tm_commit_ts s.1;
  matches_n : 0 <= sp_ts p <= n;
  matches_upto : upto (sp_history p) (sp_ts p);
  matches_bounded : bounded (tm_store s.1) (sp_ts p);
  matches_mirrors : exists floor, floor <= sp_ts p /\ mirrors (sp_history p) floor (tm_store s.1) /\ map_Forall (fun _ => tx_ok K floor) s.2;
  matches_storage : exists st, ready (tm_storage s.1) st (sp_ts p) /\ bounded st (sp_ts p) /\ latest st = db_at (sp_history p) (sp_ts p);
  matches_size : Z.of_nat (size K) <= n;
  matches_rows : map_Forall (fun k v => row_ok (k, v) /\ k ∈ K) (db_at (sp_history p) (sp_ts p))
}.

Lemma get_refines h floor st now tx key K :
  mirrors h floor st -> tx_ok K floor tx -> get now tx st key = spec_get now tx (db_at h (tx_read_ts tx)) key.
Proof.
  intros Hm [Hf _]. unfold get, spec_get. destruct (ensure_not_timed_out now tx) as [[]| | |]; [|done..]. obind.
  destruct (parse_key key) as [k| | |]; [|done..]. obind. rewrite lookup_apply_writes.
  destruct (tx_writes tx !! k); [done|]. by rewrite (mirrors_read _ _ _ Hm).
Qed.

Lemma overlay_visible h floor st tx start end_ K :
  mirrors h floor st -> tx_ok K floor tx ->
  overlay start end_ (tx_writes tx) (visible st (tx_read_ts tx) start end_) =
  filter (fun kv => in_range start end_ kv.1 = true) (apply_writes (tx_writes tx) (db_at h (tx_read_ts tx))).
Proof.
  intros Hm [Hf _]. apply map_eq. intros k. unfold overlay, visible. rewrite lookup_merge, !map_lookup_filter, lookup_apply_writes, map_lookup_imap.
  pose proof (mirrors_read _ _ _ Hm (tx_read_ts tx) k Hf) as Hr. unfold read_at_ts in Hr. rewrite <-Hr.
  destruct (tx_writes tx !! k) as [[v|]|]; destruct (st !! k) as [vs|]; cbn; destruct (in_range start end_ k) eqn:Hin; cbn;
    repeat case_guard; try done; try (by destruct (rfind_version vs _ ≫= v_value)).
Qed.

Lemma scan_refines h floor st now tx start end_ limit K :
  mirrors h floor st -> tx_ok K floor tx ->
  scan now tx st start end_ limit = spec_scan now tx (db_at h (tx_read_ts tx)) start end_ limit.
Proof.
  intros Hm Htx. unfold scan, spec_scan. destruct (ensure_not_timed_out now tx) as [[]| | |]; [|done..]. obind.
  destruct (limit =? 0); [done|]. destruct (parse_key start) as [a| | |]; [|done..]. obind.
  destruct (parse_key end_) as [b| | |]; [|done..]. obind. by rewrite (overlay_visible h floor st tx a b K).
Qed.

Lemma mirrors_commit h floor st ts w :
  mirrors h floor st -> upto h ts -> mirrors (h ++ [(ts + 1, w)]) floor (push_all (ts + 1) (walk w) st).
Proof using walk_perm.
  intros Hm Hu. split; intros t k Ht.
  - rewrite (read_push_all _ w) by apply walk_perm. rewrite db_at_snoc, (mirrors_read _ _ _ Hm) by done. cbn.
    destruct (ts + 1 <=? t); [rewrite lookup_apply_writes|]; by destruct (w !! k).
  - rewrite (conflicts_push_all _ w) by apply walk_perm. rewrite touched_snoc, (mirrors_conflicts _ _ _ Hm) by done. cbn.
    destruct (w !! k) as [o|]; cbn; [|by rewrite andb_false_r, orb_false_r]. rewrite andb_true_r.
    destruct (Z.ltb_spec t (ts + 1)); [by rewrite orb_true_r|]. by rewrite (touched_upto h ts) by (done || lia).
Qed.

Lemma mirrors_reopen h ts st :
  upto h ts -> bounded st ts -> latest st = db_at h ts -> mirrors h ts st.
Proof.
  intros Hu Hb Hl. split; intros t k Ht.
  - rewrite (read_bounded st ts), Hl by done. by rewrite (db_at_upto h ts t).
  - by rewrite (conflicts_bounded st ts), (touched_upto h ts).
Qed.

Lemma matches_pool n n' K K' tm txs txs' p :
  matches n K (tm, txs) p -> n <= n' -> K ⊆ K' -> Z.of_nat (size K') <= n' ->
  (forall floor, floor <= sp_ts p -> map_Forall (fun _ => tx_ok K floor) txs -> map_Forall (fun _ => tx_ok K' floor) txs') ->
  matches n' K' (tm, txs') (set_txs p txs').
Proof.
  intros [Ht Hts Hn Hu Hb Hm Hst Hsz Hr] Hle HK HK' Htxs. constructor; cbn; try done; [lia| |].
  - destruct Hm as (floor & Hf & Hm & Htx). exists floor. split; [done|]. split; [done|]. by apply Htxs.
  - intros k v Hk. destruct (Hr k v Hk) as [? HkK]. split; [done|]. by apply HK.
Qed.

Lemma tx_ok_mono K K' floor tx : K ⊆ K' -> tx_ok K floor tx -> tx_ok K' floor tx.
Proof. intros HK [? Hw]. split; [done|]. intros k o Hk. destruct (Hw k o Hk). split; [done|]. by apply HK. Qed.

Lemma matches_delete n K tm txs p i :
  matches n K (tm, txs) p -> matches (n + 1) K (tm, base.delete i txs) (set_txs p (base.delete i txs)).
Proof.
  intros Hm. pose proof (matches_size _ _ _ _ Hm). eapply matches_pool; [exact Hm|lia|done|lia|].
  intros floor _ Htx j tx Hj. apply lookup_delete_Some in Hj as [_ Hj]. by apply (Htx j).
Qed.

Lemma size_add (K : gset (list Z)) k : (size ({[k]} ∪ K) <= Datatypes.S (size K))%nat.
Proof.
  rewrite size_union_alt, size_singleton. assert (size (K ∖ {[k]}) <= size K)%nat by (apply subseteq_size; set_solver). lia.
Qed.

Lemma walk_nodup w : NoDup (walk w).*1.
Proof using walk_perm. rewrite walk_perm. apply NoDup_fst_map_to_list. Qed.

Lemma walk_conflicts h floor st tx K :
  mirrors h floor st -> tx_ok K floor tx ->
  existsb (fun x => conflicts st (tx_read_ts tx) x.1) (walk (tx_writes tx)) =
  negb (bool_decide (map_Forall (fun k _ => touched h (tx_read_ts tx) k = false) (tx_writes tx))).
Proof using walk_perm.
  intros Hm [Hf _]. apply eq_true_iff_eq. rewrite existsb_exists, negb_true_iff, bool_decide_eq_false. split.
  - intros ([k o] & Hin%list_elem_of_In & Hc). rewrite walk_perm in Hin. apply elem_of_map_to_list in Hin. cbn in Hc.
    intros Hall. rewrite (mirrors_conflicts _ _ _ Hm) in Hc by done. by rewrite (Hall k o Hin) in Hc.
  - intros Hn. destruct (existsb (fun x => conflicts st (tx_read_ts tx) x.1) (map_to_list (tx_writes tx))) eqn:He.
    + apply existsb_exists in He as (x & Hin & Hc). exists x. split; [|done]. apply list_elem_of_In. rewrite walk_perm. by apply list_elem_of_In.
    + exfalso. apply Hn. intros k o Hk. rewrite <-(mirrors_conflicts _ _ _ Hm) by done. apply not_true_iff_false. intros Hc.
      apply not_true_iff_false in He. apply He, existsb_exists. exists (k, o). split; [|done].
      by apply list_elem_of_In, elem_of_map_to_list.
Qed.

Lemma walk_ok n K floor tx ts :
  tx_ok K floor tx -> Z.of_nat (size K) <= n -> 12 + MAX_OP * (n + 1) < U32 -> 0 <= ts <= n ->
  commit_ok (ts + 1, walk (tx_writes tx)).
Proof using walk_perm.
  intros [_ Hw] Hsz Hn Hts. split; [cbn; unfold MAX_OP, U32, U64 in *; lia|]. split; cbn.
  - rewrite walk_perm. apply Forall_forall. intros [k o] Hin%elem_of_map_to_list. by apply Hw.
  - assert (zlen (walk (tx_writes tx)) <= n); [|unfold MAX_OP in *; lia]. unfold zlen.
    rewrite walk_perm, length_map_to_list, <-size_dom. etrans; [|exact Hsz]. apply Nat2Z.inj_le, subseteq_size.
    intros k [o Hk]%elem_of_dom. by apply (Hw k o).
Qed.

(** A commit that passes its checks: the record is in the log, the versions in the store. *)
Lemma commit_succeeds n K tm txs p tx floor :
  matches n K (tm, txs) p -> 12 + MAX_OP * (n + 1) < U32 ->
  floor <= sp_ts p -> mirrors (sp_history p) floor (tm_store tm) -> map_Forall (fun _ => tx_ok K floor) txs -> tx_ok K floor tx ->
  map_Forall (fun k _ => touched (sp_history p) (tx_read_ts tx) k = false) (tx_writes tx) ->
  exists tm', ('(commit_ts, record) ← commit_begin hash tx (walk (tx_writes tx));
               _ ← on_storage (append_wal_record record); _ ← commit_end commit_ts (walk (tx_writes tx)); mret commit_ts) tm =
              (Ret (sp_ts p + 1), tm') /\
    matches (n + 1) K (tm', txs) (mkSpec (sp_history p ++ [(sp_ts p + 1, tx_writes tx)]) (sp_ts p + 1) txs).
Proof using walk_perm.
  intros [Ht Hts Hn Hu Hb _ (st & Hst & Hbst & Hl) Hsz Hr] Hlim Hf Hm Htxs Htx Hall. cbn in *.
  pose proof (walk_ok n K floor tx (sp_ts p) Htx Hsz Hlim Hn) as Hok.
  unfold commit_begin at 1. rewrite Hts in *.
  rewrite (st_bind_ret _ _ _ (tm_commit_ts tm + 1, record_bytes hash (tm_commit_ts tm + 1, walk (tx_writes tx)))
    (mkManager (tm_store tm) (tm_commit_ts tm + 1) (tm_storage tm))).
  2:{ rewrite st_bind_gets. cbn [id]. rewrite (walk_conflicts _ _ _ _ _ Hm Htx), bool_decide_eq_true_2 by done. cbn [negb].
      unfold wrap64. rewrite Z.mod_small by (unfold MAX_OP, U32, U64 in *; lia). rewrite st_bind_modify.
      rewrite (st_bind_lift _ _ _ _ (encode_payload_ok _ Hok)). done. }
  destruct (append_law (tm_storage tm) st (tm_commit_ts tm) (tm_commit_ts tm + 1) (walk (tx_writes tx)) Hst) as (s' & Happ & Hready);
    [lia|done|].
  rewrite (st_bind_ret _ _ _ tt (mkManager (tm_store tm) (tm_commit_ts tm + 1) s')) by (unfold on_storage; cbn [tm_storage tm_store tm_commit_ts]; by rewrite Happ).
  unfold commit_end. rewrite st_bind_modify. eexists. split; [reflexivity|].
  assert (Hdb : db_at (sp_history p ++ [(tm_commit_ts tm + 1, tx_writes tx)]) (tm_commit_ts tm + 1) =
    apply_writes (tx_writes tx) (db_at (sp_history p) (tm_commit_ts tm))).
  { rewrite db_at_snoc. cbn. rewrite Z.leb_refl. by rewrite (db_at_upto _ _ _ Hu) by lia. }
  constructor; cbn; try done; [lia| | | | |lia|].
  - apply Forall_app. split; [|by constructor]. eapply Forall_impl; [exact Hu|]. cbn. lia.
  - eapply bounded_push_all; [apply walk_perm|exact Hb|lia].
  - exists floor. split; [lia|]. split; [by apply mirrors_commit|done].
  - exists (push_all (tm_commit_ts tm + 1) (walk (tx_writes tx)) st). split; [done|].
    split; [eapply bounded_push_all; [apply walk_perm|exact Hbst|lia]|].
    rewrite (latest_push_all _ (tx_writes tx)), Hl by apply walk_perm. done.
  - rewrite Hdb. intros k v. rewrite lookup_apply_writes. destruct (tx_writes tx !! k) as [o|] eqn:Hk; [|apply Hr].
    intros ->. destruct (proj2 Htx k (Some v) Hk) as [[? ?] ?]. done.
Qed.

Lemma commit_refines n K tm txs p now tx i :
  matches n K (tm, txs) p -> txs !! i = Some tx -> 12 + MAX_OP * (n + 1) < U32 ->
  exists a tm' p', commit hash now tx (walk (tx_writes tx)) tm = (a, tm') /\
    spec_commit now tx (set_txs p (base.delete i txs)) = (Committed <$> a, p') /\
    matches (n + 1) K (tm', base.delete i txs) p'.
Proof using walk_perm.
  intros Hm Hi Hlim. pose proof (matches_delete n K tm txs p i Hm) as Hdel.
  pose proof (matches_mirrors _ _ _ _ Hm) as (floor & Hf & Hmir & Htxs). cbn in Hmir, Htxs.
  pose proof (Htxs i tx Hi) as Htx. unfold commit, spec_commit.
  assert (ensure_not_timed_out now tx = Fail TTxnTimeout \/ exists u, ensure_not_timed_out now tx = Ret u) as Hcases.
  { unfold ensure_not_timed_out. destruct (tx_timeout tx); [case_match|]; eauto. }
  destruct (ensure_not_timed_out now tx) as [u|e| |] eqn:He.
  2:{ exists (Fail e), tm, (set_txs p (base.delete i txs)). by unfold lift, mbind, st_bind. }
  2,3: by destruct Hcases as [|[]].
  rewrite (st_bind_lift _ _ _ u) by done. cbn [sp_history sp_ts sp_txs set_txs].
  destruct (tx_read_only tx || bool_decide (tx_writes tx = ∅)).
  { by exists (Ret (tx_read_ts tx)), tm, (set_txs p (base.delete i txs)). }
  case_bool_decide as Hall.
  - assert (Hm' : matches n K (tm, base.delete i txs) (set_txs p (base.delete i txs))).
    { pose proof (matches_size _ _ _ _ Hm). eapply matches_pool; [exact Hm|lia|done|lia|].
      intros fl _ Hfl j x Hj. apply lookup_delete_Some in Hj as [_ Hj]. by apply (Hfl j). }
    destruct (commit_succeeds n K tm (base.delete i txs) (set_txs p (base.delete i txs)) tx floor Hm' Hlim Hf Hmir) as (tm' & Hc & Hm'');
      [|done..|].
    { intros j x Hj. apply lookup_delete_Some in Hj as [_ Hj]. by apply (Htxs j). }
    exists (Ret (sp_ts p + 1)), tm'. eexists. split; [exact Hc|]. by split.
  - exists (Fail WriteWriteConflict), tm, (set_txs p (base.delete i txs)). split; [|done].
    unfold commit_begin. unfold mbind at 1, st_bind at 1. rewrite st_bind_gets. cbn [id].
    rewrite (walk_conflicts _ _ _ _ _ Hmir Htx), bool_decide_eq_false_2 by done. done.
Qed.

Lemma checkpoint_refines n K tm txs p :
  matches n K (tm, txs) p -> 12 + MAX_OP * (n + 1) < U32 ->
  exists tm', checkpoint tm = (Ret tt, tm') /\ matches (n + 1) K (tm', txs) p.
Proof.
  intros [Ht Hts Hn Hu Hb Hm (st & Hst & Hbst & Hl) Hsz Hr] Hlim. cbn in *.
  assert (Hlat : latest (tm_store tm) = db_at (sp_history p) (sp_ts p)).
  { destruct Hm as (floor & Hf & Hm & _). apply map_eq. intros k. rewrite <-(read_bounded (tm_store tm) (sp_ts p) k (sp_ts p)) by done.
    by apply mirrors_read with floor. }
  assert (Hrows : rows_ok (tm_store tm)).
  { split; rewrite Hlat; [intros k v Hk; by apply Hr|]. rewrite <-size_dom.
    assert (size (dom (db_at (sp_history p) (sp_ts p))) <= size K)%nat; [|unfold MAX_OP, U32 in *; lia].
    apply subseteq_size. intros k [v Hk]%elem_of_dom. by apply (Hr k v). }
  rewrite Hts in *.
  destruct (snapshot_law (tm_storage tm) st (tm_store tm) (tm_commit_ts tm) Hst Hrows) as (s1 & Hw & Hready & Hset).
  destruct (truncate_law s1 _ _ Hready Hset) as (s2 & Htr & Hready2).
  exists (mkManager (tm_store tm) (tm_commit_ts tm) s2). split.
  - unfold checkpoint. rewrite st_bind_gets. cbn [id].
    rewrite (st_bind_ret _ _ _ tt (mkManager (tm_store tm) (tm_commit_ts tm) s1)) by (unfold on_storage; by rewrite Hw).
    unfold on_storage. cbn [tm_storage tm_store tm_commit_ts]. by rewrite Htr.
  - constructor; cbn; rewrite ?Hts; try done; [lia| |lia].
    exists (compact (tm_commit_ts tm) (tm_store tm)). split; [done|]. split; [apply bounded_compact|]. by rewrite latest_compact.
Qed.

Lemma open_refines s st ts :
  stored s st ts -> exists s', open_with_storage s = Ret (mkManager st ts s') /\ ready s' st ts.
Proof.
  intros Hs. destruct (open_law s st ts Hs) as (snap & s1 & s2 & Hl & Hr & Hready). exists s2. split; [|done].
  unfold open_with_storage. rewrite Hl. obind. destruct (default (∅, 0) snap) as [bst bts]. cbn [fst snd] in Hr. by rewrite Hr.
Qed.

Lemma reopen_refines n K tm txs p :
  matches n K (tm, txs) p ->
  exists tm', open_with_storage (restart (tm_storage tm)) = Ret tm' /\ matches (n + 1) K (tm', ∅) (set_txs p ∅).
Proof.
  intros [Ht Hts Hn Hu Hb Hm (st & Hst & Hbst & Hl) Hsz Hr]. cbn in *.
  destruct (open_refines _ _ _ (restart_stored _ _ _ Hst)) as (s' & -> & Hready). eexists. split; [reflexivity|].
  constructor; cbn; try done; [lia| | |lia].
  - exists (sp_ts p). split; [done|]. split; [by apply mirrors_reopen|]. apply map_Forall_empty.
  - by exists st.
Qed.

Lemma set_write_ok K floor tx k o :
  tx_ok K floor tx -> write_ok (k, o) -> tx_ok ({[k]} ∪ K) floor (set_write k o tx).
Proof.
  intros [Hf Hw] Ho. split; [done|]. cbn. apply map_Forall_insert_2; [set_solver|]. intros k' o' Hk'.
  destruct (Hw k' o' Hk'). set_solver.
Qed.

(** A call that edits the write set of a transaction. *)
Lemma edit_refines n K tm txs p i tx (r : outcome TxnError Txn) :
  matches n K (tm, txs) p -> txs !! i = Some tx ->
  match r with Ret tx' => exists k o, tx' = set_write k o tx /\ write_ok (k, o) | _ => True end ->
  exists K', matches (n + 1) K' (tm, (edited txs i r).2) (set_txs p (edited txs i r).2).
Proof.
  intros Hm Hi Hr. pose proof (matches_size _ _ _ _ Hm).
  assert (Hsame : matches (n + 1) K (tm, txs) (set_txs p txs)) by (eapply matches_pool; [exact Hm|lia|done|lia|done]).
  destruct r as [tx'|e| |]; [|by exists K..]. destruct Hr as (k & o & -> & Ho). exists ({[k]} ∪ K).
  pose proof (size_add K k). eapply matches_pool; [exact Hm|lia|set_solver|lia|]. cbn. intros floor _ Htxs.
  apply map_Forall_insert_2; [apply set_write_ok; [by apply (Htxs i)|done]|]. intros j x Hj. eapply tx_ok_mono; [|by apply (Htxs j)]. set_solver.
Qed.

Lemma put_edits now k v tx :
  match put now k v tx with Ret tx' => exists k o, tx' = set_write k o tx /\ write_ok (k, o) | _ => True end.
Proof.
  unfold put. destruct (ensure_not_timed_out now tx) as [[]| | |]; [|done..]. obind. unfold parse_key.
  destruct (Z.eqb_spec (zlen k) KEY_SIZE); [|done]. cbn [negb]. obind. destruct (VALUE_SIZE <? zlen v) eqn:Hv; [done|]. apply Z.ltb_ge in Hv.
  by exists k, (Some v).
Qed.

Lemma delete_edits now k tx :
  match delete now k tx with Ret tx' => exists k o, tx' = set_write k o tx /\ write_ok (k, o) | _ => True end.
Proof.
  unfold delete. destruct (ensure_not_timed_out now tx) as [[]| | |]; [|done..]. obind. unfold parse_key.
  destruct (Z.eqb_spec (zlen k) KEY_SIZE); [|done]. cbn [negb]. obind. by exists k, None.
Qed.

Lemma matches_step n K s p : matches n K s p -> matches (n + 1) K s p.
Proof. intros []. constructor; try done; lia. Qed.

Lemma step_refines n K s p c :
  matches n K s p -> 12 + MAX_OP * (n + 1) < U32 ->
  (step c s).1 = (spec_step c p).1 /\ exists K', matches (n + 1) K' (step c s).2 (spec_step c p).2.
Proof using walk_perm.
  destruct s as [tm txs]. intros Hm Hlim. pose proof (matches_txs _ _ _ _ Hm) as Htxs. cbn in Htxs.
  pose proof (matches_mirrors _ _ _ _ Hm) as (floor & Hf & Hmir & Hall). cbn in Hmir, Hall.
  pose proof (matches_step _ _ _ _ Hm) as Hm1.
  assert (Hedit : forall i f, (forall tx, match f tx with Ret tx' => exists k o, tx' = set_write k o tx /\ write_ok (k, o) | _ => True end) ->
    let a := with_tx txs i (tm, txs) (fun tx => let '(a, txs) := edited txs i (f tx) in (a, (tm, txs))) in
    let b := with_tx txs i p (fun tx => let '(a, txs) := edited txs i (f tx) in (a, set_txs p txs)) in
    a.1 = b.1 /\ exists K', matches (n + 1) K' a.2 b.2).
  { intros i f Hok. unfold with_tx. destruct (txs !! i) as [tx|] eqn:Hi; [|split; [done|by exists K]].
    destruct (edit_refines n K tm txs p i tx (f tx) Hm Hi (Hok tx)) as [K' HK']. destruct (edited txs i (f tx)) as [a txs'].
    split; [done|by exists K']. }
  destruct c as [i now ro tmo|i now k v|i now k|i now k|i now a b l|i now| |]; cbn [step spec_step]; rewrite ?Htxs.
  - split; [done|]. exists K. cbn. pose proof (matches_size _ _ _ _ Hm). unfold begin_tx.
    rewrite <-(matches_ts _ _ _ _ Hm : _ = tm_commit_ts tm). eapply matches_pool; [exact Hm|lia|done|lia|].
    intros fl Hfl Hpool. apply map_Forall_insert_2; [|done]. split; [done|apply map_Forall_empty].
  - apply Hedit, put_edits.
  - apply Hedit, delete_edits.
  - unfold with_tx. destruct (txs !! i) as [tx|] eqn:Hi; [|split; [done|by exists K]]. split; [|by exists K]. cbn.
    by rewrite (get_refines _ _ _ now tx k K Hmir) by (by apply (Hall i)).
  - unfold with_tx. destruct (txs !! i) as [tx|] eqn:Hi; [|split; [done|by exists K]]. split; [|by exists K]. cbn.
    by rewrite (scan_refines _ _ _ now tx a b l K Hmir) by (by apply (Hall i)).
  - unfold with_tx. destruct (txs !! i) as [tx|] eqn:Hi; [|split; [done|by exists K]].
    destruct (commit_refines n K tm txs p now tx i Hm Hi Hlim) as (r & tm' & p' & -> & -> & Hm'). split; [done|by exists K].
  - destruct (checkpoint_refines n K tm txs p Hm Hlim) as (tm' & -> & Hm'). split; [done|by exists K].
  - destruct (reopen_refines n K tm txs p Hm) as (tm' & -> & Hm'). split; [done|by exists K].
Qed.

Lemma run_refines cs : forall n K s p,
  matches n K s p -> 12 + MAX_OP * (n + zlen cs) < U32 -> run step cs s = run spec_step cs p.
Proof using walk_perm.
  induction cs as [|c cs IH]; intros n K s p Hm Hlim; [done|]. rewrite zlen_cons in Hlim. cbn [run].
  pose proof (zlen_nonneg cs). destruct (step_refines n K s p c Hm) as [Ha [K' Hm']]; [unfold MAX_OP in *; lia|].
  destruct (step c s) as [a s'], (spec_step c p) as [a' p']. cbn in Ha, Hm'. subst a'. f_equal.
  apply (IH (n + 1) K'); [done|unfold MAX_OP in *; lia].
Qed.

Lemma matches_open s :
  stored s ∅ 0 -> exists tm, open_with_storage s = Ret tm /\ matches 0 ∅ (tm, ∅) (mkSpec [] 0 ∅).
Proof.
  intros Hs. destruct (open_refines s ∅ 0 Hs) as (s' & -> & Hready). eexists. split; [reflexivity|].
  assert (Hb : bounded ∅ 0) by apply map_Forall_empty.
  constructor; cbn; try done.
  - constructor.
  - exists 0. split; [done|]. split; [|apply map_Forall_empty]. apply mirrors_reopen; [constructor|done..].
  - exists ∅. done.
Qed.

End Run.

End TxnKvRun.
