(* ===== verification/TxnKvProps.v ===== *)
(** * TxnKvProps: what the transactional store promises

    With a quorum of all replicas and no faults, a manager gives its clients snapshot
    isolation over a history of commits that survives checkpoints and restarts.  On any
    bytes the log reader returns the commits in front of the first bytes that are no record.  Three runs show where the promise breaks:
    a transaction begun while a commit is being logged, an append that comes late to a
    replica outside the quorum, and an append after a failed one. *)

From stdpp Require Import base numbers list list_numbers gmap fin_maps sorting.
From S2P Require Import Prelude Common PageStore TxnKv TxnKvSpec TxnKvRun.

Module TxnKvProps.
Import TxnCodec LocalStorage QuorumM TxnM TxnKvSpec TxnKvRun.

(** ** Replay on any bytes *)

(** What is read from bytes is what was printed. *)
Lemma read_int_cases n p a :
  wf_bytes p -> 0 <= a -> a + Z.of_nat n <= zlen p ->
  exists v, read_int n p a = Ret v /\ 0 <= v < 256 ^ Z.of_nat n /\ sub a (Z.of_nat n) p = le_bytes n v.
Proof.
  intros Hp Ha Hn. unfold read_int. rewrite get_range_ok by lia. obind. eexists. split; [reflexivity|].
  replace (a + Z.of_nat n - a) with (Z.of_nat n) by lia. pose proof (wf_sub a (Z.of_nat n) p Hp) as Hw.
  pose proof (zlen_sub a (Z.of_nat n) p ltac:(lia) ltac:(lia) ltac:(lia)) as Hl.
  pose proof (le_val_bound _ Hw) as Hb. rewrite Hl in Hb. split; [exact Hb|].
  symmetry. apply le_bytes_val; [exact Hw|]. unfold zlen in Hl. lia.
Qed.

Lemma sub_byte p a : 0 <= a < zlen p -> sub a 1 p = [at0 a p].
Proof.
  intros Ha. unfold sub, at0. destruct (lookup_lt_is_Some_2 p (Z.to_nat a)) as [x Hx]; [unfold zlen in *; lia|].
  rewrite Hx, (drop_S _ _ _ Hx). done.
Qed.

Lemma decode_op_cases p cursor :
  wf_bytes p -> 0 <= cursor ->
  (exists w c, decode_op p cursor = Ret (w, c) /\ cursor < c <= zlen p /\ write_ok w /\ sub cursor (c - cursor) p = op_bytes w) \/
  exists e, decode_op p cursor = Fail e.
Proof.
  intros Hp Hc. unfold decode_op. destruct (Z.ltb_spec (zlen p) (cursor + KEY_SIZE + 1)) as [|Hl]; [by right; eexists|].
  unfold KEY_SIZE in *. rewrite get_range_ok by lia. obind. rewrite get_at_ok by lia. obind.
  replace (cursor + 16 - cursor) with 16 by lia.
  assert (Hk : zlen (sub cursor 16 p) = 16) by (rewrite zlen_sub; lia).
  pose proof (sub_byte p (cursor + 16) ltac:(lia)) as Hop.
  destruct (Z.eqb_spec (at0 (cursor + 16) p) 0) as [E|_].
  { left. do 2 eexists. split_and!; [reflexivity|lia|lia|done|].
    replace (cursor + 16 + 1 - cursor) with (16 + 1) by lia. rewrite sub_split, Hop, E by lia. done. }
  destruct (Z.eqb_spec (at0 (cursor + 16) p) 1) as [E|_]; [|by right; eexists].
  destruct (Z.ltb_spec (zlen p) (cursor + 16 + 1 + 4)) as [|Hl4]; [by right; eexists|].
  destruct (read_int_cases 4 p (cursor + 16 + 1) Hp) as (len & -> & Hlen & Hsub); [lia..|]. obind.
  destruct (Z.ltb_spec VALUE_SIZE len) as [|Hv]; [by right; eexists|].
  destruct (Z.ltb_spec (zlen p) (cursor + 16 + 1 + 4 + len)) as [|Hle]; [by right; eexists|].
  rewrite get_range_ok by lia. obind. left. replace (cursor + 16 + 1 + 4 + len - (cursor + 16 + 1 + 4)) with len by lia.
  assert (Hvl : zlen (sub (cursor + 16 + 1 + 4) len p) = len) by (rewrite zlen_sub; lia).
  do 2 eexists. split_and!; [reflexivity|lia|lia|split; [done|cbn; lia]|].
  replace (cursor + 16 + 1 + 4 + len - cursor) with (16 + (1 + (4 + len))) by lia.
  rewrite sub_split, sub_split, sub_split, Hop, E by lia. change 4 with (Z.of_nat 4) at 1. rewrite Hsub.
  unfold op_bytes. cbn [fst snd]. by rewrite Hvl.
Qed.

Lemma decode_ops_cases n p : forall cursor,
  wf_bytes p -> 0 <= cursor <= zlen p ->
  (exists ws c, decode_ops n p cursor = Ret (ws, c) /\ cursor <= c <= zlen p /\ length ws = n /\ Forall write_ok ws /\
     sub cursor (c - cursor) p = ops_bytes ws) \/
  exists e, decode_ops n p cursor = Fail e.
Proof.
  induction n as [|n IH]; intros cursor Hp Hc; cbn [decode_ops].
  { left. exists [], cursor. rewrite Z.sub_diag. split_and!; [done|lia|lia|done|constructor|reflexivity]. }
  destruct (decode_op_cases p cursor Hp) as [(w & c & -> & Hcc & Hw & Hs)|[e ->]]; [lia| |by right; eexists]. obind.
  destruct (IH c Hp) as [(ws & c' & -> & Hc' & Hn & Hws & Hs')|[e ->]]; [lia| |by right; eexists]. obind.
  left. exists (w :: ws), c'. split_and!; [done|lia|lia|cbn; lia|by constructor|].
  replace (c' - cursor) with ((c - cursor) + (c' - c)) by lia. rewrite sub_split by lia.
  replace (cursor + (c - cursor)) with c by lia. by rewrite Hs, Hs'.
Qed.

(** A payload that is read is the payload of a commit. *)
Lemma decode_payload_cases {AL : Allocator} p :
  wf_bytes p -> zlen p < U32 ->
  (exists c, decode_payload p = Ret c /\ readable c /\ p = payload_bytes c) \/ (exists e, decode_payload p = Fail e) \/
  (decode_payload p = Panic /\ 12 <= zlen p /\ fits (zlen p) (fld 4 8 p) WAL_OP_SIZE = false).
Proof.
  intros Hp Hmax. unfold decode_payload. destruct (Z.ltb_spec (zlen p) 12) as [|H12]; [by right; left; eexists|].
  destruct (read_int_cases 8 p 0 Hp) as (ts & -> & Hts & Ets); [lia..|]. obind.
  destruct (read_int_cases 4 p 8 Hp) as (n & -> & Hn & En); [lia..|]. obind.
  unfold with_capacity. destruct (fits (zlen p) n WAL_OP_SIZE) eqn:Hf.
  2: { right; right. split_and!; [done|lia|]. unfold fld. rewrite En, le_val_u32 by (unfold U32; lia). exact Hf. }
  obind. destruct (decode_ops_cases (Z.to_nat n) p 12 Hp) as [(ws & c & -> & Hc & Hlen & Hws & Es)|[e ->]];
    [lia| |by right; left; eexists]. obind.
  destruct (Z.eqb_spec c (zlen p)) as [->|]; [|by right; left; eexists]. left. exists (ts, ws).
  assert (Hpb : p = payload_bytes (ts, ws)).
  { unfold payload_bytes. cbn [fst snd]. replace (zlen ws) with n by (unfold zlen; lia).
    change 8 with (Z.of_nat 8) in Ets. rewrite <-Ets, <-En, <-Es, <-!sub_split by lia. symmetry. apply sub_all. lia. }
  split; [done|]. split; [|exact Hpb]. split_and!; [cbn; unfold U64; lia..|done|by rewrite <-Hpb].
Qed.

Section Prefix.
Context {AL : Allocator} (hash : bytes -> Z) (hash_u32 : forall p, 0 <= hash p < U32).

(** A complete record with the right checksum, whose announced number of operations the
    allocator refuses. *)
Definition refused (tail : bytes) : Prop := exists payload rest,
  tail = wal_record hash payload ++ rest /\ 12 <= zlen payload < U32 /\ fits (zlen payload) (fld 4 8 payload) WAL_OP_SIZE = false.

Definition panics (tail : bytes) : Prop := forall base fuel pre st ts,
  replay_loop hash (S fuel) (pre ++ tail) base (zlen pre) st ts = Panic.

Lemma get_range_shift {E A} (pre l : list A) a b :
  0 <= a <= b -> b <= zlen l -> get_range (E:=E) (pre ++ l) (zlen pre + a) (zlen pre + b) = get_range l a b.
Proof.
  intros Ha Hb. pose proof (zlen_nonneg pre). rewrite !get_range_ok by (rewrite ?zlen_app; lia). f_equal.
  rewrite sub_app_r by lia. f_equal; lia.
Qed.

Lemma read_int_shift n (pre l : bytes) a :
  0 <= a -> a + Z.of_nat n <= zlen l -> read_int n (pre ++ l) (zlen pre + a) = read_int n l a.
Proof. intros Ha Hl. unfold read_int. rewrite <-Z.add_assoc. by rewrite get_range_shift by lia. Qed.

(** At any bytes the reader stops, or finds a complete record with some checksum. *)
Lemma framed_cases rest :
  wf_bytes rest ->
  stops hash rest \/ exists crc payload suf, rest = framed crc payload ++ suf /\ 0 <= crc < U32 /\ zlen payload < U32 /\ wf_bytes payload.
Proof.
  intros Hp. unfold stops. cbn [replay_loop]. unfold WAL_HEADER_LEN.
  destruct (Z.lt_ge_cases (zlen rest) 12) as [Hs|Hs].
  { left. intros base fuel pre st ts. by rewrite (proj2 (Z.ltb_lt _ _)) by (rewrite zlen_app; lia). }
  assert (Hge : forall pre : bytes, (zlen (pre ++ rest) <? zlen pre + 12) = false) by (intros; apply Z.ltb_ge; rewrite zlen_app; lia).
  destruct (read_int_cases 4 rest 0 Hp) as (m & Em & _ & Sm); [lia..|].
  destruct (read_int_cases 4 rest 4 Hp) as (len & El & Hl & Sl); [lia..|].
  destruct (read_int_cases 4 rest 8 Hp) as (crc & Ec & Hc & Sc); [lia..|].
  assert (Hm0 : forall pre, read_int 4 (pre ++ rest) (zlen pre) = Ret m).
  { intros pre. rewrite <-(Z.add_0_r (zlen pre)). by rewrite read_int_shift by lia. }
  destruct (Z.eqb_spec m WAL_MAGIC) as [->|Hne].
  2: { left. intros base fuel pre st ts. rewrite Hge, Hm0. obind. by rewrite (proj2 (Z.eqb_neq _ _) Hne). }
  destruct (Z.lt_ge_cases (zlen rest) (12 + len)) as [Ht|Ht].
  { left. intros base fuel pre st ts. rewrite Hge, Hm0. obind. rewrite Z.eqb_refl. cbn [negb].
    rewrite (read_int_shift 4 pre rest 4) by lia. rewrite El. obind. rewrite (read_int_shift 4 pre rest 8) by lia. rewrite Ec. obind.
    by rewrite (proj2 (Z.ltb_lt _ _)) by (rewrite zlen_app; lia). }
  right. exists crc, (sub 12 len rest), (sub (12 + len) (zlen rest - (12 + len)) rest).
  assert (Hpl : zlen (sub 12 len rest) = len) by (rewrite zlen_sub; lia).
  split_and!; [|unfold U32; lia..|by apply wf_sub]. unfold framed. rewrite Hpl.
  change (Z.of_nat 4) with 4 in Sm, Sl, Sc. rewrite <-Sm, <-Sl, <-Sc, <-!app_assoc, <-!sub_split by lia.
  symmetry. apply sub_all. lia.
Qed.

Lemma reader_cases rest :
  wf_bytes rest ->
  (exists c suf, rest = record_bytes hash c ++ suf /\ readable c) \/ stops hash rest \/ (panics rest /\ refused rest).
Proof using hash_u32.
  intros Hp. destruct (framed_cases rest Hp) as [|(crc & payload & suf & -> & Hcrc & Hlen & Hwf)]; [by right; left|].
  pose proof (fun base fuel pre st ts => replay_loop_framed hash fuel pre suf base crc payload st ts Hlen Hcrc) as Hstep.
  destruct (Z.eqb_spec (hash payload) crc) as [E|E].
  2: { right; left. intros base fuel pre st ts. by rewrite Hstep. }
  cbn [negb] in Hstep. pose proof (zlen_nonneg payload).
  assert (Hrec : framed crc payload = wal_record hash payload).
  { unfold framed, wal_record, wrap32. by rewrite Z.mod_small, E by lia. }
  destruct (decode_payload_cases payload Hwf Hlen) as [(c & Hd & Hc & ->)|[[e Hd]|(Hd & H12 & Hf)]].
  - left. exists c, suf. by rewrite Hrec.
  - right; left. intros base fuel pre st ts. by rewrite Hstep, Hd.
  - right; right. split; [intros base fuel pre st ts; by rewrite Hstep, Hd|]. exists payload, suf. by rewrite Hrec.
Qed.

(** Bytes at which the reader does not go on do not start with the record of a commit. *)
Lemma no_record rest :
  stops hash rest \/ panics rest -> forall c suf, readable c -> rest <> record_bytes hash c ++ suf.
Proof using hash_u32.
  intros Hs c suf Hc ->. pose proof (replay_loop_record hash hash_u32 0 [] suf 0 c (∅, 0) Hc) as Hr.
  destruct Hs as [Hs|Hs]; specialize (Hs 0 0%nat [] ∅ 0); pose proof (eq_trans (eq_sym Hs) Hr) as E; discriminate E.
Qed.

Lemma replay_loop_prefix base : forall fuel pre rest s,
  wf_bytes rest -> zlen rest < Z.of_nat fuel ->
  exists cs tail, rest = log_bytes hash cs ++ tail /\ Forall readable cs /\ (stops hash tail \/ panics tail /\ refused tail) /\
    (stops hash tail -> replay_loop hash fuel (pre ++ rest) base (zlen pre) s.1 s.2 = Ret (redo base cs s, zlen (pre ++ log_bytes hash cs))) /\
    (panics tail -> replay_loop hash fuel (pre ++ rest) base (zlen pre) s.1 s.2 = Panic).
Proof using hash_u32.
  induction fuel as [|fuel IH]; intros pre rest s Hp Hf; [pose proof (zlen_nonneg rest); lia|].
  destruct (reader_cases rest Hp) as [(c & suf & -> & Hc)|Hs].
  - apply Forall_app in Hp as [_ Hp]. pose proof (record_len hash c Hc). pose proof (payload_len c Hc). rewrite zlen_app in Hf.
    destruct (IH (pre ++ record_bytes hash c) suf (redo1 base s c) Hp ltac:(lia)) as (cs & tail & -> & Hcs & Ht & Hst & Hpn).
    exists (c :: cs), tail. rewrite log_bytes_cons, <-app_assoc. split_and!; [done|by constructor|done|..]; intros Hx;
      rewrite replay_loop_record by done; [rewrite (Hst Hx); by rewrite <-app_assoc|exact (Hpn Hx)].
  - exists [], rest. change (log_bytes hash []) with (@nil Z). rewrite (app_nil_r pre). split_and!; [done|constructor|done|..]; intros Hx; [rewrite Hx; by destruct s|apply Hx].
Qed.

(** C26: Replay on any contents of the log file.  The file is the records of some commits, as
    the manager writes them, followed by bytes that do not start with the record of a
    commit; replay returns the versions and the timestamp those commits lead to and the
    length of their records, at which the log is then cut.  It stops the process in one case
    only: behind them comes a record with the right checksum that announces more operations
    than the allocator grants. *)
Theorem replay_reads_longest_prefix data st base :
  wf_bytes data ->
  exists cs tail, data = log_bytes hash cs ++ tail /\ Forall readable cs /\
    (forall c rest, readable c -> tail <> record_bytes hash c ++ rest) /\
    (replay_wal_with_base hash data st base = Ret (redo base cs (st, base), zlen (log_bytes hash cs)) \/
     replay_wal_with_base hash data st base = Panic /\ refused tail).
Proof using hash_u32.
  intros Hp. destruct (replay_loop_prefix base (S (length data)) [] data (st, base) Hp ltac:(unfold zlen; lia))
    as (cs & tail & -> & Hcs & Ht & Hst & Hpn). exists cs, tail. split_and!; [done|done|apply no_record; tauto|].
  destruct Ht as [Ht|[Ht Hr]]; [left; exact (Hst Ht)|right; split; [exact (Hpn Ht)|exact Hr]].
Qed.

End Prefix.

(** Keys of 16 bytes, values of at most 1024. *)
Definition typed (st : versions) : Prop :=
  map_Forall (fun k vs => zlen k = KEY_SIZE /\ Forall (fun v => from_option (fun x => zlen x <= VALUE_SIZE) True (v_value v)) vs) st.

Lemma typed_push ts ws st : Forall write_ok ws -> typed st -> typed (push_all ts ws st).
Proof.
  intros Hws. revert st. induction Hws as [|[k o] ws [Hk Ho] _ IH]; intros st Hst; [done|]. rewrite push_all_cons. apply IH.
  unfold push_version. cbn in *. apply map_Forall_insert_2; [|done]. split; [done|]. apply Forall_app. split; [|by constructor].
  destruct (st !! k) as [vs|] eqn:Hvs; [by apply (Hst k vs)|constructor].
Qed.

Lemma typed_redo base cs s : Forall readable cs -> typed s.1 -> typed (redo base cs s).1.
Proof.
  intros Hcs. revert s. induction Hcs as [|c cs (_ & Hw & _) _ IH]; intros s Hs; [done|]. apply IH. unfold redo1. cbn [fst].
  destruct (base <? c.1); [by apply typed_push|done].
Qed.

(** Whatever the log file holds, replay only adds keys of 16 bytes and values of at most
    1024 bytes to the store. *)
Theorem replay_wal_typed {AL : Allocator} hash data st base st' ts n :
  (forall p, 0 <= hash p < U32) -> wf_bytes data -> typed st -> replay_wal_with_base hash data st base = Ret (st', ts, n) -> typed st'.
Proof.
  intros Hh Hp Hst Hr. destruct (replay_loop_prefix hash Hh base (S (length data)) [] data (st, base) Hp ltac:(unfold zlen; lia))
    as (cs & tail & _ & Hcs & [Ht|[Ht _]] & Hs & Hpn).
  - pose proof (eq_trans (eq_sym (Hs Ht)) Hr) as [= E _]. change st' with (st', ts).1. rewrite <-E. by apply typed_redo.
  - pose proof (eq_trans (eq_sym (Hpn Ht)) Hr) as [=].
Qed.

(** ** Round trip of the log *)

(** The bytes [commit] appends for one commit. *)
Definition logged (hash : bytes -> Z) (c : commit_t) : outcome TxnError bytes := wal_record hash <$> encode_payload c.1 c.2.

Fixpoint logged_all (hash : bytes -> Z) (cs : list commit_t) : outcome TxnError bytes :=
  match cs with
  | [] => Ret []
  | c :: cs => r ← logged hash c; rest ← logged_all hash cs; Ret (r ++ rest)
  end.

Lemma logged_ok hash c : commit_ok c -> logged hash c = Ret (record_bytes hash c).
Proof. intros Hc. unfold logged. by rewrite encode_payload_ok. Qed.

Lemma logged_all_ok hash cs : Forall commit_ok cs -> logged_all hash cs = Ret (log_bytes hash cs).
Proof.
  induction 1 as [|c cs Hc _ IH]; [done|]. cbn [logged_all]. rewrite logged_ok by done. obind. by rewrite IH.
Qed.

(** Replaying what commits appended, up to and including a record cut short by a crash,
    redoes exactly the complete commits above the base timestamp, in order, and finds where
    the torn record begins. *)
Theorem log_replay_roundtrip {AL : Allocator} hash cs c n st base :
  (forall p, 0 <= hash p < U32) -> Forall commit_ok cs -> commit_ok c ->
  exists log record, logged_all hash cs = Ret log /\ logged hash c = Ret record /\
    ((n < length record)%nat ->
     replay_wal_with_base hash (log ++ take n record) st base = Ret (redo base cs (st, base), zlen log)).
Proof.
  intros Hh Hcs Hc. exists (log_bytes hash cs), (record_bytes hash c). rewrite logged_all_ok, logged_ok by done.
  split_and!; [done..|]. intros Hn. apply replay_stops; [done|done|]. by apply torn_stops.
Qed.

Definition key_of (b : Z) : list Z := repeat b 16.
Definition sample_commit : commit_t := (1, [(key_of 1, Some [7; 8]); (key_of 2, None)]).

Lemma key_of_ok b v : zlen v <= VALUE_SIZE -> write_ok (key_of b, Some v).
Proof. intros Hv. split; [reflexivity|exact Hv]. Qed.

Lemma sample_commit_ok : commit_ok sample_commit.
Proof.
  split; [unfold U64; cbn; lia|]. split; [|reflexivity]. cbn. apply Forall_cons. split; [apply key_of_ok; unfold zlen, VALUE_SIZE; cbn; lia|]. apply Forall_cons.
  split; [split; [reflexivity|exact I]|by apply Forall_nil].
Qed.

#[local] Existing Instance machine.

Lemma replay_reads_longest_prefix_witness :
  let hash := fun _ : bytes => 5 in
  let data := log_bytes hash [sample_commit] ++ [1; 2; 3] in
  exists cs tail, data = log_bytes hash cs ++ tail /\ Forall readable cs /\
    (forall c rest, readable c -> tail <> record_bytes hash c ++ rest) /\
    replay_wal_with_base hash data ∅ 0 = Ret (redo 0 cs (∅, 0), zlen (log_bytes hash cs)).
Proof.
  intros hash data. assert (Hwf : wf_bytes data) by (apply (bool_decide_unpack _); vm_compute; exact I).
  destruct (replay_reads_longest_prefix hash ltac:(intros; unfold hash, U32; lia) data ∅ 0 Hwf) as (cs & tail & H1 & H2 & H3 & [H4|[H4 _]]).
  - exists cs, tail. split; [exact H1|]. split; [exact H2|]. split; [exact H3|exact H4].
  - assert (E : is_ret (replay_wal_with_base hash data ∅ 0) = true) by (vm_compute; reflexivity). rewrite H4 in E. discriminate E.
Defined.

Lemma log_replay_roundtrip_witness :
  exists log record, logged_all (fun _ => 5) [sample_commit] = Ret log /\ logged (fun _ => 5) sample_commit = Ret record /\
    ((20 < length record)%nat ->
     replay_wal_with_base (fun _ => 5) (log ++ take 20 record) ∅ 0 = Ret (redo 0 [sample_commit] (∅, 0), zlen log)).
Proof.
  apply (log_replay_roundtrip (fun _ => 5) [sample_commit] sample_commit 20 ∅ 0);
    [unfold U32; lia|apply Forall_cons; split; [exact sample_commit_ok|by apply Forall_nil]|exact sample_commit_ok].
Defined.

(** ** Snapshot isolation *)

Definition fresh (r : Replica) : Prop := r_wal r = [] /\ r_snapshot r = None /\ r_faults r = [].

Lemma fresh_files hash r : fresh r -> files hash (close r) (∅, 0) [].
Proof.
  intros (Hw & Hs & Hf).
  constructor; cbn; [done|done| |constructor|done]. unfold snapshot_of. cbn. by rewrite Hs.
Qed.

Lemma fresh_stored hash r : fresh r -> stored1 hash (close r) ∅ 0.
Proof. intros Hr. exists (∅, 0), []. split; [by apply fresh_files|done]. Qed.

(** C1: transactions on replicated files, when every write waits for all replicas.  Whatever
    begins, reads, scans, writes, commits, checkpoints and restarts clients ask for, in any
    order, the answers are those of the specification: a transaction reads the database as
    of the last commit before it began, under its own writes; it commits, at the next
    timestamp, unless a later commit wrote one of its keys; and commits survive. *)
Theorem quorum_refines_history {AL : Allocator} hash order walk rs cs :
  (forall p, 0 <= hash p < U32) -> (forall w, walk w ≡ₚ map_to_list w) ->
  rs <> [] -> Forall fresh rs -> order ≡ₚ seq 0 (length rs) -> 12 + MAX_OP * zlen cs < U32 ->
  exists tm, open_quorum hash order rs (zlen rs) = Ret tm /\
    run (step (TS := quorum_storage hash order) hash walk) cs (tm, ∅) = run spec_step cs (mkSpec [] 0 ∅).
Proof.
  intros Hh Hw Hne Hrs Ho Hlim. unfold open_quorum, QuorumM.open.
  assert (0 < zlen rs) by (destruct rs; [done|]; rewrite zlen_cons; pose proof (zlen_nonneg rs); lia).
  rewrite (proj2 (Z.ltb_ge _ _)), (proj2 (Z.ltb_ge _ _)) by lia. cbn [orb]. obind.
  destruct (matches_open hash (L := quorum_laws hash Hh order) (mkQuorum (close <$> rs) (zlen rs) [] [])) as (tm & Htm & Hm).
  - constructor; cbn; try done.
    + apply Forall_fmap. eapply Forall_impl; [exact Hrs|]. intros r. apply fresh_stored.
    + by rewrite zlen_fmap.
    + by destruct rs.
    + by rewrite length_fmap.
  - exists tm. split; [done|]. by apply (run_refines hash walk (L := quorum_laws hash Hh order) Hw cs 0 ∅).
Qed.


Definition empty_replica : Replica := mkReplica [] None [] None.

Definition sample_calls : list call :=
  [CBegin 0 0 false None; CPut 0 1 (key_of 1) [7]; CBegin 1 1 false (Some 100); CCommit 0 2; CCheckpoint; CGet 1 3 (key_of 1);
   CReopen; CBegin 2 4 true None; CGet 2 5 (key_of 1)].

Lemma quorum_refines_history_witness :
  exists tm, open_quorum (fun _ => 5) [1%nat; 0%nat] [empty_replica; empty_replica] 2 = Ret tm /\
    run (step (TS := quorum_storage (fun _ => 5) [1%nat; 0%nat]) (fun _ => 5) map_to_list) sample_calls (tm, ∅) =
    run spec_step sample_calls (mkSpec [] 0 ∅).
Proof.
  apply (quorum_refines_history (fun _ => 5) [1%nat; 0%nat] map_to_list [empty_replica; empty_replica] sample_calls).
  - unfold U32. lia.
  - reflexivity.
  - discriminate.
  - apply Forall_cons. split; [repeat split|]. apply Forall_cons. split; [repeat split|by apply Forall_nil].
  - apply Permutation_swap.
  - reflexivity.
Defined.

(** ** A transaction begun while a commit is being logged *)

Definition put_tx (read_ts : Z) (k v : list Z) : Txn := {|
  tx_read_ts := read_ts; tx_started_at := 0; tx_timeout := None; tx_writes := {[k := Some v]}; tx_read_only := false |}.

Lemma put_commit_ok ts k v : 0 <= ts < U64 -> zlen k = KEY_SIZE -> zlen v <= VALUE_SIZE -> commit_ok (ts, [(k, Some v)]).
Proof.
  intros Hts Hk Hv. split; [done|]. split; [|reflexivity]. apply Forall_cons. split; [by split|by apply Forall_nil].
Qed.

Lemma commit_begin_put {S} hash (tm : TxnManager S) k v :
  bounded (tm_store tm) (tm_commit_ts tm) -> 0 <= tm_commit_ts tm < U64 - 1 -> zlen k = KEY_SIZE -> zlen v <= VALUE_SIZE ->
  commit_begin hash (put_tx (tm_commit_ts tm) k v) [(k, Some v)] tm =
  (Ret (tm_commit_ts tm + 1, record_bytes hash (tm_commit_ts tm + 1, [(k, Some v)])),
   mkManager (tm_store tm) (tm_commit_ts tm + 1) (tm_storage tm)).
Proof.
  intros Hb Hts Hk Hv. unfold commit_begin. rewrite st_bind_gets. cbn [id existsb fst put_tx tx_read_ts].
  rewrite (conflicts_bounded _ _ _ _ Hb) by done. cbn [orb]. unfold wrap64. rewrite Z.mod_small by lia. rewrite st_bind_modify.
  by rewrite (st_bind_lift _ _ _ _ (encode_payload_ok _ (put_commit_ok (tm_commit_ts tm + 1) k v ltac:(lia) Hk Hv))).
Qed.

(** C25: [commit] moves the timestamp before its versions are in the store.  A transaction
    begun in between reads the old value of a key first and the new one later, and a write
    of its own to that key is not found to be in conflict. *)
Theorem commit_window_breaks_snapshot {S} hash (tm : TxnManager S) k v now timeout :
  bounded (tm_store tm) (tm_commit_ts tm) -> 0 <= tm_commit_ts tm < U64 - 1 -> zlen k = KEY_SIZE -> zlen v <= VALUE_SIZE -> 0 <= timeout ->
  exists ts record tm1, commit_begin hash (put_tx (tm_commit_ts tm) k v) [(k, Some v)] tm = (Ret (ts, record), tm1) /\
    let tx := begin_rw_timeout now timeout tm1 in
    let tm2 := (commit_end ts [(k, Some v)] tm1).2 in
    get now tx (tm_store tm1) k = Ret (read_at_ts (tm_store tm) k (tm_commit_ts tm)) /\
    get now tx (tm_store tm2) k = Ret (Some v) /\
    conflicts (tm_store tm2) (tx_read_ts tx) k = false.
Proof.
  intros Hb Hts Hk Hv Htm. rewrite commit_begin_put by done. do 3 eexists. split; [reflexivity|]. cbn zeta.
  assert (Hp : [(k, Some v)] ≡ₚ map_to_list ({[k := Some v]} : gmap (list Z) (option (list Z)))) by (by rewrite map_to_list_singleton).
  unfold get, begin_rw_timeout, begin_tx, ensure_not_timed_out. cbn -[read_at_ts conflicts zlen push_all].
  rewrite Z.sub_diag, (proj2 (Z.ltb_ge _ _)) by done. obind. unfold parse_key. rewrite Hk. cbn [negb Z.eqb Pos.eqb KEY_SIZE]. obind.
  rewrite !lookup_empty. split_and!.
  - by rewrite !(read_bounded _ _ _ _ Hb) by lia.
  - rewrite (read_push_all _ _ _ _ _ _ Hp), lookup_singleton_eq. by rewrite Z.leb_refl.
  - rewrite (conflicts_push_all _ _ _ _ _ _ Hp), lookup_singleton_eq. apply Z.ltb_irrefl.
Qed.

Definition new_manager : TxnManager unit := mkManager ∅ 0 tt.

Lemma commit_window_breaks_snapshot_witness :
  exists ts record tm1, commit_begin (fun _ => 5) (put_tx 0 (key_of 1) [7]) [(key_of 1, Some [7])] new_manager = (Ret (ts, record), tm1) /\
    let tx := begin_rw_timeout 3 100 tm1 in
    let tm2 := (commit_end ts [(key_of 1, Some [7])] tm1).2 in
    get 3 tx (tm_store tm1) (key_of 1) = Ret None /\
    get 3 tx (tm_store tm2) (key_of 1) = Ret (Some [7]) /\
    conflicts (tm_store tm2) (tx_read_ts tx) (key_of 1) = false.
Proof.
  apply (commit_window_breaks_snapshot (fun _ => 5) new_manager (key_of 1) [7] 3 100);
    [apply map_Forall_empty|unfold U64; cbn; lia|reflexivity|unfold zlen, VALUE_SIZE; cbn; lia|lia].
Defined.

(** ** An append after a failed one *)

Lemma append_torn r f rec :
  r_faults r = [Some f] -> at_end r ->
  append_record rec r =
  (Fail (TIo (fault_kind f)),
   mkReplica (r_wal r ++ take (Z.to_nat (fault_written f)) rec) (r_snapshot r) []
     (Some (zlen (r_wal r ++ take (Z.to_nat (fault_written f)) rec)))).
Proof.
  destruct r as [w sn fs p]. unfold at_end. cbn. intros -> ->.
  unfold append_record, write_all, sys_ok, sys, write_at_pos, set_wal, seek, gets, modify, position, mbind, st_bind.
  cbn -[write_over zlen]. by rewrite write_over_end, zlen_app.
Qed.

(** One to three bytes of a record and then another record: no magic number. *)
Lemma short_tear_stops {AL : Allocator} hash c1 c2 n :
  commit_ok c1 -> commit_ok c2 -> (1 <= n <= 3)%nat -> stops hash (take n (record_bytes hash c1) ++ record_bytes hash c2).
Proof.
  intros H1%commit_readable H2%commit_readable Hn. rewrite (record_split hash c1), (record_split hash c2) by done.
  change (le_bytes 4 WAL_MAGIC) with [87; 86; 75; 83].
  assert (n = 1 \/ n = 2 \/ n = 3)%nat as [->|[->| ->]] by lia; cbn [take app].
  - by apply (garbage_stops hash [87; 87; 86; 75]).
  - by apply (garbage_stops hash [87; 86; 87; 86]).
  - by apply (garbage_stops hash [87; 86; 75; 87]).
Qed.

Lemma bounded_put st ts ts' k v : bounded st ts -> ts <= ts' -> bounded (push_all ts' [(k, Some v)] st) ts'.
Proof.
  intros Hb Hle. eapply (bounded_push_all ts ts' ({[k := Some v]})); [by rewrite map_to_list_singleton|done|done].
Qed.

(** The commit of a single put. *)
Lemma commit_put {S} {TS : TxnStorage S} hash (tm : TxnManager S) k v now :
  bounded (tm_store tm) (tm_commit_ts tm) -> 0 <= tm_commit_ts tm < U64 - 1 -> zlen k = KEY_SIZE -> zlen v <= VALUE_SIZE ->
  commit hash now (put_tx (tm_commit_ts tm) k v) [(k, Some v)] tm =
  let '(a, r) := append_wal_record (record_bytes hash (tm_commit_ts tm + 1, [(k, Some v)])) (tm_storage tm) in
  match a with
  | Ret _ => (Ret (tm_commit_ts tm + 1),
              mkManager (push_all (tm_commit_ts tm + 1) [(k, Some v)] (tm_store tm)) (tm_commit_ts tm + 1) r)
  | Fail e => (Fail e, mkManager (tm_store tm) (tm_commit_ts tm + 1) r)
  | Panic => (Panic, mkManager (tm_store tm) (tm_commit_ts tm + 1) r)
  | Spin => (Spin, mkManager (tm_store tm) (tm_commit_ts tm + 1) r)
  end.
Proof.
  intros Hb Hts Hk Hv. unfold commit. rewrite (st_bind_lift _ _ _ tt) by done.
  rewrite bool_decide_eq_false_2 by (cbn; apply map_non_empty_singleton). cbn [orb tx_read_only put_tx].
  rewrite (st_bind_ret _ _ _ _ _ (commit_begin_put hash tm k v Hb Hts Hk Hv)).
  unfold on_storage, mbind, st_bind. cbn [tm_storage tm_store tm_commit_ts].
  by destruct (append_wal_record _ (tm_storage tm)) as [[[]|e| |] r].
Qed.

(** Opening a log with something unreadable behind it. *)
Lemma open_unreadable {AL : Allocator} hash (Hh : forall p, 0 <= hash p < U32) w sn p base cs tail :
  files hash (mkReplica w sn [] None) base cs -> stops hash tail ->
  exists r', open_with_storage (TS := local_storage hash) (mkReplica (w ++ tail) sn [] p) =
    Ret (mkManager (redo base.2 cs base).1 (redo base.2 cs base).2 r').
Proof.
  intros [_ Hw Hsn Hcs Hbase] Ht. cbn in Hw. set (r := mkReplica (w ++ tail) sn [] p).
  destruct (load_quiet r base eq_refl Hsn) as (snap & Hl & Hd). unfold open_with_storage. cbn [load_snapshot replay_wal local_storage]. rewrite Hl. obind.
  rewrite Hd. destruct base as [bst bts]. unfold replay_file.
  rewrite !(st_bind_ret _ _ _ _ _ (sys_ok_quiet r eq_refl)), st_bind_gets. cbn [r r_wal].
  pose proof (replay_stops hash Hh cs tail bts bst Hcs Ht) as Hr. rewrite <-Hw in Hr. rewrite (st_bind_lift _ _ _ _ Hr).
  cbn [fst snd]. destruct (redo bts cs (bst, bts)) as [st ts]. rewrite (st_bind_ret _ _ _ _ _ (sys_ok_quiet r eq_refl)).
  cbn [fst snd]. destruct (zlen w <? zlen (w ++ tail)); by eexists.
Qed.

(** C24: a failed append leaves its first bytes in the log, and later appends go behind
    them.  The commits they log are acknowledged and readable, and gone when the files are
    opened again. *)
Theorem torn_append_loses_later_commits {AL : Allocator} hash w sn f st ts base cs k1 v1 k2 v2 :
  (forall p, 0 <= hash p < U32) -> 1 <= fault_written f <= 3 ->
  files hash (mkReplica w sn [] None) base cs -> redo base.2 cs base = (st, ts) -> bounded st ts -> 0 <= ts < U64 - 2 ->
  zlen k1 = KEY_SIZE -> zlen v1 <= VALUE_SIZE -> zlen k2 = KEY_SIZE -> zlen v2 <= VALUE_SIZE ->
  let commit := commit (TS := local_storage hash) hash 0 in
  exists tm1 tm2 tm3,
    commit (put_tx ts k1 v1) [(k1, Some v1)] (mkManager st ts (mkReplica w sn [Some f] (Some (zlen w)))) = (Fail (TIo (fault_kind f)), tm1) /\
    commit (put_tx (ts + 1) k2 v2) [(k2, Some v2)] tm1 = (Ret (ts + 1 + 1), tm2) /\
    read_at_ts (tm_store tm2) k2 (ts + 1 + 1) = Some v2 /\
    open_with_storage (TS := local_storage hash) (restart (tm_storage tm2)) = Ret tm3 /\ tm_store tm3 = st /\ tm_commit_ts tm3 = ts.
Proof.
  intros Hh Hn Hf Hredo Hb Hts Hk1 Hv1 Hk2 Hv2 cm. unfold cm. clear cm.
  assert (Hc1 : commit_ok (ts + 1, [(k1, Some v1)])) by (apply put_commit_ok; [lia|done..]).
  assert (Hc2 : commit_ok (ts + 1 + 1, [(k2, Some v2)])) by (apply put_commit_ok; [lia|done..]).
  set (tm := mkManager st ts (mkReplica w sn [Some f] (Some (zlen w)))).
  pose proof (commit_put (TS := local_storage hash) hash tm k1 v1 0 Hb ltac:(cbn; lia) Hk1 Hv1) as H1.
  cbn [tm tm_store tm_commit_ts tm_storage append_wal_record local_storage] in H1.
  rewrite (append_torn (mkReplica w sn [Some f] (Some (zlen w))) f) in H1 by done.
  set (torn := take _ (record_bytes hash (ts + 1, _))) in H1.
  set (tm1 := mkManager st (ts + 1) _) in H1.
  assert (Hb1 : bounded st (ts + 1)) by (intros k vs Hvs; eapply Forall_impl; [by apply (Hb k vs)|]; cbn; lia).
  pose proof (commit_put (TS := local_storage hash) hash tm1 k2 v2 0 Hb1 ltac:(cbn; lia) Hk2 Hv2) as H2.
  cbn [tm1 tm_store tm_commit_ts tm_storage append_wal_record local_storage] in H2.
  rewrite append_ok in H2 by done.
  destruct (open_unreadable hash Hh w sn (Some 0) base cs (torn ++ record_bytes hash (ts + 1 + 1, [(k2, Some v2)])) Hf) as [r' Hr];
    [apply short_tear_stops; [done..|lia]|].
  rewrite Hredo, app_assoc in Hr. do 3 eexists. split; [exact H1|]. split; [exact H2|]. split; [|split; [exact Hr|done]].
  cbn [tm_store]. assert (Hp : [(k2, Some v2)] ≡ₚ map_to_list ({[k2 := Some v2]} : gmap (list Z) (option (list Z))))
    by (by rewrite map_to_list_singleton).
  by rewrite (read_push_all _ _ _ _ _ _ Hp), lookup_singleton_eq, Z.leb_refl.
Qed.

Lemma torn_append_loses_later_commits_witness :
  exists tm1 tm2 tm3,
    commit (TS := local_storage (fun _ => 5)) (fun _ => 5) 0 (put_tx 0 (key_of 1) [7]) [(key_of 1, Some [7])]
      (mkManager ∅ 0 (mkReplica [] None [Some {| fault_kind := OtherKind; fault_written := 2 |}] (Some 0))) = (Fail (TIo OtherKind), tm1) /\
    commit (TS := local_storage (fun _ => 5)) (fun _ => 5) 0 (put_tx 1 (key_of 2) [8]) [(key_of 2, Some [8])] tm1 = (Ret 2, tm2) /\
    read_at_ts (tm_store tm2) (key_of 2) 2 = Some [8] /\
    open_with_storage (TS := local_storage (fun _ => 5)) (restart (tm_storage tm2)) = Ret tm3 /\ tm_store tm3 = ∅ /\ tm_commit_ts tm3 = 0.
Proof.
  apply (torn_append_loses_later_commits (fun _ => 5) [] None {| fault_kind := OtherKind; fault_written := 2 |} ∅ 0 (∅, 0) []
    (key_of 1) [7] (key_of 2) [8]); try reflexivity; try (unfold U32, U64, zlen, VALUE_SIZE; cbn; lia).
  - apply (fresh_files (fun _ => 5) empty_replica). repeat split.
  - apply map_Forall_empty.
Defined.


(** ** An append that comes late to a replica *)

Definition appended (rec : bytes) (r : Replica) : Replica :=
  mkReplica (r_wal r ++ rec) (r_snapshot r) [] (Some (zlen (r_wal r ++ rec))).

Lemma write_replica_ok rec i q r :
  replicas q !! i = Some r -> r_faults r = [] -> at_end r ->
  write_replica (OpAppend rec) i q = (Ret tt, with_replicas q (<[i := appended rec r]> (replicas q))).
Proof.
  intros Hi Hq Hp. unfold write_replica. rewrite (on_replica_ok _ _ q r tt (appended rec r) Hi); [done|].
  unfold with_replica. unfold mbind at 1, st_bind at 1. rewrite st_bind_gets. rewrite Hp. cbn [mret st_ret]. by apply append_ok.
Qed.

Definition opened_replica : Replica := mkReplica [] None [] (Some 0).

(** Two appends, each acknowledged by two replicas of three; the first reaches replica 0
    after the second. *)
Lemma late_writes rec1 rec2 :
  let q0 := mkQuorum [opened_replica; opened_replica; opened_replica] 2 [] [] in
  let e := opened_replica in
  exists q1 q2, quorum_write [1%nat; 2%nat; 0%nat] (OpAppend rec1) q0 = (Ret tt, q1) /\
    quorum_write [0%nat; 1%nat; 2%nat] (OpAppend rec2) q1 = (Ret tt, q2) /\
    late_turn 0 q2 = mkQuorum [appended rec1 (appended rec2 e); appended rec2 (appended rec1 e); appended rec1 e] 2 [] [(2%nat, OpAppend rec2)].
Proof.
  intros q0 e.
  set (q1 := mkQuorum [e; appended rec1 e; appended rec1 e] 2 [] [(0%nat, OpAppend rec1)]).
  set (q2 := mkQuorum [appended rec2 e; appended rec2 (appended rec1 e); appended rec1 e] 2 [] [(0%nat, OpAppend rec1); (2%nat, OpAppend rec2)]).
  exists q1, q2. split_and!.
  - unfold quorum_write. cbn [count_results].
    rewrite (write_replica_ok rec1 1 q0 e) by done. cbn [with_replicas quorum q0 replicas repairs in_flight Z.leb Z.compare Z.add Pos.compare Pos.compare_cont].
    rewrite (write_replica_ok rec1 2 _ e) by done. reflexivity.
  - unfold quorum_write. cbn [count_results].
    rewrite (write_replica_ok rec2 0 q1 e) by done. cbn [with_replicas quorum q1 replicas repairs in_flight Z.leb Z.compare Z.add Pos.compare Pos.compare_cont].
    rewrite (write_replica_ok rec2 1 _ (appended rec1 e)) by done. reflexivity.
  - unfold late_turn. cbn [q2 in_flight replicas quorum repairs lookup list_lookup base.delete list_delete].
    rewrite (write_replica_ok rec1 0 _ (appended rec2 e)) by done. reflexivity.
Qed.

Lemma files_log hash cs p : Forall commit_ok cs -> files hash (mkReplica (log_bytes hash cs) None [] p) (∅, 0) cs.
Proof. intros Hcs. by constructor. Qed.

(** With a quorum of two among three replicas a write returns before the third replica
    has it, and nothing keeps the next write from getting there first.  Two commits to a
    key are then logged on replica 0 in the wrong order, and after a restart, without any
    fault, the key has the value of the first although the second was acknowledged. *)
Theorem late_append_reads_old_value {AL : Allocator} hash k v1 v2 :
  (forall p, 0 <= hash p < U32) -> zlen k = KEY_SIZE -> zlen v1 <= VALUE_SIZE -> zlen v2 <= VALUE_SIZE ->
  let commit order := commit (TS := quorum_storage hash order) hash 0 in
  let q0 := mkQuorum [opened_replica; opened_replica; opened_replica] 2 [] [] in
  exists tm1 tm2 tm3,
    commit [1%nat; 2%nat; 0%nat] (put_tx 0 k v1) [(k, Some v1)] (mkManager ∅ 0 q0) = (Ret 1, tm1) /\
    commit [0%nat; 1%nat; 2%nat] (put_tx 1 k v2) [(k, Some v2)] tm1 = (Ret 2, tm2) /\
    read_at_ts (tm_store tm2) k 2 = Some v2 /\
    open_with_storage (TS := quorum_storage hash []) (restart (late_turn 0 (tm_storage tm2))) = Ret tm3 /\
    tm_commit_ts tm3 = 2 /\ read_at_ts (tm_store tm3) k 2 = Some v1.
Proof.
  intros Hh Hk Hv1 Hv2 cm q0. unfold cm. clear cm.
  set (c1 := (1, [(k, Some v1)])). set (c2 := (2, [(k, Some v2)])).
  assert (Hc1 : commit_ok c1) by (apply put_commit_ok; [unfold U64; lia|done..]).
  assert (Hc2 : commit_ok c2) by (apply put_commit_ok; [unfold U64; lia|done..]).
  destruct (late_writes (record_bytes hash c1) (record_bytes hash c2)) as (q1 & q2 & Hq1 & Hq2 & Hlate). fold q0 in Hq1.
  assert (Hb0 : bounded ∅ 0) by apply map_Forall_empty.
  pose proof (commit_put (TS := quorum_storage hash [1%nat; 2%nat; 0%nat]) hash (mkManager ∅ 0 q0) k v1 0 Hb0 ltac:(unfold U64; cbn; lia) Hk Hv1) as H1.
  cbn [tm_store tm_commit_ts tm_storage append_wal_record quorum_storage] in H1. change (0 + 1) with 1 in H1. fold c1 in H1. rewrite Hq1 in H1.
  set (tm1 := mkManager _ 1 q1) in H1.
  assert (Hb1 : bounded (tm_store tm1) 1) by (apply (bounded_put ∅ 0); [done|lia]).
  pose proof (commit_put (TS := quorum_storage hash [0%nat; 1%nat; 2%nat]) hash tm1 k v2 0 Hb1 ltac:(unfold U64; cbn; lia) Hk Hv2) as H2.
  cbn [tm1 tm_store tm_commit_ts tm_storage append_wal_record quorum_storage] in H2. change (1 + 1) with 2 in H2. fold c2 in H2. rewrite Hq2 in H2.
  assert (Hp : forall v, [(k, Some v)] ≡ₚ map_to_list ({[k := Some v]} : gmap (list Z) (option (list Z)))) by (intros; by rewrite map_to_list_singleton).
  destruct (open_fold hash Hh [] (restart (late_turn 0 q2)) [redo 0 [c2; c1] (∅, 0); redo 0 [c1; c2] (∅, 0); redo 0 [c1] (∅, 0)]) as [q3 H3].
  - by rewrite Hlate.
  - assert (Hst : forall cs, Forall commit_ok cs -> stored1 hash (mkReplica (log_bytes hash cs) None [] None) (redo 0 cs (∅, 0)).1 (redo 0 cs (∅, 0)).2).
    { intros cs Hcs. exists (∅, 0), cs. split; [by apply files_log|]. cbn [fst snd]. by destruct (redo 0 cs (∅, 0)). }
    rewrite Hlate. unfold restart, quorum_restart. cbn [replicas fmap list_fmap].
    assert (Hl1 : log_bytes hash [c1] = record_bytes hash c1) by (rewrite log_bytes_cons; apply app_nil_r).
    assert (Hl2 : forall a b, log_bytes hash [a; b] = record_bytes hash a ++ record_bytes hash b) by (intros; rewrite !log_bytes_cons; f_equal; apply app_nil_r).
    constructor; [|constructor; [|constructor; [|constructor]]]; unfold close, appended; cbn [r_wal r_snapshot r_faults app opened_replica].
    + rewrite <-Hl2. apply Hst. apply Forall_cons. split; [done|]. apply Forall_singleton. done.
    + rewrite <-Hl2. apply Hst. apply Forall_cons. split; [done|]. apply Forall_singleton. done.
    + rewrite <-Hl1. apply Hst. apply Forall_singleton. done.
  - eexists _, _, _. split; [exact H1|]. split; [exact H2|]. split.
    { cbn [tm_store]. by rewrite (read_push_all _ _ _ _ _ _ (Hp v2)), lookup_singleton_eq. }
    split; [exact H3|]. split; [done|]. cbn [tm_store].
    change (read_at_ts (push_all 1 [(k, Some v1)] (push_all 2 [(k, Some v2)] ∅)) k 2 = Some v1).
    by rewrite (read_push_all _ _ _ _ _ _ (Hp v1)), lookup_singleton_eq.
Qed.

Lemma late_append_reads_old_value_witness :
  exists tm1 tm2 tm3,
    commit (TS := quorum_storage (fun _ => 5) [1%nat; 2%nat; 0%nat]) (fun _ => 5) 0 (put_tx 0 (key_of 1) [7]) [(key_of 1, Some [7])]
      (mkManager ∅ 0 (mkQuorum [opened_replica; opened_replica; opened_replica] 2 [] [])) = (Ret 1, tm1) /\
    commit (TS := quorum_storage (fun _ => 5) [0%nat; 1%nat; 2%nat]) (fun _ => 5) 0 (put_tx 1 (key_of 1) [8]) [(key_of 1, Some [8])] tm1 = (Ret 2, tm2) /\
    read_at_ts (tm_store tm2) (key_of 1) 2 = Some [8] /\
    open_with_storage (TS := quorum_storage (fun _ => 5) []) (restart (late_turn 0 (tm_storage tm2))) = Ret tm3 /\
    tm_commit_ts tm3 = 2 /\ read_at_ts (tm_store tm3) (key_of 1) 2 = Some [7].
Proof.
  apply (late_append_reads_old_value (fun _ => 5) (key_of 1) [7] [8]);
    [unfold U32; lia|reflexivity|unfold zlen, VALUE_SIZE; cbn; lia|unfold zlen, VALUE_SIZE; cbn; lia].
Defined.

End TxnKvProps.
