(* ===== verification/Sequencer.v ===== *)
(** * Sequencer: storage nodes behind their RPC interface, and the sequencers of the compute node
    (src/src/client.rs, src/src/server.rs, src/src/compute_sequencer.rs, src/src/quorum_client.rs,
    src/src/embedded_compute_runtime.rs)

    The nodes of a cluster are shared by all clients; a client is the number of its node.  A
    call takes the next entry of a list that says what the network does with it: it arrives,
    its request is lost, or its reply is.  The messages of the RPC library carry the arguments
    and results as they are.  A call that waits for its turn has no result. *)

From stdpp Require Import base numbers list list_numbers gmap fin_maps sorting.
From S2P Require Import Prelude Common WalCodec Mvcc PageStore Node.

(** ** The nodes and the network *)

Inductive delivery := Delivered | RequestLost | ReplyLost.

Record Cluster := mkCluster { nodes : list StorageNode; net : list delivery }.

Module Rpc.

Abbreviation R := (st Cluster Error) (only parsing).

Definition next_delivery (l : list delivery) : delivery * list delivery :=
  match l with [] => (Delivered, []) | d :: l => (d, l) end.

(** An error of the server comes back as an error of the RPC library. *)
Definition reply {A} (r : outcome Error A) : outcome Error A :=
  match r with Fail _ => Fail Capnp | r => r end.

Definition lost {A} (r : outcome Error A) : outcome Error A :=
  match r with Spin => Spin | Panic => Panic | _ => Fail Capnp end.

Definition call {A} (i : nat) (handler : StorageNode -> outcome Error A * StorageNode) : R A := fun c =>
  match nodes c !! i with
  | None => (Fail Capnp, c)
  | Some n =>
      let '(d, net) := next_delivery (net c) in
      match d with
      | RequestLost => (Fail Capnp, mkCluster (nodes c) net)
      | Delivered => let '(r, n) := handler n in (reply r, mkCluster (<[i := n]> (nodes c)) net)
      | ReplyLost => let '(r, n) := handler n in (lost r, mkCluster (<[i := n]> (nodes c)) net)
      end
  end.

(** *** [StorageService] *)

Definition serve_get_durable_lsn (n : StorageNode) : outcome Error Z * StorageNode := (Ret (sn_durable n), n).

Definition serve_append_txn_batch {AL : Allocator} (now ms request_id start_lsn end_lsn : Z) (writes : list (PageId * Page)) :
    st StorageNode Error (Z * Z) :=
  commit_lsn ← NodeM.append_txn_batch_with_lsn_sync now ms request_id start_lsn end_lsn writes;
  durable ← gets sn_durable;
  mret (commit_lsn, durable).

Definition serve_get_page (now page_id : Z) (n : StorageNode) : outcome Error (option (Page * Z) * Z) * StorageNode :=
  let durable := sn_durable n in
  let '(r, n) := NodeM.get_page_latest now page_id n in (Ret (r, durable), n).

Definition serve_scan_pages (now start_page_id limit : Z) (n : StorageNode) :
    outcome Error (list (PageId * (Z * Page)) * Z) * StorageNode :=
  let '(r, n) := NodeM.scan_pages_latest now start_page_id limit n in (Ret (r, sn_durable n), n).

(** *** [StorageClient] *)

Definition get_durable_lsn (i : nat) : R Z := call i serve_get_durable_lsn.

Definition append_txn_batch {AL : Allocator} (now ms : Z) (i : nat) (request_id start_lsn end_lsn : Z) (writes : list (PageId * Page)) : R (Z * Z) :=
  call i (serve_append_txn_batch now ms request_id start_lsn end_lsn writes).

(** The page, its LSN and the node's durable LSN. *)
Definition get_page (now : Z) (i : nat) (page_id : PageId) : R (option (Page * Z * Z)) :=
  '(r, durable) ← call i (serve_get_page now page_id);
  mret (match r with Some (page, lsn) => Some (page, lsn, durable) | None => None end).

Definition scan_pages (now : Z) (i : nat) (start_page_id limit : Z) : R (list (PageId * (Z * Page)) * Z) :=
  call i (serve_scan_pages now start_page_id limit).

End Rpc.

(** ** The quorum *)

Definition desc (a b : Z) : Prop := b <= a.
#[global] Instance desc_dec a b : Decision (desc a b) := _ : Decision (b <= a).

(** [lsns.sort_unstable_by(|a, b| b.cmp(a))] *)
Definition sort_desc (lsns : list Z) : list Z := merge_sort desc lsns.

Module QuorumClient.

Record StorageQuorumClient := mkQuorumClient { qc_clients : list nat; qc_quorum : Z }.

(** The addresses are the numbers of the nodes; [up] says which connections succeed. *)
Definition reachable (up : nat -> bool) (addrs : list nat) : list nat := filter (fun i => up i = true) addrs.

Definition quorum_of (quorum : Z) (addrs : list nat) : Z := Z.min (Z.max quorum 1) (zlen addrs).

Definition connect (up : nat -> bool) (addrs : list nat) (quorum : Z) : outcome Error StorageQuorumClient :=
  if bool_decide (addrs = []) then Fail (InvalidValueSize 0 1) else
  let quorum := quorum_of quorum addrs in
  let clients := reachable up addrs in
  if zlen clients <? quorum then Fail (Io OtherKind) else Ret (mkQuorumClient clients quorum).

(** The loop that asks every node, the first error ends it. *)
Fixpoint durable_lsns (clients : list nat) : st Cluster Error (list Z) :=
  match clients with
  | [] => mret []
  | i :: clients =>
      l ← Rpc.get_durable_lsn i;
      ls ← durable_lsns clients;
      mret (l :: ls)
  end.

Definition nth_lsn (quorum : Z) (lsns : list Z) : Z := default 0 (sort_desc lsns !! Z.to_nat (quorum - 1)).

Definition quorum_durable_lsn (q : StorageQuorumClient) : st Cluster Error Z :=
  lsns ← durable_lsns (qc_clients q);
  mret (nth_lsn (qc_quorum q) lsns).

End QuorumClient.

(** ** The sequencer over the network *)

Record ComputeSequencer := mkSequencer {
  sq_clients : list nat;
  sq_quorum : Z;
  sq_next_lsn : Z;
  sq_request_id : Z;
  sq_durable_lsn : Z;
  sq_dispatch_lsn : Z
}.

Module SequencerM.

(** The sequencer and the cluster its clients talk to. *)
Abbreviation W := (st (ComputeSequencer * Cluster) Error) (only parsing).

Definition on_cluster {A} (m : st Cluster Error A) : W A := fun w => let '(r, c) := m w.2 in (r, (w.1, c)).

Definition MAX_WRITES_PER_TXN : Z := 256.

Definition connect (up : nat -> bool) (seed : Z) (addrs : list nat) (quorum : Z) : st Cluster Error ComputeSequencer :=
  if bool_decide (addrs = []) then throw (InvalidKeySize 0 1) else
  let quorum := QuorumClient.quorum_of quorum addrs in
  let clients := QuorumClient.reachable up addrs in
  if zlen clients <? quorum then throw (Io OtherKind) else
  lsns ← QuorumClient.durable_lsns clients;
  let durable := QuorumClient.nth_lsn quorum lsns in
  mret (mkSequencer clients quorum durable (if seed =? 0 then 1 else seed) durable durable).

Definition durable_lsn (s : ComputeSequencer) : Z := sq_durable_lsn s.
Definition begin_ro (s : ComputeSequencer) : Z := durable_lsn s.

Definition allocate_request_id (s : ComputeSequencer) : Z * ComputeSequencer :=
  (sq_request_id s, mkSequencer (sq_clients s) (sq_quorum s) (sq_next_lsn s) (wrap64 (sq_request_id s + 1)) (sq_durable_lsn s) (sq_dispatch_lsn s)).

Definition reserve_txn_with_request_id (n_writes request_id : Z) (s : ComputeSequencer) : outcome Error (Z * Z) * ComputeSequencer :=
  if n_writes =? 0 then (Fail (Io InvalidInput), s) else
  if MAX_WRITES_PER_TXN <? n_writes then (Fail (Io InvalidInput), s) else
  if request_id =? 0 then (Fail (Io InvalidInput), s) else
  let start_lsn := sq_next_lsn s in
  (Ret (start_lsn, wrap64 (start_lsn + n_writes)),
   mkSequencer (sq_clients s) (sq_quorum s) (wrap64 (start_lsn + n_writes)) (sq_request_id s) (sq_durable_lsn s) (sq_dispatch_lsn s)).

Definition reserve_txn (n_writes : Z) (s : ComputeSequencer) : outcome Error (Z * Z * Z) * ComputeSequencer :=
  let '(request_id, s) := allocate_request_id s in
  let '(r, s) := reserve_txn_with_request_id n_writes request_id s in
  ('(start_lsn, end_lsn) ← r; Ret (request_id, start_lsn, end_lsn), s).

(** The loop before the fan-out, at one look at [dispatch_lsn]. *)
Inductive turn := Go | Stale | Wait.

Definition dispatch_turn (start_lsn : Z) (s : ComputeSequencer) : turn :=
  if sq_dispatch_lsn s =? start_lsn then Go else if start_lsn <? sq_dispatch_lsn s then Stale else Wait.

(** [join_all]: every node gets the batch and answers. *)
Fixpoint fan_out {AL : Allocator} (now ms request_id start_lsn end_lsn : Z) (writes : list (PageId * Page)) (clients : list nat) (c : Cluster) :
    list (outcome Error (Z * Z)) * Cluster :=
  match clients with
  | [] => ([], c)
  | i :: clients =>
      let '(r, c) := Rpc.append_txn_batch now ms i request_id start_lsn end_lsn writes c in
      let '(rs, c) := fan_out now ms request_id start_lsn end_lsn writes clients c in
      (r :: rs, c)
  end.

Definition ack (end_lsn : Z) (r : outcome Error (Z * Z)) : option Z :=
  match r with
  | Ret (commit, durable) => if end_lsn <=? commit then Some commit else if end_lsn <=? durable then Some durable else None
  | _ => None
  end.

Definition set_dispatch (durable dispatch : Z) (s : ComputeSequencer) : ComputeSequencer :=
  mkSequencer (sq_clients s) (sq_quorum s) (sq_next_lsn s) (sq_request_id s) durable dispatch.

Definition answered (r : outcome Error (Z * Z)) : bool := match r with Ret _ | Fail _ => true | _ => false end.

(** The commit from the fan-out on. *)
Definition dispatch {AL : Allocator} (now ms request_id start_lsn end_lsn : Z) (writes : list (PageId * Page)) : W Z := fun w =>
  let '(s, c) := w in
  let '(results, c) := fan_out now ms request_id start_lsn end_lsn writes (sq_clients s) c in
  if negb (forallb answered results) then (Spin, (s, c)) else
  let acks := omap (ack end_lsn) results in
  if zlen acks <? sq_quorum s then (Fail (Io OtherKind), (set_dispatch (sq_durable_lsn s) end_lsn s, c)) else
  match sort_desc acks !! Z.to_nat (sq_quorum s - 1) with
  | None => (Panic, (s, c))
  | Some quorum_durable => (Ret end_lsn, (set_dispatch (Z.max (sq_durable_lsn s) quorum_durable) end_lsn s, c))
  end.

(** [None]: it is another batch's turn. *)
Definition commit_reserved_txn_batch {AL : Allocator} (now ms request_id start_lsn end_lsn : Z) (writes : list (PageId * Page))
    (w : ComputeSequencer * Cluster) : option (outcome Error Z * (ComputeSequencer * Cluster)) :=
  match dispatch_turn start_lsn w.1 with
  | Wait => None
  | Stale => Some (Fail (Io InvalidInput), w)
  | Go => Some (dispatch now ms request_id start_lsn end_lsn writes w)
  end.

Definition commit_txn_batch {AL : Allocator} (now ms : Z) (writes : list (PageId * Page)) (w : ComputeSequencer * Cluster) :
    option (outcome Error Z * (ComputeSequencer * Cluster)) :=
  let '(r, s) := reserve_txn (zlen writes) w.1 in
  match r with
  | Ret (request_id, start_lsn, end_lsn) => commit_reserved_txn_batch now ms request_id start_lsn end_lsn writes (s, w.2)
  | Fail e => Some (Fail e, (s, w.2))
  | Panic => Some (Panic, (s, w.2))
  | Spin => Some (Spin, (s, w.2))
  end.

End SequencerM.

(** ** The sequencer without a network *)

Record InProcessPageStore := mkPages { ip_pages : gmap Z (list Z) }.

Record InProcessSequencer := mkInProcess {
  ip_store : InProcessPageStore;
  ip_next_lsn : Z;
  ip_request_id : Z;
  ip_durable_lsn : Z
}.

Module InProcessM.

Definition get (page_id : PageId) (p : InProcessPageStore) : option Page := ip_pages p !! page_id.

Definition put_pages (pages : list (PageId * Page)) (p : InProcessPageStore) : InProcessPageStore :=
  mkPages (foldl (fun m w => <[w.1 := w.2]> m) (ip_pages p) pages).

Definition new (seed : Z) (store : InProcessPageStore) : InProcessSequencer :=
  mkInProcess store 0 (if seed =? 0 then 1 else seed) 0.

Definition ip_allocate_request_id (s : InProcessSequencer) : Z * InProcessSequencer :=
  (ip_request_id s, mkInProcess (ip_store s) (ip_next_lsn s) (wrap64 (ip_request_id s + 1)) (ip_durable_lsn s)).

Definition ip_reserve_txn_with_request_id (n_writes request_id : Z) (s : InProcessSequencer) : outcome Error (Z * Z) * InProcessSequencer :=
  if n_writes =? 0 then (Fail (Io InvalidInput), s) else
  if request_id =? 0 then (Fail (Io InvalidInput), s) else
  let start_lsn := ip_next_lsn s in
  (Ret (start_lsn, wrap64 (start_lsn + n_writes)),
   mkInProcess (ip_store s) (wrap64 (start_lsn + n_writes)) (ip_request_id s) (ip_durable_lsn s)).

Definition ip_reserve_txn (n_writes : Z) (s : InProcessSequencer) : outcome Error (Z * Z * Z) * InProcessSequencer :=
  let '(request_id, s) := ip_allocate_request_id s in
  let '(r, s) := ip_reserve_txn_with_request_id n_writes request_id s in
  ('(start_lsn, end_lsn) ← r; Ret (request_id, start_lsn, end_lsn), s).

Definition ip_commit_pages_reserved (end_lsn : Z) (pages : list (PageId * Page)) (s : InProcessSequencer) : outcome Error Z * InProcessSequencer :=
  (Ret end_lsn, mkInProcess (put_pages pages (ip_store s)) (ip_next_lsn s) (ip_request_id s) (Z.max (ip_durable_lsn s) end_lsn)).

End InProcessM.

(** ** The sequencer of the compute node *)

Inductive Sequencer := Network (s : ComputeSequencer) | InProcess (s : InProcessSequencer).

Module Seq.

Definition begin_ro (s : Sequencer) : Z :=
  match s with Network s => SequencerM.begin_ro s | InProcess s => ip_durable_lsn s end.

Definition durable_lsn (s : Sequencer) : Z :=
  match s with Network s => SequencerM.durable_lsn s | InProcess s => ip_durable_lsn s end.

Definition allocate_request_id (s : Sequencer) : Z * Sequencer :=
  match s with
  | Network s => let '(r, s) := SequencerM.allocate_request_id s in (r, Network s)
  | InProcess s => let '(r, s) := InProcessM.ip_allocate_request_id s in (r, InProcess s)
  end.

Definition reserve_txn_with_request_id (n_writes request_id : Z) (s : Sequencer) : outcome Error (Z * Z) * Sequencer :=
  match s with
  | Network s => let '(r, s) := SequencerM.reserve_txn_with_request_id n_writes request_id s in (r, Network s)
  | InProcess s => let '(r, s) := InProcessM.ip_reserve_txn_with_request_id n_writes request_id s in (r, InProcess s)
  end.

Definition reserve_txn (n_writes : Z) (s : Sequencer) : outcome Error (Z * Z * Z) * Sequencer :=
  match s with
  | Network s => let '(r, s) := SequencerM.reserve_txn n_writes s in (r, Network s)
  | InProcess s => let '(r, s) := InProcessM.ip_reserve_txn n_writes s in (r, InProcess s)
  end.

(** [None]: it is another batch's turn. *)
Definition commit_pages_reserved {AL : Allocator} (now ms request_id start_lsn end_lsn : Z) (pages : list (PageId * Page)) (w : Sequencer * Cluster) :
    option (outcome Error Z * (Sequencer * Cluster)) :=
  match w.1 with
  | Network s =>
      match SequencerM.commit_reserved_txn_batch now ms request_id start_lsn end_lsn pages (s, w.2) with
      | Some (r, (s, c)) => Some (r, (Network s, c))
      | None => None
      end
  | InProcess s => let '(r, s) := InProcessM.ip_commit_pages_reserved end_lsn pages s in Some (r, (InProcess s, w.2))
  end.

End Seq.
