(* ===== verification/SequencerProps.v ===== *)
(** * SequencerProps: what the sequencer guarantees about replicated commits

    A commit reaches the nodes in the order of its LSNs and is acknowledged when a quorum has
    it; what happens to reservations that are given up, to nodes that miss a batch, and to
    acknowledged commits when the compute node reconnects. *)

From stdpp Require Import base numbers list list_numbers gmap fin_maps sorting.
From S2P Require Import Prelude Common WalCodec Mvcc PageStore Node NodeSpec NodeProps Sequencer.

Module SequencerProps.
Import NodeM NodeSpec Rpc QuorumClient SequencerM.

#[local] Opaque append_txn_batch_with_lsn_sync.

(** ** Replication of one batch *)

(** A node that does nothing else, has the pages [m] and expects the batch at [start]. *)
Definition ready (m : PageId -> option Page) (start : Z) (n : StorageNode) : Prop :=
  (exists L, quiet n L m) /\ sn_durable n = start.

(** What a transaction has to be: pages of the right size, LSNs that do not overflow, a
    request id that the node does not remember. *)
Record batch_ok (request_id start end_ : Z) (writes : list (PageId * Page)) : Prop := {
  bo_request : 0 < request_id < U64;
  bo_writes : Forall write_ok writes;
  bo_some : writes <> [];
  bo_many : zlen writes <= MAX_WRITES_PER_TXN;
  bo_end : end_ = start + zlen writes;
  bo_room : end_ < U64
}.

Lemma append_node {AL : Allocator} now ms req start e writes m n :
  ready m start n -> batch_ok req start e writes -> sn_requests n !! req = None ->
  exists took n', ready (if took : bool then apply_writes m writes else m) (if took then e else start) n' /\
    serve_append_txn_batch now ms req start e writes n = (if took then Ret (e, e) else Fail (Io WouldBlock), n').
Proof.
  intros [[L Hq] Hd] [] Hreq. subst start.
  destruct (commit_cases now ms n L m req e writes Hq) as (r & n' & L' & Hrun & [(-> & Hq' & Ha & _ & _)|(-> & Hq' & Hc & _)]).
  - split; try done; [lia|unfold MAX_WRITES_PER_TXN in *; lia].
  - by right.
  - exists true, n'. pose proof (qu_durable _ _ _ Hq') as Hd'. split; [split; [by exists L'|rewrite Hd', Ha; lia]|].
    unfold serve_append_txn_batch. rewrite (st_bind_ret _ _ _ e n' Hrun), st_bind_gets. rewrite Hd', Ha. by replace (e - 1 + 1) with e by lia.
  - exists false, n'. split; [split; [by exists L'|apply Hc]|]. unfold serve_append_txn_batch. by rewrite (st_bind_fail _ _ _ _ n' Hrun).
Qed.

Lemma append_client {AL : Allocator} now ms req start e writes m c i n :
  nodes c !! i = Some n -> ready m start n -> batch_ok req start e writes -> sn_requests n !! req = None ->
  exists r c' took n', append_txn_batch now ms i req start e writes c = (r, c') /\ answered r = true /\
    nodes c' = <[i := n']> (nodes c) /\
    ready (if took : bool then apply_writes m writes else m) (if took then e else start) n' /\
    (ack e r = None \/ took = true /\ ack e r = Some e) /\ (net c = [] -> net c' = [] /\ ack e r = if took then Some e else None).
Proof.
  intros Hn Hr Hb Hreq. destruct (append_node now ms req start e writes m n Hr Hb Hreq) as (took & n' & Hr' & Hs).
  assert (Hacke : ack e (Ret (e, e)) = Some e) by (cbn; by rewrite (proj2 (Z.leb_le _ _))).
  unfold append_txn_batch, call. rewrite Hn. destruct (next_delivery (net c)) as [d l] eqn:Hd. destruct d.
  - rewrite Hs. do 2 eexists. exists took, n'. split; [reflexivity|]. destruct took; cbn [reply answered nodes net].
    + split_and!; [done|done|done|right; done|]. intros Hnet. rewrite Hnet in Hd. injection Hd as <-. done.
    + split_and!; [done|done|done|by left|]. intros Hnet. rewrite Hnet in Hd. injection Hd as <-. done.
  - do 2 eexists. exists false, n. split; [reflexivity|]. cbn. split_and!; [done|by rewrite list_insert_id|done|by left|]. intros Hnet. by rewrite Hnet in Hd.
  - rewrite Hs. do 2 eexists. exists took, n'. split; [reflexivity|].
    split_and!; [by destruct took|done|done|left; by destruct took|]. intros Hnet. by rewrite Hnet in Hd.
Qed.

Definition taken (took : nat -> bool) (clients : list nat) : Z := zlen (filter (fun i => took i = true) clients).

Lemma taken_ext f g l : (forall i, i ∈ l -> f i = g i) -> taken f l = taken g l.
Proof.
  unfold taken. induction l as [|i l IH]; intros Hfg; [done|]. rewrite !filter_cons. rewrite (Hfg i) by by left.
  specialize (IH ltac:(intros; apply Hfg; by right)). case_decide; rewrite ?zlen_cons; lia.
Qed.

Lemma fan_out_nodes {AL : Allocator} now ms req start e writes m clients : forall c,
  NoDup clients -> batch_ok req start e writes ->
  (forall i, i ∈ clients -> exists n, nodes c !! i = Some n /\ ready m start n /\ sn_requests n !! req = None) ->
  exists rs c' took k, fan_out now ms req start e writes clients c = (rs, c') /\ forallb answered rs = true /\
    omap (ack e) rs = replicate k e /\ Z.of_nat k <= taken took clients /\ (net c = [] -> net c' = [] /\ Z.of_nat k = taken took clients) /\
    (forall i, i ∈ clients -> exists n', nodes c' !! i = Some n' /\ ready (if took i then apply_writes m writes else m) (if took i then e else start) n') /\
    (forall i, i ∉ clients -> nodes c' !! i = nodes c !! i).
Proof.
  induction clients as [|i clients IH]; intros c Hnd Hb Hall.
  - exists [], c, (fun _ => false), 0%nat. split_and!; try done. by intros i Hi%elem_of_nil.
  - apply NoDup_cons in Hnd as [Hi Hnd]. destruct (Hall i) as (n & Hn & Hr & Hreq); [by left|].
    destruct (append_client now ms req start e writes m c i n Hn Hr Hb Hreq) as (r & c1 & tk & n1 & Hrun & Hans & Hn1 & Hr1 & Hack & Hnet).
    destruct (IH c1 Hnd Hb) as (rs & c' & took & k & Hfan & Hall' & Hacks & Hle & Hnet' & Hin & Hout).
    { intros j Hj. destruct (Hall j) as (nj & Hnj & Hrj); [by right|]. exists nj. split; [|done]. rewrite Hn1, list_lookup_insert_ne; [done|]. intros ->. done. }
    assert (Hlen : (i < length (nodes c))%nat) by by eapply lookup_lt_Some.
    set (took' := fun j => if decide (j = i) then tk else took j).
    assert (Htk : taken took' (i :: clients) = (if tk then 1 else 0) + taken took clients).
    { rewrite (taken_ext took took' clients) by (intros j Hj; unfold took'; rewrite decide_False; [done|intros ->; done]).
      assert (Ht : took' i = tk) by (unfold took'; by rewrite decide_True by done).
      unfold taken. rewrite filter_cons, Ht. destruct tk; [rewrite decide_True by done; by rewrite zlen_cons|by rewrite decide_False by done]. }
    exists (r :: rs), c', took', (match ack e r with Some _ => S k | None => k end).
    split; [cbn [fan_out]; rewrite Hrun, Hfan; done|]. split; [cbn; by rewrite Hans|].
    split; [cbn [omap list_omap]; rewrite Hacks; destruct Hack as [Ha|[_ Ha]]; rewrite Ha; done|].
    split; [rewrite Htk; destruct Hack as [Ha|[-> Ha]]; rewrite Ha; [destruct tk|]; lia|].
    split; [intros Hc; destruct (Hnet Hc) as [Hc1 Ha]; destruct (Hnet' Hc1) as [Hc' Hk]; split; [done|]; rewrite Htk, Ha; destruct tk; lia|].
    split.
    + intros j Hj. apply elem_of_cons in Hj as [->|Hj].
      * exists n1. split; [rewrite Hout, Hn1 by done; by apply list_lookup_insert_eq|]. unfold took'. by rewrite decide_True by done.
      * unfold took'. rewrite decide_False by (intros ->; done). by apply Hin.
    + intros j Hj. apply not_elem_of_cons in Hj as [Hne Hj]. rewrite Hout, Hn1 by done. by apply list_lookup_insert_ne.
Qed.

Lemma sort_desc_replicate k (e : Z) : sort_desc (replicate k e) = replicate k e.
Proof.
  symmetry. apply replicate_as_Forall. unfold sort_desc. pose proof (merge_sort_Permutation desc (replicate k e)) as Hp. split.
  - by rewrite Hp, length_replicate.
  - rewrite Hp. by apply Forall_replicate.
Qed.

(** The clients of a sequencer are different nodes of the cluster, all ready for the batch. *)
Record all_ready (m : PageId -> option Page) (start req : Z) (s : ComputeSequencer) (c : Cluster) : Prop := {
  ar_nodup : NoDup (sq_clients s);
  ar_quorum : 1 <= sq_quorum s <= zlen (sq_clients s);
  ar_dispatch : sq_dispatch_lsn s = start;
  ar_nodes : forall i, i ∈ sq_clients s -> exists n, nodes c !! i = Some n /\ ready m start n /\ sn_requests n !! req = None
}.

Lemma dispatch_cases {AL : Allocator} now ms m req start e writes s c :
  all_ready m start req s c -> batch_ok req start e writes ->
  exists r c' took, dispatch now ms req start e writes (s, c) =
      (r, (set_dispatch (if is_ret r then Z.max (sq_durable_lsn s) e else sq_durable_lsn s) e s, c')) /\
    (r = Ret e \/ r = Fail (Io OtherKind)) /\
    (r = Ret e -> sq_quorum s <= taken took (sq_clients s)) /\
    (net c = [] -> net c' = [] /\ (sq_quorum s <= taken took (sq_clients s) -> r = Ret e)) /\
    (forall i, i ∈ sq_clients s -> exists n', nodes c' !! i = Some n' /\ ready (if took i then apply_writes m writes else m) (if took i then e else start) n') /\
    (forall i, i ∉ sq_clients s -> nodes c' !! i = nodes c !! i).
Proof.
  intros [Hnd Hq Hd Hall] Hb.
  destruct (fan_out_nodes now ms req start e writes m (sq_clients s) c Hnd Hb Hall) as (rs & c' & took & k & Hfan & Hans & Hacks & Hle & Hnet & Hin & Hout).
  unfold dispatch. rewrite Hfan, Hans, Hacks. cbn [negb]. assert (Hzl : zlen (replicate k e) = Z.of_nat k) by (unfold zlen; by rewrite length_replicate).
  rewrite Hzl. destruct (Z.ltb_spec (Z.of_nat k) (sq_quorum s)) as [Hlt|Hge].
  - exists (Fail (Io OtherKind)), c', took. split_and!; [done|by right|done| |done|done].
    intros Hc. destruct (Hnet Hc) as [Hc' Hk]. split; [done|]. lia.
  - rewrite sort_desc_replicate, lookup_replicate_2 by lia. exists (Ret e), c', took. cbn [is_ret].
    split_and!; [done|by left|lia| |done|done]. intros Hc. by destruct (Hnet Hc) as [Hc' _].
Qed.

(** C31: a commit over storage nodes that hold the same pages and wait for the same LSN is
    replicated: every node has afterwards either all pages of the batch and its end LSN, or
    none of them; the commit returns its end LSN only if a quorum has them, and always when
    a quorum took the batch and no message was lost; otherwise it reports an error, and the
    turn passes to the next batch in both cases. *)
Theorem commit_replicates {AL : Allocator} now ms m req start e writes s c :
  all_ready m start req s c -> batch_ok req start e writes ->
  exists r s' c' took, commit_reserved_txn_batch now ms req start e writes (s, c) = Some (r, (s', c')) /\
    (r = Ret e /\ sq_durable_lsn s' = Z.max (sq_durable_lsn s) e \/ r = Fail (Io OtherKind) /\ sq_durable_lsn s' = sq_durable_lsn s) /\
    sq_dispatch_lsn s' = e /\
    (r = Ret e -> sq_quorum s <= taken took (sq_clients s)) /\
    (net c = [] -> sq_quorum s <= taken took (sq_clients s) -> r = Ret e) /\
    (forall i, i ∈ sq_clients s -> exists n', nodes c' !! i = Some n' /\
       ready (if took i then apply_writes m writes else m) (if took i then e else start) n').
Proof.
  intros Har Hb. destruct (dispatch_cases now ms m req start e writes s c Har Hb) as (r & c' & took & Hrun & Hr & Hok & Hnet & Hin & _).
  unfold commit_reserved_txn_batch, dispatch_turn. cbn [fst]. rewrite (ar_dispatch _ _ _ _ _ Har), Z.eqb_refl, Hrun.
  do 2 eexists. exists c', took. split; [reflexivity|]. split; [destruct Hr as [->| ->]; [left|right]; done|].
  split_and!; [done|done| |done]. intros Hc. by apply Hnet.
Qed.

(** Three new nodes; the first batch of two pages. *)
Definition three : Cluster := mkCluster [NodeProps.new_node; NodeProps.new_node; NodeProps.new_node] [].
Definition first_seq : ComputeSequencer := mkSequencer [0; 1; 2]%nat 2 1 77 1 1.
Definition first_writes : list (PageId * Page) := [(3, PageStoreProps.sample_page 7)].

Lemma first_batch_ok req : 0 < req < U64 -> batch_ok req 1 2 first_writes.
Proof.
  intros Hreq. destruct NodeProps.sample_txn_ok as [_ Hw Hne _ _ _]. split; [done|exact Hw|exact Hne| |reflexivity|unfold U64; lia].
  unfold MAX_WRITES_PER_TXN, zlen. cbn [length first_writes]. lia.
Qed.

Lemma new_node_ready : ready (fun _ => None) 1 NodeProps.new_node.
Proof. split; [exists NodeProps.new_log; exact NodeProps.new_node_quiet|reflexivity]. Qed.

Lemma three_ready req net : all_ready (fun _ => None) 1 req first_seq (mkCluster (nodes three) net).
Proof.
  split; [|unfold zlen; cbn; lia|done|].
  - repeat (apply NoDup_cons; split; [intros Hin; repeat (apply elem_of_cons in Hin as [?|Hin]; [done|]); by apply elem_of_nil in Hin|]). by apply NoDup_nil.
  - intros i Hi. exists NodeProps.new_node. split; [|split; [exact new_node_ready|apply lookup_empty]].
    repeat (apply elem_of_cons in Hi as [->|Hi]; [done|]). by apply elem_of_nil in Hi.
Qed.

#[local] Existing Instance machine.

Lemma commit_replicates_witness :
  exists r s' c' took, commit_reserved_txn_batch 0 0 77 1 2 first_writes (first_seq, three) = Some (r, (s', c')) /\
    (r = Ret 2 /\ sq_durable_lsn s' = Z.max 1 2 \/ r = Fail (Io OtherKind) /\ sq_durable_lsn s' = 1) /\
    sq_dispatch_lsn s' = 2 /\
    (r = Ret 2 -> 2 <= taken took [0; 1; 2]%nat) /\
    (net three = [] -> 2 <= taken took [0; 1; 2]%nat -> r = Ret 2) /\
    (forall i, i ∈ [0; 1; 2]%nat -> exists n', nodes c' !! i = Some n' /\
       ready (if took i then apply_writes (fun _ => None) first_writes else fun _ => None) (if took i then 2 else 1) n').
Proof.
  exact (commit_replicates 0 0 (fun _ => None) 77 1 2 first_writes first_seq three (three_ready 77 []) (first_batch_ok 77 ltac:(unfold U64; lia))).
Defined.

(** ** Nodes that miss a batch *)

#[local] Transparent append_txn_batch_with_lsn_sync.

Lemma image_records_cases writes : forall l, (exists rs, image_records l writes = Ret rs) \/ (exists e, image_records l writes = Fail e).
Proof.
  induction writes as [|[i p] writes IH]; intros l; [left; by eexists|]. cbn. case_match; [right; by eexists|].
  destruct (IH (l + 1)) as [[rs ->]|[e ->]]; [left|right]; by eexists.
Qed.

(** A node whose log ends elsewhere refuses the batch and does not change. *)
Lemma node_refuses {AL : Allocator} now ms req start e writes n :
  start <> sn_durable n -> sn_requests n !! req = None ->
  exists err, append_txn_batch_with_lsn_sync now ms req start e writes n = (Fail err, n).
Proof.
  intros Hs Hreq. unfold append_txn_batch_with_lsn_sync. rewrite st_bind_gets. unfold id, txn_batch.
  assert ((if req =? 0 then None else sn_requests n !! req) = None) as -> by (rewrite Hreq; by destruct (req =? 0)).
  case_bool_decide; [by eexists|]. case_match; [by eexists|]. destruct (image_records_cases writes start) as [[rs ->]|[err ->]]; [|by eexists].
  obind. rewrite (st_bind_lift _ _ _ (inr {| request_id := req; start_lsn := start; end_lsn := e; records := rs |})) by reflexivity.
  eexists. unfold append_wal_batch_sync, append_check.
  assert (validate_incoming_wal_batch {| request_id := req; start_lsn := start; end_lsn := e; records := rs |} n = Fail (Io InvalidInput)) as Hv.
  { unfold validate_incoming_wal_batch. cbn [start_lsn]. by rewrite (proj2 (Z.eqb_neq _ _)). }
  erewrite st_bind_fail; [reflexivity|]. erewrite st_bind_fail; [reflexivity|]. rewrite st_bind_gets. unfold id. erewrite st_bind_fail; [reflexivity|].
  unfold lift. by rewrite Hv.
Qed.

#[local] Opaque append_txn_batch_with_lsn_sync.

Lemma call_frozen {A} i j (h : StorageNode -> outcome Error A * StorageNode) c r c' n :
  call i h c = (r, c') -> nodes c !! j = Some n -> (i = j -> exists err, h n = (Fail err, n)) ->
  nodes c' !! j = Some n /\ (i = j -> exists err, r = Fail err).
Proof.
  unfold call. intros Hc Hj Hh. destruct (decide (i = j)) as [->|Hne].
  - destruct (Hh eq_refl) as [err He]. rewrite Hj in Hc. pose proof (lookup_lt_Some _ _ _ Hj). destruct (next_delivery (net c)) as [[] l];
      rewrite ?He in Hc; injection Hc as <- <-; cbn; (split; [by rewrite ?list_lookup_insert_eq|by eexists]).
  - destruct (nodes c !! i) as [ni|] eqn:Hi; [|injection Hc as <- <-; by split].
    destruct (next_delivery (net c)) as [[] l]; [|by injection Hc as <- <-|]; destruct (h ni); injection Hc as <- <-; cbn; (split; [by rewrite list_lookup_insert_ne|done]).
Qed.

(** The nodes of [B] stay behind. *)
Definition behind (B : list nat) (w : ComputeSequencer * Cluster) : Prop :=
  forall i, i ∈ B -> exists n, nodes w.2 !! i = Some n /\ sn_durable n < sq_next_lsn w.1 /\
    forall r, sq_request_id w.1 <= r -> sn_requests n !! r = None.

Lemma fan_out_behind {AL : Allocator} now ms req start e writes (B clients : list nat) : forall c rs c',
  fan_out now ms req start e writes clients c = (rs, c') ->
  (forall i, i ∈ B -> exists n, nodes c !! i = Some n /\ start <> sn_durable n /\ sn_requests n !! req = None) ->
  (forall i, i ∈ B -> nodes c' !! i = nodes c !! i) /\ zlen (omap (ack e) rs) <= zlen (filter (fun i => i ∉ B) clients).
Proof.
  induction clients as [|i clients IH]; intros c rs c' Hf HB; [injection Hf as <- <-; done|]. cbn in Hf.
  destruct (append_txn_batch now ms i req start e writes c) as [r c1] eqn:Hr. destruct (fan_out now ms req start e writes clients c1) as [rs1 c2] eqn:Hf1.
  injection Hf as <- <-. unfold append_txn_batch in Hr.
  assert (H1 : forall j, j ∈ B -> nodes c1 !! j = nodes c !! j /\ (i = j -> exists err, r = Fail err)).
  { intros j Hj. destruct (HB j Hj) as (n & Hn & Hd & Hq). rewrite Hn. apply (call_frozen i j _ c r c1 n Hr Hn). intros ->.
    destruct (node_refuses now ms req start e writes n Hd Hq) as [err He]. exists err. unfold serve_append_txn_batch. by rewrite (st_bind_fail _ _ _ _ _ He). }
  destruct (IH c1 rs1 c2 Hf1) as [H2 H3].
  { intros j Hj. destruct (HB j Hj) as (n & Hn & Hrest). exists n. by rewrite (proj1 (H1 j Hj)). }
  split; [intros j Hj; by rewrite H2, (proj1 (H1 j Hj))|]. rewrite filter_cons. cbn [omap list_omap].
  case_decide as Hi.
  - rewrite zlen_cons. destruct (ack e r); rewrite ?zlen_cons; lia.
  - destruct (decide (i ∈ B)) as [HiB|]; [|done]. destruct (proj2 (H1 i HiB) eq_refl) as [err ->]. cbn. lia.
Qed.

(** Later states: commits one after the other, below the limits of LSNs and request ids. *)
Inductive later {AL : Allocator} (w : ComputeSequencer * Cluster) : ComputeSequencer * Cluster -> Prop :=
| later_refl : later w w
| later_commit w1 now ms writes r w2 :
    later w w1 -> sq_next_lsn w1.1 + zlen writes < U64 -> 0 <= sq_next_lsn w1.1 -> sq_request_id w1.1 + 1 < U64 -> 0 <= sq_request_id w1.1 ->
    commit_txn_batch now ms writes w1 = Some (r, w2) -> later w w2.

Definition same_clients (s s' : ComputeSequencer) : Prop := sq_clients s' = sq_clients s /\ sq_quorum s' = sq_quorum s.

Lemma commit_behind {AL : Allocator} (B : list nat) now ms writes w r w' :
  behind B w -> sq_next_lsn w.1 + zlen writes < U64 -> 0 <= sq_next_lsn w.1 -> sq_request_id w.1 + 1 < U64 -> 0 <= sq_request_id w.1 ->
  commit_txn_batch now ms writes w = Some (r, w') ->
  behind B w' /\ (forall i, i ∈ B -> nodes w'.2 !! i = nodes w.2 !! i) /\ same_clients w.1 w'.1 /\
  (zlen (filter (fun i => i ∉ B) (sq_clients w.1)) < sq_quorum w.1 -> is_ret r = false).
Proof.
  destruct w as [s c]. cbn [fst snd]. intros HB Hn Hn0 Hr Hr0 Hc. pose proof (zlen_nonneg writes) as Hw.
  unfold commit_txn_batch, reserve_txn, allocate_request_id, reserve_txn_with_request_id in Hc. cbn [fst snd sq_clients sq_quorum sq_next_lsn sq_request_id sq_durable_lsn sq_dispatch_lsn] in Hc.
  unfold wrap64 in Hc. rewrite !Z.mod_small in Hc by lia.
  assert (Hkeep : forall nx d p, sq_next_lsn s <= nx ->
    behind B (mkSequencer (sq_clients s) (sq_quorum s) nx (sq_request_id s + 1) d p, c)).
  { intros nx d p Hx i Hi. destruct (HB i Hi) as (n & H1 & H2 & H3). exists n. cbn in *. split_and!; [done|lia|]. intros q Hq. apply H3. lia. }
  assert (Hsame : forall nx d p, same_clients s (mkSequencer (sq_clients s) (sq_quorum s) nx (sq_request_id s + 1) d p)) by done.
  assert (Hstop : forall e nx d p, sq_next_lsn s <= nx -> (Fail e, (mkSequencer (sq_clients s) (sq_quorum s) nx (sq_request_id s + 1) d p, c)) = (r, w') ->
    behind B w' /\ (forall i, i ∈ B -> nodes w'.2 !! i = nodes c !! i) /\ same_clients s w'.1 /\
    (zlen (filter (fun i => i ∉ B) (sq_clients s)) < sq_quorum s -> is_ret r = false)).
  { intros e nx d p Hnx Heq. injection Heq as <- <-. split_and!; [by apply Hkeep|done|done|done]. }
  destruct (zlen writes =? 0); [cbn in Hc; injection Hc as Hc1 Hc2; eapply (Hstop _ (sq_next_lsn s)); [lia|by f_equal]|].
  destruct (MAX_WRITES_PER_TXN <? zlen writes); [cbn in Hc; injection Hc as Hc1 Hc2; eapply (Hstop _ (sq_next_lsn s)); [lia|by f_equal]|].
  destruct (sq_request_id s =? 0); [cbn in Hc; injection Hc as Hc1 Hc2; eapply (Hstop _ (sq_next_lsn s)); [lia|by f_equal]|].
  cbn [mbind outcome_bind] in Hc. unfold commit_reserved_txn_batch in Hc. destruct (dispatch_turn _ _); [|injection Hc as Hc1 Hc2; eapply (Hstop _ (sq_next_lsn s + zlen writes)); [lia|by f_equal]|done].
  unfold dispatch in Hc. cbn [fst snd sq_clients sq_quorum sq_next_lsn sq_request_id sq_durable_lsn sq_dispatch_lsn] in Hc.
  destruct (fan_out now ms (sq_request_id s) (sq_next_lsn s) (sq_next_lsn s + zlen writes) writes (sq_clients s) c) as [rs c1] eqn:Hf.
  destruct (fan_out_behind now ms _ _ _ writes B _ c rs c1 Hf) as [H1 H2].
  { intros i Hi. destruct (HB i Hi) as (n & Hni & Hdn & Hrq). exists n. cbn in Hni, Hdn, Hrq. split_and!; [done|lia|apply Hrq; lia]. }
  assert (Hkeep' : forall nx d p, sq_next_lsn s <= nx -> behind B (mkSequencer (sq_clients s) (sq_quorum s) nx (sq_request_id s + 1) d p, c1)).
  { intros nx d p Hx i Hi. destruct (Hkeep nx d p Hx i Hi) as (n & Hni & Hrest). exists n. cbn [snd] in *. by rewrite H1. }
  destruct (forallb answered rs); [|injection Hc as <- <-; cbn; split_and!; [apply Hkeep'; lia|done|done|done]]. cbn [negb] in Hc.
  unfold set_dispatch in Hc. cbn [sq_clients sq_quorum sq_next_lsn sq_request_id sq_durable_lsn sq_dispatch_lsn] in Hc.
  destruct (Z.ltb_spec (zlen (omap (ack (sq_next_lsn s + zlen writes)) rs)) (sq_quorum s)) as [Hq|Hq];
    [injection Hc as <- <-; cbn; split_and!; [apply Hkeep'; lia|done|done|done]|].
  case_match; injection Hc as <- <-; cbn; (split_and!; [apply Hkeep'; lia|done|done|]); [intros Hlt; lia|done].
Qed.

(** C34: a node that misses a batch is lost for good: when the log of a node ends before the
    next LSN of the sequencer, the node refuses every later batch and does not change, and
    once fewer nodes than a quorum are up to date, no commit succeeds any more, however the
    network behaves. *)
Theorem missed_batch_never_recovered {AL : Allocator} (B : list nat) w w' :
  behind B w -> later w w' ->
  (forall i, i ∈ B -> nodes w'.2 !! i = nodes w.2 !! i) /\
  (zlen (filter (fun i => i ∉ B) (sq_clients w.1)) < sq_quorum w.1 ->
   forall now ms writes r w'', sq_next_lsn w'.1 + zlen writes < U64 -> 0 <= sq_next_lsn w'.1 -> 0 <= sq_request_id w'.1 < U64 - 1 ->
     commit_txn_batch now ms writes w' = Some (r, w'') -> is_ret r = false).
Proof.
  intros HB Hl. assert (Hinv : behind B w' /\ (forall i, i ∈ B -> nodes w'.2 !! i = nodes w.2 !! i) /\ same_clients w.1 w'.1).
  { induction Hl as [|w1 now ms writes r w2 Hl IH Hn Hn0 Hr Hr0 Hc]; [done|]. destruct IH as (H1 & H2 & H3 & H4).
    destruct (commit_behind B now ms writes w1 r w2 H1 Hn Hn0 Hr Hr0 Hc) as (G1 & G2 & [G3 G4] & _).
    split; [done|]. split; [intros i Hi; by rewrite G2, H2|]. split; congruence. }
  destruct Hinv as (H1 & H2 & H3 & H4). split; [done|]. intros Hq now ms writes r w'' Hn Hn0 Hr Hc.
  destruct (commit_behind B now ms writes w' r w'' H1 Hn Hn0 ltac:(lia) ltac:(lia) Hc) as (_ & _ & _ & G). apply G. by rewrite H3, H4.
Qed.

(** All three nodes have to take a batch and expect LSN 1, the sequencer is at LSN 2. *)
Definition ahead_seq : ComputeSequencer := mkSequencer [0; 1; 2]%nat 3 2 100 2 2.

Lemma missed_batch_never_recovered_witness :
  behind [2]%nat (ahead_seq, three) /\ later (ahead_seq, three) (ahead_seq, three) /\
  forall r w'', commit_txn_batch 0 0 first_writes (ahead_seq, three) = Some (r, w'') -> is_ret r = false.
Proof.
  assert (HB : behind [2]%nat (ahead_seq, three)).
  { intros i Hi. apply list_elem_of_singleton in Hi as ->. exists NodeProps.new_node. split; [reflexivity|]. split; [cbn; lia|]. intros r _. apply lookup_empty. }
  split; [exact HB|]. split; [exact (later_refl _)|]. intros r w''.
  destruct (missed_batch_never_recovered [2]%nat _ _ HB (later_refl _)) as [_ H].
  apply (H ltac:(reflexivity) 0 0 first_writes); cbn [fst ahead_seq sq_next_lsn sq_request_id]; unfold U64; [|lia|lia].
  change (zlen first_writes) with 1. lia.
Defined.

(** ** Reservations *)

(** The sequencer, its reserved batches that are not yet sent, and those that were sent. *)
Record sys := mkSys {
  sy_world : ComputeSequencer * Cluster;
  sy_open : list (Z * Z);
  sy_sent : list (Z * Z)
}.

(** A commit reserves its LSNs; when it is its turn it sends its batch; it may also end with
    an error between the two and never send it. *)
Inductive step {AL : Allocator} : sys -> sys -> Prop :=
| step_reserve n s c os sent s' req a b :
    0 < n -> sq_next_lsn s + n < U64 -> 0 <= sq_next_lsn s -> reserve_txn n s = (Ret (req, a, b), s') ->
    step (mkSys (s, c) os sent) (mkSys (s', c) (os ++ [(a, b)]) sent)
| step_send now ms req writes w w' r os1 a b os2 sent :
    commit_reserved_txn_batch now ms req a b writes w = Some (r, w') -> r <> Spin -> r <> Panic ->
    dispatch_turn a w.1 = Go ->
    step (mkSys w (os1 ++ (a, b) :: os2) sent) (mkSys w' (os1 ++ os2) (sent ++ [(a, b)]))
| step_give_up w os1 r os2 sent :
    step (mkSys w (os1 ++ r :: os2) sent) (mkSys w (os1 ++ os2) sent).

Definition steps {AL : Allocator} : sys -> sys -> Prop := rtc step.

Definition apart (p q : Z * Z) : Prop := p.2 <= q.1 \/ q.2 <= p.1.

Record sys_ok (t : sys) : Prop := {
  so_range : Forall (fun p => sq_dispatch_lsn (sy_world t).1 <= p.1 < p.2 /\ p.2 <= sq_next_lsn (sy_world t).1) (sy_open t);
  so_apart : ForallOrdPairs apart (sy_open t);
  so_le : sq_dispatch_lsn (sy_world t).1 <= sq_next_lsn (sy_world t).1
}.

(** The sent batches follow each other without a gap, up to the next one to be sent. *)
Fixpoint chain (from : Z) (sent : list (Z * Z)) (to : Z) : Prop :=
  match sent with [] => from = to | (a, b) :: sent => a = from /\ chain b sent to end.

Lemma chain_snoc sent : forall from a b, chain from sent a -> chain from (sent ++ [(a, b)]) b.
Proof. induction sent as [|[x y] sent IH]; intros from a b; cbn; [by intros ->|]. intros [-> H]. split; [done|]. by apply IH. Qed.

Lemma send_dispatch {AL : Allocator} now ms req a b writes w r w' :
  commit_reserved_txn_batch now ms req a b writes w = Some (r, w') -> r <> Spin -> r <> Panic -> dispatch_turn a w.1 = Go ->
  sq_dispatch_lsn w.1 = a /\ sq_dispatch_lsn w'.1 = b /\ sq_next_lsn w'.1 = sq_next_lsn w.1.
Proof.
  intros Hc H1 H2 Hg. unfold commit_reserved_txn_batch in Hc. rewrite Hg in Hc. unfold dispatch_turn in Hg.
  destruct (Z.eqb_spec (sq_dispatch_lsn w.1) a) as [->|]; [|by case_match]. destruct w as [s c]. unfold dispatch in Hc. cbn [fst snd] in *.
  destruct (fan_out _ _ _ _ _ _ _ _) as [rs c1]. destruct (forallb answered rs); cbn [negb] in Hc; [|injection Hc as <- <-; done].
  case_match; [injection Hc as <- <-; done|]. case_match; injection Hc as <- <-; done.
Qed.

Lemma reserve_inv n s req a b s' :
  0 < n -> sq_next_lsn s + n < U64 -> 0 <= sq_next_lsn s -> reserve_txn n s = (Ret (req, a, b), s') ->
  a = sq_next_lsn s /\ b = sq_next_lsn s + n /\ sq_next_lsn s' = sq_next_lsn s + n /\ sq_dispatch_lsn s' = sq_dispatch_lsn s.
Proof.
  intros Hn Hu H0 Hres. unfold reserve_txn, allocate_request_id, reserve_txn_with_request_id in Hres. cbn in Hres.
  rewrite (proj2 (Z.eqb_neq n 0)) in Hres by lia. destruct (MAX_WRITES_PER_TXN <? n); [done|]. destruct (sq_request_id s =? 0); [done|].
  cbn in Hres. unfold wrap64 in Hres. rewrite (Z.mod_small (sq_next_lsn s + n)) in Hres by lia. injection Hres as <- <- <- <-. done.
Qed.

Lemma ForallOrdPairs_app {A} (R : A -> A -> Prop) l k :
  ForallOrdPairs R (l ++ k) <-> ForallOrdPairs R l /\ ForallOrdPairs R k /\ Forall (fun x => Forall (R x) k) l.
Proof.
  induction l as [|x l IH]; cbn.
  - split; [intros H; split_and!; [constructor|done|by apply Forall_nil]|by intros (_ & H & _)].
  - split.
    + inversion 1 as [|y l' Hf Ho]; subst. apply IH in Ho as (H1 & H2 & H3). apply Forall_app in Hf as [Hf1 Hf2].
      split_and!; [by constructor|done|by apply Forall_cons].
    + intros (H1 & H2 & H3). inversion H1; subst. apply Forall_cons in H3 as [Hx Hl]. constructor; [by apply Forall_app|by apply IH].
Qed.

Lemma step_ok {AL : Allocator} t t' : step t t' -> sys_ok t -> sys_ok t'.
Proof.
  intros Hs [Hr Ha Hle]. destruct Hs as [n s c os sent s' req a b Hn Hu H0 Hres|now ms req writes w w' r os1 a b os2 sent Hc H1 H2 Hg|w os1 r os2 sent]; cbn [sy_world sy_open] in *.
  - destruct (reserve_inv n s req a b s' Hn Hu H0 Hres) as (-> & -> & Hnx & Hdx). split; cbn; rewrite ?Hnx, ?Hdx.
    + apply Forall_app. split; [eapply Forall_impl; [exact Hr|]; cbn; lia|]. apply Forall_singleton. cbn in *. lia.
    + apply ForallOrdPairs_app. split_and!; [done|by repeat constructor|]. eapply Forall_impl; [exact Hr|]. intros p Hp. apply Forall_singleton. left. cbn in *. lia.
    + cbn in *. lia.
  - destruct (send_dispatch now ms req a b writes w r w' Hc H1 H2 Hg) as (Hd & Hd' & Hn). apply Forall_app in Hr as [Hr1 Hr2]. apply Forall_cons in Hr2 as [Hab Hr2].
    apply ForallOrdPairs_app in Ha as (A1 & A2 & A3). inversion A2 as [|y l' Hf Ho]; subst. cbn in Hab. split; cbn; rewrite ?Hd', ?Hn.
    + apply Forall_app. split.
      * rewrite Forall_forall in *. intros p Hp. specialize (Hr1 p Hp). specialize (A3 p Hp). apply Forall_cons in A3 as [[?|?] _]; cbn in *; lia.
      * rewrite Forall_forall in *. intros p Hp. specialize (Hr2 p Hp). specialize (Hf p Hp) as [?|?]; cbn in *; lia.
    + apply ForallOrdPairs_app. split_and!; [done|done|]. eapply Forall_impl; [exact A3|]. intros p Hp. by apply Forall_cons in Hp as [_ Hp].
    + lia.
  - apply Forall_app in Hr as [Hr1 Hr2]. apply Forall_cons in Hr2 as [_ Hr2]. apply ForallOrdPairs_app in Ha as (A1 & A2 & A3). inversion A2; subst.
    split; [by apply Forall_app|apply ForallOrdPairs_app; split_and!; [done|done|]|done]. eapply Forall_impl; [exact A3|]. intros p Hp. by apply Forall_cons in Hp as [_ Hp].
Qed.

Lemma steps_ok {AL : Allocator} t t' : steps t t' -> sys_ok t -> sys_ok t'.
Proof. induction 1 as [|t t1 t' Hs _ IH]; [done|]. intros Hok. apply IH. by eapply step_ok. Qed.

(** C33: a commit that ends with an error after it has reserved its LSNs blocks the sequencer
    for ever: once a reservation is given up, the LSN to be sent next never passes it, and
    every batch reserved after it waits for its turn in every later state. *)
Theorem given_up_reservation_blocks {AL : Allocator} w os1 a b os2 sent t' :
  sys_ok (mkSys w (os1 ++ (a, b) :: os2) sent) -> steps (mkSys w (os1 ++ os2) sent) t' ->
  sq_dispatch_lsn (sy_world t').1 <= a /\
  forall x y, (x, y) ∈ sy_open t' -> a < x -> dispatch_turn x (sy_world t').1 = Wait.
Proof.
  intros Hok Hs. assert (Hok1 : sys_ok (mkSys w (os1 ++ os2) sent)) by (eapply step_ok; [apply step_give_up|exact Hok]).
  assert (Hinv : sq_dispatch_lsn w.1 <= a < b /\ b <= sq_next_lsn w.1 /\ Forall (apart (a, b)) (os1 ++ os2)).
  { destruct Hok as [Hr Ha _]. cbn in Hr, Ha. apply Forall_app in Hr as [_ Hr]. apply Forall_cons in Hr as [Hab _]. cbn in Hab.
    apply ForallOrdPairs_app in Ha as (_ & A2 & A3). inversion A2 as [|y l' Hf Ho]; subst. split_and!; [lia|lia|lia|].
    apply Forall_app. split; [|done]. eapply Forall_impl; [exact A3|]. intros p Hp. apply Forall_cons in Hp as [[?|?] _]; [by right|by left]. }
  assert (Hgen : forall t t', steps t t' -> sys_ok t ->
    sq_dispatch_lsn (sy_world t).1 <= a < b /\ b <= sq_next_lsn (sy_world t).1 /\ Forall (apart (a, b)) (sy_open t) -> sq_dispatch_lsn (sy_world t').1 <= a).
  { clear. intros t t' Hs. induction Hs as [|t t1 t' H1 _ IH]; intros Hok (Hd & Hn & Hap); [lia|]. apply IH; [by eapply step_ok|].
    destruct H1 as [n s c os sent s' req p q Hn0 Hu H0 Hres|now ms req writes w w' r os1 p q os2 sent Hc H1 H2 Hg|w os1 r os2 sent]; cbn [sy_world sy_open fst snd] in *.
    - destruct (reserve_inv n s req p q s' Hn0 Hu H0 Hres) as (-> & -> & Hnx & Hdx). rewrite Hnx, Hdx. split_and!; [lia|lia|lia|].
      apply Forall_app. split; [done|]. apply Forall_singleton. left. cbn. lia.
    - destruct (send_dispatch now ms req p q writes w r w' Hc H1 H2 Hg) as (Hd1 & Hd' & Hn'). apply Forall_app in Hap as [Hp1 Hp2]. apply Forall_cons in Hp2 as [Hpq Hp2].
      destruct Hpq as [?|?]; cbn in *; [lia|]. split_and!; [lia|lia|lia|]. by apply Forall_app.
    - apply Forall_app in Hap as [Hp1 Hp2]. apply Forall_cons in Hp2 as [_ Hp2]. split_and!; [lia|lia|lia|]. by apply Forall_app. }
  pose proof (Hgen _ _ Hs Hok1 Hinv) as Hd. split; [done|]. intros x y _ Hx. unfold dispatch_turn.
  rewrite (proj2 (Z.eqb_neq _ _)), (proj2 (Z.ltb_ge _ _)) by lia. done.
Qed.

(** Two batches are reserved and the first is given up: the second waits. *)
Lemma given_up_reservation_blocks_witness :
  let s := mkSequencer [0; 1; 2]%nat 2 3 79 1 1 in
  steps (mkSys (s, three) [(2, 3)] []) (mkSys (s, three) [(2, 3)] []) /\ dispatch_turn 2 s = Wait.
Proof.
  intros s. assert (Hs : steps (mkSys (s, three) [(2, 3)] []) (mkSys (s, three) [(2, 3)] [])) by apply rtc_refl.
  assert (Hok : sys_ok (mkSys (s, three) [(1, 2); (2, 3)] [])).
  { split; cbn; [repeat (apply Forall_cons; split; [cbn; lia|]); by apply Forall_nil| |lia].
    constructor; [apply Forall_singleton; left; cbn; lia|]. by repeat constructor. }
  split; [exact Hs|]. apply (proj2 (given_up_reservation_blocks (s, three) [] 1 2 [(2, 3)] [] _ Hok Hs) 2 3); [|lia]. by apply list_elem_of_singleton.
Defined.

(** *** Without a commit that gives up *)

Inductive send_step {AL : Allocator} : sys -> sys -> Prop :=
| send_reserve n s c os sent s' req a b :
    0 < n -> sq_next_lsn s + n < U64 -> 0 <= sq_next_lsn s -> reserve_txn n s = (Ret (req, a, b), s') ->
    send_step (mkSys (s, c) os sent) (mkSys (s', c) (os ++ [(a, b)]) sent)
| send_send now ms req writes w w' r os1 a b os2 sent :
    commit_reserved_txn_batch now ms req a b writes w = Some (r, w') -> r <> Spin -> r <> Panic ->
    dispatch_turn a w.1 = Go ->
    send_step (mkSys w (os1 ++ (a, b) :: os2) sent) (mkSys w' (os1 ++ os2) (sent ++ [(a, b)])).

(** The open reservations, in some order, lead from the LSN to be sent next to the next to be
    reserved. *)
Definition tiled (t : sys) : Prop :=
  exists ch, sy_open t ≡ₚ ch /\ chain (sq_dispatch_lsn (sy_world t).1) ch (sq_next_lsn (sy_world t).1) /\ Forall (fun p => p.1 < p.2) ch.

Lemma chain_starts ch : forall from to p, chain from ch to -> Forall (fun p => p.1 < p.2) ch -> p ∈ ch -> from <= p.1.
Proof.
  induction ch as [|[a b] ch IH]; intros from to p Hc Hf Hp; [by apply elem_of_nil in Hp|]. destruct Hc as [-> Hc]. apply Forall_cons in Hf as [Hab Hf].
  apply elem_of_cons in Hp as [->|Hp]; [done|]. specialize (IH _ _ _ Hc Hf Hp). cbn in *. lia.
Qed.

Lemma tiled_step {AL : Allocator} t t' d0 :
  send_step t t' -> tiled t -> chain d0 (sy_sent t) (sq_dispatch_lsn (sy_world t).1) ->
  tiled t' /\ chain d0 (sy_sent t') (sq_dispatch_lsn (sy_world t').1).
Proof.
  intros Hs (ch & Hp & Hc & Hf) Hch. destruct Hs as [n s c os sent s' req a b Hn Hu H0 Hres|now ms req writes w w' r os1 a b os2 sent Hcm H1 H2 Hg]; cbn [sy_world sy_open sy_sent fst snd] in *.
  - destruct (reserve_inv n s req a b s' Hn Hu H0 Hres) as (-> & -> & Hnx & Hdx). rewrite Hdx. split; [|done]. unfold tiled. cbn [sy_world sy_open fst]. rewrite Hnx, Hdx.
    exists (ch ++ [(sq_next_lsn s, sq_next_lsn s + n)]). split_and!; [by rewrite Hp|by apply chain_snoc|]. apply Forall_app. split; [done|]. apply Forall_singleton. cbn. lia.
  - destruct (send_dispatch now ms req a b writes w r w' Hcm H1 H2 Hg) as (<- & Hd' & Hn'). split; [|rewrite Hd'; by apply chain_snoc].
    rewrite <-Permutation_middle in Hp. destruct ch as [|[x y] ch]; [by apply Permutation_nil_r in Hp|]. destruct Hc as [-> Hc]. apply Forall_cons in Hf as [Hxy Hf].
    assert (Hin : (sq_dispatch_lsn w.1, b) ∈ (sq_dispatch_lsn w.1, y) :: ch) by (rewrite <-Hp; by left).
    apply elem_of_cons in Hin as [[= ->]|Hin]; [|pose proof (chain_starts ch y _ _ Hc Hf Hin); cbn in *; lia].
    apply (inj (cons _)) in Hp. unfold tiled. cbn [sy_world sy_open]. rewrite Hd', Hn'. by exists ch.
Qed.

(** C32: as long as every commit keeps its reservation until its batch is sent ([send_step]
    has no step that gives one up), batches reach the nodes in the order of their LSNs, each
    beginning where the last one ended, and while there are reservations one of them has its
    turn. *)
Theorem batches_sent_in_order {AL : Allocator} w t :
  sq_next_lsn w.1 = sq_dispatch_lsn w.1 -> rtc send_step (mkSys w [] []) t ->
  chain (sq_dispatch_lsn w.1) (sy_sent t) (sq_dispatch_lsn (sy_world t).1) /\
  (sy_open t <> [] -> exists a b, (a, b) ∈ sy_open t /\ dispatch_turn a (sy_world t).1 = Go).
Proof.
  intros He Hr. assert (Hinv : tiled t /\ chain (sq_dispatch_lsn w.1) (sy_sent t) (sq_dispatch_lsn (sy_world t).1)).
  { apply (rtc_ind_r (R := send_step) (fun t => tiled t /\ chain (sq_dispatch_lsn w.1) (sy_sent t) (sq_dispatch_lsn (sy_world t).1)) (mkSys w [] [])); [|..|exact Hr].
    - split; [|done]. exists []. cbn. by rewrite He.
    - intros t1 t2 _ Hs [H1 H2]. by eapply tiled_step. }
  destruct Hinv as [(ch & Hp & Hc & _) Hch]. split; [done|]. intros Hne. destruct ch as [|[a b] ch]; [by apply Permutation_nil_r in Hp|].
  destruct Hc as [-> _]. exists (sq_dispatch_lsn (sy_world t).1), b. split; [rewrite Hp; by left|]. unfold dispatch_turn. by rewrite Z.eqb_refl.
Qed.

Lemma batches_sent_in_order_witness :
  let s := mkSequencer [0; 1; 2]%nat 2 3 78 1 1 in
  rtc send_step (mkSys (first_seq, three) [] []) (mkSys (s, three) [(1, 3)] []) /\
  exists a b, (a, b) ∈ [(1, 3)] /\ dispatch_turn a s = Go.
Proof.
  intros s. assert (Hr : rtc send_step (mkSys (first_seq, three) [] []) (mkSys (s, three) [(1, 3)] [])).
  { apply rtc_once. apply (send_reserve 2 first_seq three [] [] s 77 1 3); [lia|unfold U64; cbn; lia|cbn; lia|reflexivity]. }
  split; [exact Hr|]. exact (proj2 (batches_sent_in_order (first_seq, three) _ eq_refl Hr) ltac:(discriminate)).
Defined.

(** ** Durable LSNs and the quorum *)

Definition at_least (x : Z) (lsns : list Z) : Z := zlen (filter (fun l => x <= l) lsns).

#[global] Instance desc_total : Total desc.
Proof. intros a b. unfold desc. lia. Qed.
#[global] Instance desc_trans : Transitive desc.
Proof. intros a b c. unfold desc. lia. Qed.

Lemma at_least_perm x l k : l ≡ₚ k -> at_least x l = at_least x k.
Proof. intros Hp. unfold at_least, zlen. f_equal. apply Permutation_length. by apply filter_Permutation. Qed.

(** In a descending list, the elements that reach the one at [i] are at least the first [i + 1]. *)
Lemma sorted_at_least l : forall i x, StronglySorted desc l -> l !! i = Some x ->
  Z.of_nat i + 1 <= at_least x l /\ forall y, x < y -> at_least y l <= Z.of_nat i.
Proof.
  induction l as [|h l IH]; intros i x Hs Hi; [done|]. apply StronglySorted_inv in Hs as [Hs Hf]. rewrite Forall_forall in Hf.
  unfold at_least in *. setoid_rewrite filter_cons. destruct i as [|i]; cbn in Hi.
  - injection Hi as ->. split.
    + rewrite decide_True, zlen_cons by lia. pose proof (zlen_nonneg (filter (fun l => x <= l) l)). lia.
    + intros y Hy. rewrite decide_False by lia. assert (filter (fun l => y <= l) l = []) as ->; [|done].
      clear IH Hs. induction l as [|k l IH]; [done|]. rewrite filter_cons_False; [apply IH; intros; apply Hf; by right|].
      specialize (Hf k ltac:(by left)). unfold desc in Hf. lia.
  - destruct (IH i x Hs Hi) as [H1 H2]. assert (x <= h) by (apply (Hf x); by eapply list_elem_of_lookup_2). split.
    + rewrite decide_True, zlen_cons by lia. lia.
    + intros y Hy. specialize (H2 y Hy). case_decide; rewrite ?zlen_cons; lia.
Qed.

Lemma nth_lsn_max q lsns :
  1 <= q <= zlen lsns -> q <= at_least (nth_lsn q lsns) lsns /\ forall y, q <= at_least y lsns -> y <= nth_lsn q lsns.
Proof.
  intros Hq. unfold nth_lsn, sort_desc. pose proof (merge_sort_Permutation desc lsns) as Hp.
  pose proof (StronglySorted_merge_sort desc lsns) as Hs.
  destruct (lookup_lt_is_Some_2 (merge_sort desc lsns) (Z.to_nat (q - 1))) as [x Hx]; [rewrite Hp; unfold zlen in Hq; lia|].
  rewrite Hx. cbn [default from_option id]. destruct (sorted_at_least _ _ x Hs Hx) as [H1 H2]. rewrite (at_least_perm x _ _ Hp) in H1. split; [lia|].
  intros y Hy. destruct (decide (y <= x)); [done|]. specialize (H2 y ltac:(lia)). rewrite (at_least_perm y _ _ Hp) in H2. lia.
Qed.

(** What the nodes of the clients say when no message is lost. *)
Definition durables (c : Cluster) (clients : list nat) : list Z := omap (fun i => sn_durable <$> nodes c !! i) clients.

Lemma durable_lsns_ok clients : forall c, net c = [] -> (forall i, i ∈ clients -> is_Some (nodes c !! i)) ->
  durable_lsns clients c = (Ret (durables c clients), c) /\ zlen (durables c clients) = zlen clients.
Proof.
  induction clients as [|i clients IH]; intros c Hn Hall; [done|]. destruct (Hall i) as [n Hi]; [by left|].
  assert (Hc : get_durable_lsn i c = (Ret (sn_durable n), c)).
  { unfold get_durable_lsn, call. rewrite Hi, Hn. cbn. rewrite list_insert_id by done. destruct c; cbn in *; by subst. }
  destruct (IH c Hn) as [H1 H2]; [intros j Hj; apply Hall; by right|]. cbn [durable_lsns]. rewrite (st_bind_ret _ _ _ _ _ Hc), (st_bind_ret _ _ _ _ _ H1).
  unfold durables in *. cbn [omap list_omap]. rewrite Hi. cbn. split; [done|]. rewrite !zlen_cons. lia.
Qed.

(** The quorum's durable LSN is the largest one that at least a quorum of the nodes has
    reached. *)
Theorem quorum_durable_lsn_is_max q c :
  net c = [] -> (forall i, i ∈ qc_clients q -> is_Some (nodes c !! i)) -> 1 <= qc_quorum q <= zlen (qc_clients q) ->
  exists x, quorum_durable_lsn q c = (Ret x, c) /\ qc_quorum q <= at_least x (durables c (qc_clients q)) /\
    forall y, qc_quorum q <= at_least y (durables c (qc_clients q)) -> y <= x.
Proof.
  intros Hn Hall Hq. destruct (durable_lsns_ok (qc_clients q) c Hn Hall) as [Hrun Hlen]. unfold quorum_durable_lsn.
  rewrite (st_bind_ret _ _ _ _ _ Hrun). eexists. split; [reflexivity|]. apply nth_lsn_max. lia.
Qed.

Lemma quorum_durable_lsn_is_max_witness :
  exists x, quorum_durable_lsn (mkQuorumClient [0; 1; 2]%nat 2) three = (Ret x, three) /\
    2 <= at_least x (durables three [0; 1; 2]%nat) /\ forall y, 2 <= at_least y (durables three [0; 1; 2]%nat) -> y <= x.
Proof.
  apply (quorum_durable_lsn_is_max (mkQuorumClient [0; 1; 2]%nat 2) three); [reflexivity| |unfold zlen; cbn; lia].
  intros i Hi. cbn in Hi. repeat (apply elem_of_cons in Hi as [->|Hi]; [by eexists|]). by apply elem_of_nil in Hi.
Defined.

(** A compute node that reconnects while one of three storage nodes is down can start
    behind a commit it has acknowledged.  The commit was taken by a quorum of two nodes and
    missed by the third; when one of the two is unreachable, the sequencer connects to the
    others, which are a quorum, and takes the LSN before the commit as the durable one. *)
Theorem reconnect_behind_acknowledged {AL : Allocator} now ms m req start e writes s c seed :
  all_ready m start req s c -> batch_ok req start e writes -> 0 <= start ->
  sq_clients s = [0; 1; 2]%nat -> sq_quorum s = 2 -> net c = [Delivered; Delivered; RequestLost] ->
  (forall n, n ∈ nodes c -> is_ret (append_txn_batch_with_lsn_sync now ms req start e writes n).1 = true) ->
  exists s' c', commit_reserved_txn_batch now ms req start e writes (s, c) = Some (Ret e, (s', c')) /\ start < e <= sq_durable_lsn s' /\
    exists s2, connect (fun i => negb (i =? 0)%nat) seed [0; 1; 2]%nat 2 c' = (Ret s2, c') /\ sq_durable_lsn s2 = start.
Proof.
  intros [Hnd Hq Hd Hall] Hb H0 Hcl Hqu Hnet Hacc. pose proof (bo_end _ _ _ _ Hb) as He. pose proof (bo_some _ _ _ _ Hb) as Hne.
  assert (Hse : start < e) by (rewrite He; destruct writes; [done|]; rewrite zlen_cons; pose proof (zlen_nonneg writes); lia).
  rewrite Hcl in Hall. destruct (Hall 0%nat) as (n0 & Hn0 & R0 & Q0); [by left|]. destruct (Hall 1%nat) as (n1 & Hn1 & R1 & Q1); [by right; left|].
  destruct (Hall 2%nat) as (n2 & Hn2 & R2 & _); [by right; right; left|].
  assert (Htook : forall n, n ∈ nodes c -> ready m start n -> sn_requests n !! req = None ->
    exists n', serve_append_txn_batch now ms req start e writes n = (Ret (e, e), n') /\ sn_durable n' = e).
  { intros n Hn Hr Hreq. destruct (append_node now ms req start e writes m n Hr Hb Hreq) as (took & n' & [_ Hd'] & Hs). exists n'. destruct took; [done|].
    specialize (Hacc n Hn). unfold serve_append_txn_batch in Hs.
    destruct (append_txn_batch_with_lsn_sync now ms req start e writes n) as [[] n3] eqn:E; [|done..]. by rewrite (st_bind_ret _ _ _ _ _ E), st_bind_gets in Hs. }
  destruct (Htook n0) as (n0' & S0 & D0); [by eapply list_elem_of_lookup_2|done|done|].
  destruct (Htook n1) as (n1' & S1 & D1); [by eapply list_elem_of_lookup_2|done|done|].
  destruct c as [ns nt]. cbn [nodes net] in *. subst nt. set (c' := mkCluster (<[1%nat := n1']> (<[0%nat := n0']> ns)) []).
  assert (L0 : (0 < length ns)%nat) by by eapply lookup_lt_Some. assert (L1 : (1 < length ns)%nat) by by eapply lookup_lt_Some.
  assert (Hfan : fan_out now ms req start e writes [0; 1; 2]%nat (mkCluster ns [Delivered; Delivered; RequestLost]) = ([Ret (e, e); Ret (e, e); Fail Capnp], c')).
  { cbn [fan_out]. unfold append_txn_batch, call. cbn [nodes net next_delivery]. rewrite Hn0, S0. cbn [nodes net next_delivery].
    rewrite list_lookup_insert_ne, Hn1, S1 by done. cbn [nodes net next_delivery]. rewrite !list_lookup_insert_ne, Hn2 by done. reflexivity. }
  assert (Hacks : omap (ack e) [Ret (e, e); Ret (e, e); Fail Capnp] = replicate 2 e) by (cbn; by rewrite (proj2 (Z.leb_le e e)) by lia).
  eexists _, c'. split_and!.
  - unfold commit_reserved_txn_batch, dispatch_turn, dispatch. cbn [fst]. rewrite Hd, Z.eqb_refl, Hcl, Hfan, Hacks, Hqu, sort_desc_replicate. reflexivity.
  - done.
  - cbn. lia.
  - exists (mkSequencer [1; 2]%nat 2 start (if seed =? 0 then 1 else seed) start start). split; [|done].
    unfold connect. rewrite bool_decide_false by done. change (quorum_of 2 [0; 1; 2]%nat) with 2. change (reachable _ _) with [1; 2]%nat.
    change (zlen [1; 2]%nat <? 2) with false. cbv iota.
    destruct (durable_lsns_ok [1; 2]%nat c' eq_refl) as [Hrun _].
    { intros i Hi. repeat (apply elem_of_cons in Hi as [->|Hi]; [by apply lookup_lt_is_Some_2; cbn; rewrite !length_insert; apply lookup_lt_Some in Hn2; lia|]). by apply elem_of_nil in Hi. }
    rewrite (st_bind_ret _ _ _ _ _ Hrun). assert (Hdur : durables c' [1; 2]%nat = [e; start]).
    { unfold durables. cbn [omap list_omap nodes c']. rewrite list_lookup_insert_eq by (by rewrite length_insert). cbn [fmap option_fmap option_map].
      rewrite !list_lookup_insert_ne, Hn2 by done. cbn. rewrite D1. by destruct R2 as [_ ->]. }
    rewrite Hdur. assert (Hnth : nth_lsn 2 [e; start] = start).
    { destruct (nth_lsn_max 2 [e; start]) as [G1 G2]; [unfold zlen; cbn; lia|]. apply Z.le_antisymm; [|apply G2].
      - destruct (decide (nth_lsn 2 [e; start] <= start)) as [|Hgt]; [done|]. unfold at_least in G1. rewrite filter_cons, (filter_cons_False _ start []) in G1 by done.
        case_decide; unfold zlen in G1; cbn in G1; lia.
      - unfold at_least. rewrite !filter_cons, !decide_True by lia. done. }
    by rewrite Hnth.
Qed.

Lemma new_node_accepts {AL : Allocator} req : 0 < req < U64 -> is_ret (append_txn_batch_with_lsn_sync 0 0 req 1 2 first_writes NodeProps.new_node).1 = true.
Proof.
  intros Hreq. destruct NodeProps.sample_txn_ok as [_ Hw Hne Hmany _ _].
  destruct (commit_cases 0 0 NodeProps.new_node NodeProps.new_log (fun _ => None) req 2 first_writes NodeProps.new_node_quiet) as (r & n' & L' & Hrun & [(-> & _)|(_ & _ & _ & Hover)]).
  - split; [lia|exact Hw|exact Hne|exact Hmany|reflexivity|unfold U64; lia].
  - right. apply lookup_empty.
  - change (sn_durable NodeProps.new_node) with 1 in Hrun. by rewrite Hrun.
  - exfalso. apply Hover. vm_compute. reflexivity.
Qed.

Lemma reconnect_behind_acknowledged_witness :
  exists s' c', commit_reserved_txn_batch 0 0 77 1 2 first_writes (first_seq, mkCluster (nodes three) [Delivered; Delivered; RequestLost]) = Some (Ret 2, (s', c')) /\
    1 < 2 <= sq_durable_lsn s' /\ exists s2, connect (fun i => negb (i =? 0)%nat) 5 [0; 1; 2]%nat 2 c' = (Ret s2, c') /\ sq_durable_lsn s2 = 1.
Proof.
  apply (reconnect_behind_acknowledged 0 0 (fun _ => None) 77 1 2 first_writes first_seq); [apply three_ready|apply first_batch_ok; unfold U64; lia|lia|reflexivity|reflexivity|reflexivity|].
  intros n Hn. cbn in Hn. assert (n = NodeProps.new_node) as -> by (repeat (apply elem_of_cons in Hn as [?|Hn]; [done|]); by apply elem_of_nil in Hn).
  apply new_node_accepts. unfold U64. lia.
Defined.

End SequencerProps.
