(* ===== verification/Secondary.v ===== *)
(** * Secondary: secondary indexes, their catalog page and their posting log
    (src/src/secondary_index.rs, src/src/secondary_index_meta.rs, src/src/secondary_posting_log.rs)

    An index keeps, for each value of a byte range of the rows, the primary keys that had it,
    each with a history of memberships.  A [BTreeMap] is a finite map walked in the order of
    its keys, a [HashMap] a finite map with the order of its walk as an argument.  A [String]
    is the list of its bytes, which are valid UTF-8. *)

From stdpp Require Import base numbers list list_numbers gmap fin_maps sorting.
From S2P Require Import Prelude Common.

(** ** The standard library: UTF-8 and ordered walks *)

Definition in_b (lo hi b : Z) : bool := (lo <=? b) && (b <=? hi).

(** The byte sequences [str::from_utf8] accepts: the shortest form of every scalar value. *)
Fixpoint utf8_valid (bs : bytes) : bool :=
  match bs with
  | [] => true
  | b0 :: bs =>
      if in_b 0 127 b0 then utf8_valid bs else
      match bs with
      | [] => false
      | b1 :: bs =>
          if in_b 194 223 b0 then in_b 128 191 b1 && utf8_valid bs else
          match bs with
          | [] => false
          | b2 :: bs =>
              if in_b 224 239 b0 then
                (if b0 =? 224 then in_b 160 191 b1 else if b0 =? 237 then in_b 128 159 b1 else in_b 128 191 b1) &&
                in_b 128 191 b2 && utf8_valid bs
              else
              match bs with
              | [] => false
              | b3 :: bs =>
                  in_b 240 244 b0 &&
                  (if b0 =? 240 then in_b 144 191 b1 else if b0 =? 244 then in_b 128 143 b1 else in_b 128 191 b1) &&
                  in_b 128 191 b2 && in_b 128 191 b3 && utf8_valid bs
              end
          end
      end
  end.

Definition from_utf8 (bs : bytes) : outcome Error bytes := if utf8_valid bs then Ret bs else Fail (Io InvalidData).

(** A walk over a [BTreeMap]. *)
Definition by_key {A} (a b : list Z * A) : Prop := bytes_leb a.1 b.1 = true.
#[global] Instance by_key_dec {A} (a b : list Z * A) : Decision (by_key a b) := _ : Decision (bytes_leb a.1 b.1 = true).

Definition entries {A} (m : gmap (list Z) A) : list (list Z * A) := merge_sort by_key (map_to_list m).

(** ** Data *)

Inductive SecondaryIndexKind := IndexBtree (value_offset value_len : Z).

Record SecondaryIndexDefinition := mkDefinition { def_name : bytes; def_kind : SecondaryIndexKind }.

Record SecondaryIndexMutation := mkMutation {
  index_name : bytes;
  secondary_key : bytes;
  primary_key : bytes;
  present : bool
}.

Record PostingVersion := mkPosting { pv_commit_lsn : Z; pv_present : bool }.

Record SecondaryBtreeState := mkBtreeState { postings : gmap (list Z) (gmap (list Z) (list PostingVersion)) }.

Record SecondaryIndexState := mkIndexState { st_def : SecondaryIndexDefinition; st_btree : SecondaryBtreeState }.

Record SecondaryIndexManager := mkIndexManager { indexes : gmap (list Z) SecondaryIndexState }.

#[global] Instance SecondaryIndexKind_eq_dec : EqDecision SecondaryIndexKind.
Proof. solve_decision. Defined.
#[global] Instance SecondaryIndexDefinition_eq_dec : EqDecision SecondaryIndexDefinition.
Proof. solve_decision. Defined.
#[global] Instance SecondaryIndexMutation_eq_dec : EqDecision SecondaryIndexMutation.
Proof. solve_decision. Defined.
#[global] Instance PostingVersion_eq_dec : EqDecision PostingVersion.
Proof. solve_decision. Defined.

(** ** The indexes in memory *)

Module SecIndex.

Abbreviation M := (outcome Error) (only parsing).

Definition empty_state (def : SecondaryIndexDefinition) : SecondaryIndexState := mkIndexState def (mkBtreeState ∅).

Definition default_manager : SecondaryIndexManager := mkIndexManager ∅.

Definition range_bad (value_offset value_len : Z) : bool :=
  (VALUE_SIZE <=? value_offset) || (VALUE_SIZE <? wrap64 (value_offset + value_len)).

(** The loop of [replace_definitions]. *)
Fixpoint new_map (defs : list SecondaryIndexDefinition) (m : gmap (list Z) SecondaryIndexState) :
    M (gmap (list Z) SecondaryIndexState) :=
  match defs with
  | [] => Ret m
  | def :: defs =>
      if bytes_eqb (def_name def) [] then Fail (Io InvalidInput) else
      if bool_decide (is_Some (m !! def_name def)) then Fail (Io InvalidInput) else
      let 'IndexBtree value_offset value_len := def_kind def in
      if (value_len =? 0) || range_bad value_offset value_len then Fail (Io InvalidInput) else
      new_map defs (<[def_name def := empty_state def]> m)
  end.

Definition replace_definitions (defs : list SecondaryIndexDefinition) : st SecondaryIndexManager Error unit :=
  m ← lift (new_map defs ∅);
  modify (fun _ => mkIndexManager m).

Definition create_btree_index (name : bytes) (value_offset value_len : Z) : st SecondaryIndexManager Error unit :=
  if bytes_eqb name [] then throw (Io InvalidInput) else
  if value_len =? 0 then throw (Io InvalidInput) else
  if range_bad value_offset value_len then throw (Io InvalidInput) else
  let def := mkDefinition name (IndexBtree value_offset value_len) in
  m ← gets indexes;
  if bool_decide (is_Some (m !! name)) then throw (Io AlreadyExists) else
  modify (fun mg => mkIndexManager (<[name := empty_state def]> (indexes mg))).

Definition drop_index (name : bytes) (mg : SecondaryIndexManager) : bool * SecondaryIndexManager :=
  (bool_decide (is_Some (indexes mg !! name)), mkIndexManager (base.delete name (indexes mg))).

(** [out.sort_by(|a, b| a.name.cmp(&b.name))] *)
Definition list_indexes (mg : SecondaryIndexManager) : list SecondaryIndexDefinition :=
  (merge_sort by_key ((fun s => (def_name (st_def s), st_def s)) <$> (map_to_list (indexes mg)).*2)).*2.

(** [v[value_offset..value_offset + value_len].to_vec()] *)
Definition index_key (kind : SecondaryIndexKind) (v : bytes) : M bytes :=
  let 'IndexBtree value_offset value_len := kind in get_range v value_offset (wrap64 (value_offset + value_len)).

Definition index_key_opt (kind : SecondaryIndexKind) (v : option bytes) : M (option bytes) :=
  match v with None => Ret None | Some v => key ← index_key kind v; Ret (Some key) end.

Definition mutation_for (name pk : bytes) (key : option bytes) (present : bool) : list SecondaryIndexMutation :=
  match key with None => [] | Some key => [mkMutation name key pk present] end.

(** The body of the loop of [plan_mutations]. *)
Definition plan_index (pk : bytes) (old_value new_value : option bytes) (state : SecondaryIndexState) :
    M (list SecondaryIndexMutation) :=
  old_key ← index_key_opt (def_kind (st_def state)) old_value;
  new_key ← index_key_opt (def_kind (st_def state)) new_value;
  if bool_decide (old_key = new_key) then Ret [] else
  Ret (mutation_for (def_name (st_def state)) pk old_key false ++ mutation_for (def_name (st_def state)) pk new_key true).

Fixpoint plan_all (pk : bytes) (old_value new_value : option bytes) (states : list SecondaryIndexState) :
    M (list SecondaryIndexMutation) :=
  match states with
  | [] => Ret []
  | state :: states =>
      out ← plan_index pk old_value new_value state;
      rest ← plan_all pk old_value new_value states;
      Ret (out ++ rest)
  end.

(** [order]: the names in the order in which the map is walked. *)
Definition values (order : list bytes) (mg : SecondaryIndexManager) : list SecondaryIndexState :=
  omap (fun name => indexes mg !! name) order.

Definition plan_mutations (order : list bytes) (pk : bytes) (old_value new_value : option bytes)
    (mg : SecondaryIndexManager) : M (list SecondaryIndexMutation) :=
  plan_all pk old_value new_value (values order mg).

Definition push_posting (commit_lsn : Z) (present : bool) (history : list PostingVersion) : list PostingVersion :=
  match last history with
  | Some v =>
      if pv_commit_lsn v =? commit_lsn then take (length history - 1) history ++ [mkPosting commit_lsn present]
      else history ++ [mkPosting commit_lsn present]
  | None => history ++ [mkPosting commit_lsn present]
  end.

Definition history_of (st : SecondaryIndexState) (key pk : bytes) : list PostingVersion :=
  default [] (default ∅ (postings (st_btree st) !! key) !! pk).

Definition post (commit_lsn : Z) (m : SecondaryIndexMutation) (st : SecondaryIndexState) : SecondaryIndexState :=
  let by_pk := default ∅ (postings (st_btree st) !! secondary_key m) in
  let history := default [] (by_pk !! primary_key m) in
  mkIndexState (st_def st)
    (mkBtreeState (<[secondary_key m := <[primary_key m := push_posting commit_lsn (present m) history]> by_pk]>
                     (postings (st_btree st)))).

Definition apply_mutation (commit_lsn : Z) (mg : SecondaryIndexManager) (m : SecondaryIndexMutation) :
    SecondaryIndexManager :=
  match indexes mg !! index_name m with
  | None => mg
  | Some st => mkIndexManager (<[index_name m := post commit_lsn m st]> (indexes mg))
  end.

Definition apply_commit (commit_lsn : Z) (mutations : list SecondaryIndexMutation) (mg : SecondaryIndexManager) :
    SecondaryIndexManager :=
  foldl (apply_mutation commit_lsn) mg mutations.

(** [versions.partition_point(|v| v.commit_lsn <= read_lsn)]: the histories are ordered. *)
Fixpoint partition_point (versions : list PostingVersion) (read_lsn : Z) : nat :=
  match versions with
  | [] => O
  | v :: versions => if pv_commit_lsn v <=? read_lsn then S (partition_point versions read_lsn) else O
  end.

Definition visible_membership (versions : list PostingVersion) (read_lsn : Z) : bool :=
  match partition_point versions read_lsn with
  | O => false
  | S i => match versions !! i with Some v => pv_present v | None => false end
  end.

(** The loop of [query_equal]: [out] so far, [limit] at least 1. *)
Fixpoint collect (by_pk : list (bytes * list PostingVersion)) (read_lsn limit : Z) (out : list bytes) : list bytes :=
  match by_pk with
  | [] => out
  | (pk, versions) :: by_pk =>
      if visible_membership versions read_lsn then
        if limit <=? zlen (out ++ [pk]) then out ++ [pk] else collect by_pk read_lsn limit (out ++ [pk])
      else collect by_pk read_lsn limit out
  end.

Definition query_equal {AL : Allocator} (name key : bytes) (read_lsn limit : Z) (mg : SecondaryIndexManager) : M (list bytes) :=
  if limit =? 0 then Ret [] else
  match indexes mg !! name with
  | None => Fail (Io NotFound)
  | Some st =>
      _ ← with_capacity 0 limit KEY_SIZE;
      match postings (st_btree st) !! key with
      | None => Ret []
      | Some by_pk => Ret (collect (entries by_pk) read_lsn limit [])
      end
  end.

End SecIndex.

(** ** The posting log *)

Definition SECONDARY_POSTING_LOG_BASE_PAGE_ID : PageId := 3000000.

Record SecondaryPostingLogState := mkLogState { head_page_id : PageId; tail_page_id : PageId; next_page_id : PageId }.

Module PostingLog.

Abbreviation M := (outcome Error) (only parsing).

(** [b"SKPLOG\0\0"] *)
Definition MAGIC : bytes := [83; 75; 80; 76; 79; 71; 0; 0].
Definition VERSION : Z := 1.
Definition OFF_NEXT_PAGE_ID : Z := 12.
Definition OFF_USED : Z := 20.
Definition OFF_DATA : Z := 22.

Definition default_state : SecondaryPostingLogState := mkLogState 0 0 SECONDARY_POSTING_LOG_BASE_PAGE_ID.

Definition new_log_page : M Page :=
  p ← put_range (zrepeat 0 PAGE_SIZE) 0 8 MAGIC;
  p ← put_range p 8 12 (le_bytes 4 VERSION);
  p ← put_range p OFF_NEXT_PAGE_ID (OFF_NEXT_PAGE_ID + 8) (le_bytes 8 0);
  put_range p OFF_USED (OFF_USED + 2) (le_bytes 2 0).

Definition validate_page (page : bytes) : M unit :=
  if negb (zlen page =? PAGE_SIZE) then Fail (InvalidPageSize (zlen page) PAGE_SIZE) else
  magic ← get_range page 0 8;
  if negb (bytes_eqb magic MAGIC) then Fail (Io InvalidData) else
  ver ← read_le 4 page 8;
  if negb (ver =? VERSION) then Fail (Io InvalidData) else Ret tt.

Definition read_next_page_id (page : bytes) : M PageId :=
  _ ← validate_page page;
  read_le 8 page OFF_NEXT_PAGE_ID.

Definition write_next_page_id (page : bytes) (next : PageId) : M bytes :=
  _ ← validate_page page;
  write_le 8 page OFF_NEXT_PAGE_ID next.

(** The page and whether the record was appended to it. *)
Definition append_record (page : bytes) (commit_lsn : Z) (m : SecondaryIndexMutation) : M (bool * bytes) :=
  _ ← validate_page page;
  used ← read_le 2 page OFF_USED;
  let name := index_name m in
  if (zlen name =? 0) || (U16 - 1 <? zlen name) then Fail (Io InvalidInput) else
  if U16 - 1 <? zlen (secondary_key m) then Fail (Io InvalidInput) else
  let rec_len := 8 + 1 + 2 + zlen name + 2 + zlen (secondary_key m) + KEY_SIZE in
  let write_off := OFF_DATA + used in
  if PAGE_SIZE <? write_off + rec_len then Ret (false, page) else
  let off := write_off in
  page ← put_range page off (off + 8) (le_bytes 8 commit_lsn);
  let off := off + 8 in
  page ← put_at page off (if present m then 1 else 0);
  let off := off + 1 in
  page ← put_range page off (off + 2) (le_bytes 2 (wrap16 (zlen name)));
  let off := off + 2 in
  page ← put_range page off (off + zlen name) name;
  let off := off + zlen name in
  page ← put_range page off (off + 2) (le_bytes 2 (wrap16 (zlen (secondary_key m))));
  let off := off + 2 in
  page ← put_range page off (off + zlen (secondary_key m)) (secondary_key m);
  let off := off + zlen (secondary_key m) in
  page ← put_range page off (off + KEY_SIZE) (primary_key m);
  page ← put_range page OFF_USED (OFF_USED + 2) (le_bytes 2 (wrap16 (used + rec_len)));
  Ret (true, page).

(** One turn of the loop of [decode_records]: the record at [off] and the offset behind it. *)
Definition decode_record (page : bytes) (end_ off : Z) : M ((Z * SecondaryIndexMutation) * Z) :=
  if end_ <? off + 8 + 1 + 2 + 2 + KEY_SIZE then Fail (Io InvalidData) else
  commit_lsn ← read_le 8 page off;
  let off := off + 8 in
  flag ← get_at page off;
  let off := off + 1 in
  name_len ← read_le 2 page off;
  let off := off + 2 in
  if end_ <? off + name_len then Fail (Io InvalidData) else
  name_bytes ← get_range page off (off + name_len);
  index_name ← from_utf8 name_bytes;
  let off := off + name_len in
  sec_len ← read_le 2 page off;
  let off := off + 2 in
  if end_ <? off + sec_len + KEY_SIZE then Fail (Io InvalidData) else
  secondary_key ← get_range page off (off + sec_len);
  let off := off + sec_len in
  pk ← get_range page off (off + KEY_SIZE);
  let off := off + KEY_SIZE in
  Ret ((commit_lsn, mkMutation index_name secondary_key pk (negb (flag =? 0))), off).

Fixpoint decode_loop (fuel : nat) (page : bytes) (end_ off : Z) (out : list (Z * SecondaryIndexMutation)) :
    M (list (Z * SecondaryIndexMutation)) :=
  if end_ <=? off then Ret out else
  match fuel with
  | O => Spin
  | S fuel =>
      '(r, off) ← decode_record page end_ off;
      decode_loop fuel page end_ off (out ++ [r])
  end.

(** A record takes more than one byte. *)
Definition decode_records (page : bytes) : M (list (Z * SecondaryIndexMutation)) :=
  _ ← validate_page page;
  used ← read_le 2 page OFF_USED;
  if PAGE_SIZE <? OFF_DATA + used then Fail (Io InvalidData) else
  decode_loop (Z.to_nat used) page (OFF_DATA + used) OFF_DATA [].

End PostingLog.

(** ** The catalog page *)

Definition SECONDARY_INDEX_META_PAGE_ID : PageId := 9.

Record SecondaryIndexCatalog := mkCatalog {
  cat_defs : list SecondaryIndexDefinition;
  cat_posting_log : SecondaryPostingLogState
}.

Module IndexMeta.

Abbreviation M := (outcome Error) (only parsing).

(** [b"SKS2IDX\0"] *)
Definition CATALOG_MAGIC : bytes := [83; 75; 83; 50; 73; 68; 88; 0].
Definition VERSION_V1 : Z := 1.
Definition VERSION_V2 : Z := 2.
Definition NAME_MAX : Z := 48.
Definition ENTRY_SIZE : Z := 2 + NAME_MAX + 4 + 4 + 1.
Definition KIND_BTREE : Z := 1.
Definition OFF_COUNT_V1 : Z := 12.
Definition OFF_ENTRIES_V1 : Z := 14.
Definition OFF_COUNT_V2 : Z := 12.
Definition OFF_LOG_HEAD_V2 : Z := 14.
Definition OFF_LOG_TAIL_V2 : Z := 22.
Definition OFF_LOG_NEXT_V2 : Z := 30.
Definition OFF_ENTRIES_V2 : Z := 38.

(** The body of the loop of [encode_secondary_index_catalog]. *)
Definition encode_def (p : bytes) (off : Z) (def : SecondaryIndexDefinition) : M (bytes * Z) :=
  let name_bytes := def_name def in
  if (zlen name_bytes =? 0) || (NAME_MAX <? zlen name_bytes) then Fail (Io InvalidInput) else
  p ← put_range p off (off + 2) (le_bytes 2 (wrap16 (zlen name_bytes)));
  let off := off + 2 in
  p ← put_range p off (off + NAME_MAX) (zrepeat 0 NAME_MAX);
  p ← put_range p off (off + zlen name_bytes) name_bytes;
  let off := off + NAME_MAX in
  let 'IndexBtree value_offset value_len := def_kind def in
  if (value_len =? 0) || (VALUE_SIZE <? wrap64 (value_offset + value_len)) then Fail (Io InvalidInput) else
  p ← put_range p off (off + 4) (le_bytes 4 (wrap32 value_offset));
  let off := off + 4 in
  p ← put_range p off (off + 4) (le_bytes 4 (wrap32 value_len));
  let off := off + 4 in
  p ← put_at p off KIND_BTREE;
  Ret (p, off + 1).

Fixpoint encode_defs (p : bytes) (off : Z) (defs : list SecondaryIndexDefinition) : M bytes :=
  match defs with
  | [] => Ret p
  | def :: defs => '(p, off) ← encode_def p off def; encode_defs p off defs
  end.

Definition encode_secondary_index_catalog (catalog : SecondaryIndexCatalog) : M Page :=
  let max_entries := (PAGE_SIZE - OFF_ENTRIES_V2) / ENTRY_SIZE in
  if max_entries <? zlen (cat_defs catalog) then Fail (Io InvalidInput) else
  let log := cat_posting_log catalog in
  p ← put_range (zrepeat 0 PAGE_SIZE) 0 8 CATALOG_MAGIC;
  p ← put_range p 8 12 (le_bytes 4 VERSION_V2);
  p ← put_range p OFF_COUNT_V2 (OFF_COUNT_V2 + 2) (le_bytes 2 (wrap16 (zlen (cat_defs catalog))));
  p ← put_range p OFF_LOG_HEAD_V2 (OFF_LOG_HEAD_V2 + 8) (le_bytes 8 (head_page_id log));
  p ← put_range p OFF_LOG_TAIL_V2 (OFF_LOG_TAIL_V2 + 8) (le_bytes 8 (tail_page_id log));
  p ← put_range p OFF_LOG_NEXT_V2 (OFF_LOG_NEXT_V2 + 8) (le_bytes 8 (next_page_id log));
  encode_defs p OFF_ENTRIES_V2 (cat_defs catalog).

(** The body of the loop of [decode_defs]. *)
Definition decode_def (page : bytes) (off : Z) : M (SecondaryIndexDefinition * Z) :=
  name_len ← read_le 2 page off;
  let off := off + 2 in
  if (name_len =? 0) || (NAME_MAX <? name_len) then Fail (Io InvalidData) else
  name_bytes ← get_range page off (off + name_len);
  name ← from_utf8 name_bytes;
  let off := off + NAME_MAX in
  value_offset ← read_le 4 page off;
  let off := off + 4 in
  value_len ← read_le 4 page off;
  let off := off + 4 in
  kind ← get_at page off;
  if negb (kind =? KIND_BTREE) then Fail (Io InvalidData) else
  Ret (mkDefinition name (IndexBtree value_offset value_len), off + 1).

Fixpoint decode_entries (n : nat) (page : bytes) (off : Z) : M (list SecondaryIndexDefinition) :=
  match n with
  | O => Ret []
  | S n =>
      '(def, off) ← decode_def page off;
      rest ← decode_entries n page off;
      Ret (def :: rest)
  end.

Definition decode_defs (page : bytes) (off_count off_entries : Z) : M (list SecondaryIndexDefinition) :=
  n ← read_le 2 page off_count;
  let max_entries := (PAGE_SIZE - off_entries) / ENTRY_SIZE in
  if max_entries <? n then Fail (Io InvalidData) else decode_entries (Z.to_nat n) page off_entries.

Definition decode_v1 (page : bytes) : M SecondaryIndexCatalog :=
  defs ← decode_defs page OFF_COUNT_V1 OFF_ENTRIES_V1;
  Ret (mkCatalog defs (mkLogState 0 0 SECONDARY_POSTING_LOG_BASE_PAGE_ID)).

Definition decode_v2 (page : bytes) : M SecondaryIndexCatalog :=
  defs ← decode_defs page OFF_COUNT_V2 OFF_ENTRIES_V2;
  head ← read_le 8 page OFF_LOG_HEAD_V2;
  tail ← read_le 8 page OFF_LOG_TAIL_V2;
  next ← read_le 8 page OFF_LOG_NEXT_V2;
  let next := if next <? SECONDARY_POSTING_LOG_BASE_PAGE_ID then SECONDARY_POSTING_LOG_BASE_PAGE_ID else next in
  Ret (mkCatalog defs (mkLogState head tail next)).

Definition decode_secondary_index_catalog (page : bytes) : M SecondaryIndexCatalog :=
  if negb (zlen page =? PAGE_SIZE) then Fail (InvalidPageSize (zlen page) PAGE_SIZE) else
  magic ← get_range page 0 8;
  if negb (bytes_eqb magic CATALOG_MAGIC) then Fail (Io InvalidData) else
  ver ← read_le 4 page 8;
  if ver =? VERSION_V1 then decode_v1 page else
  if ver =? VERSION_V2 then decode_v2 page else Fail (Io InvalidData).

End IndexMeta.
