(* ===== verification/SecondaryProps.v ===== *)
(** * SecondaryProps: what the secondary indexes promise

    The posting log page is a list of mutations, the catalog page reads back as written, and
    an index answers for a snapshot what the rows of that snapshot contain. *)

From stdpp Require Import base numbers list list_numbers gmap fin_maps sorting.
From S2P Require Import Prelude Common Secondary.

(** ** Segments of a page *)

Module Seg.

(** The bytes [bs] at offset [off] of [p]. *)
Definition seg (p : bytes) (off : Z) (bs : bytes) : Prop :=
  0 <= off /\ off + zlen bs <= zlen p /\ sub off (zlen bs) p = bs.

Lemma seg_app p off a b : seg p off (a ++ b) <-> seg p off a /\ seg p (off + zlen a) b.
Proof.
  unfold seg. rewrite zlen_app. pose proof (zlen_nonneg a) as Hna. pose proof (zlen_nonneg b) as Hnb. split.
  - intros (H0 & Hl & Hs). rewrite sub_split in Hs by lia.
    apply app_inj_1 in Hs as [Ha Hb]; [|apply (inj Z.of_nat); change (zlen (sub off (zlen a) p) = zlen a); zlens; lia].
    split_and!; (done || lia).
  - intros ((H0 & Hl & Ha) & (H0' & Hl' & Hb)). split_and!; [done|lia|]. rewrite sub_split by lia. by rewrite Ha, Hb.
Qed.

Lemma seg_read_le {E} p off n v : seg p off (le_bytes n v) -> 0 <= v < 256 ^ Z.of_nat n -> read_le (E:=E) n p off = Ret v.
Proof.
  intros (H0 & Hl & Hs) Hv. rewrite zlen_le_bytes in *. rewrite read_le_ok by done. unfold fld. rewrite Hs.
  by rewrite le_val_bytes_small.
Qed.

Lemma seg_get_range {E} p off bs e : seg p off bs -> e = off + zlen bs -> get_range (E:=E) p off e = Ret bs.
Proof. intros (H0 & Hl & Hs) ->. pose proof (zlen_nonneg bs). rewrite get_range_ok by lia. by rewrite Z.add_simpl_l, Hs. Qed.

Lemma seg_get_at {E} p off x : seg p off [x] -> get_at (E:=E) p off = Ret x.
Proof.
  intros (H0 & Hl & Hs). change (zlen [x]) with 1 in *. unfold get_at. rewrite (proj2 (Z.leb_le _ _)) by lia.
  assert (Hx : sub off 1 p !! Z.to_nat 0 = Some x) by by rewrite Hs.
  rewrite lookup_sub, Z.add_0_r in Hx by lia. by rewrite Hx.
Qed.

Lemma seg_upd p off bs : 0 <= off -> off + zlen bs <= zlen p -> seg (upd off bs p) off bs.
Proof. intros. split; [done|]. split; [zlens; lia|]. by apply sub_upd_same. Qed.

Lemma seg_upd_disjoint p b bs off cs :
  seg p off cs -> 0 <= b -> b + zlen bs <= zlen p -> (off + zlen cs <= b \/ b + zlen bs <= off) -> seg (upd b bs p) off cs.
Proof.
  intros (H0 & Hl & Hs) Hb Hbl Hd. pose proof (zlen_nonneg cs). split; [done|]. split; [zlens; lia|]. by rewrite sub_upd_disjoint by lia.
Qed.

Lemma seg_zrepeat n off m : 0 <= off -> 0 <= m -> off + m <= n -> seg (zrepeat 0 n) off (zrepeat 0 m).
Proof. intros. split; [done|]. rewrite !zlen_zrepeat by lia. split; [done|]. by rewrite sub_zrepeat. Qed.

End Seg.

(** ** The posting log page *)

Module LogProps.
Import Seg PostingLog.

Ltac consts := unfold PAGE_SIZE, KEY_SIZE, OFF_NEXT_PAGE_ID, OFF_USED, OFF_DATA, U16, U64 in *.
Ltac clia := consts; zlens; lia.

Definition flag_byte (m : SecondaryIndexMutation) : Z := if present m then 1 else 0.

Definition rec_bytes (r : Z * SecondaryIndexMutation) : bytes :=
  le_bytes 8 r.1 ++ [flag_byte r.2] ++ le_bytes 2 (zlen (index_name r.2)) ++ index_name r.2 ++
  le_bytes 2 (zlen (secondary_key r.2)) ++ secondary_key r.2 ++ primary_key r.2.

Definition recs_bytes (rs : list (Z * SecondaryIndexMutation)) : bytes := rs ≫= rec_bytes.

(** What the types of the source say of a record, and what [append_record] accepts. *)
Record rec_ok (r : Z * SecondaryIndexMutation) : Prop := {
  ro_lsn : 0 <= r.1 < U64;
  ro_utf8 : utf8_valid (index_name r.2) = true;
  ro_name : 0 < zlen (index_name r.2) < U16;
  ro_key : zlen (secondary_key r.2) < U16;
  ro_pk : zlen (primary_key r.2) = KEY_SIZE
}.

Definition rec_len (m : SecondaryIndexMutation) : Z := 29 + zlen (index_name m) + zlen (secondary_key m).

Lemma rec_bytes_len r : rec_ok r -> zlen (rec_bytes r) = rec_len r.2.
Proof. intros []. unfold rec_bytes, rec_len. zlens. consts. change (zlen [flag_byte r.2]) with 1. lia. Qed.

(** A page of the log with the records [rs]. *)
Record log_page (p : bytes) (rs : list (Z * SecondaryIndexMutation)) (next : PageId) : Prop := {
  lp_len : zlen p = PAGE_SIZE;
  lp_magic : seg p 0 MAGIC;
  lp_version : seg p 8 (le_bytes 4 VERSION);
  lp_next : seg p OFF_NEXT_PAGE_ID (le_bytes 8 next);
  lp_used : seg p OFF_USED (le_bytes 2 (zlen (recs_bytes rs)));
  lp_body : seg p OFF_DATA (recs_bytes rs);
  lp_ok : Forall rec_ok rs;
  lp_id : 0 <= next < U64
}.

Lemma log_page_valid p rs next : log_page p rs next -> validate_page p = Ret tt.
Proof.
  intros []. unfold validate_page. rewrite lp_len0, Z.eqb_refl. cbn [negb].
  rewrite (seg_get_range p 0 MAGIC 8) by done. obind.
  destruct (bytes_eqb_spec MAGIC MAGIC) as [_|]; [|done]. cbn [negb].
  rewrite (seg_read_le p 8 4 VERSION) by done. obind. done.
Qed.

Lemma log_page_room p rs next : log_page p rs next -> 0 <= zlen (recs_bytes rs) <= PAGE_SIZE - OFF_DATA.
Proof. intros []. destruct lp_body0 as (_ & Hl & _). rewrite lp_len0 in Hl. pose proof (zlen_nonneg (recs_bytes rs)). lia. Qed.

Lemma log_page_used p rs next : log_page p rs next -> read_le (E:=Error) 2 p OFF_USED = Ret (zlen (recs_bytes rs)).
Proof. intros Hp. pose proof (log_page_room p rs next Hp). destruct Hp. apply seg_read_le; [done|]. clia. Qed.

Lemma new_log_page_ok : exists p, new_log_page = Ret p /\ log_page p [] 0.
Proof.
  unfold new_log_page. assert (zlen MAGIC = 8) as Hm by done. do 4 (rewrite put_range_ok by clia; obind).
  eexists. split; [reflexivity|]. split; cbn [recs_bytes mbind list_bind].
  - clia.
  - repeat (apply seg_upd_disjoint; [|clia|clia|clia]). apply seg_upd; clia.
  - repeat (apply seg_upd_disjoint; [|clia|clia|clia]). apply seg_upd; clia.
  - repeat (apply seg_upd_disjoint; [|clia|clia|clia]). apply seg_upd; clia.
  - apply seg_upd; clia.
  - split; [clia|]. split; [clia|]. done.
  - apply Forall_nil; done.
  - unfold U64; lia.
Qed.

Lemma append_record_log p rs next lsn m :
  log_page p rs next -> rec_ok (lsn, m) ->
  exists p',
    append_record p lsn m = Ret (bool_decide (OFF_DATA + zlen (recs_bytes rs) + rec_len m <= PAGE_SIZE), p') /\
    if bool_decide (OFF_DATA + zlen (recs_bytes rs) + rec_len m <= PAGE_SIZE)
    then log_page p' (rs ++ [(lsn, m)]) next else p' = p.
Proof.
  intros Hp Hr. pose proof (log_page_room p rs next Hp) as Hroom. pose proof (rec_bytes_len _ Hr) as Hrl.
  unfold append_record. rewrite (log_page_valid p rs next Hp). obind. rewrite (log_page_used p rs next Hp). obind.
  destruct Hr as [Hlsn Hutf Hname Hkey Hpk]. cbn [fst snd] in *. pose proof (zlen_nonneg (secondary_key m)) as Hk0.
  rewrite (proj2 (Z.eqb_neq _ _)) by lia. rewrite !(proj2 (Z.ltb_ge _ _)) by (consts; lia). cbn [orb].
  set (u := zlen (recs_bytes rs)) in *.
  replace (OFF_DATA + u + (8 + 1 + 2 + zlen (index_name m) + 2 + zlen (secondary_key m) + KEY_SIZE))
    with (OFF_DATA + u + rec_len m) by (unfold rec_len; consts; lia).
  case_bool_decide as Hfit; [rewrite (proj2 (Z.ltb_ge _ _)) by lia|rewrite (proj2 (Z.ltb_lt _ _)) by lia; by eexists].
  destruct Hp as [Hlen Hmg Hver Hnx Hus Hbd Hok Hid]. unfold wrap16. rewrite !Z.mod_small by (unfold rec_len in *; consts; lia).
  assert (Hl2 : zlen p = 16384) by done. unfold rec_len in *.
  rewrite put_range_ok by clia. obind. rewrite put_at_ok by clia. obind. rewrite upd_adjacent by clia.
  do 5 (rewrite put_range_ok by clia; obind; rewrite upd_adjacent by clia).
  rewrite put_range_ok by clia. obind. eexists. split; [reflexivity|].
  rewrite <-!app_assoc.
  change (le_bytes 8 lsn ++ [if present m then 1 else 0] ++ le_bytes 2 (zlen (index_name m)) ++ index_name m ++
    le_bytes 2 (zlen (secondary_key m)) ++ secondary_key m ++ primary_key m) with (rec_bytes (lsn, m)).
  assert (Hb : recs_bytes (rs ++ [(lsn, m)]) = recs_bytes rs ++ rec_bytes (lsn, m)).
  { unfold recs_bytes. rewrite bind_app. cbn. by rewrite app_nil_r. }
  assert (zlen MAGIC = 8) as Hm by done.
  split; rewrite ?Hb.
  - clia.
  - do 2 (apply seg_upd_disjoint; [|clia|clia|clia]). done.
  - do 2 (apply seg_upd_disjoint; [|clia|clia|clia]). done.
  - do 2 (apply seg_upd_disjoint; [|clia|clia|clia]). done.
  - replace (zlen (recs_bytes rs ++ rec_bytes (lsn, m))) with (u + (8 + 1 + 2 + zlen (index_name m) + 2 + zlen (secondary_key m) + KEY_SIZE))
      by (rewrite zlen_app, Hrl; consts; lia). apply seg_upd; clia.
  - apply seg_app. split.
    + do 2 (apply seg_upd_disjoint; [|clia|clia|clia]). done.
    + apply seg_upd_disjoint; [|clia|clia|clia]. apply seg_upd; clia.
  - apply Forall_app; split; [done|]. apply Forall_singleton. by split.
  - done.
Qed.

(** Reading back one record. *)
Lemma decode_record_seg p end_ off r :
  rec_ok r -> seg p off (rec_bytes r) -> off + zlen (rec_bytes r) <= end_ ->
  decode_record p end_ off = Ret (r, off + zlen (rec_bytes r)).
Proof.
  intros Hr Hs He. pose proof (rec_bytes_len r Hr) as Hrl. destruct r as [lsn m]. destruct Hr as [Hlsn Hutf Hname Hkey Hpk].
  cbn [fst snd] in *. unfold rec_bytes in Hs. cbn [fst snd] in Hs. unfold rec_len in Hrl. rewrite !seg_app in Hs.
  destruct Hs as (H1 & H2 & H3 & H4 & H5 & H6 & H7). rewrite !zlen_le_bytes in *. change (zlen [flag_byte m]) with 1 in *.
  pose proof (zlen_nonneg (secondary_key m)) as Hk0. unfold decode_record.
  rewrite (proj2 (Z.ltb_ge _ _)) by (consts; lia).
  rewrite (seg_read_le _ _ _ _ H1) by (consts; lia). obind.
  rewrite (seg_get_at _ _ _ H2). obind.
  rewrite (seg_read_le _ _ _ _ H3) by (consts; lia). obind.
  rewrite (proj2 (Z.ltb_ge _ _)) by (consts; lia).
  rewrite (seg_get_range _ _ _ _ H4 eq_refl). obind. unfold from_utf8. rewrite Hutf. obind.
  rewrite (seg_read_le _ _ _ _ H5) by (consts; lia). obind.
  rewrite (proj2 (Z.ltb_ge _ _)) by (consts; lia).
  rewrite (seg_get_range _ _ _ _ H6 eq_refl). obind.
  rewrite (seg_get_range _ _ _ _ H7) by (rewrite Hpk; done). obind. f_equal. f_equal; [|consts; lia].
  f_equal. destruct m as [n k pk pr]. cbn. f_equal. unfold flag_byte. cbn. by destruct pr.
Qed.

Lemma decode_loop_recs rs : forall p end_ off out fuel,
  Forall rec_ok rs -> seg p off (recs_bytes rs) -> end_ = off + zlen (recs_bytes rs) -> (length rs <= fuel)%nat ->
  decode_loop fuel p end_ off out = Ret (out ++ rs).
Proof.
  induction rs as [|r rs IH]; intros p end_ off out fuel Hok Hs -> Hf.
  - destruct fuel; cbn; rewrite zlen_nil, Z.add_0_r, (proj2 (Z.leb_le _ _)) by lia; by rewrite app_nil_r.
  - apply Forall_cons in Hok as [Hr Hok]. unfold recs_bytes in *. cbn [mbind list_bind] in *. fold (recs_bytes rs) in *.
    apply seg_app in Hs as [Hs1 Hs2]. rewrite zlen_app. pose proof (rec_bytes_len r Hr) as Hrl. unfold rec_len in Hrl.
    pose proof (zlen_nonneg (recs_bytes rs)). pose proof (zlen_nonneg (index_name r.2)). pose proof (zlen_nonneg (secondary_key r.2)).
    destruct fuel as [|fuel]; [cbn in Hf; lia|]. cbn [decode_loop]. rewrite (proj2 (Z.leb_gt _ _)) by lia.
    rewrite (decode_record_seg _ _ _ r) by (done || lia). obind. rewrite IH; [by rewrite <-app_assoc|done|done|lia|cbn in Hf; lia].
Qed.

Lemma recs_bytes_len rs : Forall rec_ok rs -> zlen rs <= zlen (recs_bytes rs).
Proof.
  induction 1 as [|r rs Hr _ IH]; [done|]. unfold recs_bytes in *. cbn [mbind list_bind]. rewrite zlen_app, zlen_cons, rec_bytes_len by done.
  unfold rec_len. pose proof (zlen_nonneg (index_name r.2)). pose proof (zlen_nonneg (secondary_key r.2)). lia.
Qed.

Lemma decode_records_log p rs next : log_page p rs next -> decode_records p = Ret rs.
Proof.
  intros Hp. pose proof (log_page_room p rs next Hp) as Hroom. unfold decode_records.
  rewrite (log_page_valid p rs next Hp). obind. rewrite (log_page_used p rs next Hp). obind.
  rewrite (proj2 (Z.ltb_ge _ _)) by lia. destruct Hp. pose proof (recs_bytes_len rs lp_ok0) as Hl.
  rewrite (decode_loop_recs rs) by (done || (unfold zlen in *; lia)). done.
Qed.

Lemma read_next_log p rs next : log_page p rs next -> read_next_page_id p = Ret next.
Proof. intros Hp. unfold read_next_page_id. rewrite (log_page_valid p rs next Hp). obind. destruct Hp. by apply seg_read_le. Qed.

Lemma write_next_log p rs next next' :
  log_page p rs next -> 0 <= next' < U64 -> exists p', write_next_page_id p next' = Ret p' /\ log_page p' rs next'.
Proof.
  intros Hp Hn. pose proof (log_page_room p rs next Hp) as Hroom. unfold write_next_page_id. rewrite (log_page_valid p rs next Hp). obind.
  destruct Hp as [Hlen Hmg Hver Hnx Hus Hbd Hok Hid]. assert (Hl2 : zlen p = 16384) by done. assert (zlen MAGIC = 8) as Hm by done.
  rewrite write_le_ok by clia. eexists. split; [reflexivity|]. split; try done.
  - clia.
  - apply seg_upd_disjoint; [done|clia|clia|clia].
  - apply seg_upd_disjoint; [done|clia|clia|clia].
  - apply seg_upd; clia.
  - apply seg_upd_disjoint; [done|clia|clia|clia].
  - apply seg_upd_disjoint; [done|clia|clia|clia].
Qed.

(** On any bytes, a turn of the loop moves on, refuses the page or reads behind its end. *)
Lemma decode_record_moves p end_ off :
  wf_bytes p -> zlen p = PAGE_SIZE -> 0 <= off < end_ -> end_ <= PAGE_SIZE ->
  match decode_record p end_ off with
  | Ret (_, off') => off < off' <= end_
  | Fail _ => True
  | Panic => PAGE_SIZE - 1 <= end_
  | Spin => False
  end.
Proof.
  intros Hwf Hlen Ho He. unfold decode_record. destruct (Z.ltb_spec end_ (off + 8 + 1 + 2 + 2 + KEY_SIZE)); [done|]. consts.
  rewrite (read_le_ok 8 p off) by lia. obind. rewrite (get_at_ok p (off + 8)) by lia. obind. rewrite (read_le_ok 2 p (off + 8 + 1)) by lia. obind.
  pose proof (fld_bound 2 (off + 8 + 1) p Hwf ltac:(lia) ltac:(lia)) as Hb. set (n := fld 2 _ p) in *.
  destruct (Z.ltb_spec end_ (off + 8 + 1 + 2 + n)); [done|]. rewrite get_range_ok by lia. obind.
  unfold from_utf8. destruct (utf8_valid _); [|done]. obind. set (o := off + 8 + 1 + 2 + n) in *.
  destruct (decide (o + 2 <= 16384)); [|rewrite read_le_panic by lia; cbn; lia]. rewrite read_le_ok by lia. obind.
  pose proof (fld_bound 2 o p Hwf ltac:(lia) ltac:(lia)) as Hb2. set (k := fld 2 o p) in *.
  destruct (Z.ltb_spec end_ (o + 2 + k + 16)); [done|]. rewrite get_range_ok by lia. obind. rewrite get_range_ok by lia. obind. lia.
Qed.

Lemma decode_loop_ends fuel : forall p end_ off out,
  wf_bytes p -> zlen p = PAGE_SIZE -> 0 <= off -> end_ <= PAGE_SIZE -> (Z.to_nat (end_ - off) <= fuel)%nat ->
  match decode_loop fuel p end_ off out with Spin => False | Panic => PAGE_SIZE - 1 <= end_ | _ => True end.
Proof.
  induction fuel as [|fuel IH]; intros p end_ off out Hwf Hlen Ho He Hf; cbn [decode_loop]; destruct (Z.leb_spec end_ off); try done; [lia|].
  pose proof (decode_record_moves p end_ off Hwf Hlen ltac:(lia) He) as Hm.
  destruct (decode_record p end_ off) as [[r off']| | |]; try done. obind. apply IH; (done || lia).
Qed.

(** The decoder of a posting log page ends on every page of bytes, with its records or
    with an error; it panics only on a page whose records reach into its last two bytes. *)
Theorem decode_records_terminates p :
  wf_bytes p -> match decode_records p with Spin => False | Panic => PAGE_SIZE - 1 <= OFF_DATA + fld 2 OFF_USED p | _ => True end.
Proof.
  intros Hwf. unfold decode_records, validate_page. destruct (Z.eqb_spec (zlen p) PAGE_SIZE) as [Hlen|]; [|done]. cbn [negb].
  rewrite get_range_ok by clia. obind. destruct (bytes_eqb _ _); [|done]. cbn [negb]. rewrite (read_le_ok 4 p 8) by clia. obind.
  destruct (_ =? VERSION); [|done]. cbn [negb]. obind.
  rewrite read_le_ok by clia. obind. pose proof (fld_bound 2 OFF_USED p Hwf ltac:(clia) ltac:(clia)) as Hb.
  destruct (Z.ltb_spec PAGE_SIZE (OFF_DATA + fld 2 OFF_USED p)); [done|]. apply decode_loop_ends; try done; clia.
Qed.

(** A page with a name of 16350 bytes: the length of the key behind it is outside the page. *)
Definition long_name_page : bytes :=
  upd 31 (le_bytes 2 16350) (upd OFF_USED (le_bytes 2 16362) (upd 8 (le_bytes 4 VERSION) (upd 0 MAGIC (zrepeat 0 PAGE_SIZE)))).

Lemma decode_records_terminates_witness :
  wf_bytes long_name_page /\
  match decode_records long_name_page with Spin => False | Panic => PAGE_SIZE - 1 <= OFF_DATA + fld 2 OFF_USED long_name_page | _ => True end /\
  decode_records long_name_page = Panic.
Proof.
  assert (Hwf : wf_bytes long_name_page).
  { unfold long_name_page. repeat apply wf_upd; try apply wf_le_bytes; [|apply wf_zrepeat; unfold is_byte; lia].
    unfold MAGIC. repeat (apply Forall_cons; split; [unfold is_byte; lia|]). apply Forall_nil. exact I. }
  split; [exact Hwf|]. split; [exact (decode_records_terminates long_name_page Hwf)|]. clear Hwf.
  assert (Hm : zlen MAGIC = 8) by done. assert (Hlen : zlen long_name_page = PAGE_SIZE) by (unfold long_name_page; clia).
  assert (Hmg : seg long_name_page 0 MAGIC) by (unfold long_name_page; repeat (apply seg_upd_disjoint; [|clia|clia|clia]); apply seg_upd; clia).
  assert (Hv : seg long_name_page 8 (le_bytes 4 VERSION)) by (unfold long_name_page; repeat (apply seg_upd_disjoint; [|clia|clia|clia]); apply seg_upd; clia).
  assert (Hu : seg long_name_page OFF_USED (le_bytes 2 16362)) by (unfold long_name_page; repeat (apply seg_upd_disjoint; [|clia|clia|clia]); apply seg_upd; clia).
  assert (Hn : seg long_name_page 31 (le_bytes 2 16350)) by (unfold long_name_page; apply seg_upd; clia).
  assert (Hz : sub 33 16350 long_name_page = zrepeat 0 16350).
  { unfold long_name_page. rewrite !sub_upd_disjoint by clia. rewrite sub_zrepeat by clia. done. }
  revert Hlen Hmg Hv Hu Hn Hz. generalize long_name_page. intros p Hlen Hmg Hv Hu Hn Hz.
  unfold decode_records, validate_page. rewrite Hlen, Z.eqb_refl. cbn [negb].
  rewrite (seg_get_range p 0 MAGIC 8) by done. obind. destruct (bytes_eqb_spec MAGIC MAGIC) as [_|]; [|done]. cbn [negb].
  rewrite (seg_read_le p 8 4 VERSION) by done. obind. cbn [Z.eqb negb VERSION Pos.eqb].
  rewrite (seg_read_le p OFF_USED 2 16362) by done. obind. change (PAGE_SIZE <? OFF_DATA + 16362) with false. cbv iota.
  change (Z.to_nat 16362) with (S (Z.to_nat 16361)). cbn [decode_loop]. change (OFF_DATA + 16362 <=? OFF_DATA) with false. cbv iota.
  unfold decode_record. change (OFF_DATA + 16362 <? OFF_DATA + 8 + 1 + 2 + 2 + KEY_SIZE) with false. cbv iota.
  rewrite (read_le_ok 8 p OFF_DATA) by clia. obind. rewrite (get_at_ok p (OFF_DATA + 8)) by clia. obind.
  rewrite (seg_read_le p (OFF_DATA + 8 + 1) 2 16350) by done. obind.
  change (OFF_DATA + 16362 <? OFF_DATA + 8 + 1 + 2 + 16350) with false. cbv iota.
  rewrite get_range_ok by clia. obind. change (OFF_DATA + 8 + 1 + 2) with 33. change (33 + 16350 - 33) with 16350. rewrite Hz.
  unfold from_utf8. assert (Hutf : forall n, utf8_valid (zrepeat 0 n) = true).
  { intros n. unfold zrepeat. induction (Z.to_nat n) as [|j IH]; [done|]. cbn. done. }
  rewrite Hutf. obind. rewrite read_le_panic by clia. done.
Defined.

(** C30: a page of the posting log is a list of mutations: a new page is the empty list, a
    record that fits is appended at the end and one that does not is refused with the page
    as it was, the link to the next page is kept apart, and decoding returns the list. *)
Theorem posting_log_refines_list p rs next lsn m :
  log_page p rs next -> rec_ok (lsn, m) ->
  decode_records p = Ret rs /\ read_next_page_id p = Ret next /\
  (exists p', append_record p lsn m = Ret (bool_decide (OFF_DATA + zlen (recs_bytes rs) + rec_len m <= PAGE_SIZE), p') /\
     if bool_decide (OFF_DATA + zlen (recs_bytes rs) + rec_len m <= PAGE_SIZE)
     then log_page p' (rs ++ [(lsn, m)]) next /\ decode_records p' = Ret (rs ++ [(lsn, m)]) else p' = p) /\
  (forall next', 0 <= next' < U64 -> exists p', write_next_page_id p next' = Ret p' /\ log_page p' rs next').
Proof.
  intros Hp Hr. split_and!; [by eapply decode_records_log|by eapply read_next_log| |intros; by eapply write_next_log].
  destruct (append_record_log p rs next lsn m Hp Hr) as (p' & Ha & Hp'). exists p'. split; [done|].
  case_bool_decide; [|done]. split; [done|]. by eapply decode_records_log.
Qed.

Definition sample_mutation : SecondaryIndexMutation := mkMutation [116; 97; 103] [97; 97] (zrepeat 1 KEY_SIZE) true.

Lemma posting_log_refines_list_witness :
  exists p p', new_log_page = Ret p /\ append_record p 42 sample_mutation = Ret (true, p') /\ decode_records p' = Ret [(42, sample_mutation)].
Proof.
  destruct new_log_page_ok as (p & Hn & Hp).
  destruct (posting_log_refines_list p [] 0 42 sample_mutation Hp) as (_ & _ & (p' & Ha & Hd) & _).
  - split; [unfold U64; cbn; lia|reflexivity|change (0 < 3 < U16); unfold U16; lia|change (2 < U16); unfold U16; lia|reflexivity].
  - exists p, p'. split; [exact Hn|]. split; [exact Ha|]. exact (proj2 Hd).
Defined.

End LogProps.

(** ** The catalog page *)

Module CatalogProps.
Import Seg IndexMeta.

Ltac consts := unfold ENTRY_SIZE, PAGE_SIZE, VALUE_SIZE, NAME_MAX, OFF_COUNT_V2, OFF_LOG_HEAD_V2, OFF_LOG_TAIL_V2, OFF_LOG_NEXT_V2,
  OFF_ENTRIES_V2, U16, U32, U64 in *.
Ltac clia := consts; zlens; lia.

(** A definition as the types of the source allow it. *)
Record def_typed (d : SecondaryIndexDefinition) : Prop := {
  dt_utf8 : utf8_valid (def_name d) = true;
  dt_range : let 'IndexBtree o n := def_kind d in 0 <= o /\ 0 <= n /\ o + n < U64
}.

(** What the catalog accepts. *)
Definition def_fits (d : SecondaryIndexDefinition) : bool :=
  let 'IndexBtree o n := def_kind d in
  (1 <=? zlen (def_name d)) && (zlen (def_name d) <=? NAME_MAX) && (1 <=? n) && (o + n <=? VALUE_SIZE).

Definition def_bytes (d : SecondaryIndexDefinition) : bytes :=
  let 'IndexBtree o n := def_kind d in
  le_bytes 2 (zlen (def_name d)) ++ (def_name d ++ zrepeat 0 (NAME_MAX - zlen (def_name d))) ++
  le_bytes 4 o ++ le_bytes 4 n ++ [KIND_BTREE].

Definition defs_bytes (ds : list SecondaryIndexDefinition) : bytes := ds ≫= def_bytes.

Lemma def_bytes_len d : def_fits d = true -> zlen (def_bytes d) = ENTRY_SIZE.
Proof.
  unfold def_fits, def_bytes. destruct (def_kind d) as [o n]. rewrite !andb_true_iff, !Z.leb_le. intros (((H1 & H2) & H3) & H4). clia.
Qed.

Lemma defs_bytes_len ds : Forall (fun d => def_fits d = true) ds -> zlen (defs_bytes ds) = ENTRY_SIZE * zlen ds.
Proof.
  induction 1 as [|d ds Hd _ IH]; [done|]. unfold defs_bytes in *. cbn [mbind list_bind]. rewrite zlen_app, zlen_cons, def_bytes_len by done. lia.
Qed.

(** A store over the front of an earlier one. *)
Lemma upd_front {A} a (bs cs l : list A) :
  0 <= a -> a + zlen cs <= zlen l -> zlen bs <= zlen cs -> upd a bs (upd a cs l) = upd a (bs ++ drop (length bs) cs) l.
Proof.
  intros H0 Hl Hb. pose proof (zlen_nonneg bs). assert (Hd : zlen (drop (length bs) cs) = zlen cs - zlen bs) by (unfold zlen in *; rewrite length_drop; lia).
  assert (Hlu : zlen (upd a cs l) = zlen l) by (apply zlen_upd; lia).
  apply list_eq_lookup_Z; [rewrite (zlen_upd a bs), (zlen_upd a (bs ++ _)) by (rewrite ?zlen_app, ?Hlu; lia); done|]. intros i Hi.
  rewrite (zlen_upd a bs), Hlu in Hi by lia. destruct (decide (a <= i < a + zlen bs)).
  - rewrite lookup_upd_in by lia. rewrite lookup_upd_in by (rewrite ?zlen_app; lia).
    rewrite lookup_app_l by (unfold zlen in *; lia). done.
  - rewrite lookup_upd_out by lia. destruct (decide (a <= i < a + zlen cs)).
    + rewrite !lookup_upd_in by (rewrite ?zlen_app; lia). rewrite lookup_app_r by (unfold zlen in *; lia).
      rewrite lookup_drop. f_equal. unfold zlen in *. lia.
    + rewrite !lookup_upd_out by (rewrite ?zlen_app; lia). done.
Qed.

Lemma encode_def_ok p off d :
  def_typed d -> 0 <= off -> off + ENTRY_SIZE <= zlen p ->
  encode_def p off d = if def_fits d then Ret (upd off (def_bytes d) p, off + ENTRY_SIZE) else Fail (Io InvalidInput).
Proof.
  intros [_ Hrng] Ho Hle. unfold encode_def, def_fits, def_bytes. destruct (def_kind d) as [o n]. destruct Hrng as (Ho0 & Hn0 & Hon).
  pose proof (zlen_nonneg (def_name d)) as Hn.
  assert (Hdrop : drop (length (def_name d)) (zrepeat 0 NAME_MAX) = zrepeat 0 (NAME_MAX - zlen (def_name d))).
  { unfold zrepeat, zlen. rewrite drop_replicate. f_equal. lia. }
  remember (zlen (def_name d)) as k eqn:Hk.
  destruct (Z.eqb_spec k 0) as [->|]; [done|]. destruct (Z.ltb_spec NAME_MAX k); [by rewrite (proj2 (Z.leb_gt k NAME_MAX)), andb_false_r by lia|].
  rewrite (proj2 (Z.leb_le 1 k)), (proj2 (Z.leb_le k NAME_MAX)) by lia. cbn [orb andb].
  unfold wrap16, wrap32, wrap64. rewrite (Z.mod_small k) by clia. rewrite (Z.mod_small (o + n)) by lia.
  rewrite put_range_ok by clia. obind. rewrite put_range_ok by clia. obind. rewrite put_range_ok by clia. obind.
  rewrite upd_front by clia. rewrite Hdrop. rewrite upd_adjacent by clia.
  destruct (Z.eqb_spec n 0) as [->|]; [done|]. rewrite (proj2 (Z.leb_le 1 n)) by lia. cbn [orb andb].
  destruct (Z.ltb_spec VALUE_SIZE (o + n)); [by rewrite (proj2 (Z.leb_gt _ _)) by lia|]. rewrite (proj2 (Z.leb_le _ _)) by lia.
  rewrite (Z.mod_small o), (Z.mod_small n) by clia.
  do 2 (rewrite put_range_ok by clia; obind; rewrite upd_adjacent by clia).
  rewrite put_at_ok by clia. obind. rewrite upd_adjacent by clia. rewrite <-!app_assoc. f_equal. f_equal. clia.
Qed.

Lemma forallb_Forall {A} (f : A -> bool) l : forallb f l = true <-> Forall (fun x => f x = true) l.
Proof.
  induction l as [|x l IH]; cbn; [by split|]. rewrite andb_true_iff, IH. split; [intros []; by constructor|by inversion 1].
Qed.

Lemma encode_defs_ok ds : forall p off,
  Forall def_typed ds -> 0 <= off -> off + ENTRY_SIZE * zlen ds <= zlen p ->
  encode_defs p off ds = if forallb def_fits ds then Ret (upd off (defs_bytes ds) p) else Fail (Io InvalidInput).
Proof.
  induction ds as [|d ds IH]; intros p off Hty Ho Hle.
  - cbn. f_equal. unfold upd. cbn. by rewrite Z.add_0_r, take_drop.
  - apply Forall_cons in Hty as [Hd Hty]. rewrite zlen_cons in Hle. pose proof (zlen_nonneg ds).
    assert (0 < ENTRY_SIZE) by done. cbn [encode_defs forallb]. rewrite encode_def_ok by (done || nia).
    destruct (def_fits d) eqn:Hf; [|done]. obind. pose proof (def_bytes_len d Hf) as Hl.
    rewrite IH; [|done|lia|rewrite zlen_upd by nia; nia]. cbn [andb]. destruct (forallb def_fits ds) eqn:Hfs; [|done].
    apply forallb_Forall in Hfs. pose proof (defs_bytes_len ds Hfs).
    rewrite upd_adjacent by nia. done.
Qed.

(** Reading back one definition and all of them. *)
Lemma decode_def_seg p off d :
  def_typed d -> def_fits d = true -> seg p off (def_bytes d) -> decode_def p off = Ret (d, off + ENTRY_SIZE).
Proof.
  intros [Hutf Hrng] Hf Hs. unfold def_fits, def_bytes in *. destruct d as [name [o n]]. cbn [def_name def_kind] in *.
  rewrite !andb_true_iff, !Z.leb_le in Hf. destruct Hf as (((H1 & H2) & H3) & H4).
  rewrite !seg_app in Hs. destruct Hs as (S1 & (S2 & _) & S3 & S4 & S5). rewrite ?zlen_app, ?zlen_le_bytes, ?zlen_zrepeat in * by lia.
  unfold decode_def. rewrite (seg_read_le _ _ _ _ S1) by clia. obind.
  rewrite (proj2 (Z.eqb_neq _ _)), (proj2 (Z.ltb_ge _ _)) by lia. cbn [orb].
  rewrite (seg_get_range _ _ _ _ S2) by done. obind. unfold from_utf8. rewrite Hutf. obind.
  replace (off + Z.of_nat 2 + (zlen name + (NAME_MAX - zlen name))) with (off + 2 + NAME_MAX) in * by lia.
  rewrite (seg_read_le _ _ _ _ S3) by clia. obind. rewrite (seg_read_le _ _ _ _ S4) by clia. obind.
  rewrite (seg_get_at _ _ _ S5). obind. change (KIND_BTREE =? KIND_BTREE) with true. cbn [negb]. f_equal. f_equal. unfold ENTRY_SIZE. lia.
Qed.

Lemma decode_entries_seg ds : forall p off,
  Forall def_typed ds -> Forall (fun d => def_fits d = true) ds -> seg p off (defs_bytes ds) ->
  decode_entries (length ds) p off = Ret ds.
Proof.
  induction ds as [|d ds IH]; intros p off Hty Hf Hs; [done|].
  apply Forall_cons in Hty as [Hd Hty]. apply Forall_cons in Hf as [Hfd Hf].
  unfold defs_bytes in Hs. cbn [mbind list_bind] in Hs. apply seg_app in Hs as [S1 S2]. rewrite def_bytes_len in S2 by done.
  cbn [length decode_entries]. rewrite (decode_def_seg _ _ d) by done. obind. rewrite IH by done. done.
Qed.

Record log_typed (l : SecondaryPostingLogState) : Prop := {
  lt_head : 0 <= head_page_id l < U64;
  lt_tail : 0 <= tail_page_id l < U64;
  lt_next : 0 <= next_page_id l < U64
}.

Definition max_entries : Z := (PAGE_SIZE - OFF_ENTRIES_V2) / ENTRY_SIZE.

(** The catalog of the secondary indexes reads back as it was written.  Encoding
    succeeds exactly when there are at most 277 indexes with names of 1 to 48 bytes and
    ranges inside a value, fails with invalid input otherwise, and the page decodes to the
    catalog, with the next page of the posting log not below its base. *)
Theorem catalog_roundtrip c :
  Forall def_typed (cat_defs c) -> log_typed (cat_posting_log c) ->
  if (zlen (cat_defs c) <=? max_entries) && forallb def_fits (cat_defs c)
  then exists p, encode_secondary_index_catalog c = Ret p /\ zlen p = PAGE_SIZE /\
    decode_secondary_index_catalog p =
      Ret (mkCatalog (cat_defs c) (mkLogState (head_page_id (cat_posting_log c)) (tail_page_id (cat_posting_log c))
             (Z.max SECONDARY_POSTING_LOG_BASE_PAGE_ID (next_page_id (cat_posting_log c)))))
  else encode_secondary_index_catalog c = Fail (Io InvalidInput).
Proof.
  intros Hty [Hh Ht Hn]. destruct c as [ds [h t n]]. cbn [cat_defs cat_posting_log head_page_id tail_page_id next_page_id] in *.
  assert (Hmax : max_entries = 277) by done. pose proof (zlen_nonneg ds) as Hds0.
  unfold encode_secondary_index_catalog. cbn [cat_defs cat_posting_log head_page_id tail_page_id next_page_id]. fold max_entries.
  destruct (Z.leb_spec (zlen ds) max_entries) as [Hle|Hgt]; [rewrite (proj2 (Z.ltb_ge _ _)) by lia|by rewrite (proj2 (Z.ltb_lt _ _)) by lia].
  cbn [andb]. assert (Hm : zlen CATALOG_MAGIC = 8) by done. unfold wrap16. rewrite Z.mod_small by clia.
  rewrite put_range_ok by clia. obind. do 5 (rewrite put_range_ok by clia; obind; rewrite upd_adjacent by clia).
  rewrite encode_defs_ok by (done || clia). destruct (forallb def_fits ds) eqn:Hf; [|done]. apply forallb_Forall in Hf.
  pose proof (defs_bytes_len ds Hf) as Hdl. rewrite <-!app_assoc. set (hd := CATALOG_MAGIC ++ _).
  assert (Hhd : zlen hd = 38) by (unfold hd; clia). eexists. split; [reflexivity|].
  set (p := upd OFF_ENTRIES_V2 _ _). assert (Hp : zlen p = PAGE_SIZE) by (unfold p; clia). split; [done|].
  assert (Hseg : seg p 0 hd) by (unfold p; apply seg_upd_disjoint; [apply seg_upd; clia|clia|clia|clia]).
  assert (Hbody : seg p OFF_ENTRIES_V2 (defs_bytes ds)) by (unfold p; apply seg_upd; clia).
  clearbody p. unfold hd in Hseg. rewrite !seg_app in Hseg. destruct Hseg as (S1 & S2 & S3 & S4 & S5 & S6).
  rewrite !zlen_le_bytes, Hm in *. unfold decode_secondary_index_catalog. rewrite Hp, Z.eqb_refl. cbn [negb].
  rewrite (seg_get_range _ _ _ _ S1) by done. obind. destruct (bytes_eqb_spec CATALOG_MAGIC CATALOG_MAGIC) as [_|]; [|done]. cbn [negb].
  rewrite (seg_read_le p 8 4 VERSION_V2) by done. obind. change (VERSION_V2 =? VERSION_V1) with false. rewrite Z.eqb_refl. cbv iota.
  unfold decode_v2, decode_defs. fold max_entries. rewrite (seg_read_le p OFF_COUNT_V2 2 (zlen ds)) by (done || clia). obind.
  rewrite (proj2 (Z.ltb_ge _ _)) by lia. replace (Z.to_nat (zlen ds)) with (length ds) by (unfold zlen; lia).
  rewrite decode_entries_seg by done. obind.
  rewrite (seg_read_le p OFF_LOG_HEAD_V2 8 h), (seg_read_le p OFF_LOG_TAIL_V2 8 t), (seg_read_le p OFF_LOG_NEXT_V2 8 n) by done. obind.
  do 3 f_equal. destruct (Z.ltb_spec n SECONDARY_POSTING_LOG_BASE_PAGE_ID); lia.
Qed.

Definition sample_catalog : SecondaryIndexCatalog :=
  mkCatalog [mkDefinition [116; 97; 103] (IndexBtree 0 2); mkDefinition [114; 101; 103; 105; 111; 110] (IndexBtree 8 4)]
    (mkLogState 3000000 3000100 3000101).

Lemma catalog_roundtrip_witness :
  exists p, encode_secondary_index_catalog sample_catalog = Ret p /\ zlen p = PAGE_SIZE /\ decode_secondary_index_catalog p = Ret sample_catalog.
Proof.
  apply (catalog_roundtrip sample_catalog).
  - repeat (apply Forall_cons; split; [split; [reflexivity|cbn; unfold U64; lia]|]). apply Forall_nil. exact I.
  - split; cbn; unfold U64; lia.
Defined.

End CatalogProps.

(** ** Ordered walks *)

Module WalkProps.

Definition kle (a b : list Z) : Prop := bytes_leb a b = true.

Lemma kle_spec a b : kle a b <-> bytes_le a b.
Proof. unfold kle, bytes_leb, bytes_le. destruct (bytes_cmp a b); split; done. Qed.

#[global] Instance kle_antisym : AntiSymm (=) kle.
Proof.
  intros a b H1 H2. apply kle_spec in H1, H2. destruct (bytes_total a b) as [Hl|[->|Hl]]; [|done|].
  - by destruct (bytes_lt_irrefl a (bytes_lt_le_trans _ _ _ Hl H2)).
  - by destruct (bytes_lt_irrefl b (bytes_lt_le_trans _ _ _ Hl H1)).
Qed.

#[global] Instance kle_trans : Transitive kle.
Proof. intros a b c H1 H2. apply kle_spec in H1, H2. apply kle_spec. by eapply bytes_le_trans. Qed.

#[global] Instance by_key_total {A} : Total (by_key (A := A)).
Proof.
  intros [a x] [b y]. change (kle a b \/ kle b a). rewrite !kle_spec. destruct (bytes_total a b) as [H|[->|H]]; auto.
Qed.

#[global] Instance by_key_trans {A} : Transitive (by_key (A := A)).
Proof. intros [a x] [b y] [c z] H1 H2. exact (kle_trans a b c H1 H2). Qed.

Lemma sorted_fst {A} (l : list (list Z * A)) : StronglySorted by_key l -> StronglySorted kle l.*1.
Proof. induction 1 as [|[k x] l Hs IH Hf]; cbn; constructor; [done|]. apply Forall_fmap. eapply Forall_impl; [exact Hf|]. done. Qed.

Section Walk.
Context {A : Type}.
Implicit Types (m : gmap (list Z) A).

Lemma entries_sorted m : StronglySorted kle (entries m).*1.
Proof. apply sorted_fst, StronglySorted_merge_sort; apply _. Qed.

Lemma entries_elem m k x : (k, x) ∈ entries m <-> m !! k = Some x.
Proof. unfold entries. by rewrite merge_sort_Permutation, elem_of_map_to_list. Qed.

Lemma entries_nodup m : NoDup (entries m).*1.
Proof. unfold entries. rewrite (merge_sort_Permutation by_key (map_to_list m)). apply NoDup_fst_map_to_list. Qed.

Lemma filter_fst_sorted (P : list Z * A -> Prop) `{!forall x, Decision (P x)} (l : list (list Z * A)) :
  StronglySorted kle l.*1 -> StronglySorted kle (filter P l).*1.
Proof.
  induction l as [|e l IH]; intros Hs; [done|]. cbn in Hs. apply StronglySorted_inv in Hs as [Hs Hf]. rewrite filter_cons.
  case_decide; [|by apply IH]. cbn. constructor; [by apply IH|]. rewrite Forall_forall in *. intros k Hk. apply Hf.
  apply list_elem_of_fmap in Hk as (e' & -> & He). apply list_elem_of_filter in He as [_ He]. by apply list_elem_of_fmap_2.
Qed.

Lemma filter_fst_nodup (P : list Z * A -> Prop) `{!forall x, Decision (P x)} (l : list (list Z * A)) :
  NoDup l.*1 -> NoDup (filter P l).*1.
Proof.
  induction l as [|e l IH]; intros Hs; [done|]. cbn in Hs. apply NoDup_cons in Hs as [Hn Hs]. rewrite filter_cons.
  case_decide; [|by apply IH]. cbn. apply NoDup_cons. split; [|by apply IH]. contradict Hn.
  apply list_elem_of_fmap in Hn as (e' & -> & He). apply list_elem_of_filter in He as [_ He]. by apply list_elem_of_fmap_2.
Qed.

End Walk.

(** Two filtered walks over the same keys are the same list. *)
Lemma filtered_walks {A B : Type} (P : list Z * A -> Prop) `{!forall x, Decision (P x)} (m : gmap (list Z) A) (n : gmap (list Z) B) :
  (forall k, (exists x, m !! k = Some x /\ P (k, x)) <-> is_Some (n !! k)) ->
  (filter P (entries m)).*1 = (entries n).*1.
Proof.
  intros Hk. apply (StronglySorted_unique kle); [apply filter_fst_sorted, entries_sorted|apply entries_sorted|].
  apply NoDup_Permutation; [apply filter_fst_nodup, entries_nodup|apply entries_nodup|]. intros k.
  rewrite !list_elem_of_fmap. split.
  - intros ([k' x] & -> & He). apply list_elem_of_filter in He as [HP He]. apply entries_elem in He.
    destruct (proj1 (Hk k')) as [y Hy]; [by exists x|]. exists (k', y). split; [done|]. by apply entries_elem.
  - intros ([k' y] & -> & He). apply entries_elem in He. destruct (proj2 (Hk k')) as (x & Hx & HP); [by eexists|].
    exists (k', x). split; [done|]. apply list_elem_of_filter. split; [done|]. by apply entries_elem.
Qed.

End WalkProps.

(** ** The indexes track the rows *)

Module IndexProps.
Import SecIndex WalkProps.

(** *** The rows, as a history of commits *)

(** A change of a row: the walk over the indexes that planned it, its key, and its new value
    or [None] for a deletion. *)
Definition change : Type := list bytes * (bytes * option bytes).
Definition commit : Type := Z * list change.

(** What the tree holds: a deleted row stays, with its value and a flag. *)
Abbreviation stored := (gmap (list Z) (list Z * bool)) (only parsing).

Definition row (db : stored) (c : change) : stored :=
  match c.2.2 with
  | Some v => <[c.2.1 := (v, true)]> db
  | None => alter (fun e => (e.1, false)) c.2.1 db
  end.

Definition rows (db : stored) (cs : list change) : stored := foldl row db cs.

(** The rows a reader sees. *)
Definition live (db : stored) : gmap (list Z) (list Z) := omap (fun e => if e.2 : bool then Some e.1 else None) db.

Definition stored_at (commits : list commit) (r : Z) : stored :=
  foldl (fun db c => if c.1 <=? r then rows db c.2 else db) ∅ commits.

(** The keys of the rows with an index key. *)
Definition key_of (kind : SecondaryIndexKind) (v : bytes) : option bytes :=
  match index_key kind v with Ret k => Some k | _ => None end.

Definition rows_with (kind : SecondaryIndexKind) (key : bytes) (db : gmap (list Z) (list Z)) : list bytes :=
  (entries (filter (fun e => key_of kind e.2 = Some key) db)).*1.

(** [put] and [delete] of a transaction plan one change: the old value is that of the row in
    the tree, also when the row is deleted; the deletion of a row that is not there plans
    nothing. *)
Definition plan_change (mg : SecondaryIndexManager) (db : stored) (c : change) : outcome Error (list SecondaryIndexMutation) :=
  match db !! c.2.1, c.2.2 with
  | None, None => Ret []
  | old, new => plan_mutations c.1 c.2.1 (fst <$> old) new mg
  end.

(** A transaction plans its changes one by one, against the rows with its earlier changes,
    and applies the mutations when it has committed. *)
Fixpoint plan_changes (mg : SecondaryIndexManager) (db : stored) (cs : list change) : outcome Error (list SecondaryIndexMutation) :=
  match cs with
  | [] => Ret []
  | c :: cs =>
      ms ← plan_change mg db c;
      rest ← plan_changes mg (row db c) cs;
      Ret (ms ++ rest)
  end.

Fixpoint run (mg : SecondaryIndexManager) (db : stored) (commits : list commit) : outcome Error SecondaryIndexManager :=
  match commits with
  | [] => Ret mg
  | (lsn, cs) :: commits =>
      ms ← plan_changes mg db cs;
      run (apply_commit lsn ms mg) (rows db cs) commits
  end.

(** *** Histories *)

Definition hist_ok (l : Z) (h : list PostingVersion) : Prop :=
  StronglySorted Z.lt (pv_commit_lsn <$> h) /\ Forall (fun v => pv_commit_lsn v <= l) h.

Lemma pp_le h r : (partition_point h r <= length h)%nat.
Proof. induction h; cbn; [lia|]. case_match; lia. Qed.

Lemma pp_all h r : Forall (fun v => pv_commit_lsn v <= r) h -> partition_point h r = length h.
Proof. induction 1; cbn; [done|]. rewrite (proj2 (Z.leb_le _ _)) by done. lia. Qed.

Lemma pp_snoc h v r : r < pv_commit_lsn v -> partition_point (h ++ [v]) r = partition_point h r.
Proof. intros Hv. induction h as [|w h IH]; cbn; [by rewrite (proj2 (Z.leb_gt _ _))|]. by rewrite IH. Qed.

Lemma visible_snoc h v r :
  Forall (fun w => pv_commit_lsn w < pv_commit_lsn v) h ->
  visible_membership (h ++ [v]) r = if pv_commit_lsn v <=? r then pv_present v else visible_membership h r.
Proof.
  intros Hf. unfold visible_membership. destruct (Z.leb_spec (pv_commit_lsn v) r).
  - rewrite pp_all.
    + rewrite length_app. cbn. rewrite Nat.add_1_r. by rewrite lookup_app_r, Nat.sub_diag by lia.
    + apply Forall_app. split; [|by apply Forall_singleton]. eapply Forall_impl; [exact Hf|]. cbn. lia.
  - rewrite pp_snoc by lia. pose proof (pp_le h r). destruct (partition_point h r); [done|]. by rewrite lookup_app_l by lia.
Qed.

Lemma hist_ok_snoc l h v : hist_ok l (h ++ [v]) -> Forall (fun w => pv_commit_lsn w < pv_commit_lsn v) h /\ hist_ok l h.
Proof.
  intros [Hs Hf]. rewrite fmap_app in Hs. apply StronglySorted_app in Hs as (Hlt & Hs & _).
  apply Forall_app in Hf as [Hf _]. split; [|by split]. rewrite Forall_forall. intros w Hw. apply Hlt; [by apply list_elem_of_fmap_2|].
  by apply list_elem_of_singleton.
Qed.

Lemma snoc_ok l h b : Forall (fun w => pv_commit_lsn w < l) h -> hist_ok l h -> hist_ok l (h ++ [mkPosting l b]).
Proof.
  intros Hlt [Hs Hf]. split.
  - rewrite fmap_app. apply StronglySorted_app. split_and!; [|done|repeat constructor].
    intros x y Hx Hy. apply list_elem_of_fmap in Hx as (w & -> & Hw). apply list_elem_of_singleton in Hy as ->. rewrite Forall_forall in Hlt. by apply Hlt.
  - apply Forall_app. split; [done|]. apply Forall_singleton. cbn. lia.
Qed.

Lemma push_posting_ok l b h :
  hist_ok l h ->
  hist_ok l (push_posting l b h) /\
  forall r, visible_membership (push_posting l b h) r = if l <=? r then b else visible_membership h r.
Proof.
  intros Hh. destruct h as [|v h _] using rev_ind.
  - cbn [push_posting last app]. split; [by apply (snoc_ok l [] b)|]. intros r. by rewrite (visible_snoc [] (mkPosting l b)).
  - apply hist_ok_snoc in Hh as Hh'. destruct Hh' as [Hlt Hh']. unfold push_posting. rewrite last_snoc.
    destruct (Z.eqb_spec (pv_commit_lsn v) l) as [He|Hne].
    + rewrite length_app. cbn [length]. rewrite Nat.add_sub, take_app_length. rewrite He in Hlt. split; [by apply snoc_ok|].
      intros r. rewrite !visible_snoc by (cbn; rewrite ?He; done). cbn. rewrite He. by destruct (l <=? r).
    + assert (Hall : Forall (fun w => pv_commit_lsn w < l) (h ++ [v])).
      { destruct Hh as [_ Hf]. apply Forall_app in Hf as [_ Hv]. apply Forall_cons in Hv as [Hv _]. cbn in Hv. apply Forall_app.
        split; [|apply Forall_singleton; lia]. eapply Forall_impl; [exact Hlt|]. cbn. lia. }
      split; [by apply snoc_ok|]. intros r. by rewrite visible_snoc.
Qed.

(** *** Applying mutations *)

Lemma history_post l m st key pk :
  history_of (post l m st) key pk =
  if decide (secondary_key m = key /\ primary_key m = pk) then push_posting l (present m) (history_of st key pk) else history_of st key pk.
Proof.
  unfold history_of, post. cbn [st_btree postings]. destruct (decide (secondary_key m = key)) as [<-|Hk].
  - rewrite lookup_insert_eq. cbn [from_option id]. destruct (decide (primary_key m = pk)) as [<-|Hp].
    + by rewrite lookup_insert_eq, decide_True.
    + by rewrite lookup_insert_ne, decide_False by naive_solver.
  - rewrite lookup_insert_ne, decide_False by naive_solver. done.
Qed.

Definition of_index (n : bytes) (ms : list SecondaryIndexMutation) : list SecondaryIndexMutation :=
  filter (fun m => index_name m = n) ms.

Definition posts (l : Z) (st : SecondaryIndexState) (ms : list SecondaryIndexMutation) : SecondaryIndexState :=
  foldl (fun st m => post l m st) st ms.

Lemma apply_commit_index l ms n : forall mg,
  indexes (apply_commit l ms mg) !! n = (fun st => posts l st (of_index n ms)) <$> indexes mg !! n.
Proof.
  induction ms as [|m ms IH]; intros mg; [cbn; by destruct (indexes mg !! n)|].
  change (apply_commit l (m :: ms) mg) with (apply_commit l ms (apply_mutation l mg m)). rewrite IH. unfold apply_mutation, of_index. rewrite filter_cons.
  destruct (decide (index_name m = n)) as [<-|Hn].
  - destruct (indexes mg !! index_name m) as [st|] eqn:E; [|by rewrite E]. cbn [indexes]. by rewrite lookup_insert_eq.
  - destruct (indexes mg !! index_name m) as [st|] eqn:E; [|done]. cbn [indexes]. by rewrite lookup_insert_ne.
Qed.

Lemma posts_def l ms : forall st, st_def (posts l st ms) = st_def st.
Proof. induction ms as [|m ms IH]; intros st; [done|]. cbn. fold (posts l (post l m st) ms). by rewrite IH. Qed.

(** *** Planning *)

Definition kind_ok (kind : SecondaryIndexKind) : Prop :=
  let 'IndexBtree o n := kind in 0 <= o /\ 0 < n /\ o + n <= VALUE_SIZE.

Lemma index_key_ok kind v : kind_ok kind -> zlen v = VALUE_SIZE -> exists k, index_key kind v = Ret k.
Proof.
  destruct kind as [o n]. intros (Ho & Hn & Hl) Hv. unfold index_key, wrap64.
  rewrite Z.mod_small by (unfold VALUE_SIZE, U64 in *; lia). rewrite get_range_ok by lia. by eexists.
Qed.

(** The key under which an optional row is indexed. *)
Definition key_opt (kind : SecondaryIndexKind) (v : option bytes) : option bytes := v ≫= key_of kind.

Lemma index_key_opt_ok kind v : kind_ok kind -> (forall w, v = Some w -> zlen w = VALUE_SIZE) -> index_key_opt kind v = Ret (key_opt kind v).
Proof.
  intros Hk Hv. destruct v as [w|]; [|done]. destruct (index_key_ok kind w Hk (Hv w eq_refl)) as [k E].
  cbn. unfold key_of. by rewrite E.
Qed.

Definition plan_muts (name pk : bytes) (old_key new_key : option bytes) : list SecondaryIndexMutation :=
  if bool_decide (old_key = new_key) then [] else mutation_for name pk old_key false ++ mutation_for name pk new_key true.

(** The manager's indexes have the names they are stored under and ranges inside a value. *)
Definition mg_ok (mg : SecondaryIndexManager) : Prop :=
  forall n st, indexes mg !! n = Some st -> def_name (st_def st) = n /\ kind_ok (def_kind (st_def st)).

Definition val_ok (v : option bytes) : Prop := forall w, v = Some w -> zlen w = VALUE_SIZE.

Lemma plan_all_of mg pk old new : mg_ok mg -> val_ok old -> val_ok new -> forall order, NoDup order -> (forall n, n ∈ order -> is_Some (indexes mg !! n)) ->
  exists ms, plan_all pk old new (values order mg) = Ret ms /\
    forall n, of_index n ms =
      match indexes mg !! n with
      | Some st => if decide (n ∈ order) then plan_muts n pk (key_opt (def_kind (st_def st)) old) (key_opt (def_kind (st_def st)) new) else []
      | None => []
      end.
Proof.
  intros Hmg Ho Hn. induction order as [|k order IH]; intros Hnd Hin.
  - exists []. split; [done|]. intros n. destruct (indexes mg !! n); [|done]. by rewrite decide_False by apply not_elem_of_nil.
  - apply NoDup_cons in Hnd as [Hk Hnd]. destruct IH as (ms & Hms & Hof); [done|intros; apply Hin; by right|].
    destruct (Hin k) as [st Hst]; [by left|]. destruct (Hmg k st Hst) as [Hname Hkind].
    unfold values. cbn [omap list_omap]. rewrite Hst. cbn [plan_all]. unfold plan_index.
    rewrite !index_key_opt_ok by done. obind. rewrite Hname.
    set (ks := key_opt _ old). set (kn := key_opt _ new).
    assert (Hp : (if bool_decide (ks = kn) then Ret [] else Ret (mutation_for k pk ks false ++ mutation_for k pk kn true)) = Ret (E := Error) (plan_muts k pk ks kn))
      by (unfold plan_muts; by case_bool_decide).
    rewrite Hp. obind. unfold values in Hms. rewrite Hms. obind. eexists. split; [reflexivity|].
    intros n. unfold of_index. rewrite filter_app. fold (of_index n ms). rewrite Hof.
    assert (Hsame : forall i, i ∈ plan_muts k pk ks kn -> index_name i = k).
    { intros i. unfold plan_muts. case_bool_decide; [by rewrite elem_of_nil|]. rewrite elem_of_app.
      intros [Hi|Hi]; revert Hi; destruct ks, kn; cbn; rewrite ?elem_of_nil, ?list_elem_of_singleton; (done || by intros ->). }
    destruct (decide (n = k)) as [->|Hne].
    + rewrite Hst. rewrite (decide_False (P := k ∈ order)) by done. rewrite decide_True by by left. rewrite app_nil_r. fold ks kn.
      clear -Hsame. induction (plan_muts k pk ks kn) as [|i l IHl]; [done|]. rewrite filter_cons_True by (apply Hsame; by left).
      by rewrite IHl by (intros; apply Hsame; by right).
    + assert (filter (fun m => index_name m = n) (plan_muts k pk ks kn) = []) as ->.
      { clear -Hsame Hne. induction (plan_muts k pk ks kn) as [|i l IHl]; [done|]. rewrite filter_cons_False.
        - apply IHl. intros; apply Hsame; by right.
        - rewrite (Hsame i) by by left. done. }
      destruct (indexes mg !! n); [|done]. cbn [app]. destruct (decide (n ∈ order)).
      * by rewrite decide_True by by right.
      * rewrite decide_False; [done|]. intros Hc. apply elem_of_cons in Hc as [|]; done.
Qed.

(** *** The invariant *)

Definition at_key (kind : SecondaryIndexKind) (db : stored) (pk : bytes) : option bytes := key_opt kind (live db !! pk).

(** Every history is ordered, ends by [l], and answers for the rows [dbr r] of each LSN. *)
Definition tracks (l : Z) (dbr : Z -> stored) (mg : SecondaryIndexManager) : Prop :=
  forall n st, indexes mg !! n = Some st -> forall key pk,
    hist_ok l (history_of st key pk) /\
    forall r, visible_membership (history_of st key pk) r = bool_decide (at_key (def_kind (st_def st)) (dbr r) pk = Some key).

Definition same_defs (mg mg' : SecondaryIndexManager) : Prop :=
  forall n, st_def <$> indexes mg !! n = st_def <$> indexes mg' !! n.

Lemma same_defs_apply l ms mg : same_defs (apply_commit l ms mg) mg.
Proof.
  intros n. rewrite apply_commit_index, <-option_fmap_compose. destruct (indexes mg !! n); [|done]. cbn. by rewrite posts_def.
Qed.

Lemma same_defs_ok mg mg' : same_defs mg mg' -> mg_ok mg' -> mg_ok mg.
Proof.
  intros Hs Hok n st Hst. specialize (Hs n). rewrite Hst in Hs. cbn in Hs. destruct (indexes mg' !! n) as [st'|] eqn:E; [|done].
  cbn in Hs. injection Hs as ->. by apply (Hok n).
Qed.

Lemma same_defs_plan mg mg' pk old new : same_defs mg mg' -> forall order,
  plan_all pk old new (values order mg) = plan_all pk old new (values order mg').
Proof.
  intros Hs order. induction order as [|n order IH]; [done|]. unfold values in *. cbn [omap list_omap]. specialize (Hs n).
  destruct (indexes mg !! n) as [st|], (indexes mg' !! n) as [st'|]; try done; cbn in Hs. injection Hs as Hd.
  cbn [plan_all]. unfold plan_index. by rewrite Hd, IH.
Qed.

Definition live_at (l : Z) (db : stored) (dbr : Z -> stored) (r : Z) : stored :=
  if l <=? r then db else dbr r.

(** One history after the mutations of one change. *)
Lemma history_posts l st n pk old_key new_key key pk' :
  history_of (posts l st (plan_muts n pk old_key new_key)) key pk' =
  if decide (pk' = pk /\ old_key <> new_key /\ (Some key = old_key \/ Some key = new_key))
  then push_posting l (bool_decide (new_key = Some key)) (history_of st key pk') else history_of st key pk'.
Proof.
  unfold plan_muts, posts. case_bool_decide as He.
  - rewrite decide_False by naive_solver. done.
  - destruct old_key as [ok|], new_key as [nk|]; cbn [mutation_for app foldl]; rewrite ?history_post; cbn [secondary_key primary_key present];
      repeat case_decide; naive_solver.
Qed.

(** A change that fits the indexes there are.  A row that was deleted is not put back with
    the key it had in some index: [put] would plan nothing for that index, and the row would
    stay out of it. *)
Definition change_ok (mg : SecondaryIndexManager) (db : stored) (c : change) : Prop :=
  NoDup c.1 /\ (forall n, n ∈ c.1 <-> is_Some (indexes mg !! n)) /\ val_ok c.2.2 /\
  forall v w n st, c.2.2 = Some v -> db !! c.2.1 = Some (w, false) -> indexes mg !! n = Some st ->
    key_of (def_kind (st_def st)) w <> key_of (def_kind (st_def st)) v.

Fixpoint changes_ok (mg : SecondaryIndexManager) (db : stored) (cs : list change) : Prop :=
  match cs with
  | [] => True
  | c :: cs => change_ok mg db c /\ changes_ok mg (row db c) cs
  end.

Definition db_ok (db : stored) : Prop := forall k e, db !! k = Some e -> zlen e.1 = VALUE_SIZE.

(** The key of the row after a change. *)
Lemma at_key_row kind db order pk new pk' :
  at_key kind (row db (order, (pk, new))) pk' = if decide (pk' = pk) then key_opt kind new else at_key kind db pk'.
Proof.
  unfold at_key, row, live. cbn [fst snd]. rewrite !lookup_omap. case_decide; subst; destruct new; cbn;
    rewrite ?lookup_insert_eq, ?lookup_insert_ne, ?lookup_alter_eq, ?lookup_alter_ne by done; try done.
  by destruct (db !! pk).
Qed.

(** A change moves the key of a row: it leaves the old key, when it was there, for the new. *)
Lemma change_keys kind db pk new key :
  (forall v w, new = Some v -> db !! pk = Some (w, false) -> key_of kind w <> key_of kind v) ->
  ~ (key_opt kind (fst <$> db !! pk) <> key_opt kind new /\ (Some key = key_opt kind (fst <$> db !! pk) \/ Some key = key_opt kind new)) ->
  at_key kind db pk = Some key <-> key_opt kind new = Some key.
Proof.
  intros Hno Hd. unfold at_key, live. rewrite lookup_omap. destruct (db !! pk) as [[w b]|] eqn:E; cbn in *.
  - destruct b; cbn in *.
    + destruct (decide (key_of kind w = key_opt kind new)) as [->|]; [done|]. split; intros Hx; exfalso; apply Hd; auto.
    + split; [done|]. intros Hx. exfalso. destruct new as [v|]; [|done]. cbn in *. apply Hd. split; [by apply Hno|auto].
  - destruct (key_opt kind new) as [k|]; [|done]. split; [done|]. intros [= ->]. exfalso. apply Hd. auto.
Qed.

Lemma tracks_plan l db dbr mg order pk new ms :
  mg_ok mg -> db_ok db -> change_ok mg db (order, (pk, new)) -> plan_mutations order pk (fst <$> db !! pk) new mg = Ret ms ->
  tracks l (live_at l db dbr) mg -> tracks l (live_at l (row db (order, (pk, new))) dbr) (apply_commit l ms mg).
Proof.
  intros Hmg Hdb (Hnd & Hord & Hnew & Hno) Hplan Htr n st Hst key pk'. rewrite apply_commit_index in Hst. cbn [fst snd] in *.
  destruct (indexes mg !! n) as [st0|] eqn:E; [|done]. cbn in Hst. injection Hst as <-. rewrite posts_def.
  assert (Hold : val_ok (fst <$> db !! pk)) by (intros w Hw; apply fmap_Some in Hw as (e & He & ->); by apply (Hdb pk)).
  destruct (plan_all_of mg pk _ new Hmg Hold Hnew order Hnd) as (ms' & Hms & Hof); [by intros k; apply Hord|].
  unfold plan_mutations in Hplan. rewrite Hms in Hplan. injection Hplan as <-. rewrite (Hof n), E, decide_True by (by apply Hord; rewrite E).
  rewrite history_posts. set (kind := def_kind (st_def st0)). destruct (Htr n st0 E key pk') as [Hok Hv]. fold kind in Hv.
  pose proof (at_key_row kind db order pk new pk') as Hrow. destruct (decide (pk' = pk /\ _ /\ _)) as [Hd|Hd].
  - destruct Hd as (-> & Hne & Hk). rewrite decide_True in Hrow by done. destruct (push_posting_ok l (bool_decide (key_opt kind new = Some key)) _ Hok) as [H1 H2].
    split; [done|]. intros r. rewrite H2, Hv. unfold live_at. destruct (l <=? r); [|done]. by rewrite Hrow.
  - split; [done|]. intros r. rewrite Hv. unfold live_at. destruct (l <=? r); [|done]. rewrite Hrow. destruct (decide (pk' = pk)) as [Hpk|]; [|done]. subst pk'.
    apply bool_decide_ext, change_keys; [|tauto]. intros v w Hv' Hw. by apply (Hno v w n st0).
Qed.

Lemma row_ok mg db c : db_ok db -> change_ok mg db c -> db_ok (row db c).
Proof.
  intros Hdb (_ & _ & Hv & _) k e. unfold row. destruct c as [o [pk new]]. cbn in *. destruct new as [w|].
  - destruct (decide (k = pk)) as [->|]; [rewrite lookup_insert_eq; intros [= <-]; by apply Hv|rewrite lookup_insert_ne by done; apply Hdb].
  - destruct (decide (k = pk)) as [->|]; [|rewrite lookup_alter_ne by done; apply Hdb].
    rewrite lookup_alter_eq. intros Hk. apply fmap_Some in Hk as (e' & He & ->). exact (Hdb pk e' He).
Qed.

Lemma change_ok_same mg mg' db c : same_defs mg mg' -> change_ok mg' db c -> change_ok mg db c.
Proof.
  intros Hs (Hnd & Ho & Hv & Hno). split; [done|]. split; [|split; [done|]].
  - intros n. rewrite Ho. specialize (Hs n). destruct (indexes mg !! n), (indexes mg' !! n); try done; split; by intros [].
  - intros v w n st Hnew Hw Hst. specialize (Hs n). rewrite Hst in Hs. destruct (indexes mg' !! n) as [st'|] eqn:E; [|done].
    cbn in Hs. injection Hs as ->. by apply (Hno v w n st').
Qed.

Lemma changes_ok_same mg mg' cs : same_defs mg mg' -> forall db, changes_ok mg' db cs -> changes_ok mg db cs.
Proof.
  intros Hs. induction cs as [|c cs IH]; intros db; [done|]. intros [Hc Hcs]. split; [by eapply change_ok_same|by apply IH].
Qed.

Lemma tracks_change l db dbr mg mgp c :
  mg_ok mg -> db_ok db -> change_ok mg db c -> same_defs mgp mg -> tracks l (live_at l db dbr) mg ->
  exists ms, plan_change mgp db c = Ret ms /\ tracks l (live_at l (row db c) dbr) (apply_commit l ms mg).
Proof.
  intros Hmg Hdb Hc Hp Htr. pose proof Hc as (Hnd & Hord & Hval & _). destruct c as [order [pk new]]. cbn [fst snd] in *.
  assert (Hold : val_ok (fst <$> db !! pk)) by (intros w Hw; apply fmap_Some in Hw as (e & He & ->); by apply (Hdb pk)).
  destruct (plan_all_of mg pk _ new Hmg Hold Hval order Hnd) as (ms & Hms & _); [by intros k; apply Hord|].
  pose proof (tracks_plan l db dbr mg order pk new ms Hmg Hdb Hc Hms Htr) as Htr'.
  assert (Hplan : plan_mutations order pk (fst <$> db !! pk) new mgp = Ret ms) by (unfold plan_mutations; by rewrite (same_defs_plan mgp mg)).
  unfold plan_change. cbn [fst snd]. clear Hms Hold. destruct (db !! pk) as [e|] eqn:E, new as [v|]; [exists ms; split; [exact Hplan|exact Htr']..|].
  exists []. split; [done|]. unfold row. cbn [fst snd]. rewrite alter_id' by done. exact Htr.
Qed.

(** The changes of a transaction, planned together and applied together. *)
Lemma tracks_changes l dbr cs : forall db mg mgp,
  mg_ok mg -> db_ok db -> changes_ok mg db cs -> same_defs mgp mg -> tracks l (live_at l db dbr) mg ->
  exists ms, plan_changes mgp db cs = Ret ms /\ tracks l (live_at l (rows db cs) dbr) (apply_commit l ms mg).
Proof.
  induction cs as [|c cs IH]; intros db mg mgp Hmg Hdb Hcs Hp Htr; [by exists []|]. destruct Hcs as [Hc Hcs].
  destruct (tracks_change l db dbr mg mgp c Hmg Hdb Hc Hp Htr) as (ms & Hms & Htr'). pose proof (same_defs_apply l ms mg) as Hsd.
  destruct (IH (row db c) (apply_commit l ms mg) mgp) as (ms2 & Hms2 & Htr2); [| | | |done|].
  - by eapply same_defs_ok.
  - by apply (row_ok mg).
  - by eapply changes_ok_same.
  - intros n. by rewrite Hsd, Hp.
  - exists (ms ++ ms2). cbn [plan_changes]. rewrite Hms. obind. rewrite Hms2. obind. split; [done|].
    unfold apply_commit. rewrite foldl_app. exact Htr2.
Qed.

(** Increasing LSNs, changes of the right types, walks over the indexes there are. *)
Fixpoint commits_ok (mg : SecondaryIndexManager) (l : Z) (db : stored) (commits : list commit) : Prop :=
  match commits with
  | [] => True
  | (lsn, cs) :: commits => l < lsn /\ changes_ok mg db cs /\ commits_ok mg lsn (rows db cs) commits
  end.

Lemma rows_ok mg cs : forall db, db_ok db -> changes_ok mg db cs -> db_ok (rows db cs).
Proof. induction cs as [|c cs IH]; intros db Hdb Hcs; [done|]. destruct Hcs as [Hc Hcs]. cbn. apply IH; [by apply (row_ok mg)|done]. Qed.

Lemma commits_ok_same mg mg' commits : same_defs mg mg' -> forall l db, commits_ok mg' l db commits -> commits_ok mg l db commits.
Proof.
  intros Hs. induction commits as [|[lsn cs] commits IH]; intros l db; [done|]. cbn. intros (H1 & H2 & H3).
  split_and!; [done|by eapply changes_ok_same|by apply IH].
Qed.

Lemma hist_ok_le l l' h : l <= l' -> hist_ok l h -> hist_ok l' h.
Proof. intros Hl [H1 H2]. split; [done|]. eapply Forall_impl; [exact H2|]. cbn. lia. Qed.

(** The rows at [r] from rows [dbr r] on. *)
Definition dbs_at (dbr : Z -> stored) (commits : list commit) (r : Z) : stored :=
  foldl (fun db c => if c.1 <=? r then rows db c.2 else db) (dbr r) commits.

Lemma tracks_run commits : forall l db dbr mg,
  mg_ok mg -> db_ok db -> commits_ok mg l db commits -> (forall r, l <= r -> dbr r = db) -> tracks l dbr mg ->
  exists mg' l', run mg db commits = Ret mg' /\ same_defs mg' mg /\ tracks l' (dbs_at dbr commits) mg'.
Proof.
  induction commits as [|[lsn cs] commits IH]; intros l db dbr mg Hmg Hdb Hc Hr Htr.
  - exists mg, l. split_and!; [done|by intros n|]. exact Htr.
  - destruct Hc as (Hl & Hcs & Hc). destruct (tracks_changes lsn dbr cs db mg mg) as (ms & Hms & Htr'); [done|done|done|by intros n| |].
    { intros n st Hst key pk. destruct (Htr n st Hst key pk) as [H1 H2]. split; [by apply (hist_ok_le l); [lia|]|].
      intros r. rewrite H2. unfold live_at. destruct (Z.leb_spec lsn r); [by rewrite Hr by lia|done]. }
    pose proof (same_defs_apply lsn ms mg) as Hsd.
    destruct (IH lsn (rows db cs) (live_at lsn (rows db cs) dbr) (apply_commit lsn ms mg)) as (mg' & l' & Hrun & Hsd' & Htr2); [| | | |exact Htr'|].
    + by eapply same_defs_ok.
    + by apply (rows_ok mg).
    + by eapply commits_ok_same.
    + intros r Hle. unfold live_at. by rewrite (proj2 (Z.leb_le _ _)).
    + exists mg', l'. cbn [run]. rewrite Hms. obind. split; [done|]. split; [intros n; by rewrite Hsd'|].
      intros n st Hst key pk. destruct (Htr2 n st Hst key pk) as [H1 H2]. split; [done|]. intros r. rewrite H2.
      assert (dbs_at (live_at lsn (rows db cs) dbr) commits r = dbs_at dbr ((lsn, cs) :: commits) r) as ->; [|done].
      unfold dbs_at. cbn [foldl fst snd]. unfold live_at. destruct (Z.leb_spec lsn r); [by rewrite Hr by lia|done].
Qed.

(** *** Queries *)

Lemma collect_take by_pk r limit : forall out,
  zlen out < limit ->
  collect by_pk r limit out = take (Z.to_nat limit) (out ++ (filter (fun e => visible_membership e.2 r = true) by_pk).*1).
Proof.
  induction by_pk as [|[pk vs] by_pk IH]; intros out Hl; cbn [collect].
  - rewrite app_nil_r, take_ge; [done|]. unfold zlen in Hl. lia.
  - destruct (visible_membership vs r) eqn:Hv.
    + rewrite filter_cons_True by done. cbn [fmap list_fmap fst]. destruct (Z.leb_spec limit (zlen (out ++ [pk]))) as [Hle|Hgt].
      * rewrite (cons_middle pk out (_ <$> _)), app_assoc, take_app_length'; [done|]. rewrite zlen_app in Hle. change (zlen [pk]) with 1 in Hle. rewrite length_app. unfold zlen in *. cbn. lia.
      * rewrite IH by lia. by rewrite <-app_assoc.
    + rewrite filter_cons_False by (cbn; congruence). by apply IH.
Qed.

Lemma query_tracks {AL : Allocator} l dbr mg n st key r limit :
  tracks l dbr mg -> indexes mg !! n = Some st -> 0 < limit -> fits 0 limit KEY_SIZE = true ->
  query_equal n key r limit mg = Ret (take (Z.to_nat limit) (rows_with (def_kind (st_def st)) key (live (dbr r)))).
Proof.
  intros Htr Hst Hl Hf. unfold query_equal, with_capacity. rewrite (proj2 (Z.eqb_neq _ _)), Hst, Hf by lia. obind.
  assert (Hin : forall pk, visible_membership (history_of st key pk) r = true <-> at_key (def_kind (st_def st)) (dbr r) pk = Some key).
  { intros pk. destruct (Htr n st Hst key pk) as [_ Hv]. rewrite Hv. apply bool_decide_eq_true. }
  assert (Hk : forall pk, is_Some (filter (fun e => key_of (def_kind (st_def st)) e.2 = Some key) (live (dbr r)) !! pk) <-> at_key (def_kind (st_def st)) (dbr r) pk = Some key).
  { intros pk. unfold at_key, key_opt. split.
    - intros [v Hv]. apply map_lookup_filter_Some in Hv as [Hv Hk]. by rewrite Hv.
    - destruct (live (dbr r) !! pk) as [v|] eqn:E; [|done]. cbn. intros Hk. exists v. by apply map_lookup_filter_Some. }
  destruct (postings (st_btree st) !! key) as [by_pk|] eqn:Hp.
  - rewrite collect_take by (rewrite zlen_nil; lia). cbn [app]. f_equal. f_equal. apply filtered_walks. intros pk. rewrite Hk, <-Hin.
    unfold history_of. rewrite Hp. cbn [default from_option id]. split; [by intros (vs & -> & Hvs)|].
    destruct (by_pk !! pk) as [vs|]; [by exists vs|]. cbn. done.
  - f_equal. unfold rows_with. assert (filter (fun e => key_of (def_kind (st_def st)) e.2 = Some key) (live (dbr r)) = ∅) as ->; [|by destruct (Z.to_nat limit)].
    apply map_eq. intros pk. rewrite lookup_empty. apply eq_None_not_Some. rewrite Hk, <-Hin. unfold history_of. by rewrite Hp.
Qed.

(** *** The theorems *)

Definition range_typed (d : SecondaryIndexDefinition) : Prop :=
  let 'IndexBtree o n := def_kind d in 0 <= o /\ 0 <= n /\ o + n < U64.

Definition fresh (m : gmap (list Z) SecondaryIndexState) : Prop :=
  forall n st, m !! n = Some st -> st = empty_state (st_def st) /\ def_name (st_def st) = n /\ kind_ok (def_kind (st_def st)).

Lemma new_map_fresh defs : forall m m',
  new_map defs m = Ret m' -> Forall range_typed defs -> fresh m ->
  fresh m' /\ (forall n st, m !! n = Some st -> m' !! n = Some st) /\ (forall d, d ∈ defs -> m' !! def_name d = Some (empty_state d)).
Proof.
  induction defs as [|d defs IH]; intros m m' Hm Hty Hf.
  - injection Hm as <-. split_and!; [done|done|]. intros d Hd. by apply elem_of_nil in Hd.
  - apply Forall_cons in Hty as [Hd Hty]. cbn [new_map] in Hm. destruct (bytes_eqb _ _); [done|].
    case_bool_decide as Hnone; [done|]. apply eq_None_not_Some in Hnone. destruct d as [name [o n]]. cbn [def_kind def_name] in *.
    destruct ((n =? 0) || range_bad o n) eqn:Hb; [done|]. unfold range_bad, wrap64 in Hb. destruct Hd as (Ho & Hn & Hon). cbn in Ho, Hn, Hon.
    rewrite Z.mod_small in Hb by lia. apply orb_false_iff in Hb as [H1 Hb]. apply orb_false_iff in Hb as [H2 H3].
    apply Z.eqb_neq in H1. apply Z.ltb_ge in H3.
    destruct (IH _ _ Hm Hty) as (F1 & F2 & F3).
    { intros k st. destruct (decide (k = name)) as [->|]; [rewrite lookup_insert_eq; intros [= <-]|rewrite lookup_insert_ne by done; apply Hf].
      split_and!; [done|done|]. cbn. lia. }
    split_and!; [done| |].
    + intros k st Hk. apply F2. rewrite lookup_insert_ne; [done|]. intros <-. congruence.
    + intros d Hd. apply elem_of_cons in Hd as [->|Hd]; [|by apply F3]. apply F2. cbn. by rewrite lookup_insert_eq.
Qed.

(** C29: the indexes answer for every snapshot.  After any sequence of commits of puts and
    deletions, each planned against the rows in the tree as [put] and [delete] do, a query at
    LSN [r] returns, in the order of the primary keys and up to the limit, exactly the keys
    of the rows that were there after the commits up to [r] with the key in the indexed
    range, whatever other indexes there are and in whatever order the map of indexes was
    walked.  Two things are excluded: a deleted row put back with a key it had in an index
    before ([change_ok]), and a limit that [Vec::with_capacity] refuses, for which the query
    panics on any index there is. *)
Theorem index_query_refines_rows {AL : Allocator} defs mg0 mg commits :
  replace_definitions defs mg0 = (Ret tt, mg) -> Forall range_typed defs -> commits_ok mg (-1) ∅ commits ->
  exists mg', run mg ∅ commits = Ret mg' /\
    forall d key r limit, d ∈ defs -> 0 < limit ->
      query_equal (def_name d) key r limit mg' =
        if fits 0 limit KEY_SIZE then Ret (take (Z.to_nat limit) (rows_with (def_kind d) key (live (stored_at commits r)))) else Panic.
Proof.
  intros Hrep Hty Hc. unfold replace_definitions, lift, modify in Hrep. cbn in Hrep. destruct (new_map defs ∅) as [m| | |] eqn:Hm; try done.
  cbn in Hrep. injection Hrep as <-. destruct (new_map_fresh defs ∅ m Hm Hty) as (Hf & _ & Hall); [by intros n st; rewrite lookup_empty|].
  destruct (tracks_run commits (-1) ∅ (fun _ => ∅) (mkIndexManager m)) as (mg' & l & Hrun & Hsd & Htr); [| |done|done| |].
  - intros n st Hst. by destruct (Hf n st Hst) as (_ & H1 & H2).
  - by intros k v; rewrite lookup_empty.
  - intros n st Hst key pk. destruct (Hf n st Hst) as (-> & _). cbn. split; [by repeat constructor|]. intros r. by rewrite bool_decide_false.
  - exists mg'. split; [done|]. intros d key r limit Hd Hl. specialize (Hsd (def_name d)). cbn [indexes] in Hsd. rewrite (Hall d Hd) in Hsd.
    destruct (indexes mg' !! def_name d) as [st|] eqn:E; [|done]. cbn in Hsd. injection Hsd as Hdef. destruct (fits 0 limit KEY_SIZE) eqn:Hfit.
    + rewrite (query_tracks l _ mg' _ st key r limit Htr E Hl Hfit), Hdef. done.
    + unfold query_equal, with_capacity. by rewrite (proj2 (Z.eqb_neq _ _)), E, Hfit by lia.
Qed.

Definition tag_def : SecondaryIndexDefinition := mkDefinition [116; 97; 103] (IndexBtree 0 2).
Definition tag_value (b : Z) : bytes := [b; b] ++ zrepeat 0 1022.
Definition tag_pk : bytes := zrepeat 7 KEY_SIZE.

(** Commit 10 gives the row the tag [97; 97], commit 20 deletes it, and commit 30 puts it
    back with the tag [98; 98]. *)
Definition tag_commits : list commit :=
  [(10, [([def_name tag_def], (tag_pk, Some (tag_value 97)))]); (20, [([def_name tag_def], (tag_pk, None))]);
   (30, [([def_name tag_def], (tag_pk, Some (tag_value 98)))])].

Definition tag_manager : SecondaryIndexManager := mkIndexManager (<[def_name tag_def := empty_state tag_def]> ∅).

Lemma tag_change_ok db new :
  val_ok new -> (forall v w, new = Some v -> db !! tag_pk = Some (w, false) -> key_of (IndexBtree 0 2) w <> key_of (IndexBtree 0 2) v) ->
  change_ok tag_manager db ([def_name tag_def], (tag_pk, new)).
Proof.
  intros Hv Hno. split; [apply NoDup_singleton|]. split; [|split; [exact Hv|]].
  - intros n. cbn [fst indexes tag_manager]. rewrite list_elem_of_singleton. destruct (decide (n = def_name tag_def)) as [->|Hn].
    + rewrite lookup_insert_eq. split; [by eexists|done].
    + rewrite lookup_insert_ne, lookup_empty by done. split; [done|]. by intros [].
  - intros v w n st Hnew Hw Hst. cbn [indexes tag_manager] in Hst. destruct (decide (n = def_name tag_def)) as [->|Hn].
    + rewrite lookup_insert_eq in Hst. injection Hst as <-. by apply Hno.
    + by rewrite lookup_insert_ne, lookup_empty in Hst by done.
Qed.

Lemma tag_value_len b : val_ok (Some (tag_value b)).
Proof. intros w [= <-]. unfold tag_value. rewrite zlen_app, zlen_zrepeat by lia. reflexivity. Qed.

Lemma tag_commits_ok : commits_ok tag_manager (-1) ∅ tag_commits.
Proof.
  cbn [commits_ok changes_ok tag_commits]. split_and!; try lia; try exact I; apply tag_change_ok; try apply tag_value_len; try done.
  intros v w [= <-] Hw. unfold rows, row in Hw. cbn [foldl fst snd] in Hw. rewrite lookup_alter_eq, lookup_insert_eq in Hw.
  cbn in Hw. injection Hw as <-. vm_compute. discriminate.
Qed.

#[local] Existing Instance machine.

Lemma index_query_refines_rows_witness :
  exists mg', replace_definitions [tag_def] default_manager = (Ret tt, tag_manager) /\ run tag_manager ∅ tag_commits = Ret mg' /\
    query_equal (def_name tag_def) [97; 97] 15 10 mg' = Ret (take 10 (rows_with (def_kind tag_def) [97; 97] (live (stored_at tag_commits 15)))) /\
    query_equal (def_name tag_def) [97; 97] 15 U64 mg' = Panic.
Proof.
  destruct (index_query_refines_rows [tag_def] default_manager tag_manager tag_commits eq_refl) as (mg' & Hrun & Hq).
  - apply Forall_singleton. unfold range_typed, tag_def, U64. cbn. lia.
  - exact tag_commits_ok.
  - exists mg'. split; [reflexivity|]. split; [exact Hrun|].
    split; [apply (Hq tag_def [97; 97] 15 10)|apply (Hq tag_def [97; 97] 15 U64)]; first [by apply list_elem_of_singleton|unfold U64; lia].
Defined.

Lemma plan_all_panics pk old v states :
  (exists ms, plan_all pk old (Some v) states = Ret ms) \/ plan_all pk old (Some v) states = Panic.
Proof.
  induction states as [|st states IH]; [left; by eexists|]. cbn [plan_all]. unfold plan_index.
  assert (Hk : forall w, (exists k, index_key_opt (def_kind (st_def st)) w = Ret k) \/ index_key_opt (def_kind (st_def st)) w = Panic).
  { intros [w|]; [|left; by eexists]. cbn. unfold index_key. destruct (def_kind (st_def st)) as [o n]. unfold get_range. case_match; [left; by eexists|by right]. }
  destruct (Hk old) as [[k1 ->]| ->]; [|by right]. obind. destruct (Hk (Some v)) as [[k2 ->]| ->]; [|by right]. obind.
  case_bool_decide; obind; (destruct IH as [[ms ->]| ->]; [left; by eexists|by right]).
Qed.

Lemma plan_all_panic pk old v st states :
  st ∈ states -> index_key (def_kind (st_def st)) v = Panic -> plan_all pk old (Some v) states = Panic.
Proof.
  intros Hin Hp. induction states as [|s states IH]; [by apply elem_of_nil in Hin|]. apply elem_of_cons in Hin as [<-|Hin].
  - destruct (plan_all_panics pk old v [st]) as [[ms Hms]|Hms]; cbn [plan_all] in *; unfold plan_index in *;
      destruct (index_key_opt (def_kind (st_def st)) old); obind; cbn in Hms |- *; rewrite ?Hp in *; done.
  - destruct (plan_all_panics pk old v [s]) as [[ms Hms]|Hms]; cbn [plan_all] in *; destruct (plan_index pk old (Some v) s); cbn in *; try done.
    by rewrite IH.
Qed.

(** The length of an indexed range is not checked against overflow: an index whose
    offset and length add up to 2 to the 64 is created, and from then on every write of a
    row panics. *)
Theorem wrapping_range_accepted name o mg :
  name <> [] -> indexes mg !! name = None -> 0 < o < VALUE_SIZE ->
  exists mg', create_btree_index name o (U64 - o) mg = (Ret tt, mg') /\
    forall order pk old v, name ∈ order -> plan_mutations order pk old (Some v) mg' = Panic.
Proof.
  intros Hne Hnone Ho. unfold create_btree_index. destruct (bytes_eqb_spec name []); [done|].
  rewrite (proj2 (Z.eqb_neq (U64 - o) 0)) by (unfold U64, VALUE_SIZE in *; lia).
  assert (Hw : wrap64 (o + (U64 - o)) = 0) by (replace (o + (U64 - o)) with U64 by lia; reflexivity).
  assert (range_bad o (U64 - o) = false) as -> by (unfold range_bad; rewrite Hw, (proj2 (Z.leb_gt _ _)) by lia; reflexivity).
  rewrite st_bind_gets, bool_decide_false by (rewrite Hnone; by intros []). eexists. split; [reflexivity|].
  intros order pk old v Hin. unfold plan_mutations. eapply plan_all_panic.
  - unfold values. apply list_elem_of_omap. exists name. split; [exact Hin|]. cbn [indexes]. apply lookup_insert_eq.
  - cbn [st_def empty_state def_kind]. unfold index_key. rewrite Hw. unfold get_range. rewrite (proj2 (Z.leb_gt o 0)) by lia. by rewrite andb_false_r.
Qed.

Lemma wrapping_range_accepted_witness :
  exists mg', create_btree_index [116] 1 (U64 - 1) default_manager = (Ret tt, mg') /\
    plan_mutations [[116]] tag_pk None (Some (tag_value 97)) mg' = Panic.
Proof.
  destruct (wrapping_range_accepted [116] 1 default_manager) as (mg' & Hc & Hp); [done|reflexivity|unfold VALUE_SIZE; lia|].
  exists mg'. split; [exact Hc|]. apply Hp. by apply list_elem_of_singleton.
Defined.

End IndexProps.
