(* ===== verification/BtreePage.v ===== *)
(** * BtreePage: the page format of the B+tree (src/src/page_bptree.rs, the free
    functions from [PageHeader] on)

    A tree page has a 48-byte header (type, level, key count, leaf links, leftmost
    child, high key), an offset table and the entries.  An entry is a 16-byte key with
    a leaf value or a child id.  The functions work on the page's bytes; the abstract
    view of a page is the header fields with the list of entries. *)

From stdpp Require Import base numbers list list_numbers gmap fin_maps.
From S2P Require Import Prelude Common SlottedPage.

Definition PAGE_TYPE_INTERNAL : Z := 1.
Definition PAGE_TYPE_LEAF : Z := 2.
Definition ROOT_LATCH_PAGE_ID : PageId := 0.
Definition HIGH_KEY_SIZE : Z := KEY_SIZE.
Definition HEADER_SIZE : Z := 48.
Definition OFFSET_ENTRY_SIZE : Z := 2.
Definition LEAF_VALUE_SIZE : Z := VALUE_SIZE + 8 + 8 + 2 + 2 + 8 + 8.
Definition CHILD_ID_SIZE : Z := 8.
Definition MAX_TRAVERSAL_RETRIES : Z := 8.
Definition MAX_RIGHT_LINK_HOPS : Z := 256.
Definition MAX_SCAN_LEAF_HOPS : Z := 8192.

Record LeafValueMeta := {
  commit_lsn : Z;
  undo_ptr : option UndoPtr;
  flags : Z;
  intent_txn_id : Z;
  intent_lsn : Z
}.

(** [LeafValue] (the value owned) and [LeafValueRef] (the value shared with its page)
    have the same contents. *)
Record LeafValue := { lv_value : bytes; lv_meta : LeafValueMeta }.

Record PageHeader := {
  page_type : Z;
  level : Z;
  key_count : Z;
  prev_leaf : option PageId;
  next_leaf : option PageId;
  left_child : PageId;
  high_key : option bytes
}.

#[global] Instance LeafValueMeta_eq_dec : EqDecision LeafValueMeta.
Proof. solve_decision. Defined.
#[global] Instance LeafValue_eq_dec : EqDecision LeafValue.
Proof. solve_decision. Defined.

Module Bp.

Abbreviation M := (outcome Error) (only parsing).
Abbreviation entry := (bytes * bytes)%type (only parsing).

(** [if x == 0 { None } else { Some(x) }]. *)
Definition nonzero (x : Z) : option Z := if x =? 0 then None else Some x.

(** Struct updates of the header. *)
Definition with_key_count (h : PageHeader) (n : Z) : PageHeader := {|
  page_type := page_type h; level := level h; key_count := n; prev_leaf := prev_leaf h;
  next_leaf := next_leaf h; left_child := left_child h; high_key := high_key h |}.
Definition with_prev (h : PageHeader) (x : option PageId) : PageHeader := {|
  page_type := page_type h; level := level h; key_count := key_count h; prev_leaf := x;
  next_leaf := next_leaf h; left_child := left_child h; high_key := high_key h |}.
Definition with_next (h : PageHeader) (x : option PageId) : PageHeader := {|
  page_type := page_type h; level := level h; key_count := key_count h; prev_leaf := prev_leaf h;
  next_leaf := x; left_child := left_child h; high_key := high_key h |}.
Definition with_left (h : PageHeader) (x : PageId) : PageHeader := {|
  page_type := page_type h; level := level h; key_count := key_count h; prev_leaf := prev_leaf h;
  next_leaf := next_leaf h; left_child := x; high_key := high_key h |}.
Definition with_high (h : PageHeader) (x : option bytes) : PageHeader := {|
  page_type := page_type h; level := level h; key_count := key_count h; prev_leaf := prev_leaf h;
  next_leaf := next_leaf h; left_child := left_child h; high_key := x |}.

Definition page_header (page : bytes) : M PageHeader :=
  ty ← get_at page 0;
  lv ← get_at page 1;
  b2 ← get_at page 2;
  b3 ← get_at page 3;
  prev ← read_le 8 page 4;
  next ← read_le 8 page 12;
  left ← read_le 8 page 20;
  hp ← get_at page 28;
  high ← (if negb (hp =? 0)
          then hk ← get_range page 29 (29 + HIGH_KEY_SIZE); Ret (Some hk)
          else Ret None);
  Ret {| page_type := ty; level := lv; key_count := le_val [b2; b3];
         prev_leaf := nonzero prev; next_leaf := nonzero next;
         left_child := left; high_key := high |}.

Definition leaf_page_header (page : bytes) : M PageHeader := page_header page.

Definition write_header (page : bytes) (header : PageHeader) : M bytes :=
  page ← put_at page 0 (page_type header);
  page ← put_at page 1 (level header);
  page ← put_range page 2 4 (le_bytes 2 (key_count header));
  page ← put_range page 4 12 (le_bytes 8 (default 0 (prev_leaf header)));
  page ← put_range page 12 20 (le_bytes 8 (default 0 (next_leaf header)));
  page ← put_range page 20 28 (le_bytes 8 (left_child header));
  page ← match high_key header with
         | Some hk =>
             page ← put_at page 28 1;
             put_range page 29 (29 + HIGH_KEY_SIZE) hk
         | None =>
             page ← put_at page 28 0;
             put_range page 29 (29 + HIGH_KEY_SIZE) (zrepeat 0 HIGH_KEY_SIZE)
         end;
  if 29 + HIGH_KEY_SIZE <? HEADER_SIZE
  then put_range page (29 + HIGH_KEY_SIZE) HEADER_SIZE (zrepeat 0 (HEADER_SIZE - (29 + HIGH_KEY_SIZE)))
  else Ret page.

Definition new_page (page_type level : Z) : M Page :=
  write_header (zrepeat 0 PAGE_SIZE)
    {| page_type := page_type; level := level; key_count := 0; prev_leaf := None;
       next_leaf := None; left_child := 0; high_key := None |}.

Definition entry_value_size (page_type : Z) : Z :=
  if page_type =? PAGE_TYPE_LEAF then LEAF_VALUE_SIZE
  else if page_type =? PAGE_TYPE_INTERNAL then CHILD_ID_SIZE
  else 0.

Definition entry_size (page_type : Z) : Z := KEY_SIZE + entry_value_size page_type.

Definition data_start (key_count : Z) : Z := HEADER_SIZE + key_count * OFFSET_ENTRY_SIZE.

Definition read_u16 (page : bytes) (offset : Z) : M Z := read_le 2 page offset.
Definition write_u16 (page : bytes) (offset value : Z) : M bytes := write_le 2 page offset value.

Definition entry_key_at (page : bytes) (index : Z) : M (option bytes) :=
  header ← page_header page;
  if key_count header <=? index then Ret None else
  let start := data_start (key_count header) in
  rel ← read_u16 page (HEADER_SIZE + index * OFFSET_ENTRY_SIZE);
  let entry_offset := start + rel in
  let key_end := entry_offset + KEY_SIZE in
  if PAGE_SIZE <? key_end then Ret None else
  k ← get_range page entry_offset key_end;
  Ret (Some k).

Definition entry_value_bounds (page : bytes) (index : Z) : M (option (Z * Z)) :=
  header ← page_header page;
  if key_count header <=? index then Ret None else
  let value_size := entry_value_size (page_type header) in
  let start := data_start (key_count header) in
  rel ← read_u16 page (HEADER_SIZE + index * OFFSET_ENTRY_SIZE);
  let entry_offset := start + rel in
  let key_end := entry_offset + KEY_SIZE in
  let value_end := key_end + value_size in
  if PAGE_SIZE <? value_end then Ret None else
  Ret (Some (key_end, value_end)).

Definition entry_value_at (page : bytes) (index : Z) : M (option bytes) :=
  b ← entry_value_bounds page index;
  match b with
  | None => Ret None
  | Some (key_end, value_end) => v ← get_range page key_end value_end; Ret (Some v)
  end.

(** The loop of [collect_entries] over the remaining indices; a missing key or value
    ends it. *)
Fixpoint collect_from (page : bytes) (indices : list Z) : M (list entry) :=
  match indices with
  | [] => Ret []
  | index :: indices =>
      ok ← entry_key_at page index;
      match ok with
      | None => Ret []
      | Some key =>
          ov ← entry_value_at page index;
          match ov with
          | None => Ret []
          | Some value => es ← collect_from page indices; Ret ((key, value) :: es)
          end
      end
  end.

Definition collect_entries (page : bytes) : M (list entry) :=
  header ← page_header page;
  collect_from page (seqZ 0 (key_count header)).

Definition entry_offset_at (page : bytes) (index : Z) : M (option Z) :=
  header ← page_header page;
  if key_count header <=? index then Ret None else
  let start := data_start (key_count header) in
  rel ← read_u16 page (HEADER_SIZE + index * OFFSET_ENTRY_SIZE);
  let entry_offset := start + rel in
  if PAGE_SIZE <? entry_offset + KEY_SIZE then Ret None else
  Ret (Some entry_offset).

(** The [while lo < hi] of [find_key_pos]; [hi - lo] shrinks each time round. *)
Fixpoint find_key_loop (fuel : nat) (page key : bytes) (lo hi : Z) : M (option (bool * Z)) :=
  if negb (lo <? hi) then Ret (Some (false, lo)) else
  match fuel with
  | O => Spin
  | S fuel =>
      let mid := (lo + hi) / 2 in
      mk ← entry_key_at page mid;
      match mk with
      | None => Ret None
      | Some mid_key =>
          match bytes_cmp mid_key key with
          | Eq => Ret (Some (true, mid))
          | Lt => find_key_loop fuel page key (mid + 1) hi
          | Gt => find_key_loop fuel page key lo mid
          end
      end
  end.

Definition find_key_pos (page key : bytes) : M (option (bool * Z)) :=
  header ← page_header page;
  find_key_loop (Z.to_nat (key_count header)) page key 0 (key_count header).

Definition page_has_room_for_one_more (header : PageHeader) : bool :=
  let total := key_count header + 1 in
  HEADER_SIZE + total * OFFSET_ENTRY_SIZE + total * entry_size (page_type header) <=? PAGE_SIZE.

Definition page_is_full_for_insert (header : PageHeader) : bool :=
  negb (page_has_room_for_one_more header).

Definition max_keys_for_page_type (page_type : Z) : Z :=
  let unit := OFFSET_ENTRY_SIZE + entry_size page_type in
  if (unit =? 0) || (PAGE_SIZE <=? HEADER_SIZE) then 0 else (PAGE_SIZE - HEADER_SIZE) / unit.

Definition min_keys_non_root (page_type : Z) : Z := max_keys_for_page_type page_type / 2.

Definition key_to_high_key (key : bytes) : option bytes :=
  if negb (zlen key =? HIGH_KEY_SIZE) then None else Some key.

Fixpoint child_pos_loop (fuel : nat) (page key : bytes) (lo hi : Z) : M Z :=
  if negb (lo <? hi) then Ret lo else
  match fuel with
  | O => Spin
  | S fuel =>
      let mid := (lo + hi) / 2 in
      mk ← entry_key_at page mid;
      match mk with
      | None => Ret lo
      | Some mid_key =>
          if bytes_ltb key mid_key then child_pos_loop fuel page key lo mid
          else child_pos_loop fuel page key (mid + 1) hi
      end
  end.

Definition child_insert_pos_for_key (page : bytes) (header : PageHeader) (key : bytes) : M Z :=
  child_pos_loop (Z.to_nat (key_count header)) page key 0 (key_count header).

Definition decode_child_id (buf : bytes) : M PageId :=
  b ← get_range buf 0 8; Ret (le_val b).

Definition encode_child_id (child : PageId) : bytes := le_bytes 8 child.

Definition child_id_at_pos (page : bytes) (header : PageHeader) (pos : Z) : M PageId :=
  if pos =? 0 then Ret (left_child header) else
  ov ← entry_value_at page (sat_sub pos 1);
  match ov with
  | Some v => decode_child_id v
  | None => Ret (left_child header)
  end.

(** The stores of one entry, shared by the loops that rebuild a page: its offset-table
    slot, its key and its value; the new cursor is returned. *)
Definition put_entry (out : bytes) (pos start cursor value_size : Z) (k v : bytes) : M (bytes * Z) :=
  let offset_pos := HEADER_SIZE + pos * OFFSET_ENTRY_SIZE in
  let rel := wrap16 (cursor - start) in
  out ← write_u16 out offset_pos rel;
  out ← put_range out cursor (cursor + KEY_SIZE) k;
  let cursor := cursor + KEY_SIZE in
  out ← put_range out cursor (cursor + value_size) v;
  Ret (out, cursor + value_size).

(** [entry_key_at(page, idx).ok_or(..)?] and the value after it. *)
Definition entry_at_or (page : bytes) (idx pos : Z) : M entry :=
  ok ← entry_key_at page idx;
  k ← ok_or ok (InvalidPageSize pos PAGE_SIZE);
  ov ← entry_value_at page idx;
  v ← ok_or ov (InvalidPageSize pos PAGE_SIZE);
  Ret (k, v).

Fixpoint rebuild_insert_loop (page out : bytes) (start value_size insert_pos : Z)
    (key value : bytes) (cursor : Z) (poss : list Z) : M bytes :=
  match poss with
  | [] => Ret out
  | pos :: poss =>
      '(k, v) ← (if pos =? insert_pos then Ret (key, value)
                 else entry_at_or page (if pos <? insert_pos then pos else pos - 1) pos);
      '(out, cursor) ← put_entry out pos start cursor value_size k v;
      rebuild_insert_loop page out start value_size insert_pos key value cursor poss
  end.

Definition rebuild_page_with_insert (page : bytes) (header : PageHeader) (insert_pos : Z)
    (key value : bytes) : M Page :=
  let value_size := entry_value_size (page_type header) in
  let total := key_count header + 1 in
  out ← new_page (page_type header) (level header);
  let new_header := with_key_count header (wrap16 total) in
  out ← write_header out new_header;
  let start := data_start (key_count new_header) in
  rebuild_insert_loop page out start value_size insert_pos key value start (seqZ 0 total).

Fixpoint rebuild_remove_loop (page out : bytes) (start value_size remove_pos : Z)
    (cursor out_pos : Z) (idxs : list Z) : M bytes :=
  match idxs with
  | [] => Ret out
  | idx :: idxs =>
      if idx =? remove_pos
      then rebuild_remove_loop page out start value_size remove_pos cursor out_pos idxs
      else
        '(k, v) ← entry_at_or page idx idx;
        '(out, cursor) ← put_entry out out_pos start cursor value_size k v;
        rebuild_remove_loop page out start value_size remove_pos cursor (out_pos + 1) idxs
  end.

Definition rebuild_page_with_remove (page : bytes) (header : PageHeader) (remove_pos : Z) : M Page :=
  let value_size := entry_value_size (page_type header) in
  let total := key_count header in
  if total <=? remove_pos then Ret page else
  let new_total := sat_sub total 1 in
  out ← new_page (page_type header) (level header);
  let new_header := with_key_count header (wrap16 new_total) in
  out ← write_header out new_header;
  let start := data_start (key_count new_header) in
  rebuild_remove_loop page out start value_size remove_pos start 0 (seqZ 0 total).

Fixpoint encode_entries_loop (page : bytes) (start value_size cursor index : Z)
    (entries : list entry) : M bytes :=
  match entries with
  | [] => Ret page
  | (k, v) :: entries =>
      if negb (zlen k =? KEY_SIZE) then Fail (InvalidKeySize (zlen k) KEY_SIZE) else
      if negb (zlen v =? value_size) then Fail (InvalidValueSize (zlen v) value_size) else
      if PAGE_SIZE <? cursor + KEY_SIZE + value_size then Fail (InvalidPageSize cursor PAGE_SIZE) else
      '(page, cursor) ← put_entry page index start cursor value_size k v;
      encode_entries_loop page start value_size cursor (index + 1) entries
  end.

Definition encode_entries (page : bytes) (entries : list entry) (header : PageHeader) : M bytes :=
  let value_size := entry_value_size (page_type header) in
  let start := data_start (wrap16 (zlen entries)) in
  page ← encode_entries_loop page start value_size start 0 entries;
  write_header page (with_key_count header (wrap16 (zlen entries))).

(** [hk.copy_from_slice(&sep)] into a fresh [[u8; HIGH_KEY_SIZE]]. *)
Definition copy_high_key (sep : bytes) : M bytes :=
  put_range (zrepeat 0 HIGH_KEY_SIZE) 0 HIGH_KEY_SIZE sep.

Definition split_leaf (page : bytes) (entries : list entry) : M (bytes * (Page * Page)) :=
  let mid := zlen entries / 2 in
  let left_entries := sub 0 mid entries in
  let right_entries := sub mid (zlen entries - mid) entries in
  left ← new_page PAGE_TYPE_LEAF 0;
  right ← new_page PAGE_TYPE_LEAF 0;
  left_header ← leaf_page_header page;
  right_header ← leaf_page_header page;
  '(sep, _) ← get_at right_entries 0;
  let right_header := with_high right_header (high_key left_header) in
  hk ← copy_high_key sep;
  let left_header := with_high left_header (Some hk) in
  left ← encode_entries left left_entries left_header;
  right ← encode_entries right right_entries right_header;
  Ret (sep, (left, right)).

Definition split_internal (page : bytes) (entries : list entry) : M (bytes * (Page * Page)) :=
  let mid := zlen entries / 2 in
  '(separator, mid_child) ← get_at entries mid;
  let left_entries := sub 0 mid entries in
  let right_entries := sub (mid + 1) (zlen entries - (mid + 1)) entries in
  h ← page_header page;
  left ← new_page PAGE_TYPE_INTERNAL (level h);
  right ← new_page PAGE_TYPE_INTERNAL (level h);
  hk ← copy_high_key separator;
  let left_header := with_high h (Some hk) in
  left_of_right ← decode_child_id mid_child;
  let right_header := with_left (with_high h (high_key h)) left_of_right in
  left ← encode_entries left left_entries left_header;
  right ← encode_entries right right_entries right_header;
  Ret (separator, (left, right)).

(** ** Leaf values *)

Definition encode_leaf_value (lv : LeafValue) : bytes :=
  let m := lv_meta lv in
  let '(undo_pid, undo_sid) :=
    match undo_ptr m with Some u => (up_page_id u, up_slot_id u) | None => (0, 0) end in
  lv_value lv ++ le_bytes 8 (commit_lsn m) ++ le_bytes 8 undo_pid ++ le_bytes 2 undo_sid ++
  le_bytes 2 (flags m) ++ le_bytes 8 (intent_txn_id m) ++ le_bytes 8 (intent_lsn m).

Definition decode_leaf_value_meta (buf : bytes) : M LeafValueMeta :=
  lsn ← read_le 8 buf VALUE_SIZE;
  pid ← read_le 8 buf (VALUE_SIZE + 8);
  sid ← read_le 2 buf (VALUE_SIZE + 16);
  fl ← read_le 2 buf (VALUE_SIZE + 18);
  itxn ← read_le 8 buf (VALUE_SIZE + 20);
  ilsn ← read_le 8 buf (VALUE_SIZE + 28);
  Ret {| commit_lsn := lsn;
         undo_ptr := if pid =? 0 then None else Some {| up_page_id := pid; up_slot_id := sid |};
         flags := fl; intent_txn_id := itxn; intent_lsn := ilsn |}.

Definition decode_leaf_value_ref (page : bytes) (value_offset : Z) : M (option LeafValue) :=
  let value_end := value_offset + VALUE_SIZE in
  let meta_end := value_offset + LEAF_VALUE_SIZE in
  if (zlen page <? meta_end) || (zlen page <? value_end) then Ret None else
  raw ← get_range page value_offset meta_end;
  meta ← decode_leaf_value_meta raw;
  v ← get_range page value_offset value_end;
  Ret (Some {| lv_value := v; lv_meta := meta |}).

(** The [while lo < hi] of [find_in_leaf]. *)
Fixpoint find_in_leaf_loop (fuel : nat) (page key : bytes) (lo hi : Z) : M (option LeafValue) :=
  if negb (lo <? hi) then Ret None else
  match fuel with
  | O => Spin
  | S fuel =>
      let mid := (lo + hi) / 2 in
      mk ← entry_key_at page mid;
      match mk with
      | None => Ret None
      | Some mid_key =>
          match bytes_cmp mid_key key with
          | Eq =>
              vb ← entry_value_bounds page mid;
              match vb with
              | None => Ret None
              | Some (value_offset, _) => decode_leaf_value_ref page value_offset
              end
          | Lt => find_in_leaf_loop fuel page key (mid + 1) hi
          | Gt => find_in_leaf_loop fuel page key lo mid
          end
      end
  end.

Definition find_in_leaf (page key : bytes) : M (option LeafValue) :=
  header ← page_header page;
  find_in_leaf_loop (Z.to_nat (key_count header)) page key 0 (key_count header).

Fixpoint lower_bound_loop (fuel : nat) (page key : bytes) (lo hi : Z) : M Z :=
  if negb (lo <? hi) then Ret lo else
  match fuel with
  | O => Spin
  | S fuel =>
      let mid := (lo + hi) / 2 in
      mk ← entry_key_at page mid;
      match mk with
      | None => Ret lo
      | Some mid_key =>
          if bytes_ltb mid_key key then lower_bound_loop fuel page key (mid + 1) hi
          else lower_bound_loop fuel page key lo mid
      end
  end.

Definition lower_bound_in_leaf (page key : bytes) : M Z :=
  header ← page_header page;
  lower_bound_loop (Z.to_nat (key_count header)) page key 0 (key_count header).

End Bp.

(** ** The abstract view of a page: a header and a list of entries *)

Module BpSpec.
Import Bp.

Ltac consts :=
  unfold data_start, entry_size, HIGH_KEY_SIZE, HEADER_SIZE, OFFSET_ENTRY_SIZE, LEAF_VALUE_SIZE,
    CHILD_ID_SIZE, PAGE_SIZE, KEY_SIZE, VALUE_SIZE in *.
Ltac clia := consts; zlens; lia.

Definition hdr_of (p : bytes) : PageHeader := {|
  page_type := at0 0 p; level := at0 1 p; key_count := fld 2 2 p;
  prev_leaf := nonzero (fld 8 4 p); next_leaf := nonzero (fld 8 12 p);
  left_child := fld 8 20 p;
  high_key := if at0 28 p =? 0 then None else Some (sub 29 16 p) |}.

Lemma sub_two (p : bytes) a : 0 <= a -> a + 2 <= zlen p -> sub a 2 p = [at0 a p; at0 (a + 1) p].
Proof.
  intros. apply list_eq_lookup_Z; [zlens; lia|]. intros i Hi. rewrite zlen_sub in Hi by lia.
  rewrite lookup_sub by lia. unfold at0.
  destruct (lookup_lt_is_Some_2 p (Z.to_nat (a + i))) as [x Hx]; [unfold zlen in *; lia|].
  assert (i = 0 \/ i = 1) as [->| ->] by lia; rewrite ?Z.add_0_r in *; rewrite Hx; reflexivity.
Qed.

Lemma page_header_ok p : 48 <= zlen p -> page_header p = Ret (hdr_of p).
Proof.
  intros Hl. unfold page_header. rewrite !get_at_ok by lia. cbn [mbind outcome_bind].
  rewrite !read_le_ok by clia. cbn [mbind outcome_bind].
  unfold hdr_of. destruct (at0 28 p =? 0); cbn [negb mbind outcome_bind].
  - do 2 f_equal. unfold fld. change (Z.of_nat 2) with 2. rewrite sub_two by lia. done.
  - rewrite get_range_ok by clia. cbn [mbind outcome_bind]. do 2 f_equal.
    unfold fld. change (Z.of_nat 2) with 2. rewrite sub_two by lia. done.
Qed.

(** The header as bytes. *)
Definition hdr_bytes (h : PageHeader) : bytes :=
  [page_type h] ++ [level h] ++ le_bytes 2 (key_count h) ++
  le_bytes 8 (default 0 (prev_leaf h)) ++ le_bytes 8 (default 0 (next_leaf h)) ++
  le_bytes 8 (left_child h) ++
  match high_key h with Some hk => [1] ++ hk | None => [0] ++ zrepeat 0 16 end ++ zrepeat 0 3.

Definition id_ok (x : option PageId) : Prop := forall i, x = Some i -> 0 < i < U64.

Record hdr_ok (h : PageHeader) : Prop := {
  hk_type : is_byte (page_type h);
  hk_level : is_byte (level h);
  hk_count : 0 <= key_count h < U16;
  hk_prev : id_ok (prev_leaf h);
  hk_next : id_ok (next_leaf h);
  hk_left : 0 <= left_child h < U64;
  hk_high : forall k, high_key h = Some k -> zlen k = 16
}.

Lemma hdr_bytes_len h : (forall k, high_key h = Some k -> zlen k = 16) -> zlen (hdr_bytes h) = 48.
Proof.
  intros Hk. unfold hdr_bytes. destruct (high_key h) as [k|]; zlens; [rewrite (Hk k) by done|]; lia.
Qed.

Lemma btree_write_header_ok p h :
  48 <= zlen p -> (forall k, high_key h = Some k -> zlen k = 16) ->
  write_header p h = Ret (upd 0 (hdr_bytes h) p).
Proof.
  intros Hl Hk. unfold write_header, hdr_bytes.
  rewrite !put_at_ok by (zlens; lia). cbn [mbind outcome_bind].
  rewrite put_at_ok by (zlens; lia). cbn [mbind outcome_bind]. rewrite upd_adjacent by (zlens; lia).
  do 4 (rewrite put_range_ok by clia; cbn [mbind outcome_bind]; rewrite upd_adjacent by clia).
  destruct (high_key h) as [hk|].
  - specialize (Hk hk eq_refl). rewrite put_at_ok by (zlens; lia). cbn [mbind outcome_bind].
    rewrite upd_adjacent by clia. rewrite put_range_ok by clia. cbn [mbind outcome_bind].
    rewrite upd_adjacent by clia. change (29 + HIGH_KEY_SIZE <? HEADER_SIZE) with true. cbv iota.
    rewrite put_range_ok by clia. rewrite upd_adjacent by clia. by rewrite <-!app_assoc.
  - rewrite put_at_ok by (zlens; lia). cbn [mbind outcome_bind].
    rewrite upd_adjacent by clia. rewrite put_range_ok by clia. cbn [mbind outcome_bind].
    rewrite upd_adjacent by clia. change (29 + HIGH_KEY_SIZE <? HEADER_SIZE) with true. cbv iota.
    rewrite put_range_ok by clia. rewrite upd_adjacent by clia. by rewrite <-!app_assoc.
Qed.

Lemma nonzero_default x : id_ok x -> nonzero (default 0 x) = x.
Proof.
  intros Hx. destruct x as [i|]; [|done]. specialize (Hx i eq_refl). cbn. unfold nonzero.
  by destruct (Z.eqb_spec i 0); [lia|].
Qed.

Lemma default_bound x : id_ok x -> 0 <= default 0 x < 256 ^ 8.
Proof. intros Hx. destruct x as [i|]; [specialize (Hx i eq_refl)|]; cbn in *; unfold U64 in *; lia. Qed.

Lemma at0_upd_inside i b (bs l : bytes) :
  0 <= b <= i -> i < b + zlen bs -> b + zlen bs <= zlen l -> at0 i (upd b bs l) = at0 (i - b) bs.
Proof. intros. unfold at0. by rewrite lookup_upd_in by lia. Qed.

Lemma at0_app_r i (l k : bytes) : zlen l <= i -> at0 i (l ++ k) = at0 (i - zlen l) k.
Proof. intros. unfold at0. rewrite lookup_app_r by (unfold zlen in *; lia). do 2 f_equal. unfold zlen in *. lia. Qed.

Ltac at0_skip :=
  repeat (rewrite at0_app_r by (zlens; lia); zlens);
  match goal with |- context [at0 ?i _] => let i' := eval vm_compute in i in change i with i' end.

Lemma hdr_bytes_fields h rest :
  hdr_ok h -> hdr_of (hdr_bytes h ++ rest) = h.
Proof.
  intros []. pose proof (default_bound _ hk_prev0) as Hp. pose proof (default_bound _ hk_next0) as Hn.
  pose proof (nonzero_default _ hk_prev0) as Ep. pose proof (nonzero_default _ hk_next0) as En.
  unfold hdr_of, hdr_bytes. destruct h as [ty lv kc pv nx lf hi];
    cbn [page_type level key_count prev_leaf next_leaf left_child high_key] in *.
  unfold U16, U64 in *. f_equal.
  - rewrite <-!app_assoc. fld_skip. rewrite fld_le_bytes_app; [done|lia].
  - rewrite <-!app_assoc. fld_skip. rewrite fld_le_bytes_app; [done|lia].
  - rewrite <-!app_assoc. fld_skip. rewrite fld_le_bytes_app; [done|lia].
  - rewrite <-!app_assoc. fld_skip. rewrite fld_le_bytes_app; [done|lia].
  - destruct hi as [k|].
    + pose proof (hk_high0 k eq_refl) as Hl.
      replace (at0 28 _) with 1 by (rewrite <-!app_assoc; do 6 (rewrite at0_app_r by (zlens; lia); zlens); done).
      cbn [Z.eqb]. f_equal. rewrite <-!app_assoc.
      do 7 (rewrite sub_app_r by (zlens; lia); zlens).
      rewrite sub_app_l by lia. by apply sub_all.
    + replace (at0 28 _) with 0; [done|].
      rewrite <-!app_assoc. do 6 (rewrite at0_app_r by (zlens; lia); zlens). done.
Qed.

Lemma hdr_of_upd p h : hdr_ok h -> hdr_of (upd 0 (hdr_bytes h) p) = h.
Proof. intros. unfold upd. apply hdr_bytes_fields. done. Qed.

(** The header only depends on the first 48 bytes. *)
Lemma hdr_of_ext p q : 48 <= zlen p -> 48 <= zlen q -> sub 0 48 p = sub 0 48 q -> hdr_of p = hdr_of q.
Proof.
  intros Hp Hq E.
  assert (Hs : forall a n, 0 <= a -> 0 <= n -> a + n <= 48 -> sub a n p = sub a n q).
  { intros a n ? ? ?. rewrite <-(Z.add_0_l a), <-!(sub_sub 0 48) by lia. by rewrite E. }
  assert (Ha : forall i, 0 <= i < 48 -> at0 i p = at0 i q).
  { intros i Hi. unfold at0. specialize (Hs i 1 ltac:(lia) ltac:(lia) ltac:(lia)).
    apply (f_equal (fun l => l !! Z.to_nat 0)) in Hs. rewrite !lookup_sub, Z.add_0_r in Hs by lia.
    by rewrite Hs. }
  unfold hdr_of. rewrite !Ha by lia. unfold fld. rewrite !Hs by lia. done.
Qed.

(** Page [p] represents the header [h] and the entries [es]: entry [i] is at relative
    offset [i * entry_size], and its offset-table slot says so. *)
Definition esz (h : PageHeader) : Z := entry_size (page_type h).
Definition vsz (h : PageHeader) : Z := entry_value_size (page_type h).

Definition entry_stored (p : bytes) (start es_size vs : Z) (i : Z) (e : entry) : Prop :=
  fld 2 (48 + i * 2) p = i * es_size /\
  sub (start + i * es_size) 16 p = e.1 /\ sub (start + i * es_size + 16) vs p = e.2.

Record rep (p : bytes) (h : PageHeader) (es : list entry) : Prop := {
  rp_len : zlen p = PAGE_SIZE;
  rp_hdr : hdr_of p = h;
  rp_ok : hdr_ok h;
  rp_count : key_count h = zlen es;
  rp_fit : data_start (zlen es) + zlen es * esz h <= PAGE_SIZE;
  rp_ent : forall i e, es !! i = Some e ->
    entry_stored p (data_start (zlen es)) (esz h) (vsz h) (Z.of_nat i) e
}.

Lemma vsz_bound h : 0 <= vsz h <= 1060 /\ esz h = 16 + vsz h.
Proof. unfold vsz, esz, entry_size, entry_value_size. repeat case_match; clia. Qed.

(** Writing a list of entries from position [i] on, as the three rebuild loops do. *)
Fixpoint put_entries (out : bytes) (i start cursor vs : Z) (es : list entry) : outcome Error bytes :=
  match es with
  | [] => Ret out
  | (k, v) :: es =>
      '(out, cursor) ← put_entry out i start cursor vs k v;
      put_entries out (i + 1) start cursor vs es
  end.

Definition entry_sized (vs : Z) (e : entry) : Prop := zlen e.1 = 16 /\ zlen e.2 = vs.

Lemma put_entry_ok out i start vs k v :
  0 <= i -> 0 <= vs -> entry_sized vs (k, v) -> 48 + i * 2 + 2 <= start ->
  start + (i + 1) * (16 + vs) <= zlen out -> zlen out <= PAGE_SIZE ->
  put_entry out i start (start + i * (16 + vs)) vs k v =
    Ret (upd (start + i * (16 + vs)) (k ++ v) (upd (48 + i * 2) (le_bytes 2 (i * (16 + vs))) out),
         start + (i + 1) * (16 + vs)).
Proof.
  intros Hi Hvs [Hk Hv] Hst Hle Hps. cbn [fst snd] in *. unfold put_entry, write_u16.
  assert (0 <= i * (16 + vs)) by nia.
  replace (wrap16 _) with (i * (16 + vs)) by (unfold wrap16; rewrite Z.add_simpl_l, Z.mod_small; unfold U16; clia).
  rewrite write_le_ok by clia. cbn [mbind outcome_bind].
  rewrite put_range_ok by clia. cbn [mbind outcome_bind].
  rewrite put_range_ok by clia. cbn [mbind outcome_bind]. rewrite upd_adjacent by clia.
  f_equal. f_equal. clia.
Qed.

Record stored (p p' : bytes) (i start vs : Z) (es : list entry) : Prop := {
  sd_len : zlen p' = zlen p;
  sd_ent : forall j e, es !! j = Some e -> entry_stored p' start (16 + vs) vs (i + Z.of_nat j) e;
  sd_other : forall a n, 0 <= a -> 0 <= n -> a + n <= zlen p ->
    a + n <= 48 + i * 2 \/
    (48 + (i + zlen es) * 2 <= a /\ a + n <= start + i * (16 + vs)) \/
    start + (i + zlen es) * (16 + vs) <= a -> sub a n p' = sub a n p
}.

Lemma put_entries_ok es : forall p i start vs,
  0 <= i -> 0 <= vs -> Forall (entry_sized vs) es -> 48 + (i + zlen es) * 2 <= start ->
  start + (i + zlen es) * (16 + vs) <= zlen p -> zlen p <= PAGE_SIZE ->
  exists p', put_entries p i start (start + i * (16 + vs)) vs es = Ret p' /\ stored p p' i start vs es.
Proof.
  induction es as [|[k v] es IH]; intros p i start vs Hi Hvs Hsz Hst Hle Hps.
  - exists p. split; [done|]. split; done.
  - apply Forall_cons in Hsz as [[Hk Hv] Hsz]. cbn [fst snd] in *. rewrite zlen_cons in *.
    pose proof (zlen_nonneg es). cbn [put_entries]. rewrite put_entry_ok by (done || nia).
    cbn [mbind outcome_bind]. set (q := upd _ _ _).
    assert (0 <= i * (16 + vs)) by nia.
    assert (Hq : zlen q = zlen p) by (unfold q; zlens; [done|nia..]).
    destruct (IH q (i + 1) start vs) as (p' & Hp' & Hsd); [lia|lia|done|lia|rewrite Hq; nia|lia|].
    exists p'. split; [done|]. destruct Hsd as [Hl He Ho]. rewrite Hq in *.
    assert (Hqo : forall a n, 0 <= a -> 0 <= n -> a + n <= zlen p ->
      a + n <= 48 + i * 2 \/ (48 + i * 2 + 2 <= a /\ a + n <= start + i * (16 + vs)) \/
      start + (i + 1) * (16 + vs) <= a -> sub a n q = sub a n p).
    { intros a n ? ? ? ?. unfold q. rewrite !sub_upd_disjoint; [done|zlens; nia..]. }
    split; [done| |intros a n ? ? ? Hd; rewrite zlen_cons in Hd; rewrite Ho, Hqo by nia; done].
    intros [|j] e Hj; cbn in Hj.
    + injection Hj as <-. rewrite Z.add_0_r. split_and!; cbn [fst snd].
      * unfold fld. rewrite Ho by nia. unfold q. rewrite sub_upd_disjoint by (zlens; nia).
           rewrite sub_upd_same by (zlens; nia). apply le_val_bytes_small. consts. nia.
      * rewrite Ho by nia. unfold q. rewrite sub_upd_inside by (zlens; nia).
           rewrite Z.sub_diag, sub_app_l by lia. apply sub_all. lia.
      * rewrite Ho by nia. unfold q. rewrite sub_upd_inside by (zlens; nia).
           rewrite sub_app_r by lia. rewrite Hk. replace (start + i * (16 + vs) + 16 - (start + i * (16 + vs)) - 16) with 0 by lia.
           apply sub_all. lia.
    + apply He in Hj. replace (i + Z.of_nat (S j)) with (i + 1 + Z.of_nat j) by lia. done.
Qed.

(** ** Reading a represented page *)

Section Rep.
Context (p : bytes) (h : PageHeader) (es : list entry).
Hypothesis Hrep : rep p h es.

Let start := data_start (zlen es).

Lemma rep_header : page_header p = Ret h.
Proof using Hrep.
  destruct Hrep. rewrite page_header_ok by (rewrite rp_len0; clia). by rewrite rp_hdr0.
Qed.

Lemma rep_bounds i e :
  es !! i = Some e ->
  0 <= Z.of_nat i < zlen es /\ 48 + Z.of_nat i * 2 + 2 <= start /\ 48 <= start /\
  0 <= Z.of_nat i * esz h /\ start + Z.of_nat i * esz h + esz h <= PAGE_SIZE /\ esz h = 16 + vsz h /\ 0 <= vsz h.
Proof using Hrep.
  intros Hi. apply lookup_lt_Some in Hi. pose proof (rp_fit _ _ _ Hrep). pose proof (vsz_bound h).
  unfold start, zlen in *. consts. nia.
Qed.

Lemma rep_sized : Forall (entry_sized (vsz h)) es.
Proof using Hrep.
  apply Forall_lookup. intros i e Hi. pose proof (rep_bounds i e Hi) as Hb. unfold start in Hb.
  destruct (rp_ent _ _ _ Hrep i e Hi) as (_ & Hk & Hv). pose proof (rp_len _ _ _ Hrep).
  unfold entry_sized. rewrite <-Hk, <-Hv. split; rewrite zlen_sub; clia.
Qed.

Lemma lookup_Z_cases i :
  0 <= i -> (zlen es <= i /\ es !! Z.to_nat i = None) \/
            (i < zlen es /\ exists e, es !! Z.to_nat i = Some e).
Proof.
  intros Hi. destruct (Z_lt_le_dec i (zlen es)).
  - right. split; [done|]. apply lookup_lt_is_Some_2. unfold zlen in *. lia.
  - left. split; [done|]. apply lookup_ge_None_2. unfold zlen in *. lia.
Qed.

(** The reads shared by the accessors: the slot of the offset table. *)
Lemma rep_rel i e :
  es !! Z.to_nat i = Some e -> 0 <= i ->
  read_u16 p (HEADER_SIZE + i * OFFSET_ENTRY_SIZE) = Ret (i * esz h).
Proof using Hrep.
  intros He Hi. pose proof (rep_bounds _ e He) as Hb. destruct (rp_ent _ _ _ Hrep _ e He) as (Hf & _).
  rewrite Z2Nat.id in * by lia. pose proof (rp_len _ _ _ Hrep). unfold read_u16, start in *.
  rewrite read_le_ok by clia. consts. by rewrite Hf.
Qed.

Lemma entry_key_at_ok i : 0 <= i -> entry_key_at p i = Ret (fst <$> es !! Z.to_nat i).
Proof using Hrep.
  intros Hi. unfold entry_key_at. rewrite rep_header. cbn [mbind outcome_bind].
  rewrite (rp_count _ _ _ Hrep).
  destruct (lookup_Z_cases i Hi) as [[Hge ->]|(Hlt & e & He)].
  - destruct (Z.leb_spec (zlen es) i); [done|lia].
  - destruct (Z.leb_spec (zlen es) i); [lia|]. rewrite (rep_rel i e) by done. cbn [mbind outcome_bind].
    pose proof (rep_bounds _ e He) as Hb. destruct (rp_ent _ _ _ Hrep _ e He) as (_ & Hk & _).
    rewrite Z2Nat.id in * by lia. pose proof (rp_len _ _ _ Hrep) as Hl. unfold start in *.
    destruct (Z.ltb_spec PAGE_SIZE (data_start (zlen es) + i * esz h + KEY_SIZE)); [clia|].
    rewrite get_range_ok by clia. cbn [mbind outcome_bind]. rewrite Z.add_simpl_l.
    rewrite He. cbn. do 2 f_equal. rewrite <-Hk. done.
Qed.

Lemma entry_value_bounds_ok i e :
  es !! Z.to_nat i = Some e -> 0 <= i ->
  entry_value_bounds p i = Ret (Some (start + i * esz h + 16, start + i * esz h + 16 + vsz h)) /\
  sub (start + i * esz h + 16) (vsz h) p = e.2.
Proof using Hrep.
  intros He Hi. pose proof (rep_bounds _ e He) as Hb.
  destruct (rp_ent _ _ _ Hrep _ e He) as (_ & _ & Hv). rewrite Z2Nat.id in * by lia. split; [|exact Hv].
  unfold entry_value_bounds. rewrite rep_header. cbn [mbind outcome_bind]. rewrite (rp_count _ _ _ Hrep).
  destruct (Z.leb_spec (zlen es) i); [lia|]. rewrite (rep_rel i e) by done. cbn [mbind outcome_bind].
  fold start. fold (vsz h). case_match; [clia|]. done.
Qed.

Lemma entry_value_at_ok i : 0 <= i -> entry_value_at p i = Ret (snd <$> es !! Z.to_nat i).
Proof using Hrep.
  intros Hi. unfold entry_value_at. destruct (lookup_Z_cases i Hi) as [[Hge ->]|(Hlt & e & He)].
  - unfold entry_value_bounds. rewrite rep_header. cbn [mbind outcome_bind].
    rewrite (rp_count _ _ _ Hrep). destruct (Z.leb_spec (zlen es) i); [done|lia].
  - destruct (entry_value_bounds_ok i e He Hi) as [-> Hv]. cbn [mbind outcome_bind].
    pose proof (rep_bounds _ e He) as Hb. rewrite Z2Nat.id in * by lia.
    pose proof (rp_len _ _ _ Hrep). rewrite get_range_ok by clia. cbn [mbind outcome_bind].
    rewrite Z.add_simpl_l, Hv, He. done.
Qed.

Lemma entry_offset_at_ok i e :
  es !! Z.to_nat i = Some e -> 0 <= i -> entry_offset_at p i = Ret (Some (start + i * esz h)).
Proof using Hrep.
  intros He Hi. pose proof (rep_bounds _ e He) as Hb. rewrite Z2Nat.id in * by lia.
  unfold entry_offset_at. rewrite rep_header. cbn [mbind outcome_bind]. rewrite (rp_count _ _ _ Hrep).
  destruct (Z.leb_spec (zlen es) i); [lia|]. rewrite (rep_rel i e) by done. cbn [mbind outcome_bind].
  fold start. case_match; [clia|done].
Qed.

Lemma entry_at_or_ok i pos e :
  es !! Z.to_nat i = Some e -> 0 <= i -> entry_at_or p i pos = Ret e.
Proof using Hrep.
  intros He Hi. unfold entry_at_or. rewrite entry_key_at_ok, He by done. obind.
  rewrite entry_value_at_ok, He by done. obind. by destruct e.
Qed.

Lemma collect_from_ok n : forall i,
  0 <= i -> i + Z.of_nat n = zlen es -> collect_from p (seqZ i (Z.of_nat n)) = Ret (drop (Z.to_nat i) es).
Proof using Hrep.
  induction n as [|n IH]; intros i Hi Hn.
  - cbn. rewrite drop_ge; [done|]. unfold zlen in *. lia.
  - rewrite seqZ_cons by lia. cbn [collect_from].
    destruct (lookup_Z_cases i Hi) as [[? _]|(_ & e & He)]; [lia|].
    rewrite entry_key_at_ok, He by done. cbn [fmap option_fmap option_map mbind outcome_bind].
    rewrite entry_value_at_ok, He by done. cbn [fmap option_fmap option_map mbind outcome_bind].
    replace (Z.pred (Z.of_nat (S n))) with (Z.of_nat n) by lia. rewrite IH by lia.
    cbn [mbind outcome_bind]. rewrite (drop_S es e (Z.to_nat i)) by done. destruct e. cbn.
    do 2 f_equal. f_equal. lia.
Qed.

Lemma collect_entries_ok : collect_entries p = Ret es.
Proof using Hrep.
  unfold collect_entries. rewrite rep_header. cbn [mbind outcome_bind]. rewrite (rp_count _ _ _ Hrep).
  unfold zlen. rewrite collect_from_ok; [done|lia|unfold zlen; lia].
Qed.
End Rep.

(** A page represents one header and one list of entries. *)
Lemma rep_fun p h es h' es' : rep p h es -> rep p h' es' -> h = h' /\ es = es'.
Proof.
  intros H1 H2. pose proof (rep_header p h es H1) as E1. rewrite (rep_header p h' es' H2) in E1.
  pose proof (collect_entries_ok p h es H1) as E2. rewrite (collect_entries_ok p h' es' H2) in E2.
  injection E1 as ->. injection E2 as ->. done.
Qed.

(** ** Building pages *)

Lemma esz_vsz h : esz h = 16 + vsz h.
Proof. apply vsz_bound. Qed.

Lemma rep_build p h es :
  zlen p = PAGE_SIZE -> hdr_ok h -> hdr_of p = h -> key_count h = zlen es ->
  data_start (zlen es) + zlen es * esz h <= PAGE_SIZE ->
  (forall j e, es !! j = Some e ->
     entry_stored p (data_start (zlen es)) (16 + vsz h) (vsz h) (0 + Z.of_nat j) e) -> rep p h es.
Proof.
  intros Hl Hok Hh Hc Hfit Hent. split; done.
Qed.

Lemma encode_loop_put es : forall p i start vs,
  0 <= i -> 0 <= vs -> Forall (entry_sized vs) es -> 48 + (i + zlen es) * 2 <= start ->
  start + (i + zlen es) * (16 + vs) <= zlen p -> zlen p = PAGE_SIZE ->
  encode_entries_loop p start vs (start + i * (16 + vs)) i es =
  put_entries p i start (start + i * (16 + vs)) vs es.
Proof.
  induction es as [|[k v] es IH]; intros p i start vs Hi Hvs Hsz Hst Hle Hps; [done|].
  apply Forall_cons in Hsz as [[Hk Hv] Hsz]. cbn [fst snd] in *. rewrite zlen_cons in *.
  pose proof (zlen_nonneg es). cbn [encode_entries_loop put_entries]. rewrite Hk, Hv, !Z.eqb_refl.
  cbn [negb]. change (16 =? KEY_SIZE) with true. cbn [negb].
  destruct (Z.ltb_spec PAGE_SIZE (start + i * (16 + vs) + KEY_SIZE + vs)); [consts; nia|].
  rewrite put_entry_ok by (done || nia). obind. assert (0 <= i * (16 + vs)) by nia.
  apply IH; [lia|lia|done|lia|..]; rewrite !zlen_upd; first [done|zlens; nia].
Qed.

Lemma with_key_count_self h n : key_count h = n -> with_key_count h n = h.
Proof. intros <-. by destruct h. Qed.

Lemma hdr_ok_count h n : hdr_ok h -> 0 <= n < U16 -> hdr_ok (with_key_count h n).
Proof. intros [] ?. by split. Qed.

Lemma encode_entries_ok p es h :
  zlen p = PAGE_SIZE -> hdr_ok h -> Forall (entry_sized (vsz h)) es ->
  data_start (zlen es) + zlen es * esz h <= PAGE_SIZE ->
  exists p', encode_entries p es h = Ret p' /\ rep p' (with_key_count h (zlen es)) es.
Proof.
  intros Hl Hok Hsz Hfit. pose proof (vsz_bound h) as [Hv0 Hvs]. pose proof (zlen_nonneg es).
  assert (Hn : zlen es < U16) by (unfold U16; clia).
  assert (Hw : wrap16 (zlen es) = zlen es) by (apply Z.mod_small; lia).
  unfold encode_entries. rewrite Hw. fold (vsz h). rewrite Hvs in Hfit.
  destruct (put_entries_ok es p 0 (data_start (zlen es)) (vsz h)) as (q & Hq & Hsd);
    [lia|lia|done|clia|rewrite Hl; lia|lia|].
  pose proof (encode_loop_put es p 0 (data_start (zlen es)) (vsz h)) as Hloop.
  rewrite Z.mul_0_l, Z.add_0_r in *. rewrite Hloop, Hq; [obind|lia|lia|done|clia|lia|done].
  pose proof (hdr_ok_count h (zlen es) Hok ltac:(lia)) as Hok'.
  pose proof (sd_len _ _ _ _ _ _ Hsd) as Hql.
  rewrite btree_write_header_ok by (first [clia|apply Hok']).
  eexists. split; [done|]. pose proof (hdr_bytes_len _ (hk_high _ Hok')) as Hhb.
  apply rep_build; [zlens; clia|done|by apply hdr_of_upd|done|by rewrite esz_vsz|].
  intros j e Hj. pose proof (lookup_lt_Some _ _ _ Hj). apply (sd_ent _ _ _ _ _ _ Hsd) in Hj as (A & B & C).
  change (vsz (with_key_count h (zlen es))) with (vsz h) in *.
  assert (0 <= Z.of_nat j * (16 + vsz h)) by lia.
  assert ((Z.of_nat j + 1) * (16 + vsz h) <= zlen es * (16 + vsz h)) by (unfold zlen; nia).
  assert (zlen es = Z.of_nat (length es)) by done.
  split_and!; [rewrite fld_upd_disjoint by clia|rewrite sub_upd_disjoint by clia..]; done.
Qed.

Definition insert_at (pos : Z) (e : entry) (es : list entry) : list entry :=
  take (Z.to_nat pos) es ++ e :: drop (Z.to_nat pos) es.

Lemma zlen_insert_at pos e es : zlen (insert_at pos e es) = zlen es + 1.
Proof.
  unfold insert_at, zlen. rewrite length_app, length_take. cbn [length]. rewrite length_drop. lia.
Qed.

Lemma lookup_insert_at pos e es i :
  0 <= pos <= zlen es -> 0 <= i ->
  insert_at pos e es !! Z.to_nat i =
    if decide (i < pos) then es !! Z.to_nat i
    else if decide (i = pos) then Some e else es !! Z.to_nat (i - 1).
Proof.
  intros Hp Hi. unfold insert_at, zlen in *. repeat case_decide.
  - rewrite lookup_app_l by (rewrite length_take; lia). by rewrite lookup_take_lt by lia.
  - subst i. rewrite lookup_app_r by (rewrite length_take; lia). rewrite length_take.
    by replace (Z.to_nat pos - _)%nat with O by lia.
  - rewrite lookup_app_r by (rewrite length_take; lia). rewrite length_take.
    replace (Z.to_nat i - _)%nat with (S (Z.to_nat i - Z.to_nat pos - 1)) by lia.
    rewrite lookup_cons, lookup_drop. f_equal. lia.
Qed.

Lemma rebuild_insert_loop_put p h es pos k v start vs n : forall out cursor i,
  rep p h es -> 0 <= pos <= zlen es -> 0 <= i -> i + Z.of_nat n = zlen es + 1 ->
  rebuild_insert_loop p out start vs pos k v cursor (seqZ i (Z.of_nat n)) =
  put_entries out i start cursor vs (drop (Z.to_nat i) (insert_at pos (k, v) es)).
Proof.
  induction n as [|n IH]; intros out cursor i Hrep Hp Hi Hn.
  - rewrite drop_ge; [done|]. pose proof (zlen_insert_at pos (k, v) es). unfold zlen in *. lia.
  - rewrite seqZ_cons by lia. cbn [rebuild_insert_loop].
    assert (Hlk := lookup_insert_at pos (k, v) es i Hp Hi).
    replace (Z.pred (Z.of_nat (S n))) with (Z.of_nat n) by lia.
    assert (Hgo : forall e, insert_at pos (k, v) es !! Z.to_nat i = Some e ->
      ('(k0, v0) ← Ret (E:=Error) e;
       '(out0, cursor0) ← put_entry out i start cursor vs k0 v0;
       rebuild_insert_loop p out0 start vs pos k v cursor0 (seqZ (Z.succ i) (Z.of_nat n))) =
      put_entries out i start cursor vs (drop (Z.to_nat i) (insert_at pos (k, v) es))).
    { intros [k0 v0] He. rewrite (drop_S _ _ _ He). cbn [put_entries]. obind.
      destruct (put_entry out i start cursor vs k0 v0) as [[out0 c0]| | |]; [|done..]. obind.
      rewrite IH by (done || lia). f_equal. f_equal. lia. }
    destruct (Z.eqb_spec i pos) as [->|Hne].
    + apply Hgo. rewrite Hlk, decide_False, decide_True by lia. done.
    + destruct (Z.ltb_spec i pos).
      * rewrite decide_True in Hlk by lia.
        destruct (lookup_Z_cases es i Hi) as [[? _]|(_ & e & He)]; [lia|].
        rewrite (entry_at_or_ok p h es Hrep i i e He Hi). apply Hgo. by rewrite Hlk.
      * rewrite !decide_False in Hlk by lia.
        destruct (lookup_Z_cases es (i - 1)) as [[? _]|(_ & e & He)]; [lia|lia|].
        rewrite (entry_at_or_ok p h es Hrep (i - 1) i e He) by lia. apply Hgo. by rewrite Hlk.
Qed.

Lemma btree_new_page_ok ty lv :
  exists p, new_page ty lv = Ret p /\ zlen p = PAGE_SIZE /\
    (is_byte ty -> is_byte lv -> rep p {| page_type := ty; level := lv; key_count := 0;
       prev_leaf := None; next_leaf := None; left_child := 0; high_key := None |} []).
Proof.
  unfold new_page. rewrite btree_write_header_ok by first [clia|discriminate]. eexists. split; [done|].
  match goal with |- context [hdr_bytes ?h] => pose proof (hdr_bytes_len h ltac:(done)) as Hb end.
  split; [clia|]. intros Hty Hlv.
  match goal with |- rep _ ?h _ => assert (Hok : hdr_ok h) end.
  { split; try done; cbn; unfold U16, U64; lia. }
  apply rep_build; [clia|done|by apply hdr_of_upd|done|clia|done].
Qed.

(** Header first, entries after: the order of the two [rebuild_page_with_*]. *)
Lemma build_header_first p0 h es :
  zlen p0 = PAGE_SIZE -> hdr_ok h -> key_count h = zlen es -> Forall (entry_sized (vsz h)) es ->
  data_start (zlen es) + zlen es * esz h <= PAGE_SIZE ->
  exists q p', write_header p0 h = Ret q /\
    put_entries q 0 (data_start (zlen es)) (data_start (zlen es)) (vsz h) es = Ret p' /\ rep p' h es.
Proof.
  intros Hl Hok Hc Hsz Hfit. pose proof (vsz_bound h) as [Hv0 Hvs]. pose proof (zlen_nonneg es).
  pose proof (hdr_bytes_len _ (hk_high _ Hok)) as Hhb. rewrite Hvs in Hfit.
  rewrite btree_write_header_ok by (first [clia|apply Hok]). eexists. set (q := upd 0 _ p0).
  assert (Hq : zlen q = PAGE_SIZE) by (unfold q; clia).
  destruct (put_entries_ok es q 0 (data_start (zlen es)) (vsz h)) as (p' & Hp' & Hsd);
    [lia|lia|done|clia|lia|lia|].
  rewrite Z.mul_0_l, Z.add_0_r in Hp'. exists p'. split_and!; [done|done|].
  apply rep_build; [|done| |done|by rewrite Hvs|apply (sd_ent _ _ _ _ _ _ Hsd)].
  - rewrite (sd_len _ _ _ _ _ _ Hsd). done.
  - rewrite <-(hdr_of_upd p0 h) by done. fold q. pose proof (sd_len _ _ _ _ _ _ Hsd).
    apply hdr_of_ext; [clia|clia|]. apply (sd_other _ _ _ _ _ _ Hsd); clia.
Qed.

Lemma has_room_spec h :
  page_has_room_for_one_more h = true <-> data_start (key_count h + 1) + (key_count h + 1) * esz h <= PAGE_SIZE.
Proof. unfold page_has_room_for_one_more. fold (esz h). rewrite Z.leb_le. clia. Qed.

Lemma entry_sized_insert_at vs pos e es :
  Forall (entry_sized vs) es -> entry_sized vs e -> Forall (entry_sized vs) (insert_at pos e es).
Proof.
  intros Hes He. unfold insert_at. apply Forall_app_2; [by apply Forall_take|].
  apply Forall_cons. split; [done|by apply Forall_drop].
Qed.

Lemma rebuild_insert_ok p h es pos k v :
  rep p h es -> 0 <= pos <= zlen es -> entry_sized (vsz h) (k, v) ->
  page_has_room_for_one_more h = true ->
  exists p', rebuild_page_with_insert p h pos k v = Ret p' /\
    rep p' (with_key_count h (zlen es + 1)) (insert_at pos (k, v) es).
Proof.
  intros Hrep Hp Hsz Hroom. apply has_room_spec in Hroom. rewrite (rp_count _ _ _ Hrep) in Hroom.
  pose proof (vsz_bound h) as [Hv0 Hvs]. pose proof (zlen_nonneg es).
  assert (Hw : wrap16 (zlen es + 1) = zlen es + 1) by (apply Z.mod_small; unfold U16; clia).
  unfold rebuild_page_with_insert. rewrite (rp_count _ _ _ Hrep), Hw.
  destruct (btree_new_page_ok (page_type h) (level h)) as (p0 & -> & Hl0 & _). obind.
  pose proof (zlen_insert_at pos (k, v) es) as Hz.
  destruct (build_header_first p0 (with_key_count h (zlen es + 1)) (insert_at pos (k, v) es))
    as (q & p' & -> & Hput & Hrep').
  - done.
  - apply hdr_ok_count; [apply Hrep|unfold U16; clia].
  - done.
  - apply entry_sized_insert_at; [apply (rep_sized p h es Hrep)|done].
  - rewrite Hz. done.
  - obind. exists p'. split; [|done]. rewrite <-Hput, Hz.
    replace (seqZ 0 (zlen es + 1)) with (seqZ 0 (Z.of_nat (Z.to_nat (zlen es + 1)))) by (f_equal; lia).
    rewrite (rebuild_insert_loop_put p h es) by (done || lia). done.
Qed.

Definition remove_at (pos : Z) (es : list entry) : list entry := delete (Z.to_nat pos) es.

Lemma zlen_remove_at pos es : 0 <= pos < zlen es -> zlen (remove_at pos es) = zlen es - 1.
Proof.
  intros. unfold remove_at, zlen in *. rewrite length_delete; [lia|].
  apply lookup_lt_is_Some_2. lia.
Qed.

(** [i] is the next index of the page, [j] the next position of the output. *)
Lemma rebuild_remove_loop_put p h es pos start vs n : forall out cursor i j,
  rep p h es -> 0 <= pos < zlen es -> 0 <= i -> i + Z.of_nat n = zlen es ->
  j = (if decide (i <= pos) then i else i - 1) ->
  rebuild_remove_loop p out start vs pos cursor j (seqZ i (Z.of_nat n)) =
  put_entries out j start cursor vs (drop (Z.to_nat j) (remove_at pos es)).
Proof.
  induction n as [|n IH]; intros out cursor i j Hrep Hp Hi Hn Hj.
  - pose proof (zlen_remove_at pos es Hp). rewrite drop_ge; [done|].
    rewrite decide_False in Hj by lia. unfold zlen in *. lia.
  - rewrite seqZ_cons by lia. cbn [rebuild_remove_loop].
    replace (Z.pred (Z.of_nat (S n))) with (Z.of_nat n) by lia.
    destruct (Z.eqb_spec i pos) as [->|Hne].
    + rewrite (IH out cursor (Z.succ pos) j) by (done || lia || (repeat case_decide; lia)). done.
    + destruct (lookup_Z_cases es i Hi) as [[? _]|(_ & e & He)]; [lia|].
      rewrite (entry_at_or_ok p h es Hrep i i e He Hi). destruct e as [k v]. obind.
      assert (Hd : remove_at pos es !! Z.to_nat j = Some (k, v)).
      { unfold remove_at. case_decide; subst j.
        - rewrite list_lookup_delete_lt by lia. done.
        - rewrite list_lookup_delete_ge by lia. rewrite <-He. f_equal. lia. }
      rewrite (drop_S _ _ _ Hd). cbn [put_entries].
      destruct (put_entry out j start cursor vs k v) as [[out0 c0]| | |]; [|done..]. obind.
      rewrite (IH out0 c0 (Z.succ i) (j + 1)) by (done || lia || (repeat case_decide; lia)).
      f_equal. f_equal. case_decide; lia.
Qed.

Lemma rebuild_remove_ok p h es pos :
  rep p h es -> 0 <= pos < zlen es ->
  exists p', rebuild_page_with_remove p h pos = Ret p' /\
    rep p' (with_key_count h (zlen es - 1)) (remove_at pos es).
Proof.
  intros Hrep Hp. pose proof (rp_fit _ _ _ Hrep) as Hfit. pose proof (vsz_bound h) as [Hv0 Hvs].
  assert (Hw : wrap16 (zlen es - 1) = zlen es - 1) by (apply Z.mod_small; unfold U16; clia).
  unfold rebuild_page_with_remove. rewrite (rp_count _ _ _ Hrep).
  destruct (Z.leb_spec (zlen es) pos); [lia|].
  replace (sat_sub (zlen es) 1) with (zlen es - 1) by (unfold sat_sub; lia). rewrite Hw.
  destruct (btree_new_page_ok (page_type h) (level h)) as (p0 & -> & Hl0 & _). obind.
  pose proof (zlen_remove_at pos es Hp) as Hz.
  destruct (build_header_first p0 (with_key_count h (zlen es - 1)) (remove_at pos es))
    as (q & p' & -> & Hput & Hrep').
  - done.
  - apply hdr_ok_count; [apply Hrep|unfold U16; clia].
  - done.
  - unfold remove_at. apply Forall_delete. apply (rep_sized p h es Hrep).
  - rewrite Hz. change (esz (with_key_count h (zlen es - 1))) with (esz h). clia.
  - obind. exists p'. split; [|done]. rewrite <-Hput, Hz.
    replace (seqZ 0 (zlen es)) with (seqZ 0 (Z.of_nat (Z.to_nat (zlen es)))) by (f_equal; lia).
    rewrite (rebuild_remove_loop_put p h es _ _ _ _ _ _ 0 0) by (done || lia || (case_decide; lia)). done.
Qed.

(** Rewriting the header of a page (same type and count). *)
Lemma write_header_rep p h es h' :
  rep p h es -> hdr_ok h' -> page_type h' = page_type h -> key_count h' = key_count h ->
  exists p', write_header p h' = Ret p' /\ rep p' h' es.
Proof.
  intros Hrep Hok Ht Hc. pose proof (rp_len _ _ _ Hrep) as Hl.
  pose proof (hdr_bytes_len _ (hk_high _ Hok)) as Hhb.
  rewrite btree_write_header_ok by (first [clia|apply Hok]). eexists. split; [done|].
  assert (Hvs : vsz h' = vsz h) by (unfold vsz; by rewrite Ht).
  assert (Hes : esz h' = esz h) by (unfold esz; by rewrite Ht).
  apply rep_build; [clia|done|by apply hdr_of_upd|rewrite Hc; apply Hrep|rewrite Hes; apply Hrep|].
  intros j e Hj. pose proof (rep_bounds p h es Hrep j e Hj) as Hb.
  destruct (rp_ent _ _ _ Hrep j e Hj) as (A & B & C). rewrite Hvs. rewrite esz_vsz in *. rewrite Z.add_0_l.
  split_and!; [rewrite fld_upd_disjoint by clia|rewrite sub_upd_disjoint by clia..]; done.
Qed.

(** Overwriting the value of an entry in place, as [insert] does for an existing key. *)
Lemma update_value_rep p h es i k v v' :
  rep p h es -> es !! i = Some (k, v) -> zlen v' = vsz h ->
  rep (upd (data_start (zlen es) + Z.of_nat i * esz h + 16) v' p) h (<[i := (k, v')]> es).
Proof.
  intros Hrep Hi Hv'. pose proof (rep_bounds p h es Hrep i _ Hi) as Hb.
  pose proof (rp_len _ _ _ Hrep) as Hl. set (q := upd _ _ _).
  assert (Hz : zlen (<[i := (k, v')]> es) = zlen es) by (unfold zlen; by rewrite length_insert).
  apply rep_build; rewrite ?Hz; [unfold q; clia|apply Hrep| |apply Hrep|apply Hrep|].
  - rewrite <-(rp_hdr _ _ _ Hrep). apply hdr_of_ext; [unfold q; clia|clia|].
    unfold q. apply sub_upd_disjoint; clia.
  - intros j e Hj. rewrite Z.add_0_l. rewrite <-esz_vsz. destruct (decide (j = i)) as [->|Hne].
    + rewrite list_lookup_insert_eq in Hj by (by eapply lookup_lt_Some). injection Hj as <-.
      destruct (rp_ent _ _ _ Hrep i _ Hi) as (A & B & C). cbn [fst snd] in *.
      split_and!; cbn [fst snd]; unfold q; [rewrite fld_upd_disjoint by clia; done
        |rewrite sub_upd_disjoint by clia; done|apply sub_upd_same; clia].
    + rewrite list_lookup_insert_ne in Hj by done. pose proof (rep_bounds p h es Hrep j _ Hj) as Hbj.
      destruct (rp_ent _ _ _ Hrep j e Hj) as (A & B & C).
      assert (Z.of_nat j * esz h + esz h <= Z.of_nat i * esz h \/
              Z.of_nat i * esz h + esz h <= Z.of_nat j * esz h) by nia.
      split_and!; unfold q; [rewrite fld_upd_disjoint by clia|rewrite sub_upd_disjoint by clia..]; done.
Qed.


(** ** Binary searches *)

Definition sorted (es : list entry) : Prop :=
  forall i j a b, (i < j)%nat -> es !! i = Some a -> es !! j = Some b -> bytes_lt a.1 b.1.

(** The entries below a position satisfy [P], those from it on satisfy [Q]. *)
Definition cut (es : list entry) (pos : Z) (P Q : bytes -> Prop) : Prop :=
  0 <= pos <= zlen es /\
  (forall i e, es !! i = Some e -> Z.of_nat i < pos -> P e.1) /\
  (forall i e, es !! i = Some e -> pos <= Z.of_nat i -> Q e.1).

Lemma cut_unique es a b P Q :
  (forall k, P k -> Q k -> False) -> cut es a P Q -> cut es b P Q -> a = b.
Proof.
  intros Hd. assert (Hlt : forall x y, cut es x P Q -> cut es y P Q -> ~ x < y).
  { intros x y (Hx & _ & HQ) (Hy & HP & _) Hxy.
    destruct (lookup_lt_is_Some_2 es (Z.to_nat x)) as [e He]; [unfold zlen in *; lia|].
    apply (Hd e.1); [apply (HP _ _ He)|apply (HQ _ _ He)]; lia. }
  intros Ha Hb. pose proof (Hlt a b Ha Hb). pose proof (Hlt b a Hb Ha). lia.
Qed.

Section Search.
Context (p : bytes) (h : PageHeader) (es : list entry) (key : bytes).
Hypothesis Hrep : rep p h es.
Hypothesis Hs : sorted es.

Lemma sorted_le i j a b :
  (i <= j)%nat -> es !! i = Some a -> es !! j = Some b -> bytes_le a.1 b.1.
Proof using Hs.
  intros Hij Ha Hb. destruct (decide (i = j)) as [->|]; [|apply bytes_lt_le, (Hs i j); auto; lia].
  rewrite Ha in Hb. injection Hb as ->. apply bytes_le_refl.
Qed.

(** The middle key of a non-empty interval. *)
Lemma mid_key lo hi :
  0 <= lo -> lo < hi -> hi <= zlen es ->
  lo <= (lo + hi) / 2 < hi /\
  exists e, es !! Z.to_nat ((lo + hi) / 2) = Some e /\ entry_key_at p ((lo + hi) / 2) = Ret (Some e.1).
Proof using Hrep.
  intros. assert (lo <= (lo + hi) / 2 < hi) by (split; [apply Z.div_le_lower_bound|apply Z.div_lt_upper_bound]; lia).
  split; [done|]. destruct (lookup_Z_cases es ((lo + hi) / 2)) as [[? _]|(_ & e & He)]; [lia|lia|].
  exists e. split; [done|]. rewrite (entry_key_at_ok p h es Hrep) by lia. by rewrite He.
Qed.

Lemma find_key_loop_ok fuel : forall lo hi,
  0 <= lo <= hi -> hi <= zlen es -> hi - lo <= Z.of_nat fuel ->
  (forall i e, es !! i = Some e -> Z.of_nat i < lo -> bytes_lt e.1 key) ->
  (forall i e, es !! i = Some e -> hi <= Z.of_nat i -> bytes_lt key e.1) ->
  exists found pos, find_key_loop fuel p key lo hi = Ret (Some (found, pos)) /\
    if found : bool then 0 <= pos /\ exists v, es !! Z.to_nat pos = Some (key, v)
    else cut es pos (fun k => bytes_lt k key) (fun k => bytes_lt key k).
Proof using Hrep Hs.
  induction fuel as [|fuel IH]; intros lo hi Hlo Hhi Hf HL HR; cbn [find_key_loop];
    (destruct (Z.ltb_spec lo hi) as [Hlt|]; cbn [negb];
     [|exists false, lo; split; [done|]; split_and!; [lia|lia|naive_solver|intros; apply (HR i e); auto; lia]]).
  1: lia.
  destruct (mid_key lo hi) as (Hm & e & He & ->); [lia..|]. obind.
  destruct (bytes_cmp e.1 key) eqn:Hc.
  - apply bytes_cmp_eq in Hc. exists true, ((lo + hi) / 2). split; [done|]. split; [lia|].
    exists e.2. rewrite He, <-Hc. by destruct e.
  - apply IH; [lia|lia|lia| |done]. intros i e' He' Hi.
    destruct (decide (i = Z.to_nat ((lo + hi) / 2))) as [->|]; [by simplify_eq|].
    apply bytes_lt_trans with e.1; [|done]. apply (Hs i (Z.to_nat ((lo + hi) / 2))); auto; lia.
  - apply IH; [lia|lia|lia|done|]. intros i e' He' Hi.
    assert (bytes_lt key e.1) by (unfold bytes_lt; rewrite bytes_cmp_antisym, Hc; done).
    apply bytes_lt_le_trans with e.1; [done|]. apply (sorted_le (Z.to_nat ((lo + hi) / 2)) i); auto; lia.
Qed.

Lemma find_key_pos_ok :
  exists found pos, find_key_pos p key = Ret (Some (found, pos)) /\
    if found : bool then 0 <= pos /\ exists v, es !! Z.to_nat pos = Some (key, v)
    else cut es pos (fun k => bytes_lt k key) (fun k => bytes_lt key k).
Proof using Hrep Hs.
  unfold find_key_pos. rewrite (rep_header p h es Hrep). obind. rewrite (rp_count _ _ _ Hrep).
  pose proof (zlen_nonneg es). apply find_key_loop_ok; try lia.
  intros i e He Hi. apply lookup_lt_Some in He. unfold zlen in Hi. lia.
Qed.

Lemma child_pos_loop_ok fuel : forall lo hi,
  0 <= lo <= hi -> hi <= zlen es -> hi - lo <= Z.of_nat fuel ->
  (forall i e, es !! i = Some e -> Z.of_nat i < lo -> bytes_le e.1 key) ->
  (forall i e, es !! i = Some e -> hi <= Z.of_nat i -> bytes_lt key e.1) ->
  exists pos, child_pos_loop fuel p key lo hi = Ret pos /\
    cut es pos (fun k => bytes_le k key) (fun k => bytes_lt key k).
Proof using Hrep Hs.
  induction fuel as [|fuel IH]; intros lo hi Hlo Hhi Hf HL HR; cbn [child_pos_loop];
    (destruct (Z.ltb_spec lo hi) as [Hlt|]; cbn [negb];
     [|exists lo; split; [done|]; split_and!; [lia|lia|naive_solver|intros; apply (HR i e); auto; lia]]).
  1: lia.
  destruct (mid_key lo hi) as (Hm & e & He & ->); [lia..|]. obind.
  destruct (bytes_ltb_spec key e.1) as [Hc|Hc].
  - apply IH; [lia|lia|lia|done|]. intros i e' He' Hi.
    apply bytes_lt_le_trans with e.1; [done|]. apply (sorted_le (Z.to_nat ((lo + hi) / 2)) i); auto; lia.
  - apply bytes_nlt_le in Hc. apply IH; [lia|lia|lia| |done]. intros i e' He' Hi.
    apply bytes_le_trans with e.1; [|done]. apply (sorted_le i (Z.to_nat ((lo + hi) / 2))); auto; lia.
Qed.

Lemma child_insert_pos_ok :
  exists pos, child_insert_pos_for_key p h key = Ret pos /\
    cut es pos (fun k => bytes_le k key) (fun k => bytes_lt key k).
Proof using Hrep Hs.
  unfold child_insert_pos_for_key. rewrite (rp_count _ _ _ Hrep).
  pose proof (zlen_nonneg es). apply child_pos_loop_ok; try lia.
  intros i e He Hi. apply lookup_lt_Some in He. unfold zlen in Hi. lia.
Qed.

Lemma lower_bound_loop_ok fuel : forall lo hi,
  0 <= lo <= hi -> hi <= zlen es -> hi - lo <= Z.of_nat fuel ->
  (forall i e, es !! i = Some e -> Z.of_nat i < lo -> bytes_lt e.1 key) ->
  (forall i e, es !! i = Some e -> hi <= Z.of_nat i -> bytes_le key e.1) ->
  exists pos, lower_bound_loop fuel p key lo hi = Ret pos /\
    cut es pos (fun k => bytes_lt k key) (fun k => bytes_le key k).
Proof using Hrep Hs.
  induction fuel as [|fuel IH]; intros lo hi Hlo Hhi Hf HL HR; cbn [lower_bound_loop];
    (destruct (Z.ltb_spec lo hi) as [Hlt|]; cbn [negb];
     [|exists lo; split; [done|]; split_and!; [lia|lia|naive_solver|intros; apply (HR i e); auto; lia]]).
  1: lia.
  destruct (mid_key lo hi) as (Hm & e & He & ->); [lia..|]. obind.
  destruct (bytes_ltb_spec e.1 key) as [Hc|Hc].
  - apply IH; [lia|lia|lia| |done]. intros i e' He' Hi.
    apply bytes_le_lt_trans with e.1; [|done]. apply (sorted_le i (Z.to_nat ((lo + hi) / 2))); auto; lia.
  - apply bytes_nlt_le in Hc. apply IH; [lia|lia|lia|done|]. intros i e' He' Hi.
    apply bytes_le_trans with e.1; [done|]. apply (sorted_le (Z.to_nat ((lo + hi) / 2)) i); auto; lia.
Qed.

Lemma lower_bound_in_leaf_ok :
  exists pos, lower_bound_in_leaf p key = Ret pos /\
    cut es pos (fun k => bytes_lt k key) (fun k => bytes_le key k).
Proof using Hrep Hs.
  unfold lower_bound_in_leaf. rewrite (rep_header p h es Hrep). obind. rewrite (rp_count _ _ _ Hrep).
  pose proof (zlen_nonneg es). apply lower_bound_loop_ok; try lia.
  intros i e He Hi. apply lookup_lt_Some in He. unfold zlen in Hi. lia.
Qed.
End Search.


(** ** Leaf values *)

Definition ptr_ok (u : option UndoPtr) : Prop :=
  forall x, u = Some x -> 0 < up_page_id x < U64 /\ 0 <= up_slot_id x < U16.

Record lv_ok (lv : LeafValue) : Prop := {
  lo_value : zlen (lv_value lv) = VALUE_SIZE;
  lo_lsn : 0 <= commit_lsn (lv_meta lv) < U64;
  lo_ptr : ptr_ok (undo_ptr (lv_meta lv));
  lo_flags : 0 <= flags (lv_meta lv) < U16;
  lo_txn : 0 <= intent_txn_id (lv_meta lv) < U64;
  lo_ilsn : 0 <= intent_lsn (lv_meta lv) < U64
}.

Definition lv_of_bytes (b : bytes) : LeafValue := {|
  lv_value := sub 0 VALUE_SIZE b;
  lv_meta := {|
    commit_lsn := fld 8 VALUE_SIZE b;
    undo_ptr := if fld 8 (VALUE_SIZE + 8) b =? 0 then None
      else Some {| up_page_id := fld 8 (VALUE_SIZE + 8) b; up_slot_id := fld 2 (VALUE_SIZE + 16) b |};
    flags := fld 2 (VALUE_SIZE + 18) b;
    intent_txn_id := fld 8 (VALUE_SIZE + 20) b;
    intent_lsn := fld 8 (VALUE_SIZE + 28) b |} |}.

Lemma encode_leaf_value_len lv : zlen (lv_value lv) = VALUE_SIZE -> zlen (encode_leaf_value lv) = LEAF_VALUE_SIZE.
Proof. intros. unfold encode_leaf_value. destruct (undo_ptr _) as [[]|]; zlens; clia. Qed.

Lemma decode_meta_ok b :
  zlen b = LEAF_VALUE_SIZE -> decode_leaf_value_meta b = Ret (lv_meta (lv_of_bytes b)).
Proof. intros. unfold decode_leaf_value_meta. rewrite !read_le_ok by clia. done. Qed.

Lemma decode_ref_ok p off :
  0 <= off -> off + LEAF_VALUE_SIZE <= zlen p ->
  decode_leaf_value_ref p off = Ret (Some (lv_of_bytes (sub off LEAF_VALUE_SIZE p))).
Proof.
  intros. unfold decode_leaf_value_ref.
  destruct (Z.ltb_spec (zlen p) (off + LEAF_VALUE_SIZE)); [clia|].
  destruct (Z.ltb_spec (zlen p) (off + VALUE_SIZE)); [clia|]. cbn [orb].
  rewrite (get_range_ok p off (off + LEAF_VALUE_SIZE)) by clia. obind. rewrite Z.add_simpl_l.
  rewrite decode_meta_ok by clia. obind. rewrite get_range_ok by clia. obind.
  unfold lv_of_bytes. cbn [lv_meta]. rewrite Z.add_simpl_l. do 2 f_equal.
  rewrite (sub_sub off LEAF_VALUE_SIZE 0) by clia. by rewrite Z.add_0_r.
Qed.

Lemma lv_roundtrip lv : lv_ok lv -> lv_of_bytes (encode_leaf_value lv) = lv.
Proof.
  intros [Hv Hl Hp Hf Ht Hi]. unfold lv_of_bytes, encode_leaf_value.
  destruct lv as [v [lsn u fl it il]]; cbn [lv_value lv_meta commit_lsn undo_ptr flags intent_txn_id intent_lsn] in *.
  set (pid := match u with Some u => up_page_id u | None => 0 end).
  set (sid := match u with Some u => up_slot_id u | None => 0 end).
  replace (match u with Some u0 => (up_page_id u0, up_slot_id u0) | None => (0, 0) end) with (pid, sid)
    by (unfold pid, sid; by destruct u).
  assert (Hpid : 0 <= pid < U64 /\ 0 <= sid < U16).
  { unfold pid, sid. destruct u as [x|]; [specialize (Hp x eq_refl); lia|unfold U64, U16; lia]. }
  assert (Hu : (if pid =? 0 then None else Some {| up_page_id := pid; up_slot_id := sid |}) = u).
  { unfold pid, sid. destruct u as [[a b]|]; [|done]. specialize (Hp _ eq_refl). cbn in *.
    by destruct (Z.eqb_spec a 0); [lia|]. }
  unfold U64, U16 in *. f_equal; [rewrite sub_app_l by clia; by apply sub_all|].
  f_equal.
  2: rewrite <-Hu; replace (fld 8 (VALUE_SIZE + 8) _) with pid; [replace (fld 2 (VALUE_SIZE + 16) _) with sid; [done|]|].
  all: consts.
  all: rewrite fld_app_r by lia; rewrite Hv; fld_skip.
  all: first [apply fld_le_bytes_app; lia|apply fld_le_bytes; lia
    |symmetry; apply fld_le_bytes_app; lia|symmetry; apply fld_le_bytes; lia].
Qed.

(** ** Entries as a finite map *)

Abbreviation kvmap := (gmap (list Z) (list Z)) (only parsing).
Definition to_map (es : list entry) : kvmap := list_to_map es.

Lemma sorted_nodup es : sorted es -> NoDup es.*1.
Proof.
  intros Hs. apply NoDup_alt. intros i j k Hi Hj.
  apply list_lookup_fmap_Some in Hi as (a & -> & Ha), Hj as (b & Hb & Hj).
  destruct (lt_eq_lt_dec i j) as [[Hlt|]|Hlt]; [|done|]; exfalso;
    [specialize (Hs i j a b Hlt Ha Hj)|specialize (Hs j i b a Hlt Hj Ha)];
    rewrite Hb in Hs; by apply bytes_lt_irrefl in Hs.
Qed.

Lemma to_map_lookup es i k v : sorted es -> es !! i = Some (k, v) -> to_map es !! k = Some v.
Proof.
  intros Hs Hi. apply elem_of_list_to_map_1; [by apply sorted_nodup|]. by eapply list_elem_of_lookup_2.
Qed.

Lemma to_map_absent es k : (forall e, e ∈ es -> e.1 <> k) -> to_map es !! k = None.
Proof.
  intros Hno. apply not_elem_of_list_to_map_1. intros (e & -> & He)%list_elem_of_fmap. by apply (Hno e).
Qed.

Lemma cut_absent es pos key :
  cut es pos (fun k => bytes_lt k key) (fun k => bytes_lt key k) -> to_map es !! key = None.
Proof.
  intros (_ & HL & HR). apply to_map_absent. intros e (i & Hi)%list_elem_of_lookup He.
  destruct (Z_lt_le_dec (Z.of_nat i) pos); [apply (HL i e Hi) in l|apply (HR i e Hi) in l];
    rewrite He in l; by apply bytes_lt_irrefl in l.
Qed.

Lemma find_in_leaf_loop_ok p h es key fuel : forall lo hi,
  rep p h es -> sorted es -> page_type h = PAGE_TYPE_LEAF ->
  0 <= lo <= hi -> hi <= zlen es -> hi - lo <= Z.of_nat fuel ->
  (forall i e, es !! i = Some e -> Z.of_nat i < lo -> bytes_lt e.1 key) ->
  (forall i e, es !! i = Some e -> hi <= Z.of_nat i -> bytes_lt key e.1) ->
  find_in_leaf_loop fuel p key lo hi = Ret (lv_of_bytes <$> to_map es !! key).
Proof.
  induction fuel as [|fuel IH]; intros lo hi Hrep Hs Hty Hlo Hhi Hf HL HR; cbn [find_in_leaf_loop];
    (destruct (Z.ltb_spec lo hi) as [Hlt|]; cbn [negb];
     [|rewrite (cut_absent es lo); [done|];
       split_and!; [lia|lia|naive_solver|intros; apply (HR i e); auto; lia]]).
  1: lia.
  destruct (mid_key p h es Hrep lo hi) as (Hm & e & He & ->); [lia..|]. obind.
  destruct (bytes_cmp e.1 key) eqn:Hc.
  - apply bytes_cmp_eq in Hc. destruct e as [k v]. cbn [fst] in Hc. subst k.
    destruct (entry_value_bounds_ok p h es Hrep _ _ He) as [-> Hv]; [lia|]. obind.
    rewrite (to_map_lookup es _ _ _ Hs He). cbn [snd] in Hv. obind. rewrite <-Hv.
    pose proof (rep_bounds p h es Hrep _ _ He) as Hb. rewrite Z2Nat.id in Hb by lia.
    pose proof (rp_len _ _ _ Hrep). assert (Hvs : vsz h = LEAF_VALUE_SIZE) by (unfold vsz; by rewrite Hty).
    rewrite Hvs in *. apply decode_ref_ok; clia.
  - apply IH; [done|done|done|lia|lia|lia| |done]. intros i e' He' Hi.
    destruct (decide (i = Z.to_nat ((lo + hi) / 2))) as [->|]; [by simplify_eq|].
    apply bytes_lt_trans with e.1; [|done]. apply (Hs i (Z.to_nat ((lo + hi) / 2))); auto; lia.
  - apply IH; [done|done|done|lia|lia|lia|done|]. intros i e' He' Hi.
    assert (bytes_lt key e.1) by (unfold bytes_lt; rewrite bytes_cmp_antisym, Hc; done).
    apply bytes_lt_le_trans with e.1; [done|].
    apply (sorted_le es Hs (Z.to_nat ((lo + hi) / 2)) i); auto; lia.
Qed.

Lemma find_in_leaf_ok p h es key :
  rep p h es -> sorted es -> page_type h = PAGE_TYPE_LEAF ->
  find_in_leaf p key = Ret (lv_of_bytes <$> to_map es !! key).
Proof.
  intros Hrep Hs Hty. unfold find_in_leaf. rewrite (rep_header p h es Hrep). obind.
  rewrite (rp_count _ _ _ Hrep). pose proof (zlen_nonneg es).
  apply (find_in_leaf_loop_ok p h); try done || lia.
  intros i e He Hi. apply lookup_lt_Some in He. unfold zlen in Hi. lia.
Qed.

(** ** Splits and children *)

Lemma copy_high_key_ok k : zlen k = 16 -> copy_high_key k = Ret k.
Proof.
  intros H. unfold copy_high_key. rewrite put_range_ok by clia. f_equal. unfold upd.
  rewrite H. apply app_nil_r.
Qed.

Lemma hdr_ok_high h k : hdr_ok h -> (forall x, k = Some x -> zlen x = 16) -> hdr_ok (with_high h k).
Proof. intros [] ?. by split. Qed.

Lemma sub_take {A} n (l : list A) : sub 0 n l = take (Z.to_nat n) l.
Proof. done. Qed.

Lemma sub_drop {A} a (l : list A) : 0 <= a <= zlen l -> sub a (zlen l - a) l = drop (Z.to_nat a) l.
Proof. intros. unfold sub. rewrite take_ge; [done|]. rewrite length_drop. unfold zlen in *. lia. Qed.

Lemma zlen_take {A} n (l : list A) : 0 <= n <= zlen l -> zlen (take (Z.to_nat n) l) = n.
Proof. intros. unfold zlen in *. rewrite length_take. lia. Qed.

Lemma zlen_drop {A} n (l : list A) : 0 <= n <= zlen l -> zlen (drop (Z.to_nat n) l) = zlen l - n.
Proof. intros. unfold zlen in *. rewrite length_drop. lia. Qed.

Lemma fit_fewer h n m :
  0 <= m <= n -> data_start n + n * esz h <= PAGE_SIZE -> data_start m + m * esz h <= PAGE_SIZE.
Proof. intros ? ?. pose proof (vsz_bound h). consts. nia. Qed.

Lemma split_leaf_ok p h es :
  rep p h es -> page_type h = PAGE_TYPE_LEAF -> 2 <= zlen es ->
  exists sep v pl pr, split_leaf p es = Ret (sep, (pl, pr)) /\ zlen sep = 16 /\
    es !! Z.to_nat (zlen es / 2) = Some (sep, v) /\
    rep pl (with_key_count (with_high h (Some sep)) (zlen es / 2)) (take (Z.to_nat (zlen es / 2)) es) /\
    rep pr (with_key_count h (zlen es - zlen es / 2)) (drop (Z.to_nat (zlen es / 2)) es).
Proof.
  intros Hrep Hty Hn. set (mid := zlen es / 2).
  assert (Hmid : 0 < mid < zlen es) by (unfold mid; split; [apply Z.div_str_pos|apply Z.div_lt]; lia).
  destruct (lookup_Z_cases es mid) as [[? _]|(_ & [sep v] & He)]; [lia|lia|].
  pose proof (rep_sized p h es Hrep) as Hsz.
  pose proof (Forall_lookup_1 _ _ _ _ Hsz He) as [Hsep _]. cbn [fst] in Hsep.
  assert (Hfit := rp_fit _ _ _ Hrep). pose proof (rp_ok _ _ _ Hrep) as Hok.
  unfold split_leaf. fold mid. rewrite sub_take, sub_drop by lia.
  destruct (btree_new_page_ok PAGE_TYPE_LEAF 0) as (p0 & -> & Hl0 & _). obind.
  unfold leaf_page_header. rewrite (rep_header p h es Hrep). obind.
  replace (get_at (drop (Z.to_nat mid) es) 0) with (Ret (E:=Error) (sep, v)).
  2:{ unfold get_at. cbn [Z.leb Z.compare]. rewrite lookup_drop. rewrite Nat.add_0_r, He. done. }
  obind. rewrite copy_high_key_ok by done. obind.
  destruct (encode_entries_ok p0 (take (Z.to_nat mid) es) (with_high h (Some sep)))
    as (pl & -> & Hpl); [done|by apply hdr_ok_high; [|naive_solver]|by apply Forall_take| |].
  { rewrite zlen_take by lia. by apply (fit_fewer _ (zlen es)); [lia|]. }
  obind. destruct (encode_entries_ok p0 (drop (Z.to_nat mid) es) (with_high h (high_key h)))
    as (pr & -> & Hpr); [done|by apply hdr_ok_high; [|apply Hok]|by apply Forall_drop| |].
  { rewrite zlen_drop by lia. by apply (fit_fewer _ (zlen es)); [lia|]. }
  obind. rewrite zlen_take in Hpl by lia. rewrite zlen_drop in Hpr by lia.
  exists sep, v, pl, pr. split_and!; done.
Qed.

Lemma hdr_ok_prev h x : hdr_ok h -> id_ok x -> hdr_ok (with_prev h x).
Proof. intros [] ?. by split. Qed.

Lemma hdr_ok_next h x : hdr_ok h -> id_ok x -> hdr_ok (with_next h x).
Proof. intros [] ?. by split. Qed.

Lemma id_ok_some i : 0 < i < U64 -> id_ok (Some i).
Proof. by intros ? ? [= <-]. Qed.

Lemma high_some (k : bytes) : zlen k = 16 -> forall x, Some k = Some x -> zlen x = 16.
Proof. by intros ? ? [= <-]. Qed.

Lemma hdr_ok_left h c : hdr_ok h -> 0 <= c < U64 -> hdr_ok (with_left h c).
Proof. intros [] ?. by split. Qed.

Lemma split_internal_ok p h es :
  rep p h es -> page_type h = PAGE_TYPE_INTERNAL -> 2 <= zlen es ->
  (forall e, e ∈ es -> 0 <= le_val e.2 < U64) ->
  exists sep c pl pr, split_internal p es = Ret (sep, (pl, pr)) /\ zlen sep = 16 /\
    es !! Z.to_nat (zlen es / 2) = Some (sep, c) /\
    rep pl (with_key_count (with_high h (Some sep)) (zlen es / 2)) (take (Z.to_nat (zlen es / 2)) es) /\
    rep pr (with_key_count (with_left h (le_val c)) (zlen es - (zlen es / 2 + 1)))
      (drop (Z.to_nat (zlen es / 2 + 1)) es).
Proof.
  intros Hrep Hty Hn Hch. set (mid := zlen es / 2).
  assert (Hmid : 0 < mid < zlen es) by (unfold mid; split; [apply Z.div_str_pos|apply Z.div_lt]; lia).
  destruct (lookup_Z_cases es mid) as [[? _]|(_ & [sep c] & He)]; [lia|lia|].
  pose proof (rep_sized p h es Hrep) as Hsz. pose proof (Forall_lookup_1 _ _ _ _ Hsz He) as [Hsep Hc].
  assert (Hvs : vsz h = 8) by (unfold vsz; rewrite Hty; reflexivity). cbn [fst snd] in Hsep, Hc.
  assert (Hcb : 0 <= le_val c < U64) by (apply (Hch (sep, c)); by eapply list_elem_of_lookup_2).
  assert (Hfit := rp_fit _ _ _ Hrep). pose proof (rp_ok _ _ _ Hrep) as Hok.
  unfold split_internal. fold mid. rewrite sub_take, sub_drop by lia.
  replace (get_at es mid) with (Ret (E:=Error) (sep, c)).
  2:{ unfold get_at. destruct (Z.leb_spec 0 mid); [|lia]. by rewrite He. }
  obind. rewrite (rep_header p h es Hrep). obind.
  destruct (btree_new_page_ok PAGE_TYPE_INTERNAL (level h)) as (p0 & -> & Hl0 & _). obind.
  rewrite copy_high_key_ok by done. obind. unfold decode_child_id.
  rewrite get_range_ok by lia. obind. rewrite sub_all by lia.
  destruct (encode_entries_ok p0 (take (Z.to_nat mid) es) (with_high h (Some sep)))
    as (pl & -> & Hpl); [done|by apply hdr_ok_high; [|naive_solver]|by apply Forall_take| |].
  { rewrite zlen_take by lia. by apply (fit_fewer _ (zlen es)); [lia|]. }
  obind. destruct (encode_entries_ok p0 (drop (Z.to_nat (mid + 1)) es)
                    (with_left (with_high h (high_key h)) (le_val c)))
    as (pr & -> & Hpr); [done|apply hdr_ok_left; [by apply hdr_ok_high; [|apply Hok]|done]|by apply Forall_drop| |].
  { rewrite zlen_drop by lia. by apply (fit_fewer _ (zlen es)); [lia|]. }
  obind. rewrite zlen_take in Hpl by lia. rewrite zlen_drop in Hpr by lia.
  exists sep, c, pl, pr. split_and!; done.
Qed.

(** The child pointers of an internal page, leftmost first. *)
Definition children (h : PageHeader) (es : list entry) : list PageId :=
  left_child h :: ((fun e => le_val e.2) <$> es).

Lemma child_id_at_pos_ok p h es pos c :
  rep p h es -> page_type h = PAGE_TYPE_INTERNAL -> 0 <= pos ->
  children h es !! Z.to_nat pos = Some c -> child_id_at_pos p h pos = Ret c.
Proof.
  intros Hrep Hty Hp Hc. unfold child_id_at_pos. destruct (Z.eqb_spec pos 0) as [->|].
  { unfold children in Hc. cbn in Hc. injection Hc as <-. done. }
  replace (sat_sub pos 1) with (pos - 1) by (unfold sat_sub; lia).
  unfold children in Hc. replace (Z.to_nat pos) with (S (Z.to_nat (pos - 1))) in Hc by lia.
  rewrite lookup_cons in Hc. apply list_lookup_fmap_Some in Hc as (e & -> & He).
  rewrite (entry_value_at_ok p h es Hrep) by lia. rewrite He. obind.
  pose proof (Forall_lookup_1 _ _ _ _ (rep_sized p h es Hrep) He) as [_ Hsz].
  assert (Hvs : vsz h = 8) by (unfold vsz; rewrite Hty; reflexivity).
  unfold decode_child_id. rewrite get_range_ok by lia. obind. rewrite sub_all by lia. done.
Qed.

End BpSpec.
