(* ===== verification/Latch.v ===== *)
(** * Latch: the page latches (src/src/page_bptree.rs, [PageLatchTable])

    A latch stripe is a semaphore, here the number of its free permits; a call that would
    wait has no result.  [latch_run] follows any sequence of acquisitions and drops, and
    [permits_left] is what the guards that are held leave of a stripe: with it the methods
    of the tree take their latches, each knowing the guards it holds itself. *)

From stdpp Require Import base numbers list list_numbers.
From S2P Require Import Prelude Common.

Definition DEFAULT_LATCH_SHARDS : Z := 256.
Definition DEFAULT_LATCH_STRIPES : Z := 32 * 1024.
Definition LATCH_STRIPE_PERMITS : Z := 1024.

Record PageLatchTable := mkLatches { stripes : list Z }.

(** [OwnedSemaphorePermit]: the permits go back to their stripe when it is dropped. *)
Record LatchGuard := mkGuard { g_stripe : nat; g_permits : Z }.

Module Latch.

(** The number of stripes. *)
Definition count (shards : Z) : Z := Z.max (Z.max shards 1) DEFAULT_LATCH_STRIPES.

Definition new (shards : Z) : PageLatchTable :=
  mkLatches (replicate (Z.to_nat (count shards)) LATCH_STRIPE_PERMITS).

Definition shard (t : PageLatchTable) (page_id : PageId) : nat := Z.to_nat (page_id mod zlen (stripes t)).

(** [acquire_many_owned]; [None]: the caller waits. *)
Definition acquire (n : Z) (page_id : PageId) (t : PageLatchTable) : option (LatchGuard * PageLatchTable) :=
  free ← stripes t !! shard t page_id;
  if n <=? free then Some (mkGuard (shard t page_id) n, mkLatches (<[shard t page_id := free - n]> (stripes t)))
  else None.

Definition acquire_read : PageId -> PageLatchTable -> option (LatchGuard * PageLatchTable) := acquire 1.
Definition acquire_write : PageId -> PageLatchTable -> option (LatchGuard * PageLatchTable) := acquire LATCH_STRIPE_PERMITS.

(** The drop of a guard. *)
Definition release (g : LatchGuard) (t : PageLatchTable) : PageLatchTable :=
  mkLatches (alter (fun free => free + g_permits g) (g_stripe g) (stripes t)).

End Latch.

(** ** The latches one caller holds *)

(** A page and the permits that are held for it. *)
Abbreviation held_latch := (PageId * Z)%type (only parsing).
Definition read_held (id : PageId) : held_latch := (id, 1).
Definition write_held (id : PageId) : held_latch := (id, LATCH_STRIPE_PERMITS).

(** The permits left in the stripe of a page, of [n] stripes. *)
Definition permits_left (n : Z) (held : list held_latch) (id : PageId) : Z :=
  LATCH_STRIPE_PERMITS - foldr (fun g k => (if g.1 mod n =? id mod n then g.2 else 0) + k) 0 held.

(** Pages with different ids below the number of stripes have stripes of their own. *)
Lemma permits_all n held id :
  0 <= id < n -> Forall (fun g : held_latch => 0 <= g.1 < n /\ g.1 <> id) held -> permits_left n held id = LATCH_STRIPE_PERMITS.
Proof.
  intros Hid Hh. unfold permits_left. enough (foldr (fun g k => (if g.1 mod n =? id mod n then g.2 else 0) + k) 0 held = 0) by lia.
  induction Hh as [|g held [Hg Hne] _ IH]; [done|]. cbn [foldr]. rewrite IH, !Z.mod_small by lia. by destruct (Z.eqb_spec g.1 id).
Qed.

(** One caller that only reads never waits for itself. *)
Lemma permits_reader n h id : 1 <= permits_left n [read_held h] id.
Proof. unfold permits_left. cbn. destruct (_ =? _); unfold LATCH_STRIPE_PERMITS; lia. Qed.

Module LatchProps.

(** ** Any number of callers *)

Inductive latch_op := LRead (page_id : PageId) | LWrite (page_id : PageId) | LDrop (k : nat).

(** A guard, the page it was asked for, and whether it is a write latch. *)
Record Held := mkHeld { h_page : PageId; h_write : bool; h_guard : LatchGuard }.

Definition hold (id : PageId) (write : bool) (gs : list Held) (r : option (LatchGuard * PageLatchTable)) :
    option (PageLatchTable * list Held) :=
  '(g, t) ← r; Some (t, gs ++ [mkHeld id write g]).

(** An operation that would wait is not a step. *)
Definition latch_step (s : PageLatchTable * list Held) (op : latch_op) : option (PageLatchTable * list Held) :=
  match op with
  | LRead id => hold id false s.2 (Latch.acquire_read id s.1)
  | LWrite id => hold id true s.2 (Latch.acquire_write id s.1)
  | LDrop k => h ← s.2 !! k; Some (Latch.release (h_guard h) s.1, base.delete k s.2)
  end.

Definition latch_run (s : PageLatchTable * list Held) (ops : list latch_op) : option (PageLatchTable * list Held) :=
  foldl (fun s op => s ≫= fun s => latch_step s op) (Some s) ops.

Definition taken (i : nat) (gs : list Held) : Z :=
  foldr (fun h n => (if decide (g_stripe (h_guard h) = i) then g_permits (h_guard h) else 0) + n) 0 gs.
Arguments taken : simpl never.

Definition held_ok (n : Z) (h : Held) : Prop :=
  g_stripe (h_guard h) = Z.to_nat (h_page h mod n) /\
  g_permits (h_guard h) = if h_write h then LATCH_STRIPE_PERMITS else 1.

Record latches_ok (n : Z) (s : PageLatchTable * list Held) : Prop := {
  lo_len : zlen (stripes s.1) = n;
  lo_count : forall i free, stripes s.1 !! i = Some free -> 0 <= free /\ free + taken i s.2 = LATCH_STRIPE_PERMITS;
  lo_guards : Forall (held_ok n) s.2
}.

Lemma taken_cons i h gs : taken i (h :: gs) = (if decide (g_stripe (h_guard h) = i) then g_permits (h_guard h) else 0) + taken i gs.
Proof. done. Qed.

Lemma taken_nil i : taken i [] = 0.
Proof. done. Qed.

Lemma taken_app i gs hs : taken i (gs ++ hs) = taken i gs + taken i hs.
Proof. induction gs as [|g gs IH]; cbn [app]; rewrite ?taken_cons, ?taken_nil; lia. Qed.

Lemma taken_delete i gs k h : gs !! k = Some h ->
  taken i gs = taken i (base.delete k gs) + (if decide (g_stripe (h_guard h) = i) then g_permits (h_guard h) else 0).
Proof.
  intros Hk. rewrite delete_take_drop, taken_app. rewrite <-(take_drop_middle gs k h Hk) at 1. rewrite taken_app.
  rewrite taken_cons. lia.
Qed.

Lemma held_permits n h : held_ok n h -> 1 <= g_permits (h_guard h) <= LATCH_STRIPE_PERMITS.
Proof. intros [_ ->]. unfold LATCH_STRIPE_PERMITS. destruct (h_write h); lia. Qed.

Lemma acquire_ok n s w id g t :
  latches_ok n s -> Latch.acquire (if w : bool then LATCH_STRIPE_PERMITS else 1) id s.1 = Some (g, t) ->
  latches_ok n (t, s.2 ++ [mkHeld id w g]).
Proof.
  intros [Hl Hc Hg] Ha. unfold Latch.acquire in Ha. destruct (stripes s.1 !! Latch.shard s.1 id) as [free|] eqn:Hf; [|done].
  cbn in Ha. set (m := if w then LATCH_STRIPE_PERMITS else 1) in *. destruct (Z.leb_spec m free); [|done]. injection Ha as <- <-. constructor; cbn.
  - by rewrite zlen_insert.
  - intros i fr Hi. rewrite taken_app, taken_cons, taken_nil. cbn [h_guard g_stripe g_permits]. destruct (decide (Latch.shard s.1 id = i)) as [<-|Hne].
    + rewrite list_lookup_insert_eq in Hi by (by eapply lookup_lt_Some). injection Hi as <-.
      destruct (Hc _ _ Hf). lia.
    + rewrite list_lookup_insert_ne in Hi by done. destruct (Hc i fr Hi). lia.
  - apply Forall_app. split; [done|]. constructor; [|constructor]. split; [|done]. cbn. unfold Latch.shard. by rewrite Hl.
Qed.

Lemma latch_step_ok n s op s' : latches_ok n s -> latch_step s op = Some s' -> latches_ok n s'.
Proof.
  intros Hok Hs. destruct op as [id|id|k]; cbn in Hs.
  - unfold hold in Hs. destruct (Latch.acquire_read id s.1) as [[g t]|] eqn:Ha; [|done]. injection Hs as <-.
    by apply (acquire_ok n s false).
  - unfold hold in Hs. destruct (Latch.acquire_write id s.1) as [[g t]|] eqn:Ha; [|done]. injection Hs as <-.
    by apply (acquire_ok n s true).
  - destruct (s.2 !! k) as [h|] eqn:Hk; [|done]. injection Hs as <-. destruct Hok as [Hl Hc Hg]. constructor; cbn.
    + unfold zlen. by rewrite length_alter.
    + intros i fr Hi. pose proof (taken_delete i s.2 k h Hk) as Ht. destruct (decide (g_stripe (h_guard h) = i)) as [<-|Hne].
      * rewrite list_lookup_alter_eq in Hi. apply fmap_Some in Hi as (fr' & Hfr & ->). destruct (Hc _ _ Hfr).
        pose proof (held_permits n h (Forall_lookup_1 _ _ _ _ Hg Hk)). lia.
      * rewrite list_lookup_alter_ne in Hi by done. destruct (Hc i fr Hi). lia.
    + rewrite delete_take_drop. apply Forall_app. split; [by apply Forall_take|by apply Forall_drop].
Qed.

Lemma latch_run_ok n ops : forall s s', latches_ok n s -> latch_run s ops = Some s' -> latches_ok n s'.
Proof.
  unfold latch_run. induction ops as [|op ops IH]; cbn; intros s s' Hok Hs; [by injection Hs as <-|].
  destruct (latch_step s op) as [s1|] eqn:Hst; [by eapply IH, Hs; eapply latch_step_ok|]. exfalso. clear -Hs.
  induction ops; [done|]. by apply IHops.
Qed.

Lemma count_pos m : 0 < Latch.count m.
Proof. unfold Latch.count, DEFAULT_LATCH_STRIPES. lia. Qed.

Lemma latches_ok_new m : latches_ok (Latch.count m) (Latch.new m, []).
Proof.
  pose proof (count_pos m). constructor; cbn -[Latch.count].
  - unfold zlen. rewrite length_replicate. lia.
  - intros i free [-> _]%lookup_replicate. rewrite taken_nil. unfold LATCH_STRIPE_PERMITS. lia.
  - constructor.
Qed.

(** The guards of a stripe, and the permits they hold together. *)
Definition on_stripe (n : Z) (id : PageId) (gs : list Held) : list Held := filter (fun h => h_page h mod n = id mod n) gs.

Lemma same_stripe n a b : 0 < n -> Z.to_nat (a mod n) = Z.to_nat (b mod n) <-> a mod n = b mod n.
Proof. intros Hn. pose proof (Z.mod_pos_bound a n Hn). pose proof (Z.mod_pos_bound b n Hn). lia. Qed.

Lemma taken_stripe n gs id : 0 < n -> Forall (held_ok n) gs ->
  let same := on_stripe n id gs in
  zlen same <= taken (Z.to_nat (id mod n)) gs /\ (Forall (fun h => h_write h = false) same -> taken (Z.to_nat (id mod n)) gs = zlen same) /\
  (~ Forall (fun h => h_write h = false) same -> LATCH_STRIPE_PERMITS <= taken (Z.to_nat (id mod n)) gs).
Proof.
  intros Hn. unfold on_stripe. induction 1 as [|h gs Hh _ IH]; [cbn; split_and!; [done|done|intros Hf; exfalso; by apply Hf; constructor]|]. pose proof (held_permits n h Hh) as Hp. destruct Hh as [Hs Hw].
  destruct IH as (I1 & I2 & I3). rewrite taken_cons, Hs. rewrite filter_cons. destruct (decide (h_page h mod n = id mod n)) as [E|E].
  - rewrite decide_True by (by apply same_stripe). rewrite zlen_cons. split_and!.
    + lia.
    + intros [Hf Hr]%Forall_cons. rewrite (I2 Hr), Hw, Hf. lia.
    + intros Hnot. set (i := Z.to_nat (id mod n)) in *. assert (0 <= taken i gs) by (pose proof (zlen_nonneg (filter (fun h => h_page h mod n = id mod n) gs)); lia).
      destruct (h_write h) eqn:Ew; [lia|]. enough (LATCH_STRIPE_PERMITS <= taken i gs) by lia. apply I3. intros Hr. apply Hnot. by constructor.
  - rewrite decide_False by (by rewrite same_stripe). split_and!; [lia|intros Hr; rewrite (I2 Hr); lia|intros Hnot; specialize (I3 Hnot); lia].
Qed.

(** When an acquisition is granted. *)
Lemma acquire_granted n s k id :
  0 < n -> latches_ok n s -> is_Some (Latch.acquire k id s.1) <-> k <= LATCH_STRIPE_PERMITS - taken (Z.to_nat (id mod n)) s.2.
Proof.
  intros Hn [Hl Hc _]. unfold Latch.acquire. assert (Hsh : Latch.shard s.1 id = Z.to_nat (id mod n)) by (unfold Latch.shard; by rewrite Hl).
  destruct (lookup_lt_is_Some_2 (stripes s.1) (Latch.shard s.1 id)) as [free Hf].
  { unfold zlen in Hl. pose proof (Z.mod_pos_bound id n Hn). lia. }
  rewrite Hf. cbn [mbind option_bind]. destruct (Hc _ _ Hf) as [_ Hsum]. rewrite Hsh in Hsum.
  destruct (Z.leb_spec k free); split; intros Hx; [lia|by eexists|by destruct Hx|lia].
Qed.

(** What the tree's methods compute from the latches they hold is what the table grants. *)
Lemma permits_left_granted m ops t gs k id :
  latch_run (Latch.new m, []) ops = Some (t, gs) ->
  is_Some (Latch.acquire k id t) <-> k <= permits_left (Latch.count m) ((fun h => (h_page h, g_permits (h_guard h))) <$> gs) id.
Proof.
  intros Hrun. pose proof (count_pos m) as Hn. pose proof (latch_run_ok _ _ _ _ (latches_ok_new m) Hrun) as Hok.
  rewrite (acquire_granted _ _ k id Hn Hok). destruct Hok as [_ _ Hg]. cbn [fst snd] in *. unfold permits_left. set (n := Latch.count m) in *.
  assert (E : taken (Z.to_nat (id mod n)) gs =
    foldr (fun g k => (if g.1 mod n =? id mod n then g.2 else 0) + k) 0 ((fun h => (h_page h, g_permits (h_guard h))) <$> gs)); [|by rewrite E].
  clear Hrun. induction Hg as [|h gs [Hs _] _ IH]; [done|]. rewrite taken_cons. cbn [fmap list_fmap foldr fst snd]. rewrite <-IH, Hs.
  destruct (Z.eqb_spec (h_page h mod n) (id mod n)); [by rewrite decide_True by (by apply same_stripe)|by rewrite decide_False by (by rewrite same_stripe)].
Qed.


Lemma count_64 : Latch.count 64 = 32768.
Proof. reflexivity. Qed.


End LatchProps.
