(* ===== verification/Provider.v ===== *)
(** * Provider: page storage behind the B+tree (src/src/page_bptree.rs, the trait
    [AsyncPageProvider] and [InMemoryPageProvider])

    The tree is generic in its storage.  The trait is a type class of operations on a
    provider state; [PageProviderLaws] states what the tree relies on, as a view of the
    provider: a finite map of pages, the next page id, the root id and the pages noted as
    dirty. *)

From stdpp Require Import base numbers gmap.
From S2P Require Import Prelude Common MetaPage Latch.

(** A read may change the provider (a cache moves the page to the front).  [latch_stripes] is
    the number of stripes of [page_latch_table]. *)
Class AsyncPageProvider (P : Type) := {
  read_page : PageId -> P -> option Page * P;
  write_page : PageId -> Page -> P -> P;
  alloc_page_id : P -> PageId * P;
  root_page_id : P -> PageId;
  set_root_page_id : PageId -> P -> P;
  latch_stripes : P -> Z
}.

(** The ids that a tree may give to its pages. *)
Class IdRange := {
  id_lo : Z;
  id_hi : Z;
  id_lo_pos : 0 < id_lo;
  id_hi_u64 : id_hi <= U64
}.

(** [pv_dirty]: the pages noted for the transaction that runs.  [pv_meta]: the page that
    holds the root id, when there is one.  [pv_rest]: what no operation changes. *)
Record pview (R : Type) := mkPview {
  pv_pages : gmap Z (list Z);
  pv_next : Z;
  pv_root : Z;
  pv_dirty : option (gmap Z (list Z));
  pv_meta : option PageId;
  pv_rest : R
}.
Arguments mkPview {R}.
Arguments pv_pages {R}.
Arguments pv_next {R}.
Arguments pv_root {R}.
Arguments pv_dirty {R}.
Arguments pv_meta {R}.
Arguments pv_rest {R}.

Definition note (id : PageId) (pg : Page) (d : option (gmap Z (list Z))) : option (gmap Z (list Z)) := <[id := pg]> <$> d.

Definition note_root (meta : option PageId) (id : PageId) (d : option (gmap Z (list Z))) : option (gmap Z (list Z)) :=
  match meta, BtreeMetaPage.btree_encode {| btree_root_page_id := id |} with
  | Some m, Ret pg => note m pg d
  | _, _ => d
  end.

Section Views.
Context {R : Type}.

Definition pv_put (id : PageId) (pg : Page) (v : pview R) : pview R :=
  mkPview (<[id := pg]> (pv_pages v)) (pv_next v) (pv_root v) (note id pg (pv_dirty v)) (pv_meta v) (pv_rest v).
Definition pv_bump (v : pview R) : pview R :=
  mkPview (pv_pages v) (wrap64 (pv_next v + 1)) (pv_root v) (pv_dirty v) (pv_meta v) (pv_rest v).
Definition pv_at_root (id : PageId) (v : pview R) : pview R :=
  mkPview (pv_pages v) (pv_next v) id (note_root (pv_meta v) id (pv_dirty v)) (pv_meta v) (pv_rest v).

End Views.

(** [provider_ok]: the provider can hold every page with an id of the range, and has a latch
    stripe for each of them. *)
Class PageProviderLaws (P : Type) `{AsyncPageProvider P} := {
  provider_rest : Type;
  view_of : P -> pview provider_rest;
  provider_ok : IdRange -> P -> Prop;
  prov_root p : root_page_id p = pv_root (view_of p);
  prov_stripes R p : provider_ok R p -> id_hi <= latch_stripes p;
  prov_read R id pg p : provider_ok R p -> pv_pages (view_of p) !! id = Some pg ->
    exists p', read_page id p = (Some pg, p') /\ provider_ok R p' /\ view_of p' = view_of p;
  prov_write R id pg p : provider_ok R p -> id_lo <= id < id_hi ->
    provider_ok R (write_page id pg p) /\ view_of (write_page id pg p) = pv_put id pg (view_of p);
  prov_alloc R p : provider_ok R p ->
    exists p', alloc_page_id p = (pv_next (view_of p), p') /\ provider_ok R p' /\ view_of p' = pv_bump (view_of p);
  prov_set_root R id p : provider_ok R p ->
    provider_ok R (set_root_page_id id p) /\ view_of (set_root_page_id id p) = pv_at_root id (view_of p)
}.

Module InMemory.

(** [pages: RefCell<HashMap<PageId, Page>>], [next_page_id], [root]. *)
Record InMemoryPageProvider := {
  pages : gmap Z (list Z);
  next_page_id : Z;
  root : Z
}.

Definition new : InMemoryPageProvider := {| pages := ∅; next_page_id := 1; root := 0 |}.

Definition page_count (p : InMemoryPageProvider) : Z := Z.of_nat (size (pages p)).

#[global] Instance in_memory_provider : AsyncPageProvider InMemoryPageProvider := {
  read_page id p := (pages p !! id, p);
  write_page id pg p := {| pages := <[id := pg]> (pages p); next_page_id := next_page_id p; root := root p |};
  alloc_page_id p :=
    (next_page_id p, {| pages := pages p; next_page_id := wrap64 (next_page_id p + 1); root := root p |});
  root_page_id p := root p;
  set_root_page_id id p := {| pages := pages p; next_page_id := next_page_id p; root := id |};
  latch_stripes _ := Latch.count DEFAULT_LATCH_SHARDS
}.

#[global] Instance in_memory_laws : PageProviderLaws InMemoryPageProvider.
Proof.
  unshelve econstructor.
  - exact unit.
  - intros p. exact (mkPview (pages p) (next_page_id p) (root p) None None tt).
  - intros R _. exact (id_hi <= Latch.count DEFAULT_LATCH_SHARDS).
  - reflexivity.
  - done.
  - intros R id pg p Ho Hp. cbn in Hp. exists p. cbn. by rewrite Hp.
  - done.
  - intros R p Ho. by eexists.
  - done.
Defined.

(** Page 0 is no page: a root of 0 is a tree that has none.  There is a latch for each id. *)
Definition in_memory_ids : IdRange.
Proof. refine {| id_lo := 1; id_hi := DEFAULT_LATCH_STRIPES |}; unfold DEFAULT_LATCH_STRIPES, U64; lia. Defined.

End InMemory.
