(* ===== verification/Cache.v ===== *)
(** * Cache: the page cache and the providers over it (src/src/page_bptree.rs, [PageCache],
    [SharedPageProvider]; src/src/txn_page_provider.rs)

    The LRU list of a shard is the crate lru: its operations are the
    class [LruCache], what its documentation says of them [LruLaws], and [ListLru] an
    instance.  The pages behind the cache are those of a state with the operation [fetch],
    the [fetcher] of the source. *)

From stdpp Require Import base numbers list list_numbers gmap fin_maps.
From S2P Require Import Prelude Common MetaPage BtreePage Latch Provider.

(** ** The LRU list of a shard *)

Class LruCache (C : Type) := {
  lru_new : Z -> C;
  lru_get : PageId -> C -> option Page * C;
  lru_put : PageId -> Page -> C -> C;
  lru_contains : PageId -> C -> bool;
  lru_pop : PageId -> C -> C;
  lru_len : C -> Z
}.

(** [lru_list]: the entries, the most recently used first.  [get] promotes an entry, [put]
    puts one in front and drops the least recently used one when there are more than the
    capacity. *)
Definition promote (id : PageId) (pg : Page) (l : list (PageId * Page)) : list (PageId * Page) :=
  (id, pg) :: filter (fun e => e.1 <> id) l.

Class LruLaws (C : Type) `{LruCache C} := {
  lru_list : C -> list (PageId * Page);
  lru_cap : C -> Z;
  lru_new_list n : lru_list (lru_new n) = [];
  lru_new_cap n : lru_cap (lru_new n) = n;
  lru_get_val id c : (lru_get id c).1 = list_to_map (M := gmap Z (list Z)) (lru_list c) !! id;
  lru_get_list id c : lru_list (lru_get id c).2 =
    match (lru_get id c).1 with Some pg => promote id pg (lru_list c) | None => lru_list c end;
  lru_get_cap id c : lru_cap (lru_get id c).2 = lru_cap c;
  lru_put_list id pg c : 0 < lru_cap c -> zlen (lru_list c) <= lru_cap c ->
    lru_list (lru_put id pg c) = take (Z.to_nat (lru_cap c)) (promote id pg (lru_list c));
  lru_put_cap id pg c : lru_cap (lru_put id pg c) = lru_cap c;
  lru_contains_val id c : lru_contains id c = bool_decide (id ∈ (lru_list c).*1);
  lru_pop_list id c : lru_list (lru_pop id c) = filter (fun e => e.1 <> id) (lru_list c);
  lru_pop_cap id c : lru_cap (lru_pop id c) = lru_cap c;
  lru_len_val c : lru_len c = zlen (lru_list c)
}.

(** ** The page cache *)

Definition DEFAULT_PAGE_CACHE_SHARDS : Z := 64.

Record PageCache (C : Type) := mkCache { shards : list C; latches : PageLatchTable }.
Arguments mkCache {C}.
Arguments shards {C}.
Arguments latches {C}.

Module PageCacheM.
Section Cache.
Context {C : Type} {L : LruCache C}.

Definition new_with_capacity (shards capacity_pages : Z) : PageCache C :=
  let count := Z.max shards 1 in
  let cap := Z.max capacity_pages 1 in
  let per := (cap + count - 1) / count in
  let per := Z.max per 1 in
  mkCache (replicate (Z.to_nat count) (lru_new per)) (Latch.new count).

Definition new (shards : Z) : PageCache C := new_with_capacity shards 8192.

Definition shard (c : PageCache C) (page_id : PageId) : nat := Z.to_nat (page_id mod zlen (shards c)).

Definition get_arc (page_id : PageId) (c : PageCache C) : option Page * PageCache C :=
  match shards c !! shard c page_id with
  | Some s => let '(p, s) := lru_get page_id s in (p, mkCache (<[shard c page_id := s]> (shards c)) (latches c))
  | None => (None, c)
  end.

Definition get (page_id : PageId) (c : PageCache C) : option Page * PageCache C := get_arc page_id c.

Definition insert_arc (page_id : PageId) (page : Page) (c : PageCache C) : PageCache C :=
  mkCache (alter (lru_put page_id page) (shard c page_id) (shards c)) (latches c).

Definition insert (page_id : PageId) (page : Page) (c : PageCache C) : PageCache C := insert_arc page_id page c.

Definition contains (page_id : PageId) (c : PageCache C) : bool :=
  match shards c !! shard c page_id with Some s => lru_contains page_id s | None => false end.

Definition remove (page_id : PageId) (c : PageCache C) : PageCache C :=
  mkCache (alter (lru_pop page_id) (shard c page_id) (shards c)) (latches c).

Definition len (c : PageCache C) : Z := foldr Z.add 0 (lru_len <$> shards c).
Definition is_empty (c : PageCache C) : bool := len c =? 0.

End Cache.
End PageCacheM.

(** ** Providers over the cache *)

Module Shared.

Record SharedPageProvider (C : Type) := mkShared { sp_pages : PageCache C; sp_next_page_id : Z; sp_root : Z }.
Arguments mkShared {C}.
Arguments sp_pages {C}.
Arguments sp_next_page_id {C}.
Arguments sp_root {C}.

Section Shared.
Context {C : Type} {L : LruCache C}.

Definition new (pages : PageCache C) (next_page_id : Z) : SharedPageProvider C := mkShared pages next_page_id 0.
Definition page_count (p : SharedPageProvider C) : Z := PageCacheM.len (sp_pages p).

#[global] Instance shared_provider : AsyncPageProvider (SharedPageProvider C) := {
  read_page id p := let '(o, c) := PageCacheM.get id (sp_pages p) in (o, mkShared c (sp_next_page_id p) (sp_root p));
  write_page id pg p := mkShared (PageCacheM.insert id pg (sp_pages p)) (sp_next_page_id p) (sp_root p);
  alloc_page_id p := (sp_next_page_id p, mkShared (sp_pages p) (wrap64 (sp_next_page_id p + 1)) (sp_root p));
  root_page_id p := sp_root p;
  set_root_page_id id p := mkShared (sp_pages p) (sp_next_page_id p) id;
  latch_stripes p := zlen (stripes (latches (sp_pages p)))
}.

End Shared.
End Shared.

(** The [fetcher] of a provider: where it finds the pages that are not in the cache. *)
Class Fetch (W : Type) := fetch : PageId -> W -> option Page * W.

Module TxnProvider.

(** [tp_dirty] is [CURRENT_TXN_DIRTY], when a transaction has set it; [tp_world] is what the
    fetcher asks. *)
Record TxnPageProvider (C W : Type) := mkTxnProvider {
  tp_pages : PageCache C;
  tp_next_page_id : Z;
  tp_root : Z;
  tp_btree_meta_page_id : PageId;
  tp_world : W;
  tp_dirty : option (gmap Z (list Z))
}.
Arguments mkTxnProvider {C W}.
Arguments tp_pages {C W}.
Arguments tp_next_page_id {C W}.
Arguments tp_root {C W}.
Arguments tp_btree_meta_page_id {C W}.
Arguments tp_world {C W}.
Arguments tp_dirty {C W}.

Section Provider.
Context {C : Type} {L : LruCache C} {W : Type} {F : Fetch W}.

Definition with_cache (c : PageCache C) (p : TxnPageProvider C W) : TxnPageProvider C W :=
  mkTxnProvider c (tp_next_page_id p) (tp_root p) (tp_btree_meta_page_id p) (tp_world p) (tp_dirty p).

Definition with_world (w : W) (p : TxnPageProvider C W) : TxnPageProvider C W :=
  mkTxnProvider (tp_pages p) (tp_next_page_id p) (tp_root p) (tp_btree_meta_page_id p) w (tp_dirty p).

(** [CURRENT_TXN_DIRTY.scope]: for the time of a call the writes are also noted here. *)
Definition with_dirty (dirty : option (gmap Z (list Z))) (p : TxnPageProvider C W) : TxnPageProvider C W :=
  mkTxnProvider (tp_pages p) (tp_next_page_id p) (tp_root p) (tp_btree_meta_page_id p) (tp_world p) dirty.

Definition new (pages : PageCache C) (next_page_id : Z) (btree_meta_page_id : PageId) (world : W) : TxnPageProvider C W :=
  mkTxnProvider pages next_page_id 0 btree_meta_page_id world None.

Definition set_next_page_id (next : PageId) (p : TxnPageProvider C W) : TxnPageProvider C W :=
  mkTxnProvider (tp_pages p) next (tp_root p) (tp_btree_meta_page_id p) (tp_world p) (tp_dirty p).

Definition next_page_id (p : TxnPageProvider C W) : PageId := tp_next_page_id p.

Definition read_page (id : PageId) (p : TxnPageProvider C W) : option Page * TxnPageProvider C W :=
  let '(o, c) := PageCacheM.get_arc id (tp_pages p) in
  let p := with_cache c p in
  match o with
  | Some page => (Some page, p)
  | None =>
      let '(o, w) := fetch id (tp_world p) in
      let p := with_world w p in
      match o with
      | Some page => (Some page, with_cache (PageCacheM.insert_arc id page (tp_pages p)) p)
      | None => (None, p)
      end
  end.

Definition write_page (id : PageId) (page : Page) (p : TxnPageProvider C W) : TxnPageProvider C W :=
  mkTxnProvider (PageCacheM.insert id page (tp_pages p)) (tp_next_page_id p) (tp_root p) (tp_btree_meta_page_id p) (tp_world p)
    (<[id := page]> <$> tp_dirty p).

(** The root is stored in its meta page like any other page. *)
Definition set_root_page_id (id : PageId) (p : TxnPageProvider C W) : TxnPageProvider C W :=
  match BtreeMetaPage.btree_encode {| btree_root_page_id := id |} with
  | Ret page =>
      write_page (tp_btree_meta_page_id p) page
        (mkTxnProvider (tp_pages p) (tp_next_page_id p) id (tp_btree_meta_page_id p) (tp_world p) (tp_dirty p))
  | _ => p
  end.

#[global] Instance txn_provider : AsyncPageProvider (TxnPageProvider C W) := {
  read_page := read_page;
  write_page := write_page;
  alloc_page_id p :=
    (tp_next_page_id p,
     mkTxnProvider (tp_pages p) (wrap64 (tp_next_page_id p + 1)) (tp_root p) (tp_btree_meta_page_id p) (tp_world p) (tp_dirty p));
  root_page_id p := tp_root p;
  set_root_page_id := set_root_page_id;
  latch_stripes p := zlen (stripes (latches (tp_pages p)))
}.

End Provider.
End TxnProvider.

Module CacheProps.

(** ** What the cache forgets *)

Section Evict.
Context {C : Type} {L : LruCache C} {LL : LruLaws C} {W : Type} {F : Fetch W}.

Lemma filter_other (k : PageId) (l : list (PageId * Page)) : k ∉ l.*1 -> filter (fun e => e.1 <> k) l = l.
Proof.
  intros Hk. induction l as [|e l IH]; [done|]. cbn in Hk. apply not_elem_of_cons in Hk as [Hne Hk].
  rewrite filter_cons_True by congruence. by rewrite IH.
Qed.

Lemma put_len c id pg : 0 < lru_cap c -> zlen (lru_list c) <= lru_cap c -> zlen (lru_list (lru_put id pg c)) <= lru_cap c.
Proof. intros H0 H1. rewrite lru_put_list by done. unfold zlen. rewrite length_take. lia. Qed.

(** After writes of distinct pages the entry written before them is behind them. *)
Lemma puts_list id pg ws : forall c,
  0 < lru_cap c -> zlen (lru_list c) <= lru_cap c -> NoDup ws.*1 -> id ∉ ws.*1 ->
  let c' := foldl (fun c w => lru_put w.1 w.2 c) (lru_put id pg c) ws in
  zlen (lru_list c') <= lru_cap c /\ lru_cap c' = lru_cap c /\
  exists tail, lru_list c' = take (Z.to_nat (lru_cap c)) (reverse ws ++ (id, pg) :: tail).
Proof.
  induction ws as [|[k q] ws IH] using rev_ind; intros c H0 Hlen Hnd Hid c'; unfold c'; clear c'.
  - cbn. split; [by apply put_len|]. split; [apply lru_put_cap|]. exists (filter (fun e => e.1 <> id) (lru_list c)).
    by rewrite lru_put_list.
  - rewrite foldl_snoc. rewrite fmap_app in Hnd, Hid. cbn in Hnd, Hid. apply NoDup_app in Hnd as (Hnd & Hk & _).
    apply not_elem_of_app in Hid as [Hid Hidk]. rewrite list_elem_of_singleton in Hidk.
    destruct (IH c H0 Hlen Hnd Hid) as (Hl & Hc & tail & Ht). set (d := foldl _ _ ws) in *. cbn [fst snd].
    assert (Hd : 0 < lru_cap d /\ zlen (lru_list d) <= lru_cap d) by (rewrite Hc; done). destruct Hd as [Hd0 Hd1].
    split; [rewrite <-Hc; by apply put_len|]. split; [by rewrite lru_put_cap|].
    rewrite lru_put_list, Hc, Ht by done. unfold promote. rewrite reverse_snoc. cbn [app].
    assert (Hkn : k ∉ (reverse ws).*1) by (rewrite fmap_reverse, elem_of_reverse; intros Hin; by apply (Hk k Hin), list_elem_of_singleton).
    destruct (decide (length (reverse ws) < Z.to_nat (lru_cap c))%nat) as [Hlt|Hge].
    + exists (filter (fun e => e.1 <> k) (take (Z.to_nat (lru_cap c) - length (reverse ws) - 1) tail)).
      rewrite take_app_ge by lia. rewrite filter_app, filter_other by done.
      destruct (Z.to_nat (lru_cap c) - length (reverse ws))%nat as [|j] eqn:Hj; [lia|]. cbn [take].
      rewrite filter_cons_True by (cbn; congruence). by rewrite Nat.sub_succ, Nat.sub_0_r.
    + exists tail. rewrite take_app_le by lia. rewrite filter_other.
      * destruct (Z.to_nat (lru_cap c)) as [|j] eqn:Hj; [lia|]. cbn [take]. f_equal. rewrite take_take, take_app_le by lia. f_equal. lia.
      * intros Hin. apply Hkn. rewrite <-(take_drop (Z.to_nat (lru_cap c)) (reverse ws)), fmap_app. by apply elem_of_app; left.
Qed.

Lemma puts_get id pg ws c :
  0 < lru_cap c -> zlen (lru_list c) <= lru_cap c -> NoDup ws.*1 -> id ∉ ws.*1 ->
  (lru_get id (foldl (fun c w => lru_put w.1 w.2 c) (lru_put id pg c) ws)).1 =
  if bool_decide (zlen ws < lru_cap c) then Some pg else None.
Proof.
  intros H0 Hlen Hnd Hid. destruct (puts_list id pg ws c H0 Hlen Hnd Hid) as (_ & _ & tail & Ht).
  rewrite lru_get_val, Ht. unfold zlen. pose proof (length_reverse ws) as Hr.
  assert (Hidr : id ∉ (reverse ws).*1) by (by rewrite fmap_reverse, elem_of_reverse).
  case_bool_decide as Hlt.
  - rewrite take_app_ge by lia. rewrite list_to_map_app.
    rewrite lookup_union_r by (by apply not_elem_of_list_to_map_1).
    destruct (Z.to_nat (lru_cap c) - length (reverse ws))%nat as [|j] eqn:Hj; [lia|]. cbn. by rewrite lookup_insert_eq.
  - rewrite take_app_le by lia. apply not_elem_of_list_to_map_1. intros Hin. apply Hidr.
    rewrite <-(take_drop (Z.to_nat (lru_cap c)) (reverse ws)), fmap_app. by apply elem_of_app; left.
Qed.

(** The shards of a cache, each with the same capacity. *)
Record cache_ok (cap : Z) (c : PageCache C) : Prop := {
  co_pos : 0 < cap;
  co_some : 0 < zlen (shards c);
  co_shards : Forall (fun s => lru_cap s = cap /\ zlen (lru_list s) <= cap) (shards c)
}.

Lemma cache_ok_new n cap : exists per, cache_ok per (PageCacheM.new_with_capacity n cap).
Proof.
  eexists. split; [|unfold zlen; cbn; rewrite length_replicate; lia|].
  2: { cbn. apply Forall_replicate. rewrite lru_new_cap, lru_new_list. split; [reflexivity|]. unfold zlen. cbn. lia. }
  lia.
Qed.

Definition same_shard (c : PageCache C) (id : PageId) (w : PageId * Page) : Prop :=
  PageCacheM.shard c w.1 = PageCacheM.shard c id.

#[global] Instance same_shard_dec c id w : Decision (same_shard c id w).
Proof. unfold same_shard. apply _. Defined.

Lemma insert_shard c k q id : PageCacheM.shard (PageCacheM.insert k q c) id = PageCacheM.shard c id.
Proof. unfold PageCacheM.shard, PageCacheM.insert, PageCacheM.insert_arc, zlen. cbn [shards]. by rewrite length_alter. Qed.

(** Only the writes to the page's own shard move its entry. *)
Lemma inserts_shard id ws : forall c s,
  shards c !! PageCacheM.shard c id = Some s ->
  let c' := foldl (fun c w => PageCacheM.insert w.1 w.2 c) c ws in
  PageCacheM.shard c' id = PageCacheM.shard c id /\
  shards c' !! PageCacheM.shard c id = Some (foldl (fun c w => lru_put w.1 w.2 c) s (filter (same_shard c id) ws)).
Proof.
  induction ws as [|[k q] ws IH]; intros c s Hs; [done|]. cbn [foldl fst snd].
  assert (Hf : filter (same_shard (PageCacheM.insert k q c) id) ws = filter (same_shard c id) ws).
  { apply list_filter_iff. intros w. unfold same_shard. by rewrite !insert_shard. }
  assert (Hk : shards (PageCacheM.insert k q c) !! PageCacheM.shard (PageCacheM.insert k q c) id =
    Some (if decide (same_shard c id (k, q)) then lru_put k q s else s)).
  { rewrite insert_shard. unfold PageCacheM.insert, PageCacheM.insert_arc, same_shard. cbn [shards fst].
    case_decide as He; [rewrite He, list_lookup_alter_eq|rewrite list_lookup_alter_ne by done]; by rewrite Hs. }
  destruct (IH _ _ Hk) as [H1 H2]. rewrite insert_shard in H1, H2. split; [done|]. rewrite H2, Hf, filter_cons.
  by case_decide.
Qed.

Lemma with_cache_writes ws : forall p : TxnProvider.TxnPageProvider C W,
  let p' := foldl (fun p w => TxnProvider.write_page w.1 w.2 p) p ws in
  TxnProvider.tp_pages p' = foldl (fun c w => PageCacheM.insert w.1 w.2 c) (TxnProvider.tp_pages p) ws /\
  TxnProvider.tp_world p' = TxnProvider.tp_world p.
Proof. induction ws as [|w ws IH]; intros p; [done|]. cbn [foldl]. destruct (IH (TxnProvider.write_page w.1 w.2 p)) as [H1 H2]. by rewrite H1, H2. Qed.

(** C28: a page that a transaction has written is read back from the cache as long as
    fewer other pages of its shard than the shard's capacity are written after it; with more,
    a read fetches the page the storage nodes have, and the transaction does not see its own
    write. *)
Theorem written_page_kept_until_capacity cap (p : TxnProvider.TxnPageProvider C W) id pg ws :
  cache_ok cap (TxnProvider.tp_pages p) ->
  let others := filter (same_shard (TxnProvider.tp_pages p) id) ws in
  NoDup others.*1 -> id ∉ others.*1 ->
  (TxnProvider.read_page id (foldl (fun p w => TxnProvider.write_page w.1 w.2 p) (TxnProvider.write_page id pg p) ws)).1 =
  if bool_decide (zlen others < cap) then Some pg else (fetch id (TxnProvider.tp_world p)).1.
Proof.
  intros [Hpos Hsome Hsh] others Hnd Hid.
  destruct (with_cache_writes ws (TxnProvider.write_page id pg p)) as [Hp Hf]. set (p' := foldl _ _ ws) in *.
  assert (exists s, shards (TxnProvider.tp_pages p) !! PageCacheM.shard (TxnProvider.tp_pages p) id = Some s) as [s Hs].
  { apply lookup_lt_is_Some. unfold PageCacheM.shard. pose proof (Z.mod_pos_bound id _ Hsome). unfold zlen in *. lia. }
  destruct (Forall_lookup_1 _ _ _ _ Hsh Hs) as [Hcap Hlen].
  destruct (inserts_shard id ((id, pg) :: ws) (TxnProvider.tp_pages p) s Hs) as [H1 H2].
  cbn [foldl fst snd] in H1, H2. rewrite filter_cons_True in H2 by done. cbn [foldl fst snd] in H2.
  fold others in H2. cbn [TxnProvider.write_page TxnProvider.tp_pages TxnProvider.tp_world] in Hp, Hf. rewrite <-Hp in H1, H2.
  unfold TxnProvider.read_page, PageCacheM.get_arc. rewrite H1, H2.
  pose proof (puts_get id pg others s) as Hg. rewrite Hcap in Hg. specialize (Hg Hpos ltac:(lia) Hnd Hid).
  destruct (lru_get id _) as [o s'] eqn:E. cbn [fst] in Hg. subst o. case_bool_decide; [done|].
  unfold TxnProvider.with_cache. cbn [TxnProvider.tp_world]. rewrite Hf. by destruct (fetch id (TxnProvider.tp_world p)) as [[] ?].
Qed.

End Evict.

(** The crate's cache on lists. *)
Record ListLru := mkListLru { ll_list : list (PageId * Page); ll_cap : Z }.

#[global] Instance list_lru : LruCache ListLru := {
  lru_new n := mkListLru [] n;
  lru_get id c :=
    match list_to_map (M := gmap Z (list Z)) (ll_list c) !! id with
    | Some pg => (Some pg, mkListLru (promote id pg (ll_list c)) (ll_cap c))
    | None => (None, c)
    end;
  lru_put id pg c := mkListLru (take (Z.to_nat (ll_cap c)) (promote id pg (ll_list c))) (ll_cap c);
  lru_contains id c := bool_decide (id ∈ (ll_list c).*1);
  lru_pop id c := mkListLru (filter (fun e => e.1 <> id) (ll_list c)) (ll_cap c);
  lru_len c := zlen (ll_list c)
}.

#[global] Program Instance list_lru_laws : LruLaws ListLru := { lru_list := ll_list; lru_cap := ll_cap }.
Solve All Obligations with
  (try done; intros; cbn; destruct (list_to_map (M := gmap Z (list Z)) (ll_list _) !! _) eqn:E; cbn; rewrite ?E; done).

(** Pages behind the cache that all look the same. *)
#[local] Instance same_pages : Fetch Page := fun _ pg => (Some pg, pg).

(** One shard of capacity 2: page 7 survives one write after it and not two. *)
Lemma written_page_kept_until_capacity_witness :
  let p := TxnProvider.new (PageCacheM.new_with_capacity (C := ListLru) 1 2) 100 1 [9] in
  (TxnProvider.read_page 7 (TxnProvider.write_page 8 [2] (TxnProvider.write_page 7 [1] p))).1 = Some [1] /\
  (TxnProvider.read_page 7 (TxnProvider.write_page 10 [3] (TxnProvider.write_page 8 [2] (TxnProvider.write_page 7 [1] p)))).1 = Some [9].
Proof.
  intros p. assert (Hok : cache_ok 2 (TxnProvider.tp_pages p)).
  { split; [lia| |]; unfold p, PageCacheM.new_with_capacity; cbn [TxnProvider.new TxnProvider.tp_pages shards].
    - unfold zlen. rewrite length_replicate. lia.
    - apply Forall_replicate. split; [reflexivity|unfold zlen; cbn; lia]. }
  assert (Hall : forall w, same_shard (TxnProvider.tp_pages p) 7 w).
  { intros w. unfold same_shard, PageCacheM.shard. change (zlen (shards (TxnProvider.tp_pages p))) with 1. by rewrite !Z.mod_1_r. }
  assert (Hfil : forall ws : list (PageId * Page), filter (same_shard (TxnProvider.tp_pages p) 7) ws = ws).
  { intros ws. induction ws as [|w ws IH]; [done|]. by rewrite filter_cons_True, IH. }
  split.
  - pose proof (written_page_kept_until_capacity 2 p 7 [1] [(8, [2])] Hok) as H. cbv zeta in H. rewrite Hfil in H.
    apply H; apply (bool_decide_unpack _); reflexivity.
  - pose proof (written_page_kept_until_capacity 2 p 7 [1] [(8, [2]); (10, [3])] Hok) as H. cbv zeta in H. rewrite Hfil in H.
    apply H; apply (bool_decide_unpack _); reflexivity.
Defined.

End CacheProps.
