(* ===== verification/CacheLaws.v ===== *)
(** * CacheLaws: what the page cache holds

    [cached c] are the pages that [PageCache] of src/src/page_bptree.rs returns.  As long as
    [cache_ok] leaves room in every shard, an insertion adds its page and evicts none, and
    a look-up only changes the order of the list. *)

From stdpp Require Import base numbers list list_numbers gmap fin_maps.
From S2P Require Import Prelude Common MetaPage BtreePage Latch Provider Cache.

Abbreviation pmap := (gmap Z (list Z)) (only parsing).

Lemma list_to_map_other (l : list (PageId * Page)) id j :
  j <> id -> (list_to_map (filter (fun e => e.1 <> id) l) : pmap) !! j = (list_to_map l : pmap) !! j.
Proof.
  intros Hj. induction l as [|[k p] l IH]; [done|]. rewrite filter_cons. case_decide as Hk; cbn in Hk |- *.
  - destruct (decide (k = j)) as [->|]; [by rewrite !lookup_insert_eq|by rewrite !lookup_insert_ne].
  - subst k. by rewrite lookup_insert_ne.
Qed.

Lemma promote_lookup id pg l j :
  (list_to_map (promote id pg l) : pmap) !! j = if decide (j = id) then Some pg else (list_to_map l : pmap) !! j.
Proof.
  unfold promote. cbn. case_decide as Hj; [subst; apply lookup_insert_eq|].
  rewrite lookup_insert_ne by done. by apply list_to_map_other.
Qed.

Lemma promote_keys id pg l j : j ∈ (promote id pg l).*1 <-> j = id \/ j ∈ l.*1.
Proof.
  unfold promote. cbn. rewrite elem_of_cons, !list_elem_of_fmap. setoid_rewrite list_elem_of_filter.
  destruct (decide (j = id)) as [->|Hj]; [tauto|]. naive_solver.
Qed.

Lemma promote_nodup id pg l : NoDup l.*1 -> NoDup (promote id pg l).*1.
Proof.
  intros Hl. unfold promote. cbn. apply NoDup_cons. split.
  - rewrite list_elem_of_fmap. intros ([k p] & -> & [Hk _]%list_elem_of_filter). done.
  - eapply sublist_NoDup; [exact Hl|]. apply fmap_sublist, sublist_filter.
Qed.

Lemma in_keys (l : list (PageId * Page)) id : id ∈ l.*1 <-> is_Some ((list_to_map l : pmap) !! id).
Proof.
  destruct ((list_to_map l : pmap) !! id) as [pg|] eqn:E.
  - apply elem_of_list_to_map_2 in E. split; [by eexists|]. intros _. apply list_elem_of_fmap. by exists (id, pg).
  - apply not_elem_of_list_to_map in E. split; [done|]. by intros [? ?].
Qed.

Lemma filter_absent (id : PageId) (l : list PageId) : id ∉ l -> filter (fun j => j <> id) l = l.
Proof.
  induction l as [|j l IH]; [done|]. intros [Hj Hl]%not_elem_of_cons. rewrite filter_cons_True by congruence. by rewrite IH.
Qed.

Lemma list_alter_lookup {A} (f : A -> A) i (l : list A) x : l !! i = Some x -> alter f i l = <[i := f x]> l.
Proof.
  intros Hx. apply list_eq. intros j. destruct (decide (j = i)) as [->|].
  - rewrite list_lookup_alter_eq, Hx, list_lookup_insert_eq by (by eapply lookup_lt_Some). done.
  - by rewrite list_lookup_alter_ne, list_lookup_insert_ne.
Qed.

Section Cached.
Context {C : Type} {L : LruCache C} {LL : LruLaws C}.

Definition cached (c : PageCache C) (id : PageId) : option Page :=
  s ← shards c !! PageCacheM.shard c id; (list_to_map (lru_list s) : pmap) !! id.

(** The same as a map. *)
Definition cached_map (c : PageCache C) : pmap :=
  map_imap (fun id _ => cached c id) (list_to_map (mjoin (lru_list <$> shards c)) : pmap).

Lemma cached_map_lookup c id : cached_map c !! id = cached c id.
Proof.
  unfold cached_map. rewrite map_lookup_imap. destruct (cached c id) as [pg|] eqn:E; [|by destruct (_ !! id)].
  assert (is_Some ((list_to_map (mjoin (lru_list <$> shards c)) : pmap) !! id)) as [? ->]; [|done].
  unfold cached in E. apply bind_Some in E as (s & Hs & Hp). apply in_keys. apply elem_of_list_to_map_2 in Hp.
  apply list_elem_of_fmap. exists (id, pg). split; [done|]. apply list_elem_of_join. exists (lru_list s). split; [done|].
  apply list_elem_of_fmap. exists s. split; [done|]. by eapply list_elem_of_lookup_2.
Qed.

(** The pages that [reserved] may come to the cache, and [k] more. *)
Record shard_ok (reserved : PageId -> Prop) (k : Z) (c : PageCache C) (i : nat) (s : C) : Prop := {
  so_nodup : NoDup (lru_list s).*1;
  so_cap : 0 < lru_cap s;
  so_keys : forall id, id ∈ (lru_list s).*1 -> PageCacheM.shard c id = i;
  so_room : forall l, NoDup l -> (forall id, id ∈ l -> PageCacheM.shard c id = i /\ (id ∈ (lru_list s).*1 \/ reserved id)) ->
    zlen l + k <= lru_cap s
}.

Record cache_ok (reserved : PageId -> Prop) (k : Z) (c : PageCache C) : Prop := {
  co_some : 0 < zlen (shards c);
  co_shards : forall i s, shards c !! i = Some s -> shard_ok reserved k c i s
}.

Lemma shard_lt (c : PageCache C) id : 0 < zlen (shards c) -> is_Some (shards c !! PageCacheM.shard c id).
Proof.
  intros Hc. apply lookup_lt_is_Some_2. unfold PageCacheM.shard.
  pose proof (Z.mod_pos_bound id (zlen (shards c)) Hc). unfold zlen in *. lia.
Qed.

Lemma shard_same (c : PageCache C) i s l id : PageCacheM.shard (mkCache (<[i := s]> (shards c)) l) id = PageCacheM.shard c id.
Proof. unfold PageCacheM.shard. cbn. by rewrite zlen_insert. Qed.

Lemma cache_ok_less reserved k c : cache_ok reserved (k + 1) c -> cache_ok reserved k c.
Proof.
  intros [Hs Hc]. split; [done|]. intros i s Hi. destruct (Hc i s Hi) as [H1 H2 H3 H4]. split; try done.
  intros l Hl Hin. pose proof (H4 l Hl Hin). lia.
Qed.

Lemma cache_ok_reserved (r r' : PageId -> Prop) k c : (forall id, r' id -> r id) -> cache_ok r k c -> cache_ok r' k c.
Proof.
  intros Hr [Hs Hc]. split; [done|]. intros i s Hi. destruct (Hc i s Hi) as [H1 H2 H3 H4]. split; try done.
  intros l Hl Hin. apply H4; [done|]. intros id Hid. destruct (Hin id Hid) as [? [?|?]]; auto.
Qed.

(** A shard replaced by one with the same pages, or with one page more. *)
Lemma cache_replace reserved k k' c i s s' l :
  cache_ok reserved k c -> shards c !! i = Some s -> NoDup (lru_list s').*1 -> lru_cap s' = lru_cap s -> k' <= k ->
  (forall id, id ∈ (lru_list s').*1 -> PageCacheM.shard c id = i) ->
  (forall id, id ∈ (lru_list s').*1 -> id ∈ (lru_list s).*1 \/ reserved id) \/
  (k' <= k - 1 /\ exists new, forall id, id ∈ (lru_list s').*1 -> id ∈ (lru_list s).*1 \/ id = new) ->
  cache_ok reserved k' (mkCache (<[i := s']> (shards c)) l).
Proof.
  intros [Hs Hc] Hi Hnd Hcap Hk Hkeys Hnew. split; [cbn; by rewrite zlen_insert|]. intros j r Hj. cbn in Hj.
  destruct (decide (j = i)) as [->|Hne].
  - rewrite list_lookup_insert_eq in Hj by (by eapply lookup_lt_Some). injection Hj as <-. destruct (Hc i s Hi) as [H1 H2 H3 H4].
    split; [done|lia| |].
    + intros id Hid. rewrite shard_same. by apply Hkeys.
    + intros l' Hl' Hin. setoid_rewrite shard_same in Hin. rewrite Hcap. destruct Hnew as [Hnew|(Hk' & new & Hnew)].
      * enough (zlen l' + k <= lru_cap s) by lia. apply H4; [done|]. intros id Hid. destruct (Hin id Hid) as [? [?|?]]; auto.
      * assert (Hf : zlen (filter (fun id => id <> new) l') + k <= lru_cap s).
        { apply H4; [by apply NoDup_filter|]. intros id [Hne Hid]%list_elem_of_filter. destruct (Hin id Hid) as [? [Hx|?]]; [|by auto].
          split; [done|]. left. by destruct (Hnew id Hx). }
        assert (length l' <= length (filter (fun id => id <> new) l') + 1)%nat; [|unfold zlen in *; lia].
        clear -Hl'. induction l' as [|x l IH]; [cbn; lia|]. apply NoDup_cons in Hl' as [Hx Hl]. rewrite filter_cons. case_decide as Hd; cbn.
        -- specialize (IH Hl). lia.
        -- subst x. rewrite filter_absent by done. lia.
  - rewrite list_lookup_insert_ne in Hj by done. destruct (Hc j r Hj) as [H1 H2 H3 H4]. split; [done|done| |].
    + intros id Hid. rewrite shard_same. by apply H3.
    + intros l' Hl' Hin. setoid_rewrite shard_same in Hin. pose proof (H4 l' Hl' Hin). lia.
Qed.

Lemma cached_replace (c : PageCache C) i s' l j :
  shards c !! i <> None -> cached (mkCache (<[i := s']> (shards c)) l) j =
    if decide (PageCacheM.shard c j = i) then (list_to_map (lru_list s') : pmap) !! j else cached c j.
Proof.
  intros Hi. unfold cached. rewrite shard_same. cbn [shards]. case_decide as E.
  - subst. rewrite list_lookup_insert_eq; [done|]. apply lookup_lt_is_Some_1. by apply not_eq_None_Some.
  - by rewrite list_lookup_insert_ne.
Qed.

Lemma get_ok reserved k c id :
  cache_ok reserved k c ->
  exists c', PageCacheM.get_arc id c = (cached c id, c') /\ cache_ok reserved k c' /\ forall j, cached c' j = cached c j.
Proof.
  intros Hok. destruct (shard_lt c id (co_some _ _ _ Hok)) as [s Hs]. unfold PageCacheM.get_arc. rewrite Hs.
  destruct (lru_get id s) as [o s'] eqn:Eg. pose proof (lru_get_val id s) as Hv. pose proof (lru_get_list id s) as Hl.
  pose proof (lru_get_cap id s) as Hc. rewrite Eg in Hv, Hl, Hc. cbn in Hv, Hl, Hc.
  destruct (co_shards _ _ _ Hok _ _ Hs) as [H1 H2 H3 H4].
  assert (Hcid : cached c id = o) by (unfold cached; by rewrite Hs, Hv). rewrite Hcid.
  assert (Hlook : forall j, (list_to_map (lru_list s') : pmap) !! j = (list_to_map (lru_list s) : pmap) !! j).
  { intros j. rewrite Hl. destruct o as [pg|]; [|done]. rewrite promote_lookup. case_decide; [by subst|done]. }
  assert (Hkeys : forall j, j ∈ (lru_list s').*1 <-> j ∈ (lru_list s).*1) by (intros j; by rewrite !in_keys, Hlook).
  eexists. split; [reflexivity|]. split.
  - eapply cache_replace; [exact Hok|exact Hs| |done|lia| |].
    + rewrite Hl. destruct o; [by apply promote_nodup|done].
    + intros j Hj. by apply H3, Hkeys.
    + left. intros j Hj. left. by apply Hkeys.
  - intros j. rewrite cached_replace by congruence. case_decide as E; [|done]. unfold cached. by rewrite E, Hs, Hlook.
Qed.

(** [room]: the page is there, or expected, or one of the [k]. *)
Lemma insert_ok reserved k k' c id pg :
  cache_ok reserved k c -> 0 <= k' <= k -> (is_Some (cached c id) \/ reserved id \/ k' <= k - 1) ->
  cache_ok reserved k' (PageCacheM.insert_arc id pg c) /\
  forall j, cached (PageCacheM.insert_arc id pg c) j = if decide (j = id) then Some pg else cached c j.
Proof.
  intros Hok Hk Hroom. destruct (shard_lt c id (co_some _ _ _ Hok)) as [s Hs].
  destruct (co_shards _ _ _ Hok _ _ Hs) as [H1 H2 H3 H4].
  assert (Hlen : zlen (lru_list s) <= lru_cap s).
  { replace (zlen (lru_list s)) with (zlen (lru_list s).*1) by (unfold zlen; by rewrite length_fmap).
    enough (zlen (lru_list s).*1 + k <= lru_cap s) by lia. apply H4; [done|]. intros j Hj. split; [by apply H3|by left]. }
  assert (Hkeys : forall j, j ∈ (promote id pg (lru_list s)).*1 -> PageCacheM.shard c j = PageCacheM.shard c id).
  { intros j [->|Hj]%promote_keys; [done|by apply H3]. }
  assert (Hnew : (forall j, j ∈ (promote id pg (lru_list s)).*1 -> j ∈ (lru_list s).*1 \/ reserved j) \/
    (k' <= k - 1 /\ exists new, forall j, j ∈ (promote id pg (lru_list s)).*1 -> j ∈ (lru_list s).*1 \/ j = new)).
  { destruct Hroom as [Hc|[Hr|Hc]].
    - left. intros j [->|Hj]%promote_keys; [|by left]. left. unfold cached in Hc. rewrite Hs in Hc. by apply in_keys.
    - left. intros j [->|Hj]%promote_keys; [by right|by left].
    - right. split; [done|]. exists id. intros j [->|Hj]%promote_keys; [by right|by left]. }
  pose proof (promote_nodup id pg _ H1) as Hnd.
  assert (Hfit : zlen (promote id pg (lru_list s)) <= lru_cap s).
  { replace (zlen (promote id pg (lru_list s))) with (zlen (promote id pg (lru_list s)).*1) by (unfold zlen; by rewrite length_fmap).
    destruct Hnew as [Hnew|(Hk' & new & Hnew)].
    - enough (zlen (promote id pg (lru_list s)).*1 + k <= lru_cap s) by lia. apply H4; [done|]. intros j Hj. split; [by apply Hkeys|by apply Hnew].
    - pose proof (zlen_cons id (filter (fun e => e.1 <> id) (lru_list s)).*1) as Hz.
      enough (zlen (filter (fun e => e.1 <> id) (lru_list s)).*1 + k <= lru_cap s) by (unfold promote; cbn; lia).
      apply NoDup_cons in Hnd as [_ Hnd]. apply H4; [done|]. intros j (e & -> & [_ He]%list_elem_of_filter)%list_elem_of_fmap.
      assert (e.1 ∈ (lru_list s).*1) by (apply list_elem_of_fmap; by exists e). split; [by apply H3|by left]. }
  assert (Hput : lru_list (lru_put id pg s) = promote id pg (lru_list s)).
  { rewrite lru_put_list by done. apply take_ge. unfold zlen in Hfit. lia. }
  assert (Hins : PageCacheM.insert_arc id pg c = mkCache (<[PageCacheM.shard c id := lru_put id pg s]> (shards c)) (latches c)).
  { unfold PageCacheM.insert_arc. f_equal. by apply list_alter_lookup. }
  rewrite Hins. split.
  - eapply cache_replace; [exact Hok|exact Hs| |apply lru_put_cap|lia| |]; rewrite Hput; done.
  - intros j. rewrite cached_replace by congruence. rewrite Hput, promote_lookup. case_decide as E.
    + case_decide; [done|]. unfold cached. by rewrite E, Hs.
    + case_decide as Ej; [by subst|done].
Qed.

End Cached.
