(* ===== verification/Btree.v ===== *)
(** * Btree: the operations of the B+tree (src/src/page_bptree.rs,
    [impl PageBPlusTree])

    The methods of the tree as state-passing code over a page provider, in the order of
    the file: lookups, [insert], [remove] with its rebalancing and repair passes, range
    scans and splits.  A method is run by one caller at a time here, so that the latches
    taken at any point are those it holds itself: they are the argument [held] of an
    acquisition, in the order of the code's guards, and an acquisition that has to wait for
    one of them waits for ever, which is [Spin].  [loop]s take fuel; bounded [for] loops have
    the bounds of the code. *)

From stdpp Require Import base numbers list list_numbers gmap.
From S2P Require Import Prelude Common SlottedPage BtreePage Latch Provider.

Record PageBPlusTree (P : Type) := { provider : P; len : Z }.
Arguments provider {P} _.
Arguments len {P} _.

Module Btree.
Import Bp.

Section Tree.
Context {P : Type} `{AsyncPageProvider P}.

Abbreviation T := (st (PageBPlusTree P) Error) (only parsing).

(** ** The provider calls of a method *)

Definition read (id : PageId) : T (option Page) := fun t =>
  let '(pg, p) := read_page id (provider t) in (Ret pg, {| provider := p; len := len t |}).
Definition write (id : PageId) (pg : Page) : T unit := fun t =>
  (Ret tt, {| provider := write_page id pg (provider t); len := len t |}).
Definition alloc : T PageId := fun t =>
  let '(id, p) := alloc_page_id (provider t) in (Ret id, {| provider := p; len := len t |}).
Definition get_root : T PageId := fun t => (Ret (root_page_id (provider t)), t).
Definition set_root (id : PageId) : T unit := fun t =>
  (Ret tt, {| provider := set_root_page_id id (provider t); len := len t |}).
(** [self.len.fetch_add(1)] and [fetch_update(|v| Some(v.saturating_sub(1)))]. *)
Definition len_incr : T unit := fun t =>
  (Ret tt, {| provider := provider t; len := wrap64 (len t + 1) |}).
Definition len_decr : T unit := fun t =>
  (Ret tt, {| provider := provider t; len := sat_sub (len t) 1 |}).

(** ** Latches *)

Definition latch (permits : Z) (held : list held_latch) (id : PageId) : T unit := fun t =>
  if permits <=? permits_left (latch_stripes (provider t)) held id then (Ret tt, t) else (Spin, t).
Definition acquire_read_latch : list held_latch -> PageId -> T unit := latch 1.
Definition acquire_write_latch : list held_latch -> PageId -> T unit := latch LATCH_STRIPE_PERMITS.

(** [read_page(id).await.ok_or(Error::InvalidPageSize(id as usize, PAGE_SIZE))?] *)
Definition read_or (id : PageId) : T Page :=
  pg ← read id; lift (ok_or pg (InvalidPageSize id PAGE_SIZE)).

(** [new_with_provider]: the tree with an empty leaf as root. *)
Definition new_with_provider (p : P) : outcome Error (PageBPlusTree P) :=
  let '(root_id, p) := alloc_page_id p in
  pg ← new_page PAGE_TYPE_LEAF 0;
  Ret {| provider := set_root_page_id root_id (write_page root_id pg p); len := 0 |}.

Definition with_provider (p : P) : PageBPlusTree P := {| provider := p; len := 0 |}.

Definition is_empty (t : PageBPlusTree P) : bool := len t =? 0.

(** ** Lookups *)

(** The inner [for _ in 0..MAX_SCAN_LEAF_HOPS] of [find_leaf_for_read], which holds the read
    latch of [current]. *)
Fixpoint descend (hops : nat) (key : bytes) (current : PageId) : T (ctl PageId) :=
  match hops with
  | O => mret Leave
  | S hops =>
      pg ← read current;
      match pg with
      | None => mret Leave
      | Some page =>
          header ← lift (page_header page);
          if page_type header =? PAGE_TYPE_LEAF then mret (Return current) else
          pos ← lift (child_insert_pos_for_key page header key);
          child ← lift (child_id_at_pos page header pos);
          _ ← acquire_read_latch [read_held current] child;
          descend hops key child
      end
  end.

Fixpoint find_leaf_retry (retries : nat) (key : bytes) : T (option PageId) :=
  match retries with
  | O => mret None
  | S retries =>
      current ← get_root;
      _ ← acquire_read_latch [] current;
      r ← descend (Z.to_nat MAX_SCAN_LEAF_HOPS) key current;
      match r with
      | Return leaf => mret (Some leaf)
      | Leave => find_leaf_retry retries key
      end
  end.

Definition find_leaf_for_read (key : bytes) : T (option PageId) :=
  find_leaf_retry (Z.to_nat MAX_TRAVERSAL_RETRIES) key.

(** The guard of the right-link step: the key is past the high key and there is a next
    leaf. *)
Definition past_high_key (header : PageHeader) (key : bytes) : option PageId :=
  match high_key header with
  | Some hk => if bytes_ltb hk key then next_leaf header else None
  | None => None
  end.

(** The inner [for _ in 0..MAX_RIGHT_LINK_HOPS] of [get]. *)
Fixpoint get_hops (hops : nat) (key : bytes) (leaf_id : PageId) : T (ctl (option LeafValue)) :=
  match hops with
  | O => mret Leave
  | S hops =>
      _ ← acquire_read_latch [] leaf_id;
      pg ← read leaf_id;
      match pg with
      | None => mret (Return None)
      | Some page =>
          header ← lift (page_header page);
          if negb (page_type header =? PAGE_TYPE_LEAF) then mret Leave else
          match past_high_key header key with
          | Some next => if next =? leaf_id then mret Leave else get_hops hops key next
          | None => r ← lift (find_in_leaf page key); mret (Return r)
          end
      end
  end.

Fixpoint get_retry (retries : nat) (key : bytes) : T (option LeafValue) :=
  match retries with
  | O => mret None
  | S retries =>
      leaf ← find_leaf_for_read key;
      match leaf with
      | None => mret None
      | Some leaf_id =>
          r ← get_hops (Z.to_nat MAX_RIGHT_LINK_HOPS) key leaf_id;
          match r with
          | Return v => mret v
          | Leave => get_retry retries key
          end
      end
  end.

Definition get (key : bytes) : T (option LeafValue) :=
  get_retry (Z.to_nat MAX_TRAVERSAL_RETRIES) key.

(** ** Splits *)

(** The split shared by the root and by a child: both halves with the leaf links. *)
Definition split_page (header : PageHeader) (page : Page) (entries : list entry) :
    outcome Error (bytes * (Page * Page)) :=
  if page_type header =? PAGE_TYPE_LEAF then split_leaf page entries else split_internal page entries.

Definition link_leaves (header : PageHeader) (page : Page) (id right_id : PageId)
    (left_page right_page : Page) : outcome Error (Page * Page) :=
  if page_type header =? PAGE_TYPE_LEAF then
    old_header ← leaf_page_header page;
    left_header ← leaf_page_header left_page;
    left_page ← write_header left_page
      (with_prev (with_next left_header (Some right_id)) (prev_leaf old_header));
    right_header ← leaf_page_header right_page;
    right_page ← write_header right_page
      (with_next (with_prev right_header (Some id)) (next_leaf old_header));
    Ret (left_page, right_page)
  else Ret (left_page, right_page).

(** Called with the write latch of [ROOT_LATCH_PAGE_ID] held. *)
Definition ensure_root_not_full : T unit :=
  root_id ← get_root;
  _ ← acquire_write_latch [write_held ROOT_LATCH_PAGE_ID] root_id;
  root ← read_or root_id;
  root_header ← lift (page_header root);
  if negb (page_is_full_for_insert root_header) then mret tt else
  entries ← lift (collect_entries root);
  right_id ← alloc;
  '(separator, (left_page, right_page)) ← lift (split_page root_header root entries);
  '(left_page, right_page) ← lift (link_leaves root_header root root_id right_id left_page right_page);
  _ ← write root_id left_page;
  _ ← write right_id right_page;
  new_root ← lift (new_page PAGE_TYPE_INTERNAL (Z.min (level root_header + 1) 255));
  new_root_header ← lift (page_header new_root);
  new_root ← lift (encode_entries new_root [(separator, encode_child_id right_id)]
                     (with_left new_root_header root_id));
  new_root_id ← alloc;
  _ ← write new_root_id new_root;
  set_root new_root_id.

(** [Vec::insert]: panics past the end. *)
Definition vec_insert {A} (i : Z) (x : A) (l : list A) : outcome Error (list A) :=
  if i <=? zlen l then Ret (take (Z.to_nat i) l ++ x :: drop (Z.to_nat i) l) else Panic.

Definition split_child_and_update_parent (parent_id : PageId) (parent_page : Page)
    (parent_header : PageHeader) (child_id : PageId) (child_page : Page)
    (child_header : PageHeader) (child_pos : Z) : T (bytes * PageId) :=
  entries ← lift (collect_entries child_page);
  right_id ← alloc;
  '(separator, (left_page, right_page)) ← lift (split_page child_header child_page entries);
  '(left_page, right_page) ←
    lift (link_leaves child_header child_page child_id right_id left_page right_page);
  _ ← write child_id left_page;
  _ ← write right_id right_page;
  parent_entries ← lift (collect_entries parent_page);
  parent_entries ← lift (vec_insert child_pos (separator, encode_child_id right_id) parent_entries);
  parent_page_buf ← lift (encode_entries parent_page parent_entries parent_header);
  _ ← write parent_id parent_page_buf;
  mret (separator, right_id).

(** ** Insertion *)

(** The leaf case of the [loop]: overwrite in place or rebuild with the new entry. *)
Definition insert_in_leaf (current_id : PageId) (current_page : Page) (current_header : PageHeader)
    (key encoded : bytes) : T unit :=
  r ← lift (find_key_pos current_page key);
  let '(found, pos) := default (false, 0) r in
  if found : bool then
    o ← lift (entry_offset_at current_page pos);
    offset ← lift (ok_or o (InvalidPageSize pos PAGE_SIZE));
    let value_offset := offset + KEY_SIZE in
    page ← lift (put_range current_page value_offset (value_offset + LEAF_VALUE_SIZE) encoded);
    write current_id page
  else
    rebuilt ← lift (rebuild_page_with_insert current_page current_header pos key encoded);
    _ ← write current_id rebuilt;
    len_incr.

(** The [loop], which holds the write latch of [current_id]. *)
Fixpoint insert_loop (fuel : nat) (key encoded : bytes) (current_id : PageId) : T unit :=
  match fuel with
  | O => lift Spin
  | S fuel =>
      current_page ← read_or current_id;
      current_header ← lift (page_header current_page);
      if page_type current_header =? PAGE_TYPE_LEAF
      then insert_in_leaf current_id current_page current_header key encoded
      else
        child_pos ← lift (child_insert_pos_for_key current_page current_header key);
        child_id ← lift (child_id_at_pos current_page current_header child_pos);
        _ ← acquire_write_latch [write_held current_id] child_id;
        child_page ← read_or child_id;
        child_header ← lift (page_header child_page);
        if page_is_full_for_insert child_header then
          if negb (page_has_room_for_one_more current_header)
          then throw (InvalidPageSize current_id PAGE_SIZE)
          else
            '(separator, right_id) ← split_child_and_update_parent current_id current_page
               current_header child_id child_page child_header child_pos;
            if bytes_leb separator key then
              _ ← acquire_write_latch [write_held child_id; write_held current_id] right_id;
              insert_loop fuel key encoded right_id
            else insert_loop fuel key encoded child_id
        else insert_loop fuel key encoded child_id
  end.

Definition insert (fuel : nat) (key : bytes) (leaf_value : LeafValue) : T unit :=
  if negb (zlen key =? KEY_SIZE) then throw (InvalidKeySize (zlen key) KEY_SIZE) else
  let encoded := encode_leaf_value leaf_value in
  _ ← acquire_write_latch [] ROOT_LATCH_PAGE_ID;
  _ ← ensure_root_not_full;
  current_id ← get_root;
  _ ← acquire_write_latch [write_held ROOT_LATCH_PAGE_ID] current_id;
  insert_loop fuel key encoded current_id.

(** ** Repairs after a deletion *)

(** [entries[i].0 = k]: panics out of range. *)
Definition set_key (entries : list entry) (i : Z) (k : bytes) : outcome Error (list entry) :=
  e ← get_at entries i; put_at entries i (k, e.2).

(** [Vec::remove]: the removed element and the rest; panics out of range. *)
Definition vec_remove {A} (i : Z) (l : list A) : outcome Error (A * list A) :=
  x ← get_at l i; Ret (x, delete (Z.to_nat i) l).

(** [Vec::pop]. *)
Definition vec_pop {A} (l : list A) : option (A * list A) :=
  match last l with Some x => Some (x, take (length l - 1) l) | None => None end.

(** Rewrite the high key in the header of a leaf, if the page is there. *)
Definition set_leaf_high_key (held : list held_latch) (id : PageId) (hk : option bytes) : T unit :=
  _ ← acquire_write_latch held id;
  pg ← read id;
  match pg with
  | None => mret tt
  | Some page =>
      header ← lift (leaf_page_header page);
      page ← lift (write_header page (with_high header hk));
      write id page
  end.

Fixpoint collapse_loop (fuel : nat) : T unit :=
  match fuel with
  | O => lift Spin
  | S fuel =>
      root_id ← get_root;
      _ ← acquire_write_latch [write_held ROOT_LATCH_PAGE_ID] root_id;
      pg ← read root_id;
      match pg with
      | None => mret tt
      | Some root =>
          header ← lift (page_header root);
          if (page_type header =? PAGE_TYPE_INTERNAL) && (key_count header =? 0) &&
             negb (left_child header =? 0)
          then _ ← set_root (left_child header); collapse_loop fuel
          else mret tt
      end
  end.

Definition maybe_collapse_root_after_delete (fuel : nat) : T unit :=
  _ ← acquire_write_latch [] ROOT_LATCH_PAGE_ID; collapse_loop fuel.

(** The search of [child_id] among the children of the parent, from position [idx]. *)
Fixpoint find_child_pos (page : bytes) (header : PageHeader) (child_id : PageId) (idxs : list Z) :
    outcome Error (option Z) :=
  match idxs with
  | [] => Ret None
  | idx :: idxs =>
      c ← child_id_at_pos page header idx;
      if c =? child_id then Ret (Some idx) else find_child_pos page header child_id idxs
  end.

Definition repair_parent_separator_after_leaf_first_key_change (parent_id : PageId) (hint_pos : Z)
    (child_id : PageId) (new_first_key : bytes) : T unit :=
  _ ← acquire_write_latch [] parent_id;
  pg ← read parent_id;
  match pg with
  | None => mret tt
  | Some parent_page =>
      parent_header ← lift (page_header parent_page);
      if negb (page_type parent_header =? PAGE_TYPE_INTERNAL) || (key_count parent_header =? 0)
      then mret tt else
      hit ← lift (if hint_pos <=? key_count parent_header
                  then c ← child_id_at_pos parent_page parent_header hint_pos; Ret (c =? child_id)
                  else Ret false);
      pos ← lift (if hit : bool then Ret (Some hint_pos)
                  else find_child_pos parent_page parent_header child_id
                         (seqZ 0 (key_count parent_header + 1)));
      match pos with
      | None => mret tt
      | Some child_pos =>
          if child_pos =? 0 then mret tt else
          parent_entries ← lift (collect_entries parent_page);
          parent_entries ← lift (set_key parent_entries (child_pos - 1) new_first_key);
          left_id ← lift (child_id_at_pos parent_page parent_header (child_pos - 1));
          parent_page ← lift (encode_entries parent_page parent_entries parent_header);
          _ ← write parent_id parent_page;
          set_leaf_high_key [write_held parent_id] left_id (key_to_high_key new_first_key)
      end
  end.

(** The first key of a page, if it is there and has one. *)
Definition first_key_of (id : PageId) : T (option bytes) :=
  pg ← read id;
  match pg with
  | None => mret None
  | Some page => lift (entry_key_at page 0)
  end.

Definition repair_leaf_boundary_after_delete (leaf_id : PageId) : T unit :=
  _ ← acquire_write_latch [] leaf_id;
  pg ← read leaf_id;
  match pg with
  | None => mret tt
  | Some leaf_page =>
      leaf_header ← lift (leaf_page_header leaf_page);
      if negb (page_type leaf_header =? PAGE_TYPE_LEAF) then mret tt else
      leaf_first ← lift (entry_key_at leaf_page 0);
      next_first ← match next_leaf leaf_header with
                   | Some next_id => first_key_of next_id
                   | None => mret None
                   end;
      leaf_page ← lift (write_header leaf_page (with_high leaf_header (next_first ≫= key_to_high_key)));
      _ ← write leaf_id leaf_page;
      match prev_leaf leaf_header, leaf_first with
      | Some prev_id, Some first_key =>
          _ ← acquire_write_latch [] prev_id;
          pg ← read prev_id;
          match pg with
          | None => mret tt
          | Some prev_page =>
              prev_header ← lift (leaf_page_header prev_page);
              if (page_type prev_header =? PAGE_TYPE_LEAF) &&
                 bool_decide (next_leaf prev_header = Some leaf_id)
              then
                prev_page ← lift (write_header prev_page (with_high prev_header (key_to_high_key first_key)));
                write prev_id prev_page
              else mret tt
          end
      | _, _ => mret tt
      end
  end.

(** The descent to the leftmost leaf in [refresh_leaf_high_keys]; [None] is its early
    return on a missing page. *)
Fixpoint leftmost (hops : nat) (current : PageId) : T (option PageId) :=
  match hops with
  | O => mret (Some current)
  | S hops =>
      _ ← acquire_read_latch [] current;
      pg ← read current;
      match pg with
      | None => mret None
      | Some page =>
          header ← lift (page_header page);
          if page_type header =? PAGE_TYPE_LEAF then mret (Some current)
          else leftmost hops (left_child header)
      end
  end.

Fixpoint refresh_loop (hops : nat) (current : PageId) : T unit :=
  match hops with
  | O => mret tt
  | S hops =>
      _ ← acquire_write_latch [] current;
      pg ← read current;
      match pg with
      | None => mret tt
      | Some leaf_page =>
          leaf_header ← lift (leaf_page_header leaf_page);
          if negb (page_type leaf_header =? PAGE_TYPE_LEAF) then mret tt else
          let next := next_leaf leaf_header in
          first ← match next with
                  | Some next_id => first_key_of next_id
                  | None => mret None
                  end;
          let new_hk := first ≫= key_to_high_key in
          _ ← (if bool_decide (high_key leaf_header = new_hk) then mret tt
               else
                 page ← lift (write_header leaf_page (with_high leaf_header new_hk));
                 write current page);
          match next with
          | None => mret tt
          | Some next_id => if next_id =? current then mret tt else refresh_loop hops next_id
          end
      end
  end.

Definition refresh_leaf_high_keys : T unit :=
  root ← get_root;
  l ← leftmost (Z.to_nat MAX_SCAN_LEAF_HOPS) root;
  match l with
  | None => mret tt
  | Some current => refresh_loop (Z.to_nat MAX_SCAN_LEAF_HOPS) current
  end.

(** ** Deletion *)

(** Where the [loop] of [remove] goes after it has fixed the next child: the page to
    continue at and the hint [(parent_id, position)]. *)
Abbreviation next_step := (PageId * (PageId * Z))%type (only parsing).

(** Borrow from the left sibling.  The rebuilt child is a local buffer that is not
    written back. *)
Definition borrow_left (current_id : PageId) (current_page : Page) (current_header : PageHeader)
    (child_pos : Z) (descend_id : PageId) (child_page : Page) (child_header : PageHeader)
    (left_id : PageId) (left_page : Page) (parent_entries : list entry) : T next_step :=
  left_entries ← lift (collect_entries left_page);
  child_entries ← lift (collect_entries child_page);
  parent_entries ←
    (if page_type child_header =? PAGE_TYPE_LEAF then
       '(borrowed, left_entries) ←
         lift (ok_or (vec_pop left_entries) (InvalidPageSize left_id PAGE_SIZE));
       let child_entries := borrowed :: child_entries in
       let new_sep := borrowed.1 in
       parent_entries ← lift (set_key parent_entries (child_pos - 1) new_sep);
       lh ← lift (leaf_page_header left_page);
       let left_header_new := with_high lh (key_to_high_key new_sep) in
       ch ← lift (leaf_page_header child_page);
       let child_header_new := with_prev ch (Some left_id) in
       _ ← lift (encode_entries child_page child_entries child_header_new);
       left_rebuilt ← lift (encode_entries left_page left_entries left_header_new);
       _ ← write left_id left_rebuilt;
       mret parent_entries
     else
       let sep_idx := child_pos - 1 in
       '(parent_sep, _) ← lift (get_at parent_entries sep_idx);
       '((up_key, up_right_child), left_entries) ←
         lift (ok_or (vec_pop left_entries) (InvalidPageSize left_id PAGE_SIZE));
       let old_left := left_child child_header in
       new_left ← lift (decode_child_id up_right_child);
       let child_header := with_left child_header new_left in
       let child_entries := (parent_sep, encode_child_id old_left) :: child_entries in
       parent_entries ← lift (set_key parent_entries sep_idx up_key);
       lh ← lift (page_header left_page);
       let left_header_new := with_high lh (key_to_high_key up_key) in
       left_rebuilt ← lift (encode_entries left_page left_entries left_header_new);
       _ ← lift (encode_entries child_page child_entries child_header);
       _ ← write left_id left_rebuilt;
       mret parent_entries);
  parent_rebuilt ← lift (encode_entries current_page parent_entries current_header);
  _ ← write current_id parent_rebuilt;
  mret (descend_id, (current_id, child_pos)).

(** Borrow from the right sibling; again the rebuilt child is not written back. *)
Definition borrow_right (current_id : PageId) (current_page : Page) (current_header : PageHeader)
    (child_pos : Z) (descend_id : PageId) (child_page : Page) (child_header : PageHeader)
    (right_id : PageId) (right_page : Page) (right_header : PageHeader)
    (parent_entries : list entry) : T next_step :=
  right_entries ← lift (collect_entries right_page);
  child_entries ← lift (collect_entries child_page);
  parent_entries ←
    (if page_type child_header =? PAGE_TYPE_LEAF then
       '(borrowed, right_entries) ← lift (vec_remove 0 right_entries);
       let child_entries := child_entries ++ [borrowed] in
       '(new_sep, _) ← lift (get_at right_entries 0);
       parent_entries ← lift (set_key parent_entries child_pos new_sep);
       ch ← lift (leaf_page_header child_page);
       let child_header_new := with_high ch (key_to_high_key new_sep) in
       rh ← lift (leaf_page_header right_page);
       let right_header_new := with_prev rh (Some descend_id) in
       _ ← lift (encode_entries child_page child_entries child_header_new);
       right_rebuilt ← lift (encode_entries right_page right_entries right_header_new);
       _ ← write right_id right_rebuilt;
       mret parent_entries
     else
       let sep_idx := child_pos in
       '(parent_sep, _) ← lift (get_at parent_entries sep_idx);
       '(promoted, right_entries) ← lift (vec_remove 0 right_entries);
       let old_left_of_right := left_child right_header in
       new_left ← lift (decode_child_id promoted.2);
       let right_header_new := with_left right_header new_left in
       let child_entries := child_entries ++ [(parent_sep, encode_child_id old_left_of_right)] in
       parent_entries ← lift (set_key parent_entries sep_idx promoted.1);
       let child_header_new := with_high child_header (key_to_high_key promoted.1) in
       right_rebuilt ← lift (encode_entries right_page right_entries right_header_new);
       _ ← lift (encode_entries child_page child_entries child_header_new);
       _ ← write right_id right_rebuilt;
       mret parent_entries);
  parent_rebuilt ← lift (encode_entries current_page parent_entries current_header);
  _ ← write current_id parent_rebuilt;
  mret (descend_id, (current_id, child_pos)).

(** Merge the right sibling into the child. *)
Definition merge_right (current_id : PageId) (current_page : Page) (current_header : PageHeader)
    (child_pos : Z) (descend_id : PageId) (child_page : Page) (child_header : PageHeader)
    (right_page : Page) (right_header : PageHeader) (parent_entries : list entry) : T next_step :=
  child_entries ← lift (collect_entries child_page);
  right_entries ← lift (collect_entries right_page);
  child_page ←
    (if page_type child_header =? PAGE_TYPE_LEAF then
       ch ← lift (leaf_page_header child_page);
       lift (encode_entries child_page (child_entries ++ right_entries)
               (with_high (with_next ch (next_leaf right_header)) (high_key right_header)))
     else
       '(sep, _) ← lift (get_at parent_entries child_pos);
       lift (encode_entries child_page
               (child_entries ++ [(sep, encode_child_id (left_child right_header))] ++ right_entries)
               (with_high child_header (high_key right_header))));
  '(_, parent_entries) ← lift (vec_remove child_pos parent_entries);
  parent_rebuilt ← lift (encode_entries current_page parent_entries current_header);
  _ ← write current_id parent_rebuilt;
  _ ← write descend_id child_page;
  mret (descend_id, (current_id, child_pos)).

(** Merge the child into its left sibling. *)
Definition merge_left (current_id : PageId) (current_page : Page) (current_header : PageHeader)
    (child_pos : Z) (descend_id : PageId) (child_page : Page) (child_header : PageHeader)
    (parent_entries : list entry) : T next_step :=
  left_id ← lift (child_id_at_pos current_page current_header (child_pos - 1));
  _ ← acquire_write_latch [write_held descend_id; write_held current_id] left_id;
  left_page ← read_or left_id;
  left_entries ← lift (collect_entries left_page);
  child_entries ← lift (collect_entries child_page);
  left_page ←
    (if page_type child_header =? PAGE_TYPE_LEAF then
       lh ← lift (leaf_page_header left_page);
       lift (encode_entries left_page (left_entries ++ child_entries)
               (with_high (with_next lh (next_leaf child_header)) (high_key child_header)))
     else
       '(sep, _) ← lift (get_at parent_entries (child_pos - 1));
       lh ← lift (page_header left_page);
       lift (encode_entries left_page
               (left_entries ++ [(sep, encode_child_id (left_child child_header))] ++ child_entries)
               (with_high lh (high_key child_header))));
  '(_, parent_entries) ← lift (vec_remove (child_pos - 1) parent_entries);
  parent_rebuilt ← lift (encode_entries current_page parent_entries current_header);
  _ ← write current_id parent_rebuilt;
  _ ← write left_id left_page;
  mret (left_id, (current_id, child_pos - 1)).

(** [if child_header.key_count as usize <= min_keys { .. }]: [None] when no branch of the
    block [continue]s.  The latches of the page and of the child are held; that of the left
    sibling is dropped before the right one is asked for. *)
Definition rebalance (current_id : PageId) (current_page : Page) (current_header : PageHeader)
    (child_pos : Z) (descend_id : PageId) (child_page : Page) (child_header : PageHeader) :
    T (option next_step) :=
  let min_keys := min_keys_non_root (page_type child_header) in
  if min_keys <? key_count child_header then mret None else
  parent_entries ← lift (collect_entries current_page);
  from_left ←
    (if 0 <? child_pos then
       left_id ← lift (child_id_at_pos current_page current_header (child_pos - 1));
       _ ← acquire_write_latch [write_held descend_id; write_held current_id] left_id;
       left_page ← read_or left_id;
       left_header ← lift (page_header left_page);
       if min_keys <? key_count left_header then
         r ← borrow_left current_id current_page current_header child_pos descend_id child_page
               child_header left_id left_page parent_entries;
         mret (Some r)
       else mret None
     else mret None);
  match from_left with
  | Some r => mret (Some r)
  | None =>
      if child_pos <? key_count current_header then
        right_id ← lift (child_id_at_pos current_page current_header (child_pos + 1));
        _ ← acquire_write_latch [write_held descend_id; write_held current_id] right_id;
        right_page ← read_or right_id;
        right_header ← lift (page_header right_page);
        r ← (if min_keys <? key_count right_header
             then borrow_right current_id current_page current_header child_pos descend_id child_page
                    child_header right_id right_page right_header parent_entries
             else merge_right current_id current_page current_header child_pos descend_id child_page
                    child_header right_page right_header parent_entries);
        mret (Some r)
      else if 0 <? child_pos then
        r ← merge_left current_id current_page current_header child_pos descend_id child_page child_header
              parent_entries;
        mret (Some r)
      else mret None
  end.

(** The leaf case at the current page: the key is removed here. *)
Definition remove_here (fuel : nat) (key : bytes) (current_id : PageId) (current_page : Page)
    (current_header : PageHeader) (parent_hint : option (PageId * Z)) : T unit :=
  r ← lift (find_key_pos current_page key);
  let '(found, pos) := default (false, 0) r in
  if found : bool then
    rebuilt ← lift (rebuild_page_with_remove current_page current_header pos);
    new_first ← lift (if pos =? 0 then entry_key_at rebuilt 0 else Ret None);
    _ ← write current_id rebuilt;
    _ ← len_decr;
    _ ← match parent_hint, new_first with
        | Some (parent_id, hint_pos), Some new_first_key =>
            repair_parent_separator_after_leaf_first_key_change parent_id hint_pos current_id new_first_key
        | _, _ => mret tt
        end;
    _ ← repair_leaf_boundary_after_delete current_id;
    _ ← refresh_leaf_high_keys;
    maybe_collapse_root_after_delete fuel
  else maybe_collapse_root_after_delete fuel.

(** The leaf case at the child of the current page (it had enough keys). *)
Definition remove_in_child (fuel : nat) (key : bytes) (current_id : PageId) (current_page : Page)
    (current_header : PageHeader) (child_pos : Z) (descend_id : PageId) (child_page : Page)
    (child_header : PageHeader) : T unit :=
  r ← lift (find_key_pos child_page key);
  let '(found, pos) := default (false, 0) r in
  _ ← (if found : bool then
         rebuilt ← lift (rebuild_page_with_remove child_page child_header pos);
         _ ← write descend_id rebuilt;
         first ← lift (if (0 <? child_pos) && (pos =? 0) then entry_key_at rebuilt 0 else Ret None);
         _ ← match first with
             | None => mret tt
             | Some new_first =>
                 parent_entries ← lift (collect_entries current_page);
                 parent_entries ← lift (set_key parent_entries (child_pos - 1) new_first);
                 parent_rebuilt ← lift (encode_entries current_page parent_entries current_header);
                 _ ← write current_id parent_rebuilt;
                 left_id ← lift (child_id_at_pos current_page current_header (child_pos - 1));
                 set_leaf_high_key [write_held descend_id; write_held current_id] left_id (key_to_high_key new_first)
             end;
         _ ← len_decr;
         _ ← repair_leaf_boundary_after_delete descend_id;
         refresh_leaf_high_keys
       else mret tt);
  maybe_collapse_root_after_delete fuel.

(** The [loop], which holds the write latch of [current_id]. *)
Fixpoint remove_loop (fuel : nat) (key : bytes) (current_id : PageId)
    (parent_hint : option (PageId * Z)) : T unit :=
  match fuel with
  | O => lift Spin
  | S fuel =>
      pg ← read current_id;
      match pg with
      | None => mret tt
      | Some current_page =>
          current_header ← lift (page_header current_page);
          if page_type current_header =? PAGE_TYPE_LEAF
          then remove_here fuel key current_id current_page current_header parent_hint
          else
            child_pos ← lift (child_insert_pos_for_key current_page current_header key);
            descend_id ← lift (child_id_at_pos current_page current_header child_pos);
            _ ← acquire_write_latch [write_held current_id] descend_id;
            child_page ← read_or descend_id;
            child_header ← lift (page_header child_page);
            r ← rebalance current_id current_page current_header child_pos descend_id child_page child_header;
            match r with
            | Some (next_id, hint) => remove_loop fuel key next_id (Some hint)
            | None =>
                if page_type child_header =? PAGE_TYPE_LEAF
                then remove_in_child fuel key current_id current_page current_header child_pos
                       descend_id child_page child_header
                else remove_loop fuel key descend_id (Some (current_id, child_pos))
            end
      end
  end.

Definition remove (fuel : nat) (key : bytes) : T unit :=
  if negb (zlen key =? KEY_SIZE) then throw (InvalidKeySize (zlen key) KEY_SIZE) else
  _ ← acquire_write_latch [] ROOT_LATCH_PAGE_ID;
  current_id ← get_root;
  _ ← acquire_write_latch [write_held ROOT_LATCH_PAGE_ID] current_id;
  remove_loop fuel key current_id None.

(** ** Range scans

    [range_visit] and [range_visit_meta] are the same loops over two ways to decode a
    row; [row] is that decoding and [f] the visitor, with its captured state [A] and its
    [bool] result. *)

Section Visit.
Context {R A : Type}.
Variable row : bytes -> Z -> outcome Error (option R).
Variable f : A -> bytes -> R -> A * bool.

(** The [while idx < key_count] of a leaf: [Return] is the [return] of the whole scan. *)
Fixpoint visit_entries (page end_ : bytes) (idxs : list Z) (acc : A) : outcome Error (A * ctl unit) :=
  match idxs with
  | [] => Ret (acc, Leave)
  | idx :: idxs =>
      ok ← entry_key_at page idx;
      match ok with
      | None => Ret (acc, Leave)
      | Some key =>
          if bytes_ltb end_ key then Ret (acc, Return tt) else
          orow ← row page idx;
          match orow with
          | None => Ret (acc, Leave)
          | Some r =>
              let '(acc, more) := f acc key r in
              if negb more then Ret (acc, Return tt) else visit_entries page end_ idxs acc
          end
      end
  end.

(** [for _ in 0..MAX_SCAN_LEAF_HOPS]. *)
Fixpoint visit_leaves (hops : nat) (start end_ : bytes) (leaf_id : PageId) (first : bool)
    (visited : gset Z) (acc : A) : T (A * ctl unit) :=
  match hops with
  | O => mret (acc, Leave)
  | S hops =>
      if bool_decide (leaf_id ∈ visited) then mret (acc, Leave) else
      let visited := {[leaf_id]} ∪ visited in
      _ ← acquire_read_latch [] leaf_id;
      pg ← read leaf_id;
      match pg with
      | None => mret (acc, Leave)
      | Some page =>
          header ← lift (leaf_page_header page);
          if negb (page_type header =? PAGE_TYPE_LEAF) then mret (acc, Leave) else
          match past_high_key header start with
          | Some next =>
              if next =? leaf_id then mret (acc, Leave)
              else visit_leaves hops start end_ next first visited acc
          | None =>
              idx ← lift (if first then lower_bound_in_leaf page start else Ret 0);
              '(acc, c) ← lift (visit_entries page end_ (seqZ idx (key_count header - idx)) acc);
              match c with
              | Return _ => mret (acc, Return tt)
              | Leave =>
                  match next_leaf header with
                  | None => mret (acc, Return tt)
                  | Some next =>
                      if next =? leaf_id then mret (acc, Leave)
                      else visit_leaves hops start end_ next false visited acc
                  end
              end
          end
      end
  end.

(** [for _ in 0..MAX_TRAVERSAL_RETRIES]: the visitor's state survives a retry. *)
Fixpoint visit_retry (retries : nat) (start end_ : bytes) (acc : A) : T A :=
  match retries with
  | O => mret acc
  | S retries =>
      leaf ← find_leaf_for_read start;
      match leaf with
      | None => mret acc
      | Some leaf_id =>
          '(acc, c) ← visit_leaves (Z.to_nat MAX_SCAN_LEAF_HOPS) start end_ leaf_id true ∅ acc;
          match c with
          | Return _ => mret acc
          | Leave => visit_retry retries start end_ acc
          end
      end
  end.

Definition visit (start end_ : bytes) (acc : A) : T A :=
  visit_retry (Z.to_nat MAX_TRAVERSAL_RETRIES) start end_ acc.
End Visit.

(** The row of [range_visit]. *)
Definition row_ref (page : bytes) (idx : Z) : outcome Error (option LeafValue) :=
  b ← entry_value_bounds page idx;
  match b with
  | None => Ret None
  | Some (value_offset, _) => decode_leaf_value_ref page value_offset
  end.

(** The row of [range_visit_meta]. *)
Definition row_meta (page : bytes) (idx : Z) : outcome Error (option LeafValueMeta) :=
  ov ← entry_value_at page idx;
  match ov with
  | None => Ret None
  | Some value => m ← decode_leaf_value_meta value; Ret (Some m)
  end.

Definition range_visit {A} (start end_ : bytes) (f : A -> bytes -> LeafValue -> A * bool) (acc : A) : T A :=
  visit row_ref f start end_ acc.

Definition range_visit_meta {A} (start end_ : bytes) (f : A -> bytes -> LeafValueMeta -> A * bool)
    (acc : A) : T A :=
  visit row_meta f start end_ acc.

Definition range (start end_ : bytes) : T (list (bytes * LeafValue)) :=
  range_visit start end_ (fun out k v => (out ++ [(k, v)], true)) [].

Definition range_meta (start end_ : bytes) : T (list (bytes * LeafValueMeta)) :=
  range_visit_meta start end_ (fun out k v => (out ++ [(k, v)], true)) [].

(** The debugging dumps of one leaf. *)
Fixpoint leaf_keys (page : bytes) (idxs : list Z) : outcome Error (list bytes) :=
  match idxs with
  | [] => Ret []
  | idx :: idxs =>
      ok ← entry_key_at page idx;
      ks ← leaf_keys page idxs;
      Ret (match ok with Some k => k :: ks | None => ks end)
  end.

Definition debug_leaf_keys (key : bytes) (limit : Z) : T (list bytes) :=
  leaf ← find_leaf_for_read key;
  match leaf with
  | None => mret []
  | Some leaf_id =>
      pg ← read leaf_id;
      match pg with
      | None => mret []
      | Some page =>
          header ← lift (page_header page);
          if negb (page_type header =? PAGE_TYPE_LEAF) then mret []
          else lift (leaf_keys page (seqZ 0 (Z.min (key_count header) limit)))
      end
  end.

Definition debug_leaf_entries (key : bytes) (limit : Z) : T (list entry) :=
  leaf ← find_leaf_for_read key;
  match leaf with
  | None => mret []
  | Some leaf_id =>
      pg ← read leaf_id;
      match pg with
      | None => mret []
      | Some page =>
          header ← lift (page_header page);
          if negb (page_type header =? PAGE_TYPE_LEAF) then mret []
          else lift (collect_from page (seqZ 0 (Z.min (key_count header) limit)))
      end
  end.

End Tree.
End Btree.
