(* ===== verification/BtreeInv.v ===== *)
(** * BtreeInv: what the pages of a well-formed B+tree are

    The invariant behind the theorems about src/src/page_bptree.rs.  [tree ps n id lo hi f
    nx fp kvs] says that, in the pages [ps], the subtree at page [id] has height [n], keys
    in [lo, hi), leftmost leaf [f], a last leaf linked to [nx], pages [fp] and entries
    [kvs] in key order; [forest] says the same of the children of an internal page.  The
    file has the structural lemmas: framing, bounds, order, taking a child out and putting
    something back in its place, splitting and joining. *)

From stdpp Require Import base numbers list list_numbers gmap fin_maps.
From S2P Require Import Prelude Common SlottedPage BtreePage Latch Provider.
Import Bp BpSpec.

Abbreviation pagemap := (gmap Z (list Z)) (only parsing).

(** ** Bounds *)

Definition ge_lo (lo : option bytes) (k : bytes) : Prop :=
  match lo with Some l => bytes_le l k | None => True end.
Definition gt_lo (lo : option bytes) (k : bytes) : Prop :=
  match lo with Some l => bytes_lt l k | None => True end.
Definition lt_hi (k : bytes) (hi : option bytes) : Prop :=
  match hi with Some h => bytes_lt k h | None => True end.

Lemma gt_ge_lo lo k : gt_lo lo k -> ge_lo lo k.
Proof. destruct lo; [apply bytes_lt_le|done]. Qed.

Lemma ge_lo_trans lo k k' : ge_lo lo k -> bytes_le k k' -> ge_lo lo k'.
Proof. destruct lo; [apply bytes_le_trans|done]. Qed.

Lemma gt_lo_trans lo k k' : ge_lo lo k -> bytes_lt k k' -> gt_lo lo k'.
Proof. destruct lo; [apply bytes_le_lt_trans|done]. Qed.

Lemma lt_hi_trans k k' hi : bytes_le k k' -> lt_hi k' hi -> lt_hi k hi.
Proof. destruct hi; [apply bytes_le_lt_trans|done]. Qed.

(** ** Pages as nodes *)

Definition node (ps : pagemap) (id : PageId) (h : PageHeader) (es : list entry) : Prop :=
  exists p, ps !! id = Some p /\ rep p h es.

Lemma node_frame ps ps' id h es : node ps id h es -> ps' !! id = ps !! id -> node ps' id h es.
Proof. intros (p & Hp & Hr) E. exists p. by rewrite E. Qed.

Lemma node_insert ps id p h es : rep p h es -> node (<[id := p]> ps) id h es.
Proof. intros. exists p. by rewrite lookup_insert_eq. Qed.

(** The high key of a leaf is no less than the upper bound of its keys. *)
Definition high_ok (h : PageHeader) (hi : option bytes) : Prop :=
  forall k, high_key h = Some k -> exists u, hi = Some u /\ bytes_le u k.

Section Tree.
Context {R : IdRange}.

Definition id_in (c : PageId) : Prop := id_lo <= c < id_hi.

Lemma id_in_u64 c : id_in c -> 0 < c < U64.
Proof. unfold id_in. pose proof id_lo_pos. pose proof id_hi_u64. lia. Qed.

Inductive tree (ps : pagemap) : nat -> PageId -> option bytes -> option bytes ->
    PageId -> option PageId -> list PageId -> list entry -> Prop :=
| tree_leaf id h es lo hi nx :
    node ps id h es -> page_type h = PAGE_TYPE_LEAF -> sorted es ->
    (forall e, e ∈ es -> ge_lo lo e.1 /\ lt_hi e.1 hi) ->
    high_ok h hi -> next_leaf h = nx -> id_in id ->
    tree ps 0 id lo hi id nx [id] es
| tree_node n id h es lo hi f nx fp kvs :
    node ps id h es -> page_type h = PAGE_TYPE_INTERNAL -> 1 <= zlen es -> id_in id ->
    forest ps n lo hi (left_child h) es f nx fp kvs ->
    tree ps (S n) id lo hi f nx (id :: fp) kvs
with forest (ps : pagemap) : nat -> option bytes -> option bytes -> PageId -> list entry ->
    PageId -> option PageId -> list PageId -> list entry -> Prop :=
| forest_one n c lo hi f nx fp kvs :
    tree ps n c lo hi f nx fp kvs -> forest ps n lo hi c [] f nx fp kvs
| forest_cons n c c' k es lo hi f f' nx fp fp' kvs kvs' :
    gt_lo lo k -> lt_hi k hi ->
    tree ps n c lo (Some k) f (Some f') fp kvs ->
    forest ps n (Some k) hi c' es f' nx fp' kvs' ->
    forest ps n lo hi c ((k, le_bytes 8 c') :: es) f nx (fp ++ fp') (kvs ++ kvs').

Scheme tree_mut := Minimality for tree Sort Prop
  with forest_mut := Minimality for forest Sort Prop.
Combined Scheme tree_forest_ind from tree_mut, forest_mut.

(** ** Framing: a tree only depends on its own pages *)

Lemma tree_forest_frame ps :
  (forall n id lo hi f nx fp kvs, tree ps n id lo hi f nx fp kvs ->
     forall ps', (forall i, i ∈ fp -> ps' !! i = ps !! i) -> tree ps' n id lo hi f nx fp kvs) /\
  (forall n lo hi c es f nx fp kvs, forest ps n lo hi c es f nx fp kvs ->
     forall ps', (forall i, i ∈ fp -> ps' !! i = ps !! i) -> forest ps' n lo hi c es f nx fp kvs).
Proof.
  apply (tree_forest_ind ps).
  - intros. eapply tree_leaf; eauto. eapply node_frame; [done|]. set_solver.
  - intros. eapply tree_node; eauto; [eapply node_frame; [done|]; set_solver|].
    match goal with H : forall ps', _ |- _ => apply H end. set_solver.
  - intros. eapply forest_one. eauto.
  - intros. eapply forest_cons; eauto;
      match goal with H : forall ps', _ -> _ ps' _ _ _ _ _ _ _ _ |- tree _ _ _ _ _ _ _ _ _ => apply H
                    | H : forall ps', _ -> forest ps' _ _ _ _ _ _ _ _ _ |- _ => apply H end; set_solver.
Qed.

Definition tree_frame ps n id lo hi f nx fp kvs ps' H := proj1 (tree_forest_frame ps) n id lo hi f nx fp kvs H ps'.
Definition forest_frame ps n lo hi c es f nx fp kvs ps' H :=
  proj2 (tree_forest_frame ps) n lo hi c es f nx fp kvs H ps'.

(** ** Bounds of the entries *)

Lemma tree_forest_bounds ps :
  (forall n id lo hi f nx fp kvs, tree ps n id lo hi f nx fp kvs ->
     forall e, e ∈ kvs -> ge_lo lo e.1 /\ lt_hi e.1 hi) /\
  (forall n lo hi c es f nx fp kvs, forest ps n lo hi c es f nx fp kvs ->
     forall e, e ∈ kvs -> ge_lo lo e.1 /\ lt_hi e.1 hi).
Proof.
  apply (tree_forest_ind ps); try done.
  intros n c c' k es lo hi f f' nx fp fp' kvs kvs' Hlo Hhi _ IH _ IH' e [He|He]%elem_of_app.
  - destruct (IH e He) as [? Hk]. split; [done|]. cbn in Hk. by eapply lt_hi_trans; [apply bytes_lt_le|].
  - destruct (IH' e He) as [Hk ?]. split; [|done]. cbn in Hk.
    eapply ge_lo_trans; [by apply gt_ge_lo|done].
Qed.

Lemma sorted_app es1 es2 :
  sorted es1 -> sorted es2 -> (forall a b, a ∈ es1 -> b ∈ es2 -> bytes_lt a.1 b.1) -> sorted (es1 ++ es2).
Proof.
  intros H1 H2 H i j a b Hij Ha Hb.
  apply lookup_app_Some in Ha as [Ha|[? Ha]], Hb as [Hb|[? Hb]].
  - by apply (H1 i j).
  - apply H; by eapply list_elem_of_lookup_2.
  - apply lookup_lt_Some in Hb. lia.
  - apply (H2 (i - length es1)%nat (j - length es1)%nat); [lia|done|done].
Qed.

Lemma tree_forest_sorted ps :
  (forall n id lo hi f nx fp kvs, tree ps n id lo hi f nx fp kvs -> sorted kvs) /\
  (forall n lo hi c es f nx fp kvs, forest ps n lo hi c es f nx fp kvs -> sorted kvs).
Proof.
  apply (tree_forest_ind ps); try done.
  intros n c c' k es lo hi f f' nx fp fp' kvs kvs' Hlo Hhi Ht IH Hf IH'.
  apply sorted_app; [done|done|]. intros a b Ha Hb.
  destruct (proj1 (tree_forest_bounds ps) _ _ _ _ _ _ _ _ Ht a Ha) as [_ H1].
  destruct (proj2 (tree_forest_bounds ps) _ _ _ _ _ _ _ _ _ Hf b Hb) as [H2 _].
  by eapply bytes_lt_le_trans.
Qed.

(** Separators are in order and strictly inside the bounds. *)
Lemma forest_seps ps n lo hi c es f nx fp kvs :
  forest ps n lo hi c es f nx fp kvs ->
  sorted es /\ forall e, e ∈ es -> gt_lo lo e.1 /\ lt_hi e.1 hi.
Proof.
  induction 1 as [|n c c' k es lo hi f f' nx fp fp' kvs kvs' Hlo Hhi _ Hf [IHs IHb]]; [split; [done|set_solver]|].
  split.
  - intros i j a b Hij Ha Hb. destruct i as [|i], j as [|j]; cbn in Ha, Hb; [lia| |lia|].
    + injection Ha as <-. cbn. apply list_elem_of_lookup_2 in Hb. apply (IHb b Hb).
    + apply (IHs i j); [lia|done|done].
  - intros e [->|He]%elem_of_cons; [done|]. destruct (IHb e He) as [Hk ?]. split; [|done].
    cbn in Hk. eapply gt_lo_trans; [by apply gt_ge_lo|done].
Qed.

(** Every page of a tree has a valid id; a tree of height [n] has at least [2^n] pages. *)
Lemma tree_forest_ids ps :
  (forall n id lo hi f nx fp kvs, tree ps n id lo hi f nx fp kvs ->
     id_in id /\ id ∈ fp /\ id_in f /\ 2 ^ Z.of_nat n <= zlen fp) /\
  (forall n lo hi c es f nx fp kvs, forest ps n lo hi c es f nx fp kvs ->
     id_in c /\ c ∈ fp /\ id_in f /\ 2 ^ Z.of_nat n * (zlen es + 1) <= zlen fp).
Proof.
  apply (tree_forest_ind ps).
  - intros. split_and!; [done|set_solver|done|]. unfold zlen. simpl length. lia.
  - intros n id h es lo hi f nx fp kvs _ _ Hn Hid _ (? & ? & ? & Hl).
    split_and!; [done|set_solver|done|]. rewrite zlen_cons, Nat2Z.inj_succ, Z.pow_succ_r by lia. nia.
  - intros n c lo hi f nx fp kvs _ (? & ? & ? & ?). split_and!; try done.
    change (zlen (@nil entry)) with 0. lia.
  - intros n c c' k es lo hi f f' nx fp fp' kvs kvs' _ _ _ (? & ? & ? & ?) _ (? & ? & ? & ?).
    split_and!; try done; [set_solver|]. rewrite zlen_app, zlen_cons. lia.
Qed.

(** ** The chain of leaves

    [chain ps lo hi nx ids kvs nx'] follows the right links from [nx] to [nx'] through the
    leaves [ids], which hold [kvs] and cover the keys from [lo] to [hi]. *)

Definition lohi (lo hi : option bytes) : Prop := forall h, hi = Some h -> gt_lo lo h.

Inductive chain (ps : pagemap) : option bytes -> option bytes -> option PageId -> list PageId ->
    list entry -> option PageId -> Prop :=
| chain_nil lo nx : chain ps lo lo nx [] [] nx
| chain_cons id lo mid hi nx1 ids es kvs nx :
    tree ps 0 id lo mid id nx1 [id] es -> lohi lo mid -> (mid = None -> ids = []) ->
    chain ps mid hi nx1 ids kvs nx ->
    chain ps lo hi (Some id) (id :: ids) (es ++ kvs) nx.

Lemma chain_app ps lo mid hi nx ids kvs nx1 ids' kvs' nx2 :
  chain ps lo mid nx ids kvs nx1 -> chain ps mid hi nx1 ids' kvs' nx2 -> (mid = None -> ids' = []) ->
  chain ps lo hi nx (ids ++ ids') (kvs ++ kvs') nx2.
Proof.
  induction 1 as [|id lo m1 m2 nx1' ids es kvs nx Ht Hlh Hnone Hc IH]; intros H2 Hmid; [done|].
  cbn. rewrite <-app_assoc. eapply chain_cons; [done|done| |by apply IH].
  intros ->. rewrite Hnone by done. rewrite Hnone in Hc by done. inversion Hc; subst. by apply Hmid.
Qed.

Lemma tree_forest_chain ps :
  (forall n id lo hi f nx fp kvs, tree ps n id lo hi f nx fp kvs -> lohi lo hi ->
     exists ids, chain ps lo hi (Some f) ids kvs nx /\ sublist ids fp) /\
  (forall n lo hi c es f nx fp kvs, forest ps n lo hi c es f nx fp kvs -> lohi lo hi ->
     exists ids, chain ps lo hi (Some f) ids kvs nx /\ sublist ids fp).
Proof.
  apply (tree_forest_ind ps).
  - intros id h es lo hi nx ? ? ? ? ? ? ? Hb. exists [id]. split; [|done].
    rewrite <-(app_nil_r es). eapply chain_cons; [by eapply tree_leaf|done|done|apply chain_nil].
  - intros n id h es lo hi f nx fp kvs _ _ _ _ _ IH Hb. destruct (IH Hb) as (ids & ? & ?).
    exists ids. split; [done|by apply sublist_cons].
  - done.
  - intros n c c' k es lo hi f f' nx fp fp' kvs kvs' Hlo Hhi _ IH _ IH' Hb.
    destruct IH as (ids & Hc & Hs); [by intros ? [= <-]|].
    destruct IH' as (ids' & Hc' & Hs'); [intros h ->; done|].
    exists (ids ++ ids'). split; [by eapply chain_app|by apply sublist_app].
Qed.

(** ** Joining and splitting the children of a page *)

Lemma forest_app ps n lo k hi c mid f f2 fp1 kv1 c' rest nx fp2 kv2 :
  forest ps n lo (Some k) c mid f (Some f2) fp1 kv1 ->
  forest ps n (Some k) hi c' rest f2 nx fp2 kv2 ->
  gt_lo lo k -> lt_hi k hi ->
  forest ps n lo hi c (mid ++ (k, le_bytes 8 c') :: rest) f nx (fp1 ++ fp2) (kv1 ++ kv2).
Proof.
  intros H1. remember (Some k) as hi1 eqn:Eh. remember (Some f2) as nx1 eqn:En.
  revert Eh En. induction H1 as [|n c c1 k1 es lo hi1 f f1 nx1 fp fp' kvs kvs' Hlo1 Hhi1 Ht Hf IH];
    intros -> -> H2 Hlo Hhi.
  - cbn. by eapply forest_cons.
  - cbn. rewrite <-!app_assoc. eapply forest_cons; [done| |done|].
    + cbn in Hhi1. eapply lt_hi_trans; [by apply bytes_lt_le|done].
    + apply IH; done.
Qed.

Lemma forest_unapp ps n lo hi c es f nx fp kvs mid k v :
  forest ps n lo hi c es f nx fp kvs -> es !! mid = Some (k, v) ->
  exists c' f2 fp1 fp2 kv1 kv2, v = le_bytes 8 c' /\ id_in c' /\
    fp = fp1 ++ fp2 /\ kvs = kv1 ++ kv2 /\ gt_lo lo k /\ lt_hi k hi /\
    forest ps n lo (Some k) c (take mid es) f (Some f2) fp1 kv1 /\
    forest ps n (Some k) hi c' (drop (S mid) es) f2 nx fp2 kv2.
Proof.
  intros H. revert mid. induction H as [|n c c1 k1 es lo hi f f1 nx fp fp' kvs kvs' Hlo Hhi Ht Hf IH];
    intros mid Hmid; [done|].
  destruct mid as [|mid]; cbn in Hmid.
  - injection Hmid as <- <-. exists c1, f1, fp, fp', kvs, kvs'.
    pose proof (proj2 (tree_forest_ids ps) _ _ _ _ _ _ _ _ _ Hf) as (? & _).
    split_and!; try done. cbn. by apply forest_one.
  - destruct (IH mid Hmid) as (c' & f2 & fp1 & fp2 & kv1 & kv2 & -> & ? & -> & -> & Hk & ? & H1 & H2).
    exists c', f2, (fp ++ fp1), fp2, (kvs ++ kv1), kv2. rewrite !app_assoc. cbn in Hk.
    split_and!; try done; [by eapply gt_lo_trans; [apply gt_ge_lo|]|].
    cbn [take]. eapply forest_cons; [done|done|done|done].
Qed.

(** Take the child at position [pos] out: what is left is a context that any forest with
    the child's bounds and links completes. *)
Lemma forest_zip ps n lo hi c0 es f nx fp kvs pos :
  forest ps n lo hi c0 es f nx fp kvs -> (pos <= length es)%nat ->
  exists c lo' hi' f' nx' fpL fpc fpR kL kc kR,
    (c0 :: ((fun e => le_val e.2) <$> es)) !! pos = Some c /\
    lo' = match pos with O => lo | S i => fst <$> es !! i end /\
    hi' = match es !! pos with Some e => Some e.1 | None => hi end /\
    tree ps n c lo' hi' f' nx' fpc kc /\ fp = fpL ++ fpc ++ fpR /\ kvs = kL ++ kc ++ kR /\
    (forall k, ge_lo lo k -> ge_lo lo' k -> forall e, e ∈ kL -> bytes_lt e.1 k) /\
    (forall k, lt_hi k hi' -> forall e, e ∈ kR -> bytes_lt k e.1) /\
    (exists ids, chain ps hi' hi nx' ids kR nx /\ (hi' = None -> ids = []) /\ sublist ids fpR) /\
    (forall ps' mid fpm km, (forall i, i ∈ fpL ++ fpR -> ps' !! i = ps !! i) ->
       forest ps' n lo' hi' c mid f' nx' fpm km ->
       forest ps' n lo hi c0 (take pos es ++ mid ++ drop pos es) f nx (fpL ++ fpm ++ fpR) (kL ++ km ++ kR)).
Proof.
  intros H. revert pos. induction H as [n c lo hi f nx fp kvs Ht|n c c1 k1 es lo hi f f1 nx fp fp' kvs kvs' Hlo Hhi Ht Hf IH];
    intros pos Hpos.
  - destruct pos; [|cbn in Hpos; lia]. exists c, lo, hi, f, nx, [], fp, [], [], kvs, [].
    cbn. rewrite !app_nil_r. split_and!; try done; try (intros; set_solver).
    + exists []. split_and!; [apply chain_nil|done|done].
    + intros ps' mid fpm km _ Hm. by rewrite !app_nil_r.
  - destruct pos as [|pos].
    + exists c, lo, (Some k1), f, (Some f1), [], fp, fp', [], kvs, kvs'. cbn.
      split_and!; try done; [intros; set_solver|intros k Hk e He| |].
      * destruct (proj2 (tree_forest_bounds ps) _ _ _ _ _ _ _ _ _ Hf e He) as [Hb _].
        by eapply bytes_lt_le_trans.
      * destruct (proj2 (tree_forest_chain ps) _ _ _ _ _ _ _ _ _ Hf) as (ids & ? & ?); [by intros h ->|].
        by exists ids.
      * intros ps' mid fpm km Hfr Hm. eapply forest_app; [done| |done|done].
        by eapply forest_frame.
    + destruct (IH pos ltac:(cbn in Hpos; lia)) as
        (c' & lo' & hi' & f' & nx' & fpL & fpc & fpR & kL & kc & kR & Hc & -> & -> & Htc & -> & -> & HL & HR & Hchain & Hput).
      exists c', (match pos with O => Some k1 | S i => fst <$> es !! i end),
        (match es !! pos with Some e => Some e.1 | None => hi end),
        f', nx', (fp ++ fpL), fpc, fpR, (kvs ++ kL), kc, kR.
      rewrite <-!app_assoc.
      pose proof (proj2 (tree_forest_ids ps) _ _ _ _ _ _ _ _ _ Hf) as (Hid & _).
      assert (Hc1 : le_val (le_bytes 8 c1) = c1) by (apply le_val_u64; apply id_in_u64 in Hid; lia).
      split_and!; try done.
      * rewrite lookup_cons, fmap_cons. cbn [snd]. by rewrite Hc1.
      * by destruct pos.
      * intros k Hk Hk' e He. assert (Hk1 : bytes_le k1 k).
        { destruct pos as [|i]; [done|]. cbn in Hpos.
          destruct (lookup_lt_is_Some_2 es i) as [x Hx]; [lia|]. rewrite Hx in Hk'. cbn in Hk'.
          destruct (forest_seps _ _ _ _ _ _ _ _ _ _ Hf) as [_ Hs].
          destruct (Hs x) as [Hgt _]; [by eapply list_elem_of_lookup_2|].
          eapply bytes_le_trans; [by apply bytes_lt_le|done]. }
        apply elem_of_app in He as [He|He]; [|by eapply HL].
        destruct (proj1 (tree_forest_bounds ps) _ _ _ _ _ _ _ _ Ht e He) as [_ Hb].
        by eapply bytes_lt_le_trans.
      * intros ps' mid fpm km Hfr Hm. cbn. rewrite <-!app_assoc. eapply forest_cons; [done|done| |].
        -- eapply tree_frame; [done|]. set_solver.
        -- apply Hput; [set_solver|done].
Qed.

End Tree.
