(* ===== verification/BtreeRun.v ===== *)
(** * BtreeRun: running the tree's methods against the provider's laws

    [run_to m v a v'] says that method [m], started in any tree state whose view is [v],
    returns [a] and leaves a state whose view is [v'] and whose provider has the same rest.  The lemmas give the effect of the
    provider calls and of the lookups on the view. *)

From stdpp Require Import base numbers list list_numbers gmap fin_maps.
From S2P Require Import Prelude Common SlottedPage MetaPage BtreePage Latch Provider Btree BtreeInv.
Import Bp BpSpec Btree.

Record view := {
  v_pages : gmap Z (list Z); v_next : Z; v_root : Z;
  v_dirty : option (gmap Z (list Z)); v_meta : option PageId; v_len : Z }.

Definition put_page (id : PageId) (p : Page) (v : view) : view :=
  {| v_pages := <[id := p]> (v_pages v); v_next := v_next v; v_root := v_root v;
     v_dirty := note id p (v_dirty v); v_meta := v_meta v; v_len := v_len v |}.
Definition bump (v : view) : view :=
  {| v_pages := v_pages v; v_next := wrap64 (v_next v + 1); v_root := v_root v;
     v_dirty := v_dirty v; v_meta := v_meta v; v_len := v_len v |}.
Definition at_root (id : PageId) (v : view) : view :=
  {| v_pages := v_pages v; v_next := v_next v; v_root := id;
     v_dirty := note_root (v_meta v) id (v_dirty v); v_meta := v_meta v; v_len := v_len v |}.
Definition at_len (n : Z) (v : view) : view :=
  {| v_pages := v_pages v; v_next := v_next v; v_root := v_root v;
     v_dirty := v_dirty v; v_meta := v_meta v; v_len := n |}.

(** Every page that changed is noted as it is now, when pages are noted, and a page that is
    noted has the size of a page; the page of the root's id is not one of the tree's. *)
Record tracks (v v' : view) : Prop := {
  tr_meta : v_meta v' = v_meta v;
  tr_none : v_dirty v = None -> v_dirty v' = None;
  tr_some d : v_dirty v = Some d -> exists d', v_dirty v' = Some d' /\
    forall i,
      (d' !! i = d !! i /\ (v_meta v <> Some i -> v_pages v' !! i = v_pages v !! i)) \/
      (exists p, d' !! i = Some p /\ zlen p = PAGE_SIZE /\ (v_meta v = Some i \/ v_pages v' !! i = Some p))
}.

Lemma tracks_refl v : tracks v v.
Proof. split; [done|done|]. intros d Hd. exists d. split; [done|]. intros i. by left. Qed.

Lemma tracks_trans v1 v2 v3 : tracks v1 v2 -> tracks v2 v3 -> tracks v1 v3.
Proof.
  intros [M1 N1 S1] [M2 N2 S2]. split; [congruence|auto|]. intros d Hd.
  destruct (S1 d Hd) as (d2 & Hd2 & H2). destruct (S2 d2 Hd2) as (d3 & Hd3 & H3). exists d3. split; [done|]. intros i.
  rewrite M1 in H3. destruct (H3 i) as [[E3 P3]|E3]; [|by right]. rewrite E3.
  destruct (decide (v_meta v1 = Some i)) as [Hm|Hm].
  - destruct (H2 i) as [[E2 _]|(p & Hp & Hz & _)]; [by left|]. right. exists p. by split_and!; [| |left].
  - rewrite (P3 Hm). apply H2.
Qed.

Lemma tracks_put id p v : zlen p = PAGE_SIZE -> tracks v (put_page id p v).
Proof.
  intros Hz. split; [done|by cbn; intros ->|]. cbn. intros d ->. eexists. split; [reflexivity|]. intros i.
  destruct (decide (i = id)) as [->|]; [right; exists p; by rewrite !lookup_insert_eq; split_and!; [| |right]|].
  left. by rewrite !lookup_insert_ne.
Qed.

Lemma btree_encode_len m p : BtreeMetaPage.btree_encode m = Ret p -> zlen p = PAGE_SIZE.
Proof.
  assert (zlen BtreeMetaPage.BTREE_MAGIC = 8) as Hmg by reflexivity. unfold BtreeMetaPage.btree_encode.
  rewrite put_range_ok by clia. cbn [mbind outcome_bind].
  do 2 (rewrite put_range_ok by clia; cbn [mbind outcome_bind]). intros [= <-]. clia.
Qed.

Lemma tracks_at_root id v : tracks v (at_root id v).
Proof.
  split; [done|cbn; intros ->; unfold note_root; by repeat case_match|]. cbn. unfold note_root. intros d ->.
  destruct (v_meta v) as [m|]; [|by exists d; split; [done|left]].
  destruct (BtreeMetaPage.btree_encode _) as [pg| | |] eqn:He; try (by exists d; split; [done|left]).
  eexists. split; [reflexivity|]. intros i. destruct (decide (i = m)) as [->|].
  - right. exists pg. rewrite lookup_insert_eq. split_and!; [done|by eapply btree_encode_len|by left].
  - left. split; [apply lookup_insert_ne; congruence|done].
Qed.

(** A page that represents a node has the size of a page. *)
Ltac page_size := first [match goal with H : rep ?p _ _ |- zlen ?p = PAGE_SIZE => exact (rp_len _ _ _ H) end | BpSpec.clia].

Section Run.
Context {R : IdRange} {P : Type} `{PageProviderLaws P}.

Abbreviation T := (st (PageBPlusTree P) Error) (only parsing).

Definition view_with (v : pview provider_rest) (n : Z) : view := {|
  v_pages := pv_pages v; v_next := pv_next v; v_root := pv_root v; v_dirty := pv_dirty v; v_meta := pv_meta v; v_len := n |}.
Definition vw (t : PageBPlusTree P) : view := view_with (view_of (provider t)) (len t).
Definition rest (t : PageBPlusTree P) : provider_rest := pv_rest (view_of (provider t)).

(** What every method of the tree keeps. *)
Definition kept (t t' : PageBPlusTree P) : Prop :=
  provider_ok R (provider t') /\ rest t' = rest t /\ tracks (vw t) (vw t').

Definition run_to {A} (m : T A) (v : view) (a : A) (v' : view) : Prop :=
  forall t, provider_ok R (provider t) -> vw t = v -> exists t', m t = (Ret a, t') /\ vw t' = v' /\ kept t t'.

Lemma run_bind {A B} (m : T A) (f : A -> T B) v a v1 b v2 :
  run_to m v a v1 -> run_to (f a) v1 b v2 -> run_to (m ≫= f) v b v2.
Proof.
  intros Hm Hf t Ho Ht. destruct (Hm t Ho Ht) as (t1 & Hm1 & Ht1 & Ho1 & Hr1 & Hk1).
  destruct (Hf t1 Ho1 Ht1) as (t2 & Hf2 & Ht2 & Ho2 & Hr2 & Hk2).
  exists t2. split; [by rewrite (st_bind_ret _ _ _ _ _ Hm1)|]. split; [done|]. split; [done|].
  split; [by rewrite Hr2|by eapply tracks_trans].
Qed.

(** A call that does not change the view, and one that does. *)
Lemma kept_same t p' n :
  provider_ok R p' -> view_of p' = view_of (provider t) -> vw {| provider := p'; len := n |} = at_len n (vw t) ->
  kept t {| provider := p'; len := n |}.
Proof.
  intros Ho Hv E. split; [done|]. unfold rest. cbn [provider]. rewrite Hv, E. split; [done|].
  split; [done|done|]. cbn. intros d Hd. exists d. split; [done|]. intros i. by left.
Qed.

Lemma kept_refl t : provider_ok R (provider t) -> kept t t.
Proof. intros Ho. split; [done|]. split; [done|apply tracks_refl]. Qed.

Lemma run_ret {A} (a : A) v : run_to (mret a) v a v.
Proof. intros t Ho <-. exists t. split; [done|]. split; [done|by apply kept_refl]. Qed.

Lemma run_lift {A} (m : outcome Error A) a v : m = Ret a -> run_to (lift m) v a v.
Proof. intros ->. apply (run_ret a). Qed.

Lemma run_lift_bind {A B} (m : outcome Error A) (f : A -> T B) a v b v' :
  m = Ret a -> run_to (f a) v b v' -> run_to (lift m ≫= f) v b v'.
Proof. intros. eapply run_bind; [by apply run_lift|done]. Qed.

Lemma run_read id v p : v_pages v !! id = Some p -> run_to (read id) v (Some p) v.
Proof.
  intros Hp t Ho <-. destruct (prov_read R id p (provider t) Ho Hp) as (p' & Hr & Ho' & Hv).
  assert (E : vw {| provider := p'; len := len t |} = vw t) by (unfold vw; cbn; by rewrite Hv).
  unfold read. rewrite Hr. eexists. split; [reflexivity|]. split; [exact E|]. by apply kept_same.
Qed.

Lemma run_read_or id v p : v_pages v !! id = Some p -> run_to (read_or id) v p v.
Proof. intros Hp. eapply run_bind; [by apply run_read|]. by apply run_lift. Qed.

Lemma run_write id p v : id_in id -> zlen p = PAGE_SIZE -> run_to (write id p) v tt (put_page id p v).
Proof.
  intros Hid Hz t Ho <-. destruct (prov_write R id p (provider t) Ho Hid) as [Ho' Hv].
  assert (E : vw {| provider := write_page id p (provider t); len := len t |} = put_page id p (vw t))
    by (unfold vw; cbn; by rewrite Hv).
  eexists. split; [reflexivity|]. split; [exact E|]. split; [done|]. rewrite E. unfold rest. cbn [provider]. rewrite Hv.
  split; [done|by apply tracks_put].
Qed.

Lemma run_alloc v : run_to alloc v (v_next v) (bump v).
Proof.
  intros t Ho <-. destruct (prov_alloc R (provider t) Ho) as (p' & Ha & Ho' & Hv).
  assert (E : vw {| provider := p'; len := len t |} = bump (vw t)) by (unfold vw; cbn; by rewrite Hv).
  unfold alloc. rewrite Ha. eexists. split; [reflexivity|]. split; [exact E|]. split; [done|]. rewrite E. unfold rest.
  cbn [provider]. rewrite Hv. split; [done|]. destruct (tracks_refl (vw t)). by split.
Qed.

Lemma run_get_root v : run_to get_root v (v_root v) v.
Proof.
  intros t Ho <-. exists t. unfold get_root, gets. rewrite prov_root. split; [done|]. split; [done|by apply kept_refl].
Qed.

Lemma run_set_root id v : run_to (set_root id) v tt (at_root id v).
Proof.
  intros t Ho <-. destruct (prov_set_root R id (provider t) Ho) as [Ho' Hv].
  assert (E : vw {| provider := set_root_page_id id (provider t); len := len t |} = at_root id (vw t))
    by (unfold vw; cbn; by rewrite Hv).
  eexists. split; [reflexivity|]. split; [exact E|]. split; [done|]. rewrite E. unfold rest. cbn [provider]. rewrite Hv.
  split; [done|apply tracks_at_root].
Qed.

Lemma run_len_incr v : run_to len_incr v tt (at_len (wrap64 (v_len v + 1)) v).
Proof. intros t Ho <-. eexists. split; [reflexivity|]. split; [done|]. by apply kept_same. Qed.

Lemma run_len_decr v : run_to len_decr v tt (at_len (sat_sub (v_len v) 1) v).
Proof. intros t Ho <-. eexists. split; [reflexivity|]. split; [done|]. by apply kept_same. Qed.

(** ** Latches *)

(** A write latch is granted when no page that is held has the same id: below the number of
    stripes, ids do not share one.  The id of the root latch is below those of the pages. *)
Lemma run_write_latch held id v :
  0 <= id < id_hi -> Forall (fun g : held_latch => 0 <= g.1 < id_hi /\ g.1 <> id) held ->
  run_to (acquire_write_latch held id) v tt v.
Proof.
  intros Hid Hh t Ho <-. pose proof (prov_stripes R _ Ho) as Hs. exists t. unfold acquire_write_latch, latch.
  rewrite permits_all; [|lia|eapply Forall_impl; [exact Hh|]; intros g Hg; cbn in Hg; lia].
  rewrite Z.leb_refl. split; [done|]. split; [done|by apply kept_refl].
Qed.

Lemma run_write_latch_alone id v : run_to (acquire_write_latch [] id) v tt v.
Proof. intros t Ho <-. exists t. split; [reflexivity|]. split; [done|by apply kept_refl]. Qed.

Lemma run_read_latch_alone id v : run_to (acquire_read_latch [] id) v tt v.
Proof. intros t Ho <-. exists t. split; [reflexivity|]. split; [done|by apply kept_refl]. Qed.

Lemma run_read_latch h id v : run_to (acquire_read_latch [read_held h] id) v tt v.
Proof.
  intros t Ho <-. exists t. unfold acquire_read_latch, latch. rewrite (proj2 (Z.leb_le _ _) (permits_reader _ _ _)).
  split; [done|]. split; [done|by apply kept_refl].
Qed.

(** A page's latch while the root latch is held, and while other pages' latches are. *)
Lemma run_latch_root id v : id_in id -> run_to (acquire_write_latch [write_held ROOT_LATCH_PAGE_ID] id) v tt v.
Proof.
  intros [Hlo Hhi]. pose proof id_lo_pos. apply run_write_latch; [lia|]. apply Forall_singleton. unfold ROOT_LATCH_PAGE_ID. cbn. lia.
Qed.

Lemma run_latch_pages ids id v :
  id_in id -> Forall id_in ids -> id ∉ ids -> run_to (acquire_write_latch (write_held <$> ids) id) v tt v.
Proof.
  intros [Hlo Hhi] Hids Hni. pose proof id_lo_pos. apply run_write_latch; [lia|]. apply Forall_fmap, Forall_forall. intros i Hi.
  rewrite Forall_forall in Hids. destruct (Hids i Hi). cbn. split; [lia|]. by intros ->.
Qed.

(** ** Lookups *)

(** A child of an internal page on the way to [key]. *)
Lemma route ps n id h es lo hi f nx fp kvs p key :
  ps !! id = Some p -> rep p h es -> page_type h = PAGE_TYPE_INTERNAL ->
  forest ps n lo hi (left_child h) es f nx fp kvs -> ge_lo lo key -> lt_hi key hi ->
  exists pos c, child_insert_pos_for_key p h key = Ret (Z.of_nat pos) /\ (pos <= length es)%nat /\
    child_id_at_pos p h (Z.of_nat pos) = Ret c /\ children h es !! pos = Some c /\
    ge_lo (match pos with O => lo | S i => fst <$> es !! i end) key /\
    lt_hi key (match es !! pos with Some e => Some e.1 | None => hi end).
Proof.
  intros Hp Hrep Hty Hf Hlo Hhi. destruct (forest_seps _ _ _ _ _ _ _ _ _ _ Hf) as [Hs _].
  destruct (child_insert_pos_ok p h es key Hrep Hs) as (pos & Hpos & (Hb & HL & HR)).
  assert (Hlen : (Z.to_nat pos <= length es)%nat) by (unfold zlen in Hb; lia).
  destruct (lookup_lt_is_Some_2 (children h es) (Z.to_nat pos)) as [c Hc];
    [unfold children; cbn [length]; rewrite length_fmap; lia|].
  exists (Z.to_nat pos), c. rewrite Z2Nat.id by lia. split_and!; try done.
  - apply (child_id_at_pos_ok p h es); auto; lia.
  - destruct (Z.to_nat pos) as [|i] eqn:Ei; [done|].
    destruct (lookup_lt_is_Some_2 es i) as [e He]; [lia|]. rewrite He. cbn. apply (HL i e He). lia.
  - destruct (es !! Z.to_nat pos) as [e|] eqn:He; [|done]. cbn. apply (HR _ _ He). lia.
Qed.

Lemma leaf_page_type (h : PageHeader) :
  page_type h = PAGE_TYPE_INTERNAL -> (page_type h =? PAGE_TYPE_LEAF) = false.
Proof. intros ->. reflexivity. Qed.

(** The descent reaches the leaf that covers the key. *)
Lemma run_descend key v hops : forall n id lo hi f nx fp kvs,
  tree (v_pages v) n id lo hi f nx fp kvs -> ge_lo lo key -> lt_hi key hi -> (n < hops)%nat ->
  exists leaf lo' hi' nx' kL kc kR,
    run_to (descend hops key id) v (Return leaf) v /\
    tree (v_pages v) 0 leaf lo' hi' leaf nx' [leaf] kc /\ ge_lo lo' key /\ lt_hi key hi' /\
    kvs = kL ++ kc ++ kR /\ (forall e, e ∈ kL -> bytes_lt e.1 key) /\ (forall e, e ∈ kR -> bytes_lt key e.1) /\
    exists ids, chain (v_pages v) hi' hi nx' ids kR nx /\ (hi' = None -> ids = []) /\ sublist (leaf :: ids) fp.
Proof.
  induction hops as [|hops IH]; intros n id lo hi f nx fp kvs Ht Hlo Hhi Hn; [lia|].
  inversion Ht as [? h es ? ? ? Hnode Hty Hs Hb Hh Hnx Hid|n' ? h es ? ? ? ? fp' ? Hnode Hty Hl Hid Hf]; subst.
  - destruct Hnode as (p & Hp & Hrep). exists f, lo, hi, (next_leaf h), [], kvs, [].
    split_and!; try done; try set_solver; [|by rewrite app_nil_r|exists []; split_and!; [apply chain_nil|done|done]].
    cbn [descend]. eapply run_bind; [apply run_read, Hp|].
    eapply run_lift_bind; [apply (rep_header p h kvs Hrep)|]. rewrite Hty, Z.eqb_refl. apply run_ret.
  - destruct Hnode as (p & Hp & Hrep).
    destruct (route _ _ _ _ _ _ _ _ _ _ _ _ key Hp Hrep Hty Hf Hlo Hhi)
      as (pos & c & Hpos & Hlen & Hc & Hch & Hlo' & Hhi').
    destruct (forest_zip _ _ _ _ _ _ _ _ _ _ pos Hf Hlen) as
      (c' & lo' & hi' & f' & nx' & fpL & fpc & fpR & kL & kc & kR & Hc' & -> & -> & Htc & -> & -> & HL & HR & (ids & Hids & Hnone & Hsub) & _).
    unfold children in Hch. rewrite Hch in Hc'. injection Hc' as <-.
    destruct (IH _ _ _ _ _ _ _ _ Htc Hlo' Hhi' ltac:(lia)) as
      (leaf & lo2 & hi2 & nx2 & kL2 & kc2 & kR2 & Hrun & Hleaf & ? & ? & -> & HL2 & HR2 & ids2 & Hids2 & Hnone2 & Hsub2).
    exists leaf, lo2, hi2, nx2, (kL ++ kL2), kc2, (kR2 ++ kR). rewrite <-!app_assoc.
    split_and!; try done.
    + cbn [descend]. eapply run_bind; [apply run_read, Hp|].
      eapply run_lift_bind; [apply (rep_header p h es Hrep)|]. rewrite leaf_page_type by done.
      eapply run_lift_bind; [done|]. eapply run_lift_bind; [done|]. eapply run_bind; [apply run_read_latch|]. done.
    + intros e [He|He]%elem_of_app; [by eapply HL|by apply HL2].
    + intros e [He|He]%elem_of_app; [by apply HR2|by eapply HR].
    + exists (ids2 ++ ids). split; [by eapply chain_app|]. split.
      { intros ->. rewrite (Hnone2 eq_refl) in *. inversion Hids2; subst. by apply Hnone. }
      apply sublist_cons, sublist_inserts_l. change (leaf :: ids2 ++ ids) with ((leaf :: ids2) ++ ids).
      by apply sublist_app.
Qed.

Lemma to_map_middle kL kc kR key :
  (forall e, e ∈ kL -> bytes_lt e.1 key) -> (forall e, e ∈ kR -> bytes_lt key e.1) ->
  to_map (kL ++ kc ++ kR) !! key = to_map kc !! key.
Proof.
  intros HL HR. unfold to_map. rewrite !list_to_map_app.
  rewrite lookup_union_r; [rewrite lookup_union_l; [done|]|].
  - apply to_map_absent. intros e He <-. by apply (bytes_lt_irrefl e.1), HR.
  - apply to_map_absent. intros e He <-. by apply (bytes_lt_irrefl e.1), HL.
Qed.

Lemma not_past_high h key hi : high_ok h hi -> lt_hi key hi -> past_high_key h key = None.
Proof.
  intros Hh Hk. unfold past_high_key. destruct (high_key h) as [hk|] eqn:E; [|done].
  destruct (Hh hk E) as (u & -> & Hu). cbn in Hk.
  destruct (bytes_ltb_spec hk key) as [Hlt|]; [|done]. exfalso.
  apply (bytes_lt_irrefl key). eapply bytes_lt_le_trans; [done|].
  apply bytes_le_trans with hk; [done|by apply bytes_lt_le].
Qed.

Lemma run_find_leaf v key n f nx fp kvs :
  tree (v_pages v) n (v_root v) None None f nx fp kvs -> Z.of_nat n < 8192 ->
  exists leaf lo' hi' nx' kL kc kR,
    run_to (find_leaf_for_read key) v (Some leaf) v /\
    tree (v_pages v) 0 leaf lo' hi' leaf nx' [leaf] kc /\ ge_lo lo' key /\ lt_hi key hi' /\
    kvs = kL ++ kc ++ kR /\ (forall e, e ∈ kL -> bytes_lt e.1 key) /\ (forall e, e ∈ kR -> bytes_lt key e.1) /\
    exists ids, chain (v_pages v) hi' None nx' ids kR nx /\ (hi' = None -> ids = []) /\ sublist (leaf :: ids) fp.
Proof.
  intros Ht Hn.
  destruct (run_descend key v (Z.to_nat MAX_SCAN_LEAF_HOPS) _ _ _ _ _ _ _ _ Ht I I)
    as (leaf & lo' & hi' & nx' & kL & kc & kR & Hrun & Hrest).
  { unfold MAX_SCAN_LEAF_HOPS. lia. }
  exists leaf, lo', hi', nx', kL, kc, kR. split; [|done].
  unfold find_leaf_for_read. change (Z.to_nat MAX_TRAVERSAL_RETRIES) with 8%nat. cbn [find_leaf_retry].
  eapply run_bind; [apply run_get_root|]. eapply run_bind; [apply run_read_latch_alone|].
  eapply run_bind; [exact Hrun|]. apply run_ret.
Qed.

Lemma run_get v key n f nx fp kvs :
  tree (v_pages v) n (v_root v) None None f nx fp kvs -> Z.of_nat n < 8192 ->
  run_to (get key) v (lv_of_bytes <$> to_map kvs !! key) v.
Proof.
  intros Ht Hn.
  destruct (run_find_leaf v key _ _ _ _ _ Ht Hn)
    as (leaf & lo' & hi' & nx' & kL & kc & kR & Hrun & Hleaf & Hlo & Hhi & -> & HL & HR & _).
  rewrite to_map_middle by done.
  inversion Hleaf as [? h es ? ? ? Hnode Hty Hs Hb Hh Hnx Hid|]; subst.
  destruct Hnode as (p & Hp & Hrep).
  assert (Hhops : run_to (get_hops (Z.to_nat MAX_RIGHT_LINK_HOPS) key leaf) v
                    (Return (lv_of_bytes <$> to_map kc !! key)) v).
  { change (Z.to_nat MAX_RIGHT_LINK_HOPS) with (S 255). cbn [get_hops].
    eapply run_bind; [apply run_read_latch_alone|]. eapply run_bind; [apply run_read, Hp|].
    eapply run_lift_bind; [apply (rep_header p h kc Hrep)|]. rewrite Hty, Z.eqb_refl. cbn [negb].
    rewrite (not_past_high h key hi') by done.
    eapply run_lift_bind; [by apply (find_in_leaf_ok p h)|]. apply run_ret. }
  unfold get. change (Z.to_nat MAX_TRAVERSAL_RETRIES) with 8%nat. cbn [get_retry].
  eapply run_bind; [exact Hrun|]. eapply run_bind; [exact Hhops|]. apply run_ret.
Qed.

End Run.

(** An acquisition with no other latch held, and one of a page with the root latch held. *)
Ltac latch_alone := eapply run_bind; [first [apply run_write_latch_alone|apply run_read_latch_alone]|].
Ltac latch_root := eapply run_bind; [apply run_latch_root; assumption|].
