(* ===== verification/BtreeInsert.v ===== *)
(** * BtreeInsert: insertion into the B+tree keeps the invariant and refines a map

    The proof that [insert] of src/src/page_bptree.rs implements insertion into a finite
    map: the leaf case, the splits (root and child), and the top-down loop by induction
    on the height of the tree. *)

From stdpp Require Import base numbers list list_numbers gmap fin_maps.
From S2P Require Import Prelude Common SlottedPage BtreePage Latch Provider Btree BtreeInv BtreeRun.
Import Bp BpSpec Btree.

(** ** Entries of a leaf *)

Lemma to_map_elem es k v : sorted es -> to_map es !! k = Some v <-> (k, v) ∈ es.
Proof. intros Hs. symmetry. apply elem_of_list_to_map. by apply sorted_nodup. Qed.

Lemma sorted_replace es i k v v' :
  sorted es -> es !! i = Some (k, v) -> sorted (<[i := (k, v')]> es).
Proof.
  intros Hs Hi a b x y Hab Hx Hy.
  assert (Hk : forall j z, <[i := (k, v')]> es !! j = Some z -> exists w, es !! j = Some (z.1, w)).
  { intros j z Hj. destruct (decide (j = i)) as [->|].
    - rewrite list_lookup_insert_eq in Hj by (by eapply lookup_lt_Some). injection Hj as <-. by exists v.
    - rewrite list_lookup_insert_ne in Hj by done. exists z.2. by destruct z. }
  destruct (Hk _ _ Hx) as [w Hw], (Hk _ _ Hy) as [w' Hw']. by apply (Hs a b (x.1, w) (y.1, w')).
Qed.

Lemma to_map_replace es i k v v' :
  sorted es -> es !! i = Some (k, v) -> to_map (<[i := (k, v')]> es) = <[k := v']> (to_map es).
Proof.
  intros Hs Hi. pose proof (sorted_replace es i k v v' Hs Hi) as Hs'.
  pose proof (lookup_lt_Some _ _ _ Hi) as Hlt.
  apply map_eq. intros k'. apply option_eq. intros w. rewrite to_map_elem by done.
  rewrite list_elem_of_lookup. split.
  - intros [j Hj]. destruct (decide (j = i)) as [->|Hne].
    + rewrite list_lookup_insert_eq in Hj by done. injection Hj as <- <-. by rewrite lookup_insert_eq.
    + rewrite list_lookup_insert_ne in Hj by done. rewrite lookup_insert_ne.
      * apply to_map_elem; [done|]. by eapply list_elem_of_lookup_2.
      * intros <-. assert (Hc : bytes_lt k k) by (destruct (Nat.lt_ge_cases i j);
          [apply (Hs i j _ _ ltac:(lia) Hi Hj)|apply (Hs j i _ _ ltac:(lia) Hj Hi)]).
        by apply bytes_lt_irrefl in Hc.
  - intros Hw. destruct (decide (k' = k)) as [->|Hne].
    + rewrite lookup_insert_eq in Hw. injection Hw as <-. exists i. by rewrite list_lookup_insert_eq.
    + rewrite lookup_insert_ne in Hw by done. apply to_map_elem in Hw; [|done].
      apply list_elem_of_lookup in Hw as [j Hj]. exists j. rewrite list_lookup_insert_ne; [done|].
      intros <-. rewrite Hi in Hj. congruence.
Qed.

Lemma insert_at_perm pos e es : insert_at pos e es ≡ₚ e :: es.
Proof. unfold insert_at. rewrite <-Permutation_middle. by rewrite take_drop. Qed.

Lemma lookup_insert_at_nat pos e es i :
  (pos <= length es)%nat ->
  insert_at (Z.of_nat pos) e es !! i =
    if decide (i < pos)%nat then es !! i else if decide (i = pos) then Some e else es !! (i - 1)%nat.
Proof.
  intros Hp. rewrite <-(Nat2Z.id i) at 1. rewrite lookup_insert_at by (unfold zlen; lia).
  repeat case_decide; try lia; rewrite ?Nat2Z.id; try done. f_equal. lia.
Qed.

Lemma sorted_insert_at es pos k v :
  sorted es -> cut es pos (fun x => bytes_lt x k) (fun x => bytes_lt k x) ->
  sorted (insert_at pos (k, v) es).
Proof.
  intros Hs ((Hp0 & Hp1) & HL & HR) i j a b Hij Ha Hb. rewrite <-(Z2Nat.id pos) in Ha, Hb by lia.
  rewrite lookup_insert_at_nat in Ha, Hb by (unfold zlen in *; lia).
  repeat case_decide; simplify_eq; try lia; cbn [fst].
  - by apply (Hs i j).
  - apply (HL i a Ha). lia.
  - apply (Hs i (j - 1)%nat); [lia|done|done].
  - apply (HR _ _ Hb). lia.
  - apply (Hs (i - 1)%nat (j - 1)%nat); [lia|done|done].
Qed.

Lemma to_map_insert_at es pos k v :
  sorted (insert_at pos (k, v) es) -> to_map (insert_at pos (k, v) es) = <[k := v]> (to_map es).
Proof.
  intros Hs. unfold to_map. rewrite (list_to_map_proper _ ((k, v) :: es)); [done| |apply insert_at_perm].
  by apply sorted_nodup.
Qed.

(** Replacing the middle of a list without repetition. *)
Lemma nodup_mid {A} (l a b r : list A) :
  NoDup (l ++ a ++ r) -> NoDup b -> (forall i, i ∈ b -> i ∈ l ++ r -> i ∈ a) -> NoDup (l ++ b ++ r).
Proof.
  intros Hnd Hb Hin. apply NoDup_app in Hnd as (Hl & HlA & Hnd). apply NoDup_app in Hnd as (Ha & HaR & Hr).
  apply NoDup_app. split_and!; [done| |].
  - intros i Hi [Hib|Hir]%elem_of_app; [|set_solver]. specialize (Hin i Hib). set_solver.
  - apply NoDup_app. split_and!; [done| |done]. intros i Hi Hir. specialize (Hin i Hi). set_solver.
Qed.

Definition has_room_page (p : Page) : Prop :=
  exists h es, rep p h es /\ page_has_room_for_one_more h = true.
Definition has_room (ps : gmap Z (list Z)) (id : PageId) : Prop :=
  exists p, ps !! id = Some p /\ has_room_page p.

(** ** Splitting a full page *)

Lemma full_count p h es :
  rep p h es -> page_is_full_for_insert h = true ->
  (page_type h = PAGE_TYPE_LEAF -> zlen es = 15) /\ (page_type h = PAGE_TYPE_INTERNAL -> zlen es = 628).
Proof.
  intros Hrep Hfull. pose proof (rp_fit _ _ _ Hrep) as Hfit. pose proof (rp_count _ _ _ Hrep) as Hc.
  unfold page_is_full_for_insert in Hfull. apply negb_true_iff in Hfull.
  assert (Hno : ~ (data_start (key_count h + 1) + (key_count h + 1) * esz h <= PAGE_SIZE)).
  { intros Hle. apply has_room_spec in Hle. congruence. }
  rewrite Hc in Hno. split; intros Hty.
  - assert (He : esz h = 1076) by (unfold esz; rewrite Hty; reflexivity). rewrite He in *. BpSpec.clia.
  - assert (He : esz h = 24) by (unfold esz; rewrite Hty; reflexivity). rewrite He in *. BpSpec.clia.
Qed.

Lemma room_of_count h :
  (page_type h = PAGE_TYPE_LEAF /\ key_count h < 15) \/
  (page_type h = PAGE_TYPE_INTERNAL /\ key_count h < 628) ->
  page_has_room_for_one_more h = true.
Proof.
  intros Hn. apply has_room_spec. unfold esz.
  destruct Hn as [[-> ?]|[-> ?]]; [change (entry_size PAGE_TYPE_LEAF) with 1076
    |change (entry_size PAGE_TYPE_INTERNAL) with 24]; BpSpec.clia.
Qed.

Lemma elem_take {A} (x : A) n l : x ∈ take n l -> x ∈ l.
Proof. intros. rewrite <-(take_drop n l). set_solver. Qed.

Lemma elem_drop {A} (x : A) n l : x ∈ drop n l -> x ∈ l.
Proof. intros. rewrite <-(take_drop n l). set_solver. Qed.

Lemma take_lt es mid sep v e :
  sorted es -> es !! mid = Some (sep, v) -> e ∈ take mid es -> bytes_lt e.1 sep.
Proof.
  intros Hs Hm He. apply list_elem_of_lookup in He as [i Hi]. pose proof (lookup_lt_Some _ _ _ Hi) as Hlt.
  rewrite length_take in Hlt. rewrite lookup_take_lt in Hi by lia. apply (Hs i mid e (sep, v)); [lia|done|done].
Qed.

Lemma drop_ge_sep es mid sep v e :
  sorted es -> es !! mid = Some (sep, v) -> e ∈ drop mid es -> bytes_le sep e.1.
Proof.
  intros Hs Hm He. apply list_elem_of_lookup in He as [i Hi]. rewrite lookup_drop in Hi.
  apply (sorted_le es Hs mid (mid + i) (sep, v) e); [lia|done|done].
Qed.

Lemma sorted_take es n : sorted es -> sorted (take n es).
Proof.
  intros Hs i j a b Hij Ha Hb. pose proof (lookup_lt_Some _ _ _ Hb) as Hl. rewrite length_take in Hl.
  rewrite lookup_take_lt in Ha, Hb by lia. by apply (Hs i j).
Qed.

Lemma sorted_drop es n : sorted es -> sorted (drop n es).
Proof.
  intros Hs i j a b Hij Ha Hb. rewrite lookup_drop in Ha, Hb. apply (Hs (n + i)%nat (n + j)%nat); [lia|done|done].
Qed.

Section Splits.
Context {R : IdRange}.

(** What a split gives back: the two pages, and that in any memory holding them (and the
    rest of the old subtree) they are the two halves of the old subtree. *)
Definition halves (ps : gmap Z (list Z)) (n : nat) (c r : PageId) (lo hi : option bytes) (f : PageId)
    (nx : option PageId) (fp : list PageId) (kvs : list entry) (sep : bytes) (pl pr : Page) : Prop :=
  zlen sep = 16 /\ gt_lo lo sep /\ lt_hi sep hi /\ has_room_page pl /\ has_room_page pr /\
  forall ps', ps' !! c = Some pl -> ps' !! r = Some pr ->
    (forall i, i ∈ fp -> i <> c -> ps' !! i = ps !! i) ->
    exists f2 fpa fpb ka kb,
      tree ps' n c lo (Some sep) f (Some f2) fpa ka /\ tree ps' n r (Some sep) hi f2 nx fpb kb /\
      fpa ++ fpb ≡ₚ r :: fp /\ kvs = ka ++ kb.

Lemma halves_len ps n c r lo hi f nx fp kvs sep pl pr :
  halves ps n c r lo hi f nx fp kvs sep pl pr -> zlen pl = PAGE_SIZE /\ zlen pr = PAGE_SIZE.
Proof.
  intros (_ & _ & _ & (hl & el & Hl & _) & (hr & er & Hr & _) & _).
  split; [exact (rp_len _ _ _ Hl)|exact (rp_len _ _ _ Hr)].
Qed.

Lemma leaf_split_halves ps c lo hi nx p h es r :
  ps !! c = Some p -> rep p h es -> page_type h = PAGE_TYPE_LEAF -> sorted es ->
  (forall e, e ∈ es -> ge_lo lo e.1 /\ lt_hi e.1 hi) -> high_ok h hi -> next_leaf h = nx -> id_in c -> id_in r ->
  zlen es = 15 ->
  exists sep pl pr pl' pr', split_page h p es = Ret (sep, (pl, pr)) /\
    link_leaves h p c r pl pr = Ret (pl', pr') /\ halves ps 0 c r lo hi c nx [c] es sep pl' pr'.
Proof.
  intros Hp Hrep Hty Hs Hb Hh Hnx Hc Hr Hn. pose proof (rp_ok _ _ _ Hrep) as Hok.
  destruct (split_leaf_ok p h es Hrep Hty) as (sep & v & pl & pr & Hsp & Hsep & Hmid & Hpl & Hpr); [lia|].
  rewrite Hn in *. change (15 / 2) with 7 in *. change (15 - 7) with 8 in *.
  destruct (write_header_rep pl _ _ (with_prev (with_next (with_key_count (with_high h (Some sep)) 7) (Some r)) (prev_leaf h)) Hpl)
    as (pl' & Hwl & Hpl'); [|done|done|].
  { apply hdr_ok_prev, Hok. apply hdr_ok_next; [apply Hpl|apply id_ok_some, id_in_u64, Hr]. }
  destruct (write_header_rep pr _ _ (with_next (with_prev (with_key_count h 8) (Some c)) (next_leaf h)) Hpr)
    as (pr' & Hwr & Hpr'); [|done|done|].
  { apply hdr_ok_next, Hok. apply hdr_ok_prev; [apply Hpr|apply id_ok_some, id_in_u64, Hc]. }
  exists sep, pl, pr, pl', pr'. split_and!.
  - unfold split_page. rewrite Hty, Z.eqb_refl. exact Hsp.
  - clear Hsp. unfold link_leaves, leaf_page_header. rewrite Hty, Z.eqb_refl, (rep_header p h es Hrep). obind.
    rewrite (rep_header pl _ _ Hpl). obind. rewrite Hwl. obind.
    rewrite (rep_header pr _ _ Hpr). obind. rewrite Hwr. done.
  - clear Hsp Hwl Hwr. assert (Hel : (sep, v) ∈ es) by (by eapply list_elem_of_lookup_2).
    destruct (Hb _ Hel) as [_ Hhi]. cbn in Hhi.
    assert (Hlo : gt_lo lo sep).
    { destruct (lookup_lt_is_Some_2 es 0) as [e0 He0]; [unfold zlen in Hn; lia|].
      eapply gt_lo_trans; [apply (Hb e0); by eapply list_elem_of_lookup_2|].
      apply (Hs 0%nat (Z.to_nat 7) e0 (sep, v)); [lia|done|done]. }
    split_and!; try done.
    { eexists _, _. split; [exact Hpl'|]. apply room_of_count. left. split; [done|cbn; lia]. }
    { eexists _, _. split; [exact Hpr'|]. apply room_of_count. left. split; [done|cbn; lia]. }
    intros ps' Hl' Hr' _. exists r, [c], [r], (take (Z.to_nat 7) es), (drop (Z.to_nat 7) es).
    split_and!; [| |by rewrite Permutation_swap|by rewrite take_drop].
    + eapply tree_leaf; [exists pl'; done|done|by apply sorted_take| | |done|done].
      * intros e He. split; [apply (Hb e); by eapply elem_take|]. cbn. by eapply take_lt.
      * intros k [= <-]. exists sep. split; [done|apply bytes_le_refl].
    + eapply tree_leaf; [exists pr'; done|done|by apply sorted_drop| |done|done|done].
      intros e He. split; [cbn; by eapply drop_ge_sep|]. apply (Hb e). by eapply elem_drop.
Qed.

Lemma internal_split_halves ps n c lo hi f nx fp kvs p h es r :
  ps !! c = Some p -> rep p h es -> page_type h = PAGE_TYPE_INTERNAL -> id_in c -> id_in r ->
  forest ps n lo hi (left_child h) es f nx fp kvs -> c ∉ fp -> zlen es = 628 ->
  exists sep pl pr pl' pr', split_page h p es = Ret (sep, (pl, pr)) /\
    link_leaves h p c r pl pr = Ret (pl', pr') /\ halves ps (S n) c r lo hi f nx (c :: fp) kvs sep pl' pr'.
Proof.
  intros Hp Hrep Hty Hc Hr Hf Hcf Hn.
  assert (Hch : forall e, e ∈ es -> 0 <= le_val e.2 < U64).
  { intros e [i He]%list_elem_of_lookup. destruct e as [k w].
    destruct (forest_unapp _ _ _ _ _ _ _ _ _ _ _ _ _ Hf He) as (c' & _ & _ & _ & _ & _ & -> & Hc' & _).
    cbn [snd]. apply id_in_u64 in Hc'. rewrite le_val_u64; lia. }
  destruct (split_internal_ok p h es Hrep Hty) as (sep & w & pl & pr & Hsp & Hsep & Hmid & Hpl & Hpr); [lia|done|].
  rewrite Hn in *. change (628 / 2) with 314 in *. change (628 - (314 + 1)) with 313 in *.
  change (314 + 1) with 315 in *.
  exists sep, pl, pr, pl, pr. split_and!.
  - unfold split_page. rewrite Hty. exact Hsp.
  - unfold link_leaves. rewrite Hty. done.
  - clear Hsp.
    destruct (forest_unapp _ _ _ _ _ _ _ _ _ _ _ _ _ Hf Hmid) as
      (c' & f2 & fp1 & fp2 & kv1 & kv2 & -> & Hc' & -> & -> & Hlo & Hhi & Hf1 & Hf2).
    rewrite le_val_u64 in Hpr by (apply id_in_u64 in Hc'; lia).
    replace (S (Z.to_nat 314)) with (Z.to_nat 315) in Hf2 by lia.
    split_and!; try done.
    { eexists _, _. split; [exact Hpl|]. apply room_of_count. right. split; [done|cbn; lia]. }
    { eexists _, _. split; [exact Hpr|]. apply room_of_count. right. split; [done|cbn; lia]. }
    intros ps' Hl' Hr' Hfr. exists f2, (c :: fp1), (r :: fp2), kv1, kv2. split_and!; [| | |done].
    + eapply tree_node; [exists pl; done|done| |done|].
      * rewrite zlen_take by lia. lia.
      * eapply forest_frame; [exact Hf1|]. intros i Hi. apply Hfr; [set_solver|]. intros ->. set_solver.
    + eapply tree_node; [exists pr; done|done| |done|].
      * rewrite zlen_drop by lia. lia.
      * eapply forest_frame; [exact Hf2|]. intros i Hi. apply Hfr; [set_solver|]. intros ->. set_solver.
    + cbn. rewrite <-Permutation_middle. apply Permutation_swap.
Qed.

(** Both kinds of page at once. *)
Lemma split_halves ps n c lo hi f nx fp kvs p h es r :
  tree ps n c lo hi f nx fp kvs -> ps !! c = Some p -> rep p h es ->
  page_is_full_for_insert h = true -> NoDup fp -> id_in r ->
  exists sep pl pr pl' pr', split_page h p es = Ret (sep, (pl, pr)) /\
    link_leaves h p c r pl pr = Ret (pl', pr') /\ halves ps n c r lo hi f nx fp kvs sep pl' pr'.
Proof.
  intros Ht Hp Hrep Hfull Hnd Hr. destruct (full_count p h es Hrep Hfull) as [Hfl Hfi].
  inversion Ht as [? h' es' ? ? ? Hnode Hty Hs Hb Hh Hnx Hid|n' ? h' es' ? ? ? ? fp' ? Hnode Hty Hl Hid Hf]; subst.
  - destruct Hnode as (p' & Hp' & Hrep'). rewrite Hp in Hp'. injection Hp' as <-.
    destruct (rep_fun _ _ _ _ _ Hrep Hrep') as [-> ->]. apply leaf_split_halves; auto.
  - destruct Hnode as (p' & Hp' & Hrep'). rewrite Hp in Hp'. injection Hp' as <-.
    destruct (rep_fun _ _ _ _ _ Hrep Hrep') as [-> ->]. apply NoDup_cons in Hnd as [Hni _].
    apply internal_split_halves; auto.
Qed.

End Splits.

Section Insert.
Context {R : IdRange} {P : Type} `{PageProviderLaws P}.
Variable key enc : bytes.
Hypothesis Hkey : zlen key = 16.
Hypothesis Henc : zlen enc = LEAF_VALUE_SIZE.

(** What the length becomes. *)
Definition grown (m : gmap (list Z) (list Z)) (n : Z) : Z :=
  match m !! key with Some _ => n | None => wrap64 (n + 1) end.

Lemma run_insert_in_leaf v id p h es :
  v_pages v !! id = Some p -> rep p h es -> page_type h = PAGE_TYPE_LEAF -> sorted es ->
  page_has_room_for_one_more h = true -> id_in id ->
  exists p' es', run_to (insert_in_leaf id p h key enc) v tt
      (at_len (grown (to_map es) (v_len v)) (put_page id p' v)) /\
    rep p' (with_key_count h (zlen es')) es' /\ sorted es' /\
    to_map es' = <[key := enc]> (to_map es) /\ (forall e, e ∈ es' -> e ∈ es \/ e.1 = key).
Proof using Hkey Henc.
  intros Hp Hrep Hty Hs Hroom Hid. assert (Hvs : vsz h = LEAF_VALUE_SIZE) by (unfold vsz; by rewrite Hty).
  destruct (find_key_pos_ok p h es key Hrep Hs) as (found & pos & Hfind & Hres). destruct found.
  - destruct Hres as (Hpos & v0 & Hv0). pose proof (rep_bounds p h es Hrep _ _ Hv0) as Hb.
    rewrite Z2Nat.id in Hb by lia. pose proof (rp_len _ _ _ Hrep) as Hl.
    exists (upd (data_start (zlen es) + pos * esz h + 16) enc p), (<[Z.to_nat pos := (key, enc)]> es).
    assert (Hz : zlen (<[Z.to_nat pos := (key, enc)]> es) = zlen es) by (unfold zlen; by rewrite length_insert).
    split_and!.
    + unfold insert_in_leaf. eapply run_lift_bind; [done|]. cbn [default].
      eapply run_lift_bind; [by apply (entry_offset_at_ok p h es Hrep pos _ Hv0)|].
      eapply run_lift_bind; [done|].
      eapply run_lift_bind; [apply put_range_ok; rewrite ?Henc; BpSpec.clia|].
      unfold grown. rewrite (to_map_lookup es _ _ _ Hs Hv0). apply run_write; [assumption|page_size].
    + rewrite Hz, with_key_count_self by apply Hrep. rewrite <-(Z2Nat.id pos) at 1 by lia.
      apply (update_value_rep p h es _ _ v0); [done|done|by rewrite Hvs].
    + by eapply sorted_replace.
    + by eapply to_map_replace.
    + intros e He. apply list_elem_of_lookup in He as [j Hj]. destruct (decide (j = Z.to_nat pos)) as [->|].
      * rewrite list_lookup_insert_eq in Hj by (by eapply lookup_lt_Some). injection Hj as <-. by right.
      * rewrite list_lookup_insert_ne in Hj by done. left. by eapply list_elem_of_lookup_2.
  - destruct (rebuild_insert_ok p h es pos key enc Hrep) as (p' & Hp' & Hrep');
      [apply Hres|by rewrite Hvs|done|].
    exists p', (insert_at pos (key, enc) es). pose proof (sorted_insert_at _ _ _ enc Hs Hres) as Hs'.
    rewrite zlen_insert_at. split_and!; [|done|done|by apply to_map_insert_at|].
    + unfold insert_in_leaf. eapply run_lift_bind; [done|]. cbn [default].
      eapply run_lift_bind; [done|]. eapply run_bind; [apply run_write; [assumption|page_size]|].
      unfold grown. rewrite (cut_absent es pos key Hres). apply (run_len_incr (put_page id p' v)).
    + intros e He. rewrite insert_at_perm in He. apply elem_of_cons in He as [->|]; [by right|by left].
Qed.

(** The effect of an insertion below page [id], from view [v] to [v']: the subtree holds
    the new entry, its pages are the old ones and freshly allocated ones, and no other
    page has changed. *)
Record inserted (v v' : view) (n : nat) (id : PageId) (lo hi : option bytes) (f : PageId)
    (nx : option PageId) (fp : list PageId) (kvs : list entry) (fp' : list PageId)
    (kvs' : list entry) : Prop := {
  in_tree : tree (v_pages v') n id lo hi f nx fp' kvs';
  in_map : to_map kvs' = <[key := enc]> (to_map kvs);
  in_nodup : NoDup fp';
  in_new : forall i, i ∈ fp' -> i ∈ fp \/ v_next v <= i < v_next v';
  in_other : forall i, i ∉ fp -> i < v_next v -> v_pages v' !! i = v_pages v !! i;
  in_next : v_next v <= v_next v' <= v_next v + Z.of_nat n;
  in_root : v_root v' = v_root v;
  in_len : v_len v' = grown (to_map kvs) (v_len v)
}.

(** What a subtree needs for the loop to go on at its root. *)
Record ready (v : view) (n : nat) (id : PageId) (lo hi : option bytes) (f : PageId)
    (nx : option PageId) (fp : list PageId) (kvs : list entry) : Prop := {
  rd_tree : tree (v_pages v) n id lo hi f nx fp kvs;
  rd_nodup : NoDup fp;
  rd_below : forall i, i ∈ fp -> i < v_next v;
  rd_next : id_lo <= v_next v
}.

Definition insert_spec (n : nat) : Prop :=
  forall fuel v id lo hi f nx fp kvs,
    (n < fuel)%nat -> ready v n id lo hi f nx fp kvs -> v_next v + Z.of_nat n < id_hi -> has_room (v_pages v) id ->
    ge_lo lo key -> lt_hi key hi ->
    exists v' fp' kvs', run_to (insert_loop fuel key enc id) v tt v' /\
      inserted v v' n id lo hi f nx fp kvs fp' kvs'.

Lemma insert_spec_leaf : insert_spec 0.
Proof using Hkey Henc.
  intros fuel v id lo hi f nx fp kvs Hfuel [Ht Hnd Hbl Hnx] _ (p & Hp & h & es & Hrep & Hroom) Hlo Hhi.
  destruct fuel as [|fuel]; [lia|].
  inversion Ht as [? h' es' ? ? ? (p' & Hp' & Hrep') Hty Hs Hb Hh Hn Hid|]; subst.
  rewrite Hp in Hp'. injection Hp' as <-. destruct (rep_fun _ _ _ _ _ Hrep Hrep') as [-> ->].
  destruct (run_insert_in_leaf v f p h' kvs Hp Hrep' Hty Hs Hroom Hid)
    as (p' & es' & Hrun & Hrp & Hs' & Hmap & Hin).
  eexists _, [f], es'. split.
  - cbn [insert_loop]. eapply run_bind; [by apply run_read_or|].
    eapply run_lift_bind; [apply (rep_header p h' kvs Hrep')|]. rewrite Hty, Z.eqb_refl. exact Hrun.
  - split; cbn; try done; try lia; [|naive_solver|].
    + eapply tree_leaf; [by apply node_insert|done|done| |done|done|done].
      intros e [He|He]%Hin; [by apply Hb|by rewrite He].
    + intros i Hi _. rewrite lookup_insert_ne; [done|]. set_solver.
Qed.

(** Continue the loop at the child in position [pos] of an internal page, whatever brought
    it there, and put the result back under the page. *)
Lemma insert_in_child n fuel v id h es lo hi f nx fp kvs pos c :
  insert_spec n -> (n < fuel)%nat ->
  ready v (S n) id lo hi f nx (id :: fp) kvs -> v_next v + Z.of_nat n < id_hi ->
  node (v_pages v) id h es -> page_type h = PAGE_TYPE_INTERNAL -> 1 <= zlen es -> id_in id ->
  forest (v_pages v) n lo hi (left_child h) es f nx fp kvs -> (pos <= length es)%nat ->
  children h es !! pos = Some c -> has_room (v_pages v) c ->
  ge_lo lo key -> lt_hi key hi ->
  ge_lo (match pos with O => lo | S i => fst <$> es !! i end) key ->
  lt_hi key (match es !! pos with Some e => Some e.1 | None => hi end) ->
  exists v' fp' kvs', run_to (insert_loop fuel key enc c) v tt v' /\
    inserted v v' (S n) id lo hi f nx (id :: fp) kvs fp' kvs' /\ v_next v' <= v_next v + Z.of_nat n.
Proof.
  intros Hspec Hfuel [_ Hnd Hbl Hn0] Hn1 Hnode Hty Hes Hid Hf Hpos Hc Hroom Hlo Hhi Hlo' Hhi'.
  destruct (forest_zip _ _ _ _ _ _ _ _ _ _ pos Hf Hpos) as
    (c' & lo' & hi' & f' & nx' & fpL & fpc & fpR & kL & kc & kR & Hc' & Elo & Ehi & Htc & -> & -> & HL & HR & _ & Hput).
  unfold children in Hc. rewrite Hc in Hc'. injection Hc' as <-. rewrite <-Elo in Hlo'. rewrite <-Ehi in Hhi'.
  apply NoDup_cons in Hnd as [Hidn Hnd].
  assert (Hndc : NoDup fpc) by (apply NoDup_app in Hnd as (_ & _ & Hnd); by apply NoDup_app in Hnd as (? & _ & _)).
  destruct (Hspec fuel v c lo' hi' f' nx' fpc kc Hfuel) as (v' & fpc' & kc' & Hrun & [Ht' Hm' Hnd' Hnew Hoth Hnx' Hrt Hln]);
    [split; [done|done|set_solver|lia]|done|done|done|done|].
  exists v', (id :: fpL ++ fpc' ++ fpR), (kL ++ kc' ++ kR). split; [done|]. split; [|lia].
  assert (Hsep : forall i, i ∈ fpL ++ fpR -> i ∉ fpc).
  { intros i Hi Hic. apply NoDup_app in Hnd as (_ & HdL & Hnd). apply NoDup_app in Hnd as (_ & HdR & _). set_solver. }
  assert (Hold : forall i, i ∈ id :: fpL ++ fpR -> v_pages v' !! i = v_pages v !! i).
  { intros i Hi. apply Hoth; [|apply Hbl; set_solver].
    apply elem_of_cons in Hi as [->|Hi]; [set_solver|by apply Hsep]. }
  split; try lia; try done.
  - eapply tree_node; [eapply node_frame; [done|]; apply Hold; set_solver|done|done|done|].
    rewrite <-(take_drop pos es). apply (Hput (v_pages v') []); [|by apply forest_one].
    intros i Hi. apply Hold. set_solver.
  - unfold to_map in *. rewrite !list_to_map_app, Hm'.
    rewrite insert_union_r, insert_union_l; [done|]. apply to_map_absent. intros e He Ee.
    apply (bytes_lt_irrefl key). rewrite <-Ee at 1. by eapply HL.
  - apply NoDup_cons. split.
    + intros Hi. assert (i_new : id ∈ fpc') by set_solver. destruct (Hnew id i_new); [set_solver|].
      assert (id < v_next v) by (apply Hbl; set_solver). lia.
    + apply (nodup_mid fpL fpc fpc' fpR Hnd Hnd'). intros i Hi1 Hi2.
      destruct (Hnew i Hi1); [done|]. assert (i < v_next v) by (apply Hbl; set_solver). lia.
  - intros i Hi. assert (Hc2 : i ∈ fpc' \/ i ∈ id :: fpL ++ fpR) by set_solver.
    destruct Hc2 as [Hi'|Hi']; [|set_solver]. destruct (Hnew i Hi'); [set_solver|by right].
  - intros i Hi Hlt. apply Hoth; [set_solver|done].
  - rewrite Hln. unfold grown. by rewrite to_map_middle by (intros; first [by eapply HL|by eapply HR]).
Qed.


Lemma tree_page ps n id lo hi f nx fp kvs :
  tree ps n id lo hi f nx fp kvs -> exists p h es, ps !! id = Some p /\ rep p h es.
Proof.
  intros Ht. inversion Ht as [? h es ? ? ? (p & Hp & Hrep)|? ? h es ? ? ? ? ? ? (p & Hp & Hrep)]; subst; eauto.
Qed.

(** The view after a full child of [id] has been split. *)
Definition split_view (v : view) (c id : PageId) (pl pr pp : Page) : view :=
  put_page id pp (put_page (v_next v) pr (put_page c pl (bump v))).

Lemma run_split_child v n id p h es c pc hc ec lo' hi' f' nx' fpc kc pos :
  v_pages v !! id = Some p -> rep p h es -> page_type h = PAGE_TYPE_INTERNAL ->
  page_has_room_for_one_more h = true -> (pos <= length es)%nat ->
  v_pages v !! c = Some pc -> rep pc hc ec -> page_is_full_for_insert hc = true ->
  tree (v_pages v) n c lo' hi' f' nx' fpc kc -> NoDup fpc -> id_in id -> id_in (v_next v) ->
  exists sep pl pr pp,
    run_to (split_child_and_update_parent id p h c pc hc (Z.of_nat pos)) v (sep, v_next v)
      (split_view v c id pl pr pp) /\
    halves (v_pages v) n c (v_next v) lo' hi' f' nx' fpc kc sep pl pr /\
    rep pp (with_key_count h (zlen es + 1)) (insert_at (Z.of_nat pos) (sep, le_bytes 8 (v_next v)) es).
Proof.
  intros Hp Hrep Hty Hroom Hpos Hpc Hrepc Hfull Htc Hnd Hidi Hr.
  pose proof (proj1 (proj1 (tree_forest_ids (v_pages v)) _ _ _ _ _ _ _ _ Htc)) as Hcid.
  destruct (split_halves _ _ _ _ _ _ _ _ _ _ _ _ _ Htc Hpc Hrepc Hfull Hnd Hr)
    as (sep & pl0 & pr0 & pl & pr & Hsp & Hlk & Hhv).
  set (es1 := insert_at (Z.of_nat pos) (sep, le_bytes 8 (v_next v)) es).
  assert (Hz : zlen es1 = zlen es + 1) by apply zlen_insert_at.
  assert (Hvs : vsz h = 8) by (unfold vsz; rewrite Hty; reflexivity).
  destruct (encode_entries_ok p es1 h) as (pp & Hpp & Hreppp); [apply Hrep|apply Hrep| | |].
  { apply entry_sized_insert_at; [apply (rep_sized p h es Hrep)|]. rewrite Hvs. split; [apply Hhv|done]. }
  { apply has_room_spec in Hroom. rewrite (rp_count _ _ _ Hrep) in Hroom. by rewrite Hz. }
  exists sep, pl, pr, pp. rewrite Hz in Hreppp. split_and!; [|done|done].
  unfold split_child_and_update_parent.
  eapply run_lift_bind; [apply (collect_entries_ok pc hc ec Hrepc)|].
  eapply run_bind; [apply run_alloc|].
  eapply run_lift_bind; [exact Hsp|]. cbv beta iota.
  eapply run_lift_bind; [exact Hlk|]. cbv beta iota.
  do 2 (eapply run_bind; [apply run_write; [assumption|apply (halves_len _ _ _ _ _ _ _ _ _ _ _ _ _ Hhv)]|]).
  eapply run_lift_bind; [apply (collect_entries_ok p h es Hrep)|].
  eapply run_lift_bind.
  { unfold vec_insert. destruct (Z.leb_spec (Z.of_nat pos) (zlen es)); [reflexivity|unfold zlen in *; lia]. }
  unfold es1, insert_at in Hpp. eapply run_lift_bind; [exact Hpp|].
  eapply run_bind; [apply run_write; [assumption|page_size]|]. apply run_ret.
Qed.

(** The tree after the split, and how it relates to the tree before it. *)
Lemma split_ready v n id h es lo hi f nx fpL fpc fpR kL kc kR pos c lo' hi' f' nx' sep pl pr pp :
  ready v (S n) id lo hi f nx (id :: fpL ++ fpc ++ fpR) (kL ++ kc ++ kR) -> v_next v + 1 < id_hi ->
  page_type h = PAGE_TYPE_INTERNAL -> id_in id -> (pos <= length es)%nat -> c ∈ fpc ->
  (forall ps' mid fpm km, (forall i, i ∈ fpL ++ fpR -> ps' !! i = v_pages v !! i) ->
     forest ps' n lo' hi' c mid f' nx' fpm km ->
     forest ps' n lo hi (left_child h) (take pos es ++ mid ++ drop pos es) f nx
       (fpL ++ fpm ++ fpR) (kL ++ km ++ kR)) ->
  halves (v_pages v) n c (v_next v) lo' hi' f' nx' fpc kc sep pl pr ->
  rep pp (with_key_count h (zlen es + 1)) (insert_at (Z.of_nat pos) (sep, le_bytes 8 (v_next v)) es) ->
  let v1 := split_view v c id pl pr pp in
  exists fp1, fp1 ≡ₚ v_next v :: fpL ++ fpc ++ fpR /\
    ready v1 (S n) id lo hi f nx (id :: fp1) (kL ++ kc ++ kR) /\
    forest (v_pages v1) n lo hi (left_child h)
      (insert_at (Z.of_nat pos) (sep, le_bytes 8 (v_next v)) es) f nx fp1 (kL ++ kc ++ kR) /\
    v_pages v1 !! c = Some pl /\ v_pages v1 !! v_next v = Some pr /\ v_pages v1 !! id = Some pp /\
    v_next v1 = v_next v + 1 /\
    (forall i, i ∉ id :: fpL ++ fpc ++ fpR -> i < v_next v -> v_pages v1 !! i = v_pages v !! i).
Proof.
  pose proof id_lo_pos as Hlo0. pose proof id_hi_u64 as Hhi0. intros [_ Hnd Hbl Hn0] Hn1 Hty Hid Hpos Hc Hput (Hsep & Hgt & Hlt & Hrl & Hrr & Hhv) Hpp v1.
  apply NoDup_cons in Hnd as [Hidn Hnd].
  assert (Hidr : id < v_next v) by (apply Hbl; set_solver).
  assert (Hcr : c < v_next v) by (apply Hbl; set_solver).
  assert (Hcid : c <> id) by (intros ->; apply Hidn; set_solver).
  assert (Hnx : v_next v1 = v_next v + 1) by (cbn; apply Z.mod_small; lia).
  assert (H1 : v_pages v1 !! c = Some pl) by (cbn; rewrite !lookup_insert_ne by lia; apply lookup_insert_eq).
  assert (H2 : v_pages v1 !! v_next v = Some pr) by (cbn; rewrite lookup_insert_ne by lia; apply lookup_insert_eq).
  assert (H3 : v_pages v1 !! id = Some pp) by (cbn; apply lookup_insert_eq).
  assert (Hoth : forall i, i <> id -> i <> c -> i < v_next v -> v_pages v1 !! i = v_pages v !! i)
    by (intros i ? ? ?; cbn; rewrite !lookup_insert_ne by lia; done).
  assert (Hdisj : forall i, i ∈ fpL ++ fpR -> i ∉ fpc).
  { intros i Hi Hic. apply NoDup_app in Hnd as (_ & HdL & Hnd). apply NoDup_app in Hnd as (_ & HdR & _). set_solver. }
  destruct (Hhv (v_pages v1)) as (f2 & fpa & fpb & ka & kb & Hta & Htb & Hperm & ->); [done|done| |].
  { intros i Hi Hic. apply Hoth; [intros ->; set_solver|done|apply Hbl; set_solver]. }
  assert (Hf1 : forest (v_pages v1) n lo hi (left_child h)
     (insert_at (Z.of_nat pos) (sep, le_bytes 8 (v_next v)) es) f nx (fpL ++ (fpa ++ fpb) ++ fpR) (kL ++ (ka ++ kb) ++ kR)).
  { unfold insert_at. rewrite Nat2Z.id.
    apply (Hput (v_pages v1) [(sep, le_bytes 8 (v_next v))]).
    - intros i Hi. apply Hoth; [intros ->; set_solver|intros ->; by apply (Hdisj c)|apply Hbl; set_solver].
    - eapply forest_cons; [done|done|exact Hta|]. by apply forest_one. }
  exists (fpL ++ (fpa ++ fpb) ++ fpR). assert (Hp1 : fpL ++ (fpa ++ fpb) ++ fpR ≡ₚ v_next v :: fpL ++ fpc ++ fpR).
  { rewrite Hperm. cbn. by rewrite <-Permutation_middle. }
  split_and!; try done; [|intros i Hi Hlt'; apply Hoth; set_solver].
  split.
  - eapply tree_node; [by exists pp|done| |done|exact Hf1]. rewrite zlen_insert_at. pose proof (zlen_nonneg es). lia.
  - apply NoDup_cons. rewrite Hp1. split.
    + intros [->|Hi]%elem_of_cons; [lia|done].
    + apply NoDup_cons. split; [|done]. intros Hi. assert (v_next v < v_next v) by (apply Hbl; set_solver). lia.
  - intros i Hi. rewrite Hp1 in Hi. rewrite Hnx. apply elem_of_cons in Hi as [->|Hi]; [lia|].
    apply elem_of_cons in Hi as [->|Hi]; [lia|]. assert (i < v_next v) by (apply Hbl; set_solver). lia.
  - rewrite Hnx. lia.
Qed.

Lemma children_insert_at h n pos sep r es :
  (pos <= length es)%nat -> id_in r ->
  children (with_key_count h n) (insert_at (Z.of_nat pos) (sep, le_bytes 8 r) es) !! pos = children h es !! pos /\
  children (with_key_count h n) (insert_at (Z.of_nat pos) (sep, le_bytes 8 r) es) !! S pos = Some r.
Proof.
  intros Hpos Hr. unfold children. cbn [left_child with_key_count]. split.
  - destruct pos as [|i]; [done|]. rewrite !lookup_cons, !list_lookup_fmap.
    rewrite lookup_insert_at_nat by done. by rewrite decide_True by lia.
  - rewrite lookup_cons, list_lookup_fmap, lookup_insert_at_nat by done.
    rewrite decide_False, decide_True by lia. cbn [fmap option_fmap option_map snd].
    rewrite le_val_u64; [done|]. apply id_in_u64 in Hr. lia.
Qed.

(** The bounds of the two halves in the page after the split. *)
Lemma bounds_insert_at es pos sep w lo hi k :
  (pos <= length es)%nat ->
  let es1 := insert_at (Z.of_nat pos) (sep, w) es in
  ge_lo (match pos with O => lo | S i => fst <$> es !! i end) k ->
  lt_hi k (match es !! pos with Some e => Some e.1 | None => hi end) ->
  let pos' := if bytes_leb sep k then S pos else pos in
  (pos' <= length es1)%nat /\
  ge_lo (match pos' with O => lo | S i => fst <$> es1 !! i end) k /\
  lt_hi k (match es1 !! pos' with Some e => Some e.1 | None => hi end).
Proof.
  intros Hpos es1 Hlo Hhi pos'. pose proof (zlen_insert_at (Z.of_nat pos) (sep, w) es) as Hz.
  assert (Hl : length es1 = S (length es)) by (unfold es1, zlen in *; lia).
  unfold pos'. unfold bytes_leb. destruct (bytes_cmp sep k) eqn:Ec.
  1,2: assert (Hle : bytes_le sep k) by (unfold bytes_le; by rewrite Ec).
  1,2: split; [lia|]; unfold es1; rewrite !lookup_insert_at_nat by done.
  1,2: rewrite decide_False, decide_True, !decide_False by lia; split; [done|].
  1,2: by rewrite Nat.sub_succ, Nat.sub_0_r.
  assert (Hlt : bytes_lt k sep) by (unfold bytes_lt; by rewrite bytes_cmp_antisym, Ec).
  split; [lia|]. unfold es1. split.
  - destruct pos as [|i]; [done|]. rewrite lookup_insert_at_nat by done. by rewrite decide_True by lia.
  - rewrite lookup_insert_at_nat by done. by rewrite decide_False, decide_True by lia.
Qed.

Lemma insert_spec_step n : insert_spec n -> insert_spec (S n).
Proof.
  intros Hspec fuel v id lo hi f nx fp kvs Hfuel [Ht Hnd Hbl Hnx] Hsmall (p & Hp & h0 & es0 & Hrep0 & Hroom) Hlo Hhi.
  destruct fuel as [|fuel]; [lia|].
  inversion Ht as [|n' ? h es ? ? ? ? fp' ? (p' & Hp' & Hrep) Hty Hl Hid Hf]; subst.
  rewrite Hp in Hp'. injection Hp' as <-. destruct (rep_fun _ _ _ _ _ Hrep0 Hrep) as [-> ->]. clear Hrep0.
  destruct (route _ _ _ _ _ _ _ _ _ _ _ _ key Hp Hrep Hty Hf Hlo Hhi)
    as (pos & c & Hpos & Hlen & Hcid & Hch & Hlo' & Hhi').
  destruct (forest_zip _ _ _ _ _ _ _ _ _ _ pos Hf Hlen) as
    (c' & lo' & hi' & f' & nx' & fpL & fpc & fpR & kL & kc & kR & Hc' & Elo & Ehi & Htc & -> & -> & HL & HR & _ & Hput).
  assert (c' = c) as -> by (unfold children in Hch; congruence). clear Hc'.
  destruct (tree_page _ _ _ _ _ _ _ _ _ Htc) as (pc & hc & ec & Hpc & Hrepc).
  pose proof (proj1 (tree_forest_ids (v_pages v)) _ _ _ _ _ _ _ _ Htc) as (Hcin & Hcfp & _).
  assert (Hcne : c <> id) by (intros ->; apply NoDup_cons in Hnd as [Hni _]; apply Hni; set_solver).
  assert (Hstart : forall (m : st (PageBPlusTree P) Error unit) v',
    run_to m v tt v' ->
    m = (if page_is_full_for_insert hc then
           if negb (page_has_room_for_one_more h) then throw (InvalidPageSize id PAGE_SIZE)
           else '(separator, right_id) ← split_child_and_update_parent id p h c pc hc (Z.of_nat pos);
                if bytes_leb separator key then
                  _ ← acquire_write_latch [write_held c; write_held id] right_id; insert_loop fuel key enc right_id
                else insert_loop fuel key enc c
         else insert_loop fuel key enc c) ->
    run_to (insert_loop (S fuel) key enc id) v tt v').
  { intros m v' Hm ->. cbn [insert_loop]. eapply run_bind; [by apply run_read_or|].
    eapply run_lift_bind; [apply (rep_header p h es Hrep)|]. rewrite leaf_page_type by done.
    eapply run_lift_bind; [done|]. eapply run_lift_bind; [done|].
    eapply run_bind; [apply (run_latch_pages [id]); [exact Hcin|by apply Forall_singleton|by intros ->%list_elem_of_singleton]|].
    eapply run_bind; [by apply run_read_or|].
    eapply run_lift_bind; [apply (rep_header pc hc ec Hrepc)|]. exact Hm. }
  destruct (page_is_full_for_insert hc) eqn:Hfull.
  - rewrite Hroom in Hstart. cbn [negb] in Hstart.
    assert (Hndc : NoDup fpc).
    { apply NoDup_cons in Hnd as [_ Hnd]. apply NoDup_app in Hnd as (_ & _ & Hnd). by apply NoDup_app in Hnd as (? & _ & _). }
    assert (Hrid : id_in (v_next v)) by (unfold id_in; lia).
    destruct (run_split_child v n id p h es c pc hc ec lo' hi' f' nx' fpc kc pos)
      as (sep & pl & pr & pp & Hrun1 & Hhv & Hpp); try done.
    destruct (split_ready v n id h es lo hi f nx fpL fpc fpR kL kc kR pos c lo' hi' f' nx' sep pl pr pp)
      as (fp1 & Hperm & Hrdy & Hf1 & Hvc & Hvr & Hvi & Hnx1 & Hoth); try done; [lia|].
    set (v1 := split_view v c id pl pr pp) in *.
    set (es1 := insert_at (Z.of_nat pos) (sep, le_bytes 8 (v_next v)) es) in *.
    destruct (bounds_insert_at es pos sep (le_bytes 8 (v_next v)) lo hi key Hlen Hlo' Hhi') as (Hp1 & Hl1 & Hh1).
    destruct (children_insert_at h (zlen es + 1) pos sep (v_next v) es Hlen Hrid) as [Hch0 Hch1].
    fold es1 in Hp1, Hl1, Hh1, Hch0, Hch1. destruct Hhv as (_ & _ & _ & Hrl & Hrr & _).
    set (next := if bytes_leb sep key then v_next v else c).
    destruct (insert_in_child n fuel v1 id (with_key_count h (zlen es + 1)) es1 lo hi f nx fp1 (kL ++ kc ++ kR)
      (if bytes_leb sep key then S pos else pos) next Hspec) as (v' & fp' & kvs' & Hrun & Hins & Hb); try done.
    + lia.
    + rewrite Hnx1. lia.
    + by exists pp.
    + unfold es1. rewrite zlen_insert_at. lia.
    + unfold next. destruct (bytes_leb sep key); [done|]. by rewrite Hch0.
    + unfold next. destruct (bytes_leb sep key); [by exists pr|by exists pl].
    + exists v', fp', kvs'. split.
      * eapply Hstart; [|done]. eapply run_bind; [exact Hrun1|]. cbv beta iota. unfold next in Hrun.
        destruct (bytes_leb sep key); [|exact Hrun]. eapply run_bind; [|exact Hrun]. apply (run_latch_pages [c; id]); [exact Hrid| |].
        -- by apply Forall_cons; split; [|apply Forall_singleton].
        -- intros Hi. assert (v_next v < v_next v) by (apply Hbl; set_solver). lia.
      * destruct Hins as [? ? ? Hnew Ho Hn ? Hln]. split; try done; [| |lia].
        -- intros i Hi. destruct (Hnew i Hi) as [Hi'|Hi']; [|right; lia].
           apply elem_of_cons in Hi' as [->|Hi']; [left; set_solver|]. rewrite Hperm in Hi'.
           apply elem_of_cons in Hi' as [->|Hi']; [right; lia|left; set_solver].
        -- intros i Hi Hlt. rewrite Ho; [by apply Hoth| |lia]. rewrite Hperm.
           intros [->|Hi']%elem_of_cons; [set_solver|]. apply elem_of_cons in Hi' as [->|Hi']; [lia|set_solver].
  - destruct (insert_in_child n fuel v id h es lo hi f nx (fpL ++ fpc ++ fpR) (kL ++ kc ++ kR) pos c Hspec) as (v' & fp' & kvs' & Hrun & Hins & _);
      try done; [lia|lia|by exists p| |].
    { exists pc. split; [done|]. exists hc, ec. split; [done|]. by apply negb_false_iff. }
    exists v', fp', kvs'. split; [|done]. by eapply Hstart.
Qed.

Lemma insert_spec_all n : insert_spec n.
Proof using Hkey Henc. induction n; [apply insert_spec_leaf|by apply insert_spec_step]. Qed.


(** ** The root *)

Definition root_split_view (v : view) (pl pr pt : Page) : view :=
  at_root (v_next v + 1) (put_page (v_next v + 1) pt
    (bump (put_page (v_next v) pr (put_page (v_root v) pl (bump v))))).

Lemma run_root_split v n p h es fp kvs f nx :
  tree (v_pages v) n (v_root v) None None f nx fp kvs -> NoDup fp ->
  v_pages v !! v_root v = Some p -> rep p h es -> page_is_full_for_insert h = true ->
  id_lo <= v_next v -> v_next v + 1 < id_hi ->
  exists sep pl pr pt,
    run_to ensure_root_not_full v tt (root_split_view v pl pr pt) /\
    halves (v_pages v) n (v_root v) (v_next v) None None f nx fp kvs sep pl pr /\
    exists ht, rep pt ht [(sep, le_bytes 8 (v_next v))] /\ page_type ht = PAGE_TYPE_INTERNAL /\
      left_child ht = v_root v /\ page_has_room_for_one_more ht = true.
Proof.
  intros Ht Hnd Hp Hrep Hfull Hn0 Hn1. pose proof id_lo_pos as Hlo0. pose proof id_hi_u64 as Hhi0.
  assert (Hr : id_in (v_next v)) by (unfold id_in; lia). assert (Hr1 : id_in (v_next v + 1)) by (unfold id_in; lia).
  destruct (split_halves _ _ _ _ _ _ _ _ _ _ _ _ _ Ht Hp Hrep Hfull Hnd Hr)
    as (sep & pl0 & pr0 & pl & pr & Hsp & Hlk & Hhv).
  pose proof (proj1 (tree_forest_ids (v_pages v)) _ _ _ _ _ _ _ _ Ht) as (Hroot & _).
  set (lv := Z.min (level h + 1) 255).
  destruct (btree_new_page_ok PAGE_TYPE_INTERNAL lv) as (p0 & Hp0 & Hl0 & Hrep0).
  assert (Hlv : is_byte lv). { pose proof (hk_level _ (rp_ok _ _ _ Hrep)). unfold is_byte, lv in *. lia. }
  specialize (Hrep0 ltac:(unfold is_byte, PAGE_TYPE_INTERNAL; lia) Hlv).
  match type of Hrep0 with rep _ ?x _ => set (h0 := x) in * end.
  assert (Hok : hdr_ok (with_left h0 (v_root v))).
  { apply hdr_ok_left; [apply Hrep0|apply id_in_u64 in Hroot; lia]. }
  destruct (encode_entries_ok p0 [(sep, le_bytes 8 (v_next v))] (with_left h0 (v_root v)))
    as (pt & Hpt & Hrept); [done|done| | |].
  { apply Forall_singleton. split; [apply Hhv|reflexivity]. }
  { change (zlen [(sep, le_bytes 8 (v_next v))]) with 1. vm_compute. discriminate. }
  assert (Hwr : wrap64 (v_next v + 1) = v_next v + 1) by (apply Z.mod_small; lia).
  exists sep, pl, pr, pt. split_and!; [|done|].
  - unfold ensure_root_not_full. eapply run_bind; [apply run_get_root|].
    eapply run_bind; [by apply run_latch_root|]. eapply run_bind; [by apply run_read_or|].
    eapply run_lift_bind; [apply (rep_header p h es Hrep)|]. rewrite Hfull. cbn [negb].
    eapply run_lift_bind; [apply (collect_entries_ok p h es Hrep)|].
    eapply run_bind; [apply run_alloc|].
    eapply run_lift_bind; [exact Hsp|]. cbv beta iota.
    eapply run_lift_bind; [exact Hlk|]. cbv beta iota.
    do 2 (eapply run_bind; [apply run_write; [assumption|apply (halves_len _ _ _ _ _ _ _ _ _ _ _ _ _ Hhv)]|]).
    eapply run_lift_bind; [exact Hp0|].
    eapply run_lift_bind; [apply (rep_header p0 h0 [] Hrep0)|].
    eapply run_lift_bind; [exact Hpt|]. eapply run_bind; [apply run_alloc|].
    cbn [v_next put_page bump]. rewrite Hwr. unfold root_split_view.
    eapply run_bind; [apply run_write; [assumption|page_size]|]. apply run_set_root.
  - eexists. split_and!; [exact Hrept|done|done|]. apply room_of_count. right. split; [done|reflexivity].
Qed.

Lemma run_ensure_root v n f nx fp kvs :
  ready v n (v_root v) None None f nx fp kvs -> v_next v + 2 < id_hi ->
  exists v' n' fp', run_to ensure_root_not_full v tt v' /\
    ready v' n' (v_root v') None None f nx fp' kvs /\ has_room (v_pages v') (v_root v') /\
    (n' <= S n)%nat /\ v_next v <= v_next v' <= v_next v + 2 /\ v_len v' = v_len v.
Proof.
  intros [Ht Hnd Hbl Hn0] Hn1. pose proof id_lo_pos as Hlo0. pose proof id_hi_u64 as Hhi0. destruct (tree_page _ _ _ _ _ _ _ _ _ Ht) as (p & h & es & Hp & Hrep).
  destruct (page_is_full_for_insert h) eqn:Hfull.
  2:{ exists v, n, fp. split_and!; [|done| |lia|lia|lia|done].
      - unfold ensure_root_not_full. eapply run_bind; [apply run_get_root|].
        eapply run_bind; [apply run_latch_root, (proj1 (tree_forest_ids (v_pages v)) _ _ _ _ _ _ _ _ Ht)|].
        eapply run_bind; [by apply run_read_or|].
        eapply run_lift_bind; [apply (rep_header p h es Hrep)|]. rewrite Hfull. apply run_ret.
      - exists p. split; [done|]. exists h, es. split; [done|]. by apply negb_false_iff. }
  destruct (run_root_split v n p h es fp kvs f nx) as
    (sep & pl & pr & pt & Hrun & (Hsz & _ & _ & _ & _ & Hhv) & ht & Hrept & Hty & Hlc & Hroom); [done..|lia|].
  pose proof (proj1 (tree_forest_ids (v_pages v)) _ _ _ _ _ _ _ _ Ht) as (Hroot & Hrfp & _).
  assert (Hrn : v_root v < v_next v) by (by apply Hbl).
  set (v' := root_split_view v pl pr pt) in *.
  assert (Hnx : v_next v' = v_next v + 2)
    by (cbn; unfold wrap64; rewrite (Z.mod_small (v_next v + 1)), Z.mod_small by lia; lia).
  assert (Hpt : v_pages v' !! (v_next v + 1) = Some pt) by (cbn; apply lookup_insert_eq).
  assert (Hfr : forall i, i <> v_root v -> i < v_next v -> v_pages v' !! i = v_pages v !! i)
    by (intros i ? ?; cbn; rewrite !lookup_insert_ne by lia; done).
  destruct (Hhv (v_pages v')) as (f2 & fpa & fpb & ka & kb & Hta & Htb & Hperm & ->).
  { cbn. rewrite !lookup_insert_ne by lia. apply lookup_insert_eq. }
  { cbn. rewrite lookup_insert_ne by lia. apply lookup_insert_eq. }
  { intros i Hi ?. apply Hfr; [done|by apply Hbl]. }
  exists v', (S n), ((v_next v + 1) :: fpa ++ fpb). split_and!; [done| | |lia|lia|lia|done].
  - split; [|..].
    + eapply tree_node; [by exists pt|done|done|unfold id_in; lia|]. rewrite Hlc.
      eapply forest_cons; [done|done|exact Hta|by apply forest_one].
    + rewrite Hperm. apply NoDup_cons. split.
      * intros [?|Hi]%elem_of_cons; [lia|]. apply Hbl in Hi. lia.
      * apply NoDup_cons. split; [|done]. intros Hi. apply Hbl in Hi. lia.
    + intros i Hi. rewrite Hperm in Hi. rewrite Hnx. apply elem_of_cons in Hi as [->|Hi]; [lia|].
      apply elem_of_cons in Hi as [->|Hi]; [lia|]. apply Hbl in Hi. lia.
    + lia.
  - exists pt. split; [done|]. by eexists _, _.
Qed.

End Insert.
