(* ===== verification/BtreeMap.v ===== *)
(** * BtreeMap: the B+tree refines a finite map

    [tree_ok t m] relates a tree of src/src/page_bptree.rs to the finite map from keys to
    leaf values it stores.  The theorems show that the constructor establishes it, that
    [insert] is the insertion of the map and that [get] is its lookup; each says that the
    code returns (no panic, no error, enough fuel) on every tree the relation holds of. *)

From stdpp Require Import base numbers list list_numbers gmap fin_maps.
From S2P Require Import Prelude Common SlottedPage BtreePage Latch Provider Btree BtreeInv BtreeRun BtreeInsert.
Import Bp BpSpec Btree.

Abbreviation lvmap := (gmap (list Z) LeafValue) (only parsing).

Section TreeOk.
Context {R : IdRange} {P : Type} `{PageProviderLaws P}.

Definition tree_ok (t : PageBPlusTree P) (m : lvmap) : Prop :=
  provider_ok R (provider t) /\ exists n f fp kvs, ready (vw t) n (v_root (vw t)) None None f None fp kvs /\
    to_map kvs = encode_leaf_value <$> m /\ map_Forall (fun _ => lv_ok) m /\
    len t = wrap64 (Z.of_nat (size m)) /\ v_next (vw t) < id_hi.

(** Distinct page ids below [next] are fewer than [next]. *)
Lemma nodup_ids_bound (fp : list Z) next :
  NoDup fp -> (forall i, i ∈ fp -> 0 < i < next) -> 0 < next -> zlen fp < next.
Proof.
  intros Hnd Hb Hn. assert (Hsub : fp ⊆+ seqZ 1 (next - 1)).
  { apply NoDup_submseteq; [done|]. intros i Hi%Hb. apply elem_of_seqZ. lia. }
  apply submseteq_length in Hsub. rewrite length_seqZ in Hsub. unfold zlen. lia.
Qed.

Lemma tree_forest_pos ps :
  (forall n id lo hi f nx fp kvs, tree ps n id lo hi f nx fp kvs -> forall i, i ∈ fp -> id_lo <= i) /\
  (forall n lo hi c es f nx fp kvs, forest ps n lo hi c es f nx fp kvs -> forall i, i ∈ fp -> id_lo <= i).
Proof.
  apply (tree_forest_ind ps).
  - intros id h es lo hi nx _ _ _ _ _ _ Hid i ->%list_elem_of_singleton. apply Hid.
  - intros n id h es lo hi f nx fp kvs _ _ _ Hid _ IH i [->|Hi]%elem_of_cons; [apply Hid|by apply IH].
  - done.
  - intros n c c' k es lo hi f f' nx fp fp' kvs kvs' _ _ _ IH _ IH' i [Hi|Hi]%elem_of_app; auto.
Qed.

(** A tree has fewer pages than ids were given out. *)
Lemma ready_size v n id lo hi f nx fp kvs : ready v n id lo hi f nx fp kvs -> zlen fp < v_next v.
Proof.
  intros [Ht Hnd Hbl Hn]. pose proof id_lo_pos as Hlo0. apply nodup_ids_bound; [done| |lia].
  intros i Hi. split; [|by apply Hbl]. pose proof (proj1 (tree_forest_pos _) _ _ _ _ _ _ _ _ Ht i Hi). lia.
Qed.

(** Trees are shallow: fewer than 64 levels, because there are fewer than 2^64 pages. *)
Lemma ready_height v n id f nx fp kvs :
  ready v n id None None f nx fp kvs -> v_next v < id_hi -> Z.of_nat n < 64.
Proof.
  intros Hrd Hu. pose proof (ready_size _ _ _ _ _ _ _ _ _ Hrd). pose proof id_hi_u64 as Hhi0. destruct Hrd as [Ht _ _ _].
  pose proof (proj1 (tree_forest_ids _) _ _ _ _ _ _ _ _ Ht) as (_ & _ & _ & Hp).
  assert (2 ^ Z.of_nat n < 2 ^ 64) by (change (2 ^ 64) with U64; lia).
  apply (Z.pow_lt_mono_r_iff 2); lia.
Qed.

Lemma lookup_encode (m : lvmap) k :
  map_Forall (fun _ => lv_ok) m -> lv_of_bytes <$> (encode_leaf_value <$> m) !! k = m !! k.
Proof.
  intros Hok. rewrite lookup_fmap. destruct (m !! k) as [v|] eqn:E; [|done]. cbn.
  rewrite lv_roundtrip; [done|]. by eapply Hok.
Qed.

Lemma tree_ok_get t m key :
  tree_ok t m -> exists t', get key t = (Ret (m !! key), t') /\ vw t' = vw t /\ kept t t'.
Proof.
  intros (Ho & n & f & fp & kvs & Hrd & Hmap & Hok & Hlen & Hn).
  pose proof (ready_height _ _ _ _ _ _ _ Hrd Hn). destruct Hrd as [Ht _ _ _].
  destruct (run_get (vw t) key _ _ _ _ _ Ht ltac:(lia) t Ho eq_refl) as (t' & Hg & Hv).
  exists t'. by rewrite Hg, Hmap, lookup_encode.
Qed.

(** The relation only looks at the view. *)
Lemma tree_ok_view t t' m : vw t' = vw t -> provider_ok R (provider t') -> tree_ok t m -> tree_ok t' m.
Proof.
  intros E Ho (_ & n & f & fp & kvs & Hrd & Hmap & Hok & Hlen & Hn). split; [done|]. exists n, f, fp, kvs. rewrite E.
  split_and!; try done. change (len t') with (v_len (vw t')). by rewrite E.
Qed.

Lemma tree_ok_insert fuel t m key lv :
  tree_ok t m -> zlen key = KEY_SIZE -> lv_ok lv -> (64 < fuel)%nat ->
  v_next (vw t) + 128 <= id_hi ->
  exists t', insert fuel key lv t = (Ret tt, t') /\ tree_ok t' (<[key := lv]> m) /\ kept t t' /\
    v_next (vw t) <= v_next (vw t') <= v_next (vw t) + 66.
Proof.
  intros (Ho & n & f & fp & kvs & Hrd & Hmap & Hok & Hlen & Hn) Hkey Hlv Hfuel Hroom.
  pose proof (ready_height _ _ _ _ _ _ _ Hrd Hn) as Hh.
  destruct (run_ensure_root (vw t) n f None fp kvs Hrd ltac:(lia)) as (v1 & n1 & fp1 & Hr1 & Hrd1 & Hroom1 & Hn1 & Hnx1 & Hl1).
  assert (Henc : zlen (encode_leaf_value lv) = LEAF_VALUE_SIZE) by (apply encode_leaf_value_len, Hlv).
  destruct (insert_spec_all key (encode_leaf_value lv) Hkey Henc n1 fuel v1 (v_root v1) None None f None fp1 kvs)
    as (v2 & fp2 & kvs2 & Hr2 & [Ht2 Hm2 Hnd2 Hnew2 _ Hnx2 Hrt2 Hln2]); [lia|done|lia|done|done|done|].
  assert (Hrun : run_to (insert fuel key lv) (vw t) tt v2).
  { unfold insert. rewrite Hkey, Z.eqb_refl. cbn [negb]. eapply run_bind; [apply run_write_latch_alone|].
    eapply run_bind; [exact Hr1|]. eapply run_bind; [apply run_get_root|].
    eapply run_bind; [apply run_latch_root, (proj1 (tree_forest_ids (v_pages v1)) _ _ _ _ _ _ _ _ (rd_tree _ _ _ _ _ _ _ _ _ Hrd1))|]. exact Hr2. }
  destruct (Hrun t Ho eq_refl) as (t' & Hi & <- & Hk). exists t'. split; [done|]. split; [|split; [done|lia]].
  split; [apply Hk|]. exists n1, f, fp2, kvs2. split_and!.
  - rewrite Hrt2. split; [done|done| |destruct Hrd1; lia].
    intros i Hi2. destruct (Hnew2 i Hi2) as [Hi3|Hi3]; [|lia]. destruct Hrd1 as [_ _ Hb _]. apply Hb in Hi3. lia.
  - by rewrite Hm2, Hmap, fmap_insert.
  - by apply map_Forall_insert_2.
  - change (len t') with (v_len (vw t')). rewrite Hln2, Hl1. unfold grown. rewrite Hmap, lookup_fmap.
    change (v_len (vw t)) with (len t). rewrite Hlen.
    destruct (m !! key) as [x|] eqn:E; cbn; [by rewrite map_size_insert_Some|].
    rewrite map_size_insert_None by done. unfold wrap64.
    rewrite Zplus_mod_idemp_l. f_equal. lia.
  - lia.
Qed.

(** A leaf page without entries is the empty tree. *)
Lemma tree_ok_empty t pg h :
  provider_ok R (provider t) -> len t = 0 -> v_pages (vw t) !! v_root (vw t) = Some pg -> rep pg h [] ->
  page_type h = PAGE_TYPE_LEAF -> high_key h = None -> next_leaf h = None -> id_in (v_root (vw t)) ->
  v_root (vw t) < v_next (vw t) -> v_next (vw t) < id_hi -> tree_ok t ∅.
Proof.
  intros Ho Hl Hp Hrep Hty Hh Hnx Hid Hr Hn. split; [done|]. exists 0%nat, (v_root (vw t)), [v_root (vw t)], [].
  split; [|by rewrite Hl]. split.
  - eapply tree_leaf; [by exists pg|done|done|set_solver|by intros k; rewrite Hh|done|done].
  - apply NoDup_singleton.
  - intros i ->%list_elem_of_singleton. done.
  - destruct Hid. lia.
Qed.

Lemma tree_ok_new p :
  provider_ok R p -> id_lo <= pv_next (view_of p) -> pv_next (view_of p) + 1 < id_hi ->
  exists t, new_with_provider p = Ret t /\ tree_ok t ∅ /\ v_next (vw t) = pv_next (view_of p) + 1.
Proof.
  intros Ho Hn Hu. pose proof id_lo_pos as Hlo0. pose proof id_hi_u64 as Hhi0. unfold new_with_provider.
  destruct (prov_alloc R p Ho) as (p1 & Ha & Ho1 & Hv1). rewrite Ha.
  destruct (btree_new_page_ok PAGE_TYPE_LEAF 0) as (pg & -> & _ & Hrep).
  specialize (Hrep ltac:(unfold is_byte, PAGE_TYPE_LEAF; lia) ltac:(unfold is_byte; lia)). obind.
  assert (Hid : id_in (pv_next (view_of p))) by (unfold id_in; lia).
  destruct (prov_write R _ pg p1 Ho1 Hid) as [Ho2 Hv2].
  destruct (prov_set_root R (pv_next (view_of p)) _ Ho2) as [Ho3 Hv3]. rewrite Hv2, Hv1 in Hv3.
  assert (Hw : wrap64 (pv_next (view_of p) + 1) = pv_next (view_of p) + 1) by (apply Z.mod_small; lia).
  eexists. split; [reflexivity|]. unfold vw. cbn [provider len]. rewrite Hv3. split; [|cbn; lia].
  eapply (tree_ok_empty _ pg); [done|done| |exact Hrep|done|done|done| | |];
    unfold vw; cbn [provider len]; rewrite Hv3; cbn [v_pages v_root v_next view_with pv_at_root pv_put pv_bump pv_pages pv_root pv_next].
  - apply lookup_insert_eq.
  - done.
  - lia.
  - lia.
Qed.

End TreeOk.
