(* ===== verification/BtreeCalm.v ===== *)
(** * BtreeCalm: rewriting a row where no page is full

    [insert] of src/src/page_bptree.rs splits every full page on its way down, also when it
    only rewrites a row that is there.  [roomy_leaf] is the leaf of a key when no page on the
    way to it is full; rewriting a row of such a leaf writes that page and no other, and
    leaves the way to every leaf as it was.  The two passes of a commit over its rows rely
    on it. *)

From stdpp Require Import base numbers list list_numbers gmap fin_maps.
From S2P Require Import Prelude Common SlottedPage MetaPage BtreePage Latch Provider Btree BtreeInv BtreeRun BtreeInsert BtreeMap.
Import Bp BpSpec Btree.

Fixpoint roomy_leaf (fuel : nat) (ps : gmap Z (list Z)) (id : PageId) (key : bytes) : option PageId :=
  match fuel with
  | O => None
  | S fuel =>
      match ps !! id with
      | None => None
      | Some p =>
          match page_header p with
          | Ret h =>
              if page_is_full_for_insert h then None else
              if page_type h =? PAGE_TYPE_LEAF then Some id else
              match (pos ← child_insert_pos_for_key p h key; child_id_at_pos p h pos) with
              | Ret c => roomy_leaf fuel ps c key
              | _ => None
              end
          | _ => None
          end
      end
  end.

(** The leaf has room for another row besides. *)
Definition spare_leaf (ps : gmap Z (list Z)) (leaf : PageId) : bool :=
  match ps !! leaf with
  | Some p =>
      match page_header p with
      | Ret h => page_has_room_for_one_more (with_key_count h (key_count h + 1))
      | _ => false
      end
  | None => false
  end.

(** The root may be such a leaf. *)
Lemma roomy_leaf_at fuel ps id p h key :
  ps !! id = Some p -> page_header p = Ret h -> page_is_full_for_insert h = false -> page_type h = PAGE_TYPE_LEAF ->
  roomy_leaf (S fuel) ps id key = Some id.
Proof. intros Hp Hh Hf Hty. cbn [roomy_leaf]. by rewrite Hp, Hh, Hf, Hty. Qed.

(** A leaf in the place of another, neither of them full, changes no way. *)
Lemma roomy_leaf_rewrite ps leaf p p' h h' key :
  ps !! leaf = Some p -> page_header p = Ret h -> page_header p' = Ret h' -> page_type h = PAGE_TYPE_LEAF ->
  page_type h' = PAGE_TYPE_LEAF -> page_is_full_for_insert h' = page_is_full_for_insert h ->
  forall fuel id, roomy_leaf fuel (<[leaf := p']> ps) id key = roomy_leaf fuel ps id key.
Proof.
  intros Hp Hh Hh' Hty Hty' Hfull. induction fuel as [|fuel IH]; intros id; [reflexivity|]. cbn [roomy_leaf].
  destruct (decide (id = leaf)) as [->|].
  - rewrite lookup_insert_eq, Hp, Hh, Hh', Hfull, Hty, Hty', Z.eqb_refl. reflexivity.
  - rewrite lookup_insert_ne by done. repeat case_match; auto.
Qed.

Section Calm.
Context {R : IdRange} {P : Type} `{PageProviderLaws P}.
Variable key enc : bytes.
Hypothesis Hkey : zlen key = 16.
Hypothesis Henc : zlen enc = LEAF_VALUE_SIZE.

(** The way down writes nothing. *)
Lemma run_roomy v fuel : forall n id lo hi f nx fp kvs leaf,
  tree (v_pages v) n id lo hi f nx fp kvs -> NoDup fp -> ge_lo lo key -> lt_hi key hi ->
  roomy_leaf fuel (v_pages v) id key = Some leaf ->
  exists p h es, v_pages v !! leaf = Some p /\ rep p h es /\ page_type h = PAGE_TYPE_LEAF /\ page_is_full_for_insert h = false /\ sorted es /\ id_in leaf /\
    to_map kvs !! key = to_map es !! key /\
    forall v', run_to (insert_in_leaf leaf p h key enc) v tt v' -> run_to (insert_loop fuel key enc id) v tt v'.
Proof.
  clear Hkey Henc. induction fuel as [|fuel IH]; intros n id lo hi f nx fp kvs leaf Ht Hnd Hlo Hhi; [discriminate|]. cbn [roomy_leaf].
  inversion Ht as [? h es ? ? ? Hnode Hty Hs Hb Hh Hnx Hid|n' ? h es ? ? ? ? fp' ? Hnode Hty Hl Hid Hf]; subst.
  - destruct Hnode as (p & Hp & Hrep). rewrite Hp, (rep_header p h kvs Hrep), Hty.
    destruct (page_is_full_for_insert h) eqn:Hfull; [discriminate|]. cbn. intros [= <-]. exists p, h, kvs. split_and!; try done.
    intros v' Hrun. cbn [insert_loop]. eapply run_bind; [by apply run_read_or|].
    eapply run_lift_bind; [apply (rep_header p h kvs Hrep)|]. rewrite Hty, Z.eqb_refl. exact Hrun.
  - destruct Hnode as (p & Hp & Hrep). rewrite Hp, (rep_header p h es Hrep), leaf_page_type by done.
    destruct (page_is_full_for_insert h); [discriminate|].
    destruct (route _ _ _ _ _ _ _ _ _ _ _ _ key Hp Hrep Hty Hf Hlo Hhi) as (pos & c & Hpos & Hlen & Hcid & Hch & Hlo' & Hhi').
    rewrite Hpos. cbn [mbind outcome_bind]. rewrite Hcid.
    destruct (forest_zip _ _ _ _ _ _ _ _ _ _ pos Hf Hlen) as
      (c' & lo' & hi' & f' & nx' & fpL & fpc & fpR & kL & kc & kR & Hc' & -> & -> & Htc & -> & -> & HL & HR & _ & _).
    assert (c' = c) as -> by (unfold children in Hch; congruence).
    pose proof (proj1 (tree_forest_ids (v_pages v)) _ _ _ _ _ _ _ _ Htc) as (Hcin & Hcfp & _). apply NoDup_cons in Hnd as [Hni Hnd].
    assert (Hndc : NoDup fpc) by (apply NoDup_app in Hnd as (_ & _ & Hnd); by apply NoDup_app in Hnd as (? & _ & _)).
    intros Hroomy. destruct (IH _ _ _ _ _ _ _ _ _ Htc Hndc Hlo' Hhi' Hroomy) as (pl & hl & el & Hpl & Hrepl & Htl & Hfl & Hsl & Hidl & Hml & Hrun).
    exists pl, hl, el. split_and!; try done.
    + rewrite to_map_middle; [exact Hml|intros e He; by eapply HL|intros e He; by eapply HR].
    + intros v' Hv'. destruct (tree_page _ _ _ _ _ _ _ _ _ Htc) as (pc & hc & ec & Hpc & Hrepc).
      cbn [insert_loop]. eapply run_bind; [by apply run_read_or|].
      eapply run_lift_bind; [apply (rep_header p h es Hrep)|]. rewrite leaf_page_type by done.
      eapply run_lift_bind; [done|]. eapply run_lift_bind; [done|].
      eapply run_bind; [apply (run_latch_pages [id]); [exact Hcin|by apply Forall_singleton|intros ->%list_elem_of_singleton; apply Hni; set_solver]|].
      eapply run_bind; [by apply run_read_or|].
      eapply run_lift_bind; [apply (rep_header pc hc ec Hrepc)|].
      assert (page_is_full_for_insert hc = false) as ->; [|by apply Hrun].
      destruct fuel as [|fuel]; [discriminate|]. cbn [roomy_leaf] in Hroomy. rewrite Hpc, (rep_header pc hc ec Hrepc) in Hroomy.
      by destruct (page_is_full_for_insert hc).
Qed.

(** A row that is in the leaf is rewritten in place. *)
Lemma run_overwrite_in_leaf v id p h es :
  v_pages v !! id = Some p -> rep p h es -> page_type h = PAGE_TYPE_LEAF -> sorted es -> id_in id ->
  is_Some (to_map es !! key) ->
  exists p', run_to (insert_in_leaf id p h key enc) v tt (put_page id p' v) /\ page_header p' = Ret h.
Proof using Hkey Henc.
  intros Hp Hrep Hty Hs Hid Hin. assert (Hvs : vsz h = LEAF_VALUE_SIZE) by (unfold vsz; by rewrite Hty).
  destruct (find_key_pos_ok p h es key Hrep Hs) as (found & pos & Hfind & Hres). destruct found.
  - destruct Hres as (Hpos & v0 & Hv0). pose proof (rep_bounds p h es Hrep _ _ Hv0) as Hb.
    rewrite Z2Nat.id in Hb by lia. pose proof (rp_len _ _ _ Hrep) as Hl.
    exists (upd (data_start (zlen es) + pos * esz h + 16) enc p). split.
    + unfold insert_in_leaf. eapply run_lift_bind; [done|]. cbn [default].
      eapply run_lift_bind; [by apply (entry_offset_at_ok p h es Hrep pos _ Hv0)|].
      eapply run_lift_bind; [done|].
      eapply run_lift_bind; [apply put_range_ok; rewrite ?Henc; BpSpec.clia|].
      apply run_write; [assumption|page_size].
    + apply (rep_header _ h (<[Z.to_nat pos := (key, enc)]> es)). rewrite <-(Z2Nat.id pos) at 1 by lia.
      apply (update_value_rep p h es _ _ v0); [done|done|by rewrite Hvs].
  - rewrite (cut_absent es pos key Hres) in Hin. by destruct Hin.
Qed.

(** A row that is not in the leaf makes it one row longer. *)
Lemma run_new_in_leaf v id p h es :
  v_pages v !! id = Some p -> rep p h es -> page_type h = PAGE_TYPE_LEAF -> sorted es -> id_in id ->
  page_has_room_for_one_more h = true -> to_map es !! key = None ->
  exists p' n, run_to (insert_in_leaf id p h key enc) v tt (at_len n (put_page id p' v)) /\
    page_header p' = Ret (with_key_count h (key_count h + 1)).
Proof using Hkey Henc.
  intros Hp Hrep Hty Hs Hid Hroom Hin. assert (Hvs : vsz h = LEAF_VALUE_SIZE) by (unfold vsz; by rewrite Hty).
  destruct (find_key_pos_ok p h es key Hrep Hs) as (found & pos & Hfind & Hres). destruct found.
  - destruct Hres as (_ & v0 & Hv0). by rewrite (to_map_lookup es _ _ _ Hs Hv0) in Hin.
  - destruct (rebuild_insert_ok p h es pos key enc Hrep) as (p' & Hp' & Hrep'); [apply Hres|by rewrite Hvs|done|].
    exists p', (wrap64 (v_len v + 1)). split.
    + unfold insert_in_leaf. eapply run_lift_bind; [done|]. cbn [default].
      eapply run_lift_bind; [done|]. eapply run_bind; [apply run_write; [assumption|page_size]|].
      apply (run_len_incr (put_page id p' v)).
    + rewrite (rp_count _ _ _ Hrep). by apply (rep_header _ _ _ Hrep').
Qed.

End Calm.

Section Tree.
Context {R : IdRange} {P : Type} `{PageProviderLaws P}.

Definition roomy (fuel : nat) (v : view) (key : bytes) : option PageId := roomy_leaf fuel (v_pages v) (v_root v) key.

Lemma run_roomy_root v fuel n f nx fp kvs key leaf :
  tree (v_pages v) n (v_root v) None None f nx fp kvs -> roomy fuel v key = Some leaf ->
  run_to ensure_root_not_full v tt v.
Proof.
  intros Ht Hr. destruct (tree_page _ _ _ _ _ _ _ _ _ Ht) as (p & h & es & Hp & Hrep). unfold ensure_root_not_full.
  eapply run_bind; [apply run_get_root|].
  eapply run_bind; [apply run_latch_root, (proj1 (tree_forest_ids (v_pages v)) _ _ _ _ _ _ _ _ Ht)|]. eapply run_bind; [by apply run_read_or|].
  eapply run_lift_bind; [apply (rep_header p h es Hrep)|].
  unfold roomy in Hr. destruct fuel as [|fuel]; [discriminate|]. cbn [roomy_leaf] in Hr. rewrite Hp, (rep_header p h es Hrep) in Hr.
  destruct (page_is_full_for_insert h); [discriminate|]. apply run_ret.
Qed.

(** Rewriting a row on a way without full pages writes one page, and every other way stays. *)
Lemma tree_ok_overwrite fuel t m key lv leaf :
  tree_ok t m -> zlen key = KEY_SIZE -> lv_ok lv -> is_Some (m !! key) -> roomy fuel (vw t) key = Some leaf ->
  exists p', run_to (insert fuel key lv) (vw t) tt (put_page leaf p' (vw t)) /\
    forall fuel' key', roomy fuel' (put_page leaf p' (vw t)) key' = roomy fuel' (vw t) key'.
Proof.
  intros (Ho & n & f & fp & kvs & [Ht Hnd _ _] & Hmap & Hok & _) Hkey Hlv Hin Hr.
  assert (Henc : zlen (encode_leaf_value lv) = LEAF_VALUE_SIZE) by (apply encode_leaf_value_len, Hlv).
  destruct (run_roomy key (encode_leaf_value lv) (vw t) fuel _ _ _ _ _ _ _ _ leaf Ht) as (p & h & es & Hp & Hrep & Hty & _ & Hs & Hid & Hm & Hrun);
    [exact Hnd|done|done|exact Hr|].
  destruct (run_overwrite_in_leaf key (encode_leaf_value lv) Hkey Henc (vw t) leaf p h es) as (p' & Hw & Hh); try done.
  { rewrite <-Hm, Hmap, lookup_fmap. by apply fmap_is_Some. }
  exists p'. split.
  - unfold insert. rewrite Hkey. cbn [negb]. rewrite Z.eqb_refl. cbn [negb].
    eapply run_bind; [apply run_write_latch_alone|]. eapply run_bind; [by eapply run_roomy_root|]. eapply run_bind; [apply run_get_root|].
    eapply run_bind; [apply run_latch_root, (proj1 (tree_forest_ids (v_pages (vw t))) _ _ _ _ _ _ _ _ Ht)|]. by apply Hrun.
  - intros fuel' key'. unfold roomy. cbn [v_pages v_root put_page].
    eapply roomy_leaf_rewrite; [exact Hp|apply (rep_header p h es Hrep)|done..].
Qed.

(** A new row on a way without full pages, into a leaf with room for two. *)
Lemma tree_ok_new_row fuel t m key lv leaf :
  tree_ok t m -> zlen key = KEY_SIZE -> lv_ok lv -> m !! key = None -> roomy fuel (vw t) key = Some leaf ->
  spare_leaf (v_pages (vw t)) leaf = true ->
  exists p' n', run_to (insert fuel key lv) (vw t) tt (at_len n' (put_page leaf p' (vw t))) /\
    forall fuel' key', roomy fuel' (put_page leaf p' (vw t)) key' = roomy fuel' (vw t) key'.
Proof.
  intros (Ho & n & f & fp & kvs & [Ht Hnd _ _] & Hmap & Hok & _) Hkey Hlv Hin Hr Hspare.
  assert (Henc : zlen (encode_leaf_value lv) = LEAF_VALUE_SIZE) by (apply encode_leaf_value_len, Hlv).
  destruct (run_roomy key (encode_leaf_value lv) (vw t) fuel _ _ _ _ _ _ _ _ leaf Ht) as (p & h & es & Hp & Hrep & Hty & Hfull & Hs & Hid & Hm & Hrun);
    [exact Hnd|done|done|exact Hr|].
  pose proof (rep_header p h es Hrep) as Hh. unfold spare_leaf in Hspare. rewrite Hp, Hh in Hspare.
  destruct (run_new_in_leaf key (encode_leaf_value lv) Hkey Henc (vw t) leaf p h es) as (p' & n' & Hw & Hh'); try done.
  { unfold page_is_full_for_insert in Hfull. by apply negb_false_iff in Hfull. }
  { rewrite <-Hm, Hmap, lookup_fmap. by rewrite Hin. }
  exists p', n'. split.
  - unfold insert. rewrite Hkey. cbn [negb]. rewrite Z.eqb_refl. cbn [negb].
    eapply run_bind; [apply run_write_latch_alone|]. eapply run_bind; [by eapply run_roomy_root|]. eapply run_bind; [apply run_get_root|].
    eapply run_bind; [apply run_latch_root, (proj1 (tree_forest_ids (v_pages (vw t))) _ _ _ _ _ _ _ _ Ht)|]. by apply Hrun.
  - intros fuel' key'. unfold roomy. cbn [v_pages v_root put_page].
    eapply roomy_leaf_rewrite; [exact Hp|exact Hh|exact Hh'|done|done|]. rewrite Hfull. unfold page_is_full_for_insert. by rewrite Hspare.
Qed.

End Tree.
