(* ===== verification/BtreeRange.v ===== *)
(** * BtreeRange: range scans walk the leaf chain

    The scans of src/src/page_bptree.rs ([range_visit], [range_visit_meta] and the two
    [range] collectors) visit exactly the rows between the bounds, in key order.  The
    reference is [scan], a fold over the list of all entries. *)

From stdpp Require Import base numbers list list_numbers gmap fin_maps sorting.
From S2P Require Import Prelude Common SlottedPage BtreePage Latch Provider Btree BtreeInv BtreeRun BtreeInsert BtreeMap.
Import Bp BpSpec Btree.

Lemma filter_none {A} (P : A -> Prop) `{!forall x, Decision (P x)} (l : list A) :
  (forall x, x ∈ l -> ~ P x) -> filter P l = [].
Proof.
  induction l as [|x l IH]; intros Hl; [done|].
  rewrite filter_cons_False by (apply Hl; set_solver). apply IH. set_solver.
Qed.

Lemma filter_every {A} (P : A -> Prop) `{!forall x, Decision (P x)} (l : list A) :
  (forall x, x ∈ l -> P x) -> filter P l = l.
Proof.
  induction l as [|x l IH]; intros Hl; [done|].
  rewrite filter_cons_True by (apply Hl; set_solver). f_equal. apply IH. set_solver.
Qed.

Section Scan.
Context {IR : IdRange} {P : Type} `{PageProviderLaws P}.
Context {R A : Type}.
Variable row : bytes -> Z -> outcome Error (option R).
Variable f : A -> bytes -> R -> A * bool.
Variable dec : bytes -> R.
Hypothesis Hrow : forall p h es i e,
  rep p h es -> page_type h = PAGE_TYPE_LEAF -> es !! i = Some e -> row p (Z.of_nat i) = Ret (Some (dec e.2)).

Variable end_ : bytes.

(** The visitor over a list of rows. *)
Fixpoint scan (rows : list entry) (acc : A) : A * ctl unit :=
  match rows with
  | [] => (acc, Leave)
  | (k, v) :: rows =>
      if bytes_ltb end_ k then (acc, Return tt) else
      let '(acc, more) := f acc k (dec v) in
      if negb more then (acc, Return tt) else scan rows acc
  end.

Lemma scan_app a b acc :
  scan (a ++ b) acc = match scan a acc with (acc', Return u) => (acc', Return u) | (acc', Leave) => scan b acc' end.
Proof.
  revert acc. induction a as [|[k v] a IH]; intros acc; [done|]. cbn [scan app].
  destruct (bytes_ltb end_ k); [done|]. destruct (f acc k (dec v)) as [acc' more].
  destruct more; cbn [negb]; [apply IH|done].
Qed.

Lemma visit_entries_ok p h es n : forall i acc,
  rep p h es -> page_type h = PAGE_TYPE_LEAF -> Z.of_nat i + Z.of_nat n = zlen es ->
  visit_entries row f p end_ (seqZ (Z.of_nat i) (Z.of_nat n)) acc = Ret (scan (drop i es) acc).
Proof using Hrow.
  induction n as [|n IH]; intros i acc Hrep Hty Hn.
  - rewrite drop_ge by (unfold zlen in *; lia). done.
  - destruct (lookup_lt_is_Some_2 es i) as [[k v] He]; [unfold zlen in *; lia|].
    rewrite seqZ_cons by lia. cbn [visit_entries].
    rewrite (entry_key_at_ok p h es Hrep), Nat2Z.id, He by lia. obind. cbn [fst].
    rewrite (drop_S _ _ _ He). cbn [scan]. destruct (bytes_ltb end_ k); [done|].
    rewrite (Hrow _ _ _ _ _ Hrep Hty He). obind. cbn [snd].
    destruct (f acc k (dec v)) as [acc' more]. destruct more; cbn [negb]; [|done].
    replace (Z.succ (Z.of_nat i)) with (Z.of_nat (S i)) by lia.
    replace (Z.pred (Z.of_nat (S n))) with (Z.of_nat n) by lia. apply IH; [done|done|lia].
Qed.

Lemma bytes_lt_le_absurd start k : bytes_lt k start -> bytes_le start k -> False.
Proof. intros Hlt Hle. by apply (bytes_nlt_le k start) in Hle. Qed.

(** One leaf, then whatever the rest of the scan does. *)
Lemma run_visit_leaf v hops start id lo hi nx es visited acc first i out :
  tree (v_pages v) 0 id lo hi id nx [id] es -> id ∉ visited -> lt_hi start hi ->
  (if first : bool then cut es (Z.of_nat i) (fun k => bytes_lt k start) (fun k => bytes_le start k) else i = 0%nat) ->
  match scan (drop i es) acc with
  | (acc', Return _) => out = acc'
  | (acc', Leave) => match nx with
      | None => out = acc'
      | Some next => next <> id /\
          run_to (visit_leaves row f hops start end_ next false ({[id]} ∪ visited) acc') v (out, Return tt) v
      end
  end ->
  run_to (visit_leaves row f (S hops) start end_ id first visited acc) v (out, Return tt) v.
Proof using Hrow.
  intros Ht Hvis Hhi Hfirst Hrest.
  inversion Ht as [? h es' ? ? ? (p & Hp & Hrep) Hty Hs Hb Hh Hnx Hid|]; subst.
  cbn [visit_leaves]. rewrite bool_decide_eq_false_2 by done.
  eapply run_bind; [apply run_read_latch_alone|]. eapply run_bind; [apply run_read, Hp|].
  eapply run_lift_bind; [apply (rep_header p h es Hrep)|]. rewrite Hty, Z.eqb_refl. cbn [negb].
  rewrite (not_past_high h start hi) by done.
  assert (Hi : (if first then lower_bound_in_leaf p start else Ret 0) = Ret (Z.of_nat i) /\ Z.of_nat i <= zlen es).
  { destruct first; [|subst i; split; [done|apply zlen_nonneg]].
    destruct (lower_bound_in_leaf_ok p h es start Hrep Hs) as (pos & -> & Hc').
    rewrite (cut_unique _ _ _ _ _ (bytes_lt_le_absurd start) Hc' Hfirst). split; [done|apply Hfirst]. }
  destruct Hi as [Hi Hle]. eapply run_lift_bind; [exact Hi|]. rewrite (rp_count _ _ _ Hrep).
  eapply run_lift_bind.
  { rewrite <-(Z2Nat.id (zlen es - Z.of_nat i)) by lia. apply (visit_entries_ok p h es); [done|done|lia]. }
  destruct (scan (drop i es) acc) as [acc' [u|]]; [subst; apply run_ret|].
  destruct (next_leaf h) as [next|]; [|subst; apply run_ret]. destruct Hrest as [Hne Hrun].
  destruct (Z.eqb_spec next id); [done|]. exact Hrun.
Qed.

(** The leaves to the right. *)
Lemma run_visit_chain v start ids : forall l hi id kvs hops visited acc,
  chain (v_pages v) (Some l) hi (Some id) (id :: ids) kvs None -> bytes_lt start l ->
  NoDup (id :: ids) -> (forall i, i ∈ id :: ids -> i ∉ visited) -> (length ids < hops)%nat ->
  run_to (visit_leaves row f hops start end_ id false visited acc) v ((scan kvs acc).1, Return tt) v.
Proof using Hrow.
  induction ids as [|id' ids IH]; intros l hi id kvs hops visited acc Hc Hl Hnd Hvis Hh;
    (destruct hops as [|hops]; [cbn in Hh; lia|]);
    inversion Hc as [|? ? mid ? nx1 ? es kvs' ? Ht Hlh Hnone Hrest]; subst;
    (assert (Hmid : lt_hi start mid) by (destruct mid as [u|]; [|done]; specialize (Hlh u eq_refl); cbn in *; by etrans));
    (eapply (run_visit_leaf v hops start id (Some l) mid nx1 es visited acc false 0);
      [done|set_solver|done|done|]); rewrite drop_0, scan_app.
  - inversion Hrest; subst. by destruct (scan es acc) as [? []].
  - destruct (scan es acc) as [acc' []]; [done|].
    assert (nx1 = Some id') as -> by by inversion Hrest.
    destruct mid as [u|]; [|by specialize (Hnone eq_refl)].
    apply NoDup_cons in Hnd as [Hni Hnd]. split; [set_solver|].
    eapply IH; [exact Hrest|done|done| |cbn in Hh; lia].
    intros i Hi. apply not_elem_of_union. split; [set_solver|]. apply Hvis. set_solver.
Qed.

(** The rows before the lower bound are not visited. *)
Definition from_start (start : bytes) (kvs : list entry) : list entry :=
  filter (fun e : entry => ~ bytes_lt e.1 start) kvs.

Lemma from_start_split start kL kc kR i :
  (forall e, e ∈ kL -> bytes_lt e.1 start) -> (forall e, e ∈ kR -> bytes_lt start e.1) ->
  cut kc (Z.of_nat i) (fun k => bytes_lt k start) (fun k => bytes_le start k) ->
  from_start start (kL ++ kc ++ kR) = drop i kc ++ kR.
Proof.
  intros HL HR (Hlen & HcL & HcR). unfold from_start. rewrite !filter_app.
  rewrite (filter_none _ kL) by (intros e He Hn; by apply Hn, HL).
  cbn [app]. f_equal.
  - rewrite <-(take_drop i kc) at 1. rewrite filter_app, (filter_none _ (take i kc)).
    + cbn [app]. apply filter_every. intros e (j & He)%list_elem_of_lookup.
      rewrite lookup_drop in He. apply (HcR _ _) in He; [|lia]. intros Hlt. by eapply bytes_lt_le_absurd.
    + intros e He Hn. apply list_elem_of_lookup in He as (j & He).
      pose proof (lookup_lt_Some _ _ _ He) as Hj. rewrite length_take in Hj.
      rewrite lookup_take_lt in He by lia. apply Hn, (HcL _ _ He). lia.
  - apply filter_every. intros e He Hlt.
    apply (bytes_lt_irrefl start). etrans; [by apply HR|done].
Qed.

Lemma run_visit v start n f0 fp kvs acc :
  tree (v_pages v) n (v_root v) None None f0 None fp kvs -> NoDup fp -> zlen fp <= MAX_SCAN_LEAF_HOPS ->
  Z.of_nat n < 8192 ->
  run_to (visit row f start end_ acc) v ((scan (from_start start kvs) acc).1) v.
Proof using Hrow.
  intros Ht Hnd Hfp Hn.
  destruct (run_find_leaf v start _ _ _ _ _ Ht Hn)
    as (leaf & lo' & hi' & nx' & kL & kc & kR & Hrun & Hleaf & Hlo & Hhi & -> & HL & HR & ids & Hids & Hnone & Hsub).
  pose proof (sublist_NoDup _ _ Hnd Hsub) as Hnd'. pose proof (sublist_length _ _ Hsub) as Hlen.
  assert (Hleaf' := Hleaf). inversion Hleaf' as [? h es ? ? ? (p & Hp & Hrep) Hty Hs Hb Hh Hnx Hid|]; subst.
  destruct (lower_bound_in_leaf_ok p h kc start Hrep Hs) as (pos & _ & Hc).
  rewrite <-(Z2Nat.id pos) in Hc by apply Hc. rewrite (from_start_split start kL kc kR _ HL HR Hc).
  unfold visit. change (Z.to_nat MAX_TRAVERSAL_RETRIES) with 8%nat. cbn [visit_retry].
  eapply run_bind; [exact Hrun|].
  assert (exists hops, Z.to_nat MAX_SCAN_LEAF_HOPS = S hops /\ (length ids <= hops)%nat) as (hops & -> & Hh').
  { exists (pred (Z.to_nat MAX_SCAN_LEAF_HOPS)). unfold zlen in Hfp. cbn [length] in Hlen.
    clear -Hfp Hlen. change MAX_SCAN_LEAF_HOPS with 8192 in *. lia. }
  apply (run_bind _ _ v ((scan (drop (Z.to_nat pos) kc ++ kR) acc).1, Return tt) v); [|apply run_ret].
  eapply (run_visit_leaf v hops start leaf lo' hi' (next_leaf h) kc ∅ acc true); [done|set_solver|done|exact Hc|].
  rewrite scan_app. destruct (scan (drop _ kc) acc) as [acc' []]; [done|].
  inversion Hids as [|id ? mid ? nx1 ids' es kvs ? Ht1 Hlh Hnone1 Hrest]; subst;
    [by match goal with E : next_leaf h = None |- _ => rewrite E end|].
  destruct hi' as [u|]; [|by specialize (Hnone eq_refl)].
  apply NoDup_cons in Hnd' as [Hni Hnd']. split; [set_solver|].
  eapply run_visit_chain; [by eapply chain_cons|exact Hhi|exact Hnd'|set_solver|cbn in Hh'; lia].
Qed.

(** The reference visitor: rows in order until one asks to stop. *)
Fixpoint fold_while (rows : list (bytes * R)) (acc : A) : A :=
  match rows with
  | [] => acc
  | (k, r) :: rows => let '(acc, more) := f acc k r in if more then fold_while rows acc else acc
  end.

Definition decoded (es : list entry) : list (bytes * R) := (fun e => (e.1, dec e.2)) <$> es.

Lemma scan_sorted rows : forall acc,
  StronglySorted bytes_lt rows.*1 ->
  (scan rows acc).1 = fold_while (decoded (filter (fun e : entry => ~ bytes_lt end_ e.1) rows)) acc.
Proof using Type.
  clear row Hrow.
  induction rows as [|[k v] rows IH]; intros acc Hs; [done|]. cbn [scan].
  apply StronglySorted_inv in Hs as [Hs Hk]. destruct (bytes_ltb_spec end_ k) as [Hlt|Hge].
  - rewrite filter_none; [done|]. intros e [->|He]%elem_of_cons Hn; [done|].
    apply Hn. etrans; [exact Hlt|]. rewrite Forall_forall in Hk. apply Hk. set_solver.
  - rewrite filter_cons_True by done. cbn [decoded fmap list_fmap fold_while fst snd].
    destruct (f acc k (dec v)) as [acc' []]; [by apply IH|done].
Qed.

End Scan.

Section Range.
Context {IR : IdRange} {P : Type} `{PageProviderLaws P}.

Lemma sorted_keys es : sorted es -> StronglySorted bytes_lt es.*1.
Proof.
  induction es as [|e es IH]; intros Hs; [constructor|]. cbn. constructor.
  - apply IH. apply (sorted_drop (e :: es) 1 Hs).
  - apply Forall_forall. intros k (e' & -> & (j & He)%list_elem_of_lookup)%list_elem_of_fmap.
    apply (Hs 0%nat (S j)); [lia|done|done].
Qed.

Lemma filter_keys_sorted (Q : entry -> Prop) `{!forall e, Decision (Q e)} es :
  StronglySorted bytes_lt es.*1 -> StronglySorted bytes_lt (filter Q es).*1.
Proof.
  induction es as [|e es IH]; intros Hs; [done|]. apply StronglySorted_inv in Hs as [Hs Hk].
  rewrite filter_cons. destruct (decide (Q e)); [|by apply IH]. cbn. constructor; [by apply IH|].
  rewrite Forall_forall in Hk |- *. intros k (e' & -> & [_ He']%list_elem_of_filter)%list_elem_of_fmap.
  apply Hk. by apply list_elem_of_fmap_2.
Qed.

Lemma row_ref_ok p h es i e :
  rep p h es -> page_type h = PAGE_TYPE_LEAF -> es !! i = Some e ->
  row_ref p (Z.of_nat i) = Ret (Some (lv_of_bytes e.2)).
Proof.
  intros Hrep Hty He. unfold row_ref.
  destruct (entry_value_bounds_ok p h es Hrep (Z.of_nat i) e) as [-> Hv]; [by rewrite Nat2Z.id|lia|]. obind.
  pose proof (rep_bounds p h es Hrep _ _ He) as Hb. pose proof (rp_len _ _ _ Hrep).
  assert (Hvs : vsz h = LEAF_VALUE_SIZE) by (unfold vsz; by rewrite Hty). rewrite Hvs in *.
  rewrite <-Hv. apply decode_ref_ok; unfold esz in *; clia.
Qed.

Lemma row_meta_ok p h es i e :
  rep p h es -> page_type h = PAGE_TYPE_LEAF -> es !! i = Some e ->
  row_meta p (Z.of_nat i) = Ret (Some (lv_meta (lv_of_bytes e.2))).
Proof.
  intros Hrep Hty He. unfold row_meta. rewrite (entry_value_at_ok p h es Hrep), Nat2Z.id, He by lia. obind.
  rewrite decode_meta_ok; [done|].
  pose proof (Forall_lookup_1 _ _ _ _ (rep_sized p h es Hrep) He) as [_ Hsz]. unfold vsz in Hsz. by rewrite Hty in Hsz.
Qed.

(** The rows of a map between two bounds, ascending. *)
Definition rows_between (m : lvmap) (start end_ : bytes) (rows : list (bytes * LeafValue)) : Prop :=
  StronglySorted bytes_lt rows.*1 /\
  forall k lv, (k, lv) ∈ rows <-> m !! k = Some lv /\ bytes_le start k /\ bytes_le k end_.

Definition window (start end_ : bytes) (kvs : list entry) : list entry :=
  filter (fun e : entry => ~ bytes_lt end_ e.1) (from_start start kvs).

Lemma decoded_keys {R} (dec : bytes -> R) es : (decoded dec es).*1 = es.*1.
Proof. unfold decoded. rewrite <-list_fmap_compose. by apply list_fmap_ext. Qed.

Lemma window_rows (kvs : list entry) (m : lvmap) (start end_ : bytes) :
  sorted kvs -> to_map kvs = encode_leaf_value <$> m -> map_Forall (fun _ => lv_ok) m ->
  rows_between m start end_ (decoded lv_of_bytes (window start end_ kvs)).
Proof.
  intros Hs Hm Hok. split.
  { rewrite decoded_keys. by apply filter_keys_sorted, filter_keys_sorted, sorted_keys. }
  intros k lv. unfold decoded, window, from_start. rewrite list_elem_of_fmap. setoid_rewrite list_elem_of_filter.
  setoid_rewrite list_elem_of_filter. setoid_rewrite bytes_nlt_le. rewrite <-(lookup_encode m k Hok), <-Hm. split.
  - intros ([k' v] & [= -> ->] & He & Hst & Hin). cbn in *. apply (to_map_elem _ _ _ Hs) in Hin. by rewrite Hin.
  - intros (Hl & Hst & He). apply fmap_Some in Hl as (v & Hv & ->). exists (k, v).
    by apply (to_map_elem _ _ _ Hs) in Hv.
Qed.

Lemma tree_ok_visit {R A} row (dec : bytes -> R) (f : A -> bytes -> R -> A * bool) t m start end_ acc :
  (forall p h es i e, rep p h es -> page_type h = PAGE_TYPE_LEAF -> es !! i = Some e ->
     row p (Z.of_nat i) = Ret (Some (dec e.2))) ->
  tree_ok t m -> v_next (vw t) <= MAX_SCAN_LEAF_HOPS ->
  exists kvs t', visit row f start end_ acc t = (Ret (fold_while f (decoded dec (window start end_ kvs)) acc), t') /\
    vw t' = vw t /\ kept t t' /\ sorted kvs /\ to_map kvs = encode_leaf_value <$> m /\ map_Forall (fun _ => lv_ok) m.
Proof.
  intros Hrow (Ho & n & f0 & fp & kvs & Hrd & Hmap & Hok & Hlen & Hn) Hhops.
  pose proof (ready_height _ _ _ _ _ _ _ Hrd Hn). pose proof (ready_size _ _ _ _ _ _ _ _ _ Hrd).
  destruct Hrd as [Ht Hnd Hbl Hpos].
  pose proof (proj1 (tree_forest_sorted _) _ _ _ _ _ _ _ _ Ht) as Hs.
  destruct (run_visit row f dec Hrow end_ (vw t) start n f0 fp kvs acc Ht Hnd) with (t := t) as (t' & Hr & Hv & Hk);
    [lia|lia|done|done|].
  exists kvs, t'. split_and!; try done. rewrite Hr, scan_sorted; [done|].
  by apply filter_keys_sorted, sorted_keys.
Qed.

End Range.
