(* ===== verification/BtreeRemove.v ===== *)
(** * BtreeRemove: deletion from a tree of one leaf

    [remove] of src/src/page_bptree.rs on a tree whose root is a leaf is deletion from the
    map.  On taller trees it may lose records: the borrowing branches do not write the
    rebuilt child (the file BtreeProps has the run that shows it). *)

From stdpp Require Import base numbers list list_numbers gmap fin_maps.
From S2P Require Import Prelude Common SlottedPage BtreePage Latch Provider Btree BtreeInv BtreeRun BtreeInsert BtreeMap.
Import Bp BpSpec Btree.

Section RemoveLeaf.
Context {R : IdRange} {P : Type} `{PageProviderLaws P}.

Lemma sorted_remove_at es pos : sorted es -> 0 <= pos < zlen es -> sorted (remove_at pos es).
Proof.
  intros Hs Hp. unfold remove_at. rewrite delete_take_drop. apply sorted_app; [by apply sorted_take|by apply sorted_drop|].
  intros a b (i & Ha)%list_elem_of_lookup (j & Hb)%list_elem_of_lookup.
  pose proof (lookup_lt_Some _ _ _ Ha) as Hi. rewrite length_take in Hi.
  rewrite lookup_take_lt in Ha by lia. rewrite lookup_drop in Hb. eapply Hs; [|exact Ha|exact Hb]. lia.
Qed.

Lemma to_map_remove_at es pos k v :
  sorted es -> es !! Z.to_nat pos = Some (k, v) -> to_map (remove_at pos es) = delete k (to_map es).
Proof.
  intros Hs He. unfold to_map. pose proof (sorted_nodup es Hs) as Hnd.
  pose proof (delete_Permutation es _ _ He) as Hperm. fold (remove_at pos es) in Hperm.
  rewrite (list_to_map_proper es ((k, v) :: remove_at pos es)) by done.
  cbn. rewrite delete_insert_id; [done|]. apply not_elem_of_list_to_map_1.
  rewrite Hperm in Hnd. by apply NoDup_cons in Hnd as [Hnd _].
Qed.

Lemma scan_hops : exists n, Z.to_nat MAX_SCAN_LEAF_HOPS = S n.
Proof. exists (pred (Z.to_nat MAX_SCAN_LEAF_HOPS)). unfold MAX_SCAN_LEAF_HOPS. lia. Qed.

Lemma scan_hops2 : exists n, Z.to_nat MAX_SCAN_LEAF_HOPS = S (S n).
Proof. exists (pred (pred (Z.to_nat MAX_SCAN_LEAF_HOPS))). unfold MAX_SCAN_LEAF_HOPS. lia. Qed.

(** The epilogue of a deletion when the only leaf is the root. *)
Lemma run_epilogue v p h es fuel :
  v_pages v !! v_root v = Some p -> rep p h es -> page_type h = PAGE_TYPE_LEAF ->
  next_leaf h = None -> prev_leaf h = None -> high_key h = None -> id_in (v_root v) -> (0 < fuel)%nat ->
  exists p', run_to (_ ← repair_leaf_boundary_after_delete (v_root v); _ ← refresh_leaf_high_keys;
                     maybe_collapse_root_after_delete fuel) v tt (put_page (v_root v) p' v) /\ rep p' h es.
Proof.
  intros Hp Hrep Hty Hnx Hpv Hhk Hid Hf. destruct h as [ty lv cnt pl nl lc hk]; cbn in *; subst.
  set (h := {| page_type := PAGE_TYPE_LEAF |}) in *.
  destruct (write_header_rep p h es (with_high h None) Hrep) as (p' & Hw & Hrep'); [apply hdr_ok_high; [apply Hrep|done]|done|done|].
  change (with_high h None) with h in Hrep'. exists p'. split; [|done].
  set (v' := put_page (v_root v) p' v).
  assert (Hp' : v_pages v' !! v_root v' = Some p') by apply lookup_insert_eq.
  eapply run_bind.
  { unfold repair_leaf_boundary_after_delete. latch_alone. eapply run_bind; [apply run_read, Hp|]. cbn match.
    eapply run_lift_bind; [apply (rep_header p h es Hrep)|]. cbn [negb].
    eapply run_lift_bind; [by apply (entry_key_at_ok p h es Hrep)|].
    eapply run_bind; [apply run_ret|]. eapply run_lift_bind; [exact Hw|].
    eapply run_bind; [apply run_write; [assumption|page_size]|]. apply run_ret. }
  eapply run_bind.
  { unfold refresh_leaf_high_keys. eapply run_bind; [apply run_get_root|].
    destruct scan_hops as (n & ->). cbn [leftmost refresh_loop].
    eapply run_bind.
    { latch_alone. eapply run_bind; [apply run_read, Hp'|]. cbn match.
      eapply run_lift_bind; [apply (rep_header p' h es Hrep')|]. apply run_ret. }
    latch_alone. eapply run_bind; [apply run_read, Hp'|]. cbn match.
    eapply run_lift_bind; [apply (rep_header p' h es Hrep')|]. cbn [negb].
    eapply run_bind; [apply run_ret|]. eapply run_bind; [apply run_ret|]. apply run_ret. }
  destruct fuel as [|fuel]; [lia|]. unfold maybe_collapse_root_after_delete. cbn [collapse_loop]. latch_alone.
  eapply run_bind; [apply run_get_root|]. latch_root. eapply run_bind; [apply run_read, Hp'|]. cbn match.
  eapply run_lift_bind; [apply (rep_header p' h es Hrep')|]. apply run_ret.
Qed.

Lemma run_remove_leaf v p h es key fuel :
  v_pages v !! v_root v = Some p -> rep p h es -> sorted es -> page_type h = PAGE_TYPE_LEAF ->
  next_leaf h = None -> prev_leaf h = None -> high_key h = None -> id_in (v_root v) -> zlen key = KEY_SIZE -> (1 < fuel)%nat ->
  exists v', run_to (remove fuel key) v tt v' /\ v_root v' = v_root v /\ v_next v' = v_next v /\
    match to_map es !! key with
    | None => v' = v
    | Some _ => v_len v' = sat_sub (v_len v) 1 /\ exists p' h' es',
        v_pages v' = <[v_root v := p']> (v_pages v) /\ rep p' h' es' /\ sorted es' /\
        to_map es' = delete key (to_map es) /\ (forall e, e ∈ es' -> e ∈ es) /\ page_type h' = PAGE_TYPE_LEAF /\
        next_leaf h' = None /\ high_key h' = None
    end.
Proof.
  intros Hp Hrep Hs Hty Hnx Hpv Hhk Hid Hkey Hf. destruct fuel as [|fuel]; [lia|].
  unfold remove. rewrite Hkey, Z.eqb_refl. cbn [negb remove_loop].
  destruct (find_key_pos_ok p h es key Hrep Hs) as (found & pos & Hfind & Hpos). destruct found.
  - destruct Hpos as (H0' & w & He). rewrite (to_map_lookup es _ _ _ Hs He).
    pose proof (lookup_lt_Some _ _ _ He) as Hlt. assert (Hr : 0 <= pos < zlen es) by (unfold zlen; lia).
    destruct (rebuild_remove_ok p h es pos Hrep Hr) as (p1 & Hrb & Hrep1).
    set (v1 := at_len (sat_sub (v_len v) 1) (put_page (v_root v) p1 v)).
    destruct (run_epilogue v1 p1 _ _ fuel (lookup_insert_eq _ _ _) Hrep1) as (p2 & Hrun & Hrep2);
      [destruct h; assumption|destruct h; assumption..|exact Hid|lia|].
    exists (put_page (v_root v) p2 v1). split; [|split_and!; [done|done|done|]].
    + latch_alone. eapply run_bind; [apply run_get_root|]. latch_root. eapply run_bind; [apply run_read, Hp|]. cbn match.
      eapply run_lift_bind; [apply (rep_header p h es Hrep)|]. rewrite Hty, Z.eqb_refl. unfold remove_here.
      eapply run_lift_bind; [exact Hfind|]. cbn [default]. eapply run_lift_bind; [exact Hrb|].
      eapply (run_lift_bind _ _ (if pos =? 0 then fst <$> remove_at pos es !! 0%nat else None)).
      { destruct (pos =? 0); [by apply (entry_key_at_ok p1 _ _ Hrep1)|done]. }
      eapply run_bind; [apply run_write; [assumption|page_size]|]. eapply run_bind; [apply run_len_decr|].
      eapply run_bind; [apply run_ret|]. exact Hrun.
    + eexists p2, _, _. split_and!; [apply insert_insert_eq|exact Hrep2|by apply sorted_remove_at|
        by eapply to_map_remove_at| |by destruct h..].
      intros e He'. unfold remove_at in He'. rewrite delete_take_drop in He'.
      apply elem_of_app in He' as [He'|He']; [by eapply elem_take|by eapply elem_drop].
  - rewrite (cut_absent es pos key) by done. exists v. split; [|done].
    latch_alone. eapply run_bind; [apply run_get_root|]. latch_root. eapply run_bind; [apply run_read, Hp|]. cbn match.
    eapply run_lift_bind; [apply (rep_header p h es Hrep)|]. rewrite Hty, Z.eqb_refl. unfold remove_here.
    eapply run_lift_bind; [exact Hfind|]. cbn [default]. unfold maybe_collapse_root_after_delete.
    destruct fuel as [|fuel]; [lia|]. cbn [collapse_loop].
    latch_alone. eapply run_bind; [apply run_get_root|]. latch_root. eapply run_bind; [apply run_read, Hp|]. cbn match.
    eapply run_lift_bind; [apply (rep_header p h es Hrep)|]. rewrite Hty. apply run_ret.
Qed.

Lemma to_map_size es : sorted es -> Z.of_nat (size (to_map es)) = zlen es.
Proof.
  intros Hs. unfold to_map. rewrite map_size_list_to_map by by apply sorted_nodup. done.
Qed.

Lemma tree_ok_remove_leaf fuel t m key p h :
  tree_ok t m -> v_pages (vw t) !! v_root (vw t) = Some p -> page_header p = Ret h ->
  page_type h = PAGE_TYPE_LEAF -> prev_leaf h = None -> zlen key = KEY_SIZE -> (1 < fuel)%nat ->
  exists t', remove fuel key t = (Ret tt, t') /\ tree_ok t' (delete key m).
Proof.
  intros (Ho & n & f & fp & kvs & [Ht Hnd Hbl Hpos] & Hmap & Hok & Hlen & Hn) Hp Hh Hty Hpv Hkey Hf.
  inversion Ht as [? h' es ? ? ? (p' & Hp' & Hrep) Hty' Hs Hb Hhi Hnx Hid|? ? h' es ? ? ? ? ? ? (p' & Hp' & Hrep) Hty'];
    subst; rewrite Hp in Hp'; injection Hp' as <-;
    rewrite (rep_header p h' _ Hrep) in Hh; injection Hh as <-; [|rewrite Hty in Hty'; done].
  assert (Hhk : high_key h' = None) by (destruct (high_key h') as [k|] eqn:E; [by destruct (Hhi k E) as (? & ? & _)|done]).
  destruct (run_remove_leaf (vw t) p h' kvs key fuel) as (v' & Hrun & Hrt & Hnxt & Hcase); try done.
  destruct (Hrun t Ho eq_refl) as (t' & Hr & <- & Hkp). exists t'. split; [exact Hr|]. split; [apply Hkp|].
  assert (Hm : to_map kvs !! key = encode_leaf_value <$> m !! key) by by rewrite Hmap, lookup_fmap.
  destruct (m !! key) as [lv|] eqn:Em; cbn in Hm; rewrite Hm in Hcase.
  - destruct Hcase as (Hl & p' & h & es' & Hpg & Hrep' & Hs' & Hm' & Hin & Hty2 & Hnx2 & Hhk2).
    exists 0%nat, (v_root (vw t')), [v_root (vw t')], es'. split_and!.
    + split; [|apply NoDup_singleton| |lia].
      * rewrite <-Hnx2. eapply tree_leaf; [exists p'|done|done| |intros k Hk; by rewrite Hhk2 in Hk|done|by rewrite Hrt].
        { rewrite Hpg, Hrt. split; [apply lookup_insert_eq|done]. } intros e He. by apply Hb, Hin.
      * intros i ->%list_elem_of_singleton. rewrite Hnxt, Hrt. apply Hbl. set_solver.
    + by rewrite Hm', Hmap, fmap_delete.
    + by apply map_Forall_delete.
    + change (len t') with (v_len (vw t')). rewrite Hl. change (v_len (vw t)) with (len t). rewrite Hlen.
      rewrite map_size_delete_Some by done.
      assert (Hsz : Z.of_nat (size m) = zlen kvs) by (rewrite <-to_map_size, Hmap, map_size_fmap by done; done).
      assert (size m <> 0%nat) by (eapply map_size_ne_0_lookup_2; by rewrite Em).
      pose proof (hk_count _ (rp_ok _ _ _ Hrep)) as Hc. rewrite (rp_count _ _ _ Hrep) in Hc.
      assert (zlen kvs < U64) by (unfold U16, U64 in *; lia). unfold wrap64, sat_sub. rewrite !Z.mod_small by lia. lia.
    + lia.
  - rewrite delete_id by done. exists 0%nat, (v_root (vw t)), [v_root (vw t)], kvs.
    assert (vw t' = vw t) as Hv by done. rewrite Hv. split_and!; try done.
    by change (len t') with (v_len (vw t')); rewrite Hv.
Qed.

End RemoveLeaf.

(** ** A root with two leaves *)

Lemma leaf_fits (h : PageHeader) n :
  page_type h = PAGE_TYPE_LEAF -> 0 <= n <= 15 -> data_start n + n * esz h <= PAGE_SIZE.
Proof. intros Hty Hn. unfold esz. rewrite Hty. unfold entry_size, entry_value_size. cbn. clia. Qed.

Lemma min_leaf : min_keys_non_root PAGE_TYPE_LEAF = 7.
Proof. reflexivity. Qed.

(** [encode_entries] over a page that already represents something of the same type. *)
Lemma reencode p h es h' es' :
  rep p h es -> page_type h' = page_type h -> hdr_ok h' -> Forall (entry_sized (vsz h)) es' ->
  data_start (zlen es') + zlen es' * esz h <= PAGE_SIZE ->
  exists p', encode_entries p es' h' = Ret p' /\ rep p' (with_key_count h' (zlen es')) es'.
Proof.
  intros Hrep Hty Hok Hsz Hfit. apply encode_entries_ok; [apply Hrep|done| |].
  - unfold vsz in *. by rewrite Hty.
  - unfold esz in *. by rewrite Hty.
Qed.

Lemma leaf_count p h es : rep p h es -> page_type h = PAGE_TYPE_LEAF -> zlen es <= 15.
Proof.
  intros Hrep Hty. pose proof (rp_fit _ _ _ Hrep) as Hf. unfold esz in Hf. rewrite Hty in Hf.
  unfold entry_size, entry_value_size in Hf. cbn in Hf. pose proof (zlen_nonneg es). clia.
Qed.

Lemma sized_vsz h : page_type h = PAGE_TYPE_LEAF -> vsz h = LEAF_VALUE_SIZE.
Proof. intros Hty. unfold vsz. by rewrite Hty. Qed.

Section TwoLeaves.
Context {R : IdRange} {P : Type} `{PageProviderLaws P}.

(** The root has one separator [sep]; its children are the leaves [c0] and [c1]. *)
Record two_leaves (v : view) (sep : bytes) (c0 : PageId) (h0 : PageHeader) (es0 : list entry)
    (c1 : PageId) (h1 : PageHeader) (es1 : list entry) : Prop := {
  tl_root : exists hr, node (v_pages v) (v_root v) hr [(sep, le_bytes 8 c1)] /\
    page_type hr = PAGE_TYPE_INTERNAL /\ left_child hr = c0;
  tl_left : node (v_pages v) c0 h0 es0;
  tl_right : node (v_pages v) c1 h1 es1;
  tl_leaf0 : page_type h0 = PAGE_TYPE_LEAF;
  tl_leaf1 : page_type h1 = PAGE_TYPE_LEAF;
  tl_next0 : next_leaf h0 = Some c1;
  tl_prev0 : prev_leaf h0 = None;
  tl_next1 : next_leaf h1 = None;
  tl_high1 : high_key h1 = None;
  tl_sorted0 : sorted es0;
  tl_sorted1 : sorted es1;
  tl_below : forall e, e ∈ es0 -> bytes_lt e.1 sep;
  tl_first : fst <$> head es1 = Some sep;
  tl_root_id : id_in (v_root v);
  tl_ids : id_in c0 /\ id_in c1 /\ NoDup [v_root v; c0; c1]
}.

Context {v : view} {sep : bytes} {c0 c1 : PageId} {h0 h1 : PageHeader} {es0 es1 : list entry}.
Hypothesis Htl : two_leaves v sep c0 h0 es0 c1 h1 es1.

Lemma tl_ne : v_root v <> c0 /\ v_root v <> c1 /\ c0 <> c1.
Proof using Htl. destruct (tl_ids _ _ _ _ _ _ _ _ Htl) as (_ & _ & Hnd).
  rewrite !NoDup_cons, !elem_of_cons in Hnd. naive_solver.
Qed.

Lemma tl_children p hr :
  rep p hr [(sep, le_bytes 8 c1)] -> page_type hr = PAGE_TYPE_INTERNAL -> left_child hr = c0 ->
  child_id_at_pos p hr 0 = Ret c0 /\ child_id_at_pos p hr 1 = Ret c1.
Proof using Htl.
  intros Hrep Hty Hlc. destruct (tl_ids _ _ _ _ _ _ _ _ Htl) as (_ & ?%id_in_u64 & _). split.
  - apply (child_id_at_pos_ok p hr _ 0 c0 Hrep Hty); [lia|]. unfold children. by rewrite Hlc.
  - apply (child_id_at_pos_ok p hr _ 1 c1 Hrep Hty); [lia|]. unfold children.
    change (Z.to_nat 1) with 1%nat. cbn [lookup list_lookup list_fmap fmap snd]. f_equal. apply le_val_u64. lia.
Qed.

(** A key below the separator goes to the left leaf. *)
Lemma tl_route p hr key :
  rep p hr [(sep, le_bytes 8 c1)] -> bytes_lt key sep -> child_insert_pos_for_key p hr key = Ret 0.
Proof using Htl.
  intros Hrep Hk. destruct (child_insert_pos_ok p hr _ key Hrep) as (pos & -> & Hlen & HL & _).
  { intros i j a b Hij Ha Hb. destruct i, j; try done; lia. }
  destruct (decide (pos = 0)) as [->|]; [done|]. exfalso. cbv beta in *.
  assert (Hle : bytes_le sep key) by (apply (HL 0%nat (sep, le_bytes 8 c1) eq_refl); lia).
  by apply (bytes_nlt_le key sep) in Hle.
Qed.

(** The left leaf is at its minimum and the right one is not: [rebalance] borrows.  Only
    the right leaf and the root are written. *)
Lemma run_borrow k0 b0 s1 b1 es1' pr hr p0 :
  es1 = (k0, b0) :: (s1, b1) :: es1' -> zlen es0 <= 7 < zlen es1 ->
  v_pages v !! v_root v = Some pr -> rep pr hr [(sep, le_bytes 8 c1)] ->
  page_type hr = PAGE_TYPE_INTERNAL -> left_child hr = c0 -> v_pages v !! c0 = Some p0 -> rep p0 h0 es0 ->
  exists v' h1', run_to (rebalance (v_root v) pr hr 0 c0 p0 h0) v (Some (c0, (v_root v, 0))) v' /\
    two_leaves v' s1 c0 h0 es0 c1 h1' ((s1, b1) :: es1') /\ v_root v' = v_root v /\ v_len v' = v_len v.
Proof using Htl.
  intros He Hn Hpr Hrepr Htyr Hlc Hp0 Hrep0. pose proof tl_ne as (Hr0 & Hr1 & H01).
  pose proof (tl_root_id _ _ _ _ _ _ _ _ Htl) as Hidr. pose proof (tl_ids _ _ _ _ _ _ _ _ Htl) as (Hid0 & Hid1 & _).
  destruct (tl_right _ _ _ _ _ _ _ _ Htl) as (p1 & Hp1 & Hrep1).
  pose proof (tl_leaf0 _ _ _ _ _ _ _ _ Htl) as Hty0. pose proof (tl_leaf1 _ _ _ _ _ _ _ _ Htl) as Hty1.
  pose proof (rep_sized _ _ _ Hrep0) as Hsz0. pose proof (rep_sized _ _ _ Hrep1) as Hsz1.
  rewrite sized_vsz in Hsz0, Hsz1 by done. pose proof (tl_sorted1 _ _ _ _ _ _ _ _ Htl) as Hs1.
  pose proof (leaf_count _ _ _ Hrep1 Hty1) as Hn1. pose proof (zlen_nonneg es0) as Hn0.
  rewrite He in Hsz1, Hn1, Hs1. apply Forall_cons in Hsz1 as [Hb0 Hsz1].
  assert (Hs1l : zlen s1 = 16) by (apply Forall_cons in Hsz1 as [[Hx _] _]; exact Hx).
  destruct (reencode p0 h0 es0 (with_high h0 (Some s1)) (es0 ++ [(k0, b0)]) Hrep0) as (pc & Hpc & _).
  { done. } { apply hdr_ok_high; [apply Hrep0|]. by intros x [= <-]. }
  { rewrite sized_vsz by done. apply Forall_app. split; [done|by apply Forall_singleton]. }
  { apply leaf_fits; [done|]. zlens. lia. }
  destruct (reencode p1 h1 es1 (with_prev h1 (Some c0)) ((s1, b1) :: es1') Hrep1) as (q1 & Hq1 & Hrepq1).
  { done. } { apply hdr_ok_prev; [apply Hrep1|]. apply id_ok_some, id_in_u64, Hid0. }
  { by rewrite sized_vsz. } { apply leaf_fits; [done|]. zlens. rewrite !zlen_cons in *. pose proof (zlen_nonneg es1'). lia. }
  destruct (reencode pr hr _ hr [(s1, le_bytes 8 c1)] Hrepr) as (qr & Hqr & Hrepqr); [done|apply Hrepr| | |].
  { apply Forall_singleton. split; [done|]. apply (Forall_cons_1 _ _ _ (rep_sized _ _ _ Hrepr)). }
  { apply (rp_fit _ _ _ Hrepr). }
  exists (put_page (v_root v) qr (put_page c1 q1 v)), (with_key_count (with_prev h1 (Some c0)) (zlen ((s1, b1) :: es1'))).
  split; [|split_and!; [|done|done]].
  - unfold rebalance. rewrite Hty0, min_leaf, (rp_count _ _ _ Hrep0), (rp_count _ _ _ Hrepr).
    destruct (Z.ltb_spec 7 (zlen es0)); [lia|].
    eapply run_lift_bind; [apply (collect_entries_ok pr hr _ Hrepr)|].
    eapply run_bind; [apply run_ret|]. change (0 <? zlen [(sep, le_bytes 8 c1)]) with true. cbn match.
    eapply run_lift_bind; [by apply (tl_children pr hr)|].
    eapply run_bind; [apply (run_latch_pages [c0; v_root v]); [done|apply Forall_cons; split; [done|by apply Forall_singleton]|set_solver]|].
    eapply run_bind; [apply run_read_or, Hp1|]. eapply run_lift_bind; [apply (rep_header _ _ _ Hrep1)|].
    rewrite (rp_count _ _ _ Hrep1). destruct (Z.ltb_spec 7 (zlen es1)); [|lia].
    eapply run_bind; [|apply run_ret]. unfold borrow_right. rewrite Hty0, Z.eqb_refl.
    eapply run_lift_bind; [apply (collect_entries_ok _ _ _ Hrep1)|]. rewrite He.
    eapply run_lift_bind; [apply (collect_entries_ok _ _ _ Hrep0)|].
    eapply run_bind.
    { do 3 (eapply run_lift_bind; [reflexivity|]). eapply run_lift_bind; [apply (rep_header _ _ _ Hrep0)|].
      eapply run_lift_bind; [apply (rep_header _ _ _ Hrep1)|].
      assert (key_to_high_key s1 = Some s1) as -> by (unfold key_to_high_key, HIGH_KEY_SIZE; by rewrite Hs1l).
      eapply run_lift_bind; [exact Hpc|]. eapply run_lift_bind; [exact Hq1|].
      eapply run_bind; [apply run_write; [assumption|page_size]|]. apply run_ret. }
    eapply run_lift_bind; [exact Hqr|]. eapply run_bind; [apply run_write; [assumption|page_size]|]. apply run_ret.
  - destruct Htl. split; cbn [v_pages v_root put_page]; try done.
    + eexists. split; [by eapply node_insert|]. done.
    + destruct tl_left0 as (p & Hp & Hr). exists p. by rewrite !lookup_insert_ne.
    + exists q1. rewrite lookup_insert_ne, lookup_insert_eq by done. done.
    + by apply (sorted_drop _ 1 Hs1).
    + intros e Hin. etrans; [by apply tl_below0|]. rewrite He in tl_first0. injection tl_first0 as <-.
      by apply (Hs1 0%nat 1%nat (k0, b0) (s1, b1)); [lia|..].
Qed.

(** Reads in the two-leaf tree. *)
Lemma two_leaves_tree :
  high_ok h0 (Some sep) ->
  tree (v_pages v) 1 (v_root v) None None c0 None [v_root v; c0; c1] (es0 ++ es1).
Proof using Htl.
  destruct Htl as [(hr & Hnr & Htyr & Hlc) Hn0 Hn1 Hty0 Hty1 Hnx0 _ Hnx1 Hh1 Hs0 Hs1 Hlt Hf Hir (Hi0 & Hi1 & _)].
  intros Hh0. eapply (tree_node _ 0 _ hr [(sep, le_bytes 8 c1)]); [done|done|done|done|]. rewrite Hlc.
  apply (forest_cons _ 0 c0 c1 sep [] None None c0 c1 None [c0] [c1]); [done|done| |].
  - eapply tree_leaf; [done|done|done| |done|done|done]. intros e He. split; [done|by apply Hlt].
  - apply forest_one. eapply tree_leaf; [done|done|done| | |done|done].
    + intros e He. split; [|done]. cbn. destruct es1 as [|e1 es]; [done|]. injection Hf as <-.
      apply elem_of_cons in He as [->|(j & He)%list_elem_of_lookup]; [done|].
      apply bytes_lt_le, (Hs1 0%nat (S j)); [lia|done|done].
    + intros k Hk. by rewrite Hh1 in Hk.
Qed.

(** The epilogue after a change of the left leaf. *)
Lemma run_epilogue_left p0 fuel :
  v_pages v !! c0 = Some p0 -> rep p0 h0 es0 -> (0 < fuel)%nat -> zlen sep = 16 ->
  exists p', run_to (_ ← repair_leaf_boundary_after_delete c0; _ ← refresh_leaf_high_keys;
                     maybe_collapse_root_after_delete fuel) v tt (put_page c0 p' v) /\
    rep p' (with_high h0 (Some sep)) es0.
Proof using Htl.
  intros Hp0 Hrep0 Hf Hsep. pose proof tl_ne as (Hr0 & Hr1 & H01).
  destruct Htl as [(hr & (pr & Hpr & Hrepr) & Htyr & Hlc) _ (p1 & Hp1 & Hrep1) Hty0 Hty1 Hnx0 Hpv0 Hnx1 Hh1 _ _ _ Hfst Hir (Hi0 & _)].
  destruct (write_header_rep p0 h0 es0 (with_high h0 (Some sep)) Hrep0) as (p' & Hw & Hrep');
    [apply hdr_ok_high; [apply Hrep0|by intros x [= <-]]|done|done|].
  exists p'. split; [|done]. set (v' := put_page c0 p' v).
  assert (Hp' : v_pages v' !! c0 = Some p') by apply lookup_insert_eq.
  assert (Hp1' : v_pages v' !! c1 = Some p1) by (cbn; by rewrite lookup_insert_ne).
  assert (Hpr' : v_pages v' !! v_root v' = Some pr) by (cbn; by rewrite lookup_insert_ne).
  assert (Hk1 : entry_key_at p1 0 = Ret (Some sep)).
  { rewrite (entry_key_at_ok _ _ _ Hrep1) by lia. f_equal. rewrite <-Hfst. by destruct es1. }
  assert (Hhk : key_to_high_key sep = Some sep) by (unfold key_to_high_key, HIGH_KEY_SIZE; by rewrite Hsep).
  assert (Hfk : forall u, v_pages u !! c1 = Some p1 -> run_to (first_key_of c1) u (Some sep) u).
  { intros u Hu. unfold first_key_of. eapply run_bind; [apply run_read, Hu|]. by apply run_lift. }
  eapply run_bind.
  { unfold repair_leaf_boundary_after_delete. latch_alone. eapply run_bind; [apply run_read, Hp0|]. cbn match.
    eapply run_lift_bind; [apply (rep_header _ _ _ Hrep0)|]. rewrite Hty0, Hnx0, Hpv0, Z.eqb_refl. cbn [negb].
    eapply run_lift_bind; [by apply (entry_key_at_ok _ _ _ Hrep0)|].
    eapply run_bind; [by apply Hfk|]. cbn [mbind option_bind]. rewrite Hhk. eapply run_lift_bind; [exact Hw|].
    eapply run_bind; [apply run_write; [assumption|page_size]|]. apply run_ret. }
  eapply run_bind.
  { unfold refresh_leaf_high_keys. eapply run_bind; [apply run_get_root|].
    destruct scan_hops2 as (n & ->). cbn [leftmost refresh_loop].
    eapply run_bind.
    { latch_alone. eapply run_bind; [apply run_read, Hpr'|]. cbn match.
      eapply run_lift_bind; [apply (rep_header _ _ _ Hrepr)|]. rewrite leaf_page_type, Hlc by done.
      latch_alone. eapply run_bind; [apply run_read, Hp'|]. cbn match.
      eapply run_lift_bind; [apply (rep_header _ _ _ Hrep')|]. cbn [page_type with_high]. rewrite Hty0. apply run_ret. }
    latch_alone. eapply run_bind; [apply run_read, Hp'|]. cbn match.
    eapply run_lift_bind; [apply (rep_header _ _ _ Hrep')|]. cbn [page_type with_high next_leaf high_key].
    rewrite Hty0, Hnx0, Z.eqb_refl. cbn [negb]. eapply run_bind; [by apply Hfk|].
    cbn [mbind option_bind]. rewrite Hhk, bool_decide_eq_true_2 by done. eapply run_bind; [apply run_ret|].
    destruct (Z.eqb_spec c1 c0); [by subst|].
    latch_alone. eapply run_bind; [apply run_read, Hp1'|]. cbn match.
    eapply run_lift_bind; [apply (rep_header _ _ _ Hrep1)|]. rewrite Hty1, Hnx1, Hh1, Z.eqb_refl. cbn [negb].
    eapply run_bind; [apply run_ret|]. eapply run_bind; [apply run_ret|]. apply run_ret. }
  destruct fuel as [|fuel]; [lia|]. unfold maybe_collapse_root_after_delete. cbn [collapse_loop].
  latch_alone. eapply run_bind; [apply run_get_root|]. latch_root. eapply run_bind; [apply run_read, Hpr'|]. cbn match.
  eapply run_lift_bind; [apply (rep_header _ _ _ Hrepr)|]. rewrite (rp_count _ _ _ Hrepr), Htyr. apply run_ret.
Qed.

(** The parent's separator needs no repair when the leaf is its first child. *)
Lemma run_no_repair u k :
  v_pages u !! v_root v = v_pages v !! v_root v ->
  run_to (repair_parent_separator_after_leaf_first_key_change (v_root v) 0 c0 k) u tt u.
Proof using Htl.
  intros Hu. destruct (tl_root _ _ _ _ _ _ _ _ Htl) as (hr & (pr & Hpr & Hrepr) & Htyr & Hlc).
  rewrite Hpr in Hu. unfold repair_parent_separator_after_leaf_first_key_change.
  latch_alone. eapply run_bind; [apply run_read, Hu|]. cbn match. eapply run_lift_bind; [apply (rep_header _ _ _ Hrepr)|].
  rewrite Htyr, (rp_count _ _ _ Hrepr). change (negb (PAGE_TYPE_INTERNAL =? PAGE_TYPE_INTERNAL) || (zlen [(sep, le_bytes 8 c1)] =? 0)) with false.
  change (0 <=? zlen [(sep, le_bytes 8 c1)]) with true. cbn match.
  destruct (tl_children pr hr Hrepr Htyr Hlc) as [-> _]. obind. rewrite Z.eqb_refl.
  eapply run_lift_bind; [reflexivity|]. eapply run_lift_bind; [reflexivity|]. apply run_ret.
Qed.

End TwoLeaves.

Section Loss.
Context {R : IdRange} {P : Type} `{PageProviderLaws P}.

Lemma run_remove_left v sep c0 h0 es0 c1 h1 es1 p0 key w pos fuel :
  two_leaves v sep c0 h0 es0 c1 h1 es1 -> v_pages v !! c0 = Some p0 -> rep p0 h0 es0 -> (0 < fuel)%nat -> zlen sep = 16 ->
  es0 !! Z.to_nat pos = Some (key, w) -> 0 <= pos -> find_key_pos p0 key = Ret (Some (true, pos)) ->
  exists v' h0', run_to (remove_here fuel key c0 p0 h0 (Some (v_root v, 0))) v tt v' /\
    two_leaves v' sep c0 h0' (remove_at pos es0) c1 h1 es1 /\ high_key h0' = Some sep /\
    v_root v' = v_root v /\ v_next v' = v_next v /\ v_len v' = sat_sub (v_len v) 1.
Proof.
  intros Htl Hp0 Hrep0 Hf Hsep He Hpos Hfind. pose proof (tl_ne Htl) as (Hr0 & Hr1 & H01).
  pose proof (lookup_lt_Some _ _ _ He) as Hlt. assert (Hr : 0 <= pos < zlen es0) by (unfold zlen; lia).
  destruct (rebuild_remove_ok p0 h0 es0 pos Hrep0 Hr) as (p1 & Hrb & Hrep1).
  set (u := at_len (sat_sub (v_len v) 1) (put_page c0 p1 v)).
  assert (Htl' : two_leaves u sep c0 (with_key_count h0 (zlen es0 - 1)) (remove_at pos es0) c1 h1 es1).
  { destruct Htl. split; cbn [v_pages v_root u at_len put_page]; try (destruct h0; done).
    - destruct tl_root0 as (hr & (p & Hp & Hrp) & ?). exists hr. split; [|done]. exists p. by rewrite lookup_insert_ne.
    - by apply node_insert.
    - destruct tl_right0 as (p & Hp & Hrp). exists p. by rewrite lookup_insert_ne.
    - by apply sorted_remove_at.
    - intros e Hin. apply tl_below0. unfold remove_at in Hin. rewrite delete_take_drop in Hin.
      apply elem_of_app in Hin as [Hin|Hin]; [by eapply elem_take|by eapply elem_drop]. }
  pose proof (proj1 (tl_ids _ _ _ _ _ _ _ _ Htl)) as Hid0.
  destruct (run_epilogue_left Htl' p1 fuel) as (p2 & Hrun & Hrep2);
    [apply lookup_insert_eq|done|done|done|].
  exists (put_page c0 p2 u), (with_high (with_key_count h0 (zlen es0 - 1)) (Some sep)).
  split; [|split; [|done]].
  - unfold remove_here. eapply run_lift_bind; [exact Hfind|]. cbn [default]. eapply run_lift_bind; [exact Hrb|].
    eapply (run_lift_bind _ _ (if pos =? 0 then fst <$> remove_at pos es0 !! 0%nat else None)).
    { destruct (pos =? 0); [by apply (entry_key_at_ok _ _ _ Hrep1)|done]. }
    eapply run_bind; [apply run_write; [assumption|page_size]|]. eapply run_bind; [apply run_len_decr|].
    eapply run_bind; [|exact Hrun]. destruct (if pos =? 0 then _ else _) as [k|]; [|apply run_ret].
    apply (run_no_repair Htl). cbn. by rewrite lookup_insert_ne.
  - destruct Htl'. split; cbn [v_pages v_root put_page]; try done.
    + destruct tl_root0 as (hr & (p & Hp & Hrp) & ?). exists hr. split; [|done]. exists p. by rewrite lookup_insert_ne.
    + by apply node_insert.
    + destruct tl_right0 as (p & Hp & Hrp). exists p. by rewrite lookup_insert_ne.
Qed.

(** [remove] when the left leaf holds the key and is at its minimum. *)
Lemma run_remove_borrow v sep c0 h0 es0 c1 h1 es1 key fuel :
  two_leaves v sep c0 h0 es0 c1 h1 es1 -> key ∈ es0.*1 -> zlen es0 <= 7 < zlen es1 -> (2 < fuel)%nat ->
  exists v' s1 h0' h1' es0', run_to (remove fuel key) v tt v' /\
    two_leaves v' s1 c0 h0' es0' c1 h1' (tail es1) /\ high_key h0' = Some s1 /\ to_map es0' = delete key (to_map es0) /\
    v_root v' = v_root v /\ v_len v' = sat_sub (v_len v) 1.
Proof.
  intros Htl Hin Hn Hf. destruct fuel as [|[|fuel]]; [lia|lia|]. apply list_elem_of_fmap in Hin as ([key' w] & -> & Hin).
  destruct (tl_root _ _ _ _ _ _ _ _ Htl) as (hr & (pr & Hpr & Hrepr) & Htyr & Hlc).
  destruct (tl_left _ _ _ _ _ _ _ _ Htl) as (p0 & Hp0 & Hrep0). pose proof (tl_sorted0 _ _ _ _ _ _ _ _ Htl) as Hs0.
  pose proof (Forall_forall (entry_sized (vsz h0)) es0) as [Hsz _].
  destruct (Hsz (rep_sized _ _ _ Hrep0) _ Hin) as [Hkey _]. cbn [fst] in Hkey.
  pose proof (tl_below _ _ _ _ _ _ _ _ Htl _ Hin) as Hlt. cbn [fst] in Hlt |- *.
  destruct es1 as [|[k0 b0] [|[s1 b1] es1']] eqn:He; [unfold zlen in Hn; cbn in Hn; lia..|]. rewrite <-He in *.
  destruct (run_borrow Htl k0 b0 s1 b1 es1' pr hr p0) as (u & h1' & Hrun & Htlu & Hru & Hlu); try done.
  destruct (tl_left _ _ _ _ _ _ _ _ Htlu) as (q0 & Hq0 & Hrepq0).
  destruct (tl_right _ _ _ _ _ _ _ _ Htlu) as (q1 & _ & Hrepq1).
  pose proof (Forall_cons_1 _ _ _ (rep_sized _ _ _ Hrepq1)) as [[Hs1 _] _]. cbn [fst] in Hs1.
  destruct (find_key_pos_ok q0 h0 es0 key' Hrepq0 Hs0) as (found & pos & Hfind & Hpos).
  destruct found; [|exfalso; apply cut_absent in Hpos; apply (to_map_elem _ _ _ Hs0) in Hin; by rewrite Hin in Hpos].
  destruct Hpos as (Hpos & w' & Hw).
  destruct (run_remove_left u s1 c0 h0 es0 c1 h1' _ q0 key' w' pos fuel Htlu Hq0 Hrepq0 ltac:(lia) Hs1 Hw Hpos Hfind)
    as (v' & h0' & Hrun' & Htl' & Hh' & Hr' & _ & Hl').
  exists v', s1, h0', h1', (remove_at pos es0). split; [|split_and!; try done; [by rewrite He|by eapply to_map_remove_at|congruence|congruence]].
  unfold remove, KEY_SIZE. rewrite Hkey. cbn [negb Z.eqb Pos.eqb remove_loop].
  pose proof (tl_root_id _ _ _ _ _ _ _ _ Htl) as Hidr. pose proof (tl_ids _ _ _ _ _ _ _ _ Htl) as (Hid0 & _). pose proof (tl_ne Htl) as (Hr0 & _).
  latch_alone. eapply run_bind; [apply run_get_root|]. latch_root. eapply run_bind; [apply run_read, Hpr|]. cbn match.
  eapply run_lift_bind; [apply (rep_header _ _ _ Hrepr)|]. rewrite leaf_page_type by done.
  eapply run_lift_bind; [by apply (tl_route Htl)|].
  eapply run_lift_bind; [by apply (tl_children Htl)|].
  eapply run_bind; [apply (run_latch_pages [v_root v]); [done|by apply Forall_singleton|by intros ->%list_elem_of_singleton]|].
  eapply run_bind; [apply run_read_or, Hp0|]. eapply run_lift_bind; [apply (rep_header _ _ _ Hrep0)|].
  eapply run_bind; [exact Hrun|]. cbn match. eapply run_bind; [apply run_read, Hq0|]. cbn match.
  eapply run_lift_bind; [apply (rep_header _ _ _ Hrepq0)|]. rewrite (tl_leaf0 _ _ _ _ _ _ _ _ Htl), Z.eqb_refl.
  rewrite <-Hru. exact Hrun'.
Qed.

Lemma to_map_two v sep c0 h0 es0 c1 h1 es1 :
  two_leaves v sep c0 h0 es0 c1 h1 es1 -> to_map (tail es1) = delete sep (to_map es1) /\ to_map es0 !! sep = None /\
  is_Some (to_map es1 !! sep) /\ forall k, bytes_lt k sep -> to_map es1 !! k = None.
Proof.
  intros Htl. pose proof (tl_sorted1 _ _ _ _ _ _ _ _ Htl) as Hs1. pose proof (tl_first _ _ _ _ _ _ _ _ Htl) as Hf.
  destruct es1 as [|[k b] es1]; [done|]. injection Hf as ->. split_and!.
  - apply (to_map_remove_at ((sep, b) :: es1) 0 sep b Hs1). done.
  - apply to_map_absent. intros e He <-. apply (tl_below _ _ _ _ _ _ _ _ Htl) in He. by eapply bytes_lt_irrefl.
  - exists b. by apply (to_map_lookup _ 0 sep b Hs1).
  - intros k Hk. apply to_map_absent. intros e [->|(j & He)%list_elem_of_lookup]%elem_of_cons <-; [by eapply bytes_lt_irrefl|].
    apply (bytes_lt_irrefl sep). etrans; [|exact Hk]. apply (Hs1 0%nat (S j) (sep, b) e); [lia|done|done].
Qed.

(** What a client sees afterwards: the removed key and the borrowed row are both gone. *)
Lemma remove_borrow_gets (t : PageBPlusTree P) (m : lvmap) sep c0 h0 es0 c1 h1 es1 key fuel :
  two_leaves (vw t) sep c0 h0 es0 c1 h1 es1 -> provider_ok R (provider t) ->
  to_map (es0 ++ es1) = encode_leaf_value <$> m -> map_Forall (fun _ => lv_ok) m ->
  key ∈ es0.*1 -> zlen es0 <= 7 < zlen es1 -> (2 < fuel)%nat ->
  is_Some (delete key m !! sep) /\ exists t', remove fuel key t = (Ret tt, t') /\ len t' = sat_sub (len t) 1 /\
    forall k, exists t'', get k t' = (Ret (delete sep (delete key m) !! k), t'').
Proof.
  intros Htl Ho Hm Hok Hin Hn Hf.
  destruct (run_remove_borrow (vw t) sep c0 h0 es0 c1 h1 es1 key fuel Htl Hin Hn Hf)
    as (v' & s1 & h0' & h1' & es0' & Hrun & Htl' & Hh & Hm0 & Hr & Hl).
  destruct (to_map_two _ _ _ _ _ _ _ _ Htl) as (Hm1 & Hno & (b & Hb) & Habs).
  assert (Hlt : bytes_lt key sep).
  { apply list_elem_of_fmap in Hin as (e & -> & He). by apply (tl_below _ _ _ _ _ _ _ _ Htl). }
  assert (Hne : key <> sep) by (intros ->; by eapply bytes_lt_irrefl).
  assert (Hmap : to_map es0 ∪ to_map es1 = encode_leaf_value <$> m) by (rewrite <-Hm; unfold to_map; by rewrite list_to_map_app).
  split.
  { rewrite lookup_delete_ne by done. apply (fmap_is_Some encode_leaf_value). rewrite <-lookup_fmap, <-Hmap.
    rewrite lookup_union_r by done. by exists b. }
  destruct (Hrun t Ho eq_refl) as (t' & Hrm & <- & Ho' & _). exists t'. split; [done|]. split; [exact Hl|]. intros k.
  assert (Hho : high_ok h0' (Some s1)) by (intros x; rewrite Hh; intros [= <-]; by exists s1).
  pose proof (two_leaves_tree Htl' Hho) as Ht.
  destruct (run_get (vw t') k _ _ _ _ _ Ht ltac:(lia) t' Ho' eq_refl) as (t'' & Hg & _).
  exists t''. rewrite Hg. do 2 f_equal.
  assert (Hm2 : to_map (es0' ++ tail es1) = encode_leaf_value <$> delete sep (delete key m)).
  { unfold to_map. rewrite list_to_map_app. fold (to_map es0') (to_map (tail es1)).
    rewrite Hm0, Hm1, !fmap_delete, <-Hmap. rewrite !delete_union. f_equal.
    - by rewrite (delete_id (delete key _)) by (rewrite lookup_delete_ne by done; done).
    - by rewrite (delete_id (to_map es1) key) by by apply Habs. }
  rewrite Hm2. apply lookup_encode. by apply map_Forall_delete, map_Forall_delete.
Qed.

End Loss.
