(* ===== verification/BtreeProps.v ===== *)
(** * BtreeProps: what the B+tree of src/src/page_bptree.rs promises

    The tree stores a finite map from 16-byte keys to leaf values: insertions, look-ups
    and range scans refine the operations of that map for every provider that keeps the
    laws of [PageProviderLaws], as long as the page ids stay below the number of latch
    stripes; past it an operation can wait for a latch it holds itself.  Deletion refines the
    map on a tree of one leaf, and loses a record on a taller tree. *)

From stdpp Require Import base numbers list list_numbers gmap fin_maps sorting.
From S2P Require Import Prelude Common SlottedPage BtreePage Latch Provider Btree BtreeInv BtreeRun BtreeInsert BtreeMap BtreeRange BtreeRemove.
Import Bp BpSpec Btree.

Module BtreeProps.

(** A sequence of insertions, as a client issues them. *)
Section Sequence.
Context {R : IdRange} {P : Type} `{PageProviderLaws P}.

Definition valid_row (kv : bytes * LeafValue) : Prop := zlen kv.1 = KEY_SIZE /\ lv_ok kv.2.

Fixpoint insert_all (fuel : nat) (kvs : list (bytes * LeafValue)) : st (PageBPlusTree P) Error unit :=
  match kvs with
  | [] => mret tt
  | (k, v) :: kvs => _ ← insert fuel k v; insert_all fuel kvs
  end.

(** The last value written under each key. *)
Definition written (kvs : list (bytes * LeafValue)) : lvmap := list_to_map (reverse kvs).

Lemma tree_ok_insert_all fuel kvs : forall t m,
  tree_ok t m -> Forall valid_row kvs -> (64 < fuel)%nat ->
  v_next (vw t) + 66 * zlen kvs + 62 <= id_hi ->
  exists t', insert_all fuel kvs t = (Ret tt, t') /\ tree_ok t' (written kvs ∪ m) /\
    v_next (vw t') <= v_next (vw t) + 66 * zlen kvs.
Proof.
  induction kvs as [|[k v] kvs IH]; intros t m Ht Hv Hf Hn.
  - exists t. unfold written, zlen. cbn. rewrite map_empty_union. split_and!; [done|done|lia].
  - apply Forall_cons in Hv as [[Hk Hl] Hv]. cbn [fst snd] in *. rewrite zlen_cons in *.
    destruct (tree_ok_insert fuel t m k v Ht Hk Hl Hf) as (t1 & Hi & Ht1 & _ & Hn1); [pose proof (zlen_nonneg kvs); lia|].
    destruct (IH t1 _ Ht1 Hv Hf) as (t2 & Hi2 & Ht2 & Hn2); [lia|].
    exists t2. cbn [insert_all]. unfold mbind, st_bind. rewrite Hi. split; [exact Hi2|]. split; [|lia].
    assert (written ((k, v) :: kvs) ∪ m = written kvs ∪ <[k := v]> m) as ->; [|exact Ht2].
    unfold written. rewrite reverse_cons, list_to_map_app. cbn.
    by rewrite <-(map_union_assoc _ _ m), insert_empty, <-insert_union_singleton_l.
Qed.
End Sequence.

#[local] Existing Instance InMemory.in_memory_ids.

Lemma fold_collect {R} (rows out : list (bytes * R)) :
  fold_while (fun out k v => (out ++ [(k, v)], true)) rows out = out ++ rows.
Proof.
  revert out. induction rows as [|[k r] rows IH]; intros out; cbn; [by rewrite app_nil_r|].
  by rewrite IH, <-app_assoc.
Qed.

(** ** A sample tree: three rows over the in-memory provider *)

Definition sample_key (i : Z) : bytes := zrepeat 0 15 ++ [i].
Definition sample_value (i : Z) : LeafValue := {|
  lv_value := zrepeat i VALUE_SIZE;
  lv_meta := {| commit_lsn := i; undo_ptr := None; flags := 0; intent_txn_id := 0; intent_lsn := 0 |}
|}.
Definition sample_row (i : Z) : bytes * LeafValue := (sample_key i, sample_value i).

Lemma sample_valid i : 0 <= i < 256 -> valid_row (sample_row i).
Proof.
  intros Hi. split; cbn [fst snd sample_row]; [unfold sample_key, KEY_SIZE; zlens; lia|].
  split; cbn [sample_value lv_value lv_meta commit_lsn undo_ptr flags intent_txn_id intent_lsn].
  - apply zlen_zrepeat. unfold VALUE_SIZE. lia.
  - unfold U64. lia.
  - done.
  - unfold U16. lia.
  - unfold U64. lia.
  - unfold U64. lia.
Qed.

Lemma sample_tree (l : list Z) :
  Forall (fun i => 0 <= i < 256) l -> zlen l <= 100 ->
  exists t t', new_with_provider InMemory.new = Ret t /\ insert_all 65 (sample_row <$> l) t = (Ret tt, t') /\
    tree_ok t' (written (sample_row <$> l)) /\ v_next (vw t') <= 2 + 66 * zlen l.
Proof.
  intros Hl Hn. destruct (tree_ok_new InMemory.new) as (t & Ht & Hok & Hnx); [done|done|done|].
  change (pv_next (view_of InMemory.new)) with 1 in Hnx.
  assert (Hz : zlen (sample_row <$> l) = zlen l) by (unfold zlen; by rewrite length_fmap).
  destruct (tree_ok_insert_all 65 (sample_row <$> l) t ∅ Hok) as (t' & Hi & Hok' & Hn').
  - apply Forall_fmap. eapply Forall_impl; [exact Hl|]. exact sample_valid.
  - lia.
  - rewrite Hz, Hnx. cbn [id_hi InMemory.in_memory_ids]. unfold DEFAULT_LATCH_STRIPES. lia.
  - exists t, t'. rewrite map_union_empty in Hok'. split_and!; [done|done|done|]. rewrite Hz in Hn'. lia.
Qed.

(** Pages written out by hand. *)
Definition sample_header (ty : Z) (prev next : option PageId) (left : PageId) (high : option bytes) : PageHeader := {|
  page_type := ty; level := 0; key_count := 0; prev_leaf := prev; next_leaf := next; left_child := left; high_key := high |}.
Definition sample_entries (a n : Z) : list entry :=
  (fun i => (sample_key i, encode_leaf_value (sample_value i))) <$> seqZ a n.

Lemma sample_lt i j : i < j -> bytes_lt (sample_key i) (sample_key j).
Proof. intros Hij. unfold bytes_lt, sample_key, zrepeat. change (Z.to_nat 15) with 15%nat. cbn. apply Z.compare_lt_iff in Hij. by rewrite Hij. Qed.

Lemma sample_entries_sorted a n : sorted (sample_entries a n).
Proof.
  intros i j x y Hij Hx Hy. unfold sample_entries in *.
  apply list_lookup_fmap_Some in Hx as (p & -> & Hp), Hy as (q & -> & Hq).
  apply lookup_seqZ in Hp as [-> _], Hq as [-> _]. apply sample_lt. lia.
Qed.

Lemma zlen_sample_entries a n : 0 <= n -> zlen (sample_entries a n) = n.
Proof. intros. unfold sample_entries, zlen. rewrite length_fmap, length_seqZ. lia. Qed.

Lemma sample_entries_elem a n e : e ∈ sample_entries a n -> exists i, a <= i < a + n /\ e.1 = sample_key i.
Proof. intros (i & -> & Hi%elem_of_seqZ)%list_elem_of_fmap. by exists i. Qed.

Lemma sample_leaf a n prev next high :
  0 <= a -> a + n <= 256 -> 0 <= n <= 15 -> hdr_ok (sample_header PAGE_TYPE_LEAF prev next 0 high) ->
  exists p, rep p (with_key_count (sample_header PAGE_TYPE_LEAF prev next 0 high) n) (sample_entries a n).
Proof.
  intros Ha Hn Hn' Hok.
  destruct (encode_entries_ok (zrepeat 0 PAGE_SIZE) (sample_entries a n) _ (zlen_zrepeat 0 PAGE_SIZE ltac:(done)) Hok) as (p & _ & Hr).
  - apply Forall_fmap, Forall_forall. intros i Hi%elem_of_seqZ. destruct (sample_valid i) as [Hk Hv]; [lia|].
    split; [exact Hk|]. apply encode_leaf_value_len, Hv.
  - rewrite zlen_sample_entries by lia. by apply leaf_fits.
  - exists p. by rewrite zlen_sample_entries in Hr by lia.
Qed.

Definition sample_map (a n : Z) : lvmap := list_to_map (sample_row <$> seqZ a n).

Lemma sample_map_encoded a n : to_map (sample_entries a n) = encode_leaf_value <$> sample_map a n.
Proof.
  unfold to_map, sample_map, sample_entries. rewrite <-list_to_map_fmap, <-list_fmap_compose. done.
Qed.

Lemma sample_map_ok a n : 0 <= a -> a + n <= 256 -> map_Forall (fun _ => lv_ok) (sample_map a n).
Proof.
  intros Ha Hn k v Hk. apply elem_of_list_to_map_2 in Hk.
  apply list_elem_of_fmap in Hk as (i & [= -> ->] & Hi%elem_of_seqZ). apply (sample_valid i). lia.
Qed.

Lemma sample_header_ok ty prev next left high :
  is_byte ty -> id_ok prev -> id_ok next -> 0 <= left < U64 -> (forall k, high = Some k -> zlen k = 16) ->
  hdr_ok (sample_header ty prev next left high).
Proof. intros. split; cbn; try done. Qed.

Lemma sample_leaf_tree a n p :
  rep p (with_key_count (sample_header PAGE_TYPE_LEAF None None 0 None) n) (sample_entries a n) ->
  0 <= a -> a + n <= 256 -> 0 <= n <= 15 ->
  let t := {| provider := {| InMemory.pages := {[1 := p]}; InMemory.next_page_id := 2; InMemory.root := 1 |}; len := n |} in
  tree_ok t (sample_map a n) /\ v_pages (vw t) !! v_root (vw t) = Some p.
Proof.
  intros Hp Ha Hn Hn' t. split; [|apply lookup_singleton_eq].
  split; [done|]. exists 0%nat, 1, [1], (sample_entries a n). split_and!.
  - split; [|apply NoDup_singleton|by intros i ->%list_elem_of_singleton|done].
    eapply tree_leaf; [by apply node_insert|done|apply sample_entries_sorted|done|done|done|done].
  - apply sample_map_encoded.
  - by apply sample_map_ok.
  - assert (Hs : Z.of_nat (size (sample_map a n)) = n).
    { rewrite <-(map_size_fmap encode_leaf_value), <-sample_map_encoded, to_map_size by apply sample_entries_sorted.
      apply zlen_sample_entries. lia. }
    rewrite Hs. symmetry. apply Z.mod_small. unfold U64. cbn. lia.
  - done.
Qed.

Lemma sample_two_leaves : exists (t : PageBPlusTree InMemory.InMemoryPageProvider) h0 h1,
  provider_ok InMemory.in_memory_ids (provider t) /\
  two_leaves (vw t) (sample_key 8) 2 h0 (sample_entries 1 7) 3 h1 (sample_entries 8 8).
Proof.
  destruct (sample_leaf 1 7 None (Some 3) (Some (sample_key 8))) as (p0 & Hp0); [lia|lia|lia|apply sample_header_ok|];
    [done|done|by apply id_ok_some|done|by intros k [= <-]|].
  destruct (sample_leaf 8 8 (Some 2) None None) as (p1 & Hp1); [lia|lia|lia|apply sample_header_ok|];
    [done|by apply id_ok_some|done|done|done|].
  destruct (encode_entries_ok (zrepeat 0 PAGE_SIZE) [(sample_key 8, le_bytes 8 3)]
    (sample_header PAGE_TYPE_INTERNAL None None 2 None) (zlen_zrepeat 0 PAGE_SIZE ltac:(done))) as (pr & _ & Hpr);
    [by apply sample_header_ok|by apply Forall_singleton|done|].
  exists {| provider := {| InMemory.pages := <[1 := pr]> (<[2 := p0]> {[3 := p1]}); InMemory.next_page_id := 4; InMemory.root := 1 |}; len := 15 |}.
  exists (with_key_count (sample_header PAGE_TYPE_LEAF None (Some 3) 0 (Some (sample_key 8))) 7),
    (with_key_count (sample_header PAGE_TYPE_LEAF (Some 2) None 0 None) 8). split; [done|].
  split; cbn [vw view_with view_of InMemory.in_memory_laws pv_pages pv_root v_pages v_root provider InMemory.pages InMemory.root]; try done; try apply sample_entries_sorted.
  - eexists. split; [by apply node_insert|done].
  - exists p0. split; [reflexivity|exact Hp0].
  - exists p1. split; [reflexivity|exact Hp1].
  - intros e (i & Hi & ->)%sample_entries_elem. apply sample_lt. lia.
  - split_and!; [done|done|]. repeat (apply NoDup_cons; split; [set_solver|]). apply NoDup_nil. done.
Qed.

(** ** Properties *)

(** C2: [insert] refines insertion into the finite map the tree stores: on any tree that
    represents [m], over any lawful provider, inserting a 16-byte key returns [Ok], and the
    tree it leaves represents [<[key := lv]> m] (splits of leaves, inner pages and the root
    included, and [len] counting the keys).  Every page that the call changed is in the set
    of pages noted for the transaction that runs, as it is afterwards.  The ids of the range
    are below the number of latch stripes ([prov_stripes]), and 128 of them are left: then no
    latch the call waits for is one it holds. *)
Theorem insert_refines_map {R : IdRange} {P} `{PageProviderLaws P} fuel (t : PageBPlusTree P) m key lv :
  tree_ok t m -> zlen key = KEY_SIZE -> lv_ok lv -> (64 < fuel)%nat ->
  v_next (vw t) + 128 <= id_hi ->
  exists t', insert fuel key lv t = (Ret tt, t') /\ tree_ok t' (<[key := lv]> m) /\ tracks (vw t) (vw t').
Proof.
  intros Ht Hk Hl Hf Hn. destruct (tree_ok_insert fuel t m key lv) as (t' & Hi & Hok & (_ & _ & Htr) & _); eauto.
Qed.

Lemma insert_refines_map_witness : exists t t',
  insert 65 (sample_key 9) (sample_value 9) t = (Ret tt, t') /\
  tree_ok (P:=InMemory.InMemoryPageProvider) t' (<[sample_key 9 := sample_value 9]> (written (sample_row <$> seqZ 1 20))) /\
  tracks (vw t) (vw t').
Proof.
  destruct (sample_tree (seqZ 1 20)) as (t0 & t & _ & _ & Hok & Hn);
    [apply Forall_seqZ; lia|done|].
  destruct (sample_valid 9) as [Hk Hl]; [lia|]. exists t.
  apply (insert_refines_map 65 t _ (sample_key 9) (sample_value 9)); [exact Hok|exact Hk|exact Hl|lia|].
  change (zlen (seqZ 1 20)) with 20 in Hn. cbn [id_hi InMemory.in_memory_ids]. unfold DEFAULT_LATCH_STRIPES. lia.
Defined.

(** Reading after any sequence of insertions: starting from the empty tree a provider
    creates, a sequence of insertions of well-formed rows (in any order, with repeats)
    succeeds, and then [get] returns for every key the value last inserted under it and
    [None] for a key never inserted. *)
Theorem insert_all_then_get {R : IdRange} {P} `{PageProviderLaws P} (p : P) kvs key :
  provider_ok R p -> id_lo <= pv_next (view_of p) -> pv_next (view_of p) + 66 * zlen kvs + 64 <= id_hi -> Forall valid_row kvs ->
  exists t t' t'', new_with_provider p = Ret t /\ insert_all 65 kvs t = (Ret tt, t') /\
    get key t' = (Ret (written kvs !! key), t'').
Proof.
  intros Ho Hp Hn Hv. pose proof (zlen_nonneg kvs).
  destruct (tree_ok_new p Ho) as (t & Ht & Hok & Hnx); [lia|lia|].
  destruct (tree_ok_insert_all 65 kvs t ∅ Hok Hv) as (t' & Hi & Hok' & _); [lia|lia|].
  rewrite map_union_empty in Hok'. destruct (tree_ok_get t' _ key Hok') as (t'' & Hg & _). by exists t, t', t''.
Qed.

Lemma insert_all_then_get_witness : exists t t' t'',
  new_with_provider InMemory.new = Ret t /\ insert_all 65 (sample_row <$> [3; 1; 2; 3]) t = (Ret tt, t') /\
  get (sample_key 2) t' = (Ret (written (sample_row <$> [3; 1; 2; 3]) !! sample_key 2), t'').
Proof.
  apply (insert_all_then_get InMemory.new (sample_row <$> [3; 1; 2; 3]) (sample_key 2)); [done|done|done|].
  apply Forall_fmap. repeat (apply Forall_cons; split; [apply sample_valid; lia|]). apply Forall_nil. done.
Defined.

Lemma latch_free {P} `{AsyncPageProvider P} id (t : PageBPlusTree P) : acquire_write_latch [] id t = (Ret tt, t).
Proof. reflexivity. Qed.

Lemma latch_held {P} `{AsyncPageProvider P} a id (t : PageBPlusTree P) :
  id mod latch_stripes (provider t) = a mod latch_stripes (provider t) -> acquire_write_latch [write_held a] id t = (Spin, t).
Proof. intros He. unfold acquire_write_latch, latch, permits_left. cbn. by rewrite He, Z.eqb_refl. Qed.

(** Pages share latches.  When the id of the root is a multiple of the number of stripes the
    root has the stripe of [ROOT_LATCH_PAGE_ID], which [insert] holds, and when a child has
    the stripe of its parent [insert] waits with the latch of the parent held: either way
    the call never returns, on a tree that is otherwise in order. *)
Theorem insert_self_deadlock {P} `{AsyncPageProvider P} fuel (t : PageBPlusTree P) key lv :
  zlen key = KEY_SIZE ->
  (root_page_id (provider t) mod latch_stripes (provider t) = 0 -> insert fuel key lv t = (Spin, t)) /\
  (forall parent pg p' h pos child enc,
     read_page parent (provider t) = (Some pg, p') -> latch_stripes p' = latch_stripes (provider t) ->
     page_header pg = Ret h -> page_type h <> PAGE_TYPE_LEAF -> child_insert_pos_for_key pg h key = Ret pos ->
     child_id_at_pos pg h pos = Ret child -> child mod latch_stripes p' = parent mod latch_stripes p' ->
     exists t', insert_loop fuel key enc parent t = (Spin, t')).
Proof.
  intros Hk. split.
  - intros Hr. unfold insert. rewrite Hk. cbn [negb Z.eqb KEY_SIZE Pos.eqb].
    unfold ensure_root_not_full, mbind, st_bind at 1. rewrite latch_free. unfold st_bind, get_root.
    by rewrite latch_held by (by rewrite Hr, Zdiv.Zmod_0_l).
  - intros parent pg p' h pos child enc Hp Hs Hh Hty Hpos Hc Hm. destruct fuel as [|fuel]; [by eexists|].
    eexists. cbn [insert_loop]. unfold read_or, read, mbind, st_bind, lift. rewrite Hp. cbn [ok_or].
    rewrite Hh, (proj2 (Z.eqb_neq _ _) Hty), Hpos, Hc. by rewrite latch_held.
Qed.

(** C11: [range] returns exactly the rows of the map with [start <= key <= end], each once,
    in ascending key order, and leaves the tree's contents as they were, when the provider
    has handed out fewer than [MAX_SCAN_LEAF_HOPS] pages. *)
Theorem range_refines_map {R : IdRange} {P} `{PageProviderLaws P} (t : PageBPlusTree P) m start end_ :
  tree_ok t m -> v_next (vw t) <= MAX_SCAN_LEAF_HOPS ->
  exists rows t', range start end_ t = (Ret rows, t') /\ vw t' = vw t /\ rows_between m start end_ rows.
Proof.
  intros Ht Hn.
  destruct (tree_ok_visit row_ref lv_of_bytes (fun out k v => (out ++ [(k, v)], true)) t m start end_ [] row_ref_ok Ht Hn)
    as (kvs & t' & Hv & Hvw & _ & Hs & Hm & Hok).
  eexists _, t'. split; [exact Hv|]. split; [done|]. rewrite fold_collect. by apply window_rows.
Qed.

Lemma range_refines_map_witness : exists (t : PageBPlusTree InMemory.InMemoryPageProvider) rows t',
  range (sample_key 3) (sample_key 15) t = (Ret rows, t') /\ vw t' = vw t /\
  rows_between (written (sample_row <$> seqZ 1 20)) (sample_key 3) (sample_key 15) rows.
Proof.
  destruct (sample_tree (seqZ 1 20)) as (t0 & t & _ & _ & Hok & Hn); [apply Forall_seqZ; lia|done|].
  exists t. apply (range_refines_map t _ (sample_key 3) (sample_key 15)); [exact Hok|].
  change (zlen (seqZ 1 20)) with 20 in Hn. unfold MAX_SCAN_LEAF_HOPS. lia.
Defined.

(** [range_visit] and [range_visit_meta] hand the visitor the rows of the map between
    the bounds in ascending order and stop at the first one for which it returns [false]:
    the visitor's final state is the fold of the visitor over those rows up to that point. *)
Theorem range_visit_refines_fold {R : IdRange} {P} `{PageProviderLaws P} {A} (t : PageBPlusTree P) m start end_
    (f : A -> bytes -> LeafValue -> A * bool) (g : A -> bytes -> LeafValueMeta -> A * bool) acc :
  tree_ok t m -> v_next (vw t) <= MAX_SCAN_LEAF_HOPS ->
  (exists rows t', rows_between m start end_ rows /\
     range_visit start end_ f acc t = (Ret (fold_while f rows acc), t')) /\
  (exists rows t', rows_between m start end_ rows /\
     range_visit_meta start end_ g acc t = (Ret (fold_while g (prod_map id lv_meta <$> rows) acc), t')).
Proof.
  intros Ht Hn. split.
  - destruct (tree_ok_visit row_ref lv_of_bytes f t m start end_ acc row_ref_ok Ht Hn)
      as (kvs & t' & Hv & _ & _ & Hs & Hm & Hok).
    eexists _, t'. split; [by apply window_rows|exact Hv].
  - destruct (tree_ok_visit row_meta (lv_meta ∘ lv_of_bytes) g t m start end_ acc row_meta_ok Ht Hn)
      as (kvs & t' & Hv & _ & _ & Hs & Hm & Hok).
    eexists (decoded lv_of_bytes (window start end_ kvs)), t'. split; [by apply window_rows|].
    unfold range_visit_meta. rewrite Hv. unfold decoded. by rewrite <-list_fmap_compose.
Qed.

Lemma range_visit_refines_fold_witness : exists (t : PageBPlusTree InMemory.InMemoryPageProvider) rows t',
  rows_between (written (sample_row <$> seqZ 1 20)) (sample_key 3) (sample_key 15) rows /\
  range_visit (sample_key 3) (sample_key 15) (fun n _ _ => (n + 1, n <? 2)) 0 t
    = (Ret (fold_while (fun n _ _ => (n + 1, n <? 2)) rows 0), t').
Proof.
  destruct (sample_tree (seqZ 1 20)) as (t0 & t & _ & _ & Hok & Hn); [apply Forall_seqZ; lia|done|].
  assert (Hn' : v_next (vw t) <= MAX_SCAN_LEAF_HOPS).
  { change (zlen (seqZ 1 20)) with 20 in Hn. unfold MAX_SCAN_LEAF_HOPS. lia. }
  exists t. exact (proj1 (range_visit_refines_fold t _ (sample_key 3) (sample_key 15)
    (fun n _ _ => (n + 1, n <? 2)) (fun n _ _ => (n, true)) 0 Hok Hn')).
Defined.

(** A key that is not 16 bytes long is refused by [insert] and [remove] with
    [InvalidKeySize] and the tree is left untouched. *)
Theorem wrong_key_size_rejected {P} `{AsyncPageProvider P} fuel (t : PageBPlusTree P) key lv :
  zlen key <> KEY_SIZE ->
  insert fuel key lv t = (Fail (InvalidKeySize (zlen key) KEY_SIZE), t) /\
  remove fuel key t = (Fail (InvalidKeySize (zlen key) KEY_SIZE), t).
Proof.
  intros Hk. unfold insert, remove. destruct (Z.eqb_spec (zlen key) KEY_SIZE); [done|]. done.
Qed.

Lemma wrong_key_size_rejected_witness : exists t : PageBPlusTree InMemory.InMemoryPageProvider,
  insert 65 [1; 2; 3] (sample_value 1) t = (Fail (InvalidKeySize 3 KEY_SIZE), t) /\
  remove 65 [1; 2; 3] t = (Fail (InvalidKeySize 3 KEY_SIZE), t).
Proof.
  exists {| provider := InMemory.new; len := 0 |}.
  exact (wrong_key_size_rejected 65 _ [1; 2; 3] (sample_value 1) ltac:(discriminate)).
Defined.

(** [remove] on a tree whose root is still a leaf is deletion from the map: the key is
    gone, every other row stays, an absent key changes nothing, and [len] counts the rest. *)
Theorem remove_from_root_leaf {R : IdRange} {P} `{PageProviderLaws P} fuel (t : PageBPlusTree P) m key p h :
  tree_ok t m -> v_pages (vw t) !! v_root (vw t) = Some p -> page_header p = Ret h ->
  page_type h = PAGE_TYPE_LEAF -> prev_leaf h = None -> zlen key = KEY_SIZE -> (1 < fuel)%nat ->
  exists t', remove fuel key t = (Ret tt, t') /\ tree_ok t' (delete key m).
Proof. apply tree_ok_remove_leaf. Qed.

Lemma remove_from_root_leaf_witness : exists t t' : PageBPlusTree InMemory.InMemoryPageProvider,
  remove 65 (sample_key 2) t = (Ret tt, t') /\ tree_ok t' (delete (sample_key 2) (sample_map 1 3)).
Proof.
  destruct (sample_leaf 1 3 None None None) as (p & Hp); [lia|lia|lia|by apply sample_header_ok|].
  destruct (sample_leaf_tree 1 3 p Hp) as (Hok & Hroot); [lia|lia|lia|].
  eexists. exact (remove_from_root_leaf 65 _ _ (sample_key 2) p _ Hok Hroot (rep_header _ _ _ Hp) eq_refl eq_refl eq_refl ltac:(lia)).
Defined.

(** C15: A deletion on a taller tree loses another row.  In a tree of two leaves, when the
    left one is at the minimum and the right one above it, [remove] of a key of the left
    leaf borrows the first row of the right leaf: it writes the shortened right leaf and
    the new separator but not the extended left leaf.  The call returns [Ok], the length
    goes down by one, and afterwards [get] misses both the removed key and the borrowed
    row, which was in the tree and was not asked to be removed. *)
Theorem remove_borrow_loses_a_row {R : IdRange} {P} `{PageProviderLaws P} (t : PageBPlusTree P) (m : lvmap)
    sep c0 h0 es0 c1 h1 es1 key fuel :
  two_leaves (vw t) sep c0 h0 es0 c1 h1 es1 -> provider_ok R (provider t) ->
  to_map (es0 ++ es1) = encode_leaf_value <$> m -> map_Forall (fun _ => lv_ok) m ->
  key ∈ es0.*1 -> zlen es0 <= 7 < zlen es1 -> (2 < fuel)%nat ->
  is_Some (delete key m !! sep) /\ exists t', remove fuel key t = (Ret tt, t') /\ len t' = sat_sub (len t) 1 /\
    forall k, exists t'', get k t' = (Ret (delete sep (delete key m) !! k), t'').
Proof. apply remove_borrow_gets. Qed.

Lemma remove_borrow_loses_a_row_witness : exists t : PageBPlusTree InMemory.InMemoryPageProvider,
  is_Some (delete (sample_key 1) (sample_map 1 15) !! sample_key 8) /\
  exists t', remove 65 (sample_key 1) t = (Ret tt, t') /\ len t' = sat_sub (len t) 1 /\
    forall k, exists t'', get k t' = (Ret (delete (sample_key 8) (delete (sample_key 1) (sample_map 1 15)) !! k), t'').
Proof.
  destruct sample_two_leaves as (t & h0 & h1 & Hid & Htl). exists t.
  apply (remove_borrow_loses_a_row t (sample_map 1 15) (sample_key 8) 2 h0 (sample_entries 1 7) 3 h1 (sample_entries 8 8)
    (sample_key 1) 65 Htl Hid); [|by apply sample_map_ok| |by rewrite !zlen_sample_entries|lia].
  - rewrite <-sample_map_encoded. unfold sample_entries. by rewrite <-fmap_app.
  - unfold sample_entries. cbn. left.
Defined.

End BtreeProps.

Module BtreePageProps.
Import BtreeProps.

(** Writing entries to a page and reading them back: [encode_entries] succeeds on
    entries of the right sizes that fit, and then [collect_entries] returns the same list
    and [page_header] the header with the new count. *)
Theorem page_codec_roundtrip p es h :
  zlen p = PAGE_SIZE -> hdr_ok h -> Forall (entry_sized (vsz h)) es ->
  data_start (zlen es) + zlen es * esz h <= PAGE_SIZE ->
  exists p', encode_entries p es h = Ret p' /\ zlen p' = PAGE_SIZE /\ collect_entries p' = Ret es /\
    page_header p' = Ret (with_key_count h (zlen es)).
Proof.
  intros Hp Hok Hsz Hfit. destruct (encode_entries_ok p es h Hp Hok Hsz Hfit) as (p' & He & Hr).
  exists p'. split_and!; [done|apply Hr|by eapply collect_entries_ok|by eapply rep_header].
Qed.

Lemma page_codec_roundtrip_witness : exists p',
  encode_entries (zrepeat 0 PAGE_SIZE) (sample_entries 1 15) (sample_header PAGE_TYPE_LEAF None (Some 9) 0 None) = Ret p' /\
  zlen p' = PAGE_SIZE /\ collect_entries p' = Ret (sample_entries 1 15) /\
  page_header p' = Ret (with_key_count (sample_header PAGE_TYPE_LEAF None (Some 9) 0 None) (zlen (sample_entries 1 15))).
Proof.
  assert (Hsz : Forall (entry_sized (vsz (sample_header PAGE_TYPE_LEAF None (Some 9) 0 None))) (sample_entries 1 15)).
  { apply Forall_fmap, Forall_forall. intros i Hi%elem_of_seqZ. destruct (sample_valid i) as [Hk Hv]; [lia|].
    split; [exact Hk|]. apply encode_leaf_value_len, Hv. }
  assert (Hok : hdr_ok (sample_header PAGE_TYPE_LEAF None (Some 9) 0 None)).
  { apply sample_header_ok; [done|done|by apply id_ok_some|done|done]. }
  exact (page_codec_roundtrip (zrepeat 0 PAGE_SIZE) (sample_entries 1 15) (sample_header PAGE_TYPE_LEAF None (Some 9) 0 None)
    (zlen_zrepeat 0 PAGE_SIZE ltac:(done))
    Hok Hsz
    (leaf_fits (sample_header PAGE_TYPE_LEAF None (Some 9) 0 None) 15 eq_refl ltac:(lia))).
Defined.

(** The binary searches of a leaf agree with the map of its entries: [find_in_leaf]
    terminates and returns the decoded value of the key or [None], [find_key_pos] returns
    the key's position, or the position that keeps the order where it would go, and
    [lower_bound_in_leaf] the number of keys below. *)
Theorem leaf_search_is_lookup p h es key :
  rep p h es -> sorted es -> page_type h = PAGE_TYPE_LEAF ->
  find_in_leaf p key = Ret (lv_of_bytes <$> to_map es !! key) /\
  (exists found pos, find_key_pos p key = Ret (Some (found, pos)) /\
     if found : bool then 0 <= pos /\ exists v, es !! Z.to_nat pos = Some (key, v)
     else cut es pos (fun k => bytes_lt k key) (fun k => bytes_lt key k)) /\
  (exists pos, lower_bound_in_leaf p key = Ret pos /\ cut es pos (fun k => bytes_lt k key) (fun k => bytes_le key k)).
Proof.
  intros Hr Hs Ht. split_and!; [by eapply find_in_leaf_ok|by eapply find_key_pos_ok|by eapply lower_bound_in_leaf_ok].
Qed.

Lemma leaf_search_is_lookup_witness : exists p,
  find_in_leaf p (sample_key 4) = Ret (lv_of_bytes <$> to_map (sample_entries 1 15) !! sample_key 4).
Proof.
  destruct (sample_leaf 1 15 None None None) as (p & Hp); [lia|lia|lia|by apply sample_header_ok|]. exists p.
  exact (proj1 (leaf_search_is_lookup p _ _ (sample_key 4) Hp (sample_entries_sorted 1 15) eq_refl)).
Defined.

(** A leaf value (record, commit LSN, undo pointer, flags, write intent) written with
    [encode_leaf_value] anywhere in a page is what [decode_leaf_value_ref] and
    [decode_leaf_value_meta] read back. *)
Theorem leaf_value_roundtrip lv p off :
  lv_ok lv -> 0 <= off -> off + LEAF_VALUE_SIZE <= zlen p ->
  sub off LEAF_VALUE_SIZE p = encode_leaf_value lv ->
  decode_leaf_value_ref p off = Ret (Some lv) /\ decode_leaf_value_meta (encode_leaf_value lv) = Ret (lv_meta lv).
Proof.
  intros Hok Hoff Hlen Hsub. rewrite decode_ref_ok by lia. rewrite Hsub, decode_meta_ok by apply encode_leaf_value_len, Hok.
  by rewrite lv_roundtrip.
Qed.

Lemma leaf_value_roundtrip_witness :
  decode_leaf_value_ref (encode_leaf_value (sample_value 7)) 0 = Ret (Some (sample_value 7)) /\
  decode_leaf_value_meta (encode_leaf_value (sample_value 7)) = Ret (lv_meta (sample_value 7)).
Proof.
  destruct (sample_valid 7 ltac:(lia)) as [_ Hok]. pose proof (encode_leaf_value_len (sample_value 7) (lo_value _ Hok)) as Hl.
  exact (leaf_value_roundtrip (sample_value 7) _ 0 Hok ltac:(lia) (Z.eq_le_incl _ _ (eq_sym Hl)) (sub_all _ _ (eq_sym Hl))).
Defined.

(** Splitting a leaf: the separator is the first key of the right half, the halves
    together hold the entries in order, differ in size by at most one, and the left half's
    high key is the separator while the right half keeps the old one. *)
Theorem split_leaf_halves p h es :
  rep p h es -> page_type h = PAGE_TYPE_LEAF -> 2 <= zlen es ->
  exists sep l r pl pr hl hr, split_leaf p es = Ret (sep, (pl, pr)) /\ rep pl hl l /\ rep pr hr r /\
    l ++ r = es /\ fst <$> head r = Some sep /\ 0 <= zlen r - zlen l <= 1 /\
    high_key hl = Some sep /\ high_key hr = high_key h.
Proof.
  intros Hr Ht Hn. destruct (split_leaf_ok p h es Hr Ht Hn) as (sep & v & pl & pr & Hs & _ & Hm & Hl & Hrr).
  eexists sep, _, _, pl, pr, _, _. split; [exact Hs|]. split; [exact Hl|]. split; [exact Hrr|].
  pose proof (Z.div_mod (zlen es) 2 ltac:(lia)) as Hd. pose proof (Z.mod_pos_bound (zlen es) 2 ltac:(lia)).
  split_and!; [apply take_drop|by rewrite (drop_S _ _ _ Hm)| | |done|done];
    unfold zlen in *; rewrite length_take, length_drop; lia.
Qed.

Lemma split_leaf_halves_witness : exists p sep l r pl pr hl hr,
  split_leaf p (sample_entries 1 15) = Ret (sep, (pl, pr)) /\ rep pl hl l /\ rep pr hr r /\
  l ++ r = sample_entries 1 15 /\ fst <$> head r = Some sep /\ 0 <= zlen r - zlen l <= 1 /\
  high_key hl = Some sep /\ high_key hr = None.
Proof.
  destruct (sample_leaf 1 15 None None None) as (p & Hp); [lia|lia|lia|by apply sample_header_ok|]. exists p.
  exact (split_leaf_halves p _ _ Hp eq_refl ltac:(by rewrite zlen_sample_entries)).
Defined.

End BtreePageProps.
