(* ===== verification/Compute.v ===== *)
(** * Compute: the compute node (src/src/embedded_compute.rs, src/src/embedded_compute_recovery.rs,
    src/src/embedded_compute_visibility.rs)

    The compute node owns the tree, the page cache and the secondary indexes, and commits
    pages through a sequencer.  [ComputeStore] is what it does with its tree and its page
    cache: the methods of [PageBPlusTree], [TxnPageProvider] and [PageCache] that it calls;
    [btree_store] are those methods.  The structures the source shares by [Arc] are one state,
    and a transaction is a state beside it.

    The walks over hash maps, the random seed and the environment variables are arguments;
    [ec_clock] holds the readings of the clock.  [Spin] is also the outcome of a call that is
    still waiting for its turn to send a batch.  [fuel] bounds the loops that follow undo
    records and that look again at a row, also after a wait for another transaction, during
    which the class [Others] says what happens to the node. *)

From stdpp Require Import base numbers list list_numbers gmap fin_maps sorting.
From S2P Require Import Prelude Common SlottedPage UndoPage MetaPage WalCodec Mvcc PageStore Node Sequencer Secondary BtreePage Provider Cache Btree.

Definition FLAG_TOMBSTONE : Z := 1.
Definition FLAG_INTENT : Z := 2.

(** ** Storage behind the page cache *)

(** The sequencer, the storage nodes, the readers connected to them, the LSN that fetched
    pages have to reach and the clock of the nodes. *)
Record Storage := mkStorage {
  sg_seq : Sequencer;
  sg_cluster : Cluster;
  sg_readers : list nat;
  sg_min_read_lsn : Z;
  sg_now : Z
}.

Definition with_seq (s : Sequencer) (c : Cluster) (g : Storage) : Storage := mkStorage s c (sg_readers g) (sg_min_read_lsn g) (sg_now g).
Definition with_min_read_lsn (l : Z) (g : Storage) : Storage := mkStorage (sg_seq g) (sg_cluster g) (sg_readers g) l (sg_now g).

(** The loop of the page fetcher over a storage node. *)
Fixpoint fetch_loop (attempts : nat) (now : Z) (reader : nat) (pid : PageId) (need : Z) (c : Cluster) : option Page * Cluster :=
  match attempts with
  | O => (None, c)
  | S attempts =>
      match Rpc.get_page now reader pid c with
      | (Ret (Some (page, _, durable)), c) =>
          if need <=? durable then (Some page, c) else fetch_loop attempts now reader pid need c
      | (Ret None, c) => (None, c)
      | (_, c) => fetch_loop attempts now reader pid need c
      end
  end.

Definition page_fetcher (pid : PageId) (need : Z) (g : Storage) : option Page * Storage :=
  match sg_seq g with
  | Network _ =>
      match sg_readers g with
      | [] => (None, g)
      | reader0 :: _ =>
          let '(p, c) := fetch_loop 200 (sg_now g) reader0 pid need (sg_cluster g) in (p, with_seq (sg_seq g) c g)
      end
  | InProcess s => (InProcessM.get pid (ip_store s), g)
  end.

(** [fetcher_for_provider] *)
#[global] Instance storage_fetch : Fetch Storage := fun pid g => page_fetcher pid (sg_min_read_lsn g) g.

(** ** The tree and the page cache *)

Class ComputeStore (T : Type) := {
  cs_get : bytes -> st T Error (option LeafValue);
  cs_insert : bytes -> LeafValue -> st T Error unit;
  cs_remove : bytes -> st T Error unit;
  cs_range : bytes -> bytes -> st T Error (list (bytes * LeafValue));
  cs_range_meta : bytes -> bytes -> st T Error (list (bytes * LeafValueMeta));
  cs_root : T -> PageId;
  cs_set_root : PageId -> T -> T;
  cs_next_page_id : T -> PageId;
  cs_set_next_page_id : PageId -> T -> T;
  cs_cache_get : PageId -> T -> option Page * T;
  cs_cache_insert : PageId -> Page -> T -> T;
  cs_cache_len : T -> Z;
  cs_dirty : T -> option (gmap Z (list Z));
  cs_set_dirty : option (gmap Z (list Z)) -> T -> T;
  cs_storage : T -> Storage;
  cs_set_storage : Storage -> T -> T
}.

Section BtreeStore.
Context {C : Type} {L : LruCache C}.

Abbreviation TP := (TxnProvider.TxnPageProvider C Storage) (only parsing).

(** More than the height of a tree of 2 to the 64 pages. *)
Definition TREE_FUEL : nat := 128.

Definition on_provider (f : TP -> TP) (t : PageBPlusTree TP) : PageBPlusTree TP := {| provider := f (provider t); len := len t |}.

#[global] Instance btree_store : ComputeStore (PageBPlusTree TP) := {
  cs_get := Btree.get;
  cs_insert := Btree.insert TREE_FUEL;
  cs_remove := Btree.remove TREE_FUEL;
  cs_range := Btree.range;
  cs_range_meta := Btree.range_meta;
  cs_root t := TxnProvider.tp_root (provider t);
  cs_set_root id := on_provider (TxnProvider.set_root_page_id id);
  cs_next_page_id t := TxnProvider.next_page_id (provider t);
  cs_set_next_page_id id := on_provider (TxnProvider.set_next_page_id id);
  cs_cache_get id t :=
    let '(o, c) := PageCacheM.get id (TxnProvider.tp_pages (provider t)) in (o, on_provider (TxnProvider.with_cache c) t);
  cs_cache_insert id pg t := on_provider (TxnProvider.with_cache (PageCacheM.insert id pg (TxnProvider.tp_pages (provider t)))) t;
  cs_cache_len t := PageCacheM.len (TxnProvider.tp_pages (provider t));
  cs_dirty t := TxnProvider.tp_dirty (provider t);
  cs_set_dirty d := on_provider (TxnProvider.with_dirty d);
  cs_storage t := TxnProvider.tp_world (provider t);
  cs_set_storage g := on_provider (TxnProvider.with_world g)
}.

End BtreeStore.

(** ** State *)

(** The reading of [Instant::now] and the time that passes before each of the next ones. *)
Record Clock := mkClock { ck_now : Z; ck_steps : list Z }.

Definition tick (k : Clock) : Clock :=
  match ck_steps k with
  | [] => k
  | d :: ds => mkClock (ck_now k + Z.max 0 d) ds
  end.

(** The clock when a sleep until [t] ends. *)
Definition sleep_until (t : Z) (k : Clock) : Clock := mkClock (Z.max t (ck_now k)) (ck_steps k).

(** [PendingTxn]; [notify] has no state of its own. *)
Record PendingTxn := mkPending { pt_deadline : Z; pt_write_keys : gset (list Z) }.

Record EmbeddedCompute (T : Type) := mkCompute {
  ec_store : T;
  ec_active_reads : ActiveReads;
  ec_indexes : SecondaryIndexManager;
  ec_posting_log : SecondaryPostingLogState;
  ec_registry : gmap Z PendingTxn;
  ec_default_timeout : Z;
  ec_reaper_interval : Z;
  ec_clock : Clock
}.
Arguments mkCompute {T}.
Arguments ec_store {T}.
Arguments ec_active_reads {T}.
Arguments ec_indexes {T}.
Arguments ec_posting_log {T}.
Arguments ec_registry {T}.
Arguments ec_default_timeout {T}.
Arguments ec_reaper_interval {T}.
Arguments ec_clock {T}.

(** [tx_dirty], [tx_bptree_dirty], [tx_ro_cache] and [tx_modified] are walked in the order of
    their keys. *)
Record EmbeddedTxn := mkTxn {
  tx_read_lsn : Z;
  tx_read_guard : option Z;
  tx_started_at : Z;
  tx_timeout : option Z;
  tx_read_only : bool;
  tx_write_attempted : bool;
  tx_dirty : gmap Z (list Z);
  tx_bptree_dirty : gmap Z (list Z);
  tx_ro_cache : gmap Z (list Z);
  tx_modified : gset (list Z);
  tx_mutations : list SecondaryIndexMutation;
  tx_undo_txn_id : option Z;
  tx_intent_base_lsn : Z;
  tx_seg_first : option PageId;
  tx_seg_last : option PageId;
  tx_seg_record : option UndoPtr;
  tx_seg_count : Z
}.

Section Setters.
Context {T : Type}.

Definition with_store (t : T) (c : EmbeddedCompute T) : EmbeddedCompute T :=
  mkCompute t (ec_active_reads c) (ec_indexes c) (ec_posting_log c) (ec_registry c) (ec_default_timeout c) (ec_reaper_interval c) (ec_clock c).
Definition with_reads (r : ActiveReads) (c : EmbeddedCompute T) : EmbeddedCompute T :=
  mkCompute (ec_store c) r (ec_indexes c) (ec_posting_log c) (ec_registry c) (ec_default_timeout c) (ec_reaper_interval c) (ec_clock c).
Definition with_indexes (i : SecondaryIndexManager) (c : EmbeddedCompute T) : EmbeddedCompute T :=
  mkCompute (ec_store c) (ec_active_reads c) i (ec_posting_log c) (ec_registry c) (ec_default_timeout c) (ec_reaper_interval c) (ec_clock c).
Definition with_posting_log (l : SecondaryPostingLogState) (c : EmbeddedCompute T) : EmbeddedCompute T :=
  mkCompute (ec_store c) (ec_active_reads c) (ec_indexes c) l (ec_registry c) (ec_default_timeout c) (ec_reaper_interval c) (ec_clock c).
Definition with_registry (r : gmap Z PendingTxn) (c : EmbeddedCompute T) : EmbeddedCompute T :=
  mkCompute (ec_store c) (ec_active_reads c) (ec_indexes c) (ec_posting_log c) r (ec_default_timeout c) (ec_reaper_interval c) (ec_clock c).
Definition with_clock (k : Clock) (c : EmbeddedCompute T) : EmbeddedCompute T :=
  mkCompute (ec_store c) (ec_active_reads c) (ec_indexes c) (ec_posting_log c) (ec_registry c) (ec_default_timeout c) (ec_reaper_interval c) k.

End Setters.

(** What the other tasks of the node do while a call waits for a pending transaction: whether
    [notify] wakes it before its deadline, and the node as they leave it. *)
Class Others (T : Type) := meanwhile : Z -> EmbeddedCompute T -> bool * EmbeddedCompute T.

(** Nothing happens. *)
Definition alone {T} : Others T := fun _ c => (false, c).

Definition with_guard (g : option Z) (x : EmbeddedTxn) : EmbeddedTxn :=
  mkTxn (tx_read_lsn x) g (tx_started_at x) (tx_timeout x) (tx_read_only x) (tx_write_attempted x) (tx_dirty x)
    (tx_bptree_dirty x) (tx_ro_cache x) (tx_modified x) (tx_mutations x) (tx_undo_txn_id x) (tx_intent_base_lsn x)
    (tx_seg_first x) (tx_seg_last x) (tx_seg_record x) (tx_seg_count x).
Definition with_attempted (b : bool) (x : EmbeddedTxn) : EmbeddedTxn :=
  mkTxn (tx_read_lsn x) (tx_read_guard x) (tx_started_at x) (tx_timeout x) (tx_read_only x) b (tx_dirty x)
    (tx_bptree_dirty x) (tx_ro_cache x) (tx_modified x) (tx_mutations x) (tx_undo_txn_id x) (tx_intent_base_lsn x)
    (tx_seg_first x) (tx_seg_last x) (tx_seg_record x) (tx_seg_count x).
(** [dirty], [bptree_dirty] and [ro_cache] *)
Definition with_pages (d b r : gmap Z (list Z)) (x : EmbeddedTxn) : EmbeddedTxn :=
  mkTxn (tx_read_lsn x) (tx_read_guard x) (tx_started_at x) (tx_timeout x) (tx_read_only x) (tx_write_attempted x) d
    b r (tx_modified x) (tx_mutations x) (tx_undo_txn_id x) (tx_intent_base_lsn x)
    (tx_seg_first x) (tx_seg_last x) (tx_seg_record x) (tx_seg_count x).
Definition with_writes (m : gset (list Z)) (muts : list SecondaryIndexMutation) (x : EmbeddedTxn) : EmbeddedTxn :=
  mkTxn (tx_read_lsn x) (tx_read_guard x) (tx_started_at x) (tx_timeout x) (tx_read_only x) (tx_write_attempted x) (tx_dirty x)
    (tx_bptree_dirty x) (tx_ro_cache x) m muts (tx_undo_txn_id x) (tx_intent_base_lsn x)
    (tx_seg_first x) (tx_seg_last x) (tx_seg_record x) (tx_seg_count x).
Definition with_segment (first last : option PageId) (record : option UndoPtr) (count : Z) (x : EmbeddedTxn) : EmbeddedTxn :=
  mkTxn (tx_read_lsn x) (tx_read_guard x) (tx_started_at x) (tx_timeout x) (tx_read_only x) (tx_write_attempted x) (tx_dirty x)
    (tx_bptree_dirty x) (tx_ro_cache x) (tx_modified x) (tx_mutations x) (tx_undo_txn_id x) (tx_intent_base_lsn x)
    first last record count.

Definition has_flag (flag flags : Z) : bool := negb (Z.land flags flag =? 0).

(** [<[u8; N]>::copy_from_slice], and [try_into().unwrap()] to an array *)
Definition to_array (n : Z) (bs : bytes) : outcome Error bytes := if zlen bs =? n then Ret bs else Panic.

(** The pages of a [BTreeMap], in the order of their ids. *)
Definition by_id (a b : Z * list Z) : Prop := a.1 <= b.1.
#[global] Instance by_id_dec : RelDecision by_id := fun a b => Z_le_dec a.1 b.1.
Definition page_entries (m : gmap Z (list Z)) : list (Z * list Z) := merge_sort by_id (map_to_list m).

(** The keys of a [BTreeSet], in their order. *)
Definition key_le (a b : bytes) : Prop := bytes_leb a b = true.
#[global] Instance key_le_dec : RelDecision key_le := fun a b => decide (bytes_leb a b = true).
Definition key_list (s : gset (list Z)) : list bytes := merge_sort key_le (elements s).

Definition meta_with (root next_bptree next_undo head tail : Z) (m : MetaPage) : MetaPage := {|
  MetaPage.root_page_id := root; next_bptree_page_id := next_bptree; next_data_page_id := next_data_page_id m;
  next_undo_page_id := next_undo; undo_free := undo_free m; undo_history_head := head; undo_history_tail := tail |}.

Definition UNDO_BASE : PageId := 2000000.

(** [let mut meta = row.meta; meta.commit_lsn = ..; ..] *)
Definition meta_of (lsn : Z) (undo : option UndoPtr) (fl txn intent : Z) : LeafValueMeta := {|
  commit_lsn := lsn; undo_ptr := undo; flags := fl; intent_txn_id := txn; intent_lsn := intent |}.

Module Compute.
Section Node.
Context {T : Type} {S : ComputeStore T} {OT : Others T}.
(** [fuel] of the loops, the clock of the storage nodes, and the walk of the index map. *)
Context (fuel : nat) (node_now node_ms : Z) (order : list bytes).

Abbreviation K := (st (EmbeddedCompute T) Error) (only parsing).
Abbreviation X := (st (EmbeddedTxn * EmbeddedCompute T) Error) (only parsing).

(** ** The state of the calls *)

Definition on_store {A} (m : st T Error A) : K A := fun c => let '(r, t) := m (ec_store c) in (r, with_store t c).
Definition on_compute {A} (m : K A) : X A := fun s => let '(r, c) := m s.2 in (r, (s.1, c)).
Definition get_tx {A} (f : EmbeddedTxn -> A) : X A := gets (fun s => f s.1).
Definition set_tx (f : EmbeddedTxn -> EmbeddedTxn) : X unit := modify (fun s => (f s.1, s.2)).

(** [let _ = ..] and [if let Err(e) = ..] around a call: a panic or a wait is not caught. *)
Definition attempt {St A} (m : st St Error A) : st St Error (outcome Error A) := fun s =>
  match m s with
  | (Ret a, s) => (Ret (Ret a), s)
  | (Fail e, s) => (Ret (Fail e), s)
  | (Panic, s) => (Panic, s)
  | (Spin, s) => (Spin, s)
  end.

Definition instant_now : K Z := fun c => let k := tick (ec_clock c) in (Ret (ck_now k), with_clock k c).

Definition storage (c : EmbeddedCompute T) : Storage := cs_storage (ec_store c).
Definition set_storage (g : Storage) : K unit := modify (fun c => with_store (cs_set_storage g (ec_store c)) c).
Definition sequencer (c : EmbeddedCompute T) : Sequencer := sg_seq (storage c).
Definition set_sequencer (s : Sequencer) : K unit :=
  g ← gets storage; set_storage (with_seq s (sg_cluster g) g).

Definition cache_get (page_id : PageId) : K (option Page) := fun c =>
  let '(o, t) := cs_cache_get page_id (ec_store c) in (Ret o, with_store t c).
Definition cache_insert (page_id : PageId) (page : Page) : K unit :=
  modify (fun c => with_store (cs_cache_insert page_id page (ec_store c)) c).

Definition cached_page : PageId -> K (option Page) := cache_get.
Definition warmed_pages (c : EmbeddedCompute T) : Z := cs_cache_len (ec_store c).

Definition durable_lsn (c : EmbeddedCompute T) : Z := Seq.durable_lsn (sequencer c).
Definition begin_ro (c : EmbeddedCompute T) : Z := Seq.begin_ro (sequencer c).

(** The call of [page_fetcher]. *)
Definition fetch_page (page_id : PageId) (need_lsn : Z) : K (option Page) :=
  g ← gets storage;
  let '(p, g) := page_fetcher page_id need_lsn g in
  _ ← set_storage g;
  mret p.

Definition get_page (page_id : PageId) (need_lsn : Z) : K (option Page) :=
  c ← cache_get page_id;
  match c with
  | Some p => mret (Some p)
  | None =>
      f ← fetch_page page_id need_lsn;
      match f with
      | None => mret None
      | Some p => _ ← cache_insert page_id p; mret (Some p)
      end
  end.

(** [get_page(id, need).await.ok_or(Error::InMemoryPageMissing(id))?] *)
Definition get_page_or (page_id : PageId) (need_lsn : Z) : K Page :=
  p ← get_page page_id need_lsn; lift (ok_or p (InMemoryPageMissing page_id)).

(** ** Pending transactions *)

Definition register_pending_txn (txn_id deadline : Z) : K unit :=
  modify (fun c => with_registry (<[txn_id := mkPending deadline ∅]> (ec_registry c)) c).

Definition record_txn_write (txn_id : Z) (key : bytes) : K unit :=
  modify (fun c => with_registry
    (alter (fun p => mkPending (pt_deadline p) ({[key]} ∪ pt_write_keys p)) txn_id (ec_registry c)) c).

Definition remove_pending_txn (txn_id : Z) : K (option PendingTxn) := fun c =>
  (Ret (ec_registry c !! txn_id), with_registry (delete txn_id (ec_registry c)) c).

(** [timeout_at(deadline, notified())]: whether the notification came in time. *)
Definition wait_notified (txn_id deadline : Z) : K bool := fun c =>
  let '(notified, c) := meanwhile txn_id c in
  (Ret notified, if notified then c else with_clock (sleep_until deadline (ec_clock c)) c).

Fixpoint wait_on_pending_txn (wakes : nat) (txn_id grace : Z) : K unit :=
  match wakes with
  | O => lift Spin
  | Datatypes.S wakes =>
      registry ← gets ec_registry;
      match registry !! txn_id with
      | None => mret tt
      | Some pending =>
          let deadline := pt_deadline pending + grace in
          now ← instant_now;
          if deadline <=? now then throw (Io WouldBlock) else
          notified ← wait_notified txn_id deadline;
          if notified : bool then wait_on_pending_txn wakes txn_id grace else throw (Io WouldBlock)
      end
  end.

Definition is_intent_of (txn_id : Z) (row : LeafValue) : bool :=
  has_flag FLAG_INTENT (flags (lv_meta row)) && (intent_txn_id (lv_meta row) =? txn_id).

(** The inner [loop] of [resolve_txn_intents]. *)
Fixpoint resolve_chain (fuel : nat) (txn_id : Z) (key : bytes) (undo : option UndoPtr) : K unit :=
  match fuel with
  | O => lift Spin
  | Datatypes.S fuel =>
      match undo with
      | None =>
          latest ← on_store (cs_get key);
          match latest with
          | Some latest =>
              if is_intent_of txn_id latest && bool_decide (undo_ptr (lv_meta latest) = None)
              then on_store (cs_remove key) else mret tt
          | None => mret tt
          end
      | Some ptr =>
          p ← cache_get (up_page_id ptr);
          upage ← lift (ok_or p (InMemoryPageMissing (up_page_id ptr)));
          rec ← lift (Undo.read_record_ref upage (up_slot_id ptr));
          if has_flag FLAG_INTENT (old_flags rec) then resolve_chain fuel txn_id key (prev rec) else
          if (old_commit_lsn rec =? 0) && bool_decide (prev rec = None) then
            latest ← on_store (cs_get key);
            match latest with
            | Some latest => if is_intent_of txn_id latest then on_store (cs_remove key) else mret tt
            | None => mret tt
            end
          else
            restored_value ← lift (to_array VALUE_SIZE (old_value rec));
            let restored := {| lv_value := restored_value;
              lv_meta := meta_of (old_commit_lsn rec) (prev rec) (Z.ldiff (old_flags rec) FLAG_INTENT) 0 0 |} in
            latest ← on_store (cs_get key);
            match latest with
            | Some latest => if is_intent_of txn_id latest then on_store (cs_insert key restored) else mret tt
            | None => mret tt
            end
      end
  end.

Fixpoint resolve_txn_intents (txn_id : Z) (keys : list bytes) : K unit :=
  match keys with
  | [] => mret tt
  | key :: keys =>
      current ← on_store (cs_get key);
      _ ← match current with
          | None => mret tt
          | Some current =>
              if is_intent_of txn_id current then resolve_chain fuel txn_id key (undo_ptr (lv_meta current)) else mret tt
          end;
      resolve_txn_intents txn_id keys
  end.

(** ** Committing pages *)

Definition allocate_request_id : K Z :=
  s ← gets sequencer; let '(r, s) := Seq.allocate_request_id s in _ ← set_sequencer s; mret r.

Definition reserve_txn (n_writes : Z) : K (Z * Z * Z) :=
  s ← gets sequencer; let '(r, s) := Seq.reserve_txn n_writes s in _ ← set_sequencer s; lift r.

Definition reserve_txn_with_request_id (n_writes request_id : Z) : K (Z * Z) :=
  s ← gets sequencer; let '(r, s) := Seq.reserve_txn_with_request_id n_writes request_id s in _ ← set_sequencer s; lift r.

Definition sequencer_commit {AL : Allocator} (request_id start_lsn end_lsn : Z) (writes : list (PageId * Page)) : K Z :=
  g ← gets storage;
  match Seq.commit_pages_reserved node_now node_ms request_id start_lsn end_lsn writes (sg_seq g, sg_cluster g) with
  | None => lift Spin
  | Some (r, (s, cl)) => _ ← set_storage (with_seq s cl g); lift r
  end.

(** The check of the page sizes. *)
Fixpoint check_sizes (writes : list (PageId * Page)) : outcome Error unit :=
  match writes with
  | [] => Ret tt
  | (_, p) :: writes => if negb (zlen p =? PAGE_SIZE) then Fail (InvalidPageSize (zlen p) PAGE_SIZE) else check_sizes writes
  end.

Fixpoint cache_all (writes : list (PageId * Page)) : K unit :=
  match writes with
  | [] => mret tt
  | (pid, p) :: writes => _ ← cache_insert pid p; cache_all writes
  end.

Definition page_map (pages : list (PageId * Page)) : gmap Z (list Z) := foldl (fun m w => <[w.1 := w.2]> m) ∅ pages.

Definition commit_pages_reserved {AL : Allocator} (request_id start_lsn end_lsn : Z) (pages : list (PageId * Page)) : K Z :=
  let writes := page_entries (page_map pages) in
  _ ← lift (check_sizes writes);
  commit_lsn ← sequencer_commit request_id start_lsn end_lsn writes;
  _ ← cache_all writes;
  mret commit_lsn.

Definition write_pages_direct {AL : Allocator} (pages : list (PageId * Page)) : K Z :=
  if bool_decide (pages = []) then gets durable_lsn else
  '(request_id, start_lsn, end_lsn) ← reserve_txn (Z.max (zlen pages) 1);
  commit_pages_reserved request_id start_lsn end_lsn pages.

(** ** Warm-up *)

Fixpoint warmup_loop (fuel : nat) (reader : nat) (start limit : Z) : K unit :=
  match fuel with
  | O => lift Spin
  | Datatypes.S fuel =>
      g ← gets storage;
      let '(r, cl) := Rpc.scan_pages node_now reader start limit (sg_cluster g) in
      _ ← set_storage (with_seq (sg_seq g) cl g);
      '(pages, _) ← lift r;
      match last pages with
      | None => mret tt
      | Some (last_id, _) =>
          _ ← cache_all ((fun w => (w.1, w.2.2)) <$> pages);
          warmup_loop fuel reader (sat_add64 last_id 1) limit
      end
  end.

Definition warmup_scan_all (limit_per_batch : Z) : K Z :=
  g ← gets storage;
  match sg_readers g with
  | [] => gets warmed_pages
  | reader :: _ => _ ← warmup_loop fuel reader 0 (Z.max limit_per_batch 1); gets warmed_pages
  end.

(** ** Beginning and ending transactions *)

Definition register_read (read_lsn : Z) : K Z := fun c =>
  let '(id, r) := ActiveReadsM.register read_lsn (ec_active_reads c) in (Ret id, with_reads r c).

Definition begin_ro_guard : K (Z * Z) :=
  read_lsn ← gets begin_ro; guard ← register_read read_lsn; mret (read_lsn, guard).

Definition gc_lsn (c : EmbeddedCompute T) : Z :=
  match ActiveReadsM.min_read_lsn (ec_active_reads c) with Some l => l | None => durable_lsn c end.

Definition begin_tx (read_only : bool) (timeout : option Z) : K EmbeddedTxn :=
  read_lsn ← gets begin_ro;
  g ← gets storage;
  _ ← set_storage (with_min_read_lsn (Z.max (sg_min_read_lsn g) read_lsn) g);
  guard ← register_read read_lsn;
  started_at ← instant_now;
  undo_txn_id ← (if read_only then mret None else id ← allocate_request_id; mret (Some id));
  mret (mkTxn read_lsn (Some guard) started_at timeout read_only false ∅ ∅ ∅ ∅ [] undo_txn_id
          (if read_only then 0 else read_lsn) None None None 0).

Definition registry_deadline (tx : EmbeddedTxn) (default_timeout : Z) : Z :=
  tx_started_at tx + default default_timeout (tx_timeout tx).

Definition register_tx (tx : EmbeddedTxn) : K unit :=
  match tx_undo_txn_id tx with
  | None => mret tt
  | Some txn_id =>
      t ← gets ec_default_timeout;
      register_pending_txn txn_id (registry_deadline tx t)
  end.

Definition begin_rw : K EmbeddedTxn := tx ← begin_tx false None; _ ← register_tx tx; mret tx.
Definition begin_ro_timeout (timeout : Z) : K EmbeddedTxn := begin_tx true (Some timeout).
Definition begin_rw_timeout (timeout : Z) : K EmbeddedTxn :=
  tx ← begin_tx false (Some timeout); _ ← register_tx tx; mret tx.

(** [read_guard.take()] *)
Definition take_guard : X unit := modify (fun s =>
  match tx_read_guard s.1 with
  | None => s
  | Some id => (with_guard None s.1, with_reads (ActiveReadsM.drop_guard id (ec_active_reads s.2)) s.2)
  end).

(** A transaction that [m] consumes: it is dropped when [m] is over. *)
Definition finish {A} (m : X A) (tx : EmbeddedTxn) : K A := fun c =>
  match m (tx, c) with
  | (Spin, s) => (Spin, s.2)
  | (r, s) => (r, (take_guard s).2.2)
  end.

(** ** The tree and the pages of a transaction *)

(** [with_bptree_dirty] *)
Definition with_bptree_dirty {A} (m : st T Error A) : X A := fun s =>
  let '(r, t) := m (cs_set_dirty (Some (tx_bptree_dirty s.1)) (ec_store s.2)) in
  (r, (with_pages (tx_dirty s.1) (default ∅ (cs_dirty t)) (tx_ro_cache s.1) s.1,
       with_store (cs_set_dirty None t) s.2)).

Definition tree_get (key : bytes) : X (option LeafValue) := with_bptree_dirty (cs_get key).
Definition tree_insert (key : bytes) (value : LeafValue) : X unit := with_bptree_dirty (cs_insert key value).
Definition tree_remove (key : bytes) : X unit := with_bptree_dirty (cs_remove key).
Definition tree_range (start end_ : bytes) : X (list (bytes * LeafValue)) := with_bptree_dirty (cs_range start end_).
Definition tree_range_meta (start end_ : bytes) : X (list (bytes * LeafValueMeta)) := with_bptree_dirty (cs_range_meta start end_).

Definition merge_bptree_dirty : X unit := set_tx (fun x =>
  with_pages (tx_bptree_dirty x ∪ tx_dirty x) (tx_bptree_dirty x) (tx_ro_cache x) x).

Definition ensure_not_timed_out : X unit :=
  t ← get_tx tx_timeout;
  match t with
  | None => mret tt
  | Some timeout =>
      now ← on_compute instant_now;
      started_at ← get_tx tx_started_at;
      if timeout <? now - started_at then throw TxnTimeout else mret tt
  end.

Definition write_page (page_id : PageId) (page : Page) : X unit :=
  read_only ← get_tx tx_read_only;
  if read_only : bool then set_tx (with_attempted true) else
  _ ← set_tx (fun x => with_pages (<[page_id := page]> (tx_dirty x)) (tx_bptree_dirty x) (tx_ro_cache x) x);
  on_compute (cache_insert page_id page).

Definition keep_ro (page_id : PageId) (page : Page) : X unit :=
  set_tx (fun x => with_pages (tx_dirty x) (tx_bptree_dirty x) (<[page_id := page]> (tx_ro_cache x)) x).

Definition get_page_for_read (page_id : PageId) : X (option Page) :=
  x ← get_tx id;
  match tx_dirty x !! page_id with
  | Some p => mret (Some p)
  | None =>
  match tx_ro_cache x !! page_id with
  | Some p => mret (Some p)
  | None =>
      c ← on_compute (cache_get page_id);
      match c with
      | Some p => _ ← keep_ro page_id p; mret (Some p)
      | None =>
          f ← on_compute (fetch_page page_id (tx_read_lsn x));
          match f with
          | None => mret None
          | Some p => _ ← on_compute (cache_insert page_id p); _ ← keep_ro page_id p; mret (Some p)
          end
      end
  end
  end.

(** [alloc_page_id] *)
Definition alloc_page_id (meta : MetaPage) : PageId * MetaPage :=
  match Meta.pop_free_undo meta with
  | (Some free, meta) => (free, meta)
  | (None, _) =>
      (next_undo_page_id meta,
       meta_with (MetaPage.root_page_id meta) (next_bptree_page_id meta) (wrap64 (next_undo_page_id meta + 1))
         (undo_history_head meta) (undo_history_tail meta) meta)
  end.

Definition at_least_undo_base (meta : MetaPage) : MetaPage :=
  if next_undo_page_id meta <? UNDO_BASE then
    meta_with (MetaPage.root_page_id meta) (next_bptree_page_id meta) UNDO_BASE (undo_history_head meta) (undo_history_tail meta) meta
  else meta.

(** [page_cache.get(id).or_else(|| ro_cache.get(id))] *)
Definition cached_or_ro (page_id : PageId) : X (option Page) :=
  c ← on_compute (cache_get page_id);
  match c with
  | Some p => mret (Some p)
  | None => ro ← get_tx tx_ro_cache; mret (ro !! page_id)
  end.

(** The page that takes the next undo record. *)
Definition undo_tail (txn_id : Z) (meta : MetaPage) : X (PageId * MetaPage) :=
  last ← get_tx tx_seg_last;
  match last with
  | Some pid => mret (pid, meta)
  | None =>
      let '(pid, meta) := alloc_page_id meta in
      segment_page ← lift (Undo.new_undo_segment_page txn_id pid);
      _ ← set_tx (fun x => with_segment (Some pid) (Some pid) (tx_seg_record x) (tx_seg_count x) x);
      _ ← write_page pid segment_page;
      mret (pid, meta)
  end.

(** [append_record], in a further page of the segment when this one refuses the record. *)
Definition append_or_extend (rec : UndoRecord) (current_id : PageId) (page : Page) (meta : MetaPage) :
    X (PageId * Page * Z * MetaPage) :=
  r ← attempt (lift (Undo.append_record page rec));
  match r with
  | Ret (page, slot) => mret (current_id, page, slot, meta)
  | _ =>
      let '(new_pid, meta) := alloc_page_id meta in
      page ← lift (Undo.set_page_next_id page new_pid);
      _ ← write_page current_id page;
      new_page ← lift Undo.new_undo_page;
      '(page, slot) ← lift (Undo.append_record new_page rec);
      mret (new_pid, page, slot, meta)
  end.

Definition append_undo (data_page_id : PageId) (data_slot_id : Z) (prev : option UndoPtr) (old_commit_lsn old_flags : Z)
    (old_value : bytes) : X UndoPtr :=
  if negb (zlen old_value =? VALUE_SIZE) then throw (InvalidValueSize (zlen old_value) VALUE_SIZE) else
  x ← get_tx id;
  txn_id ← lift (ok_or (tx_undo_txn_id x) (Io PermissionDenied));
  c ← on_compute (cache_get META_PAGE_ID);
  meta_bytes ← lift (ok_or (match c with Some p => Some p | None => tx_dirty x !! META_PAGE_ID end) (InMemoryPageMissing META_PAGE_ID));
  meta ← lift (Meta.decode meta_bytes);
  '(current_id, meta) ← undo_tail txn_id (at_least_undo_base meta);
  d ← get_tx tx_dirty;
  p ← match d !! current_id with Some p => mret (Some p) | None => cached_or_ro current_id end;
  page ← lift (ok_or p (InMemoryPageMissing current_id));
  x ← get_tx id;
  let rec := {| data_page_id := data_page_id; data_slot_id := data_slot_id; UndoPage.prev := prev; UndoPage.txn_id := txn_id;
    txn_next := tx_seg_record x; UndoPage.old_commit_lsn := old_commit_lsn; UndoPage.old_flags := old_flags;
    UndoPage.old_value := old_value |} in
  '(current_id, page, slot, meta) ← append_or_extend rec current_id page meta;
  let ptr := {| up_page_id := current_id; up_slot_id := slot |} in
  _ ← set_tx (fun x => with_segment (tx_seg_first x) (Some current_id) (Some ptr) (Z.min (tx_seg_count x + 1) (U32 - 1)) x);
  _ ← write_page current_id page;
  encoded ← lift (Meta.encode meta);
  _ ← write_page META_PAGE_ID encoded;
  mret ptr.

(** ** Writing rows *)

Definition plan_mutations (pk : bytes) (old new : option bytes) : X (list SecondaryIndexMutation) :=
  on_compute (mg ← gets ec_indexes; lift (SecIndex.plan_mutations order pk old new mg)).

Definition own_intent (x : EmbeddedTxn) (row : LeafValue) : bool :=
  has_flag FLAG_INTENT (flags (lv_meta row)) && bool_decide (tx_undo_txn_id x = Some (intent_txn_id (lv_meta row))).
Definition foreign_intent (x : EmbeddedTxn) (row : LeafValue) : bool :=
  has_flag FLAG_INTENT (flags (lv_meta row)) && negb (bool_decide (tx_undo_txn_id x = Some (intent_txn_id (lv_meta row)))).

(** [append_undo] of the version that is overwritten *)
Definition undo_of (old : LeafValue) : X (option UndoPtr) :=
  ptr ← append_undo 0 0 (undo_ptr (lv_meta old)) (commit_lsn (lv_meta old)) (flags (lv_meta old)) (lv_value old);
  mret (Some ptr).

(** What [put] and [delete] do once their row is in the tree. *)
Definition record_write (key : bytes) (planned : list SecondaryIndexMutation) : X unit :=
  _ ← set_tx (fun x => with_writes ({[key]} ∪ tx_modified x) (tx_mutations x ++ planned) x);
  t ← get_tx tx_undo_txn_id;
  match t with Some txn_id => on_compute (record_txn_write txn_id key) | None => mret tt end.

Definition put (key value : bytes) : X unit :=
  _ ← ensure_not_timed_out;
  x ← get_tx id;
  if tx_read_only x : bool then throw (Io PermissionDenied) else
  existing ← tree_get key;
  old_value ← lift (match existing with None => Ret None | Some old => v ← to_array VALUE_SIZE (lv_value old); Ret (Some v) end);
  new_value ← lift (to_array VALUE_SIZE value);
  key_arr ← lift (to_array KEY_SIZE key);
  planned ← plan_mutations key_arr old_value (Some new_value);
  x ← get_tx id;
  let txn := default 0 (tx_undo_txn_id x) in
  meta ← match existing with
         | None => mret (meta_of 0 None FLAG_INTENT txn (tx_intent_base_lsn x))
         | Some old =>
             if own_intent x old then mret (meta_of 0 (undo_ptr (lv_meta old)) FLAG_INTENT txn (intent_lsn (lv_meta old))) else
             if foreign_intent x old then throw (Io WouldBlock) else
             u ← undo_of old;
             mret (meta_of 0 u FLAG_INTENT txn (tx_intent_base_lsn x))
         end;
  _ ← tree_insert key {| lv_value := new_value; lv_meta := meta |};
  record_write key_arr planned.

Definition delete (key : bytes) : X unit :=
  _ ← ensure_not_timed_out;
  x ← get_tx id;
  if tx_read_only x : bool then throw (Io PermissionDenied) else
  existing ← tree_get key;
  match existing with
  | None => mret tt
  | Some old =>
      key_arr ← lift (to_array KEY_SIZE key);
      old_value ← lift (to_array VALUE_SIZE (lv_value old));
      planned ← plan_mutations key_arr (Some old_value) None;
      x ← get_tx id;
      if foreign_intent x old then throw (Io WouldBlock) else
      u ← (if own_intent x old then mret (undo_ptr (lv_meta old)) else undo_of old);
      value ← lift (to_array VALUE_SIZE (lv_value old));
      let meta := meta_of 0 u (Z.lor FLAG_TOMBSTONE FLAG_INTENT) (default 0 (tx_undo_txn_id x))
        (if own_intent x old then intent_lsn (lv_meta old) else tx_intent_base_lsn x) in
      _ ← tree_insert key {| lv_value := value; lv_meta := meta |};
      record_write key_arr planned
  end.

(** ** Visibility *)

(** The record an undo pointer leads to. *)
Definition undo_record (ptr : UndoPtr) : X UndoRecord :=
  p ← get_page_for_read (up_page_id ptr);
  upage ← lift (ok_or p (InMemoryPageMissing (up_page_id ptr)));
  lift (Undo.read_record_ref upage (up_slot_id ptr)).

Fixpoint read_visible_from_undo (fuel : nat) (undo : option UndoPtr) : X (option bytes) :=
  match undo with
  | None => mret None
  | Some ptr =>
      match fuel with
      | O => lift Spin
      | Datatypes.S fuel =>
          rec ← undo_record ptr;
          read_lsn ← get_tx tx_read_lsn;
          if has_flag FLAG_INTENT (old_flags rec) then read_visible_from_undo fuel (prev rec) else
          if old_commit_lsn rec <=? read_lsn then
            mret (if has_flag FLAG_TOMBSTONE (old_flags rec) then None else Some (old_value rec))
          else read_visible_from_undo fuel (prev rec)
      end
  end.

Fixpoint read_visible_exists_from_undo (fuel : nat) (undo : option UndoPtr) : X bool :=
  match undo with
  | None => mret false
  | Some ptr =>
      match fuel with
      | O => lift Spin
      | Datatypes.S fuel =>
          rec ← undo_record ptr;
          read_lsn ← get_tx tx_read_lsn;
          if has_flag FLAG_INTENT (old_flags rec) then read_visible_exists_from_undo fuel (prev rec) else
          if old_commit_lsn rec <=? read_lsn then mret (negb (has_flag FLAG_TOMBSTONE (old_flags rec)))
          else read_visible_exists_from_undo fuel (prev rec)
      end
  end.

Definition INTENT_WAIT_GRACE : Z := 50.

(** What a row shows by itself. *)
Definition row_value (row : LeafValue) : option bytes :=
  if has_flag FLAG_TOMBSTONE (flags (lv_meta row)) then None else Some (lv_value row).
Definition row_exists (meta : LeafValueMeta) : bool := negb (has_flag FLAG_TOMBSTONE (flags meta)).

Fixpoint read_visible_value_loop (looks : nat) (key : bytes) : X (option bytes) :=
  match looks with
  | O => lift Spin
  | Datatypes.S looks =>
      _ ← ensure_not_timed_out;
      row ← tree_get key;
      match row with
      | None => mret None
      | Some row =>
          x ← get_tx id;
          if has_flag FLAG_INTENT (flags (lv_meta row)) then
            if bool_decide (tx_undo_txn_id x = Some (intent_txn_id (lv_meta row))) then mret (row_value row) else
            if tx_read_lsn x <? intent_lsn (lv_meta row) then read_visible_from_undo fuel (undo_ptr (lv_meta row)) else
            _ ← on_compute (wait_on_pending_txn fuel (intent_txn_id (lv_meta row)) INTENT_WAIT_GRACE);
            read_visible_value_loop looks key
          else
            if commit_lsn (lv_meta row) <=? tx_read_lsn x then mret (row_value row)
            else read_visible_from_undo fuel (undo_ptr (lv_meta row))
      end
  end.

Definition read_visible_value_from_row (key : bytes) : X (option bytes) := read_visible_value_loop fuel key.

Fixpoint read_visible_exists_loop (looks : nat) (key : bytes) : X bool :=
  match looks with
  | O => lift Spin
  | Datatypes.S looks =>
      _ ← ensure_not_timed_out;
      row ← tree_get key;
      match row with
      | None => mret false
      | Some row =>
          x ← get_tx id;
          if has_flag FLAG_INTENT (flags (lv_meta row)) then
            if bool_decide (tx_undo_txn_id x = Some (intent_txn_id (lv_meta row))) then mret (row_exists (lv_meta row)) else
            if tx_read_lsn x <? intent_lsn (lv_meta row) then read_visible_exists_from_undo fuel (undo_ptr (lv_meta row)) else
            _ ← on_compute (wait_on_pending_txn fuel (intent_txn_id (lv_meta row)) INTENT_WAIT_GRACE);
            read_visible_exists_loop looks key
          else
            if commit_lsn (lv_meta row) <=? tx_read_lsn x then mret (row_exists (lv_meta row))
            else read_visible_exists_from_undo fuel (undo_ptr (lv_meta row))
      end
  end.

Definition read_visible_exists_from_row (key : bytes) : X bool := read_visible_exists_loop fuel key.

Definition read_visible_exists_from_scan_entry (key : bytes) (row : LeafValueMeta) : X bool :=
  x ← get_tx id;
  if has_flag FLAG_INTENT (flags row) then
    if bool_decide (tx_undo_txn_id x = Some (intent_txn_id row)) then mret (row_exists row) else
    if tx_read_lsn x <? intent_lsn row then read_visible_exists_from_undo fuel (undo_ptr row) else
    _ ← on_compute (wait_on_pending_txn fuel (intent_txn_id row) INTENT_WAIT_GRACE);
    read_visible_exists_from_row key
  else
    if commit_lsn row <=? tx_read_lsn x then mret (row_exists row)
    else read_visible_exists_from_undo fuel (undo_ptr row).

Definition read_visible_value_from_scan_entry (key : bytes) (row : LeafValue) : X (option bytes) :=
  x ← get_tx id;
  if has_flag FLAG_INTENT (flags (lv_meta row)) then
    if bool_decide (tx_undo_txn_id x = Some (intent_txn_id (lv_meta row))) then mret (row_value row) else
    if tx_read_lsn x <? intent_lsn (lv_meta row) then read_visible_from_undo fuel (undo_ptr (lv_meta row)) else
    _ ← on_compute (wait_on_pending_txn fuel (intent_txn_id (lv_meta row)) INTENT_WAIT_GRACE);
    read_visible_value_from_row key
  else
    if commit_lsn (lv_meta row) <=? tx_read_lsn x then mret (row_value row)
    else read_visible_from_undo fuel (undo_ptr (lv_meta row)).

(** ** Reading rows *)

Definition check_key (key : bytes) : outcome Error unit :=
  if negb (zlen key =? KEY_SIZE) then Fail (InvalidKeySize (zlen key) KEY_SIZE) else Ret tt.

Definition get (key : bytes) : X (option bytes) :=
  _ ← ensure_not_timed_out; _ ← lift (check_key key); read_visible_value_from_row key.

Definition get_exists (key : bytes) : X bool :=
  _ ← ensure_not_timed_out; _ ← lift (check_key key); read_visible_exists_from_row key.

Fixpoint scan_entries (entries : list (bytes * LeafValue)) (limit : Z) (out : list (bytes * bytes)) : X (list (bytes * bytes)) :=
  match entries with
  | [] => mret out
  | (key, row) :: entries =>
      v ← read_visible_value_from_scan_entry key row;
      match v with
      | None => scan_entries entries limit out
      | Some value =>
          let out := out ++ [(key, value)] in
          if limit <=? zlen out then mret out else scan_entries entries limit out
      end
  end.

Definition scan_range (start end_ : bytes) (limit : Z) : X (list (bytes * bytes)) :=
  _ ← ensure_not_timed_out; _ ← lift (check_key start); _ ← lift (check_key end_);
  if limit =? 0 then mret [] else
  entries ← tree_range start end_;
  scan_entries entries limit [].

Fixpoint count_entries (entries : list (bytes * LeafValueMeta)) (limit visible : Z) : X Z :=
  match entries with
  | [] => mret visible
  | (key, row) :: entries =>
      b ← read_visible_exists_from_scan_entry key row;
      if b : bool then
        if limit <=? visible + 1 then mret (visible + 1) else count_entries entries limit (visible + 1)
      else count_entries entries limit visible
  end.

Definition scan_range_exists_count (start end_ : bytes) (limit : Z) : X Z :=
  _ ← ensure_not_timed_out; _ ← lift (check_key start); _ ← lift (check_key end_);
  if limit =? 0 then mret 0 else
  entries ← tree_range_meta start end_;
  count_entries entries limit 0.

Fixpoint scan_keys (pks : list bytes) (limit : Z) (out : list (bytes * bytes)) : X (list (bytes * bytes)) :=
  match pks with
  | [] => mret out
  | key :: pks =>
      v ← read_visible_value_from_row key;
      match v with
      | None => scan_keys pks limit out
      | Some value =>
          let out := out ++ [(key, value)] in
          if limit <=? zlen out then mret out else scan_keys pks limit out
      end
  end.

Definition scan_secondary_index_eq {AL : Allocator} (index_name secondary_key : bytes) (limit : Z) : X (list (bytes * bytes)) :=
  _ ← ensure_not_timed_out;
  if limit =? 0 then mret [] else
  read_lsn ← get_tx tx_read_lsn;
  pks ← on_compute (mg ← gets ec_indexes; lift (SecIndex.query_equal index_name secondary_key read_lsn limit mg));
  scan_keys pks limit [].

(** ** The posting log *)

(** The loop over the mutations: the log state and the finished pages, the page id and the
    bytes of the tail. *)
Fixpoint append_all (commit_lsn : Z) (mutations : list SecondaryIndexMutation) (tail_id : PageId) (tail_page : Page) :
    st (SecondaryPostingLogState * gmap Z (list Z)) Error (PageId * Page) :=
  match mutations with
  | [] => mret (tail_id, tail_page)
  | m :: mutations =>
      '(ok, tail_page) ← lift (PostingLog.append_record tail_page commit_lsn m);
      if ok : bool then append_all commit_lsn mutations tail_id tail_page else
      state ← gets fst;
      let new_id := next_page_id state in
      _ ← modify (fun s => (mkLogState (head_page_id s.1) (tail_page_id s.1) (sat_add64 new_id 1), s.2));
      tail_page ← lift (PostingLog.write_next_page_id tail_page new_id);
      _ ← modify (fun s => (s.1, <[tail_id := tail_page]> s.2));
      fresh ← lift PostingLog.new_log_page;
      '(ok, fresh) ← lift (PostingLog.append_record fresh commit_lsn m);
      if negb ok then throw (Io InvalidInput) else
      _ ← modify (fun s => (mkLogState (head_page_id s.1) new_id (next_page_id s.1), s.2));
      append_all commit_lsn mutations new_id fresh
  end.

(** The log with its first page, when it had none. *)
Definition start_log (state : SecondaryPostingLogState) : SecondaryPostingLogState :=
  if tail_page_id state =? 0
  then mkLogState (next_page_id state) (next_page_id state) (sat_add64 (next_page_id state) 1) else state.

Definition catalog_page (state : SecondaryPostingLogState) : K Page :=
  mg ← gets ec_indexes;
  lift (IndexMeta.encode_secondary_index_catalog (mkCatalog (SecIndex.list_indexes mg) state)).

Definition build_secondary_log_pages (commit_lsn : Z) (start_state : SecondaryPostingLogState) :
    X (gmap Z (list Z) * SecondaryPostingLogState) :=
  x ← get_tx id;
  if bool_decide (tx_mutations x = []) then mret (∅, start_state) else
  let state := start_log start_state in
  let tail_id := tail_page_id state in
  tail_page ←
    (if tail_page_id start_state =? 0 then lift PostingLog.new_log_page else
     match tx_dirty x !! tail_id with
     | Some p => mret p
     | None =>
     match tx_ro_cache x !! tail_id with
     | Some p => mret p
     | None => on_compute (get_page_or tail_id (tx_read_lsn x))
     end
     end);
  let '(r, (state, pages)) := append_all commit_lsn (tx_mutations x) tail_id tail_page (state, ∅) in
  '(tail_id, tail_page) ← lift r;
  catalog ← on_compute (catalog_page state);
  mret (<[SECONDARY_INDEX_META_PAGE_ID := catalog]> (<[tail_id := tail_page]> pages), state).

(** ** Commit and abort *)

Definition commit_read_only : X Z :=
  x ← get_tx id;
  let wrote := tx_write_attempted x || negb (bool_decide (tx_dirty x = ∅))
    || negb (bool_decide (tx_bptree_dirty x = ∅)) || negb (bool_decide (tx_modified x = ∅)) in
  _ ← take_guard;
  if wrote : bool then throw (Io PermissionDenied) else mret (tx_read_lsn x).

(** The meta page a commit starts from. *)
Definition commit_meta : X MetaPage :=
  x ← get_tx id;
  match tx_dirty x !! META_PAGE_ID with
  | Some p => lift (Meta.decode p)
  | None =>
      c ← on_compute (cache_get META_PAGE_ID);
      match c with
      | Some p => lift (Meta.decode p)
      | None =>
          next ← on_compute (gets (fun c => cs_next_page_id (ec_store c)));
          mret {| MetaPage.root_page_id := 10; next_bptree_page_id := next; next_data_page_id := 1000000;
                  next_undo_page_id := UNDO_BASE; undo_free := []; undo_history_head := 0; undo_history_tail := 0 |}
      end
  end.

(** The last segment of the history is written again: its header will point to this one. *)
Definition touch_old_tail (old_tail : PageId) : X unit :=
  x ← get_tx id;
  if bool_decide (tx_seg_first x = None) || (old_tail =? 0) || bool_decide (is_Some (tx_dirty x !! old_tail)) then mret tt else
  p ← cached_or_ro old_tail;
  tail_page ← lift (ok_or p (InMemoryPageMissing old_tail));
  write_page old_tail tail_page.

Definition owned_leaf_from_ref (row : LeafValue) (meta : LeafValueMeta) : outcome Error LeafValue :=
  value ← to_array VALUE_SIZE (lv_value row); Ret {| lv_value := value; lv_meta := meta |}.

(** The rows of the transaction, with [stamp] on their metadata; [missing] is what happens
    to a key that has no row. *)
Fixpoint stamp_rows (request_id : Z) (stamp : LeafValueMeta -> LeafValueMeta) (missing : X unit) (keys : list bytes) : X unit :=
  match keys with
  | [] => mret tt
  | key :: keys =>
      row ← tree_get key;
      _ ← match row with
          | Some row =>
              if is_intent_of request_id row then
                leaf ← lift (owned_leaf_from_ref row (stamp (lv_meta row)));
                tree_insert key leaf
              else _ ← take_guard; throw (Io WouldBlock)
          | None => missing
          end;
      stamp_rows request_id stamp missing keys
  end.

Definition pre_stamp (m : LeafValueMeta) : LeafValueMeta := meta_of 1 (undo_ptr m) (flags m) (intent_txn_id m) (intent_lsn m).
Definition final_stamp (lsn : Z) (m : LeafValueMeta) : LeafValueMeta :=
  meta_of lsn (undo_ptr m) (Z.ldiff (flags m) FLAG_INTENT) 0 0.

(** The root and the next page id at this time. *)
Definition refresh_meta (meta : MetaPage) : X MetaPage :=
  t ← on_compute (gets ec_store);
  mret (meta_with (cs_root t) (cs_next_page_id t) (next_undo_page_id meta) (undo_history_head meta) (undo_history_tail meta) meta).

(** [page] of the map, read from the caches when it is not there. *)
Definition include_page (page_id : PageId) (map : gmap Z (list Z)) : X (gmap Z (list Z)) :=
  match map !! page_id with
  | Some _ => mret map
  | None =>
      p ← cached_or_ro page_id;
      page ← lift (ok_or p (InMemoryPageMissing page_id));
      mret (<[page_id := page]> map)
  end.

(** The pages of the commit, before any LSN is known. *)
Definition final_page_set (base_meta : MetaPage) : X (gmap Z (list Z)) :=
  x ← get_tx id;
  count_meta ← refresh_meta base_meta;
  map ← match tx_seg_first x with
        | None => mret (tx_dirty x)
        | Some first_pid =>
            map ← include_page first_pid (tx_dirty x);
            if undo_history_tail base_meta =? 0 then mret map else include_page (undo_history_tail base_meta) map
        end;
  encoded ← lift (Meta.encode count_meta);
  mret (<[META_PAGE_ID := encoded]> map).

(** The undo segment of the transaction becomes the last one of the history. *)
Definition link_segment (request_id start_lsn commit_lsn : Z) (base_meta meta : MetaPage) (map : gmap Z (list Z)) :
    X (MetaPage * gmap Z (list Z)) :=
  x ← get_tx id;
  match tx_seg_first x with
  | None => mret (meta, map)
  | Some first_pid =>
      let old_tail := undo_history_tail base_meta in
      map ← (p ← match map !! first_pid with Some p => mret (Some p) | None => on_compute (cache_get first_pid) end;
             head_page ← lift (ok_or p (InMemoryPageMissing first_pid));
             head_page ← lift (Undo.write_segment_header head_page {|
               seg_txn_id := request_id; begin_lsn := start_lsn; UndoPage.commit_lsn := commit_lsn; state := SEGMENT_STATE_COMMITTED;
               first_page_id := first_pid; last_page_id := default first_pid (tx_seg_last x); record_count := tx_seg_count x;
               history_prev := old_tail; history_next := 0 |});
             mret (<[first_pid := head_page]> map));
      if old_tail =? 0 then
        mret (meta_with (MetaPage.root_page_id meta) (next_bptree_page_id meta) (next_undo_page_id meta) first_pid first_pid meta, map)
      else
        p ← match map !! old_tail with Some p => mret (Some p) | None => cached_or_ro old_tail end;
        tail_page ← lift (ok_or p (InMemoryPageMissing old_tail));
        hdr ← lift (Undo.read_segment_header tail_page);
        tail_page ← lift (Undo.write_segment_header tail_page {|
          seg_txn_id := seg_txn_id hdr; begin_lsn := begin_lsn hdr; UndoPage.commit_lsn := UndoPage.commit_lsn hdr; state := state hdr;
          first_page_id := first_page_id hdr; last_page_id := last_page_id hdr; record_count := record_count hdr;
          history_prev := history_prev hdr; history_next := first_pid |});
        mret (meta_with (MetaPage.root_page_id meta) (next_bptree_page_id meta) (next_undo_page_id meta)
                (undo_history_head meta) first_pid meta, <[old_tail := tail_page]> map)
  end.

(** The final pages and the state of the posting log after the commit. *)
Definition commit_pages (request_id start_lsn commit_lsn : Z) (base_meta : MetaPage) (posting_before : SecondaryPostingLogState)
    (map : gmap Z (list Z)) : X (gmap Z (list Z) * SecondaryPostingLogState) :=
  x ← get_tx id;
  _ ← stamp_rows request_id (final_stamp commit_lsn) (mret tt) (key_list (tx_modified x));
  bptree_dirty ← get_tx tx_bptree_dirty;
  let map := if bool_decide (tx_modified x = ∅) then map else bptree_dirty ∪ map in
  meta ← refresh_meta base_meta;
  '(meta, map) ← link_segment request_id start_lsn commit_lsn base_meta meta map;
  encoded ← lift (Meta.encode meta);
  '(secondary_pages, posting_after) ← build_secondary_log_pages commit_lsn posting_before;
  mret (secondary_pages ∪ <[META_PAGE_ID := encoded]> map, posting_after).

(** What follows a successful commit. *)
Definition committed (request_id commit_lsn : Z) (posting_after : SecondaryPostingLogState) : X unit :=
  mutations ← get_tx tx_mutations;
  on_compute (
    _ ← modify (fun c => with_indexes (SecIndex.apply_commit commit_lsn mutations (ec_indexes c)) c);
    _ ← modify (with_posting_log posting_after);
    _ ← remove_pending_txn request_id;
    mret tt).

Definition commit_rw {AL : Allocator} : X Z :=
  base_meta ← commit_meta;
  _ ← touch_old_tail (undo_history_tail base_meta);
  x ← get_tx id;
  request_id ← match tx_undo_txn_id x with Some id => mret id | None => on_compute allocate_request_id end;
  _ ← stamp_rows request_id pre_stamp (_ ← take_guard; throw (Io WouldBlock)) (key_list (tx_modified x));
  _ ← merge_bptree_dirty;
  map ← final_page_set base_meta;
  posting_before ← on_compute (gets ec_posting_log);
  '(probe, _) ← build_secondary_log_pages 0 posting_before;
  let reserve_n := Z.max (Z.of_nat (size map) + Z.of_nat (size probe)) 1 in
  '(start_lsn, end_lsn) ← on_compute (reserve_txn_with_request_id reserve_n request_id);
  '(map, posting_after) ← commit_pages request_id start_lsn end_lsn base_meta posting_before map;
  if negb (Z.of_nat (size map) =? reserve_n) then _ ← take_guard; throw (Io WouldBlock) else
  out ← attempt (on_compute (commit_pages_reserved request_id start_lsn end_lsn (page_entries map)));
  _ ← (if is_ret out then committed request_id end_lsn posting_after else mret tt);
  _ ← take_guard;
  lift out.

Definition commit_body {AL : Allocator} : X Z :=
  _ ← ensure_not_timed_out;
  read_only ← get_tx tx_read_only;
  if read_only : bool then commit_read_only else commit_rw.

Definition abort_body : X unit :=
  x ← get_tx id;
  if tx_read_only x : bool then take_guard else
  let txn_id := default 0 (tx_undo_txn_id x) in
  out ← attempt (on_compute (resolve_txn_intents txn_id (key_list (tx_modified x))));
  _ ← on_compute (remove_pending_txn txn_id);
  _ ← take_guard;
  lift out.

Definition commit {AL : Allocator} (tx : EmbeddedTxn) : K Z := finish commit_body tx.
Definition abort (tx : EmbeddedTxn) : K unit := finish abort_body tx.

(** ** The operations that begin their own transaction *)

Definition check_value (value : bytes) : outcome Error unit :=
  if negb (zlen value =? VALUE_SIZE) then Fail (InvalidValueSize (zlen value) VALUE_SIZE) else Ret tt.

Definition compute_write_page {AL : Allocator} (page_id : PageId) (page : Page) : K Z :=
  tx ← begin_rw; finish (_ ← write_page page_id page; commit_body) tx.

Definition compute_put {AL : Allocator} (key value : bytes) : K Z :=
  _ ← lift (check_key key); _ ← lift (check_value value);
  tx ← begin_rw; finish (_ ← put key value; commit_body) tx.

Definition compute_delete {AL : Allocator} (key : bytes) : K Z :=
  _ ← lift (check_key key);
  tx ← begin_rw; finish (_ ← delete key; commit_body) tx.

Definition compute_get (key : bytes) : K (option bytes) :=
  _ ← lift (check_key key); tx ← begin_tx true None; finish (get key) tx.

Definition compute_get_exists (key : bytes) : K bool :=
  _ ← lift (check_key key); tx ← begin_tx true None; finish (get_exists key) tx.

Definition compute_scan_range (start end_ : bytes) (limit : Z) : K (list (bytes * bytes)) :=
  _ ← lift (check_key start); _ ← lift (check_key end_);
  if limit =? 0 then mret [] else
  tx ← begin_tx true None; finish (scan_range start end_ limit) tx.

Definition compute_scan_range_exists_count (start end_ : bytes) (limit : Z) : K Z :=
  _ ← lift (check_key start); _ ← lift (check_key end_);
  if limit =? 0 then mret 0 else
  tx ← begin_tx true None; finish (scan_range_exists_count start end_ limit) tx.

Definition compute_scan_secondary_index_eq {AL : Allocator} (index_name secondary_key : bytes) (limit : Z) : K (list (bytes * bytes)) :=
  if limit =? 0 then mret [] else
  tx ← begin_tx true None; finish (scan_secondary_index_eq index_name secondary_key limit) tx.

(** ** Secondary indexes of the node *)

Definition persist_secondary_index_catalog {AL : Allocator} : K unit :=
  state ← gets ec_posting_log;
  page ← catalog_page state;
  _ ← write_pages_direct [(SECONDARY_INDEX_META_PAGE_ID, page)];
  mret tt.

Definition replace_definitions (defs : list SecondaryIndexDefinition) : K unit := fun c =>
  let '(r, mg) := SecIndex.replace_definitions defs (ec_indexes c) in (r, with_indexes mg c).

Definition load_secondary_index_catalog : K unit :=
  durable ← gets durable_lsn;
  p ← get_page SECONDARY_INDEX_META_PAGE_ID durable;
  match p with
  | None =>
      _ ← replace_definitions [];
      modify (with_posting_log PostingLog.default_state)
  | Some page =>
      catalog ← lift (IndexMeta.decode_secondary_index_catalog page);
      _ ← replace_definitions (cat_defs catalog);
      modify (with_posting_log (cat_posting_log catalog))
  end.

Definition append_secondary_posting_log {AL : Allocator} (commit_lsn : Z) (mutations : list SecondaryIndexMutation) : K unit :=
  if bool_decide (mutations = []) then mret tt else
  before ← gets ec_posting_log;
  let state := start_log before in
  _ ← modify (with_posting_log state);
  durable ← gets durable_lsn;
  tail_page ← (if tail_page_id before =? 0 then lift PostingLog.new_log_page else get_page_or (tail_page_id state) durable);
  let '(r, (state, writes)) := append_all commit_lsn mutations (tail_page_id state) tail_page (state, ∅) in
  _ ← modify (with_posting_log state);
  '(tail_id, tail_page) ← lift r;
  catalog ← catalog_page state;
  _ ← write_pages_direct (page_entries (<[tail_id := tail_page]> writes) ++ [(SECONDARY_INDEX_META_PAGE_ID, catalog)]);
  mret tt.

Definition apply_commit (commit_lsn : Z) (mutations : list SecondaryIndexMutation) : K unit :=
  modify (fun c => with_indexes (SecIndex.apply_commit commit_lsn mutations (ec_indexes c)) c).

Fixpoint replay_loop (fuel : nat) (page_id : PageId) (count : Z) : K Z :=
  if page_id =? 0 then mret count else
  match fuel with
  | O => lift Spin
  | Datatypes.S fuel =>
      durable ← gets durable_lsn;
      page ← get_page_or page_id durable;
      records ← lift (PostingLog.decode_records page);
      _ ← modify (fun c => with_indexes (foldl (fun mg r => SecIndex.apply_commit r.1 [r.2] mg) (ec_indexes c) records) c);
      next ← lift (PostingLog.read_next_page_id page);
      replay_loop fuel next (count + zlen records)
  end.

Definition replay_secondary_posting_log : K Z :=
  state ← gets ec_posting_log;
  replay_loop fuel (head_page_id state) 0.

Definition BACKFILL_CHUNK : Z := 1024.

Definition flush_chunk {AL : Allocator} (commit_lsn : Z) (chunk : list SecondaryIndexMutation) : X unit :=
  on_compute (_ ← apply_commit commit_lsn chunk; append_secondary_posting_log commit_lsn chunk).

Fixpoint backfill_loop {AL : Allocator} (index_name : bytes) (commit_lsn : Z) (entries : list (bytes * LeafValue))
    (chunk : list SecondaryIndexMutation) (out_count : Z) : X Z :=
  match entries with
  | [] =>
      _ ← (if bool_decide (chunk = []) then mret tt else flush_chunk commit_lsn chunk);
      mret out_count
  | (key, row) :: entries =>
      v ← read_visible_value_from_scan_entry key row;
      match v with
      | None => backfill_loop index_name commit_lsn entries chunk out_count
      | Some value =>
          _ ← lift (check_key key);
          value_arr ← lift (to_array VALUE_SIZE value);
          muts ← plan_mutations key None (Some value_arr);
          let chunk := chunk ++ filter (fun m => Secondary.index_name m = index_name) muts in
          if BACKFILL_CHUNK <=? zlen chunk then
            _ ← flush_chunk commit_lsn chunk;
            backfill_loop index_name commit_lsn entries [] (out_count + 1)
          else backfill_loop index_name commit_lsn entries chunk (out_count + 1)
      end
  end.

Definition FIRST_KEY : bytes := zrepeat 0 KEY_SIZE.
Definition LAST_KEY : bytes := zrepeat 255 KEY_SIZE.

Definition backfill_secondary_index {AL : Allocator} (index_name : bytes) : K Z :=
  tx ← begin_tx true None;
  finish (entries ← tree_range FIRST_KEY LAST_KEY;
          commit_lsn ← on_compute (gets durable_lsn);
          backfill_loop index_name commit_lsn entries [] 0) tx.

Fixpoint backfill_all {AL : Allocator} (defs : list SecondaryIndexDefinition) : K unit :=
  match defs with
  | [] => mret tt
  | d :: defs => _ ← backfill_secondary_index (def_name d); backfill_all defs
  end.

Definition backfill_all_secondary_indexes {AL : Allocator} : K unit :=
  mg ← gets ec_indexes; backfill_all (SecIndex.list_indexes mg).

Definition drop_index (name : bytes) : K bool := fun c =>
  let '(b, mg) := SecIndex.drop_index name (ec_indexes c) in (Ret b, with_indexes mg c).

Definition create_btree_index (name : bytes) (value_offset value_len : Z) : K unit := fun c =>
  let '(r, mg) := SecIndex.create_btree_index name value_offset value_len (ec_indexes c) in (r, with_indexes mg c).

Definition create_btree_secondary_index {AL : Allocator} (name : bytes) (value_offset value_len : Z) : K unit :=
  _ ← create_btree_index name value_offset value_len;
  r ← attempt persist_secondary_index_catalog;
  match r with
  | Ret _ =>
      r ← attempt (backfill_secondary_index name);
      match r with
      | Ret _ => mret tt
      | err =>
          _ ← drop_index name;
          _ ← attempt persist_secondary_index_catalog;
          lift (_ ← err; Ret tt)
      end
  | err => _ ← drop_index name; lift err
  end.

Definition drop_secondary_index {AL : Allocator} (name : bytes) : K bool :=
  dropped ← drop_index name;
  _ ← (if dropped : bool then persist_secondary_index_catalog else mret tt);
  mret dropped.

Definition list_secondary_indexes (c : EmbeddedCompute T) : list SecondaryIndexDefinition := SecIndex.list_indexes (ec_indexes c).

(** ** Recovery *)

Definition BPTREE_ROOT_ID : PageId := 10.

Definition set_root_page_id (id : PageId) : K unit := modify (fun c => with_store (cs_set_root id (ec_store c)) c).
Definition set_next_page_id (id : PageId) : K unit := modify (fun c => with_store (cs_set_next_page_id id (ec_store c)) c).

(** The branch of a storage that holds a meta page. *)
Definition recover {AL : Allocator} (global_meta_bytes : Page) : K unit :=
  meta ← lift (Meta.decode global_meta_bytes);
  _ ← set_next_page_id (next_bptree_page_id meta);
  _ ← (if next_undo_page_id meta <? UNDO_BASE then
         encoded ← lift (Meta.encode (at_least_undo_base meta));
         _ ← attempt (compute_write_page META_PAGE_ID encoded);
         mret tt
       else mret tt);
  b ← cache_get BtreeMetaPage.BTREE_META_PAGE_ID;
  _ ← match b with
      | Some btree_meta_bytes =>
          bm ← lift (BtreeMetaPage.btree_decode btree_meta_bytes);
          set_root_page_id (btree_root_page_id bm)
      | None => set_root_page_id (MetaPage.root_page_id meta)
      end;
  _ ← load_secondary_index_catalog;
  replayed ← replay_secondary_posting_log;
  if replayed =? 0 then backfill_all_secondary_indexes else mret tt.

(** Cold start. *)
Definition init_pages : X unit :=
  _ ← on_compute (set_root_page_id BPTREE_ROOT_ID);
  _ ← on_compute (set_next_page_id (BPTREE_ROOT_ID + 1));
  root_page ← lift (Bp.new_page 2 0);
  _ ← write_page BPTREE_ROOT_ID root_page;
  btree_meta ← lift (BtreeMetaPage.btree_encode {| btree_root_page_id := BPTREE_ROOT_ID |});
  _ ← write_page BtreeMetaPage.BTREE_META_PAGE_ID btree_meta;
  meta ← lift (Meta.encode {| MetaPage.root_page_id := BPTREE_ROOT_ID; next_bptree_page_id := BPTREE_ROOT_ID + 1;
    next_data_page_id := 1000000; next_undo_page_id := UNDO_BASE; undo_free := []; undo_history_head := 0; undo_history_tail := 0 |});
  write_page META_PAGE_ID meta.

Definition cold_start {AL : Allocator} : K unit :=
  tx ← begin_rw;
  _ ← finish (_ ← init_pages; commit_body) tx;
  _ ← replace_definitions [];
  persist_secondary_index_catalog.

Definition recover_or_init {AL : Allocator} : K unit :=
  _ ← attempt (warmup_scan_all 256);
  m ← cache_get META_PAGE_ID;
  match m with
  | Some global_meta_bytes => recover global_meta_bytes
  | None => cold_start
  end.

(** ** Garbage collection *)

(** The pages of a purged segment go to the free list. *)
Fixpoint free_segment (fuel : nat) (gc_lsn : Z) (pid : PageId) (meta : MetaPage) : K MetaPage :=
  if pid =? 0 then mret meta else
  match fuel with
  | O => lift Spin
  | Datatypes.S fuel =>
      page ← get_page_or pid gc_lsn;
      next_pid ← lift (Undo.page_next_id page);
      free_segment fuel gc_lsn next_pid (Meta.push_free_undo meta pid)
  end.

(** The header with another state and other links. *)
Definition relink (hdr : UndoSegmentHeader) (st prev next : Z) : UndoSegmentHeader := {|
  seg_txn_id := seg_txn_id hdr; begin_lsn := begin_lsn hdr; UndoPage.commit_lsn := UndoPage.commit_lsn hdr; state := st;
  first_page_id := first_page_id hdr; last_page_id := last_page_id hdr; record_count := record_count hdr;
  history_prev := prev; history_next := next |}.

Fixpoint purge_loop (n : nat) (gc_lsn : Z) (meta : MetaPage) (dirty_pages : gmap Z (list Z)) : K (MetaPage * gmap Z (list Z)) :=
  match n with
  | O => lift Spin
  | Datatypes.S n =>
      let head := undo_history_head meta in
      if head =? 0 then mret (meta, dirty_pages) else
      head_page ← get_page_or head gc_lsn;
      head_hdr ← lift (Undo.read_segment_header head_page);
      if negb (state head_hdr =? SEGMENT_STATE_COMMITTED) || (gc_lsn <? UndoPage.commit_lsn head_hdr) then mret (meta, dirty_pages) else
      let next := history_next head_hdr in
      let tail := if next =? 0 then 0 else undo_history_tail meta in
      let meta := meta_with (MetaPage.root_page_id meta) (next_bptree_page_id meta) (next_undo_page_id meta) next tail meta in
      dirty_pages ←
        (if next =? 0 then mret dirty_pages else
         next_page ← get_page_or next gc_lsn;
         next_hdr ← lift (Undo.read_segment_header next_page);
         next_page ← lift (Undo.write_segment_header next_page (relink next_hdr (state next_hdr) 0 (history_next next_hdr)));
         mret (<[next := next_page]> dirty_pages));
      meta ← free_segment fuel gc_lsn (first_page_id head_hdr) meta;
      head_page ← lift (Undo.write_segment_header head_page (relink head_hdr SEGMENT_STATE_PURGED 0 0));
      purge_loop n gc_lsn meta (<[head := head_page]> dirty_pages)
  end.

Definition gc_purge_undo_segments {AL : Allocator} (gc_lsn : Z) : K unit :=
  meta_bytes ← get_page_or META_PAGE_ID gc_lsn;
  meta ← lift (Meta.decode meta_bytes);
  '(meta, dirty_pages) ← purge_loop fuel gc_lsn meta ∅;
  if bool_decide (dirty_pages = ∅) then mret tt else
  encoded ← lift (Meta.encode meta);
  let pages := page_entries (<[META_PAGE_ID := encoded]> dirty_pages) in
  '(request_id, start_lsn, end_lsn) ← reserve_txn (Z.max (zlen pages) 1);
  _ ← commit_pages_reserved request_id start_lsn end_lsn pages;
  mret tt.

(** The rows one pass removes and the rows it rewrites. *)
Fixpoint gc_rows (budget scanned : Z) (gc_lsn : Z) (entries : list (bytes * LeafValue)) (keys_to_remove : list bytes)
    (rows_to_update : list (bytes * LeafValue)) : outcome Error (Z * list bytes * list (bytes * LeafValue)) :=
  match entries with
  | [] => Ret (scanned, keys_to_remove, rows_to_update)
  | (key, row) :: entries =>
      if budget <=? scanned then Ret (scanned, keys_to_remove, rows_to_update) else
      let scanned := scanned + 1 in
      let meta := lv_meta row in
      if (commit_lsn meta =? 0) || (gc_lsn <? commit_lsn meta) then gc_rows budget scanned gc_lsn entries keys_to_remove rows_to_update else
      if has_flag FLAG_TOMBSTONE (flags meta) then gc_rows budget scanned gc_lsn entries (keys_to_remove ++ [key]) rows_to_update else
      if bool_decide (undo_ptr meta = None) then gc_rows budget scanned gc_lsn entries keys_to_remove rows_to_update else
      leaf ← owned_leaf_from_ref row (meta_of (commit_lsn meta) None (flags meta) (intent_txn_id meta) (intent_lsn meta));
      gc_rows budget scanned gc_lsn entries keys_to_remove (rows_to_update ++ [(key, leaf)])
  end.

Fixpoint remove_rows (keys : list bytes) : X unit :=
  match keys with
  | [] => mret tt
  | key :: keys => _ ← attempt (tree_remove key); remove_rows keys
  end.

Fixpoint update_rows (rows : list (bytes * LeafValue)) : X unit :=
  match rows with
  | [] => mret tt
  | (key, row) :: rows => _ ← tree_insert key row; update_rows rows
  end.

Definition gc_pass {AL : Allocator} (budget_pages gc_lsn : Z) : X Z :=
  entries ← tree_range FIRST_KEY LAST_KEY;
  '(scanned, keys_to_remove, rows_to_update) ← lift (gc_rows budget_pages 0 gc_lsn entries [] []);
  _ ← (if bool_decide (keys_to_remove = []) && bool_decide (rows_to_update = []) then mret 0 else
       _ ← remove_rows keys_to_remove;
       _ ← update_rows rows_to_update;
       commit_body);
  mret scanned.

Definition gc_once {AL : Allocator} (budget_pages : Z) : K Z :=
  if budget_pages =? 0 then mret 0 else
  gc ← gets gc_lsn;
  tx ← begin_rw;
  scanned ← finish (gc_pass budget_pages gc) tx;
  _ ← attempt (gc_purge_undo_segments gc);
  mret scanned.

(** ** The reaper *)

Fixpoint reap (expired : list Z) : K unit :=
  match expired with
  | [] => mret tt
  | txn_id :: expired =>
      now ← instant_now;
      registry ← gets ec_registry;
      let write_keys := match registry !! txn_id with
        | Some p => if pt_deadline p <=? now then key_list (pt_write_keys p) else []
        | None => []
        end in
      _ ← attempt (resolve_txn_intents txn_id write_keys);
      _ ← remove_pending_txn txn_id;
      reap expired
  end.

Definition expired_at (now : Z) (registry : gmap Z PendingTxn) (txn_id : Z) : bool :=
  match registry !! txn_id with Some p => pt_deadline p <=? now | None => false end.

(** One turn of the loop; [walk] is the order of the registry. *)
Definition reaper_turn (walk : list Z) : K unit :=
  now ← instant_now;
  registry ← gets ec_registry;
  reap (filter (fun id => expired_at now registry id = true) walk).

End Node.

(** ** Construction *)

(** [read_duration_env_ms] on the parsed value of the variable *)
Definition read_duration_env_ms (parsed : option Z) (default_ms : Z) : Z :=
  match parsed with Some v => if 0 <? v then v else default_ms | None => default_ms end.

Definition DEFAULT_CACHE_PAGES : Z := 8 * 1024.

Record Env := mkEnv { env_cache_pages : option Z; env_timeout : option Z; env_reaper : option Z }.

Section Connect.
Context {C : Type} {L : LruCache C} {OT : Others (PageBPlusTree (TxnProvider.TxnPageProvider C Storage))}.

Definition new_compute (env : Env) (g : Storage) (k : Clock) : EmbeddedCompute (PageBPlusTree (TxnProvider.TxnPageProvider C Storage)) :=
  let page_cache := PageCacheM.new_with_capacity DEFAULT_PAGE_CACHE_SHARDS (read_duration_env_ms (env_cache_pages env) DEFAULT_CACHE_PAGES) in
  mkCompute (Btree.with_provider (TxnProvider.new page_cache 1 BtreeMetaPage.BTREE_META_PAGE_ID g))
    ActiveReadsM.new SecIndex.default_manager PostingLog.default_state ∅
    (read_duration_env_ms (env_timeout env) 5000) (read_duration_env_ms (env_reaper env) 100) k.

Definition connect_inprocess {AL : Allocator} (fuel : nat) (now ms : Z) (order : list bytes) (env : Env) (seed : Z) (k : Clock) (cl : Cluster) :
    outcome Error unit * EmbeddedCompute (PageBPlusTree (TxnProvider.TxnPageProvider C Storage)) :=
  let sequencer := InProcess (InProcessM.new seed (mkPages ∅)) in
  recover_or_init fuel now ms order (new_compute env (mkStorage sequencer cl [] 0 now) k).

(** Every node has to answer here: the readers are connected one by one. *)
Definition connect {AL : Allocator} (fuel : nat) (now ms : Z) (order : list bytes) (env : Env) (up : nat -> bool) (refused : ErrorKind) (seed : Z)
    (addrs : list nat) (quorum : Z) (k : Clock) (cl : Cluster) :
    outcome Error (EmbeddedCompute (PageBPlusTree (TxnProvider.TxnPageProvider C Storage))) * Cluster :=
  match SequencerM.connect up seed addrs quorum cl with
  | (Ret sequencer, cl) =>
      if forallb up addrs then
        let '(r, c) := recover_or_init fuel now ms order (new_compute env (mkStorage (Network sequencer) cl addrs 0 now) k) in
        (_ ← r; Ret c, sg_cluster (storage c))
      else (Fail (Io refused), cl)
  | (Fail e, cl) => (Fail e, cl)
  | (Panic, cl) => (Panic, cl)
  | (Spin, cl) => (Spin, cl)
  end.

End Connect.

End Compute.
