(* ===== verification/ComputeSpec.v ===== *)
(** * ComputeSpec: what the compute node relies on, and the versions of a row

    [StoreLaws] is what the transactions of the compute node need of the tree and the page
    cache: [rows] is the map the tree stores and [page_of] the cached pages that are not the
    tree's own, the meta page and the undo pages, none of which is evicted.  [good n] leaves
    room for [n] more insertions of a row or of a page.  [MapStore] keeps these laws with a finite map.

    [chain] follows undo records from a row, [visible] is the version a snapshot reads, and
    [undo_ready] is what [append_undo] needs and keeps. *)

From stdpp Require Import base numbers list list_numbers gmap fin_maps sorting.
From S2P Require Import Prelude Common SlottedPage UndoPage MetaPage WalCodec Mvcc PageStore Node Sequencer Secondary BtreePage Provider Cache Btree Compute.

(** The meta page, the catalog of the secondary indexes and the undo pages. *)
Definition aux_page (id : PageId) : Prop := id = META_PAGE_ID \/ id = SECONDARY_INDEX_META_PAGE_ID \/ UNDO_BASE <= id.

(** [settles t id pg]: the tree has page [id] as [pg], so that caching it again changes nothing.
    [roomy_of t k]: the page that rewriting row [k] writes, when it writes no other.
    [spare_of t k]: a new row [k] leaves such a page. *)
Class StoreView (T : Type) := {
  good : nat -> T -> Prop;
  rows : T -> gmap (list Z) LeafValue;
  page_of : T -> PageId -> option Page;
  settles : T -> PageId -> Page -> Prop;
  roomy_of : T -> bytes -> option PageId;
  spare_of : T -> bytes -> bool
}.

Section View.
Context {T : Type} {S : ComputeStore T} {V : StoreView T}.

(** The same pages of the tree. *)
Definition same_tree (t t' : T) : Prop :=
  (forall id pg, settles t' id pg <-> settles t id pg) /\ (forall k, roomy_of t' k = roomy_of t k) /\
  (forall k, spare_of t' k = spare_of t k).

Lemma same_tree_refl t : same_tree t t.
Proof. by split. Qed.

Lemma same_tree_trans t t' t'' : same_tree t t' -> same_tree t' t'' -> same_tree t t''.
Proof. intros (A & B & D) (A' & B' & D'). split; [intros id pg; by rewrite A', A|]. split; intros k; [by rewrite B', B|by rewrite D', D]. Qed.

(** Pages noted as dirty that the tree has as they are noted. *)
Definition settled (t : T) (d : gmap Z (list Z)) : Prop := map_Forall (fun id pg => zlen pg = PAGE_SIZE /\ settles t id pg) d.

Lemma settled_same t t' d : same_tree t t' -> settled t d -> settled t' d.
Proof. intros (Hs & _) Hd id pg Hid. destruct (Hd id pg Hid). by rewrite Hs. Qed.

(** Pages among which the tree's are; the page of the root's id is not one of them. *)
Definition backed (t : T) (m : gmap Z (list Z)) : Prop :=
  forall id pg, settles t id pg -> id <> BtreeMetaPage.BTREE_META_PAGE_ID -> m !! id = Some pg.

Lemma backed_same t t' m : same_tree t t' -> backed t m -> backed t' m.
Proof. intros (Hs & _) Hb id pg Hid. apply Hb. by rewrite <-Hs. Qed.

(** The same rows, pages, dirty scope and storage. *)
Record same (n : nat) (t t' : T) : Prop := {
  same_good : good n t';
  same_rows : rows t' = rows t;
  same_pages : forall id, page_of t' id = page_of t id;
  same_dirty : cs_dirty t' = cs_dirty t;
  same_storage : cs_storage t' = cs_storage t;
  same_own : same_tree t t'
}.

(** The same but for the rows, or but for one page. *)
Record row_changed (n : nat) (t t' : T) (rs : gmap (list Z) LeafValue) : Prop := {
  rc_good : good n t';
  rc_rows : rows t' = rs;
  rc_pages : forall id, page_of t' id = page_of t id;
  rc_dirty : forall d, cs_dirty t = Some d -> exists d', cs_dirty t' = Some d' /\
    (forall i, is_Some (d !! i) -> is_Some (d' !! i)) /\ (settled t d -> settled t' d') /\
    (forall m, backed t (d ∪ m) -> backed t' (d' ∪ m));
  rc_storage : cs_storage t' = cs_storage t
}.

Record page_changed (n : nat) (t t' : T) (id : PageId) (pg : Page) : Prop := {
  pc_good : good n t';
  pc_rows : rows t' = rows t;
  pc_pages : forall i, page_of t' i = if decide (i = id) then Some pg else page_of t i;
  pc_dirty : cs_dirty t' = cs_dirty t;
  pc_storage : cs_storage t' = cs_storage t;
  pc_own : same_tree t t'
}.

End View.

Class StoreLaws (T : Type) `{ComputeStore T, StoreView T} := {
  law_get n k t : good n t -> zlen k = KEY_SIZE -> exists t', cs_get k t = (Ret (rows t !! k), t') /\ same n t t';
  law_insert n k v t : good (S n) t -> zlen k = KEY_SIZE -> BpSpec.lv_ok v ->
    exists t', cs_insert k v t = (Ret tt, t') /\ row_changed n t t' (<[k := v]> (rows t));
  law_cache_get n id t : good n t -> aux_page id ->
    exists t', cs_cache_get id t = (page_of t id, t') /\ same n t t';
  law_cache_insert n id pg t : good (S n) t -> aux_page id -> page_changed n t (cs_cache_insert id pg t) id pg;
  law_rewrite n k v t t' p d : good (S n) t -> zlen k = KEY_SIZE -> BpSpec.lv_ok v ->
    is_Some (rows t !! k) -> roomy_of t k = Some p -> cs_dirty t = Some d -> cs_insert k v t = (Ret tt, t') ->
    (forall k', roomy_of t' k' = roomy_of t k') /\
    exists d', cs_dirty t' = Some d' /\ dom d' = {[p]} ∪ dom d;
  law_spare n k v t t' : good (S n) t -> zlen k = KEY_SIZE -> BpSpec.lv_ok v -> rows t !! k = None ->
    spare_of t k = true -> cs_insert k v t = (Ret tt, t') ->
    exists p, roomy_of t' k = Some p /\
      forall d, cs_dirty t = Some d -> exists d', cs_dirty t' = Some d' /\ dom d' = {[p]} ∪ dom d;
  law_settles_own id pg t : settles t id pg -> ~ aux_page id;
  law_settle n id pg t : good n t -> settles t id pg -> same n t (cs_cache_insert id pg t);
  law_ids n t : good n t -> 0 <= cs_root t < U64 /\ 0 <= cs_next_page_id t < U64;
  law_less n t : good (S n) t -> good n t;
  law_set_dirty n d t : good n t -> good n (cs_set_dirty d t);
  law_set_dirty_rows d t : rows (cs_set_dirty d t) = rows t;
  law_set_dirty_pages d t id : page_of (cs_set_dirty d t) id = page_of t id;
  law_set_dirty_val d t : cs_dirty (cs_set_dirty d t) = d;
  law_set_dirty_storage d t : cs_storage (cs_set_dirty d t) = cs_storage t;
  law_set_dirty_own d t : same_tree t (cs_set_dirty d t);
  law_set_storage n g t : good n t -> good n (cs_set_storage g t);
  law_set_storage_rows g t : rows (cs_set_storage g t) = rows t;
  law_set_storage_pages g t id : page_of (cs_set_storage g t) id = page_of t id;
  law_set_storage_dirty g t : cs_dirty (cs_set_storage g t) = cs_dirty t;
  law_set_storage_val g t : cs_storage (cs_set_storage g t) = g;
  law_set_storage_own g t : same_tree t (cs_set_storage g t)
}.

(** ** A store of a finite map *)

Module MapStoreM.

Record MapStore := mkMapStore {
  ms_rows : gmap (list Z) LeafValue;
  ms_pages : gmap Z (list Z);
  ms_root : PageId;
  ms_next : PageId;
  ms_dirty : option (gmap Z (list Z));
  ms_storage : Storage
}.

Definition between (a b k : bytes) : bool := bytes_leb a k && bytes_leb k b.

Definition range (a b : bytes) (m : MapStore) : list (bytes * LeafValue) :=
  filter (fun kv => between a b kv.1 = true) (Secondary.entries (ms_rows m)).

#[global] Instance map_store : ComputeStore MapStore := {
  cs_get k m := (Ret (ms_rows m !! k), m);
  cs_insert k v m := (Ret tt, mkMapStore (<[k := v]> (ms_rows m)) (ms_pages m) (ms_root m) (ms_next m) (ms_dirty m) (ms_storage m));
  cs_remove k m := (Ret tt, mkMapStore (delete k (ms_rows m)) (ms_pages m) (ms_root m) (ms_next m) (ms_dirty m) (ms_storage m));
  cs_range a b m := (Ret (range a b m), m);
  cs_range_meta a b m := (Ret ((fun kv => (kv.1, lv_meta kv.2)) <$> range a b m), m);
  cs_root := ms_root;
  cs_set_root r m := mkMapStore (ms_rows m) (ms_pages m) r (ms_next m) (ms_dirty m) (ms_storage m);
  cs_next_page_id := ms_next;
  cs_set_next_page_id i m := mkMapStore (ms_rows m) (ms_pages m) (ms_root m) i (ms_dirty m) (ms_storage m);
  cs_cache_get i m := (ms_pages m !! i, m);
  cs_cache_insert i p m := mkMapStore (ms_rows m) (<[i := p]> (ms_pages m)) (ms_root m) (ms_next m) (ms_dirty m) (ms_storage m);
  cs_cache_len m := Z.of_nat (size (ms_pages m));
  cs_dirty := ms_dirty;
  cs_set_dirty d m := mkMapStore (ms_rows m) (ms_pages m) (ms_root m) (ms_next m) d (ms_storage m);
  cs_storage := ms_storage;
  cs_set_storage g m := mkMapStore (ms_rows m) (ms_pages m) (ms_root m) (ms_next m) (ms_dirty m) g
}.

#[global] Instance map_view : StoreView MapStore := {
  good _ m := 0 <= ms_root m < U64 /\ 0 <= ms_next m < U64;
  rows := ms_rows;
  page_of m id := ms_pages m !! id;
  settles _ _ _ := False;
  roomy_of _ _ := None;
  spare_of _ _ := false
}.

#[global] Instance map_laws : StoreLaws MapStore.
Proof.
  split; try done.
  - intros n k t ? _. exists t. split; [done|]. by split.
  - intros n k v t ? _ _. eexists. split; [reflexivity|]. split; try done. intros d Hd. exists d. by split_and!.
  - intros n id t ? _. exists t. split; [done|]. by split.
  - intros n id pg t ? _. split; try done. intros i. cbn.
    destruct (decide (i = id)) as [->|]; [apply lookup_insert_eq|by apply lookup_insert_ne].
Qed.

End MapStoreM.

Import Compute.Compute.

(** ** Runs *)

Section Runs.
Context {T : Type} {CS : ComputeStore T} {SV : StoreView T} {SL : StoreLaws T} {OT : Others T}.

Lemma on_compute_run {A} (m : st (EmbeddedCompute T) Error A) x c r c' :
  m c = (r, c') -> on_compute m (x, c) = (r, (x, c')).
Proof. intros E. unfold on_compute. cbn. by rewrite E. Qed.

Lemma get_tx_bind {A B} (f : EmbeddedTxn -> A) (g : A -> st (EmbeddedTxn * EmbeddedCompute T) Error B) s :
  (get_tx f ≫= g) s = g (f s.1) s.
Proof. reflexivity. Qed.

Lemma mret_bind {St A B} (a : A) (g : A -> st St Error B) s : (mret a ≫= g) s = g a s.
Proof. reflexivity. Qed.

Lemma set_tx_bind {B} f (g : unit -> st (EmbeddedTxn * EmbeddedCompute T) Error B) s :
  (set_tx f ≫= g) s = g tt (f s.1, s.2).
Proof. reflexivity. Qed.

Lemma with_pages_id x : with_pages (tx_dirty x) (tx_bptree_dirty x) (tx_ro_cache x) x = x.
Proof. by destruct x. Qed.

Lemma with_store_store (t t' : T) c : with_store t' (with_store t c) = with_store t' c.
Proof. done. Qed.

(** A tree that no transaction has a scope on. *)
Definition idle (n : nat) (c : EmbeddedCompute T) : Prop := good n (ec_store c) /\ cs_dirty (ec_store c) = None.

Lemma tree_get_run n key x c :
  idle n c -> zlen key = KEY_SIZE ->
  exists t', tree_get key (x, c) = (Ret (rows (ec_store c) !! key), (x, with_store t' c)) /\ same n (ec_store c) t'.
Proof.
  intros [Hg Hd] Hk. set (d := Some (tx_bptree_dirty x)).
  destruct (law_get n key (cs_set_dirty d (ec_store c)) (law_set_dirty _ _ _ Hg) Hk) as (t' & Hr & Hs).
  exists (cs_set_dirty None t'). unfold tree_get, with_bptree_dirty. cbn [fst snd]. fold d. rewrite Hr. destruct Hs as [Sg Sr Sp Sd Ss So].
  rewrite law_set_dirty_rows, Sd, law_set_dirty_val. cbn [default id]. unfold d. cbn [default].
  rewrite with_pages_id. split; [done|]. split.
  - by apply law_set_dirty.
  - by rewrite law_set_dirty_rows, Sr, law_set_dirty_rows.
  - intros i. by rewrite law_set_dirty_pages, Sp, law_set_dirty_pages.
  - by rewrite law_set_dirty_val.
  - by rewrite law_set_dirty_storage, Ss, law_set_dirty_storage.
  - eapply same_tree_trans; [apply law_set_dirty_own|]. eapply same_tree_trans; [exact So|apply law_set_dirty_own].
Qed.

Lemma tree_insert_run n key v x c :
  idle (S n) c -> zlen key = KEY_SIZE -> BpSpec.lv_ok v ->
  exists b t', tree_insert key v (x, c) = (Ret tt, (with_pages (tx_dirty x) b (tx_ro_cache x) x, with_store t' c)) /\
    row_changed n (ec_store c) t' (<[key := v]> (rows (ec_store c))) /\ cs_dirty t' = None.
Proof.
  intros [Hg Hd] Hk Hv. set (d := Some (tx_bptree_dirty x)).
  destruct (law_insert n key v (cs_set_dirty d (ec_store c)) (law_set_dirty _ _ _ Hg) Hk Hv) as (t' & Hr & [Sg Sr Sp Sd Ss]).
  exists (default ∅ (cs_dirty t')), (cs_set_dirty None t'). unfold tree_insert, with_bptree_dirty. cbn [fst snd]. fold d. rewrite Hr.
  split; [done|]. split; [|apply law_set_dirty_val]. split.
  - by apply law_set_dirty.
  - by rewrite law_set_dirty_rows, Sr, law_set_dirty_rows.
  - intros i. by rewrite law_set_dirty_pages, Sp, law_set_dirty_pages.
  - intros d0 Hs. congruence.
  - by rewrite law_set_dirty_storage, Ss, law_set_dirty_storage.
Qed.

(** What [tree_insert] notes as dirty. *)
Lemma tree_insert_noted n key v x c b t' :
  idle (S n) c -> zlen key = KEY_SIZE -> BpSpec.lv_ok v ->
  tree_insert key v (x, c) = (Ret tt, (with_pages (tx_dirty x) b (tx_ro_cache x) x, with_store t' c)) ->
  (forall i, is_Some (tx_bptree_dirty x !! i) -> is_Some (b !! i)) /\
  (settled (ec_store c) (tx_bptree_dirty x) -> settled t' b) /\
  (forall m, backed (ec_store c) (tx_bptree_dirty x ∪ m) -> backed t' (b ∪ m)) /\
  (forall p, is_Some (rows (ec_store c) !! key) -> roomy_of (ec_store c) key = Some p ->
     (forall k, roomy_of t' k = roomy_of (ec_store c) k) /\ dom b = {[p]} ∪ dom (tx_bptree_dirty x)) /\
  (rows (ec_store c) !! key = None -> spare_of (ec_store c) key = true ->
     exists p, roomy_of t' key = Some p /\ dom b = {[p]} ∪ dom (tx_bptree_dirty x)).
Proof.
  intros [Hg Hd] Hk Hv. set (d := Some (tx_bptree_dirty x)).
  destruct (law_insert n key v (cs_set_dirty d (ec_store c)) (law_set_dirty _ _ _ Hg) Hk Hv) as (t1 & Hr & [_ _ _ Sd _]).
  unfold tree_insert, with_bptree_dirty. cbn [fst snd]. fold d. rewrite Hr. intros Heq.
  pose proof (f_equal (fun r => tx_bptree_dirty r.2.1) Heq) as Hb. pose proof (f_equal (fun r => ec_store r.2.2) Heq) as Ht.
  cbn [fst snd tx_bptree_dirty with_pages ec_store with_store] in Hb, Ht. subst b t'.
  destruct (law_set_dirty_own d (ec_store c)) as (_ & Hroomy & Hspare). destruct (law_set_dirty_own None t1) as (_ & Hroomy1 & _).
  destruct (Sd (tx_bptree_dirty x)) as (d' & Hd' & Hdom & Hset & Hbk); [apply law_set_dirty_val|]. rewrite Hd'. cbn [default]. split_and!.
  - exact Hdom.
  - intros Hs. eapply settled_same; [apply law_set_dirty_own|]. apply Hset. by eapply settled_same; [apply law_set_dirty_own|].
  - intros m Hm. eapply backed_same; [apply law_set_dirty_own|]. apply Hbk. by eapply backed_same; [apply law_set_dirty_own|].
  - intros p Hin Hp. destruct (law_rewrite n key v (cs_set_dirty d (ec_store c)) t1 p (tx_bptree_dirty x)) as (Hr' & d2 & Hd2 & Hdom2);
      [by apply law_set_dirty|done|done|by rewrite law_set_dirty_rows|by rewrite Hroomy|apply law_set_dirty_val|done|].
    split; [intros k; by rewrite Hroomy1, Hr', Hroomy|]. rewrite Hd' in Hd2. by injection Hd2 as ->.
  - intros Hnone Hs. destruct (law_spare n key v (cs_set_dirty d (ec_store c)) t1) as (p & Hp & Hdp);
      [by apply law_set_dirty|done|done|by rewrite law_set_dirty_rows|by rewrite Hspare|done|].
    destruct (Hdp (tx_bptree_dirty x)) as (d2 & Hd2 & Hdom2); [apply law_set_dirty_val|].
    exists p. rewrite Hroomy1. rewrite Hd' in Hd2. by injection Hd2 as ->.
Qed.

Lemma cache_get_run n id c :
  idle n c -> aux_page id ->
  exists t', cache_get id c = (Ret (page_of (ec_store c) id), with_store t' c) /\ same n (ec_store c) t'.
Proof.
  intros [Hg _] Ha. destruct (law_cache_get n id (ec_store c) Hg Ha) as (t' & Hr & Hs).
  exists t'. split; [|done]. unfold cache_get. by rewrite Hr.
Qed.

Lemma same_idle n c t' : idle n c -> same n (ec_store c) t' -> idle n (with_store t' c).
Proof. intros [Hg Hd] []. split; cbn; congruence || done. Qed.

Lemma same_trans n t t' t'' : same n t t' -> same n t' t'' -> same n t t''.
Proof. intros [] []. split; try congruence. by eapply same_tree_trans. Qed.

Lemma same_refl n t : good n t -> same n t t.
Proof. by split. Qed.

(** A transaction without a deadline of its own does not look at the clock. *)
Lemma ensure_run x (c : EmbeddedCompute T) : tx_timeout x = None -> ensure_not_timed_out (x, c) = (Ret tt, (x, c)).
Proof. intros Ht. unfold ensure_not_timed_out. rewrite get_tx_bind. cbn [fst]. by rewrite Ht. Qed.

(** ** The pages a transaction reads *)

Definition seen (x : EmbeddedTxn) (t : T) (id : PageId) : option Page :=
  match tx_dirty x !! id with
  | Some p => Some p
  | None => match tx_ro_cache x !! id with Some p => Some p | None => page_of t id end
  end.

Definition with_ro (r : gmap Z (list Z)) (x : EmbeddedTxn) : EmbeddedTxn := with_pages (tx_dirty x) (tx_bptree_dirty x) r x.

(** A read keeps what the transaction sees. *)
Record read_step (n : nat) (x : EmbeddedTxn) (t : T) (x' : EmbeddedTxn) (t' : T) : Prop := {
  rs_same : same n t t';
  rs_txn : exists r, x' = with_ro r x;
  rs_seen : forall id, seen x' t' id = seen x t id
}.

Lemma read_step_refl n x t : good n t -> read_step n x t x t.
Proof. split; [by apply same_refl|exists (tx_ro_cache x); unfold with_ro; by rewrite with_pages_id|done]. Qed.

Lemma read_step_trans n x t x' t' x'' t'' : read_step n x t x' t' -> read_step n x' t' x'' t'' -> read_step n x t x'' t''.
Proof.
  intros [S1 (r1 & ->) E1] [S2 (r2 & ->) E2]. split.
  - by eapply same_trans.
  - exists r2. done.
  - intros i. by rewrite E2, E1.
Qed.

Lemma same_seen n x t t' id : same n t t' -> seen x t' id = seen x t id.
Proof. intros []. unfold seen. repeat case_match; congruence || done. Qed.

Lemma get_page_for_read_run n pid p x c :
  idle n c -> aux_page pid -> seen x (ec_store c) pid = Some p ->
  exists x' t', get_page_for_read pid (x, c) = (Ret (Some p), (x', with_store t' c)) /\ read_step n x (ec_store c) x' t'.
Proof.
  intros Hi Ha Hs. unfold get_page_for_read. rewrite get_tx_bind. cbn [fst id]. unfold seen in Hs.
  destruct (tx_dirty x !! pid) as [q|] eqn:Ed; [injection Hs as ->; exists x, (ec_store c); split;
    [by destruct c|apply read_step_refl, Hi]|].
  destruct (tx_ro_cache x !! pid) as [q|] eqn:Er; [injection Hs as ->; exists x, (ec_store c); split;
    [by destruct c|apply read_step_refl, Hi]|].
  destruct (cache_get_run n pid c Hi Ha) as (t' & Hr & Hsm). rewrite Hs in Hr.
  rewrite (st_bind_ret _ _ _ _ _ (on_compute_run _ x c _ _ Hr)).
  exists (with_ro (<[pid := p]> (tx_ro_cache x)) x), t'. split; [done|]. split; [done|by eexists|].
  intros i. unfold seen. cbn [with_ro with_pages tx_dirty tx_ro_cache]. rewrite (same_pages _ _ _ Hsm).
  destruct (tx_dirty x !! i) eqn:?; [done|]. destruct (decide (i = pid)) as [->|].
  - by rewrite lookup_insert_eq, Er.
  - by rewrite lookup_insert_ne.
Qed.

(** ** Versions *)

(** The undo records that [undo] leads to, newest first. *)
Inductive chain (pages : PageId -> option Page) : option UndoPtr -> list (UndoPtr * UndoRecord) -> Prop :=
| chain_nil : chain pages None []
| chain_cons ptr page rec l :
    aux_page (up_page_id ptr) -> 0 <= up_slot_id ptr ->
    pages (up_page_id ptr) = Some page -> Undo.read_record_ref page (up_slot_id ptr) = Ret rec ->
    chain pages (prev rec) l -> chain pages (Some ptr) ((ptr, rec) :: l).

(** The commit LSN, the flags and the value of a version. *)
Definition version : Type := Z * Z * bytes.

Definition undo_version (r : UndoRecord) : version := (old_commit_lsn r, old_flags r, old_value r).
Definition row_version (row : LeafValue) : version := (commit_lsn (lv_meta row), flags (lv_meta row), lv_value row).

Definition versions (row : LeafValue) (l : list (UndoPtr * UndoRecord)) : list version :=
  row_version row :: ((fun e => undo_version e.2) <$> l).

(** The newest version that was committed at [read_lsn]; a deletion shows nothing. *)
Fixpoint visible (read_lsn : Z) (vs : list version) : option bytes :=
  match vs with
  | [] => None
  | (lsn, fl, value) :: vs =>
      if has_flag FLAG_INTENT fl then visible read_lsn vs else
      if lsn <=? read_lsn then (if has_flag FLAG_TOMBSTONE fl then None else Some value)
      else visible read_lsn vs
  end.

Definition shown (v : option bytes) : bool := match v with Some _ => true | None => false end.

Lemma chain_seen n x t x' t' u l : read_step n x t x' t' -> chain (seen x t) u l -> chain (seen x' t') u l.
Proof. intros Hs. induction 1; econstructor; try done. by rewrite (rs_seen _ _ _ _ _ Hs). Qed.

Lemma undo_record_run n ptr rec page x c :
  idle n c -> aux_page (up_page_id ptr) -> seen x (ec_store c) (up_page_id ptr) = Some page ->
  Undo.read_record_ref page (up_slot_id ptr) = Ret rec ->
  exists x' t', undo_record ptr (x, c) = (Ret rec, (x', with_store t' c)) /\ read_step n x (ec_store c) x' t'.
Proof.
  intros Hi Ha Hs Hr. destruct (get_page_for_read_run n _ page x c Hi Ha Hs) as (x' & t' & Hg & Hst).
  exists x', t'. split; [|done]. unfold undo_record. rewrite (st_bind_ret _ _ _ _ _ Hg). cbn [ok_or].
  rewrite (st_bind_lift _ _ _ page) by done. unfold lift. by rewrite Hr.
Qed.

Lemma read_step_idle n x c x' t' : idle n c -> read_step n x (ec_store c) x' t' -> idle n (with_store t' c).
Proof. intros Hi [Hs _ _]. by eapply same_idle. Qed.

Lemma read_step_lsn n x t x' t' : read_step n x t x' t' -> tx_read_lsn x' = tx_read_lsn x.
Proof. by intros [_ (r & ->) _]. Qed.

Lemma read_visible_run n fuel u l : forall x c,
  idle n c -> chain (seen x (ec_store c)) u l -> (length l <= fuel)%nat ->
  exists x' t', read_visible_from_undo fuel u (x, c) =
    (Ret (visible (tx_read_lsn x) ((fun e => undo_version e.2) <$> l)), (x', with_store t' c)) /\
    read_step n x (ec_store c) x' t'.
Proof.
  revert u l. induction fuel as [|fuel IH]; intros u l x c Hi Hc Hf; destruct Hc as [|ptr page rec l Ha Hsl Hp Hr Hc].
  1, 3: exists x, (ec_store c); split; [by destruct c|apply read_step_refl, Hi].
  { cbn in Hf. lia. }
  destruct (undo_record_run n ptr rec page x c Hi Ha Hp Hr) as (x1 & t1 & H1 & S1).
  cbn [read_visible_from_undo]. rewrite (st_bind_ret _ _ _ _ _ H1). rewrite get_tx_bind. cbn [fst].
  rewrite (read_step_lsn _ _ _ _ _ S1).
  destruct (IH (prev rec) l x1 (with_store t1 c) (read_step_idle _ _ _ _ _ Hi S1)) as (x2 & t2 & H2 & S2);
    [by eapply chain_seen|cbn in Hf; lia|].
  rewrite (read_step_lsn _ _ _ _ _ S1) in H2.
  cbn [fmap list_fmap snd]. unfold undo_version at 1. cbn [visible].
  destruct (has_flag FLAG_INTENT (old_flags rec)); [exists x2, t2; split; [exact H2|by eapply read_step_trans]|].
  destruct (old_commit_lsn rec <=? tx_read_lsn x); [exists x1, t1; by split|].
  exists x2, t2. split; [exact H2|by eapply read_step_trans].
Qed.

Lemma read_visible_exists_run n fuel u l : forall x c,
  idle n c -> chain (seen x (ec_store c)) u l -> (length l <= fuel)%nat ->
  exists x' t', read_visible_exists_from_undo fuel u (x, c) =
    (Ret (shown (visible (tx_read_lsn x) ((fun e => undo_version e.2) <$> l))), (x', with_store t' c)) /\
    read_step n x (ec_store c) x' t'.
Proof.
  revert u l. induction fuel as [|fuel IH]; intros u l x c Hi Hc Hf; destruct Hc as [|ptr page rec l Ha Hsl Hp Hr Hc].
  1, 3: exists x, (ec_store c); split; [by destruct c|apply read_step_refl, Hi].
  { cbn in Hf. lia. }
  destruct (undo_record_run n ptr rec page x c Hi Ha Hp Hr) as (x1 & t1 & H1 & S1).
  cbn [read_visible_exists_from_undo]. rewrite (st_bind_ret _ _ _ _ _ H1). rewrite get_tx_bind. cbn [fst].
  rewrite (read_step_lsn _ _ _ _ _ S1).
  destruct (IH (prev rec) l x1 (with_store t1 c) (read_step_idle _ _ _ _ _ Hi S1)) as (x2 & t2 & H2 & S2);
    [by eapply chain_seen|cbn in Hf; lia|].
  rewrite (read_step_lsn _ _ _ _ _ S1) in H2.
  cbn [fmap list_fmap snd]. unfold undo_version at 1. cbn [visible].
  destruct (has_flag FLAG_INTENT (old_flags rec)); [exists x2, t2; split; [exact H2|by eapply read_step_trans]|].
  destruct (old_commit_lsn rec <=? tx_read_lsn x).
  - exists x1, t1. split; [|done]. by destruct (has_flag FLAG_TOMBSTONE (old_flags rec)).
  - exists x2, t2. split; [exact H2|by eapply read_step_trans].
Qed.

(** A reader does not wait for the row: a committed row, or an intent of another transaction placed
    after its snapshot. *)
Definition unblocked (x : EmbeddedTxn) (row : LeafValue) : Prop :=
  has_flag FLAG_INTENT (flags (lv_meta row)) = false \/
  (tx_undo_txn_id x <> Some (intent_txn_id (lv_meta row)) /\ tx_read_lsn x < intent_lsn (lv_meta row)).

(** What a snapshot shows of a key. *)
Inductive sees (x : EmbeddedTxn) (t : T) (key : bytes) : nat -> option bytes -> Prop :=
| sees_absent : rows t !! key = None -> sees x t key 0 None
| sees_row row l :
    rows t !! key = Some row -> unblocked x row -> chain (seen x t) (undo_ptr (lv_meta row)) l ->
    sees x t key (length l) (visible (tx_read_lsn x) (versions row l)).

Lemma chain_same n x t t' u l : same n t t' -> chain (seen x t) u l -> chain (seen x t') u l.
Proof. intros Hs. induction 1; econstructor; try done. by rewrite (same_seen n x t). Qed.

Lemma read_look_run n fuel looks key x c k o :
  idle n c -> zlen key = KEY_SIZE -> tx_timeout x = None -> sees x (ec_store c) key k o -> (k < fuel)%nat ->
  exists x' t', read_visible_value_loop fuel (S looks) key (x, c) = (Ret o, (x', with_store t' c)) /\ read_step n x (ec_store c) x' t'.
Proof.
  intros Hi Hk Ht Hs Hf.
  destruct (tree_get_run n key x c Hi Hk) as (t1 & H1 & S1). pose proof (same_idle n c t1 Hi S1) as Hi1.
  assert (St : read_step n x (ec_store c) x t1).
  { split; [done|exists (tx_ro_cache x); unfold with_ro; by rewrite with_pages_id|intros i; by eapply same_seen]. }
  cbn [read_visible_value_loop]. rewrite (st_bind_ret _ _ _ _ _ (ensure_run x c Ht)).
  rewrite (st_bind_ret _ _ _ _ _ H1). destruct Hs as [Hr|row l Hr Hu Hc]; rewrite Hr; [by exists x, t1|].
  rewrite get_tx_bind. cbn [fst id].
  destruct (read_visible_run n fuel (undo_ptr (lv_meta row)) l x (with_store t1 c) Hi1) as (x2 & t2 & H2 & S2);
    [by eapply chain_same|lia|].
  assert (S3 : read_step n x (ec_store c) x2 t2) by (by eapply read_step_trans).
  unfold versions, row_version. cbn [visible]. destruct Hu as [Hfl|[Hown Hlt]].
  - rewrite Hfl. destruct (commit_lsn (lv_meta row) <=? tx_read_lsn x); [by exists x, t1|by exists x2, t2].
  - destruct (has_flag FLAG_INTENT (flags (lv_meta row))).
    + rewrite bool_decide_false by done. destruct (Z.ltb_spec (tx_read_lsn x) (intent_lsn (lv_meta row))); [|lia]. by exists x2, t2.
    + destruct (commit_lsn (lv_meta row) <=? tx_read_lsn x); [by exists x, t1|by exists x2, t2].
Qed.

Lemma read_row_run n fuel key x c k o :
  idle n c -> zlen key = KEY_SIZE -> tx_timeout x = None -> sees x (ec_store c) key k o -> (k < fuel)%nat ->
  exists x' t', read_visible_value_from_row fuel key (x, c) = (Ret o, (x', with_store t' c)) /\ read_step n x (ec_store c) x' t'.
Proof.
  intros Hi Hk Ht Hs Hf. destruct fuel as [|fuel]; [lia|]. by eapply read_look_run.
Qed.

Lemma read_exists_run n fuel key x c k o :
  idle n c -> zlen key = KEY_SIZE -> tx_timeout x = None -> sees x (ec_store c) key k o -> (k < fuel)%nat ->
  exists x' t', read_visible_exists_from_row fuel key (x, c) = (Ret (shown o), (x', with_store t' c)) /\ read_step n x (ec_store c) x' t'.
Proof.
  intros Hi Hk Ht Hs Hf. destruct fuel as [|fuel]; [lia|].
  destruct (tree_get_run n key x c Hi Hk) as (t1 & H1 & S1). pose proof (same_idle n c t1 Hi S1) as Hi1.
  assert (St : read_step n x (ec_store c) x t1).
  { split; [done|exists (tx_ro_cache x); unfold with_ro; by rewrite with_pages_id|intros i; by eapply same_seen]. }
  unfold read_visible_exists_from_row. cbn [read_visible_exists_loop]. rewrite (st_bind_ret _ _ _ _ _ (ensure_run x c Ht)).
  rewrite (st_bind_ret _ _ _ _ _ H1). destruct Hs as [Hr|row l Hr Hu Hc]; rewrite Hr; [by exists x, t1|].
  rewrite get_tx_bind. cbn [fst id].
  destruct (read_visible_exists_run n (S fuel) (undo_ptr (lv_meta row)) l x (with_store t1 c) Hi1) as (x2 & t2 & H2 & S2);
    [by eapply chain_same|lia|].
  assert (S3 : read_step n x (ec_store c) x2 t2) by (by eapply read_step_trans).
  assert (Hself : row_exists (lv_meta row) =
    shown (if has_flag FLAG_TOMBSTONE (flags (lv_meta row)) then None else Some (lv_value row))).
  { unfold row_exists. by destruct (has_flag FLAG_TOMBSTONE _). }
  unfold versions, row_version. cbn [visible]. destruct Hu as [Hfl|[Hown Hlt]].
  - rewrite Hfl. destruct (commit_lsn (lv_meta row) <=? tx_read_lsn x); [rewrite <-Hself; by exists x, t1|by exists x2, t2].
  - destruct (has_flag FLAG_INTENT (flags (lv_meta row))).
    + rewrite bool_decide_false by done. destruct (Z.ltb_spec (tx_read_lsn x) (intent_lsn (lv_meta row))); [|lia]. by exists x2, t2.
    + destruct (commit_lsn (lv_meta row) <=? tx_read_lsn x); [rewrite <-Hself; by exists x, t1|by exists x2, t2].
Qed.

End Runs.
