(* ===== verification/TreeStore.v ===== *)
(** * TreeStore: the compute node's store is a B+tree over the page cache

    [ComputeSpec] states what the compute node relies on.  Here the real store keeps those
    laws: the tree of src/src/page_bptree.rs over [TxnPageProvider] of
    src/src/txn_page_provider.rs and its page cache, as long as the cache has room for the
    pages that an operation may add and the ids of the tree stay below those of the undo
    pages and below the number of latch stripes.  [page_rows] is the abstraction function: the rows of the leaves, from the
    pages. *)

From stdpp Require Import base numbers list list_numbers gmap fin_maps sorting.
From S2P Require Import Prelude Common SlottedPage UndoPage MetaPage WalCodec Mvcc PageStore Node Sequencer Secondary BtreePage Latch Provider Cache CacheLaws Btree BtreeInv BtreeRun BtreeInsert BtreeMap BtreeCalm Compute ComputeSpec.
Import Bp BpSpec Btree.

#[global] Arguments roomy_leaf : simpl never.
#[global] Arguments spare_leaf : simpl never.

(** ** The rows of a tree *)

Fixpoint page_rows (fuel : nat) (ps : pmap) (id : PageId) : list entry :=
  match fuel with
  | O => []
  | S fuel =>
      match ps !! id with
      | None => []
      | Some p =>
          match page_header p, collect_entries p with
          | Ret h, Ret es =>
              if page_type h =? PAGE_TYPE_LEAF then es
              else mjoin (page_rows fuel ps <$> left_child h :: ((fun e => le_val e.2) <$> es))
          | _, _ => []
          end
      end
  end.

Lemma page_rows_ok {R : IdRange} ps :
  (forall n id lo hi f nx fp kvs, tree ps n id lo hi f nx fp kvs ->
     forall fuel, (n < fuel)%nat -> page_rows fuel ps id = kvs) /\
  (forall n lo hi c es f nx fp kvs, forest ps n lo hi c es f nx fp kvs ->
     forall fuel, (n < fuel)%nat -> mjoin (page_rows fuel ps <$> c :: ((fun e => le_val e.2) <$> es)) = kvs).
Proof.
  apply (tree_forest_ind ps).
  - intros id h es lo hi nx (p & Hp & Hrep) Hty _ _ _ _ _ [|fuel] Hf; [lia|]. cbn [page_rows].
    rewrite Hp, (rep_header p h es Hrep), (collect_entries_ok p h es Hrep), Hty. done.
  - intros n id h es lo hi f nx fp kvs (p & Hp & Hrep) Hty _ _ _ IH [|fuel] Hf; [lia|]. cbn [page_rows].
    rewrite Hp, (rep_header p h es Hrep), (collect_entries_ok p h es Hrep), leaf_page_type by done. apply IH. lia.
  - intros n c lo hi f nx fp kvs _ IH fuel Hf. cbn. by rewrite app_nil_r, IH.
  - intros n c c' k es lo hi f f' nx fp fp' kvs kvs' _ _ _ IH Hfo IH' fuel Hf.
    destruct (proj2 (tree_forest_ids ps) _ _ _ _ _ _ _ _ _ Hfo) as (Hid & _).
    assert (Hc : le_val (le_bytes 8 c') = c') by (apply le_val_u64; apply id_in_u64 in Hid; lia).
    change (page_rows fuel ps c ++ mjoin (page_rows fuel ps <$> le_val (le_bytes 8 c') :: ((fun e => le_val e.2) <$> es)) = kvs ++ kvs').
    by rewrite Hc, IH, IH'.
Qed.

Definition rows_of (ps : pmap) (root : PageId) : lvmap := lv_of_bytes <$> to_map (page_rows 64 ps root).
Arguments rows_of : simpl never.

Lemma tree_ok_rows {R : IdRange} {P : Type} `{PageProviderLaws P} (t : PageBPlusTree P) m :
  tree_ok t m -> rows_of (v_pages (vw t)) (v_root (vw t)) = m.
Proof.
  intros (_ & n & f & fp & kvs & Hrd & Hmap & Hok & _ & Hn). pose proof (ready_height _ _ _ _ _ _ _ Hrd Hn).
  unfold rows_of. rewrite (proj1 (page_rows_ok _) _ _ _ _ _ _ _ _ (rd_tree _ _ _ _ _ _ _ _ _ Hrd)) by lia.
  apply map_eq. intros k. by rewrite lookup_fmap, Hmap, lookup_encode.
Qed.

(** ** The provider keeps the laws of the tree *)

Lemma btree_encode_ret m : exists p, BtreeMetaPage.btree_encode m = Ret p.
Proof.
  assert (zlen BtreeMetaPage.BTREE_MAGIC = 8) as Hmg by reflexivity. unfold BtreeMetaPage.btree_encode.
  rewrite put_range_ok by clia. cbn [mbind outcome_bind].
  do 2 (rewrite put_range_ok by clia; cbn [mbind outcome_bind]). by eexists.
Qed.

(** The ids of tree pages: from the first root to the first undo page. *)
Definition tree_page (id : PageId) : Prop := Compute.Compute.BPTREE_ROOT_ID <= id < UNDO_BASE.
#[global] Instance tree_page_dec id : Decision (tree_page id).
Proof. unfold tree_page. apply _. Defined.
#[global] Instance aux_page_dec id : Decision (aux_page id).
Proof. unfold aux_page. apply _. Defined.

(** What the cache has to have room for. *)
Definition reserved (R : IdRange) (id : PageId) : Prop :=
  id = BtreeMetaPage.BTREE_META_PAGE_ID \/ id_lo <= id < id_hi.

Section Provider.
Context {C : Type} {L : LruCache C} {LL : LruLaws C} {W : Type} {F : Fetch W}.

Abbreviation TP := (TxnProvider.TxnPageProvider C W) (only parsing).

Record txn_ok (k : Z) (R : IdRange) (p : TP) : Prop := {
  to_cache : cache_ok (reserved R) k (TxnProvider.tp_pages p);
  to_meta : TxnProvider.tp_btree_meta_page_id p = BtreeMetaPage.BTREE_META_PAGE_ID;
  to_lo : Compute.Compute.BPTREE_ROOT_ID <= id_lo;
  to_hi : id_hi <= UNDO_BASE;
  to_stripes : id_hi <= zlen (stripes (latches (TxnProvider.tp_pages p)))
}.

Definition tree_pages (c : PageCache C) : pmap := filter (fun e => tree_page e.1) (cached_map c).
Definition aux_pages (c : PageCache C) : pmap := filter (fun e => aux_page e.1) (cached_map c).

Definition txn_view (p : TP) : pview (pmap * W) :=
  mkPview (tree_pages (TxnProvider.tp_pages p)) (TxnProvider.tp_next_page_id p) (TxnProvider.tp_root p) (TxnProvider.tp_dirty p)
    (Some (TxnProvider.tp_btree_meta_page_id p)) (aux_pages (TxnProvider.tp_pages p), TxnProvider.tp_world p).

Lemma cached_map_same (c c' : PageCache C) : (forall j, cached c' j = cached c j) -> cached_map c' = cached_map c.
Proof. intros Hc. apply map_eq. intros j. by rewrite !cached_map_lookup. Qed.

Lemma cached_map_put (c c' : PageCache C) id pg :
  (forall j, cached c' j = if decide (j = id) then Some pg else cached c j) -> cached_map c' = <[id := pg]> (cached_map c).
Proof.
  intros Hc. apply map_eq. intros j. rewrite cached_map_lookup, Hc.
  case_decide as E; [subst; by rewrite lookup_insert_eq|by rewrite lookup_insert_ne, cached_map_lookup].
Qed.

Lemma get_latches id (c c' : PageCache C) o : PageCacheM.get_arc id c = (o, c') -> latches c' = latches c.
Proof. unfold PageCacheM.get_arc. destruct (_ !! _) as [s|]; [destruct (lru_get id s)|]; by intros [= _ <-]. Qed.

Lemma tree_not_aux id : tree_page id -> ~ aux_page id.
Proof. unfold tree_page, aux_page, META_PAGE_ID, SECONDARY_INDEX_META_PAGE_ID, Compute.Compute.BPTREE_ROOT_ID. lia. Qed.

Lemma meta_not_tree : ~ tree_page BtreeMetaPage.BTREE_META_PAGE_ID /\ ~ aux_page BtreeMetaPage.BTREE_META_PAGE_ID.
Proof.
  unfold tree_page, aux_page, META_PAGE_ID, SECONDARY_INDEX_META_PAGE_ID, Compute.Compute.BPTREE_ROOT_ID, BtreeMetaPage.BTREE_META_PAGE_ID, UNDO_BASE. lia.
Qed.

Lemma txn_write_ok k R id pg p :
  0 <= k -> txn_ok k R p -> reserved R id ->
  txn_ok k R (TxnProvider.write_page id pg p) /\
  cached_map (TxnProvider.tp_pages (TxnProvider.write_page id pg p)) = <[id := pg]> (cached_map (TxnProvider.tp_pages p)).
Proof.
  intros Hk [Hc Hm Hlo Hhi Hst] Hid.
  destruct (insert_ok (reserved R) k k _ id pg Hc) as [Hc' Hl]; [lia|by right; left|].
  split; [by split|]. by apply cached_map_put.
Qed.

(** Room for [k] pages more. *)
Definition txn_laws (k : nat) : PageProviderLaws TP.
Proof.
  refine {| provider_rest := pmap * W; view_of := txn_view; provider_ok := txn_ok (Z.of_nat k) |}.
  - reflexivity.
  - by intros R p [].
  - intros R id pg p [Hc Hm Hlo Hhi Hst] Hp. cbn in Hp. apply map_lookup_filter_Some in Hp as [Hp _]. rewrite cached_map_lookup in Hp.
    destruct (get_ok _ _ _ id Hc) as (c' & Hg & Hc' & Hs). cbn. unfold TxnProvider.read_page. rewrite Hg, Hp.
    eexists. split; [reflexivity|]. split; [split; try done; cbn; by rewrite (get_latches _ _ _ _ Hg)|]. unfold txn_view, tree_pages, aux_pages. cbn.
    by rewrite (cached_map_same _ _ Hs).
  - intros R id pg p Hok Hid. assert (Ht : tree_page id) by (destruct Hok; unfold tree_page; lia).
    destruct (txn_write_ok _ R id pg p (Nat2Z.is_nonneg k) Hok) as [Hok' Hm]; [by right|]. split; [done|].
    unfold txn_view, tree_pages, aux_pages, pv_put. cbn [pv_pages pv_next pv_root pv_dirty pv_meta pv_rest]. cbn in Hm |- *.
    rewrite Hm. rewrite map_filter_insert_True, (map_filter_insert_not _ _ id) by (first [done|intros; by apply tree_not_aux]). done.
  - intros R p [Hc Hm Hlo Hhi Hst]. eexists. split; [reflexivity|]. by split.
  - intros R id p [Hc Hm Hlo Hhi Hst]. cbn. unfold TxnProvider.set_root_page_id.
    destruct (btree_encode_ret {| btree_root_page_id := id |}) as (pg & He). rewrite He.
    set (q := TxnProvider.mkTxnProvider _ _ _ _ _ _).
    destruct (txn_write_ok _ R (TxnProvider.tp_btree_meta_page_id p) pg q (Nat2Z.is_nonneg k)) as [Hok' Hmp]; [by split|by left|].
    split; [done|]. unfold txn_view, tree_pages, aux_pages, pv_at_root, note_root.
    cbn [pv_pages pv_next pv_root pv_dirty pv_meta pv_rest]. rewrite He. cbn in Hmp |- *. rewrite Hmp, Hm.
    destruct meta_not_tree. by rewrite !map_filter_insert_not by done.
Defined.

End Provider.

(** ** The store keeps the laws of the compute node *)

Section Store.
Context {C : Type} {L : LruCache C} {LL : LruLaws C}.

Abbreviation TP := (TxnProvider.TxnPageProvider C Storage) (only parsing).
Abbreviation TT := (PageBPlusTree TP) (only parsing).
Abbreviation cache t := (TxnProvider.tp_pages (provider t)) (only parsing).

Definition store_ok (n : nat) (R : IdRange) (t : TT) (m : lvmap) : Prop := @tree_ok R TP TxnProvider.txn_provider (txn_laws n) t m.

(** Each insertion of a row needs at most 66 new pages. *)
#[global] Instance tree_view : StoreView TT := {
  good n t := exists R m, store_ok n R t m /\ TxnProvider.tp_next_page_id (provider t) + 66 * Z.of_nat n + 62 <= id_hi;
  rows t := rows_of (tree_pages (cache t)) (TxnProvider.tp_root (provider t));
  page_of t id := aux_pages (cache t) !! id;
  settles t id pg := tree_pages (cache t) !! id = Some pg \/ id = BtreeMetaPage.BTREE_META_PAGE_ID;
  roomy_of t k := roomy_leaf TREE_FUEL (tree_pages (cache t)) (TxnProvider.tp_root (provider t)) k;
  spare_of t k := match roomy_leaf TREE_FUEL (tree_pages (cache t)) (TxnProvider.tp_root (provider t)) k with
    | Some leaf => spare_leaf (tree_pages (cache t)) leaf
    | None => false
    end
}.

Lemma same_pages_tree (t t' : TT) :
  tree_pages (cache t') = tree_pages (cache t) -> TxnProvider.tp_root (provider t') = TxnProvider.tp_root (provider t) -> same_tree t t'.
Proof. intros Hp Hr. split; [intros id pg; cbn; by rewrite Hp|split; intros k; cbn; by rewrite Hp, Hr]. Qed.

Lemma store_ok_rows n R t m : store_ok n R t m -> rows t = m.
Proof.
  intros Hok. rewrite <-(@tree_ok_rows R TP TxnProvider.txn_provider (txn_laws n) t m Hok).
  change (rows t) with (rows_of (tree_pages (cache t)) (TxnProvider.tp_root (provider t))). by apply (f_equal2 rows_of).
Qed.

(** The relation does not depend on the dirty pages, the other pages and the storage. *)
Lemma store_ok_change n n' R t t' m :
  store_ok n R t m -> txn_ok (Z.of_nat n') R (provider t') -> tree_pages (cache t') = tree_pages (cache t) ->
  TxnProvider.tp_next_page_id (provider t') = TxnProvider.tp_next_page_id (provider t) ->
  TxnProvider.tp_root (provider t') = TxnProvider.tp_root (provider t) -> len t' = len t -> store_ok n' R t' m.
Proof.
  intros (_ & k & f & fp & kvs & [Ht Hnd Hbl Hn] & Hmap & Hok & Hlen & Hu) Ho Hp Hnx Hr Hl. split; [done|].
  exists k, f, fp, kvs. cbn in *. rewrite Hr, Hl. split; [|by rewrite Hnx]. split; cbn; by rewrite ?Hp, ?Hnx.
Qed.

Lemma store_ok_txn n R t m : store_ok n R t m -> txn_ok (Z.of_nat n) R (provider t).
Proof. by intros [Ho _]. Qed.

Lemma kept_same_store n R (t t' : TT) :
  @kept R TP TxnProvider.txn_provider (txn_laws n) t t' ->
  (forall id, page_of t' id = page_of t id) /\ cs_storage t' = cs_storage t.
Proof.
  intros (_ & Hr & _). unfold rest in Hr. cbn in Hr. injection Hr as Ha Hw. split; [|done].
  intros id. cbn. by rewrite Ha.
Qed.

(** The pages the tree notes are its pages. *)
Lemma kept_dirty n R (t t' : TT) d :
  @kept R TP TxnProvider.txn_provider (txn_laws n) t t' ->
  TxnProvider.tp_btree_meta_page_id (provider t) = BtreeMetaPage.BTREE_META_PAGE_ID -> cs_dirty t = Some d ->
  exists d', cs_dirty t' = Some d' /\ (forall i, is_Some (d !! i) -> is_Some (d' !! i)) /\ (settled t d -> settled t' d') /\
    (forall m, backed t (d ∪ m) -> backed t' (d' ∪ m)).
Proof.
  intros (_ & _ & [_ _ Hd]) Hm Hs. destruct (Hd d Hs) as (d' & Hd' & Hi). exists d'. split; [exact Hd'|].
  cbn in Hi. rewrite Hm in Hi. split_and!.
  - intros i Hsome. destruct (Hi i) as [[-> _]|(p & -> & _)]; [done|by exists p].
  - intros Hset i pg Hpg. destruct (Hi i) as [[E Hp]|(p & E & Hz & Hp)].
    + rewrite E in Hpg. destruct (Hset i pg Hpg) as [Hz Hst]. split; [done|]. cbn in Hst |- *.
      destruct (decide (i = BtreeMetaPage.BTREE_META_PAGE_ID)) as [|Hne]; [by right|]. left. destruct Hst as [Hst|]; [|done].
      rewrite Hp; [done|congruence].
    + rewrite E in Hpg. injection Hpg as <-. split; [done|]. cbn. destruct Hp as [[= <-]|Hp]; [by right|by left].
  - intros m Hb i pg [Hpg| ->] Hne; [|done]. destruct (Hi i) as [[E Hp]|(p & E & Hz & Hp)].
    + rewrite lookup_union, E, <-lookup_union. apply Hb; [|done]. left. rewrite <-Hp by congruence. done.
    + rewrite lookup_union, E. destruct Hp as [[= <-]|Hp]; [done|]. change (tree_pages (cache t') !! i = Some p) in Hp.
      rewrite Hpg in Hp. injection Hp as ->. by destruct (m !! i).
Qed.

(** A change of the cache that leaves the tree's pages. *)
Lemma cache_change n n' (t : TT) c' :
  good n t -> (forall R, txn_ok (Z.of_nat n) R (provider t) -> cache_ok (reserved R) (Z.of_nat n') c') -> (n' <= n)%nat ->
  latches c' = latches (cache t) -> tree_pages c' = tree_pages (cache t) -> good n' (on_provider (TxnProvider.with_cache c') t).
Proof.
  intros (R & m & Hok & Hroom) Hc Hle Hla Htp. pose proof (store_ok_txn _ _ _ _ Hok) as Ho. pose proof (Hc R Ho) as Hc'.
  destruct Ho as [_ Hm Hlo Hhi Hst]. exists R, m. split; [|cbn; lia]. eapply store_ok_change; [exact Hok|split; try done; cbn; by rewrite Hla|exact Htp|done..].
Qed.

Lemma tree_law_get n k (t : TT) : good n t -> exists t', cs_get k t = (Ret (rows t !! k), t') /\ same n t t'.
Proof.
  intros (R & m & Hok & Hroom). destruct (@tree_ok_get R TP _ (txn_laws n) t m k Hok) as (t' & Hg & Hv & Hk).
  exists t'. rewrite (store_ok_rows _ _ _ _ Hok). split; [exact Hg|].
  destruct (kept_same_store _ _ _ _ Hk) as (Hp & Hs).
  assert (Hok' : store_ok n R t' m) by (eapply tree_ok_view; [exact Hv|apply Hk|exact Hok]).
  split; [|by rewrite (store_ok_rows _ _ _ _ Hok), (store_ok_rows _ _ _ _ Hok')|done|exact (f_equal v_dirty Hv)|done|].
  - exists R, m. split; [done|]. pose proof (f_equal v_next Hv) as Hn. cbn in Hn. by rewrite Hn.
  - apply same_pages_tree; [exact (f_equal v_pages Hv)|exact (f_equal v_root Hv)].
Qed.

Lemma tree_law_insert n k v (t : TT) :
  good (S n) t -> zlen k = KEY_SIZE -> lv_ok v ->
  exists t', cs_insert k v t = (Ret tt, t') /\ row_changed n t t' (<[k := v]> (rows t)).
Proof.
  intros (R & m & Hok & Hroom) Hkey Hv. destruct (store_ok_txn _ _ _ _ Hok) as [_ Hm _ _ _].
  destruct (@tree_ok_insert R TP _ (txn_laws (S n)) TREE_FUEL t m k v Hok Hkey Hv) as (t' & Hi & Hok' & Hk & Hn);
    [unfold TREE_FUEL; lia|cbn; lia|].
  exists t'. split; [exact Hi|]. destruct (kept_same_store _ _ _ _ Hk) as (Hp & Hs).
  rewrite (store_ok_rows _ _ _ _ Hok). split; [|by apply (store_ok_rows (S n) R)|done|intros d; by eapply kept_dirty|done].
  exists R, (<[k := v]> m). cbn in Hn. split; [|lia].
  eapply store_ok_change; [exact Hok'| |done..]. destruct (store_ok_txn _ _ _ _ Hok') as [Hc ? ? ? ?]. split; try done.
  apply cache_ok_less. by replace (Z.of_nat n + 1) with (Z.of_nat (S n)) by lia.
Qed.

Lemma tree_law_rewrite n k v (t t' : TT) p d :
  good (S n) t -> zlen k = KEY_SIZE -> lv_ok v -> is_Some (rows t !! k) -> roomy_of t k = Some p ->
  cs_dirty t = Some d -> cs_insert k v t = (Ret tt, t') ->
  (forall k', roomy_of t' k' = roomy_of t k') /\ exists d', cs_dirty t' = Some d' /\ dom d' = {[p]} ∪ dom d.
Proof.
  intros (R & m & Hok & _) Hkey Hv Hin Hr Hd Hi. rewrite (store_ok_rows _ _ _ _ Hok) in Hin.
  destruct (@tree_ok_overwrite R TP _ (txn_laws (S n)) TREE_FUEL t m k v p Hok Hkey Hv Hin Hr) as (p' & Hrun & Hways).
  destruct (Hrun t (store_ok_txn _ _ _ _ Hok) eq_refl) as (t2 & Hi2 & Hv2 & _).
  assert (t' = t2) as ->. { change (insert TREE_FUEL k v t = (Ret tt, t')) in Hi. congruence. }
  pose proof (f_equal v_pages Hv2) as Hp2. pose proof (f_equal v_root Hv2) as Hr2. pose proof (f_equal v_dirty Hv2) as Hd2.
  cbn in Hp2, Hr2, Hd2. split.
  - intros k'. cbn. rewrite Hp2, Hr2. exact (Hways TREE_FUEL k').
  - exists (<[p := p']> d). cbn in Hd. rewrite Hd in Hd2. split; [exact Hd2|apply dom_insert_L].
Qed.

Lemma tree_law_spare n k v (t t' : TT) :
  good (S n) t -> zlen k = KEY_SIZE -> lv_ok v -> rows t !! k = None -> spare_of t k = true -> cs_insert k v t = (Ret tt, t') ->
  exists p, roomy_of t' k = Some p /\ forall d, cs_dirty t = Some d -> exists d', cs_dirty t' = Some d' /\ dom d' = {[p]} ∪ dom d.
Proof.
  intros (R & m & Hok & _) Hkey Hv Hin Hs Hi. rewrite (store_ok_rows _ _ _ _ Hok) in Hin. unfold spare_of, tree_view in Hs.
  destruct (roomy_leaf TREE_FUEL (tree_pages (cache t)) (TxnProvider.tp_root (provider t)) k) as [leaf|] eqn:Hr; [|discriminate Hs].
  destruct (@tree_ok_new_row R TP _ (txn_laws (S n)) TREE_FUEL t m k v leaf Hok Hkey Hv Hin Hr Hs) as (p' & n' & Hrun & Hways).
  destruct (Hrun t (store_ok_txn _ _ _ _ Hok) eq_refl) as (t2 & Hi2 & Hv2 & _).
  assert (t' = t2) as ->. { change (insert TREE_FUEL k v t = (Ret tt, t')) in Hi. congruence. }
  pose proof (f_equal v_pages Hv2) as Hp2. pose proof (f_equal v_root Hv2) as Hr2. cbn in Hp2, Hr2.
  pose proof (f_equal v_dirty Hv2) as Hd2. cbn in Hd2.
  exists leaf. split; [cbn; rewrite Hp2, Hr2; etransitivity; [exact (Hways TREE_FUEL k)|exact Hr]|].
  intros d Hd. cbn in Hd. rewrite Hd in Hd2. exists (<[leaf := p']> d). split; [exact Hd2|apply dom_insert_L].
Qed.

Lemma tree_law_cache_get n id (t : TT) : good n t -> aux_page id ->
  exists t', cs_cache_get id t = (page_of t id, t') /\ same n t t'.
Proof.
  intros Hg Ha. pose proof Hg as (R & m & Hok & _). destruct (store_ok_txn _ _ _ _ Hok) as [Hc _ _ _ _].
  destruct (get_ok _ _ _ id Hc) as (c' & Hget & _ & Hs). pose proof (cached_map_same _ _ Hs) as Hcm.
  exists (on_provider (TxnProvider.with_cache c') t). cbn. unfold PageCacheM.get. rewrite Hget. split.
  { f_equal. unfold aux_pages. destruct (cached (cache t) id) as [pg|] eqn:E; symmetry.
    - apply map_lookup_filter_Some. split; [by rewrite cached_map_lookup|done].
    - apply map_lookup_filter_None. left. by rewrite cached_map_lookup. }
  assert (Htp : tree_pages c' = tree_pages (cache t)) by (unfold tree_pages; by rewrite Hcm).
  split; [|cbn; by rewrite Htp|intros j; cbn; unfold aux_pages; by rewrite Hcm|done|done|by apply same_pages_tree].
  apply (cache_change n n); [done| |done|exact (get_latches _ _ _ _ Hget)|done]. intros R' [Hc' _ _ _ _]. destruct (get_ok _ _ _ id Hc') as (c2 & Hget2 & Hc2 & _).
  rewrite Hget in Hget2. by injection Hget2 as ->.
Qed.

Lemma tree_law_cache_insert n id pg (t : TT) : good (S n) t -> aux_page id -> page_changed n t (cs_cache_insert id pg t) id pg.
Proof.
  intros Hg Ha. pose proof Hg as (R & m & Hok & _). destruct (store_ok_txn _ _ _ _ Hok) as [Hc _ _ _ _].
  destruct (insert_ok (reserved R) (Z.of_nat (S n)) (Z.of_nat n) _ id pg Hc) as [_ Hl]; [lia|right; right; lia|].
  pose proof (cached_map_put _ _ _ _ Hl) as Hcm. fold (PageCacheM.insert id pg (cache t)) in Hcm.
  assert (Htp : tree_pages (PageCacheM.insert id pg (cache t)) = tree_pages (cache t)).
  { unfold tree_pages. rewrite Hcm. apply map_filter_insert_not. intros ? Ht. by apply (tree_not_aux id). }
  split; [|cbn; by rewrite Htp| |done|done|by apply same_pages_tree].
  - apply (cache_change (S n) n); [done| |lia|done|done]. intros R' [Hc' _ _ _ _].
    apply (insert_ok (reserved R') (Z.of_nat (S n)) (Z.of_nat n) _ id pg Hc'); [lia|right; right; lia].
  - intros j. cbn. unfold aux_pages. rewrite Hcm. rewrite map_filter_insert_True by done.
    case_decide as E; [subst; apply lookup_insert_eq|by apply lookup_insert_ne].
Qed.

Lemma tree_law_settle n id pg (t : TT) : good n t -> settles t id pg -> same n t (cs_cache_insert id pg t).
Proof.
  intros Hg Hs. pose proof Hg as (R & m & Hok & _). destruct (store_ok_txn _ _ _ _ Hok) as [Hc _ _ _ _].
  assert (Hroom : forall R', is_Some (cached (cache t) id) \/ reserved R' id \/ Z.of_nat n <= Z.of_nat n - 1).
  { intros R'. cbn in Hs. destruct Hs as [Hs|Hs]; [left|right; left; by left].
    apply map_lookup_filter_Some in Hs as [Hs _]. rewrite cached_map_lookup in Hs. by exists pg. }
  destruct (insert_ok (reserved R) (Z.of_nat n) (Z.of_nat n) _ id pg Hc) as [_ Hl]; [lia|apply Hroom|].
  pose proof (cached_map_put _ _ _ _ Hl) as Hcm. fold (PageCacheM.insert id pg (cache t)) in Hcm.
  destruct meta_not_tree as [Hmt Hma].
  assert (Htp : tree_pages (PageCacheM.insert id pg (cache t)) = tree_pages (cache t)).
  { unfold tree_pages. rewrite Hcm. cbn in Hs. destruct Hs as [Hs| ->]; [|by apply map_filter_insert_not].
    pose proof Hs as [Hs1 Hs2]%map_lookup_filter_Some. by rewrite insert_id. }
  assert (Hap : aux_pages (PageCacheM.insert id pg (cache t)) = aux_pages (cache t)).
  { unfold aux_pages. rewrite Hcm. cbn in Hs. destruct Hs as [Hs| ->]; [|by apply map_filter_insert_not].
    apply map_lookup_filter_Some in Hs as [Hs1 _]. by rewrite insert_id. }
  split; [|cbn; by rewrite Htp|intros j; cbn; by rewrite Hap|done|done|by apply same_pages_tree].
  apply (cache_change n n); [done| |done|done|done]. intros R' [Hc' _ _ _ _].
  apply (insert_ok (reserved R') (Z.of_nat n) (Z.of_nat n) _ id pg Hc'); [lia|apply Hroom].
Qed.

Lemma tree_law_settles_own id pg (t : TT) : settles t id pg -> ~ aux_page id.
Proof.
  cbn. intros [Hs| ->]; [|apply meta_not_tree]. apply map_lookup_filter_Some in Hs as [_ Hs]. by apply tree_not_aux.
Qed.

(** The relation looks at the cache, not at the dirty pages or the storage. *)
Lemma good_provider n (t t' : TT) :
  good n t -> cache t' = cache t -> TxnProvider.tp_btree_meta_page_id (provider t') = TxnProvider.tp_btree_meta_page_id (provider t) ->
  TxnProvider.tp_next_page_id (provider t') = TxnProvider.tp_next_page_id (provider t) ->
  TxnProvider.tp_root (provider t') = TxnProvider.tp_root (provider t) -> len t' = len t -> good n t'.
Proof.
  intros (R & m & Hok & Hroom) Hc Hm Hn Hr Hl. destruct (store_ok_txn _ _ _ _ Hok) as [Hc0 Hm0 Hlo Hhi Hst].
  exists R, m. rewrite Hn. split; [|done]. eapply store_ok_change; [exact Hok| |by rewrite Hc|done..]. split; [by rewrite Hc|congruence|done|done|by rewrite Hc].
Qed.

Lemma tree_law_ids n (t : TT) : good n t -> 0 <= cs_root t < U64 /\ 0 <= cs_next_page_id t < U64.
Proof.
  intros (R & m & (_ & k & f & fp & kvs & [Ht _ _ Hn] & _ & _ & _ & Hnext) & _). pose proof id_hi_u64. pose proof id_lo_pos.
  destruct (proj1 (tree_forest_ids _) _ _ _ _ _ _ _ _ Ht) as (Hid & _). apply id_in_u64 in Hid. cbn in Hid, Hn, Hnext |- *.
  unfold TxnProvider.next_page_id. lia.
Qed.

Lemma tree_law_less n (t : TT) : good (S n) t -> good n t.
Proof.
  intros (R & m & Hok & Hroom). destruct (store_ok_txn _ _ _ _ Hok) as [Hc Hm Hlo Hhi Hst]. exists R, m. split; [|lia].
  eapply store_ok_change; [exact Hok| |done..]. split; try done. apply cache_ok_less.
  by replace (Z.of_nat n + 1) with (Z.of_nat (S n)) by lia.
Qed.

#[global] Instance tree_laws : StoreLaws TT.
Proof.
  split; try reflexivity.
  - intros n k t Hg _. by apply tree_law_get.
  - exact tree_law_insert.
  - exact tree_law_cache_get.
  - exact tree_law_cache_insert.
  - exact tree_law_rewrite.
  - exact tree_law_spare.
  - exact tree_law_settles_own.
  - exact tree_law_settle.
  - exact tree_law_ids.
  - exact tree_law_less.
  - intros n d t Hg. by apply (good_provider n t).
  - intros d t. by apply same_pages_tree.
  - intros n g t Hg. by apply (good_provider n t).
  - intros g t. by apply same_pages_tree.
Qed.

End Store.
