(* ===== verification/ComputeUndo.v ===== *)
(** * ComputeUndo: the undo pages behind the rows

    [append_undo] of src/src/embedded_compute.rs keeps every record that is reachable from a
    row: [live] pages are neither on the free list of the meta page nor past its next id, and
    a page only grows ([extends]).  [undo_ready] is what [append_undo] needs, and keeps. *)

From stdpp Require Import base numbers list list_numbers gmap fin_maps sorting.
From S2P Require Import Prelude Common SlottedPage UndoPage MetaPage WalCodec Mvcc PageStore Node Sequencer Secondary BtreePage Provider Cache Btree Compute ComputeSpec.

(** ** Undo pages *)

Module UndoPages.
Import Undo UndoSpec UndoProps.

Lemma upd_header_ok p a bs :
  wf p -> 8 <= a -> a + zlen bs <= hdr p -> wf_bytes bs ->
  wf (upd a bs p) /\ records (upd a bs p) = records p /\ hdr (upd a bs p) = hdr p.
Proof.
  intros Hwf Ha Hb Hbs. pose proof (wf_len p Hwf) as Hlen. pose proof (hdr_bound p). pose proof (zlen_nonneg bs).
  assert (Hf : forall n o, 0 <= o -> o + Z.of_nat n <= PAGE_SIZE -> o + Z.of_nat n <= 8 \/ hdr p <= o ->
    fld n o (upd a bs p) = fld n o p) by (intros; apply fld_upd_disjoint; clia).
  assert (Ht : at0 OFF_PAGE_TYPE (upd a bs p) = at0 OFF_PAGE_TYPE p) by (apply at0_upd_disjoint; clia).
  assert (Hh : hdr (upd a bs p) = hdr p) by (unfold hdr; by rewrite Ht).
  assert (Hc : count (upd a bs p) = count p) by (apply Hf; clia).
  assert (He : free_end (upd a bs p) = free_end p) by (apply Hf; clia).
  pose proof (count_max p Hwf). split_and!; [|
  |done].
  - split; [clia|by apply wf_upd, Hwf|rewrite Ht; apply Hwf|rewrite Hc, He; apply Hwf|rewrite Hc, He, Hh; apply Hwf|].
    intros i Hi. rewrite Hc in Hi. rewrite Hh, Hf by clia. by apply (wf_dir p Hwf).
  - unfold records. rewrite Hc. apply list_fmap_ext. intros k i Hi. apply lookup_seqZ in Hi as [-> ?]. f_equal.
    unfold record_bytes. destruct (rec_off_bound p (0 + Z.of_nat k)) as (? & ? & ?); [done|lia|].
    pose proof (wf_room p Hwf). apply sub_upd_disjoint; clia.
Qed.

Lemma set_next_ok p v :
  wf p -> exists p', set_page_next_id p v = Ret p' /\ wf p' /\ records p' = records p.
Proof.
  intros Hwf. pose proof (wf_len p Hwf). pose proof (hdr_bound p).
  destruct (upd_header_ok p OFF_PAGE_NEXT (le_bytes 8 v)) as (Hw & Hr & _); [done|clia|clia|apply wf_le_bytes|].
  exists (upd OFF_PAGE_NEXT (le_bytes 8 v) p). split_and!; [|done|done].
  unfold set_page_next_id, write_u64. rewrite page_hdr_size_ok by done. cbn [mbind outcome_bind]. by rewrite write_le_ok by clia.
Qed.

(** The page before its header is filled in. *)
Definition segment_base : bytes :=
  upd 8 (le_bytes 8 0) (upd 4 (le_bytes 2 0) (upd 2 (le_bytes 2 16384) (upd 0 [2] (zrepeat 0 PAGE_SIZE)))).

Definition fresh_segment (p : bytes) : Prop := wf p /\ records p = [] /\ hdr p = 88.

Lemma segment_base_fresh : fresh_segment segment_base.
Proof.
  split_and!; [|vm_compute; reflexivity|vm_compute; reflexivity].
  assert (count segment_base = 0) as Hc by (vm_compute; reflexivity). split.
  - vm_compute. reflexivity.
  - apply (bool_decide_unpack _). vm_compute. exact I.
  - right. vm_compute. reflexivity.
  - vm_compute. reflexivity.
  - vm_compute. discriminate.
  - rewrite Hc. lia.
Qed.

Lemma fresh_segment_upd p a bs :
  fresh_segment p -> 8 <= a -> a + zlen bs <= 88 -> wf_bytes bs -> fresh_segment (upd a bs p).
Proof. intros (Hw & Hr & Hh) ? ? ?. unfold fresh_segment. rewrite <-Hr, <-Hh. apply upd_header_ok; rewrite ?Hh; done. Qed.

Lemma fresh_segment_write n p off v :
  fresh_segment p -> 8 <= off -> off + Z.of_nat n <= 88 ->
  exists p', write_le n p off v = Ret (E:=Error) p' /\ fresh_segment p'.
Proof.
  intros Hf ? ?. exists (upd off (le_bytes n v) p). pose proof (wf_len p (proj1 Hf)).
  split; [apply write_le_ok; clia|]. apply fresh_segment_upd; [done|lia|rewrite zlen_le_bytes; lia|apply wf_le_bytes].
Qed.

Lemma fresh_segment_put p off v :
  fresh_segment p -> 8 <= off < 88 -> is_byte v ->
  exists p', put_at p off v = Ret (E:=Error) p' /\ fresh_segment p'.
Proof.
  intros Hf ? ?. exists (upd off [v] p). pose proof (wf_len p (proj1 Hf)).
  split; [apply put_at_ok; clia|]. apply fresh_segment_upd; [done|lia|change (zlen [v]) with 1; lia|by apply Forall_singleton].
Qed.

Ltac seg_step := match goal with
  | Hf : fresh_segment ?p |- context [write_le ?n ?p ?o ?v] =>
      destruct (fresh_segment_write n p o v Hf) as (? & -> & ?); [by vm_compute|by vm_compute|]
  | Hf : fresh_segment ?p |- context [put_at ?p ?o ?v] =>
      destruct (fresh_segment_put p o v Hf) as (? & -> & ?); [by vm_compute|by vm_compute|]
  end; cbn [mbind outcome_bind].

Lemma new_segment_ok txn pid :
  exists p, new_undo_segment_page txn pid = Ret p /\ wf p /\ records p = [].
Proof.
  pose proof segment_base_fresh as Hf. unfold segment_base in Hf. unfold new_undo_segment_page, write_u16, write_u64, write_u32.
  rewrite put_at_ok by clia. cbn [mbind outcome_bind].
  do 3 (rewrite write_le_ok by clia; cbn [mbind outcome_bind]).
  change (wrap16 PAGE_SIZE) with 16384.
  change OFF_PAGE_TYPE with 0. change OFF_FREE_END with 2. change OFF_COUNT with 4. change OFF_PAGE_NEXT with 8.
  change UNDO_SEGMENT_PAGE_TYPE with 2.
  set (p0 := upd 8 _ _) in *. clearbody p0.
  repeat seg_step. match goal with Hf : fresh_segment ?p |- context [Ret ?p] => exists p; destruct Hf as (? & ? & ?); done end.
Qed.

(** A page with all the records of another one, at the same slots. *)
Definition extends (p p' : bytes) : Prop :=
  forall slot r, 0 <= slot -> read_record_ref p slot = Ret r -> read_record_ref p' slot = Ret r.

Lemma extends_refl p : extends p p.
Proof. by intros slot r. Qed.

Lemma extends_trans p q r : extends p q -> extends q r -> extends p r.
Proof. intros H1 H2 slot x Hs Hx. auto. Qed.

Lemma extends_records p p' l : wf p -> wf p' -> records p' = records p ++ l -> extends p p'.
Proof.
  intros Hw Hw' Hr slot r Hs. unfold read_record_ref. rewrite !read_record_ok by done. rewrite Hr.
  destruct (records p !! Z.to_nat slot) eqn:E; [|done]. by rewrite (lookup_app_l_Some _ _ _ _ E).
Qed.

Lemma append_page_ok p r : wf p -> rec_ok r ->
  (append_record p r = Fail (Io OtherKind)) \/
  exists p', append_record p r = Ret (p', zlen (records p)) /\ wf p' /\ extends p p' /\
    read_record_ref p' (zlen (records p)) = Ret r /\ zlen (records p) < 15.
Proof.
  intros Hw Hr. pose proof (records_len p Hw) as Hl. pose proof (count_max p Hw).
  destruct (decide (count p = 15)) as [Hc|Hc]; [left; by apply append_record_full|right].
  exists (appended p r). rewrite append_record_fits by (done || apply Hr || lia). rewrite Hl.
  pose proof (appended_wf p r Hw Hr ltac:(lia)) as Hw'. pose proof (appended_records p r Hw Hr ltac:(lia)) as Hr'.
  pose proof (count_nonneg p Hw). split_and!; [done|done|by eapply extends_records| |lia].
  unfold read_record_ref. rewrite read_record_ok by done. rewrite Hr', <-Hl. unfold zlen. rewrite Nat2Z.id.
  by rewrite lookup_app_r, Nat.sub_diag by lia.
Qed.

End UndoPages.

Import UndoPages Compute.Compute.

(** ** The undo pages the meta page knows *)

Definition live (m : MetaPage) (pid : PageId) : Prop :=
  UNDO_BASE <= pid < next_undo_page_id (at_least_undo_base m) /\ pid ∉ undo_free m.

(** Room for [k] more pages. *)
Record meta_inv (k : Z) (m : MetaPage) : Prop := {
  mi_ok : MetaProps.meta_ok m;
  mi_cap : zlen (undo_free m) <= UNDO_FREE_CAP;
  mi_free : Forall (fun i => UNDO_BASE <= i < next_undo_page_id (at_least_undo_base m)) (undo_free m);
  mi_nodup : NoDup (undo_free m);
  mi_room : next_undo_page_id (at_least_undo_base m) + k < U64
}.

Lemma at_least_next m : UNDO_BASE <= next_undo_page_id (at_least_undo_base m).
Proof. unfold at_least_undo_base. destruct (Z.ltb_spec (next_undo_page_id m) UNDO_BASE); cbn; lia. Qed.

Lemma at_least_id m : UNDO_BASE <= next_undo_page_id m -> at_least_undo_base m = m.
Proof. intros. unfold at_least_undo_base. destruct (Z.ltb_spec (next_undo_page_id m) UNDO_BASE); [lia|done]. Qed.

Lemma at_least_free m : undo_free (at_least_undo_base m) = undo_free m.
Proof. unfold at_least_undo_base. by destruct (_ <? _). Qed.

Lemma at_least_inv k m : 0 <= k -> meta_inv k m -> meta_inv k (at_least_undo_base m).
Proof.
  intros Hk [Hok Hc Hf Hn Hr]. pose proof (at_least_next m). split; rewrite ?at_least_free, ?(at_least_id (at_least_undo_base m)) by done; try done.
  destruct Hok. unfold at_least_undo_base in *. destruct (Z.ltb_spec (next_undo_page_id m) UNDO_BASE); [|by split].
  by split.
Qed.

Lemma at_least_live m i : live (at_least_undo_base m) i <-> live m i.
Proof. unfold live. rewrite at_least_free, (at_least_id (at_least_undo_base m)) by apply at_least_next. done. Qed.

(** A page the allocator hands out was not live, and is live afterwards. *)
Lemma alloc_ok k m : 0 <= k -> UNDO_BASE <= next_undo_page_id m -> meta_inv (k + 1) m ->
  exists pid m', alloc_page_id m = (pid, m') /\ meta_inv k m' /\ UNDO_BASE <= next_undo_page_id m' /\
    UNDO_BASE <= pid < U64 /\ ~ live m pid /\ live m' pid /\ (forall i, live m i -> live m' i).
Proof.
  intros Hk Hb [Hok Hc Hf Hn Hr]. rewrite at_least_id in * by done. unfold alloc_page_id, Meta.pop_free_undo.
  destruct (last (undo_free m)) as [free|] eqn:El.
  - apply last_Some in El as (l & El). rewrite El in *. rewrite length_app. cbn [length].
    replace (length l + 1 - 1)%nat with (length l) by lia. rewrite take_app_length.
    exists free, (Meta.with_free m l). apply Forall_app in Hf as [Hf Hx]. apply Forall_cons in Hx as [Hx _].
    apply NoDup_app in Hn as (Hn & Hd & _). rewrite zlen_app in Hc. pose proof (zlen_nonneg [free]).
    assert (free ∉ l) as Hnf by (intros Hin; by apply (Hd free Hin), list_elem_of_singleton).
    split_and!; [done| |done|lia|lia| | |].
    + destruct Hok as [? ? ? ? Hfr ? ?]. rewrite El in Hfr. apply Forall_app in Hfr as [Hfr _].
      split; rewrite ?at_least_id by done; cbn [Meta.with_free undo_free next_undo_page_id]; try done; lia.
    + intros [_ Hl]. apply Hl. rewrite El. apply elem_of_app. right. by apply list_elem_of_singleton.
    + unfold live. rewrite at_least_id by done. done.
    + unfold live. rewrite !at_least_id by done. cbn [Meta.with_free undo_free next_undo_page_id]. rewrite El.
      intros i [? Hi]. split; [done|]. intros Hin. apply Hi, elem_of_app. by left.
  - apply last_None in El. destruct Hok as [? ? ? ? Hfr ? ?].
    assert (Hw : wrap64 (next_undo_page_id m + 1) = next_undo_page_id m + 1) by (apply Z.mod_small; unfold UNDO_BASE in *; lia).
    rewrite Hw. eexists _, _. split; [reflexivity|]. unfold UNDO_BASE in *.
    split_and!; cbn [meta_with next_undo_page_id undo_free]; try lia.
    + split; rewrite ?at_least_id by (cbn; unfold UNDO_BASE; lia); cbn [meta_with next_undo_page_id undo_free]; try done; [|by rewrite El|lia].
      split; cbn [meta_with MetaPage.root_page_id next_bptree_page_id next_data_page_id next_undo_page_id undo_free undo_history_head undo_history_tail]; done || lia.
    + unfold live. rewrite at_least_id by done. lia.
    + unfold live. rewrite at_least_id by (cbn; unfold UNDO_BASE; lia). cbn. rewrite El. split; [unfold UNDO_BASE; lia|apply not_elem_of_nil].
    + unfold live. rewrite !at_least_id by (cbn; unfold UNDO_BASE; lia). cbn. intros i [? ?]. split; [lia|done].
Qed.

(** ** Steps that only add undo records *)

Section Undo.
Context {T : Type} {CS : ComputeStore T} {SV : StoreView T} {SL : StoreLaws T} {OT : Others T}.

(** Every live page is still there, with its records. *)
Definition keeps (m : MetaPage) (t t' : T) : Prop :=
  forall i p, live m i -> page_of t i = Some p -> exists p', page_of t' i = Some p' /\ extends p p'.

(** A transaction without its pages and its undo segment. *)
Definition core (x : EmbeddedTxn) : EmbeddedTxn :=
  with_segment None None None 0 (with_pages ∅ (tx_bptree_dirty x) (tx_ro_cache x) x).

Record undo_step (n : nat) (x : EmbeddedTxn) (t : T) (m : MetaPage) (x' : EmbeddedTxn) (t' : T) (m' : MetaPage) : Prop := {
  us_good : good n t';
  us_dirty : cs_dirty t' = None;
  us_rows : rows t' = rows t;
  us_storage : cs_storage t' = cs_storage t;
  us_core : core x' = core x;
  us_live : forall i, live m i -> live m' i;
  us_keeps : keeps m t t'
}.

Lemma undo_step_trans n n1 x t m x1 t1 m1 x2 t2 m2 :
  undo_step n1 x t m x1 t1 m1 -> undo_step n x1 t1 m1 x2 t2 m2 -> undo_step n x t m x2 t2 m2.
Proof.
  intros [] []. split; try congruence; try (by auto). intros i p Hl Hp.
  destruct (us_keeps0 i p Hl Hp) as (p1 & Hp1 & E1). destruct (us_keeps1 i p1) as (p2 & Hp2 & E2); [by auto|done|].
  exists p2. split; [done|by eapply extends_trans].
Qed.

Lemma undo_step_same n x t m t' : cs_dirty t = None -> same n t t' -> undo_step n x t m x t' m.
Proof.
  intros Hd []. split; try congruence. intros i p _ Hp. exists p. rewrite same_pages. split; [done|apply extends_refl].
Qed.

Definition staged (pid : PageId) (pg : Page) (x : EmbeddedTxn) : EmbeddedTxn :=
  with_pages (<[pid := pg]> (tx_dirty x)) (tx_bptree_dirty x) (tx_ro_cache x) x.

Lemma write_page_run n pid pg m x c :
  idle (S n) c -> aux_page pid -> tx_read_only x = false ->
  (forall p, live m pid -> page_of (ec_store c) pid = Some p -> extends p pg) ->
  exists t', write_page pid pg (x, c) = (Ret tt, (staged pid pg x, with_store t' c)) /\
    undo_step n x (ec_store c) m (staged pid pg x) t' m /\ page_changed n (ec_store c) t' pid pg.
Proof.
  intros [Hg Hd] Ha Hro He. pose proof (law_cache_insert n pid pg (ec_store c) Hg Ha) as Hc.
  exists (cs_cache_insert pid pg (ec_store c)). split_and!; [|
  |done].
  - unfold write_page. rewrite get_tx_bind. cbn [fst]. by rewrite Hro.
  - destruct Hc. split; try done; [congruence|]. intros i p Hl Hp. rewrite pc_pages.
    destruct (decide (i = pid)) as [->|]; [exists pg; split; [done|by apply He]|].
    exists p. split; [done|apply extends_refl].
Qed.

(** The last page of the transaction's undo segment. *)
Definition tail_ok (x : EmbeddedTxn) (t : T) (pid : PageId) : Prop :=
  exists p, tx_dirty x !! pid = Some p /\ page_of t pid = Some p /\ UndoSpec.wf p.

Lemma undo_base_aux pid : UNDO_BASE <= pid -> aux_page pid.
Proof. by right; right. Qed.

Lemma not_meta pid : UNDO_BASE <= pid -> pid <> META_PAGE_ID.
Proof. unfold UNDO_BASE, META_PAGE_ID. lia. Qed.

Lemma undo_tail_run n k txn m x c :
  idle (S n) c -> 0 <= k -> UNDO_BASE <= next_undo_page_id m -> meta_inv (k + 1) m -> tx_read_only x = false ->
  (forall pid, tx_seg_last x = Some pid -> live m pid /\ tail_ok x (ec_store c) pid) ->
  exists pid m' x' t', undo_tail txn m (x, c) = (Ret (pid, m'), (x', with_store t' c)) /\
    undo_step n x (ec_store c) m x' t' m' /\ meta_inv k m' /\ UNDO_BASE <= next_undo_page_id m' /\
    UNDO_BASE <= pid < U64 /\ live m' pid /\ tail_ok x' t' pid /\ tx_seg_record x' = tx_seg_record x.
Proof.
  intros Hi Hk Hb Hm Hro Hl. unfold undo_tail. rewrite get_tx_bind. cbn [fst].
  destruct (tx_seg_last x) as [pid|].
  - destruct (Hl pid eq_refl) as [Hlv Ht]. exists pid, m, x, (ec_store c). split; [by destruct c|].
    destruct Hlv as [Hlv Hnf]. rewrite at_least_id in Hlv by done. destruct Hi as [Hg Hd].
    split_and!; try done; try lia.
    + by apply undo_step_same, same_refl, law_less.
    + destruct Hm. by split; try lia.
    + destruct Hm as [[] _ _ _ _]. lia.
    + split; [by rewrite at_least_id by done|done].
  - destruct (alloc_ok k m Hk Hb Hm) as (pid & m' & -> & Hm' & Hb' & Hp & Hnl & Hlv & Hmono).
    destruct (new_segment_ok txn pid) as (pg & Hpg & Hw & _). rewrite (st_bind_lift _ _ _ pg Hpg).
    set (x1 := with_segment (Some pid) (Some pid) (tx_seg_record x) (tx_seg_count x) x).
    rewrite set_tx_bind. cbn [fst snd]. fold x1.
    destruct (write_page_run n pid pg m x1 c Hi (undo_base_aux _ (proj1 Hp)) Hro (fun p Hl _ => False_ind _ (Hnl Hl))) as (t' & Hr & Hs & Hc).
    rewrite (st_bind_ret _ _ _ _ _ Hr). exists pid, m', (staged pid pg x1), t'.
    split; [reflexivity|]. split; [destruct Hs; split; assumption|]. do 4 (split; [assumption|]). split; [|reflexivity].
    + exists pg. destruct Hc. rewrite pc_pages, decide_True by done. split_and!; [apply lookup_insert_eq|done|done].
Qed.

Lemma attempt_lift {A} (r : outcome Error A) (s : EmbeddedTxn * EmbeddedCompute T) :
  (exists a, r = Ret a) \/ (exists e, r = Fail e) -> attempt (lift r) s = (Ret r, s).
Proof. by intros [[a ->]|[e ->]]. Qed.

Lemma append_or_extend_run n k rec cid p m x c :
  idle (S n) c -> 0 <= k -> UNDO_BASE <= next_undo_page_id m -> meta_inv (k + 1) m -> tx_read_only x = false ->
  UndoSpec.rec_ok rec -> UNDO_BASE <= cid < U64 -> page_of (ec_store c) cid = Some p -> UndoSpec.wf p ->
  live m cid ->
  exists cid' p' slot m' x' t', append_or_extend rec cid p m (x, c) = (Ret (cid', p', slot, m'), (x', with_store t' c)) /\
    undo_step n x (ec_store c) m x' t' m /\ meta_inv k m' /\ UNDO_BASE <= next_undo_page_id m' /\
    (forall i, live m i -> live m' i) /\ UNDO_BASE <= cid' < U64 /\ live m' cid' /\ UndoSpec.wf p' /\
    Undo.read_record_ref p' slot = Ret rec /\ 0 <= slot < U16 /\
    (forall q, live m cid' -> page_of t' cid' = Some q -> extends q p').
Proof.
  intros Hi Hk Hb Hm Hro Hrec Hcid Hp Hw Hlv. unfold append_or_extend.
  destruct (append_page_ok p rec Hw Hrec) as [Hfull|(p' & Ha & Hw' & He & Hr & Hs)].
  - rewrite (st_bind_ret _ _ _ _ _ (attempt_lift _ _ (or_intror (ex_intro _ _ Hfull)))). rewrite Hfull.
    destruct (alloc_ok k m Hk Hb Hm) as (pid & m' & -> & Hm' & Hb' & Hpid & Hnl & Hlv' & Hmono).
    destruct (set_next_ok p pid Hw) as (p1 & Hn & Hw1 & Hr1). rewrite (st_bind_lift _ _ _ p1 Hn).
    destruct (write_page_run n cid p1 m x c Hi (undo_base_aux _ (proj1 Hcid)) Hro) as (t' & Hwr & Hst & Hc).
    { intros q _ Hq. rewrite Hp in Hq. injection Hq as <-. apply (extends_records p p1 []); [done|done|by rewrite app_nil_r]. }
    rewrite (st_bind_ret _ _ _ _ _ Hwr). rewrite (st_bind_lift _ _ _ _ UndoProps.new_undo_page_ok).
    destruct UndoProps.empty_undo_page_wf as [Hwe Hre].
    destruct (append_page_ok _ rec Hwe Hrec) as [Hf|(p' & Ha & Hw' & He & Hr & Hs)].
    { exfalso. rewrite UndoSpec.append_record_fits in Hf; [done|done|apply Hrec|].
      pose proof (UndoSpec.records_len _ Hwe) as Hl. rewrite Hre in Hl. change (zlen []) with 0 in Hl. lia. }
    rewrite (st_bind_lift _ _ _ _ Ha). rewrite Hre in *. change (zlen []) with 0 in *.
    exists pid, p', 0, m', (staged cid p1 x), t'. split; [reflexivity|].
    do 8 (split; [assumption|]). split; [unfold U16; lia|]. intros q Hl. by destruct (Hnl Hl).
  - rewrite (st_bind_ret _ _ _ _ _ (attempt_lift _ _ (or_introl (ex_intro _ _ Ha)))). rewrite Ha.
    exists cid, p', (zlen (UndoSpec.records p)), m, x, (ec_store c). split; [by destruct c|].
    pose proof (zlen_nonneg (UndoSpec.records p)). destruct Hi as [Hg Hd].
    split; [by apply undo_step_same, same_refl, law_less|]. split; [destruct Hm; split; assumption || lia|].
    split; [assumption|]. split; [intros i Hl; exact Hl|]. do 4 (split; [assumption|]). split; [unfold U16; lia|].
    intros q _ Hq. rewrite Hp in Hq. by injection Hq as <-.
Qed.

(** ** The invariant of a writing transaction *)

(** Room for [k] undo records. *)
Record undo_ready (k : Z) (x : EmbeddedTxn) (t : T) (m : MetaPage) : Prop := {
  ur_page : exists mp, page_of t META_PAGE_ID = Some mp /\ Meta.decode mp = Ret m;
  ur_inv : meta_inv (2 * k) m;
  ur_rw : tx_read_only x = false;
  ur_last : forall pid, tx_seg_last x = Some pid -> live m pid /\ tail_ok x t pid;
  ur_record : UndoSpec.ptr_ok (tx_seg_record x)
}.

(** The record of a version and its predecessor. *)
Definition record_of (txn : Z) (next : option UndoPtr) (u : option UndoPtr) (lsn fl : Z) (value : bytes) : UndoRecord := {|
  data_page_id := 0; data_slot_id := 0; prev := u; txn_id := txn; txn_next := next; old_commit_lsn := lsn; old_flags := fl;
  old_value := value |}.

Lemma meta_decode_encode k m : meta_inv k m -> UNDO_BASE <= next_undo_page_id m ->
  exists p, Meta.encode m = Ret p /\ Meta.decode p = Ret m.
Proof.
  intros [Hok Hc Hf _ _] Hb. destruct (MetaProps.meta_roundtrip m Hok) as (p & He & _ & _ & Hd). exists p. split; [done|].
  apply Hd; [done|]. eapply Forall_impl; [exact Hf|]. cbn. unfold UNDO_BASE. lia.
Qed.

Lemma cached_meta_run n x c mp :
  idle n c -> page_of (ec_store c) META_PAGE_ID = Some mp ->
  exists t', on_compute (cache_get META_PAGE_ID) (x, c) = (Ret (Some mp), (x, with_store t' c)) /\ same n (ec_store c) t'.
Proof.
  intros Hi Hp. destruct (cache_get_run n META_PAGE_ID c Hi) as (t' & Hr & Hs); [by left|].
  rewrite Hp in Hr. exists t'. split; [|done]. by apply on_compute_run.
Qed.

Lemma tail_ok_same n x t t' pid : same n t t' -> tail_ok x t pid -> tail_ok x t' pid.
Proof. intros [] (p & ? & ? & ?). exists p. by rewrite same_pages. Qed.

(** The two writes that end [append_undo]. *)
Lemma write_tail_run n k cid page mp slot m m' x c :
  idle (S (S n)) c -> tx_read_only x = false -> meta_inv k m' -> UNDO_BASE <= next_undo_page_id m' ->
  UNDO_BASE <= cid < U64 -> live m' cid -> UndoSpec.wf page -> (forall i, live m i -> live m' i) ->
  (forall q, live m cid -> page_of (ec_store c) cid = Some q -> extends q page) ->
  let x1 := with_segment (tx_seg_first x) (Some cid) (Some {| up_page_id := cid; up_slot_id := slot |})
    (Z.min (tx_seg_count x + 1) (U32 - 1)) x in
  exists t1 t', write_page cid page (x1, c) = (Ret tt, (staged cid page x1, with_store t1 c)) /\
    write_page META_PAGE_ID mp (staged cid page x1, with_store t1 c) =
      (Ret tt, (staged META_PAGE_ID mp (staged cid page x1), with_store t' c)) /\
    undo_step n x (ec_store c) m (staged META_PAGE_ID mp (staged cid page x1)) t' m' /\
    page_of t' META_PAGE_ID = Some mp /\ page_of t' cid = Some page.
Proof.
  intros Hi Hro Hm Hb Hcid Hlv Hw Hmono He x1.
  destruct (write_page_run (S n) cid page m x1 c Hi (undo_base_aux _ (proj1 Hcid)) Hro He) as (t1 & H1 & S1 & C1).
  assert (Hi1 : idle (S n) (with_store t1 c)) by (destruct S1; by split).
  destruct (write_page_run n META_PAGE_ID mp m (staged cid page x1) (with_store t1 c) Hi1 (or_introl eq_refl) Hro) as (t2 & H2 & S2 & C2).
  { intros p [[Hl _] _]. unfold META_PAGE_ID, UNDO_BASE in Hl. lia. }
  exists t1, t2. pose proof (not_meta cid (proj1 Hcid)). destruct C1, C2. cbn [ec_store with_store] in *. split_and!.
  - exact H1.
  - exact H2.
  - pose proof (undo_step_trans _ _ _ _ _ _ _ _ _ _ _ S1 S2) as S3. destruct S3. by split.
  - by rewrite pc_pages0, decide_True.
  - by rewrite pc_pages0, decide_False, pc_pages, decide_True.
Qed.

(** [append_undo] inserts at most four pages in the cache. *)
Definition UNDO_PAGES : nat := 4.

Lemma append_undo_run n k u lsn fl value txn m x c :
  idle (UNDO_PAGES + n) c -> 0 <= k -> undo_ready (k + 1) x (ec_store c) m -> tx_undo_txn_id x = Some txn -> 0 <= txn < U64 ->
  UndoSpec.rec_ok (record_of txn (tx_seg_record x) u lsn fl value) ->
  exists ptr page x' t' m', append_undo 0 0 u lsn fl value (x, c) = (Ret ptr, (x', with_store t' c)) /\
    undo_step n x (ec_store c) m x' t' m' /\ undo_ready k x' t' m' /\
    live m' (up_page_id ptr) /\ UndoSpec.ptr_ok (Some ptr) /\ page_of t' (up_page_id ptr) = Some page /\
    Undo.read_record_ref page (up_slot_id ptr) = Ret (record_of txn (tx_seg_record x) u lsn fl value).
Proof.
  intros Hi Hk [(mp & Hmp & Hdec) Hinv Hro Hlast Hrec0] Htx Htxn Hrec. set (rec := record_of _ _ _ _ _ _) in *.
  assert (Hv : zlen value = VALUE_SIZE) by exact (UndoSpec.ok_value rec Hrec).
  unfold append_undo. rewrite Hv, Z.eqb_refl. cbn [negb].
  rewrite get_tx_bind. cbn [fst id]. rewrite (st_bind_lift _ _ _ txn) by (by rewrite Htx).
  destruct (cached_meta_run _ x c mp Hi Hmp) as (t1 & H1 & S1). rewrite (st_bind_ret _ _ _ _ _ H1). cbn [ok_or].
  rewrite (st_bind_lift _ _ _ mp) by done. rewrite (st_bind_lift _ _ _ m) by done.
  pose proof (same_idle _ _ _ Hi S1) as Hi1. set (c1 := with_store t1 c) in *. set (m0 := at_least_undo_base m).
  assert (Hm0 : meta_inv (2 * k + 1 + 1) m0).
  { apply at_least_inv; [lia|]. destruct Hinv. split; try done. lia. }
  destruct (undo_tail_run (3 + n) (2 * k + 1) txn m0 x c1 Hi1 ltac:(lia) (at_least_next m) Hm0 Hro)
    as (pid & m1 & x2 & t2 & H2 & S2 & Hm1 & Hb1 & Hpid & Hlv & (p & Hpd & Hpp & Hpw) & Hsr).
  { intros pid Hpid. destruct (Hlast pid Hpid). split; [by apply at_least_live|by eapply tail_ok_same]. }
  rewrite (st_bind_ret _ _ _ _ _ H2). rewrite get_tx_bind. cbn [fst]. rewrite Hpd.
  rewrite mret_bind. cbn [ok_or]. rewrite (st_bind_lift _ _ _ p) by done.
  rewrite get_tx_bind. cbn [fst id]. rewrite Hsr.
  change {| data_page_id := 0; data_slot_id := 0; prev := u; txn_id := txn; txn_next := tx_seg_record x;
    old_commit_lsn := lsn; old_flags := fl; old_value := value |} with rec.
  set (c2 := with_store t2 c1) in *. assert (Hi2 : idle (3 + n) c2) by (destruct S2; by split).
  assert (Hro2 : tx_read_only x2 = false) by (by rewrite <-Hro; apply (f_equal tx_read_only (us_core _ _ _ _ _ _ _ S2))).
  destruct (append_or_extend_run (2 + n) (2 * k) rec pid p m1 x2 c2 Hi2 ltac:(lia) Hb1 Hm1 Hro2 Hrec Hpid Hpp Hpw Hlv)
    as (cid & page & slot & m2 & x3 & t3 & H3 & S3 & Hm2 & Hb2 & Hmono & Hcid & Hlc & Hw & Hread & Hslot & He).
  rewrite (st_bind_ret _ _ _ _ _ H3). rewrite set_tx_bind. cbn [fst snd].
  destruct (meta_decode_encode _ m2 Hm2 Hb2) as (mp2 & Henc & Hdec2).
  set (c3 := with_store t3 c2) in *. assert (Hi3 : idle (2 + n) c3) by (destruct S3; by split).
  assert (Hro3 : tx_read_only x3 = false) by (by rewrite <-Hro2; apply (f_equal tx_read_only (us_core _ _ _ _ _ _ _ S3))).
  destruct (write_tail_run n (2 * k) cid page mp2 slot m1 m2 x3 c3 Hi3 Hro3 Hm2 Hb2 Hcid Hlc Hw Hmono He) as (ta & t4 & Ha & H4 & S4 & Hq1 & Hq2).
  rewrite (st_bind_ret _ _ _ _ _ Ha), (st_bind_lift _ _ _ mp2 Henc), (st_bind_ret _ _ _ _ _ H4).
  set (x4 := staged META_PAGE_ID mp2 _) in *. exists {| up_page_id := cid; up_slot_id := slot |}, page, x4, t4, m2.
  assert (Hstep : undo_step n x (ec_store c) m x4 t4 m2).
  { assert (S0 : undo_step (4 + n) x (ec_store c) m x (ec_store c1) m0).
    { destruct (undo_step_same (4 + n) x (ec_store c) m t1 (proj2 Hi) S1). split; try assumption. intros i. apply at_least_live. }
    pose proof (undo_step_trans _ _ _ _ _ _ _ _ _ _ _ S0 S2) as S02. pose proof (undo_step_trans _ _ _ _ _ _ _ _ _ _ _ S02 S3) as S03.
    exact (undo_step_trans _ _ _ _ _ _ _ _ _ _ _ S03 S4). }
  assert (Hptr : UndoSpec.ptr_ok (Some {| up_page_id := cid; up_slot_id := slot |})) by (unfold UNDO_BASE in Hcid; cbn; lia).
  split; [reflexivity|]. split; [exact Hstep|]. split; [|do 3 (split; [assumption|]); assumption].
  split; [exists mp2; split; assumption|assumption|assumption| |assumption].
  intros pid' Hpid'. injection Hpid' as <-. split; [assumption|]. exists page. split; [|split; assumption].
  unfold x4, staged. cbn [with_pages tx_dirty]. rewrite lookup_insert_ne by (pose proof (not_meta cid (proj1 Hcid)); congruence).
  apply lookup_insert_eq.
Qed.

End Undo.
