(* ===== verification/ComputeProps.v ===== *)
(** * ComputeProps: what the compute node promises

    What transactions of src/src/embedded_compute.rs and src/src/embedded_compute_visibility.rs
    read and write, for every store that keeps [StoreLaws]: a read returns the version of its
    snapshot, a write does not change what older snapshots without pages of their own read
    and is read back by its own transaction, and a reader that meets the intent of a pending
    transaction waits for it, up to a grace period after its deadline.
    The rest shows where the node does not do what it means to. *)

From stdpp Require Import base numbers list list_numbers gmap fin_maps sorting.
From S2P Require Import Prelude Common SlottedPage UndoPage MetaPage WalCodec Mvcc PageStore Node Sequencer Secondary BtreePage Provider Cache Btree Compute ComputeSpec ComputeUndo.
Import UndoPages Compute.Compute.

Module ComputeProps.

Section Props.
Context {T : Type} {CS : ComputeStore T} {SV : StoreView T} {SL : StoreLaws T} {OT : Others T}.

(** ** The effect of a write *)

(** What [row] keeps of the row it replaces: nothing, the undo records of an earlier write of
    the same transaction, or a new undo record with the replaced version. *)
Definition replaces (x : EmbeddedTxn) (old : option LeafValue) (row : LeafValue) (t' : T) (m' : MetaPage) : Prop :=
  match old with
  | None => undo_ptr (lv_meta row) = None
  | Some old =>
      if own_intent x old then undo_ptr (lv_meta row) = undo_ptr (lv_meta old) else
      exists ptr page rec, undo_ptr (lv_meta row) = Some ptr /\ live m' (up_page_id ptr) /\ 0 <= up_slot_id ptr /\
        page_of t' (up_page_id ptr) = Some page /\ Undo.read_record_ref page (up_slot_id ptr) = Ret rec /\
        undo_version rec = row_version old /\ prev rec = undo_ptr (lv_meta old)
  end.

Record wrote (n : nat) (k : Z) (x : EmbeddedTxn) (c : EmbeddedCompute T) (m : MetaPage) (key : bytes) (row : LeafValue)
    (x' : EmbeddedTxn) (c' : EmbeddedCompute T) (m' : MetaPage) : Prop := {
  wr_idle : idle n c';
  wr_row : BpSpec.lv_ok row;
  wr_rows : rows (ec_store c') = <[key := row]> (rows (ec_store c));
  wr_keeps : keeps m (ec_store c) (ec_store c');
  wr_live : forall i, live m i -> live m' i;
  wr_ready : undo_ready k x' (ec_store c') m';
  wr_txn : tx_undo_txn_id x' = tx_undo_txn_id x /\ tx_read_lsn x' = tx_read_lsn x /\ tx_timeout x' = tx_timeout x /\
    tx_intent_base_lsn x' = tx_intent_base_lsn x;
  wr_modified : tx_modified x' = {[key]} ∪ tx_modified x;
  wr_replaces : replaces x (rows (ec_store c) !! key) row (ec_store c') m';
  wr_guard : tx_read_guard x' = tx_read_guard x
}.

(** A row that fits the widths of its fields and that no other transaction is writing. *)
Definition writable (x : EmbeddedTxn) (old : option LeafValue) : Prop :=
  match old with
  | None => True
  | Some old => BpSpec.lv_ok old /\ wf_bytes (lv_value old) /\ foreign_intent x old = false
  end.

(** A transaction that can write. *)
Record writer (k : Z) (x : EmbeddedTxn) (t : T) (m : MetaPage) : Prop := {
  wt_ready : undo_ready k x t m;
  wt_timeout : tx_timeout x = None;
  wt_txn : exists txn, tx_undo_txn_id x = Some txn /\ 0 <= txn < U64;
  wt_base : 0 <= tx_intent_base_lsn x < U64
}.

Lemma ptr_ok_iff u : BpSpec.ptr_ok u <-> UndoSpec.ptr_ok u.
Proof. destruct u as [p|]; cbn; split; [intros H; by apply H|by intros H ? [= <-]|done|intros _ ? [=]]. Qed.

Lemma good_less a n (t : T) : good (a + n) t -> good n t.
Proof. induction a as [|a IH]; [done|]. intros Hg. by apply IH, law_less. Qed.

Lemma undo_of_run n k old m x c :
  idle (UNDO_PAGES + n) c -> 0 <= k -> writer (k + 1) x (ec_store c) m -> BpSpec.lv_ok old -> wf_bytes (lv_value old) ->
  exists ptr page rec x' t' m', undo_of old (x, c) = (Ret (Some ptr), (x', with_store t' c)) /\
    undo_step n x (ec_store c) m x' t' m' /\ undo_ready k x' t' m' /\
    live m' (up_page_id ptr) /\ UndoSpec.ptr_ok (Some ptr) /\ page_of t' (up_page_id ptr) = Some page /\
    Undo.read_record_ref page (up_slot_id ptr) = Ret rec /\ undo_version rec = row_version old /\ prev rec = undo_ptr (lv_meta old).
Proof.
  intros Hi Hk [Hu Ht (txn & Htx & Hb) _] [Lv Ll Lp Lf _ _] Hwf.
  destruct (append_undo_run n k (undo_ptr (lv_meta old)) (commit_lsn (lv_meta old)) (flags (lv_meta old)) (lv_value old) txn m x c
    Hi Hk Hu Htx Hb) as (ptr & page & x' & t' & m' & Hr & Hs & Hrd & Hlv & Hp & Hpg & Hrec).
  { split; cbn; try assumption; try (unfold U64, U16; lia); [by apply ptr_ok_iff|apply Hu]. }
  eexists ptr, page, _, x', t', m'. split; [|split_and!; try eassumption; reflexivity].
  unfold undo_of. by rewrite (st_bind_ret _ _ _ _ _ Hr).
Qed.

Lemma record_write_run key planned x (c : EmbeddedCompute T) :
  exists r, record_write key planned (x, c) =
    (Ret tt, (with_writes ({[key]} ∪ tx_modified x) (tx_mutations x ++ planned) x, with_registry r c)).
Proof.
  unfold record_write. rewrite set_tx_bind, get_tx_bind. cbn [fst snd with_writes tx_undo_txn_id].
  destruct (tx_undo_txn_id x); [by eexists|]. exists (ec_registry c). by destruct c.
Qed.

(** The row goes into the tree and the write is recorded. *)
Lemma install_run n key row planned x c :
  idle (S n) c -> zlen key = KEY_SIZE -> BpSpec.lv_ok row ->
  exists b t' r, (_ ← tree_insert key row; record_write key planned) (x, c) =
    (Ret tt, (with_writes ({[key]} ∪ tx_modified x) (tx_mutations x ++ planned) (with_pages (tx_dirty x) b (tx_ro_cache x) x),
              with_registry r (with_store t' c))) /\
    row_changed n (ec_store c) t' (<[key := row]> (rows (ec_store c))) /\ cs_dirty t' = None.
Proof.
  intros Hi Hk Hl. destruct (tree_insert_run n key row x c Hi Hk Hl) as (b & t' & Hr & Hc & Hd).
  destruct (record_write_run key planned (with_pages (tx_dirty x) b (tx_ro_cache x) x) (with_store t' c)) as (r & Hw).
  exists b, t', r. split; [|done]. by rewrite (st_bind_ret _ _ _ _ _ Hr), Hw.
Qed.

(** From the undo record to the whole write. *)
Lemma install_wrote n k key row planned x c m x1 t1 m1 :
  zlen key = KEY_SIZE -> BpSpec.lv_ok row ->
  undo_step (S n) x (ec_store c) m x1 t1 m1 -> undo_ready k x1 t1 m1 ->
  replaces x (rows (ec_store c) !! key) row t1 m1 ->
  exists x' c', (_ ← tree_insert key row; record_write key planned) (x1, with_store t1 c) = (Ret tt, (x', c')) /\
    wrote n k x c m key row x' c' m1 /\ tx_mutations x' = tx_mutations x ++ planned /\ ec_indexes c' = ec_indexes c.
Proof.
  intros Hk Hl Hs Hu Hrep.
  assert (Hi1 : idle (S n) (with_store t1 c)) by (destruct Hs; by split).
  destruct (install_run n key row planned x1 (with_store t1 c) Hi1 Hk Hl) as (b & t' & r & Hr & [Rg Rr Rp _ Rs] & Hd).
  eexists _, _. split; [exact Hr|]. destruct Hs as [_ _ Sr _ Sc Sl Sk]. cbn [ec_store with_store] in *.
  assert (Hmu : tx_mutations x1 = tx_mutations x) by exact (f_equal tx_mutations Sc).
  assert (Hmo : tx_modified x1 = tx_modified x) by exact (f_equal tx_modified Sc).
  split; [|cbn; by rewrite Hmu]. split.
  - by split.
  - done.
  - cbn. by rewrite Rr, Sr.
  - intros i p Hlv Hp. destruct (Sk i p Hlv Hp) as (p' & Hp' & He). exists p'. cbn. by rewrite Rp.
  - done.
  - destruct Hu as [(mp & ? & ?) ? ? Hlast ?]. split; try done; [exists mp; cbn; by rewrite Rp|].
    intros pid Hpid. destruct (Hlast pid Hpid) as [? (p & ? & ? & ?)]. split; [done|]. exists p. cbn. by rewrite Rp.
  - split_and!; [apply (f_equal tx_undo_txn_id Sc)|apply (f_equal tx_read_lsn Sc)|apply (f_equal tx_timeout Sc)|
      apply (f_equal tx_intent_base_lsn Sc)].
  - cbn. by rewrite Hmo.
  - unfold replaces in *. destruct (rows (ec_store c) !! key) as [old|]; [|done]. destruct (own_intent x old); [done|].
    destruct Hrep as (ptr & page & rec & ? & ? & ? & ? & ?). exists ptr, page, rec. cbn. by rewrite Rp.
  - apply (f_equal tx_read_guard Sc).
Qed.

Lemma undo_ready_weaken k x t m : undo_ready (k + 1) x t m -> undo_ready k x t m.
Proof. intros [? [] ? ? ?]. split; try assumption. split; try assumption. lia. Qed.

Lemma undo_step_refl n x t m : good n t -> cs_dirty t = None -> undo_step n x t m x t m.
Proof. intros. by apply undo_step_same, same_refl. Qed.

Lemma to_array_ok n bs : zlen bs = n -> to_array n bs = Ret bs.
Proof. intros <-. unfold to_array. by rewrite Z.eqb_refl. Qed.

Lemma plan_run order pk old new muts x (c : EmbeddedCompute T) :
  SecIndex.plan_mutations order pk old new (ec_indexes c) = Ret muts ->
  plan_mutations order pk old new (x, c) = (Ret muts, (x, c)).
Proof. intros Hp. unfold plan_mutations. apply on_compute_run. rewrite st_bind_gets. unfold lift. by rewrite Hp. Qed.

(** The LSN of the intent: that of the first write of the transaction to the row. *)
Definition intent_of (x : EmbeddedTxn) (old : option LeafValue) : Z :=
  match old with
  | Some old => if own_intent x old then intent_lsn (lv_meta old) else tx_intent_base_lsn x
  | None => tx_intent_base_lsn x
  end.

(** An intent of [x] with these flags over [old]. *)
Definition intent_row (x : EmbeddedTxn) (old : option LeafValue) (fl : Z) (value : bytes) (row : LeafValue) : Prop :=
  exists txn u, tx_undo_txn_id x = Some txn /\ row = {| lv_value := value; lv_meta := meta_of 0 u fl txn (intent_of x old) |}.

Lemma intent_of_bound x old : 0 <= tx_intent_base_lsn x < U64 -> writable x old -> 0 <= intent_of x old < U64.
Proof. destruct old as [old|]; [|done]. cbn. intros ? ([] & _ & _). by destruct (own_intent x old). Qed.

Lemma meta_of_ok value u fl txn intent :
  zlen value = VALUE_SIZE -> UndoSpec.ptr_ok u -> 0 <= fl < U16 -> 0 <= txn < U64 -> 0 <= intent < U64 ->
  BpSpec.lv_ok {| lv_value := value; lv_meta := meta_of 0 u fl txn intent |}.
Proof. intros. split; cbn; try assumption; [unfold U64; lia|by apply ptr_ok_iff]. Qed.

(** The pointer of the new row, by the three cases of [replaces]. *)
Lemma undo_for_run n k old m x c :
  idle (UNDO_PAGES + S n) c -> 0 <= k -> writer (k + 1) x (ec_store c) m -> writable x (Some old) ->
  exists u x1 t1 m1,
    (if own_intent x old then mret (undo_ptr (lv_meta old)) else undo_of old) (x, c) = (Ret u, (x1, with_store t1 c)) /\
    undo_step (S n) x (ec_store c) m x1 t1 m1 /\ undo_ready k x1 t1 m1 /\ UndoSpec.ptr_ok u /\
    (forall row, undo_ptr (lv_meta row) = u -> replaces x (Some old) row t1 m1).
Proof.
  intros Hi Hk Hw (Hl & Hb & _). destruct (own_intent x old) eqn:Eo.
  - exists (undo_ptr (lv_meta old)), x, (ec_store c), m. split; [by destruct c|].
    split; [apply undo_step_refl; [eapply good_less|]; apply Hi|]. split; [apply undo_ready_weaken, Hw|].
    split; [apply ptr_ok_iff, Hl|]. intros row Hu. cbn. by rewrite Eo.
  - destruct (undo_of_run (S n) k old m x c Hi Hk Hw Hl Hb)
      as (ptr & page & rec & x1 & t1 & m1 & Hr & Hs & Hu & Hlv & Hp & Hpg & Hrec & Hv & Hprev).
    exists (Some ptr), x1, t1, m1. do 4 (split; [assumption|]). intros row Hu'. cbn. rewrite Eo.
    exists ptr, page, rec. destruct Hp as [_ Hp]. split_and!; try assumption; apply Hp.
Qed.

(** The metadata [put] computes. *)
Lemma put_meta_run n k m x c old txn :
  idle (UNDO_PAGES + S n) c -> 0 <= k -> writer (k + 1) x (ec_store c) m -> writable x old -> tx_undo_txn_id x = Some txn ->
  exists u x1 t1 m1,
    match old with
    | None => mret (meta_of 0 None FLAG_INTENT txn (tx_intent_base_lsn x))
    | Some old =>
        if own_intent x old then mret (meta_of 0 (undo_ptr (lv_meta old)) FLAG_INTENT txn (intent_lsn (lv_meta old))) else
        if foreign_intent x old then throw (Io WouldBlock) else
        u ← undo_of old;
        mret (meta_of 0 u FLAG_INTENT txn (tx_intent_base_lsn x))
    end (x, c) = (Ret (meta_of 0 u FLAG_INTENT txn (intent_of x old)), (x1, with_store t1 c)) /\
    undo_step (S n) x (ec_store c) m x1 t1 m1 /\ undo_ready k x1 t1 m1 /\ UndoSpec.ptr_ok u /\
    (forall row, undo_ptr (lv_meta row) = u -> replaces x old row t1 m1).
Proof.
  intros Hi Hk Hw Hold Htx. destruct old as [old|].
  - pose proof Hold as (_ & _ & Hf).
    destruct (undo_for_run n k old m x c Hi Hk Hw Hold) as (u & x1 & t1 & m1 & Hr & Hs & Hu & Hp & Hrep).
    exists u, x1, t1, m1. split; [|by split_and!]. cbn [intent_of]. destruct (own_intent x old); [by injection Hr as <- <- <-|].
    rewrite Hf. by rewrite (st_bind_ret _ _ _ _ _ Hr).
  - exists None, x, (ec_store c), m. split; [by destruct c|]. split; [apply undo_step_refl; [eapply good_less|]; apply Hi|].
    split; [apply undo_ready_weaken, Hw|]. by split.
Qed.

Lemma writer_same n k x t m t' : writer k x t m -> same n t t' -> writer k x t' m.
Proof.
  intros [[(mp & ? & ?) ? ? Hlast ?] ? ? ?] []. split; try assumption. split; try assumption.
  - exists mp. by rewrite same_pages.
  - intros pid Hpid. destruct (Hlast pid Hpid) as [? (p & ? & ? & ?)]. split; [assumption|]. exists p. by rewrite same_pages.
Qed.

Lemma put_run n k order key value muts m x c :
  idle (UNDO_PAGES + S n) c -> 0 <= k -> writer (k + 1) x (ec_store c) m -> zlen key = KEY_SIZE -> zlen value = VALUE_SIZE ->
  writable x (rows (ec_store c) !! key) ->
  SecIndex.plan_mutations order key (lv_value <$> rows (ec_store c) !! key) (Some value) (ec_indexes c) = Ret muts ->
  exists row x' c' m', put order key value (x, c) = (Ret tt, (x', c')) /\ wrote n k x c m key row x' c' m' /\
    intent_row x (rows (ec_store c) !! key) FLAG_INTENT value row /\ tx_mutations x' = tx_mutations x ++ muts /\
    ec_indexes c' = ec_indexes c.
Proof.
  intros Hi Hk Hw Hkey Hval Hold Hplan. pose proof Hw as [Hready Htmo (txn & Htx & Htxb) Hbase].
  unfold put. rewrite (st_bind_ret _ _ _ _ _ (ensure_run x c Htmo)). rewrite get_tx_bind. cbn [fst id]. rewrite (ur_rw _ _ _ _ Hready).
  destruct (tree_get_run _ key x c Hi Hkey) as (t0 & H0 & S0). rewrite (st_bind_ret _ _ _ _ _ H0).
  set (c0 := with_store t0 c). pose proof (same_idle _ _ _ Hi S0) as Hi0. fold c0 in Hi0.
  pose proof (writer_same _ _ _ _ _ t0 Hw S0) as Hw0.
  set (old := rows (ec_store c) !! key) in *.
  rewrite (st_bind_lift _ _ _ (lv_value <$> old)).
  2:{ destruct old as [o|]; [|reflexivity]. destruct Hold as ([Hv _ _ _ _ _] & _). by rewrite to_array_ok. }
  rewrite (st_bind_lift _ _ _ value) by (by apply to_array_ok). rewrite (st_bind_lift _ _ _ key) by (by apply to_array_ok).
  rewrite (st_bind_ret _ _ _ _ _ (plan_run order key _ _ muts x c0 Hplan)). rewrite get_tx_bind. cbn [fst id]. rewrite Htx. cbn [default id].
  destruct (put_meta_run n k m x c0 old txn Hi0 Hk Hw0 Hold Htx) as (u & x1 & t1 & m1 & H1 & S1 & Hu & Hp & Hrep).
  rewrite (st_bind_ret _ _ _ _ _ H1).
  set (row := {| lv_value := value; lv_meta := meta_of 0 u FLAG_INTENT txn (intent_of x old) |}).
  assert (S01 : undo_step (S n) x (ec_store c) m x1 t1 m1).
  { eapply undo_step_trans; [apply undo_step_same; [apply Hi|exact S0]|exact S1]. }
  destruct (install_wrote n k key row muts x c m x1 t1 m1 Hkey) as (x' & c' & Hr & Hwr & Hmu & Hix); try assumption.
  { apply meta_of_ok; try assumption; [unfold FLAG_INTENT, U16; lia|by apply intent_of_bound]. }
  { by apply Hrep. }
  exists row, x', c', m1. split; [exact Hr|]. split; [assumption|]. split; [by exists txn, u|]. by split.
Qed.

Lemma delete_run n k order key old muts m x c :
  idle (UNDO_PAGES + S n) c -> 0 <= k -> writer (k + 1) x (ec_store c) m -> zlen key = KEY_SIZE ->
  rows (ec_store c) !! key = Some old -> writable x (Some old) ->
  SecIndex.plan_mutations order key (Some (lv_value old)) None (ec_indexes c) = Ret muts ->
  exists row x' c' m', delete order key (x, c) = (Ret tt, (x', c')) /\ wrote n k x c m key row x' c' m' /\
    intent_row x (Some old) (Z.lor FLAG_TOMBSTONE FLAG_INTENT) (lv_value old) row /\ tx_mutations x' = tx_mutations x ++ muts /\
    ec_indexes c' = ec_indexes c.
Proof.
  intros Hi Hk Hw Hkey Hr Hold Hplan. pose proof Hw as [Hready Htmo (txn & Htx & Htxb) Hbase]. pose proof Hold as ([Hv _ _ _ _ _] & _ & Hf).
  unfold delete. rewrite (st_bind_ret _ _ _ _ _ (ensure_run x c Htmo)). rewrite get_tx_bind. cbn [fst id]. rewrite (ur_rw _ _ _ _ Hready).
  destruct (tree_get_run _ key x c Hi Hkey) as (t0 & H0 & S0). rewrite (st_bind_ret _ _ _ _ _ H0), Hr.
  set (c0 := with_store t0 c). pose proof (same_idle _ _ _ Hi S0) as Hi0. fold c0 in Hi0.
  pose proof (writer_same _ _ _ _ _ t0 Hw S0) as Hw0.
  rewrite (st_bind_lift _ _ _ key) by (by apply to_array_ok). rewrite (st_bind_lift _ _ _ (lv_value old)) by (by apply to_array_ok).
  rewrite (st_bind_ret _ _ _ _ _ (plan_run order key _ _ muts x c0 Hplan)). rewrite get_tx_bind. cbn [fst id]. rewrite Hf.
  destruct (undo_for_run n k old m x c0 Hi0 Hk Hw0 Hold) as (u & x1 & t1 & m1 & H1 & S1 & Hu & Hp & Hrep).
  rewrite (st_bind_ret _ _ _ _ _ H1). rewrite (st_bind_lift _ _ _ (lv_value old)) by (by apply to_array_ok). rewrite Htx. cbn [default id].
  change (if own_intent x old then intent_lsn (lv_meta old) else tx_intent_base_lsn x) with (intent_of x (Some old)).
  set (row := {| lv_value := lv_value old; lv_meta := meta_of 0 u (Z.lor FLAG_TOMBSTONE FLAG_INTENT) txn (intent_of x (Some old)) |}).
  assert (S01 : undo_step (S n) x (ec_store c) m x1 t1 m1).
  { eapply undo_step_trans; [apply undo_step_same; [apply Hi|exact S0]|exact S1]. }
  destruct (install_wrote n k key row muts x c m x1 t1 m1 Hkey) as (x' & c' & Hx & Hwr & Hmu & Hix); try assumption.
  { apply meta_of_ok; try assumption; [change (Z.lor FLAG_TOMBSTONE FLAG_INTENT) with 3; unfold U16; lia|by apply intent_of_bound]. }
  { rewrite Hr. by apply Hrep. }
  exists row, x', c', m1. split; [exact Hx|]. split; [assumption|]. split; [by exists txn, u|]. by split.
Qed.

(** ** Snapshots *)

(** A transaction that has neither written nor read pages, and has no deadline. *)
Record fresh (y : EmbeddedTxn) : Prop := {
  fr_dirty : tx_dirty y = ∅;
  fr_ro : tx_ro_cache y = ∅;
  fr_timeout : tx_timeout y = None
}.

Lemma fresh_seen y (t : T) i : fresh y -> seen y t i = page_of t i.
Proof. intros [Hd Hr _]. unfold seen. by rewrite Hd, Hr, !lookup_empty. Qed.

Lemma chain_ext (f g : PageId -> option Page) u l : (forall i, f i = g i) -> chain f u l -> chain g u l.
Proof. intros He. induction 1; econstructor; try eassumption. by rewrite <-He. Qed.

(** The records of a chain are on live pages. *)
Definition live_chain (m : MetaPage) (l : list (UndoPtr * UndoRecord)) : Prop := Forall (fun e => live m (up_page_id e.1)) l.

Lemma chain_keeps m (t t' : T) u l : keeps m t t' -> live_chain m l -> chain (page_of t) u l -> chain (page_of t') u l.
Proof.
  intros Hk Hl Hc. induction Hc as [|ptr page rec l Ha Hs Hp Hr Hc IH]; [constructor|].
  apply Forall_cons in Hl as [Hlv Hl]. destruct (Hk _ _ Hlv Hp) as (p' & Hp' & He).
  econstructor; [assumption|assumption|exact Hp'|by apply He|by apply IH].
Qed.

Lemma get_run n fuel key x c k o :
  idle n c -> zlen key = KEY_SIZE -> tx_timeout x = None -> sees x (ec_store c) key k o -> (k < fuel)%nat ->
  exists x' t', get fuel key (x, c) = (Ret o, (x', with_store t' c)) /\ read_step n x (ec_store c) x' t'.
Proof.
  intros Hi Hk Ht Hs Hf. unfold get. rewrite (st_bind_ret _ _ _ _ _ (ensure_run x c Ht)).
  rewrite (st_bind_lift _ _ _ tt) by (unfold check_key; by rewrite Hk, Z.eqb_refl). by apply read_row_run with k.
Qed.

Lemma get_exists_run n fuel key x c k o :
  idle n c -> zlen key = KEY_SIZE -> tx_timeout x = None -> sees x (ec_store c) key k o -> (k < fuel)%nat ->
  exists x' t', get_exists fuel key (x, c) = (Ret (shown o), (x', with_store t' c)) /\ read_step n x (ec_store c) x' t'.
Proof.
  intros Hi Hk Ht Hs Hf. unfold get_exists. rewrite (st_bind_ret _ _ _ _ _ (ensure_run x c Ht)).
  rewrite (st_bind_lift _ _ _ tt) by (unfold check_key; by rewrite Hk, Z.eqb_refl). by apply read_exists_run with k.
Qed.

(** What a snapshot shows of a key, with its undo records on live pages. *)
Inductive stable (m : MetaPage) (y : EmbeddedTxn) (t : T) (key : bytes) : nat -> option bytes -> Prop :=
| stable_absent : rows t !! key = None -> stable m y t key 0 None
| stable_row row l :
    rows t !! key = Some row -> unblocked y row -> chain (page_of t) (undo_ptr (lv_meta row)) l -> live_chain m l ->
    stable m y t key (length l) (visible (tx_read_lsn y) (versions row l)).

Lemma stable_sees m y (t : T) key k o : fresh y -> stable m y t key k o -> sees y t key k o.
Proof.
  intros Hf [Hr|row l Hr Hu Hc _]; [by constructor|]. econstructor; [exact Hr|exact Hu|].
  eapply chain_ext; [|exact Hc]. intros i. by rewrite fresh_seen.
Qed.

Lemma visible_intent r lsn fl value vs :
  has_flag FLAG_INTENT fl = true -> visible r ((lsn, fl, value) :: vs) = visible r vs.
Proof. intros Hf. cbn [visible]. by rewrite Hf. Qed.

Lemma own_intent_flag x old : own_intent x old = true -> has_flag FLAG_INTENT (flags (lv_meta old)) = true.
Proof. unfold own_intent. by destruct (has_flag FLAG_INTENT _). Qed.

Lemma not_own_not_foreign x old :
  own_intent x old = false -> foreign_intent x old = false -> has_flag FLAG_INTENT (flags (lv_meta old)) = false.
Proof. unfold own_intent, foreign_intent. by destruct (has_flag FLAG_INTENT _), (bool_decide _). Qed.

(** The written key, for a snapshot from before the write. *)
Lemma wrote_same_key n k x c m key row x' c' m' y j o fl value :
  wrote n k x c m key row x' c' m' -> writable x (rows (ec_store c) !! key) ->
  intent_row x (rows (ec_store c) !! key) fl value row -> has_flag FLAG_INTENT fl = true ->
  tx_undo_txn_id y <> tx_undo_txn_id x -> tx_read_lsn y < intent_of x (rows (ec_store c) !! key) ->
  stable m y (ec_store c) key j o -> exists j', (j' <= S j)%nat /\ stable m' y (ec_store c') key j' o.
Proof.
  intros [_ _ Hrows Hkeep Hlive _ _ _ Hrep _] Hwr (txn & u & Htx & Hrow) Hfl Hne Hlt Hst.
  assert (Hr' : rows (ec_store c') !! key = Some row) by (rewrite Hrows; apply lookup_insert_eq).
  assert (Hub : unblocked y row) by (right; subst row; cbn; by rewrite <-Htx).
  assert (Hvis : forall l, visible (tx_read_lsn y) (versions row l) = visible (tx_read_lsn y) ((fun e => undo_version e.2) <$> l)).
  { intros l. unfold versions, row_version. by rewrite visible_intent by (by subst row). }
  destruct Hst as [Hr|old l Hr Hu Hc Hl]; rewrite Hr in *.
  - exists 0%nat. split; [lia|]. change 0%nat with (length (@nil (UndoPtr * UndoRecord))).
    replace (@None bytes) with (visible (tx_read_lsn y) (versions row [])) by apply (Hvis []).
    econstructor; [exact Hr'|exact Hub| |constructor]. cbn in Hrep. rewrite Hrep. constructor.
  - pose proof (chain_keeps _ _ _ _ _ Hkeep Hl Hc) as Hc'.
    assert (Hl' : live_chain m' l) by (eapply Forall_impl; [exact Hl|]; intros; by apply Hlive).
    destruct Hwr as (_ & _ & Hfor). cbn in Hrep. destruct (own_intent x old) eqn:Eo.
    + exists (length l). split; [lia|]. unfold versions at 1, row_version. rewrite visible_intent by (by eapply own_intent_flag).
      rewrite <-Hvis. econstructor; [exact Hr'|exact Hub| |assumption]. by rewrite Hrep.
    + destruct Hrep as (ptr & page & rec & Hp & Hlv & Hsl & Hpg & Hrec & Hv & Hprev).
      exists (length ((ptr, rec) :: l)). split; [cbn; lia|].
      replace (visible _ (versions old l)) with (visible (tx_read_lsn y) (versions row ((ptr, rec) :: l)))
        by (rewrite Hvis; cbn [fmap list_fmap snd]; by rewrite Hv).
      econstructor; [exact Hr'|exact Hub| |by constructor]. rewrite Hp.
      econstructor; [apply undo_base_aux, Hlv|assumption|exact Hpg|exact Hrec|by rewrite Hprev].
Qed.

Lemma wrote_other_key n k x c m key row x' c' m' y key' j o :
  wrote n k x c m key row x' c' m' -> key' <> key -> stable m y (ec_store c) key' j o -> stable m' y (ec_store c') key' j o.
Proof.
  intros [_ _ Hrows Hkeep Hlive _ _ _ _ _] Hne [Hr|old l Hr Hu Hc Hl].
  - constructor. by rewrite Hrows, lookup_insert_ne.
  - econstructor; [by rewrite Hrows, lookup_insert_ne|assumption|by eapply chain_keeps|].
    eapply Forall_impl; [exact Hl|]. intros; by apply Hlive.
Qed.

(** A write changes nothing for an older snapshot. *)
Lemma wrote_snapshots n0 n k x c m key row x' c' m' y key' j o fl value fuel :
  idle n0 c -> wrote n k x c m key row x' c' m' -> writable x (rows (ec_store c) !! key) ->
  intent_row x (rows (ec_store c) !! key) fl value row -> has_flag FLAG_INTENT fl = true ->
  fresh y -> zlen key' = KEY_SIZE -> tx_undo_txn_id y <> tx_undo_txn_id x ->
  (key' = key -> tx_read_lsn y < intent_of x (rows (ec_store c) !! key)) ->
  stable m y (ec_store c) key' j o -> (S j < fuel)%nat ->
  (get fuel key' (y, c)).1 = Ret o /\ (get fuel key' (y, c')).1 = Ret o.
Proof.
  intros Hi Hw Hwr Hrow Hfl Hy Hk Hne Hlt Hst Hf.
  assert (exists j', (j' <= S j)%nat /\ stable m' y (ec_store c') key' j' o) as (j' & Hj & Hst').
  { destruct (decide (key' = key)) as [->|Hnk]; [eapply wrote_same_key; eauto|exists j; split; [lia|by eapply wrote_other_key]]. }
  destruct (get_run n0 fuel key' y c j o Hi Hk (fr_timeout y Hy) (stable_sees _ _ _ _ _ _ Hy Hst)) as (? & ? & -> & _); [lia|].
  destruct (get_run n fuel key' y c' j' o (wr_idle _ _ _ _ _ _ _ _ _ _ Hw) Hk (fr_timeout y Hy) (stable_sees _ _ _ _ _ _ Hy Hst')) as (? & ? & -> & _); [lia|].
  done.
Qed.

(** C9: A read returns the version its snapshot selects: the newest one of the row and its
    undo records that is committed at the LSN of the transaction, nothing when that version
    is a deletion or when there is none.  [get_exists], which does not decode values, answers
    whether [get] shows one, and neither of them changes the rows. *)
Theorem snapshot_read n fuel key x (c : EmbeddedCompute T) k o :
  idle n c -> zlen key = KEY_SIZE -> tx_timeout x = None -> sees x (ec_store c) key k o -> (k < fuel)%nat ->
  (get fuel key (x, c)).1 = Ret o /\ (get_exists fuel key (x, c)).1 = Ret (shown o) /\
  rows (ec_store (get fuel key (x, c)).2.2) = rows (ec_store c).
Proof.
  intros Hi Hk Ht Hs Hf.
  destruct (get_run n fuel key x c k o Hi Hk Ht Hs Hf) as (x1 & t1 & -> & [S1 _ _]).
  destruct (get_exists_run n fuel key x c k o Hi Hk Ht Hs Hf) as (x2 & t2 & -> & _). destruct S1. by split_and!.
Qed.

(** C8: A write does not change what an older snapshot reads, for a reader that has no page
    in its own cache yet ([fresh]).  [put] over an absent or a committed row, or over a row
    the transaction wrote before, succeeds; every other transaction that has read nothing
    so far, with a snapshot from before the write, then reads the value it would have read
    before it, for the written key and for every other key.  (A reader that holds an older
    copy of the undo page is not covered: see [stale_undo_page_fails].) *)
Theorem put_keeps_snapshots n k order key value muts m x (c : EmbeddedCompute T) :
  idle (UNDO_PAGES + S n) c -> 0 <= k -> writer (k + 1) x (ec_store c) m -> zlen key = KEY_SIZE -> zlen value = VALUE_SIZE ->
  writable x (rows (ec_store c) !! key) ->
  SecIndex.plan_mutations order key (lv_value <$> rows (ec_store c) !! key) (Some value) (ec_indexes c) = Ret muts ->
  exists x' c', put order key value (x, c) = (Ret tt, (x', c')) /\
    forall y key' j o fuel, fresh y -> zlen key' = KEY_SIZE -> tx_undo_txn_id y <> tx_undo_txn_id x ->
      (key' = key -> tx_read_lsn y < intent_of x (rows (ec_store c) !! key)) ->
      stable m y (ec_store c) key' j o -> (S j < fuel)%nat ->
      (get fuel key' (y, c)).1 = Ret o /\ (get fuel key' (y, c')).1 = Ret o.
Proof.
  intros Hi Hk Hw Hkey Hval Hold Hplan.
  destruct (put_run n k order key value muts m x c Hi Hk Hw Hkey Hval Hold Hplan) as (row & x' & c' & m' & Hr & Hwr & Hrow & _ & _).
  exists x', c'. split; [exact Hr|]. intros. by eapply wrote_snapshots.
Qed.

(** The transaction's own intent is what it reads. *)
Lemma own_read n fuel key x c row txn :
  idle n c -> zlen key = KEY_SIZE -> tx_timeout x = None -> rows (ec_store c) !! key = Some row ->
  tx_undo_txn_id x = Some txn -> has_flag FLAG_INTENT (flags (lv_meta row)) = true -> intent_txn_id (lv_meta row) = txn ->
  (get (S fuel) key (x, c)).1 = Ret (row_value row).
Proof.
  intros Hi Hk Ht Hr Htx Hf Hid. unfold get. rewrite (st_bind_ret _ _ _ _ _ (ensure_run x c Ht)).
  rewrite (st_bind_lift _ _ _ tt) by (unfold check_key; by rewrite Hk, Z.eqb_refl).
  unfold read_visible_value_from_row. cbn [read_visible_value_loop]. rewrite (st_bind_ret _ _ _ _ _ (ensure_run x c Ht)).
  destruct (tree_get_run n key x c Hi Hk) as (t1 & H1 & _). rewrite (st_bind_ret _ _ _ _ _ H1), Hr.
  rewrite get_tx_bind. cbn [fst id]. by rewrite Hf, bool_decide_true by congruence.
Qed.

(** C37: A transaction reads its own writes.  After [put] it reads the new value, and after a
    further [delete] of the same key it reads nothing; both calls succeed. *)
Theorem read_your_writes n k order key value muts m x (c : EmbeddedCompute T) fuel :
  idle (UNDO_PAGES + S (UNDO_PAGES + S n)) c -> 0 <= k -> writer (k + 1 + 1) x (ec_store c) m -> zlen key = KEY_SIZE -> zlen value = VALUE_SIZE ->
  wf_bytes value -> writable x (rows (ec_store c) !! key) ->
  SecIndex.plan_mutations order key (lv_value <$> rows (ec_store c) !! key) (Some value) (ec_indexes c) = Ret muts ->
  is_ret (SecIndex.plan_mutations order key (Some value) None (ec_indexes c)) = true ->
  exists x1 c1 x2 c2, put order key value (x, c) = (Ret tt, (x1, c1)) /\ (get (S fuel) key (x1, c1)).1 = Ret (Some value) /\
    delete order key (x1, c1) = (Ret tt, (x2, c2)) /\ (get (S fuel) key (x2, c2)).1 = Ret None /\
    forall key', key' <> key -> rows (ec_store c2) !! key' = rows (ec_store c) !! key'.
Proof.
  intros Hi Hk Hw Hkey Hval Hwf Hold Hplan Hplan2. pose proof Hw as [_ Htmo (txn & Htx & Htxb) Hbase].
  destruct (put_run (UNDO_PAGES + S n) (k + 1) order key value muts m x c Hi ltac:(lia) Hw Hkey Hval Hold Hplan)
    as (row & x1 & c1 & m1 & Hr & [Wi Wl Wr _ _ Wu (Wt & _ & Wtm & Wb) _ _ _] & (txn' & u & Htx' & Hrow) & _ & Hix).
  rewrite Htx in Htx'. injection Htx' as <-. rewrite Htx in Wt. rewrite Htmo in Wtm.
  assert (Hr1 : rows (ec_store c1) !! key = Some row) by (rewrite Wr; apply lookup_insert_eq).
  assert (Hw1 : writer (k + 1) x1 (ec_store c1) m1) by (split; [assumption|assumption|by exists txn|by rewrite Wb]).
  destruct (SecIndex.plan_mutations order key (Some value) None (ec_indexes c)) as [muts2| | |] eqn:Hp2; try discriminate.
  destruct (delete_run n k order key row muts2 m1 x1 c1 Wi Hk Hw1 Hkey Hr1) as (row2 & x2 & c2 & m2 & Hd & [Di _ Dr _ _ _ (Dt & _ & Dtm & _) _ _ _] & (txn2 & u2 & Htx2 & Hrow2) & _ & _).
  { split; [assumption|]. subst row. cbn. split; [assumption|]. unfold foreign_intent. cbn. by rewrite bool_decide_true by congruence. }
  { subst row. cbn. by rewrite Hix. }
  rewrite Wt in Htx2. injection Htx2 as <-.
  exists x1, c1, x2, c2. split; [exact Hr|]. split; [|split; [exact Hd|split]].
  - rewrite (own_read (UNDO_PAGES + S n) fuel key x1 c1 row txn) by (assumption || by subst row). by subst row.
  - rewrite (own_read n fuel key x2 c2 row2 txn); try assumption; try congruence; try (by subst row2).
    rewrite Dr. apply lookup_insert_eq.
  - intros key' Hne. by rewrite Dr, lookup_insert_ne, Wr, lookup_insert_ne.
Qed.

(** ** Intents of other transactions *)

(** One look at a row with an intent that the reader has to wait for. *)
Lemma blocked_look n looks fuel key x c row :
  idle n c -> zlen key = KEY_SIZE -> tx_timeout x = None -> rows (ec_store c) !! key = Some row ->
  has_flag FLAG_INTENT (flags (lv_meta row)) = true -> tx_undo_txn_id x <> Some (intent_txn_id (lv_meta row)) ->
  intent_lsn (lv_meta row) <= tx_read_lsn x ->
  exists t', same n (ec_store c) t' /\ read_visible_value_loop fuel (S looks) key (x, c) =
    (_ ← on_compute (wait_on_pending_txn fuel (intent_txn_id (lv_meta row)) INTENT_WAIT_GRACE);
     read_visible_value_loop fuel looks key) (x, with_store t' c).
Proof.
  intros Hi Hk Ht Hr Hf Hne Hle. destruct (tree_get_run n key x c Hi Hk) as (t' & H1 & S1). exists t'. split; [assumption|].
  cbn [read_visible_value_loop]. rewrite (st_bind_ret _ _ _ _ _ (ensure_run x c Ht)), (st_bind_ret _ _ _ _ _ H1), Hr.
  rewrite get_tx_bind. cbn [fst id]. rewrite Hf, bool_decide_false by assumption.
  by destruct (Z.ltb_spec (tx_read_lsn x) (intent_lsn (lv_meta row))); [lia|].
Qed.

Lemma wait_gone wakes txn grace (c : EmbeddedCompute T) : ec_registry c !! txn = None ->
  wait_on_pending_txn (S wakes) txn grace c = (Ret tt, c).
Proof. intros Hp. cbn [wait_on_pending_txn]. by rewrite st_bind_gets, Hp. Qed.

Lemma wait_pending wakes txn grace (c : EmbeddedCompute T) pending : ec_registry c !! txn = Some pending ->
  let deadline := pt_deadline pending + grace in let c1 := with_clock (tick (ec_clock c)) c in
  wait_on_pending_txn (S wakes) txn grace c =
    if deadline <=? ck_now (ec_clock c1) then (Fail (Io WouldBlock), c1) else
    let '(notified, c2) := meanwhile txn c1 in
    if notified then wait_on_pending_txn wakes txn grace c2
    else (Fail (Io WouldBlock), with_clock (sleep_until deadline (ec_clock c2)) c2).
Proof.
  intros Hp deadline c1. cbn [wait_on_pending_txn]. rewrite st_bind_gets, Hp. rewrite (st_bind_ret _ _ _ _ _ (eq_refl (instant_now c))).
  fold deadline c1. change (ck_now (tick (ec_clock c))) with (ck_now (ec_clock c1)). destruct (_ <=? _); [done|].
  unfold wait_notified, mbind, st_bind. by destruct (meanwhile txn c1) as [[] c2].
Qed.

(** C40: A reader that meets an intent of a pending transaction, placed before its snapshot,
    waits for that transaction until 50 milliseconds after its deadline.  It fails with
    [WouldBlock] when that time is over, at once or after the wait, and then the clock is
    not before it; when it is woken by the end of the transaction it looks again and returns
    what its snapshot shows of the row as the transaction left it. *)
Theorem reader_waits_for_intent n fuel key x (c : EmbeddedCompute T) row pending :
  idle n c -> zlen key = KEY_SIZE -> tx_timeout x = None -> rows (ec_store c) !! key = Some row ->
  has_flag FLAG_INTENT (flags (lv_meta row)) = true -> tx_undo_txn_id x <> Some (intent_txn_id (lv_meta row)) ->
  intent_lsn (lv_meta row) <= tx_read_lsn x -> ec_registry c !! intent_txn_id (lv_meta row) = Some pending ->
  let deadline := pt_deadline pending + INTENT_WAIT_GRACE in
  exists t', same n (ec_store c) t' /\
    let c1 := with_clock (tick (ec_clock c)) (with_store t' c) in
    if deadline <=? ck_now (ec_clock c1) then get (S (S fuel)) key (x, c) = (Fail (Io WouldBlock), (x, c1)) else
    match meanwhile (intent_txn_id (lv_meta row)) c1 with
    | (false, c2) => get (S (S fuel)) key (x, c) = (Fail (Io WouldBlock), (x, with_clock (sleep_until deadline (ec_clock c2)) c2))
    | (true, c2) => forall m k o, idle m c2 -> ec_registry c2 !! intent_txn_id (lv_meta row) = None ->
        sees x (ec_store c2) key k o -> (k < S (S fuel))%nat -> (get (S (S fuel)) key (x, c)).1 = Ret o
    end.
Proof.
  intros Hi Hk Ht Hr Hf Hne Hle Hp deadline. unfold get. rewrite (st_bind_ret _ _ _ _ _ (ensure_run x c Ht)).
  rewrite (st_bind_lift _ _ _ tt) by (unfold check_key; by rewrite Hk, Z.eqb_refl).
  destruct (blocked_look n (S fuel) (S (S fuel)) key x c row Hi Hk Ht Hr Hf Hne Hle) as (t' & Hs & Hl).
  exists t'. split; [exact Hs|]. unfold read_visible_value_from_row. rewrite Hl. cbv zeta. set (c1 := with_clock (tick (ec_clock c)) (with_store t' c)).
  pose proof (wait_pending (S fuel) (intent_txn_id (lv_meta row)) INTENT_WAIT_GRACE (with_store t' c) pending Hp) as Hw.
  cbv zeta in Hw. fold deadline in Hw. change (with_clock (tick (ec_clock (with_store t' c))) (with_store t' c)) with c1 in Hw.
  destruct (_ <=? _); [by rewrite (st_bind_fail _ _ _ _ _ (on_compute_run _ x _ _ _ Hw))|].
  destruct (meanwhile _ c1) as [[] c2]; [|by rewrite (st_bind_fail _ _ _ _ _ (on_compute_run _ x _ _ _ Hw))].
  intros m k o Hi2 Hgone Hsees Hkf. rewrite (wait_gone fuel _ _ c2 Hgone) in Hw.
  rewrite (st_bind_ret _ _ _ _ _ (on_compute_run _ x _ _ _ Hw)).
  by destruct (read_look_run m (S (S fuel)) fuel key x c2 k o Hi2 Hk Ht Hsees Hkf) as (? & ? & -> & _).
Qed.

(** A reader never returns from an intent whose transaction is no longer registered, as
    after a failed roll-back or a restart: it looks at the row again and again without
    waiting.  No number of looks is enough. *)
Theorem orphan_intent_spins n fuel key x (c : EmbeddedCompute T) row :
  idle n c -> zlen key = KEY_SIZE -> tx_timeout x = None -> rows (ec_store c) !! key = Some row ->
  has_flag FLAG_INTENT (flags (lv_meta row)) = true -> tx_undo_txn_id x <> Some (intent_txn_id (lv_meta row)) ->
  intent_lsn (lv_meta row) <= tx_read_lsn x -> ec_registry c !! intent_txn_id (lv_meta row) = None ->
  (get fuel key (x, c)).1 = Spin.
Proof.
  intros Hi Hk Ht Hr Hf Hne Hle Hp. unfold get. rewrite (st_bind_ret _ _ _ _ _ (ensure_run x c Ht)).
  rewrite (st_bind_lift _ _ _ tt) by (unfold check_key; by rewrite Hk, Z.eqb_refl). unfold read_visible_value_from_row.
  destruct fuel as [|fuel]; [done|]. generalize (S fuel) at 2. intros looks. revert c Hi Hr Hp. induction looks as [|looks IH]; intros c Hi Hr Hp; [done|].
  destruct (blocked_look n looks (S fuel) key x c row Hi Hk Ht Hr Hf Hne Hle) as (t' & Hs & ->).
  rewrite (st_bind_ret _ _ _ tt (x, with_store t' c)).
  - apply IH; [by eapply same_idle| |done]. cbn [ec_store with_store]. by rewrite (same_rows _ _ _ Hs).
  - apply on_compute_run. by apply wait_gone.
Qed.

(** A reader keeps the image of an undo page from its first look.  When the record it
    needs was added to that page later, it fails, although the record is in the page cache. *)
Theorem stale_undo_page_fails n fuel key x (c : EmbeddedCompute T) row ptr old_page new_page rec :
  idle n c -> zlen key = KEY_SIZE -> tx_timeout x = None -> rows (ec_store c) !! key = Some row ->
  has_flag FLAG_INTENT (flags (lv_meta row)) = true -> tx_undo_txn_id x <> Some (intent_txn_id (lv_meta row)) ->
  tx_read_lsn x < intent_lsn (lv_meta row) -> undo_ptr (lv_meta row) = Some ptr ->
  tx_dirty x !! up_page_id ptr = None -> tx_ro_cache x !! up_page_id ptr = Some old_page -> UndoSpec.wf old_page ->
  zlen (UndoSpec.records old_page) <= up_slot_id ptr ->
  page_of (ec_store c) (up_page_id ptr) = Some new_page -> Undo.read_record_ref new_page (up_slot_id ptr) = Ret rec ->
  (get (S fuel) key (x, c)).1 = Fail (Io InvalidInput).
Proof.
  intros Hi Hk Ht Hr Hf Hne Hlt Hu Hd Hro Hw Hsl _ _. unfold get. rewrite (st_bind_ret _ _ _ _ _ (ensure_run x c Ht)).
  rewrite (st_bind_lift _ _ _ tt) by (unfold check_key; by rewrite Hk, Z.eqb_refl).
  destruct (tree_get_run n key x c Hi Hk) as (t' & H1 & _). unfold read_visible_value_from_row.
  cbn [read_visible_value_loop]. rewrite (st_bind_ret _ _ _ _ _ (ensure_run x c Ht)), (st_bind_ret _ _ _ _ _ H1), Hr.
  rewrite get_tx_bind. cbn [fst id]. rewrite Hf, bool_decide_false by assumption.
  destruct (Z.ltb_spec (tx_read_lsn x) (intent_lsn (lv_meta row))); [|lia]. rewrite Hu. cbn [read_visible_from_undo].
  pose proof (zlen_nonneg (UndoSpec.records old_page)).
  rewrite (st_bind_fail _ _ _ (Io InvalidInput) (x, with_store t' c)); [done|].
  unfold undo_record. rewrite (st_bind_ret _ _ _ (Some old_page) (x, with_store t' c)).
  - cbn [ok_or]. rewrite (st_bind_lift _ _ _ old_page) by done. unfold lift, Undo.read_record_ref.
    rewrite UndoSpec.read_record_ok by (assumption || lia). rewrite lookup_ge_None_2; [done|]. unfold zlen in *. lia.
  - unfold get_page_for_read. rewrite get_tx_bind. cbn [fst id]. by rewrite Hd, Hro.
Qed.

(** ** Re-inserting a deleted row *)

Lemma plan_same pk v states muts : SecIndex.plan_all pk (Some v) (Some v) states = Ret muts -> muts = [].
Proof.
  revert muts. induction states as [|st states IH]; intros muts H; [by injection H as <-|].
  cbn [SecIndex.plan_all] in H. unfold SecIndex.plan_index, SecIndex.index_key_opt in H.
  destruct (SecIndex.index_key (def_kind (st_def st)) v) as [key| | |]; try discriminate. cbn [mbind outcome_bind] in H.
  rewrite bool_decide_true in H by done. cbn [mbind outcome_bind] in H.
  destruct (SecIndex.plan_all pk (Some v) (Some v) states) as [rest| | |] eqn:E; try discriminate.
  injection H as <-. by rewrite (IH rest).
Qed.

(** Putting a deleted row back leaves it out of the secondary indexes.  [put] plans its
    postings against the value of the row, also when the row is a deletion: with the same
    value it plans none, although the deletion has taken the row out of the indexes.  The row
    is there again, and the commit leaves the indexes as they are. *)
Theorem reput_leaves_index n k order key old muts m x (c : EmbeddedCompute T) lsn :
  idle (UNDO_PAGES + S n) c -> 0 <= k -> writer (k + 1) x (ec_store c) m -> zlen key = KEY_SIZE ->
  rows (ec_store c) !! key = Some old -> writable x (Some old) -> has_flag FLAG_TOMBSTONE (flags (lv_meta old)) = true ->
  tx_mutations x = [] ->
  SecIndex.plan_mutations order key (Some (lv_value old)) (Some (lv_value old)) (ec_indexes c) = Ret muts ->
  exists x' c', put order key (lv_value old) (x, c) = (Ret tt, (x', c')) /\
    (get 1 key (x', c')).1 = Ret (Some (lv_value old)) /\
    SecIndex.apply_commit lsn (tx_mutations x') (ec_indexes c') = ec_indexes c.
Proof.
  intros Hi Hk Hw Hkey Hr Hold Hdel Hmu Hplan. pose proof Hold as ([Hv _ _ _ _ _] & _ & _). pose proof Hw as [_ Htmo _ _].
  destruct (put_run n k order key (lv_value old) muts m x c Hi Hk Hw Hkey Hv) as (row & x' & c' & m' & Hp & Hwr & (txn & u & Htx & Hrow) & Hmu' & Hix);
    [by rewrite Hr|by rewrite Hr|].
  exists x', c'. split; [exact Hp|]. destruct Hwr as [Wi _ Wr _ _ _ (Wt & _ & Wtm & _) _ _ _]. split.
  - rewrite (own_read n 0 key x' c' row txn); try assumption; try congruence; try (by subst row).
    rewrite Wr. apply lookup_insert_eq.
  - rewrite Hmu', Hmu, Hix, (plan_same _ _ _ _ Hplan). done.
Qed.

(** ** Rolling back *)

Lemma on_store_get n key (c : EmbeddedCompute T) :
  idle n c -> zlen key = KEY_SIZE ->
  exists t', on_store (cs_get key) c = (Ret (rows (ec_store c) !! key), with_store t' c) /\ same n (ec_store c) t'.
Proof.
  intros [Hg _] Hk. destruct (law_get n key (ec_store c) Hg Hk) as (t' & Hr & Hs). exists t'. split; [|assumption].
  unfold on_store. by rewrite Hr.
Qed.

(** The version an undo record restores. *)
Definition restored (rec : UndoRecord) : LeafValue := {|
  lv_value := old_value rec;
  lv_meta := meta_of (old_commit_lsn rec) (prev rec) (Z.ldiff (old_flags rec) FLAG_INTENT) 0 0 |}.

Lemma resolve_chain_run n fuel txn key ptr page rec row (c : EmbeddedCompute T) :
  idle (S n) c -> zlen key = KEY_SIZE -> aux_page (up_page_id ptr) -> page_of (ec_store c) (up_page_id ptr) = Some page ->
  Undo.read_record_ref page (up_slot_id ptr) = Ret rec -> has_flag FLAG_INTENT (old_flags rec) = false ->
  old_commit_lsn rec <> 0 -> BpSpec.lv_ok (restored rec) ->
  rows (ec_store c) !! key = Some row -> is_intent_of txn row = true ->
  exists t', resolve_chain (S fuel) txn key (Some ptr) c = (Ret tt, with_store t' c) /\
    rows t' = <[key := restored rec]> (rows (ec_store c)).
Proof.
  intros Hi Hk Ha Hp Hrec Hf Hlsn Hlv Hr His. cbn [resolve_chain].
  destruct (cache_get_run (S n) (up_page_id ptr) c Hi Ha) as (t1 & H1 & S1). rewrite Hp in H1.
  rewrite (st_bind_ret _ _ _ _ _ H1). cbn [ok_or]. rewrite (st_bind_lift _ _ _ page) by done. rewrite (st_bind_lift _ _ _ rec) by assumption.
  rewrite Hf. destruct (Z.eqb_spec (old_commit_lsn rec) 0); [done|]. cbn [andb].
  rewrite (st_bind_lift _ _ _ (old_value rec)) by (apply to_array_ok, Hlv).
  pose proof (same_idle _ _ _ Hi S1) as Hi1. destruct (on_store_get (S n) key (with_store t1 c) Hi1 Hk) as (t2 & H2 & S2).
  rewrite (st_bind_ret _ _ _ _ _ H2). cbn [ec_store with_store]. rewrite (same_rows _ _ _ S1), Hr, His.
  destruct (law_insert n key (restored rec) t2 (same_good _ _ _ S2) Hk Hlv) as (t3 & H3 & [_ Rr _ _ _]).
  exists t3. split.
  - unfold on_store, restored in *. cbn [ec_store with_store]. by rewrite H3.
  - rewrite Rr, (same_rows _ _ _ S2). cbn [ec_store with_store]. by rewrite (same_rows _ _ _ S1).
Qed.

Lemma ldiff_no_flag fl : has_flag FLAG_INTENT fl = false -> Z.ldiff fl FLAG_INTENT = fl.
Proof.
  unfold has_flag. intros H. apply negb_false_iff, Z.eqb_eq in H.
  rewrite <-(Z.lor_ldiff_and fl FLAG_INTENT) at 2. by rewrite H, Z.lor_0_r.
Qed.

Lemma restored_same rec old :
  undo_version rec = row_version old -> prev rec = undo_ptr (lv_meta old) -> has_flag FLAG_INTENT (flags (lv_meta old)) = false ->
  intent_txn_id (lv_meta old) = 0 -> intent_lsn (lv_meta old) = 0 -> restored rec = old.
Proof.
  intros Hv Hp Hf Ht Hl. injection Hv as E1 E2 E3. unfold restored. rewrite E1, E2, E3, Hp, ldiff_no_flag by assumption.
  destruct old as [v []]. cbn in *. by subst.
Qed.

Lemma key_list_singleton key : key_list {[key]} = [key].
Proof. unfold key_list. by rewrite elements_singleton. Qed.

(** C38: Rolling a transaction back undoes its write.  After [put] over a committed row and
    [abort], the rows are what they were, the transaction is no longer pending, and its
    snapshot no longer holds back garbage collection. *)
Theorem abort_undoes_put n k order key value muts m x (c : EmbeddedCompute T) old fuel guard :
  idle (UNDO_PAGES + S (S n)) c -> 0 <= k -> writer (k + 1) x (ec_store c) m -> zlen key = KEY_SIZE -> zlen value = VALUE_SIZE ->
  rows (ec_store c) !! key = Some old -> writable x (Some old) ->
  has_flag FLAG_INTENT (flags (lv_meta old)) = false -> commit_lsn (lv_meta old) <> 0 ->
  intent_txn_id (lv_meta old) = 0 -> intent_lsn (lv_meta old) = 0 -> tx_modified x = ∅ -> tx_read_guard x = Some guard ->
  SecIndex.plan_mutations order key (Some (lv_value old)) (Some value) (ec_indexes c) = Ret muts ->
  exists x' c' c'', put order key value (x, c) = (Ret tt, (x', c')) /\ abort (S fuel) x' c' = (Ret tt, c'') /\
    rows (ec_store c'') = rows (ec_store c) /\
    (forall txn, tx_undo_txn_id x = Some txn -> ec_registry c'' !! txn = None) /\
    ar_map (ec_active_reads c'') !! guard = None.
Proof.
  intros Hi Hk Hw Hkey Hval Hr Hold Hf Hlsn Hit Hil Hmod Hg Hplan.
  destruct (put_run (S n) k order key value muts m x c Hi Hk Hw Hkey Hval) as (row & x' & c' & m' & Hp & Hwr & (txn & u & Htx & Hrow) & _ & _);
    [by rewrite Hr|by rewrite Hr|].
  destruct Hwr as [Wi _ Wr _ _ Wu (Wt & _) Wm Wrep Wg]. rewrite Hr in Wrep. cbn in Wrep.
  assert (Eo : own_intent x old = false) by (unfold own_intent; by rewrite Hf). rewrite Eo in Wrep.
  destruct Wrep as (ptr & page & rec & Hu & Hlv & Hsl & Hpg & Hrec & Hv & Hprev).
  assert (Hres : restored rec = old) by (by apply restored_same).
  assert (Hrow' : rows (ec_store c') !! key = Some row) by (rewrite Wr; apply lookup_insert_eq).
  assert (His : is_intent_of txn row = true) by (subst row; unfold is_intent_of; cbn; apply Z.eqb_refl).
  destruct (on_store_get (S n) key c' Wi Hkey) as (t1 & H1 & S1). pose proof (same_idle _ _ _ Wi S1) as Hi1.
  injection Hv as E1 E2 E3.
  destruct (resolve_chain_run n fuel txn key ptr page rec row (with_store t1 c') Hi1 Hkey) as (t2 & H2 & R2);
    [apply undo_base_aux, Hlv|cbn; by rewrite (same_pages _ _ _ S1)|assumption|by rewrite E2|by rewrite E1|rewrite Hres; apply Hold|
     cbn; by rewrite (same_rows _ _ _ S1)|assumption|].
  assert (Hres' : resolve_txn_intents (S fuel) txn (key_list (tx_modified x')) c' = (Ret tt, with_store t2 c')).
  { rewrite Wm, Hmod, union_empty_r_L, key_list_singleton. cbn [resolve_txn_intents].
    rewrite (st_bind_ret _ _ _ _ _ H1), Hrow', His, Hu. by rewrite (st_bind_ret _ _ _ _ _ H2). }
  exists x', c', (with_reads (ActiveReadsM.drop_guard guard (ec_active_reads c')) (with_registry (base.delete txn (ec_registry c')) (with_store t2 c'))).
  split; [exact Hp|]. split; [|split; [|split]].
  - unfold abort, finish, abort_body. rewrite get_tx_bind. cbn [fst id]. rewrite (ur_rw _ _ _ _ Wu), Wt, Htx. cbn [default id].
    rewrite (st_bind_ret _ _ _ (Ret tt) (x', with_store t2 c')).
    2:{ unfold attempt. by rewrite (on_compute_run _ x' c' _ _ Hres'). }
    rewrite (st_bind_ret _ _ _ _ _ (on_compute_run _ x' _ _ _ (eq_refl (remove_pending_txn txn (with_store t2 c'))))).
    unfold take_guard. rewrite st_bind_modify. cbn [fst snd]. by rewrite Wg, Hg.
  - cbn. rewrite R2, Hres. cbn. rewrite (same_rows _ _ _ S1), Wr, insert_insert_eq. by apply insert_id.
  - intros txn' Htx'. rewrite Htx in Htx'. injection Htx' as <-. cbn. apply lookup_delete_eq.
  - cbn. apply lookup_delete_eq.
Qed.

End Props.

(** ** Garbage collection *)

(** A pass also collects writes that are not committed.  While a commit is under way, or
    after it has failed, its rows carry the dummy LSN 1 beside the intent flag, which the pass
    does not look at: it removes the row of a pending deletion, with the undo records that
    hold the value every snapshot still reads. *)
Theorem gc_removes_pending_delete key row ptr rec l gc_lsn r :
  1 <= gc_lsn -> flags (lv_meta row) = Z.lor FLAG_TOMBSTONE FLAG_INTENT ->
  has_flag FLAG_INTENT (old_flags rec) = false -> has_flag FLAG_TOMBSTONE (old_flags rec) = false -> old_commit_lsn rec <= r ->
  let stamped := {| lv_value := lv_value row; lv_meta := pre_stamp (lv_meta row) |} in
  gc_rows 1 0 gc_lsn [(key, stamped)] [] [] = Ret (1, [key], []) /\
  visible r (versions stamped ((ptr, rec) :: l)) = Some (old_value rec).
Proof.
  intros Hgc Hfl Hf1 Hf2 Hle stamped. split.
  - cbn [gc_rows]. change (1 <=? 0) with false. cbn [lv_meta stamped pre_stamp meta_of commit_lsn flags]. change (1 =? 0) with false. cbn [orb].
    destruct (Z.ltb_spec gc_lsn 1); [lia|]. by rewrite Hfl.
  - unfold versions, row_version. cbn [lv_meta stamped pre_stamp meta_of commit_lsn flags].
    rewrite visible_intent by (by rewrite Hfl). cbn [fmap list_fmap snd undo_version visible]. rewrite Hf1, Hf2.
    destruct (Z.leb_spec (old_commit_lsn rec) r); [done|lia].
Qed.

(** ** Sample states *)

Import MapStoreM.

Definition sample_meta : MetaPage := {| MetaPage.root_page_id := 10; next_bptree_page_id := 11; next_data_page_id := 1000000;
  next_undo_page_id := UNDO_BASE; undo_free := []; undo_history_head := 0; undo_history_tail := 0 |}.

Definition sample_key : bytes := zrepeat 1 KEY_SIZE.
Definition sample_value (b : Z) : bytes := zrepeat b VALUE_SIZE.
Definition sample_row (fl : Z) : LeafValue := {| lv_value := sample_value 5; lv_meta := meta_of 3 None fl 0 0 |}.

Definition sample_storage : Storage := mkStorage (InProcess (InProcessM.new 1 (mkPages ∅))) (mkCluster [] []) [] 0 0.

Definition sample_compute (rs : gmap (list Z) LeafValue) (registry : gmap Z PendingTxn) : EmbeddedCompute MapStore :=
  mkCompute (mkMapStore rs {[META_PAGE_ID := MetaProps.encoded sample_meta]} 10 11 None sample_storage)
    ActiveReadsM.new SecIndex.default_manager PostingLog.default_state registry 5000 100 (mkClock 0 []).

(** A transaction with the snapshot of LSN [lsn]; [txn] is its id when it writes. *)
Definition sample_txn (lsn : Z) (txn : option Z) : EmbeddedTxn :=
  mkTxn lsn (Some 1) 0 None (bool_decide (txn = None)) false ∅ ∅ ∅ ∅ [] txn lsn None None None 0.

Lemma sample_meta_inv k : k < 1000 -> meta_inv k sample_meta.
Proof.
  intros Hk. split; [|vm_compute; discriminate|constructor|constructor|].
  - split; cbn; unfold UNDO_BASE, U64; try lia. constructor.
  - change (next_undo_page_id (at_least_undo_base sample_meta)) with UNDO_BASE. unfold UNDO_BASE, U64. lia.
Qed.

Lemma sample_writer rs registry : writer 2 (sample_txn 7 (Some 1)) (ec_store (sample_compute rs registry)) sample_meta.
Proof.
  split; [|done|exists 1; split; [done|unfold U64; lia]|cbn; unfold U64; lia].
  split; [|apply sample_meta_inv; lia|done|done|done].
  exists (MetaProps.encoded sample_meta). split; [reflexivity|].
  destruct (meta_decode_encode 0 sample_meta) as (p & He & Hd); [apply sample_meta_inv; lia|done|].
  rewrite MetaProps.encode_ok in He. by injection He as <-.
Qed.

Lemma sample_writer1 rs registry : writer 1 (sample_txn 7 (Some 1)) (ec_store (sample_compute rs registry)) sample_meta.
Proof. destruct (sample_writer rs registry) as [Hu ? ? ?]. split; try assumption. exact (undo_ready_weaken 1 _ _ _ Hu). Qed.

Lemma sample_idle n rs registry : idle n (sample_compute rs registry).
Proof. split; [cbn; unfold U64; lia|done]. Qed.

Lemma sample_key_len : zlen sample_key = KEY_SIZE.
Proof. apply zlen_zrepeat. unfold KEY_SIZE. lia. Qed.

Lemma sample_value_len b : zlen (sample_value b) = VALUE_SIZE.
Proof. apply zlen_zrepeat. unfold VALUE_SIZE. lia. Qed.

Lemma sample_value_wf b : 0 <= b < 256 -> wf_bytes (sample_value b).
Proof. intros. by apply wf_zrepeat. Qed.

Lemma sample_writable fl : 0 <= fl < 2 -> writable (sample_txn 7 (Some 1)) (Some (sample_row fl)).
Proof.
  intros Hfl. split_and!; [|by apply sample_value_wf|].
  - split; cbn; unfold U64, U16; try lia; [apply sample_value_len|by intros ? [=]].
  - assert (fl = 0 \/ fl = 1) as [->| ->] by lia; reflexivity.
Qed.

Lemma sample_stable fl rs registry : rs !! sample_key = Some (sample_row fl) -> has_flag FLAG_INTENT fl = false ->
  stable sample_meta (sample_txn 5 None) (ec_store (sample_compute rs registry)) sample_key 0
    (visible 5 (versions (sample_row fl) [])).
Proof. intros Hr Hf. change 0%nat with (length (@nil (UndoPtr * UndoRecord))). econstructor; [exact Hr|by left|constructor|constructor]. Qed.

Definition one_row (row : LeafValue) : gmap (list Z) LeafValue := {[sample_key := row]}.

Lemma one_row_lookup row : one_row row !! sample_key = Some row.
Proof. apply lookup_singleton_eq. Qed.

Lemma sample_fresh lsn : fresh (sample_txn lsn None).
Proof. by split. Qed.

#[local] Existing Instance alone.

Lemma snapshot_read_witness :
  let c := sample_compute (one_row (sample_row 0)) ∅ in
  (get 1 sample_key (sample_txn 5 None, c)).1 = Ret (Some (sample_value 5)) /\
  (get_exists 1 sample_key (sample_txn 5 None, c)).1 = Ret true.
Proof.
  intros c.
  destruct (snapshot_read 0 1 sample_key (sample_txn 5 None) c 0 (visible 5 (versions (sample_row 0) []))
    (sample_idle _ _ _) sample_key_len eq_refl) as (Hg & He & _).
  - apply (stable_sees sample_meta); [apply sample_fresh|]. apply sample_stable; [apply one_row_lookup|reflexivity].
  - lia.
  - split; [exact Hg|exact He].
Defined.

Lemma put_keeps_snapshots_witness :
  let c := sample_compute (one_row (sample_row 0)) ∅ in
  exists x' c', put [] sample_key (sample_value 9) (sample_txn 7 (Some 1), c) = (Ret tt, (x', c')) /\
    (get 3 sample_key (sample_txn 5 None, c)).1 = Ret (Some (sample_value 5)) /\
    (get 3 sample_key (sample_txn 5 None, c')).1 = Ret (Some (sample_value 5)).
Proof.
  intros c. assert (Hr : rows (ec_store c) !! sample_key = Some (sample_row 0)) by apply one_row_lookup.
  destruct (put_keeps_snapshots 0 0 [] sample_key (sample_value 9) [] sample_meta (sample_txn 7 (Some 1)) c
    (sample_idle _ _ _) ltac:(lia) (sample_writer1 _ _) sample_key_len (sample_value_len 9)) as (x' & c' & Hp & Hg).
  - rewrite Hr. apply sample_writable. lia.
  - reflexivity.
  - exists x', c'. split; [exact Hp|].
    apply (Hg (sample_txn 5 None) sample_key 0%nat (visible 5 (versions (sample_row 0) [])) 3%nat (sample_fresh 5) sample_key_len).
    + discriminate.
    + intros _. rewrite Hr. vm_compute. reflexivity.
    + apply sample_stable; [apply one_row_lookup|reflexivity].
    + lia.
Defined.

Lemma read_your_writes_witness :
  let c := sample_compute (one_row (sample_row 0)) ∅ in
  exists x1 c1 x2 c2, put [] sample_key (sample_value 9) (sample_txn 7 (Some 1), c) = (Ret tt, (x1, c1)) /\
    (get 1 sample_key (x1, c1)).1 = Ret (Some (sample_value 9)) /\
    delete [] sample_key (x1, c1) = (Ret tt, (x2, c2)) /\ (get 1 sample_key (x2, c2)).1 = Ret None.
Proof.
  intros c. assert (Hr : rows (ec_store c) !! sample_key = Some (sample_row 0)) by apply one_row_lookup.
  destruct (read_your_writes 0 0 [] sample_key (sample_value 9) [] sample_meta (sample_txn 7 (Some 1)) c 0
    (sample_idle _ _ _) ltac:(lia) (sample_writer _ _) sample_key_len (sample_value_len 9)) as (x1 & c1 & x2 & c2 & Hp & Hg & Hd & Hg2 & _).
  - apply sample_value_wf. lia.
  - rewrite Hr. apply sample_writable. lia.
  - reflexivity.
  - reflexivity.
  - exists x1, c1, x2, c2. split; [exact Hp|]. split; [exact Hg|]. split; [exact Hd|exact Hg2].
Defined.

(** A row that transaction 2 is writing. *)
Definition sample_intent (u : option UndoPtr) (lsn : Z) : LeafValue := {|
  lv_value := sample_value 9; lv_meta := meta_of 0 u FLAG_INTENT 2 lsn |}.
Definition sample_committed (lsn : Z) : LeafValue := {| lv_value := sample_value 9; lv_meta := meta_of lsn None 0 0 0 |}.

(** Transaction 2 commits at LSN 4 and ends. *)
Definition finishes : Others MapStore := fun txn c =>
  (true, with_registry (base.delete txn (ec_registry c)) (with_store (ec_store (sample_compute (one_row (sample_committed 4)) ∅)) c)).

Lemma reader_waits_for_intent_witness :
  let c := sample_compute (one_row (sample_intent None 3)) {[2 := mkPending 40 ∅]} in
  (get (OT := alone) 2 sample_key (sample_txn 5 None, c)).1 = Fail (Io WouldBlock) /\
  (get (OT := finishes) 2 sample_key (sample_txn 5 None, c)).1 = Ret (Some (sample_value 9)).
Proof.
  intros c. split.
  - destruct (reader_waits_for_intent (OT := alone) 0 0 sample_key (sample_txn 5 None) c (sample_intent None 3) (mkPending 40 ∅)
      (sample_idle _ _ _) sample_key_len eq_refl (one_row_lookup _)) as (t' & _ & Hg); [reflexivity|discriminate|cbn; lia|reflexivity|].
    change (get (OT := alone) 2 sample_key (sample_txn 5 None, c) = (Fail (Io WouldBlock), (sample_txn 5 None,
      with_clock (sleep_until 90 (tick (ec_clock c))) (with_clock (tick (ec_clock c)) (with_store t' c))))) in Hg. by rewrite Hg.
  - destruct (reader_waits_for_intent (OT := finishes) 0 0 sample_key (sample_txn 5 None) c (sample_intent None 3) (mkPending 40 ∅)
      (sample_idle _ _ _) sample_key_len eq_refl (one_row_lookup _)) as (t' & _ & Hg); [reflexivity|discriminate|cbn; lia|reflexivity|].
    apply (Hg 0%nat 0%nat (visible 5 (versions (sample_committed 4) []))); [by split|reflexivity| |lia].
    exact (sees_row (sample_txn 5 None) (ec_store (sample_compute (one_row (sample_committed 4)) ∅)) sample_key (sample_committed 4) []
      (one_row_lookup _) (or_introl eq_refl) (chain_nil _)).
Defined.

Lemma orphan_intent_spins_witness :
  (get 1000 sample_key (sample_txn 5 None, sample_compute (one_row (sample_intent None 3)) ∅)).1 = Spin.
Proof.
  apply (orphan_intent_spins 0 1000 sample_key (sample_txn 5 None) (sample_compute (one_row (sample_intent None 3)) ∅)
    (sample_intent None 3) (sample_idle _ _ _) sample_key_len eq_refl (one_row_lookup _)); [reflexivity|discriminate|cbn; lia|reflexivity].
Defined.

Lemma stale_undo_page_fails_witness :
  let ptr := {| up_page_id := UNDO_BASE; up_slot_id := 0 |} in
  let c := sample_compute (one_row (sample_intent (Some ptr) 6)) ∅ in
  let page := UndoSpec.appended UndoProps.empty_undo_page UndoProps.sample_record in
  let x := with_ro {[UNDO_BASE := UndoProps.empty_undo_page]} (sample_txn 5 None) in
  (get 1 sample_key (x, with_store (cs_cache_insert UNDO_BASE page (ec_store c)) c)).1 = Fail (Io InvalidInput).
Proof.
  intros ptr c page x. assert (Hi : idle 0 (with_store (cs_cache_insert UNDO_BASE page (ec_store c)) c)) by (split; [apply (sample_idle 0)|reflexivity]).
  destruct UndoProps.empty_undo_page_wf as [Hw Hr]. pose proof UndoProps.sample_record_ok as Hrec.
  assert (Hc : UndoSpec.count UndoProps.empty_undo_page < 15).
  { rewrite <-(UndoSpec.records_len _ Hw), Hr. vm_compute. reflexivity. }
  apply (stale_undo_page_fails 0 0 sample_key x (with_store (cs_cache_insert UNDO_BASE page (ec_store c)) c) (sample_intent (Some ptr) 6) ptr
    UndoProps.empty_undo_page page UndoProps.sample_record Hi sample_key_len eq_refl (one_row_lookup _) eq_refl).
  - discriminate.
  - cbn. lia.
  - reflexivity.
  - reflexivity.
  - apply lookup_singleton_eq.
  - exact Hw.
  - rewrite Hr. vm_compute. discriminate.
  - cbn. apply lookup_insert_eq.
  - unfold Undo.read_record_ref. change (up_slot_id ptr) with 0.
    rewrite UndoSpec.read_record_ok by (lia || by apply UndoSpec.appended_wf). unfold page. by rewrite UndoSpec.appended_records, Hr.
Defined.

(** An index on the first two bytes of the values. *)
Definition sample_index : SecondaryIndexManager :=
  mkIndexManager {[[105] := SecIndex.empty_state (mkDefinition [105] (IndexBtree 0 2))]}.

Lemma reput_leaves_index_witness :
  let c := with_indexes sample_index (sample_compute (one_row (sample_row FLAG_TOMBSTONE)) ∅) in
  exists x' c', put [[105]] sample_key (sample_value 5) (sample_txn 7 (Some 1), c) = (Ret tt, (x', c')) /\
    (get 1 sample_key (x', c')).1 = Ret (Some (sample_value 5)) /\
    SecIndex.apply_commit 8 (tx_mutations x') (ec_indexes c') = sample_index.
Proof.
  intros c. apply (reput_leaves_index 0 0 [[105]] sample_key (sample_row FLAG_TOMBSTONE) [] sample_meta (sample_txn 7 (Some 1)) c 8).
  - by split.
  - lia.
  - apply sample_writer1.
  - apply sample_key_len.
  - apply one_row_lookup.
  - apply sample_writable. unfold FLAG_TOMBSTONE. lia.
  - reflexivity.
  - reflexivity.
  - vm_compute. reflexivity.
Defined.

Lemma abort_undoes_put_witness :
  let c := sample_compute (one_row (sample_row 0)) {[1 := mkPending 40 ∅]} in
  exists x' c' c'', put [] sample_key (sample_value 9) (sample_txn 7 (Some 1), c) = (Ret tt, (x', c')) /\ abort 1 x' c' = (Ret tt, c'') /\
    rows (ec_store c'') = one_row (sample_row 0) /\ ec_registry c'' !! 1 = None.
Proof.
  intros c. destruct (abort_undoes_put 0 0 [] sample_key (sample_value 9) [] sample_meta (sample_txn 7 (Some 1)) c (sample_row 0) 0 1
    (sample_idle _ _ _) ltac:(lia) (sample_writer1 _ _) sample_key_len (sample_value_len 9) (one_row_lookup _))
    as (x' & c' & c'' & Hp & Ha & Hr & Hreg & _).
  - apply sample_writable. lia.
  - reflexivity.
  - discriminate.
  - reflexivity.
  - reflexivity.
  - reflexivity.
  - reflexivity.
  - reflexivity.
  - exists x', c', c''. split; [exact Hp|]. split; [exact Ha|]. split; [exact Hr|]. exact (Hreg 1 eq_refl).
Defined.

Lemma gc_removes_pending_delete_witness :
  let row := {| lv_value := sample_value 5; lv_meta := meta_of 0 None 3 2 3 |} in
  let stamped := {| lv_value := sample_value 5; lv_meta := pre_stamp (lv_meta row) |} in
  let rec := record_of 2 None None 3 0 (sample_value 5) in
  let ptr := {| up_page_id := UNDO_BASE; up_slot_id := 0 |} in
  gc_rows 1 0 8 [(sample_key, stamped)] [] [] = Ret (1, [sample_key], []) /\
  visible 8 (versions stamped [(ptr, rec)]) = Some (sample_value 5).
Proof. intros row stamped rec ptr. apply (gc_removes_pending_delete sample_key row ptr rec [] 8 8); cbn; reflexivity || lia. Defined.

End ComputeProps.
