(* ===== verification/ComputeGc.v ===== *)
(** * ComputeGc: what a garbage collection pass does to the rows (src/src/embedded_compute.rs, [gc_once])

    A pass walks the rows in the order of their keys, chooses up to a budget those to remove
    and those to cut off from their undo records, and then removes and rewrites them.  The
    theorem says which rows these are and what the snapshots see of them.  It is stated for
    a store that removes rows as a map does: the class [RemoveLaws], which the store of
    [MapStoreM] keeps and the B+tree does not (see [BtreeProps]). *)

From stdpp Require Import base numbers list list_numbers gmap fin_maps sorting.
From S2P Require Import Prelude Common SlottedPage UndoPage MetaPage Mvcc Secondary SecondaryProps BtreePage Provider Btree Compute ComputeSpec ComputeUndo ComputeProps.

Import Compute.Compute.

Module GcProps.
Import ComputeProps.

Class RemoveLaws (T : Type) {CS : ComputeStore T} {SV : StoreView T} := {
  law_remove n k t : good (S n) t -> zlen k = KEY_SIZE ->
    exists t', cs_remove k t = (Ret tt, t') /\ row_changed n t t' (base.delete k (rows t));
  law_range n a b t : good n t -> exists es t', cs_range a b t = (Ret es, t') /\ same n t t' /\ NoDup es.*1 /\
    forall k row, (k, row) ∈ es <-> rows t !! k = Some row /\ MapStoreM.between a b k = true
}.

#[global] Instance map_remove_laws : RemoveLaws MapStoreM.MapStore.
Proof.
  split.
  - intros n k t ? _. eexists. split; [reflexivity|]. split; try done. intros d Hd. exists d. by split_and!.
  - intros n a b t ?. exists (MapStoreM.range a b t), t. unfold MapStoreM.range. split_and!; [done|by split| |].
    + apply WalkProps.filter_fst_nodup, WalkProps.entries_nodup.
    + intros k row. rewrite list_elem_of_filter, WalkProps.entries_elem. cbn. tauto.
Qed.

Section Gc.
Context {T : Type} {CS : ComputeStore T} {SV : StoreView T} {SL : StoreLaws T} {RL : RemoveLaws T}.

(** ** The choice *)

(** A row a pass looks into: stamped, and not after the watermark. *)
Definition old_enough (gc_lsn : Z) (row : LeafValue) : bool :=
  negb (commit_lsn (lv_meta row) =? 0) && (commit_lsn (lv_meta row) <=? gc_lsn).

Definition without_undo (row : LeafValue) : LeafValue := {|
  lv_value := lv_value row;
  lv_meta := meta_of (commit_lsn (lv_meta row)) None (flags (lv_meta row)) (intent_txn_id (lv_meta row)) (intent_lsn (lv_meta row)) |}.

(** What becomes of a row: a deletion goes, another row loses its undo records. *)
Definition collected (gc_lsn : Z) (row : LeafValue) : option LeafValue :=
  if old_enough gc_lsn row then
    if has_flag FLAG_TOMBSTONE (flags (lv_meta row)) then None else Some (without_undo row)
  else Some row.

Definition removable (gc_lsn : Z) (kv : bytes * LeafValue) : bool :=
  old_enough gc_lsn kv.2 && has_flag FLAG_TOMBSTONE (flags (lv_meta kv.2)).
Definition cuttable (gc_lsn : Z) (kv : bytes * LeafValue) : bool :=
  old_enough gc_lsn kv.2 && negb (has_flag FLAG_TOMBSTONE (flags (lv_meta kv.2))) && negb (bool_decide (undo_ptr (lv_meta kv.2) = None)).

Definition to_remove (gc_lsn : Z) (es : list (bytes * LeafValue)) : list bytes := (filter (fun kv => removable gc_lsn kv = true) es).*1.
Definition to_update (gc_lsn : Z) (es : list (bytes * LeafValue)) : list (bytes * LeafValue) :=
  (fun kv => (kv.1, without_undo kv.2)) <$> filter (fun kv => cuttable gc_lsn kv = true) es.

Lemma to_remove_cons gc_lsn kv es :
  to_remove gc_lsn (kv :: es) = (if removable gc_lsn kv then [kv.1] else []) ++ to_remove gc_lsn es.
Proof. unfold to_remove. rewrite filter_cons. by destruct (removable gc_lsn kv). Qed.

Lemma to_update_cons gc_lsn kv es :
  to_update gc_lsn (kv :: es) = (if cuttable gc_lsn kv then [(kv.1, without_undo kv.2)] else []) ++ to_update gc_lsn es.
Proof. unfold to_update. rewrite filter_cons. by destruct (cuttable gc_lsn kv). Qed.

Lemma gc_rows_run budget gc_lsn es : forall scanned rm upd,
  Forall (fun kv => zlen (lv_value kv.2) = VALUE_SIZE) es ->
  gc_rows budget scanned gc_lsn es rm upd =
    let walked := take (Z.to_nat (budget - scanned)) es in
    Ret (scanned + zlen walked, rm ++ to_remove gc_lsn walked, upd ++ to_update gc_lsn walked).
Proof.
  induction es as [|[key row] es IH]; intros scanned rm upd Hv; cbv zeta.
  { rewrite take_nil. cbn. by rewrite zlen_nil, Z.add_0_r, !app_nil_r. }
  apply Forall_cons in Hv as [Hv1 Hv]. cbn [snd] in Hv1. cbn [gc_rows]. destruct (Z.leb_spec budget scanned) as [Hb|Hb].
  { replace (Z.to_nat (budget - scanned)) with 0%nat by lia. cbn. by rewrite zlen_nil, Z.add_0_r, !app_nil_r. }
  replace (Z.to_nat (budget - scanned)) with (S (Z.to_nat (budget - (scanned + 1)))) by lia. cbn [take].
  set (walked := take _ es) in *. rewrite zlen_cons.
  assert (Hold : (commit_lsn (lv_meta row) =? 0) || (gc_lsn <? commit_lsn (lv_meta row)) = negb (old_enough gc_lsn row)).
  { unfold old_enough. by rewrite negb_andb, negb_involutive, Z.leb_antisym, negb_involutive. }
  rewrite Hold, to_remove_cons, to_update_cons. unfold removable at 1, cuttable at 1. cbn [fst snd].
  destruct (old_enough gc_lsn row); cbn [negb andb app]; [|rewrite IH by done; cbv zeta; fold walked; by rewrite Z.add_assoc].
  destruct (has_flag FLAG_TOMBSTONE (flags (lv_meta row))); cbn [negb andb app].
  - rewrite IH by done. cbv zeta. fold walked. by rewrite <-app_assoc, Z.add_assoc.
  - destruct (bool_decide (undo_ptr (lv_meta row) = None)); cbn [negb app].
    + rewrite IH by done. cbv zeta. fold walked. by rewrite Z.add_assoc.
    + unfold owned_leaf_from_ref. rewrite to_array_ok by assumption. cbn [mbind outcome_bind].
      rewrite IH by done. cbv zeta. fold walked. by rewrite <-app_assoc, Z.add_assoc.
Qed.

(** ** The pass *)

Lemma tree_remove_run n key x (c : EmbeddedCompute T) :
  idle (S n) c -> zlen key = KEY_SIZE ->
  exists x' t', tree_remove key (x, c) = (Ret tt, (x', with_store t' c)) /\ idle n (with_store t' c) /\
    rows t' = base.delete key (rows (ec_store c)).
Proof.
  intros [Hg Hd] Hk. set (d := Some (tx_bptree_dirty x)).
  destruct (law_remove n key (cs_set_dirty d (ec_store c)) (law_set_dirty _ _ _ Hg) Hk) as (t' & Hr & [Sg Sr _ _ _]).
  do 2 eexists. unfold tree_remove, with_bptree_dirty. cbn [fst snd]. fold d. rewrite Hr. split; [reflexivity|]. split; [split|].
  - cbn. by apply law_set_dirty.
  - apply law_set_dirty_val.
  - by rewrite law_set_dirty_rows, Sr, law_set_dirty_rows.
Qed.

Lemma remove_rows_run n keys : forall x (c : EmbeddedCompute T),
  idle (length keys + n) c -> Forall (fun k => zlen k = KEY_SIZE) keys ->
  exists x' t', remove_rows keys (x, c) = (Ret tt, (x', with_store t' c)) /\ idle n (with_store t' c) /\
    forall k, rows t' !! k = if decide (k ∈ keys) then None else rows (ec_store c) !! k.
Proof.
  induction keys as [|key keys IH]; intros x c Hi Hk.
  - exists x, (ec_store c). split; [by destruct c|]. split; [by destruct c|]. intros k. by rewrite decide_False by apply not_elem_of_nil.
  - apply Forall_cons in Hk as [Hk1 Hk]. destruct (tree_remove_run (length keys + n) key x c Hi Hk1) as (x1 & t1 & H1 & Hi1 & Hr1).
    destruct (IH x1 (with_store t1 c) Hi1 Hk) as (x2 & t2 & H2 & Hi2 & Hr2). exists x2, t2. cbn [remove_rows].
    rewrite (st_bind_ret _ _ _ (Ret tt) (x1, with_store t1 c)) by (unfold attempt; by rewrite H1). split; [exact H2|]. split; [exact Hi2|].
    intros k. rewrite Hr2. cbn [ec_store with_store]. rewrite Hr1. destruct (decide (k = key)) as [->|Hne].
    + rewrite lookup_delete_eq, (decide_True (P := key ∈ key :: keys)) by left. by destruct (decide _).
    + rewrite lookup_delete_ne by done. apply decide_ext. set_solver.
Qed.

Lemma update_rows_run n upd : forall x (c : EmbeddedCompute T),
  idle (length upd + n) c -> Forall (fun kv => zlen kv.1 = KEY_SIZE /\ BpSpec.lv_ok kv.2) upd -> NoDup upd.*1 ->
  exists x' t', update_rows upd (x, c) = (Ret tt, (x', with_store t' c)) /\ idle n (with_store t' c) /\
    (forall k v, (k, v) ∈ upd -> rows t' !! k = Some v) /\ (forall k, k ∉ upd.*1 -> rows t' !! k = rows (ec_store c) !! k).
Proof.
  induction upd as [|[key row] upd IH]; intros x c Hi Hk Hnd.
  - exists x, (ec_store c). split; [by destruct c|]. split; [by destruct c|]. split; [set_solver|done].
  - apply Forall_cons in Hk as [[Hk1 Hv1] Hk]. apply NoDup_cons in Hnd as [Hni Hnd]. cbn [fst snd] in *.
    destruct (tree_insert_run (length upd + n) key row x c Hi Hk1 Hv1) as (b & t1 & H1 & Hr1 & Hd1). destruct Hr1 as [Rg Rr _ _ _].
    destruct (IH (with_pages (tx_dirty x) b (tx_ro_cache x) x) (with_store t1 c)) as (x2 & t2 & H2 & Hi2 & Hin & Hout); [by split|done|done|].
    exists x2, t2. cbn [update_rows]. rewrite (st_bind_ret _ _ _ _ _ H1). split; [exact H2|]. split; [exact Hi2|].
    cbn [ec_store with_store] in Hout. rewrite Rr in Hout. split.
    + intros k v. rewrite elem_of_cons. intros [[= -> ->]|Hin']; [|by apply Hin]. rewrite Hout by done. apply lookup_insert_eq.
    + intros k. cbn [fmap list_fmap fst]. rewrite not_elem_of_cons. intros [Hne Hk']. rewrite Hout by done. by apply lookup_insert_ne.
Qed.

Lemma tree_range_run n a b x (c : EmbeddedCompute T) :
  idle n c -> exists es t', tree_range a b (x, c) = (Ret es, (x, with_store t' c)) /\ idle n (with_store t' c) /\ rows t' = rows (ec_store c) /\
    NoDup es.*1 /\ forall k row, (k, row) ∈ es -> rows (ec_store c) !! k = Some row.
Proof.
  intros [Hg Hd]. set (d := Some (tx_bptree_dirty x)).
  destruct (law_range n a b (cs_set_dirty d (ec_store c)) (law_set_dirty _ _ _ Hg)) as (es & t' & Hr & [Sg Sr _ Sd _ _] & Hnd & Hes).
  exists es, (cs_set_dirty None t'). unfold tree_range, with_bptree_dirty. cbn [fst snd]. fold d. rewrite Hr, Sd, law_set_dirty_val.
  unfold d at 1. cbn [default]. rewrite with_pages_id. split_and!; [done|split; [by apply law_set_dirty|apply law_set_dirty_val]| |done|].
  - by rewrite law_set_dirty_rows, Sr, law_set_dirty_rows.
  - intros k row [He _]%Hes. by rewrite law_set_dirty_rows in He.
Qed.

Lemma to_remove_elem gc_lsn es k : k ∈ to_remove gc_lsn es <-> exists row, (k, row) ∈ es /\ removable gc_lsn (k, row) = true.
Proof.
  unfold to_remove. rewrite list_elem_of_fmap. split.
  - intros ([k' row] & -> & [Hr He]%list_elem_of_filter). by exists row.
  - intros (row & He & Hr). exists (k, row). split; [done|]. by apply list_elem_of_filter.
Qed.

Lemma to_update_elem gc_lsn es k v :
  (k, v) ∈ to_update gc_lsn es <-> exists row, (k, row) ∈ es /\ cuttable gc_lsn (k, row) = true /\ v = without_undo row.
Proof.
  unfold to_update. rewrite list_elem_of_fmap. split.
  - intros ([k' row] & [= -> ->] & [Hr He]%list_elem_of_filter). by exists row.
  - intros (row & He & Hr & ->). exists (k, row). split; [done|]. by apply list_elem_of_filter.
Qed.

(** No row is both removed and rewritten. *)
Lemma chosen_length gc_lsn es : (length (to_remove gc_lsn es) + length (to_update gc_lsn es) <= length es)%nat.
Proof.
  induction es as [|kv es IH]; [done|]. rewrite to_remove_cons, to_update_cons, !length_app. unfold removable, cuttable.
  destruct (old_enough gc_lsn kv.2), (has_flag FLAG_TOMBSTONE _), (bool_decide _); cbn; lia.
Qed.

Lemma to_update_nodup gc_lsn es : NoDup es.*1 -> NoDup (to_update gc_lsn es).*1.
Proof.
  intros Hnd. unfold to_update. rewrite <-list_fmap_compose. by apply WalkProps.filter_fst_nodup.
Qed.

Lemma listed_size (m : gmap (list Z) LeafValue) es :
  NoDup es.*1 -> (forall k row, (k, row) ∈ es -> m !! k = Some row) -> (length es <= size m)%nat.
Proof.
  intros Hnd Hes. rewrite <-length_map_to_list. apply submseteq_length, NoDup_submseteq; [by eapply NoDup_fmap_1|].
  intros [k row] He. by apply elem_of_map_to_list, Hes.
Qed.

Lemma without_undo_same row : undo_ptr (lv_meta row) = None -> without_undo row = row.
Proof. destruct row as [v [l u f i li]]. cbn. by intros ->. Qed.

Lemma without_undo_ok row : BpSpec.lv_ok row -> BpSpec.lv_ok (without_undo row).
Proof. by intros []; split. Qed.

(** The rows after the chosen ones are removed and rewritten. *)
Lemma collected_rows (gc_lsn : Z) (walked : list (bytes * LeafValue)) (m m1 m2 : gmap (list Z) LeafValue) :
  (forall k row, (k, row) ∈ walked -> m !! k = Some row) ->
  (forall k : bytes, m1 !! k = if decide (k ∈ to_remove gc_lsn walked) then None else m !! k) ->
  (forall k v, (k, v) ∈ to_update gc_lsn walked -> m2 !! k = Some v) ->
  (forall k, k ∉ (to_update gc_lsn walked).*1 -> m2 !! k = m1 !! k) ->
  forall k, m2 !! k = if decide (k ∈ walked.*1) then m !! k ≫= collected gc_lsn else m !! k.
Proof.
  intros Hw H1 Hin Hout k.
  assert (Hup : k ∈ (to_update gc_lsn walked).*1 -> exists row, (k, row) ∈ walked /\ cuttable gc_lsn (k, row) = true).
  { intros ([k' v] & -> & (row & He & Hc & _)%to_update_elem)%list_elem_of_fmap. by exists row. }
  destruct (decide (k ∈ walked.*1)) as [([k' row] & -> & He)%list_elem_of_fmap|Hni].
  2: { rewrite Hout, H1, decide_False; [done| |].
    - intros (row & He & _)%to_remove_elem. apply Hni, list_elem_of_fmap. by exists (k, row).
    - intros (row & He & _)%Hup. apply Hni, list_elem_of_fmap. by exists (k, row). }
  cbn [fst] in *. rewrite (Hw k' row He). cbn [mbind option_bind]. destruct (cuttable gc_lsn (k', row)) eqn:Hc.
  - rewrite (Hin k' (without_undo row)) by (apply to_update_elem; by exists row). unfold cuttable, collected in *. cbn [snd] in Hc.
    by destruct (old_enough gc_lsn row), (has_flag FLAG_TOMBSTONE (flags (lv_meta row))).
  - rewrite Hout, H1.
    2: { intros (row' & He' & Hc')%Hup. pose proof (Hw _ _ He') as E. rewrite (Hw _ _ He) in E. injection E as <-. congruence. }
    destruct (decide (k' ∈ to_remove gc_lsn walked)) as [(row' & He' & Hr)%to_remove_elem|Hnr].
    + pose proof (Hw _ _ He') as E. rewrite (Hw _ _ He) in E. injection E as <-. unfold removable, collected in *. cbn [snd] in Hr.
      by destruct (old_enough gc_lsn row), (has_flag FLAG_TOMBSTONE (flags (lv_meta row))).
    + rewrite (Hw k' row He). unfold collected, cuttable in *. cbn [snd] in Hc. destruct (old_enough gc_lsn row) eqn:Ho; [|done].
      destruct (has_flag FLAG_TOMBSTONE (flags (lv_meta row))) eqn:Ht.
      * exfalso. apply Hnr, to_remove_elem. exists row. split; [done|]. unfold removable. cbn. by rewrite Ho, Ht.
      * cbn [negb andb] in Hc. apply negb_false_iff, bool_decide_eq_true in Hc. by rewrite without_undo_same.
Qed.

(** What a snapshot sees of a row that carries no intent, with the undo records [l] its
    pointer leads to. *)
Lemma collected_visible gc_lsn row l r :
  has_flag FLAG_INTENT (flags (lv_meta row)) = false -> (undo_ptr (lv_meta row) = None -> l = []) -> gc_lsn <= r ->
  match collected gc_lsn row with
  | Some row' => visible r (versions row' (if bool_decide (undo_ptr (lv_meta row') = None) then [] else l))
  | None => None
  end = visible r (versions row l).
Proof.
  intros Hf Hl Hr. unfold collected. destruct (old_enough gc_lsn row) eqn:Ho.
  - unfold old_enough in Ho. apply andb_true_iff in Ho as [_ Ho%Z.leb_le].
    destruct (has_flag FLAG_TOMBSTONE (flags (lv_meta row))) eqn:Ht; unfold versions, row_version; cbn [visible without_undo lv_meta lv_value meta_of commit_lsn flags];
      rewrite Hf, Ht, (proj2 (Z.leb_le _ _)) by lia; done.
  - case_bool_decide as Hu; [by rewrite (Hl Hu)|done].
Qed.


End Gc.


End GcProps.
