(* ===== verification/ComputeCommit.v ===== *)
(** * ComputeCommit: how a commit publishes its writes

    The two passes of [commit] of src/src/embedded_compute.rs over the rows of a transaction:
    [stamp_rows] puts the commit LSN on every row that carries the transaction's intent.  The
    theorem says what readers see before and after the pass. *)

From stdpp Require Import base numbers list list_numbers gmap fin_maps sorting.
From S2P Require Import Prelude Common SlottedPage UndoPage MetaPage WalCodec Mvcc PageStore Node Sequencer Secondary BtreePage Provider Cache Btree Compute ComputeSpec ComputeUndo ComputeProps.
Import Compute.Compute ComputeProps.

Module CommitProps.

Definition stamp_row (stamp : LeafValueMeta -> LeafValueMeta) (row : LeafValue) : LeafValue :=
  {| lv_value := lv_value row; lv_meta := stamp (lv_meta row) |}.

Lemma flag_cleared fl : has_flag FLAG_INTENT (Z.ldiff fl FLAG_INTENT) = false.
Proof.
  unfold has_flag. replace (Z.land (Z.ldiff fl FLAG_INTENT) FLAG_INTENT) with 0; [done|].
  symmetry. apply Z.bits_inj_iff'. intros i Hi. rewrite Z.land_spec, Z.ldiff_spec, Z.bits_0. by destruct (Z.testbit fl i), (Z.testbit FLAG_INTENT i).
Qed.

Lemma tombstone_kept fl : has_flag FLAG_TOMBSTONE (Z.ldiff fl FLAG_INTENT) = has_flag FLAG_TOMBSTONE fl.
Proof.
  unfold has_flag. do 2 f_equal. apply Z.bits_inj_iff'. intros i Hi. rewrite !Z.land_spec, Z.ldiff_spec.
  change FLAG_TOMBSTONE with (2 ^ 0). change FLAG_INTENT with (2 ^ 1). rewrite !Z.pow2_bits_eqb by lia.
  destruct (Z.eqb_spec 0 i), (Z.eqb_spec 1 i); rewrite ?andb_true_r, ?andb_false_r; try done. lia.
Qed.

Section Commit.
Context {T : Type} {CS : ComputeStore T} {SV : StoreView T} {SL : StoreLaws T} {OT : Others T}.

(** The rows a transaction is about to commit. *)
Definition intents (request_id : Z) (keys : list bytes) (rs : gmap (list Z) LeafValue) : Prop :=
  forall key, key ∈ keys -> zlen key = KEY_SIZE /\
    exists row, rs !! key = Some row /\ is_intent_of request_id row = true /\ BpSpec.lv_ok row.

(** The same rows but for the stamps on [keys], and the same pages. *)
Record stamped (n : nat) (stamp : LeafValueMeta -> LeafValueMeta) (keys : list bytes) (t t' : T) : Prop := {
  sp_good : good n t';
  sp_dirty : cs_dirty t' = None;
  sp_in : forall key, key ∈ keys -> rows t' !! key = stamp_row stamp <$> rows t !! key;
  sp_out : forall key, key ∉ keys -> rows t' !! key = rows t !! key;
  sp_pages : forall id, page_of t' id = page_of t id;
  sp_storage : cs_storage t' = cs_storage t
}.

(** What the pass notes as dirty. *)
Record noted (keys : list bytes) (b : gmap Z (list Z)) (t : T) (b' : gmap Z (list Z)) (t' : T) : Prop := {
  nt_dom : forall i, is_Some (b !! i) -> is_Some (b' !! i);
  nt_settled : settled t b -> settled t' b';
  nt_backed : forall m, backed t (b ∪ m) -> backed t' (b' ∪ m);
  nt_roomy : (forall k, k ∈ keys -> is_Some (roomy_of t k)) ->
    (forall k, roomy_of t' k = roomy_of t k) /\
    (forall i, i ∈ dom b' <-> i ∈ dom b \/ exists k, k ∈ keys /\ roomy_of t k = Some i)
}.

Lemma noted_cons key keys b t b1 t1 b2 t2 :
  (forall i, is_Some (b !! i) -> is_Some (b1 !! i)) -> (settled t b -> settled t1 b1) ->
  (forall m, backed t (b ∪ m) -> backed t1 (b1 ∪ m)) ->
  (forall p, roomy_of t key = Some p -> (forall k, roomy_of t1 k = roomy_of t k) /\ dom b1 = {[p]} ∪ dom b) ->
  noted keys b1 t1 b2 t2 -> noted (key :: keys) b t b2 t2.
Proof.
  intros Hd Hs Hb Hr [Nd Ns Nb Nr]. split; [auto|auto|auto|]. intros Hroomy. destruct (Hroomy key) as [p Hp]; [left|].
  destruct (Hr p Hp) as [Hsame Hdom]. destruct Nr as [Hsame' Hdom']; [intros k Hk; rewrite Hsame; apply Hroomy; by right|].
  split; [intros k; by rewrite Hsame', Hsame|]. intros i. rewrite Hdom', Hdom, elem_of_union, elem_of_singleton.
  setoid_rewrite Hsame. setoid_rewrite elem_of_cons. split.
  - intros [[->|Hi]|(k & Hk & Hi)]; [right; exists key; by split; [left|]|by left|right; exists k; by split; [right|]].
  - intros [Hi|(k & [->|Hk] & Hi)]; [by left; right|left; left; congruence|right; by exists k].
Qed.

Lemma stamp_rows_run n request_id stamp missing keys : forall x c,
  idle (length keys + n) c -> NoDup keys -> intents request_id keys (rows (ec_store c)) ->
  (forall row, BpSpec.lv_ok row -> BpSpec.lv_ok (stamp_row stamp row)) ->
  exists b t', stamp_rows request_id stamp missing keys (x, c) =
      (Ret tt, (with_pages (tx_dirty x) b (tx_ro_cache x) x, with_store t' c)) /\
    stamped n stamp keys (ec_store c) t' /\ noted keys (tx_bptree_dirty x) (ec_store c) b t'.
Proof.
  induction keys as [|key keys IH]; intros x c Hi Hnd Hin Hst.
  - exists (tx_bptree_dirty x), (ec_store c). rewrite with_pages_id. split; [by destruct c|]. destruct Hi as [Hg Hd].
    split; [split; try done; intros key Hk; by apply elem_of_nil in Hk|]. split; [done|done|done|]. intros _. split; [done|].
    intros i. split; [by left|]. intros [?|(k & Hk & _)]; [done|by apply elem_of_nil in Hk].
  - apply NoDup_cons in Hnd as [Hk Hnd]. destruct (Hin key) as (Hz & row & Hr & His & Hok); [left|].
    cbn [stamp_rows]. destruct (tree_get_run _ key x c Hi Hz) as (t1 & H1 & S1). rewrite (st_bind_ret _ _ _ _ _ H1), Hr, His.
    assert (Hv : owned_leaf_from_ref row (stamp (lv_meta row)) = Ret (stamp_row stamp row)).
    { unfold owned_leaf_from_ref. rewrite to_array_ok by apply Hok. done. }
    pose proof (same_idle _ _ _ Hi S1) as Hi1. cbn [length] in Hi1.
    destruct (tree_insert_run (length keys + n) key (stamp_row stamp row) x (with_store t1 c) Hi1 Hz (Hst row Hok)) as (b & t2 & H2 & [Rg Rr Rp _ Rs] & Rd).
    assert (Hins : (leaf ← lift (owned_leaf_from_ref row (stamp (lv_meta row))); tree_insert key leaf) (x, with_store t1 c) =
      (Ret tt, (with_pages (tx_dirty x) b (tx_ro_cache x) x, with_store t2 c))) by (rewrite (st_bind_lift _ _ _ _ Hv); exact H2).
    rewrite (st_bind_ret _ _ _ _ _ Hins). cbn [ec_store with_store] in *.
    pose proof (tree_insert_noted (length keys + n) key _ x (with_store t1 c) b t2 Hi1 Hz (Hst row Hok) H2) as (Nd & Ns & Nb & Nr & _).
    assert (Hrows : rows t2 = <[key := stamp_row stamp row]> (rows (ec_store c))) by (by rewrite Rr, (same_rows _ _ _ S1)).
    destruct (IH (with_pages (tx_dirty x) b (tx_ro_cache x) x) (with_store t2 c)) as (b' & t' & H3 & [Ig Id Ii Io Ip Is] & Hn); [by split|done| |done|].
    { intros k Hin'. cbn [ec_store with_store]. rewrite Hrows, lookup_insert_ne by (intros ->; done). apply Hin. by right. }
    exists b', t'. split; [exact H3|]. cbn [ec_store with_store tx_bptree_dirty with_pages] in *. split; cycle 1.
    { destruct (same_own _ _ _ S1) as (Ss & Sr & _). eapply noted_cons; [exact Nd| | | |exact Hn].
      - intros Hs. apply Ns. eapply settled_same; [apply (same_own _ _ _ S1)|exact Hs].
      - intros m Hm. apply Nb. eapply backed_same; [apply (same_own _ _ _ S1)|exact Hm].
      - intros p Hp. rewrite <-Sr in Hp. rewrite (same_rows _ _ _ S1), Hr in Nr. destruct (Nr p) as [Hr1 Hr2]; [by eexists|exact Hp|].
        split; [intros k; by rewrite Hr1, Sr|exact Hr2]. }
    split; [done|done| | | |].
    + intros k [->|Hin']%elem_of_cons.
      * by rewrite Io, Hrows, lookup_insert_eq, Hr by done.
      * rewrite Ii, Hrows, lookup_insert_ne by (done || intros ->; done). done.
    + intros k [Hne Hni]%not_elem_of_cons. by rewrite Io, Hrows, lookup_insert_ne by congruence.
    + intros i. by rewrite Ip, Rp, (same_pages _ _ _ S1).
    + by rewrite Is, Rs, (same_storage _ _ _ S1).
Qed.

Lemma final_stamp_ok lsn row : 0 <= lsn < U64 -> BpSpec.lv_ok row -> BpSpec.lv_ok (stamp_row (final_stamp lsn) row).
Proof.
  intros Hl [Hv _ Hp Hf _ _]. split; cbn [stamp_row lv_value lv_meta final_stamp meta_of commit_lsn undo_ptr flags intent_txn_id intent_lsn];
    [done|done|done| |unfold U64; lia..].
  assert (0 <= Z.ldiff (flags (lv_meta row)) FLAG_INTENT) by (apply Z.ldiff_nonneg; left; lia).
  split; [done|]. eapply Z.le_lt_trans; [|apply Hf]. apply Z.ldiff_le; [lia|].
  apply Z.bits_inj_iff'. intros i Hi. rewrite !Z.ldiff_spec, Z.bits_0. by destruct (Z.testbit _ i), (Z.testbit FLAG_INTENT i).
Qed.

(** A reader at or after the LSN of a committed row does not look further. *)
Lemma committed_read n fuel key x c row :
  idle n c -> zlen key = KEY_SIZE -> tx_timeout x = None -> rows (ec_store c) !! key = Some row ->
  has_flag FLAG_INTENT (flags (lv_meta row)) = false -> commit_lsn (lv_meta row) <= tx_read_lsn x ->
  (get (S fuel) key (x, c)).1 = Ret (row_value row).
Proof.
  intros Hi Hk Ht Hr Hf Hle. unfold get. rewrite (st_bind_ret _ _ _ _ _ (ensure_run x c Ht)).
  rewrite (st_bind_lift _ _ _ tt) by (unfold check_key; by rewrite Hk, Z.eqb_refl).
  unfold read_visible_value_from_row. cbn [read_visible_value_loop]. rewrite (st_bind_ret _ _ _ _ _ (ensure_run x c Ht)).
  destruct (tree_get_run n key x c Hi Hk) as (t1 & H1 & _). rewrite (st_bind_ret _ _ _ _ _ H1), Hr.
  rewrite get_tx_bind. cbn [fst id]. rewrite Hf. by destruct (Z.leb_spec (commit_lsn (lv_meta row)) (tx_read_lsn x)); [|lia].
Qed.

Lemma stamped_stable n lsn keys m y (t t' : T) key j o :
  stamped n (final_stamp lsn) keys t t' -> (forall k row, k ∈ keys -> rows t !! k = Some row -> has_flag FLAG_INTENT (flags (lv_meta row)) = true) ->
  key ∉ keys \/ tx_read_lsn y < lsn -> stable m y t key j o -> stable m y t' key j o.
Proof.
  intros [_ _ Hin Hout Hp _] Hint Hor Hst. destruct (decide (key ∈ keys)) as [Hk|Hk].
  - destruct Hor as [|Hlt]; [done|]. destruct Hst as [Hr|row l Hr Hu Hc Hl]; [constructor; by rewrite Hin, Hr|].
    assert (visible (tx_read_lsn y) (versions row l) = visible (tx_read_lsn y) (versions (stamp_row (final_stamp lsn) row) l)) as ->.
    { unfold versions, row_version. rewrite visible_intent by (by eapply Hint). cbn [visible stamp_row lv_meta final_stamp meta_of flags commit_lsn].
      rewrite flag_cleared. by destruct (Z.leb_spec lsn (tx_read_lsn y)); [lia|]. }
    eapply stable_row; [by rewrite Hin, Hr|left; apply flag_cleared| |done]. eapply chain_ext; [|exact Hc]. done.
  - destruct Hst as [Hr|row l Hr Hu Hc Hl]; [constructor; by rewrite Hout|].
    eapply stable_row; [by rewrite Hout|done| |done]. eapply chain_ext; [|exact Hc]. done.
Qed.

(** C10: A commit publishes its writes together at its LSN.  The pass that puts the commit LSN on
    the rows of a transaction succeeds; a reader at or after that LSN then reads every one of
    them as written, deletions included, and a reader before it, or of any other key, reads
    what it read before. *)
Theorem commit_stamp_publishes n request_id lsn keys x (c : EmbeddedCompute T) :
  idle (length keys + n) c -> NoDup keys -> intents request_id keys (rows (ec_store c)) -> 0 <= lsn < U64 ->
  exists x' c', stamp_rows request_id (final_stamp lsn) (mret tt) keys (x, c) = (Ret tt, (x', c')) /\
    (forall y key row fuel, fresh y -> key ∈ keys -> rows (ec_store c) !! key = Some row -> lsn <= tx_read_lsn y ->
       (get (S fuel) key (y, c')).1 = Ret (row_value row)) /\
    (forall m y key j o fuel, fresh y -> zlen key = KEY_SIZE -> key ∉ keys \/ tx_read_lsn y < lsn ->
       stable m y (ec_store c) key j o -> (j < fuel)%nat ->
       (get fuel key (y, c)).1 = Ret o /\ (get fuel key (y, c')).1 = Ret o).
Proof.
  intros Hi Hnd Hin Hlsn.
  destruct (stamp_rows_run n request_id (final_stamp lsn) (mret tt) keys x c Hi Hnd Hin) as (b & t' & Hr & Hs & _);
    [intros row; by apply final_stamp_ok|].
  assert (Hi' : idle n (with_store t' c)) by (destruct Hs; by split).
  eexists _, _. split; [exact Hr|]. split.
  - intros y key row fuel Hy Hk Hrow Hle. destruct (Hin key Hk) as (Hz & _).
    rewrite (committed_read n fuel key y (with_store t' c) (stamp_row (final_stamp lsn) row) Hi' Hz (fr_timeout y Hy));
      [|cbn; by rewrite (sp_in _ _ _ _ _ Hs), Hrow|apply flag_cleared|done].
    f_equal. unfold row_value, stamp_row. cbn [lv_meta lv_value final_stamp meta_of flags]. by rewrite tombstone_kept.
  - intros m y key j o fuel Hy Hz Hor Hst Hf.
    destruct (get_run _ fuel key y c j o Hi Hz (fr_timeout y Hy) (stable_sees _ _ _ _ _ _ Hy Hst) Hf) as (? & ? & -> & _).
    assert (Hst' : stable m y t' key j o).
    { eapply stamped_stable; [exact Hs| |done|done]. intros k row Hk Hrow. destruct (Hin k Hk) as (_ & row' & Hr' & His & _).
      rewrite Hrow in Hr'. injection Hr' as <-. unfold is_intent_of in His. by apply andb_true_iff in His as [? _]. }
    destruct (get_run n fuel key y (with_store t' c) j o Hi' Hz (fr_timeout y Hy) (stable_sees _ _ _ _ _ _ Hy Hst') Hf) as (? & ? & -> & _).
    done.
Qed.

End Commit.

(** The row a transaction with the id 1 has put. *)
Definition pending_row : LeafValue := {| lv_value := sample_value 9; lv_meta := meta_of 1 None FLAG_INTENT 1 7 |}.

#[local] Existing Instance alone.

Lemma commit_stamp_publishes_witness :
  let c := sample_compute (one_row pending_row) ∅ in
  exists x' c', stamp_rows 1 (final_stamp 8) (mret tt) [sample_key] (sample_txn 7 (Some 1), c) = (Ret tt, (x', c')) /\
    (get 1 sample_key (sample_txn 8 None, c')).1 = Ret (Some (sample_value 9)) /\
    (get 1 sample_key (sample_txn 5 None, c')).1 = Ret None.
Proof.
  intros c. destruct (commit_stamp_publishes 0 1 8 [sample_key] (sample_txn 7 (Some 1)) c) as (x' & c' & Hr & Hnew & Hold).
  - apply sample_idle.
  - apply NoDup_singleton.
  - intros key ->%list_elem_of_singleton. split; [apply sample_key_len|]. exists pending_row. split; [apply one_row_lookup|].
    split; [reflexivity|]. split; cbn; unfold FLAG_INTENT, U64, U16; try lia; [apply sample_value_len|by intros ? [=]].
  - unfold U64. lia.
  - exists x', c'. split; [exact Hr|]. split.
    + apply (Hnew (sample_txn 8 None) sample_key pending_row 0%nat); [apply sample_fresh|left|apply one_row_lookup|cbn; lia].
    + apply (Hold sample_meta (sample_txn 5 None) sample_key 0%nat None 1%nat); [apply sample_fresh|apply sample_key_len|right; cbn; lia| |lia].
      change (@None bytes) with (visible 5 (versions pending_row [])). change 0%nat with (length (@nil (UndoPtr * UndoRecord))).
      econstructor; [apply one_row_lookup|right; split; [discriminate|cbn; lia]|constructor|constructor].
Defined.

End CommitProps.
