(* ===== verification/CommitRun.v ===== *)
(** * CommitRun: a whole commit of the compute node over its own page store

    [commit] of src/src/embedded_compute.rs, from the meta page it starts with to the cache it
    leaves, over the in-process sequencer and page store of
    src/src/embedded_compute_runtime.rs.  The transactions are those that wrote rows without an
    older version and without secondary indexes, on ways of the tree without a full page: then
    both passes over the rows write the same pages, which the commit insists on. *)

From stdpp Require Import base numbers list list_numbers gmap fin_maps sorting.
From S2P Require Import Prelude Common SlottedPage UndoPage MetaPage WalCodec Mvcc PageStore Node Sequencer Secondary BtreePage Provider Cache Btree Compute ComputeSpec ComputeUndo ComputeProps ComputeCommit.
Import Compute.Compute ComputeProps CommitProps.

Module CommitRun.

(** ** Sets of pages *)

Lemma pages_put (l : list (Z * list Z)) : NoDup l.*1 -> forall m : gmap Z (list Z),
  foldl (fun m w => <[w.1 := w.2]> m) m l = list_to_map l ∪ m.
Proof.
  induction l as [|[i p] l IH]; intros Hnd m; [symmetry; apply map_empty_union|].
  apply NoDup_cons in Hnd as [Hi Hnd]. cbn. rewrite IH by done.
  rewrite <-insert_union_l. symmetry. apply insert_union_r. by apply not_elem_of_list_to_map_1.
Qed.

Lemma page_entries_perm m : page_entries m ≡ₚ map_to_list m.
Proof. apply merge_sort_Permutation. Qed.

Lemma page_entries_nodup m : NoDup (page_entries m).*1.
Proof. rewrite page_entries_perm. apply NoDup_fst_map_to_list. Qed.

Lemma page_entries_elem m id p : (id, p) ∈ page_entries m <-> m !! id = Some p.
Proof. rewrite page_entries_perm. apply elem_of_map_to_list. Qed.

Lemma page_entries_map m : list_to_map (page_entries m) = m.
Proof.
  rewrite <-(list_to_map_to_list m) at 2. apply list_to_map_proper; [apply page_entries_nodup|apply page_entries_perm].
Qed.

Lemma page_map_entries m : page_map (page_entries m) = m.
Proof. unfold page_map. rewrite pages_put by apply page_entries_nodup. by rewrite page_entries_map, map_union_empty. Qed.

Lemma check_sizes_ok writes : (forall id p, (id, p) ∈ writes -> zlen p = PAGE_SIZE) -> check_sizes writes = Ret tt.
Proof.
  induction writes as [|[id p] writes IH]; intros Hz; [done|]. cbn. rewrite (Hz id p) by left. rewrite Z.eqb_refl. cbn.
  apply IH. intros i q Hq. apply (Hz i). by right.
Qed.

Lemma key_list_elem s k : k ∈ key_list s <-> k ∈ s.
Proof. unfold key_list. rewrite merge_sort_Permutation. apply elem_of_elements. Qed.

Lemma key_list_nodup s : NoDup (key_list s).
Proof. unfold key_list. rewrite merge_sort_Permutation. apply NoDup_elements. Qed.

Lemma omap_length {A B} (f : A -> option B) l : (length (omap f l) <= length l)%nat.
Proof. induction l as [|a l IH]; cbn; [lia|]. destruct (f a); cbn; lia. Qed.

Section Commit.
Context {T : Type} {CS : ComputeStore T} {SV : StoreView T} {SL : StoreLaws T} {OT : Others T}.

(** ** The cache after a commit *)

Lemma cache_all_app l1 l2 (c c1 : EmbeddedCompute T) :
  cache_all l1 c = (Ret tt, c1) -> cache_all (l1 ++ l2) c = cache_all l2 c1.
Proof.
  revert c. induction l1 as [|[id p] l1 IH]; intros c; [by intros [= ->]|]. apply IH.
Qed.

(** Caching the tree's own pages again. *)
Lemma cache_all_settled n l : forall c : EmbeddedCompute T,
  good n (ec_store c) -> (forall id p, (id, p) ∈ l -> settles (ec_store c) id p) ->
  exists t', cache_all l c = (Ret tt, with_store t' c) /\ same n (ec_store c) t'.
Proof.
  induction l as [|[id p] l IH]; intros c Hg Hs; [exists (ec_store c); split; [by destruct c|by apply same_refl]|].
  pose proof (law_settle n id p (ec_store c) Hg (Hs id p ltac:(left))) as S1.
  destruct (IH (with_store (cs_cache_insert id p (ec_store c)) c)) as (t' & Hr & S2).
  - apply S1.
  - intros i q Hq. cbn. apply (proj1 (same_own _ _ _ S1)), Hs. by right.
  - exists t'. split; [exact Hr|by eapply same_trans].
Qed.

(** The same with a page that is not the tree's among them. *)
Lemma cache_all_pages n a m (c : EmbeddedCompute T) :
  aux_page a -> good (S n) (ec_store c) -> settled (ec_store c) m -> forall mp,
  exists t', cache_all (page_entries (<[a := mp]> m)) c = (Ret tt, with_store t' c) /\
    page_changed n (ec_store c) t' a mp.
Proof.
  intros Ha Hg Hm mp. set (m' := <[a := mp]> m).
  assert (Hin : (a, mp) ∈ page_entries m') by (apply page_entries_elem, lookup_insert_eq).
  apply list_elem_of_split in Hin as (l1 & l2 & Hl). pose proof (page_entries_nodup m') as Hnd. rewrite Hl in Hnd.
  rewrite fmap_app in Hnd. apply NoDup_app in Hnd as (_ & Hn1 & Hnd). apply NoDup_cons in Hnd as [Hn2 _].
  assert (Hs : forall id p, (id, p) ∈ l1 ++ l2 -> settles (ec_store c) id p).
  { intros id p Hip. assert (Hip' : (id, p) ∈ page_entries m') by (rewrite Hl; set_solver).
    apply page_entries_elem in Hip'. destruct (decide (id = a)) as [->|Hne].
    - exfalso. apply elem_of_app in Hip as [Hip|Hip].
      + apply (Hn1 a); [by apply (list_elem_of_fmap_2 fst _ _ Hip)|left].
      + apply Hn2. by apply (list_elem_of_fmap_2 fst _ _ Hip).
    - unfold m' in Hip'. rewrite lookup_insert_ne in Hip' by done. by apply Hm. }
  destruct (cache_all_settled (S n) l1 c Hg) as (t1 & H1 & S1); [intros; apply Hs; set_solver|].
  pose proof (law_cache_insert n a mp t1 (same_good _ _ _ S1) Ha) as P2.
  destruct (cache_all_settled n l2 (with_store (cs_cache_insert a mp t1) c)) as (t3 & H3 & S3); [apply P2| |].
  { intros id p Hip. cbn. apply (proj1 (pc_own _ _ _ _ _ P2)), (proj1 (same_own _ _ _ S1)), Hs. set_solver. }
  exists t3. split; [rewrite Hl, (cache_all_app _ _ _ _ H1); exact H3|].
  destruct S1 as [A1 A2 A3 A4 A5 A6], P2 as [B1 B2 B3 B4 B5 B6], S3 as [D1 D2 D3 D4 D5 D6]. cbn in *. split; try congruence.
  - intros i. rewrite D3, B3. case_decide; [done|apply A3].
  - eapply same_tree_trans; [exact A6|]. by eapply same_tree_trans.
Qed.

(** ** The steps of a commit *)

(** A write to the storage keeps everything but the storage. *)
Record restored (n : nat) (t t' : T) (g : Storage) : Prop := {
  rd_good : good n t';
  rd_rows : rows t' = rows t;
  rd_pages : forall id, page_of t' id = page_of t id;
  rd_dirty : cs_dirty t' = cs_dirty t;
  rd_storage : cs_storage t' = g;
  rd_own : same_tree t t'
}.

Lemma set_storage_run n g t : good n t -> restored n t (cs_set_storage g t) g.
Proof.
  intros Hg. split; [by apply law_set_storage|apply law_set_storage_rows|apply law_set_storage_pages|apply law_set_storage_dirty|
    apply law_set_storage_val|apply law_set_storage_own].
Qed.

Lemma commit_meta_run n x c mp meta :
  idle n c -> tx_dirty x !! META_PAGE_ID = None -> page_of (ec_store c) META_PAGE_ID = Some mp -> Meta.decode mp = Ret meta ->
  exists t', commit_meta (x, c) = (Ret meta, (x, with_store t' c)) /\ same n (ec_store c) t'.
Proof.
  intros Hi Hd Hp Hm. destruct (cached_meta_run n x c mp Hi Hp) as (t' & Hr & Hs). exists t'. split; [|done].
  unfold commit_meta. rewrite get_tx_bind. cbn [fst id]. rewrite Hd, (st_bind_ret _ _ _ _ _ Hr). unfold lift. by rewrite Hm.
Qed.

(** The meta page of a commit that has no undo segment. *)
Definition new_meta (t : T) (meta : MetaPage) : MetaPage :=
  meta_with (cs_root t) (cs_next_page_id t) (next_undo_page_id meta) (undo_history_head meta) (undo_history_tail meta) meta.
Definition meta_page (t : T) (meta : MetaPage) : Page := MetaProps.encoded (new_meta t meta).

Lemma final_page_set_run meta x c : tx_seg_first x = None ->
  final_page_set meta (x, c) = (Ret (<[META_PAGE_ID := meta_page (ec_store c) meta]> (tx_dirty x)), (x, c)).
Proof.
  intros Hs. unfold final_page_set, refresh_meta. rewrite get_tx_bind. cbn [fst id].
  rewrite (st_bind_ret _ _ _ (new_meta (ec_store c) meta) (x, c)) by done. rewrite Hs, mret_bind.
  by rewrite (st_bind_lift _ _ _ (meta_page (ec_store c) meta)) by apply MetaProps.encode_ok.
Qed.

Lemma reserve_run s n_writes r x (c : EmbeddedCompute T) :
  sg_seq (storage c) = InProcess s -> n_writes <> 0 -> r <> 0 -> 0 <= ip_next_lsn s + n_writes < U64 ->
  let g := with_seq (InProcess (mkInProcess (ip_store s) (ip_next_lsn s + n_writes) (ip_request_id s) (ip_durable_lsn s)))
             (sg_cluster (storage c)) (storage c) in
  on_compute (reserve_txn_with_request_id n_writes r) (x, c) =
    (Ret (ip_next_lsn s, ip_next_lsn s + n_writes), (x, with_store (cs_set_storage g (ec_store c)) c)).
Proof.
  intros Hseq Hn Hr Hb g. apply on_compute_run. unfold reserve_txn_with_request_id. rewrite st_bind_gets. unfold sequencer. rewrite Hseq.
  cbn [Seq.reserve_txn_with_request_id]. unfold InProcessM.ip_reserve_txn_with_request_id.
  rewrite (proj2 (Z.eqb_neq n_writes 0)), (proj2 (Z.eqb_neq r 0)) by done.
  assert (Hw : wrap64 (ip_next_lsn s + n_writes) = ip_next_lsn s + n_writes) by (by apply Z.mod_small). rewrite Hw. reflexivity.
Qed.

Lemma no_secondary_pages lsn st x (c : EmbeddedCompute T) :
  tx_mutations x = [] -> build_secondary_log_pages lsn st (x, c) = (Ret (∅, st), (x, c)).
Proof. intros Hm. unfold build_secondary_log_pages. rewrite get_tx_bind. cbn [fst id]. by rewrite Hm, bool_decide_true. Qed.

Lemma commit_reserved_run {AL : Allocator} n s a m mp node_now node_ms r start_lsn end_lsn (c : EmbeddedCompute T) :
  aux_page a -> good (S n) (ec_store c) -> sg_seq (storage c) = InProcess s -> settled (ec_store c) m -> zlen mp = PAGE_SIZE ->
  let m' := <[a := mp]> m in
  let g := with_seq (InProcess (mkInProcess (mkPages (m' ∪ ip_pages (ip_store s))) (ip_next_lsn s) (ip_request_id s)
             (Z.max (ip_durable_lsn s) end_lsn))) (sg_cluster (storage c)) (storage c) in
  exists t', commit_pages_reserved node_now node_ms r start_lsn end_lsn (page_entries m') c = (Ret end_lsn, with_store t' c) /\
    page_changed n (cs_set_storage g (ec_store c)) t' a mp.
Proof.
  intros Ha Hg Hseq Hm Hmp m' g. destruct (set_storage_run (S n) g (ec_store c) Hg) as [G1 G2 G3 G4 G5 G6].
  destruct (cache_all_pages n a m (with_store (cs_set_storage g (ec_store c)) c) Ha G1 (settled_same _ _ _ G6 Hm) mp) as (t' & Hr & Hp).
  exists t'. split; [|exact Hp]. unfold commit_pages_reserved. rewrite page_map_entries. cbv zeta.
  rewrite (st_bind_lift _ _ _ tt); cycle 1.
  { apply check_sizes_ok. intros id p Hip. apply page_entries_elem in Hip. unfold m' in Hip.
    destruct (decide (id = a)) as [->|]; [rewrite lookup_insert_eq in Hip; by injection Hip as <-|].
    rewrite lookup_insert_ne in Hip by done. by apply (Hm id). }
  assert (Hsq : sequencer_commit node_now node_ms r start_lsn end_lsn (page_entries m') c = (Ret end_lsn, with_store (cs_set_storage g (ec_store c)) c)).
  { unfold sequencer_commit. rewrite st_bind_gets, Hseq. cbn [Seq.commit_pages_reserved fst snd]. unfold InProcessM.ip_commit_pages_reserved.
    unfold InProcessM.put_pages. rewrite pages_put by apply page_entries_nodup. rewrite page_entries_map. reflexivity. }
  rewrite (st_bind_ret _ _ _ _ _ Hsq), (st_bind_ret _ _ _ _ _ Hr). reflexivity.
Qed.

Lemma meta_over (mp mp1 : Page) (b1 b2 : gmap Z (list Z)) :
  (forall i, is_Some (b1 !! i) -> is_Some (b2 !! i)) ->
  <[META_PAGE_ID := mp]> (b2 ∪ <[META_PAGE_ID := mp1]> b1) = <[META_PAGE_ID := mp]> b2.
Proof.
  intros Hd. apply map_eq. intros i. destruct (decide (i = META_PAGE_ID)) as [->|]; [by rewrite !lookup_insert_eq|].
  rewrite !lookup_insert_ne by done. rewrite lookup_union, lookup_insert_ne by done.
  destruct (b2 !! i) eqn:E2; [by destruct (b1 !! i)|]. destruct (b1 !! i) eqn:E1; [|done].
  destruct (Hd i) as [p Hp]; [by rewrite E1|congruence].
Qed.

(** The second pass and the final pages. *)
Lemma commit_pages_run n r start_lsn lsn meta posting mp1 x c :
  let keys := key_list (tx_modified x) in
  idle (length keys + n) c -> intents r keys (rows (ec_store c)) -> 0 <= lsn < U64 -> tx_modified x <> ∅ ->
  tx_seg_first x = None -> tx_mutations x = [] ->
  exists b t', commit_pages r start_lsn lsn meta posting (<[META_PAGE_ID := mp1]> (tx_bptree_dirty x)) (x, c) =
      (Ret (<[META_PAGE_ID := meta_page t' meta]> b, posting), (with_pages (tx_dirty x) b (tx_ro_cache x) x, with_store t' c)) /\
    stamped n (final_stamp lsn) keys (ec_store c) t' /\ noted keys (tx_bptree_dirty x) (ec_store c) b t'.
Proof.
  intros keys Hi Hin Hlsn Hne Hseg Hmut.
  destruct (stamp_rows_run n r (final_stamp lsn) (mret tt) keys x c Hi (key_list_nodup _) Hin) as (b & t' & Hr & Hs & Hn);
    [intros row; by apply final_stamp_ok|].
  exists b, t'. split; [|done]. unfold commit_pages. rewrite get_tx_bind. cbn [fst id]. fold keys.
  rewrite (st_bind_ret _ _ _ _ _ Hr), get_tx_bind. cbn [fst tx_bptree_dirty with_pages]. rewrite bool_decide_false by done. cbv zeta.
  unfold refresh_meta, link_segment.
  rewrite (st_bind_ret _ _ _ (new_meta t' meta) (with_pages (tx_dirty x) b (tx_ro_cache x) x, with_store t' c)) by done.
  rewrite (st_bind_ret _ _ _ (new_meta t' meta, b ∪ <[META_PAGE_ID := mp1]> (tx_bptree_dirty x)) (with_pages (tx_dirty x) b (tx_ro_cache x) x, with_store t' c))
    by (rewrite get_tx_bind; cbn [fst id tx_seg_first with_pages]; by rewrite Hseg).
  cbv beta iota. rewrite (st_bind_lift _ _ _ (meta_page t' meta)) by apply MetaProps.encode_ok.
  rewrite (st_bind_ret _ _ _ _ _ (no_secondary_pages lsn posting (with_pages (tx_dirty x) b (tx_ro_cache x) x) (with_store t' c) Hmut)).
  cbv beta iota. rewrite map_empty_union, meta_over by apply Hn. reflexivity.
Qed.

(** ** The commit *)

Lemma settled_meta (t : T) b : settled t b -> b !! META_PAGE_ID = None.
Proof.
  intros Hs. destruct (b !! META_PAGE_ID) as [p|] eqn:E; [|done]. destruct (Hs _ _ E) as [_ Hp].
  exfalso. by apply (law_settles_own _ _ _ Hp); left.
Qed.

Lemma pages_size (t : T) b mp : settled t b -> size (<[META_PAGE_ID := mp]> b) = S (size b).
Proof. intros Hs. apply map_size_insert_None. by eapply settled_meta. Qed.

(** The pages noted by a pass. *)
Lemma noted_size keys b (t : T) b' t' :
  noted keys b t b' t' -> (forall k, k ∈ keys -> is_Some (roomy_of t k)) -> (size b' <= size b + length keys)%nat.
Proof.
  intros [_ _ _ Hn] Hk. destruct (Hn Hk) as [_ Hd]. rewrite <-!size_dom.
  assert (elements (dom b') ⊆+ elements (dom b) ++ omap (roomy_of t) keys) as Hsub%submseteq_length.
  { apply NoDup_submseteq; [apply NoDup_elements|]. intros i Hi%elem_of_elements%Hd. apply elem_of_app.
    destruct Hi as [Hi|(k & Hkin & Hr)]; [left; by apply elem_of_elements|right; apply list_elem_of_omap; by exists k]. }
  rewrite length_app in Hsub. unfold size, set_size. cbn. pose proof (omap_length (roomy_of t) keys). lia.
Qed.

(** A second pass over the same rows notes the same pages. *)
Lemma noted_again keys b (t : T) b1 t1 t2 b2 t3 :
  noted keys b t b1 t1 -> same_tree t1 t2 -> noted keys b1 t2 b2 t3 -> (forall k, k ∈ keys -> is_Some (roomy_of t k)) ->
  size b2 = size b1.
Proof.
  intros [_ _ _ N1] (_ & Hsame & _) [_ _ _ N2] Hk. destruct (N1 Hk) as [Hr1 Hd1].
  assert (Hr2 : forall k, roomy_of t2 k = roomy_of t k) by (intros k; by rewrite Hsame, Hr1).
  destruct N2 as [_ Hd2]; [intros k Hin; rewrite Hr2; by apply Hk|].
  rewrite <-!size_dom. f_equal. apply set_eq. intros i. rewrite Hd2. split; [|by left].
  intros [Hi|(k & Hin & Hr)]; [done|]. apply Hd1. right. exists k. by rewrite <-Hr2.
Qed.

(** A transaction of new rows that is about to commit over the in-process sequencer [s]. *)
Record committable (r : Z) (meta : MetaPage) (s : InProcessSequencer) (x : EmbeddedTxn) (c : EmbeddedCompute T) : Prop := {
  cm_txn : tx_undo_txn_id x = Some r;
  cm_id : r <> 0;
  cm_dirty : tx_dirty x = ∅;
  cm_segment : tx_seg_first x = None;
  cm_mutations : tx_mutations x = [];
  cm_rows : tx_modified x <> ∅;
  cm_intents : intents r (key_list (tx_modified x)) (rows (ec_store c));
  cm_settled : settled (ec_store c) (tx_bptree_dirty x);
  cm_roomy : forall k, k ∈ key_list (tx_modified x) -> is_Some (roomy_of (ec_store c) k);
  cm_meta : exists mp, page_of (ec_store c) META_PAGE_ID = Some mp /\ Meta.decode mp = Ret meta;
  cm_seq : sg_seq (storage c) = InProcess s;
  cm_next : 0 <= ip_next_lsn s;
  cm_lsns : ip_next_lsn s + Z.of_nat (size (tx_bptree_dirty x) + length (key_list (tx_modified x)) + 1) < U64
}.

(** The node after the commit at [lsn]: the rows of the transaction carry the LSN, the storage
    has the pages the tree has, and the transaction is over. *)
Record published (n : nat) (r lsn : Z) (meta : MetaPage) (s : InProcessSequencer) (x : EmbeddedTxn) (c c' : EmbeddedCompute T) : Prop := {
  pb_idle : idle n c';
  pb_in : forall k, k ∈ tx_modified x -> rows (ec_store c') !! k = stamp_row (final_stamp lsn) <$> rows (ec_store c) !! k;
  pb_out : forall k, k ∉ tx_modified x -> rows (ec_store c') !! k = rows (ec_store c) !! k;
  pb_pages : forall id, id <> META_PAGE_ID -> page_of (ec_store c') id = page_of (ec_store c) id;
  pb_stored : exists b root next, 0 <= root < U64 /\ 0 <= next < U64 /\ settled (ec_store c') b /\
    (backed (ec_store c) (tx_bptree_dirty x ∪ ip_pages (ip_store s)) -> backed (ec_store c') (b ∪ ip_pages (ip_store s))) /\
    let mp := MetaProps.encoded (meta_with root next (next_undo_page_id meta) (undo_history_head meta) (undo_history_tail meta) meta) in
    page_of (ec_store c') META_PAGE_ID = Some mp /\
    sg_seq (storage c') = InProcess (mkInProcess (mkPages (<[META_PAGE_ID := mp]> b ∪ ip_pages (ip_store s))) lsn (ip_request_id s)
      (Z.max (ip_durable_lsn s) lsn));
  pb_indexes : ec_indexes c' = ec_indexes c;
  pb_registry : ec_registry c' = base.delete r (ec_registry c);
  pb_reads : ec_active_reads c' =
    match tx_read_guard x with None => ec_active_reads c | Some id => ActiveReadsM.drop_guard id (ec_active_reads c) end
}.

Lemma pre_stamp_ok row : BpSpec.lv_ok row -> BpSpec.lv_ok (stamp_row pre_stamp row).
Proof. intros []. split; cbn; try done; unfold U64; lia. Qed.

Lemma stamped_intents n r keys (t t' : T) :
  stamped n pre_stamp keys t t' -> intents r keys (rows t) -> intents r keys (rows t').
Proof.
  intros Hs Hi k Hk. destruct (Hi k Hk) as (Hz & row & Hr & His & Hok). split; [done|]. exists (stamp_row pre_stamp row).
  rewrite (sp_in _ _ _ _ _ Hs k Hk), Hr. split; [done|]. split; [exact His|by apply pre_stamp_ok].
Qed.

Lemma touch_none tail x (c : EmbeddedCompute T) : tx_seg_first x = None -> touch_old_tail tail (x, c) = (Ret tt, (x, c)).
Proof. intros Hs. unfold touch_old_tail. rewrite get_tx_bind. cbn [fst id]. by rewrite Hs. Qed.

(** The end of a commit. *)
Definition released (x : EmbeddedTxn) (c : EmbeddedCompute T) : EmbeddedCompute T :=
  match tx_read_guard x with None => c | Some id => with_reads (ActiveReadsM.drop_guard id (ec_active_reads c)) c end.
Definition unguarded (x : EmbeddedTxn) : EmbeddedTxn := match tx_read_guard x with None => x | Some _ => with_guard None x end.

Lemma take_guard_run x (c : EmbeddedCompute T) : take_guard (x, c) = (Ret tt, (unguarded x, released x c)).
Proof. unfold take_guard, modify, unguarded, released. cbn [fst snd]. by destruct (tx_read_guard x). Qed.

Lemma committed_run r lsn posting x (c : EmbeddedCompute T) :
  tx_mutations x = [] -> ec_posting_log c = posting ->
  committed r lsn posting (x, c) = (Ret tt, (x, with_registry (base.delete r (ec_registry c)) c)).
Proof. intros Hm <-. unfold committed. rewrite get_tx_bind. cbn [fst]. rewrite Hm. by destruct c. Qed.

(** What the two passes, the write to the storage and the cache add up to. *)
Lemma published_intro n r lsn meta s x c (t1 t2 t3 t4 t5 : T) b1 b2 g1 g2 :
  let keys := key_list (tx_modified x) in let mp := meta_page t4 meta in
  cs_dirty t1 = None -> settled t1 (tx_bptree_dirty x) -> same_tree (ec_store c) t1 -> rows t1 = rows (ec_store c) ->
  (forall id, page_of t1 id = page_of (ec_store c) id) ->
  stamped (S (length keys + n)) pre_stamp keys t1 t2 -> noted keys (tx_bptree_dirty x) t1 b1 t2 ->
  restored (S (length keys + n)) t2 t3 g1 -> stamped (S n) (final_stamp lsn) keys t3 t4 -> noted keys b1 t3 b2 t4 ->
  page_changed n (cs_set_storage g2 t4) t5 META_PAGE_ID mp ->
  sg_seq g2 = InProcess (mkInProcess (mkPages (<[META_PAGE_ID := mp]> b2 ∪ ip_pages (ip_store s))) lsn (ip_request_id s) (Z.max (ip_durable_lsn s) lsn)) ->
  published n r lsn meta s x c (released x (with_registry (base.delete r (ec_registry c)) (with_store t5 c))).
Proof.
  intros keys mp Hd1 Hset1 Hown1 Hr1 Hp1 P1 N1 [G1 G2 G3 G4 G5 G6] P2 N2 [B1 B2 B3 B4 B5 B6] Hg2.
  assert (Hstore : ec_store (released x (with_registry (base.delete r (ec_registry c)) (with_store t5 c))) = t5)
    by (unfold released; by destruct (tx_read_guard x)).
  rewrite law_set_storage_rows in B2. rewrite law_set_storage_dirty in B4. rewrite law_set_storage_val in B5.
  split; unfold idle, storage; rewrite ?Hstore.
  - split; [done|]. rewrite B4. apply P2.
  - intros k Hk%key_list_elem. rewrite B2, (sp_in _ _ _ _ _ P2 k Hk), G2, (sp_in _ _ _ _ _ P1 k Hk), Hr1.
    by destruct (rows (ec_store c) !! k).
  - intros k Hk. assert (Hk' : k ∉ keys) by (unfold keys; by rewrite key_list_elem).
    by rewrite B2, (sp_out _ _ _ _ _ P2 k), G2, (sp_out _ _ _ _ _ P1 k), Hr1.
  - intros id Hid. rewrite B3, decide_False by done.
    by rewrite law_set_storage_pages, (sp_pages _ _ _ _ _ P2), G3, (sp_pages _ _ _ _ _ P1), Hp1.
  - exists b2, (cs_root t4), (cs_next_page_id t4). destruct (law_ids _ _ (sp_good _ _ _ _ _ P2)). rewrite B5. split; [done|]. split; [done|]. split_and!; cycle 3; [exact Hg2| | |].
    + eapply settled_same; [exact B6|]. eapply settled_same; [apply law_set_storage_own|]. apply (nt_settled _ _ _ _ _ N2).
      eapply settled_same; [exact G6|]. by apply (nt_settled _ _ _ _ _ N1).
    + intros Hb. eapply backed_same; [exact B6|]. eapply backed_same; [apply law_set_storage_own|]. apply (nt_backed _ _ _ _ _ N2).
      eapply backed_same; [exact G6|]. apply (nt_backed _ _ _ _ _ N1). by eapply backed_same.
    + rewrite B3, decide_True by done. reflexivity.
  - unfold released. by destruct (tx_read_guard x).
  - unfold released. by destruct (tx_read_guard x).
  - unfold released. by destruct (tx_read_guard x).
Qed.

(** The commit from the runs of its parts. *)
Lemma commit_rw_exec {AL : Allocator} node_now node_ms meta r posting start_lsn lsn b map2 x c c1 c2 c3 x4 c4 c5 :
  tx_undo_txn_id x = Some r -> tx_seg_first x = None -> tx_mutations x = [] ->
  commit_meta (x, c) = (Ret meta, (x, c1)) ->
  stamp_rows r pre_stamp (_ ← take_guard; throw (Io WouldBlock)) (key_list (tx_modified x)) (x, c1) =
    (Ret tt, (with_pages (tx_dirty x) b (tx_ro_cache x) x, c2)) ->
  let x2 := with_pages (b ∪ tx_dirty x) b (tx_ro_cache x) x in
  let map1 := <[META_PAGE_ID := meta_page (ec_store c2) meta]> (b ∪ tx_dirty x) in
  ec_posting_log c2 = posting ->
  on_compute (reserve_txn_with_request_id (Z.of_nat (size map1)) r) (x2, c2) = (Ret (start_lsn, lsn), (x2, c3)) ->
  commit_pages r start_lsn lsn meta posting map1 (x2, c3) = (Ret (map2, posting), (x4, c4)) ->
  size map2 = size map1 ->
  commit_pages_reserved node_now node_ms r start_lsn lsn (page_entries map2) c4 = (Ret lsn, c5) ->
  tx_mutations x4 = [] -> ec_posting_log c5 = posting ->
  commit_rw node_now node_ms (x, c) = (Ret lsn, (unguarded x4, released x4 (with_registry (base.delete r (ec_registry c5)) c5))).
Proof.
  intros Htx Hseg Hmut H1 H2 x2 map1 Hpo H3 H4 Hsize H5 Hmut4 Hpo5.
  assert (Hpos : size map1 <> 0%nat) by (intros H0%map_size_empty_inv; by apply (insert_non_empty (b ∪ tx_dirty x) META_PAGE_ID (meta_page (ec_store c2) meta))).
  unfold commit_rw. rewrite (st_bind_ret _ _ _ _ _ H1), (st_bind_ret _ _ _ _ _ (touch_none _ x c1 Hseg)).
  rewrite get_tx_bind. cbn [fst id]. rewrite Htx, mret_bind, (st_bind_ret _ _ _ _ _ H2).
  rewrite (st_bind_ret _ _ _ tt (x2, c2)) by done.
  rewrite (st_bind_ret _ _ _ _ _ (final_page_set_run meta x2 c2 Hseg)). cbn [tx_dirty x2 with_pages]. fold map1.
  rewrite (st_bind_ret _ _ _ posting (x2, c2)) by (rewrite <-Hpo; done).
  rewrite (st_bind_ret _ _ _ _ _ (no_secondary_pages 0 posting x2 c2 Hmut)). cbv beta iota zeta.
  rewrite map_size_empty. replace (Z.max (Z.of_nat (size map1) + Z.of_nat 0) 1) with (Z.of_nat (size map1)) by lia.
  rewrite (st_bind_ret _ _ _ _ _ H3). cbv beta iota. rewrite (st_bind_ret _ _ _ _ _ H4). cbv beta iota.
  rewrite Hsize, Z.eqb_refl. cbn [negb].
  assert (Ha : attempt (on_compute (commit_pages_reserved node_now node_ms r start_lsn lsn (page_entries map2))) (x4, c4) = (Ret (Ret lsn), (x4, c5)))
    by (unfold attempt; by rewrite (on_compute_run _ x4 c4 _ _ H5)).
  rewrite (st_bind_ret _ _ _ _ _ Ha). cbn [is_ret].
  rewrite (st_bind_ret _ _ _ _ _ (committed_run r lsn posting x4 c5 Hmut4 Hpo5)).
  by rewrite (st_bind_ret _ _ _ _ _ (take_guard_run x4 _)).
Qed.

(** The commit of such a transaction succeeds. *)
Lemma commit_rw_run {AL : Allocator} node_now node_ms n r meta s x c :
  committable r meta s x c -> idle (2 * length (key_list (tx_modified x)) + S n) c ->
  exists lsn x' c', commit_rw node_now node_ms (x, c) = (Ret lsn, (x', c')) /\
    ip_next_lsn s < lsn <= ip_next_lsn s + Z.of_nat (size (tx_bptree_dirty x) + length (key_list (tx_modified x)) + 1) /\
    published n r lsn meta s x c c' /\ tx_read_guard x' = None.
Proof.
  intros [Htx Hr0 Hdirty Hseg Hmut Hne Hin Hset Hroomy (mp & Hmp & Hdec) Hseq Hnx Hlsn] Hi. set (keys := key_list (tx_modified x)) in *.
  destruct (commit_meta_run _ x c mp meta Hi) as (t1 & H1 & S1); [by rewrite Hdirty|done|done|].
  pose proof (same_idle _ _ _ Hi S1) as Hi1. pose proof S1 as [_ Sr Sp Sd Ss So].
  replace (2 * length keys + S n)%nat with (length keys + S (length keys + n))%nat in Hi1 by lia.
  destruct (stamp_rows_run _ r pre_stamp (_ ← take_guard; throw (Io WouldBlock)) keys x (with_store t1 c) Hi1 (key_list_nodup _))
    as (b1 & t2 & H2 & P1 & N1); [cbn; by rewrite Sr|apply pre_stamp_ok|].
  cbn [ec_store with_store] in P1, N1.
  set (x2 := with_pages b1 b1 (tx_ro_cache x) x). set (map1 := <[META_PAGE_ID := meta_page t2 meta]> b1).
  assert (Hset1 : settled t1 (tx_bptree_dirty x)) by (by eapply settled_same).
  assert (Hroomy1 : forall k, k ∈ keys -> is_Some (roomy_of t1 k)) by (intros k Hk; destruct So as (_ & -> & _); by apply Hroomy).
  pose proof (noted_size _ _ _ _ _ N1 Hroomy1) as Hsz. pose proof (nt_settled _ _ _ _ _ N1 Hset1) as Hset2.
  assert (Hsize : size map1 = S (size b1)) by (by eapply pages_size).
  assert (Hsg : storage (with_store t2 c) = storage c) by (unfold storage; cbn; by rewrite (sp_storage _ _ _ _ _ P1), Ss).
  pose proof (reserve_run s (Z.of_nat (S (size b1))) r x2 (with_store t2 c)) as H3. cbv zeta in H3. rewrite Hsg in H3.
  specialize (H3 Hseq ltac:(lia) Hr0 ltac:(lia)).
  set (g1 := with_seq _ _ _) in H3. set (t3 := cs_set_storage g1 t2) in *. set (lsn := ip_next_lsn s + Z.of_nat (S (size b1))) in *.
  pose proof (set_storage_run _ g1 t2 (sp_good _ _ _ _ _ P1)) as G. fold t3 in G.
  assert (Hi3 : idle (length keys + S n) (with_store t3 c)).
  { destruct G as [Gg _ _ Gd _ _]. split; cbn; [by replace (length keys + S n)%nat with (S (length keys + n)) by lia|].
    rewrite Gd. apply P1. }
  destruct (commit_pages_run (S n) r (ip_next_lsn s) lsn meta (ec_posting_log c) (meta_page t2 meta) x2 (with_store t3 c) Hi3)
    as (b2 & t4 & H4 & P2 & N2); try done.
  { cbn. rewrite (rd_rows _ _ _ _ G). eapply stamped_intents; [exact P1|]. by rewrite Sr. }
  { unfold lsn. lia. }
  cbn [ec_store with_store tx_bptree_dirty x2 with_pages] in P2, N2, H4. fold keys in P2, N2.
  assert (Hset3 : settled t4 b2) by (apply (nt_settled _ _ _ _ _ N2); eapply settled_same; [apply (rd_own _ _ _ _ G)|done]).
  pose proof (noted_again _ _ _ _ _ _ _ _ N1 (rd_own _ _ _ _ G) N2 Hroomy1) as Hagain.
  set (c4 := with_store t4 c). set (x4 := with_pages b1 b2 (tx_ro_cache x) x).
  assert (Hsg4 : storage c4 = g1) by (unfold storage, c4; cbn; by rewrite (sp_storage _ _ _ _ _ P2), (rd_storage _ _ _ _ G)).
  destruct (commit_reserved_run n (mkInProcess (ip_store s) lsn (ip_request_id s) (ip_durable_lsn s)) META_PAGE_ID b2 (meta_page t4 meta) node_now node_ms r
    (ip_next_lsn s) lsn c4) as (t5 & H5 & P5); [by left|apply P2|by rewrite Hsg4|done|apply MetaProps.encoded_len|].
  set (g2 := with_seq _ _ _) in P5.
  exists lsn, (unguarded x4), (released x (with_registry (base.delete r (ec_registry c)) (with_store t5 c))).
  split; [|split; [unfold lsn; fold keys; lia|]]; cycle 1.
  { split; [|unfold unguarded, x4; cbn; by destruct (tx_read_guard x) eqn:E; cbn].
    eapply (published_intro n r lsn meta s x c t1 t2 t3 t4 t5 b1 b2 g1 g2); try done. by rewrite Sd; apply Hi. }
  pose proof (commit_rw_exec node_now node_ms meta r (ec_posting_log c) (ip_next_lsn s) lsn b1 (<[META_PAGE_ID := meta_page t4 meta]> b2)
    x c (with_store t1 c) (with_store t2 c) (with_store t3 c) x4 c4 (with_store t5 c) Htx Hseg Hmut H1 H2) as HX.
  cbv zeta in HX. rewrite Hdirty, map_union_empty in HX. cbn [ec_store with_store] in HX. fold x2 map1 in HX. rewrite Hsize in HX.
  apply HX; try done. by rewrite (pages_size _ _ _ Hset3), Hagain.
Qed.

End Commit.

End CommitRun.
