(* ===== verification/CommitPut.v ===== *)
(** * CommitPut: a put of the compute node, from its beginning to the reads after it

    [EmbeddedCompute::put] begins a transaction, writes the row and commits, and
    [EmbeddedCompute::get] begins a read at the LSN the commits have reached.  Over the
    in-process storage: a put of a new row returns, later reads see it, and the node is
    ready for the next one. *)

From stdpp Require Import base numbers list list_numbers gmap fin_maps sorting.
From S2P Require Import Prelude Common SlottedPage UndoPage MetaPage WalCodec Mvcc PageStore Node Sequencer Secondary BtreePage Provider Cache Btree Compute ComputeSpec ComputeUndo ComputeProps ComputeCommit CommitRun.
Import Compute.Compute ComputeProps CommitProps CommitRun.

Module CommitPut.

Section Put.
Context {T : Type} {CS : ComputeStore T} {SV : StoreView T} {SL : StoreLaws T} {OT : Others T}.

(** ** Beginning *)

(** The transaction that [begin_tx] returns. *)
Definition begun (read_only : bool) (lsn guard started : Z) (id : option Z) : EmbeddedTxn :=
  mkTxn lsn (Some guard) started None read_only false ∅ ∅ ∅ ∅ [] id (if read_only then 0 else lsn) None None None 0.

Lemma restored_trans n (t t1 t2 : T) g1 g2 : restored n t t1 g1 -> restored n t1 t2 g2 -> restored n t t2 g2.
Proof.
  intros [] []. split; try congruence. by eapply same_tree_trans.
Qed.

(** What a beginning leaves as it was. *)
Record begun_on (n : nat) (c c1 : EmbeddedCompute T) (g : Storage) : Prop := {
  bg_store : restored n (ec_store c) (ec_store c1) g;
  bg_indexes : ec_indexes c1 = ec_indexes c;
  bg_posting : ec_posting_log c1 = ec_posting_log c
}.

Lemma begin_read_run n s (c : EmbeddedCompute T) :
  good n (ec_store c) -> sg_seq (storage c) = InProcess s ->
  exists guard started c1 g, begin_tx true None c = (Ret (begun true (ip_durable_lsn s) guard started None), c1) /\
    begun_on n c c1 g /\ sg_seq g = InProcess s.
Proof.
  intros Hg Hs. unfold begin_tx. rewrite st_bind_gets. unfold begin_ro, sequencer. rewrite Hs. cbn [Seq.begin_ro].
  rewrite st_bind_gets. set (g := with_min_read_lsn _ _). do 3 eexists. exists g. split; [reflexivity|].
  split; [|exact Hs]. split; [apply (set_storage_run n g _ Hg)|done|done].
Qed.

(** The storage after the id of a writer is allocated. *)
Definition begun_storage (s : InProcessSequencer) (c : EmbeddedCompute T) : Storage :=
  let g := with_min_read_lsn (Z.max (sg_min_read_lsn (storage c)) (ip_durable_lsn s)) (storage c) in
  with_seq (InProcess (mkInProcess (ip_store s) (ip_next_lsn s) (wrap64 (ip_request_id s + 1)) (ip_durable_lsn s))) (sg_cluster g) g.

Lemma begin_rw_raw s (c : EmbeddedCompute T) :
  sg_seq (storage c) = InProcess s ->
  exists guard started c1 g1, begin_rw c = (Ret (begun false (ip_durable_lsn s) guard started (Some (ip_request_id s))), c1) /\
    ec_store c1 = cs_set_storage (begun_storage s c) (cs_set_storage g1 (ec_store c)) /\
    ec_indexes c1 = ec_indexes c /\ ec_posting_log c1 = ec_posting_log c.
Proof.
  intros Hs. set (g1 := with_min_read_lsn (Z.max (sg_min_read_lsn (storage c)) (ip_durable_lsn s)) (storage c)).
  set (t1 := cs_set_storage g1 (ec_store c)). set (guard := ar_next_id (ec_active_reads c)). set (k := tick (ec_clock c)).
  set (c2 := with_clock k (with_reads (ActiveReadsM.register (ip_durable_lsn s) (ec_active_reads c)).2 (with_store t1 c))).
  assert (Hg : cs_storage t1 = g1) by apply law_set_storage_val.
  assert (H3 : allocate_request_id c2 = (Ret (ip_request_id s), with_store (cs_set_storage (begun_storage s c) t1) c2)).
  { unfold allocate_request_id, set_sequencer, sequencer, storage. rewrite st_bind_gets. cbn [ec_store c2 with_clock with_reads with_store].
    rewrite Hg. change (sg_seq g1) with (sg_seq (storage c)). rewrite Hs. cbn [Seq.allocate_request_id InProcessM.ip_allocate_request_id].
    unfold mbind, st_bind, gets. cbn [ec_store c2 with_clock with_reads with_store]. rewrite Hg. reflexivity. }
  assert (Hb : begin_tx false None c = (Ret (begun false (ip_durable_lsn s) guard (ck_now k) (Some (ip_request_id s))),
    with_store (cs_set_storage (begun_storage s c) t1) c2)).
  { unfold begin_tx. rewrite st_bind_gets. unfold begin_ro, sequencer. rewrite Hs. cbn [Seq.begin_ro]. rewrite st_bind_gets. fold g1.
    rewrite (st_bind_ret _ _ _ tt (with_store t1 c)) by done.
    rewrite (st_bind_ret _ _ _ guard (with_reads (ActiveReadsM.register (ip_durable_lsn s) (ec_active_reads c)).2 (with_store t1 c))) by done.
    rewrite (st_bind_ret _ _ _ (ck_now k) c2) by done.
    rewrite (st_bind_ret _ _ _ (Some (ip_request_id s)) (with_store (cs_set_storage (begun_storage s c) t1) c2)); [reflexivity|].
    rewrite (st_bind_ret _ _ _ _ _ H3). reflexivity. }
  exists guard, (ck_now k). eexists. exists g1. unfold begin_rw. rewrite (st_bind_ret _ _ _ _ _ Hb). split; [reflexivity|]. by split.
Qed.

Lemma begin_rw_run n s (c : EmbeddedCompute T) :
  good n (ec_store c) -> sg_seq (storage c) = InProcess s ->
  exists guard started c1, begin_rw c = (Ret (begun false (ip_durable_lsn s) guard started (Some (ip_request_id s))), c1) /\
    begun_on n c c1 (begun_storage s c).
Proof.
  intros Hg Hs. destruct (begin_rw_raw s c Hs) as (guard & started & c1 & g1 & Hr & Hst & Hi & Hp).
  exists guard, started, c1. split; [exact Hr|]. split; [|done|done]. rewrite Hst.
  pose proof (set_storage_run n g1 _ Hg) as R1. eapply restored_trans; [exact R1|]. apply set_storage_run, R1.
Qed.

(** ** Putting a new row *)

Definition new_row (txn lsn : Z) (value : bytes) : LeafValue := {| lv_value := value; lv_meta := meta_of 0 None FLAG_INTENT txn lsn |}.

Lemma new_row_ok txn lsn value : 0 <= txn < U64 -> 0 <= lsn < U64 -> zlen value = VALUE_SIZE -> BpSpec.lv_ok (new_row txn lsn value).
Proof. intros. apply meta_of_ok; try done; unfold FLAG_INTENT, U64, U16; lia. Qed.

(** The transaction after it wrote [key]. *)
Definition wrote_new (key : bytes) (b : gmap Z (list Z)) (x : EmbeddedTxn) : EmbeddedTxn :=
  with_writes ({[key]} ∪ tx_modified x) (tx_mutations x ++ []) (with_pages (tx_dirty x) b (tx_ro_cache x) x).

Lemma put_new_run n order key value r x c :
  idle (S n) c -> tx_timeout x = None -> tx_read_only x = false -> tx_undo_txn_id x = Some r -> 0 <= r < U64 ->
  0 <= tx_intent_base_lsn x < U64 -> zlen key = KEY_SIZE -> zlen value = VALUE_SIZE -> rows (ec_store c) !! key = None ->
  SecIndex.plan_mutations order key None (Some value) (ec_indexes c) = Ret [] ->
  exists b t' reg, put order key value (x, c) = (Ret tt, (wrote_new key b x, with_registry reg (with_store t' c))) /\
    row_changed n (ec_store c) t' (<[key := new_row r (tx_intent_base_lsn x) value]> (rows (ec_store c))) /\ cs_dirty t' = None /\
    (settled (ec_store c) (tx_bptree_dirty x) -> settled t' b) /\
    (forall m, backed (ec_store c) (tx_bptree_dirty x ∪ m) -> backed t' (b ∪ m)) /\
    (spare_of (ec_store c) key = true -> exists p, roomy_of t' key = Some p /\ dom b = {[p]} ∪ dom (tx_bptree_dirty x)).
Proof.
  intros Hi Ht Hro Htx Hr Hb Hk Hv Hnone Hplan. set (row := new_row r (tx_intent_base_lsn x) value).
  destruct (tree_get_run _ key x c Hi Hk) as (t0 & H0 & S0). rewrite Hnone in H0. pose proof (same_idle _ _ _ Hi S0) as Hi0.
  pose proof (new_row_ok r (tx_intent_base_lsn x) value Hr Hb Hv) as Hok. fold row in Hok.
  destruct (tree_insert_run n key row x (with_store t0 c) Hi0 Hk Hok) as (b & t' & H1 & [Rg Rr Rp Rd Rs] & Hd).
  pose proof (tree_insert_noted n key row x (with_store t0 c) b t' Hi0 Hk Hok H1) as (_ & Ns & Nb & _ & Nsp).
  destruct S0 as [_ Sr Sp Sd Ss So]. cbn [ec_store with_store] in *.
  exists b, t'. eexists. split; [|split; [|split; [exact Hd|split_and!]]].
  - unfold put. rewrite (st_bind_ret _ _ _ _ _ (ensure_run x c Ht)). rewrite get_tx_bind. cbn [fst id]. rewrite Hro.
    rewrite (st_bind_ret _ _ _ _ _ H0), (st_bind_lift _ _ _ None) by done.
    rewrite (st_bind_lift _ _ _ value) by (by apply to_array_ok). rewrite (st_bind_lift _ _ _ key) by (by apply to_array_ok).
    rewrite (st_bind_ret _ _ _ _ _ (plan_run order key None (Some value) [] x (with_store t0 c) Hplan)).
    rewrite get_tx_bind. cbn [fst id]. rewrite Htx. cbn [default id]. rewrite mret_bind.
    change {| lv_value := value; lv_meta := _ |} with row. rewrite (st_bind_ret _ _ _ _ _ H1).
    unfold record_write. rewrite set_tx_bind, get_tx_bind. cbn [fst snd tx_undo_txn_id with_writes with_pages]. rewrite Htx. reflexivity.
  - split; [done|by rewrite Rr, Sr|intros id; by rewrite Rp, Sp|intros d; destruct Hi as [_ Hd0]; by rewrite Hd0|by rewrite Rs].
  - intros Hs. apply Ns. by eapply settled_same.
  - intros m Hm. apply Nb. by eapply backed_same.
  - intros Hs. destruct So as (_ & _ & Hsp). apply Nsp; [by rewrite Sr|by rewrite Hsp].
Qed.

(** ** The node between two calls *)

(** The meta page decodes to what was encoded. *)
Record meta_good (m : MetaPage) : Prop := {
  mg_ok : MetaProps.meta_ok m;
  mg_cap : zlen (undo_free m) <= UNDO_FREE_CAP;
  mg_free : Forall (fun i => i <> 0) (undo_free m)
}.

Lemma meta_good_decode m : meta_good m -> Meta.decode (MetaProps.encoded m) = Ret m.
Proof.
  intros [Hok Hcap Hfree]. destruct (MetaProps.meta_roundtrip m Hok) as (p & He & _ & _ & Hd).
  rewrite MetaProps.encode_ok in He. injection He as <-. by apply Hd.
Qed.

Lemma meta_good_with m root next : meta_good m -> 0 <= root < U64 -> 0 <= next < U64 ->
  meta_good (meta_with root next (next_undo_page_id m) (undo_history_head m) (undo_history_tail m) m).
Proof. intros [[] ? ?] ? ?. by split; [split|..]. Qed.

(** A node over the in-process storage whose sequencer is [s]: the storage has the pages of
    the tree, and there is room for [n] insertions and for the LSNs and the ids of [k] more
    transactions of one row. *)
Record node_ready (n : nat) (k : Z) (s : InProcessSequencer) (c : EmbeddedCompute T) : Prop := {
  nr_idle : idle n c;
  nr_seq : sg_seq (storage c) = InProcess s;
  nr_meta : exists m, page_of (ec_store c) META_PAGE_ID = Some (MetaProps.encoded m) /\ meta_good m;
  nr_backed : backed (ec_store c) (ip_pages (ip_store s));
  nr_durable : 0 <= ip_durable_lsn s < U64;
  nr_next : 0 <= ip_next_lsn s;
  nr_lsns : ip_next_lsn s + 3 * k < U64;
  nr_id : 0 < ip_request_id s;
  nr_ids : ip_request_id s + k < U64
}.

Lemma node_ready_less n n' k k' s c : (n' <= n)%nat -> k' <= k -> node_ready n k s c -> node_ready n' k' s c.
Proof.
  intros Hn Hk [[Hg Hd] ? ? ? ? ? ? ? ?]. split; try done; try lia. split; [|done].
  apply (good_less (n - n')). by replace (n - n' + n')%nat with n by lia.
Qed.

(** The commit of a transaction that wrote one new row. *)
Lemma commit_one_run {AL : Allocator} node_now node_ms n r s m key b x c :
  idle (3 + n) c -> sg_seq (storage c) = InProcess s -> page_of (ec_store c) META_PAGE_ID = Some (MetaProps.encoded m) -> meta_good m ->
  tx_undo_txn_id x = Some r -> r <> 0 -> tx_timeout x = None -> tx_read_only x = false -> tx_dirty x = ∅ -> tx_seg_first x = None ->
  tx_mutations x = [] -> tx_modified x = {[key]} -> tx_bptree_dirty x = b -> size b = 1%nat -> settled (ec_store c) b ->
  is_Some (roomy_of (ec_store c) key) -> intents r [key] (rows (ec_store c)) ->
  0 <= ip_next_lsn s -> ip_next_lsn s + 3 < U64 ->
  exists lsn x' c', commit_body node_now node_ms (x, c) = (Ret lsn, (x', c')) /\ ip_next_lsn s < lsn <= ip_next_lsn s + 3 /\
    published n r lsn m s x c c' /\ tx_read_guard x' = None.
Proof.
  intros Hi Hseq Hmp Hm Htx Hr Ht Hro Hd Hseg Hmut Hmod <- Hb Hset Hroomy Hin Hnx Hlsn.
  assert (Hkeys : key_list (tx_modified x) = [key]) by (rewrite Hmod; apply key_list_singleton).
  destruct (commit_rw_run node_now node_ms n r m s x c) as (lsn & x' & c' & Hrun & Hl & Hp & Hg).
  - split; try done; rewrite ?Hkeys; try done.
    + rewrite Hmod. set_solver.
    + by intros k ->%list_elem_of_singleton.
    + exists (MetaProps.encoded m). split; [done|by apply meta_good_decode].
    + rewrite Hb. cbn. lia.
  - rewrite Hkeys. exact Hi.
  - exists lsn, x', c'. rewrite Hkeys, Hb in Hl. split; [|by split; [cbn in Hl; lia|]]. unfold commit_body. rewrite (st_bind_ret _ _ _ _ _ (ensure_run x c Ht)), get_tx_bind.
    cbn [fst]. by rewrite Hro.
Qed.

(** The row as readers see it. *)
Definition committed_row (lsn : Z) (value : bytes) : LeafValue := {| lv_value := value; lv_meta := meta_of lsn None 0 0 0 |}.

(** What a put leaves: the row is in, the storage has the tree's pages, and the reads to come
    begin at the commit or after it. *)
Record put_done (n : nat) (k lsn : Z) (key value : bytes) (s : InProcessSequencer) (c : EmbeddedCompute T)
    (s' : InProcessSequencer) (c' : EmbeddedCompute T) : Prop := {
  pd_ready : node_ready n k s' c';
  pd_lsn : ip_next_lsn s < lsn < U64;
  pd_durable : Z.max (ip_durable_lsn s) lsn <= ip_durable_lsn s';
  pd_rows : rows (ec_store c') = <[key := committed_row lsn value]> (rows (ec_store c));
  pd_indexes : ec_indexes c' = ec_indexes c
}.

Lemma published_rows n r lsn m s key value x (c c' : EmbeddedCompute T) base rs :
  published n r lsn m s x c c' -> tx_modified x = {[key]} -> rows (ec_store c) = <[key := new_row r base value]> rs ->
  rows (ec_store c') = <[key := committed_row lsn value]> rs.
Proof.
  intros Hp Hmod Hrows. apply map_eq. intros k. destruct (decide (k = key)) as [->|Hne].
  - rewrite (pb_in _ _ _ _ _ _ _ _ Hp), Hrows, !lookup_insert_eq by (rewrite Hmod; set_solver). reflexivity.
  - rewrite (pb_out _ _ _ _ _ _ _ _ Hp), Hrows, !lookup_insert_ne by (rewrite ?Hmod; set_solver). reflexivity.
Qed.

Lemma backed_aux (t : T) a pg m : aux_page a -> backed t m -> backed t (<[a := pg]> m).
Proof.
  intros Ha Hb id pg' Hid Hne. rewrite lookup_insert_ne; [by apply Hb|]. intros <-. by apply (law_settles_own _ _ _ Hid).
Qed.

(** From the commit to the node's state. *)
Lemma published_done n k r lsn m s key value x (c0 c c' : EmbeddedCompute T) base :
  published n r lsn m s x c c' -> tx_modified x = {[key]} -> meta_good m ->
  rows (ec_store c) = <[key := new_row r base value]> (rows (ec_store c0)) -> ec_indexes c = ec_indexes c0 ->
  backed (ec_store c) (tx_bptree_dirty x ∪ ip_pages (ip_store s)) ->
  0 <= ip_durable_lsn s < U64 -> 0 <= ip_next_lsn s -> ip_next_lsn s < lsn <= ip_next_lsn s + 3 -> 0 <= k ->
  ip_next_lsn s + 3 * (k + 1) < U64 -> 0 < ip_request_id s -> ip_request_id s + k < U64 ->
  exists s', put_done n k lsn key value s c0 s' c'.
Proof.
  intros Hp Hmod Hm Hrows Hix Hbk Hdur Hnx Hl Hk Hlsns Hid Hids. pose proof (published_rows _ _ _ _ _ _ _ _ _ _ _ _ Hp Hmod Hrows) as Hr.
  destruct (pb_stored _ _ _ _ _ _ _ _ Hp) as (b & root & next & Hroot & Hnext & Hset & Hback & Hmp & Hseq).
  eexists. split; [split|..]; [apply Hp|exact Hseq|eexists; split; [exact Hmp|by apply meta_good_with]|..]; cbn; try lia.
  - rewrite <-insert_union_l. apply backed_aux; [by left|]. by apply Hback.
  - exact Hr.
  - by rewrite (pb_indexes _ _ _ _ _ _ _ _ Hp).
Qed.

Lemma finish_run {A} (m : st (EmbeddedTxn * EmbeddedCompute T) Error A) tx c a x' c' :
  m (tx, c) = (Ret a, (x', c')) -> tx_read_guard x' = None -> finish m tx c = (Ret a, c').
Proof. intros Hr Hg. unfold finish. rewrite Hr, take_guard_run. cbn. unfold released. by rewrite Hg. Qed.

(** A put of a new row returns. *)
Lemma compute_put_run {AL : Allocator} node_now node_ms order n k s key value c :
  node_ready (4 + n) (k + 1) s c -> 0 <= k -> zlen key = KEY_SIZE -> zlen value = VALUE_SIZE ->
  rows (ec_store c) !! key = None -> spare_of (ec_store c) key = true ->
  SecIndex.plan_mutations order key None (Some value) (ec_indexes c) = Ret [] ->
  exists lsn s' c', compute_put node_now node_ms order key value c = (Ret lsn, c') /\ put_done n k lsn key value s c s' c'.
Proof.
  intros [[Hg Hd] Hseq (m & Hmp & Hm) Hbk Hdur Hnx Hlsns Hid Hids] Hk Hkey Hval Hnone Hspare Hplan.
  destruct (begin_rw_run _ s c Hg Hseq) as (guard & started & c1 & H1 & [[Bg Br Bp Bd Bs Bo] Bi _]).
  set (r := ip_request_id s) in *. set (x := begun false (ip_durable_lsn s) guard started (Some r)) in *.
  assert (Hi1 : idle (4 + n) c1) by (split; [exact Bg|by rewrite Bd]).
  destruct (put_new_run (3 + n) order key value r x c1 Hi1) as (b & t2 & reg & H2 & [Rg Rr Rp _ Rs] & Rd & Hset & Hbk2 & Hroomy);
    [done|done|done|lia|exact Hdur|done|done|by rewrite Br|by rewrite Bi|].
  destruct Hroomy as (p & Hp & Hdom); [destruct Bo as (_ & _ & ->); exact Hspare|].
  set (x2 := wrote_new key b x) in *. set (c2 := with_registry reg (with_store t2 c1)) in *.
  set (s1 := mkInProcess (ip_store s) (ip_next_lsn s) (wrap64 (r + 1)) (ip_durable_lsn s)) in *.
  assert (Hwr : wrap64 (r + 1) = r + 1) by (apply Z.mod_small; lia).
  destruct (commit_one_run node_now node_ms n r s1 m key b x2 c2) as (lsn & x3 & c3 & H3 & Hl & Hpub & Hguard).
  - by split.
  - unfold storage, c2. cbn. by rewrite Rs, Bs.
  - cbn. by rewrite Rp, Bp.
  - exact Hm.
  - reflexivity.
  - unfold r. lia.
  - reflexivity.
  - reflexivity.
  - reflexivity.
  - reflexivity.
  - reflexivity.
  - cbn. by rewrite union_empty_r_L.
  - reflexivity.
  - rewrite <-size_dom, Hdom. cbn. by rewrite dom_empty_L, union_empty_r_L, size_singleton.
  - apply Hset. apply map_Forall_empty.
  - by exists p.
  - intros k' ->%list_elem_of_singleton. split; [done|]. exists (new_row r (ip_durable_lsn s) value). cbn. rewrite Rr. rewrite lookup_insert_eq.
    split; [done|]. split; [unfold is_intent_of; cbn; by rewrite Z.eqb_refl|]. apply new_row_ok; [lia|done|done].
  - done.
  - cbn. lia.
  - destruct (published_done n k r lsn m s1 key value x2 c c2 c3 (ip_durable_lsn s) Hpub) as (s' & Hdone); try done; cbn; rewrite ?Hwr; try lia.
    + by rewrite union_empty_r_L.
    + by rewrite Rr, Br.
    + apply Hbk2. cbn. rewrite map_empty_union. by eapply backed_same.
    + exists lsn, s', c3. split; [|destruct Hdone; by split].
      unfold compute_put. rewrite (st_bind_lift _ _ _ tt) by (unfold check_key; by rewrite Hkey, Z.eqb_refl).
      rewrite (st_bind_lift _ _ _ tt) by (unfold check_value; by rewrite Hval, Z.eqb_refl).
      rewrite (st_bind_ret _ _ _ _ _ H1). apply (finish_run _ _ _ _ x3); [|exact Hguard].
      rewrite (st_bind_ret _ _ _ _ _ H2). exact H3.
Qed.

(** ** Reading *)

(** A row that a read at [lsn] finds as it is. *)
Definition row_at (lsn : Z) (o : option LeafValue) : Prop :=
  forall row, o = Some row -> has_flag FLAG_INTENT (flags (lv_meta row)) = false /\ commit_lsn (lv_meta row) <= lsn.

Lemma get_latest_run n fuel key x c :
  idle n c -> zlen key = KEY_SIZE -> tx_timeout x = None -> row_at (tx_read_lsn x) (rows (ec_store c) !! key) ->
  exists t', get (S fuel) key (x, c) = (Ret (rows (ec_store c) !! key ≫= row_value), (x, with_store t' c)) /\ same n (ec_store c) t'.
Proof.
  intros Hi Hk Ht Hrow. destruct (tree_get_run n key x c Hi Hk) as (t' & H1 & Hs). exists t'. split; [|exact Hs].
  unfold get. rewrite (st_bind_ret _ _ _ _ _ (ensure_run x c Ht)).
  rewrite (st_bind_lift _ _ _ tt) by (unfold check_key; by rewrite Hk, Z.eqb_refl).
  unfold read_visible_value_from_row. cbn [read_visible_value_loop].
  rewrite (st_bind_ret _ _ _ _ _ (ensure_run x c Ht)), (st_bind_ret _ _ _ _ _ H1).
  destruct (rows (ec_store c) !! key) as [row|] eqn:E; [|reflexivity]. destruct (Hrow row) as [Hf Hle]; [done|].
  rewrite get_tx_bind. cbn [fst id]. rewrite Hf, (proj2 (Z.leb_le _ _) Hle). reflexivity.
Qed.

(** The node holds [kv]: every row is committed, at an LSN the reads begin at or after. *)
Record serves (n : nat) (k : Z) (kv : gmap (list Z) (list Z)) (c : EmbeddedCompute T) : Prop := {
  sv_ready : exists s, node_ready n k s c /\
    forall key, match kv !! key with
      | Some value => exists lsn, rows (ec_store c) !! key = Some (committed_row lsn value) /\ lsn <= ip_durable_lsn s
      | None => rows (ec_store c) !! key = None
      end;
  sv_indexes : ec_indexes c = SecIndex.default_manager
}.

Lemma no_plan order key old new : SecIndex.plan_mutations order key old new SecIndex.default_manager = Ret [].
Proof. unfold SecIndex.plan_mutations, SecIndex.values. by replace (omap _ order) with (@nil SecondaryIndexState) by (induction order; done). Qed.

Lemma serves_put {AL : Allocator} node_now node_ms order n k kv key value c :
  serves (4 + n) (k + 1) kv c -> 0 <= k -> zlen key = KEY_SIZE -> zlen value = VALUE_SIZE ->
  kv !! key = None -> spare_of (ec_store c) key = true ->
  exists lsn c', compute_put node_now node_ms order key value c = (Ret lsn, c') /\ serves n k (<[key := value]> kv) c'.
Proof.
  intros [(s & Hr & Hkv) Hix] Hk Hkey Hval Hnone Hspare. pose proof (Hkv key) as Hrow. rewrite Hnone in Hrow.
  destruct (compute_put_run node_now node_ms order n k s key value c Hr Hk Hkey Hval Hrow Hspare) as (lsn & s' & c' & Hput & [Pr Pl Pd Prows Pix]);
    [rewrite Hix; apply no_plan|].
  exists lsn, c'. split; [exact Hput|]. split; [|congruence]. exists s'. split; [exact Pr|]. intros key'. rewrite Prows.
  destruct (decide (key' = key)) as [->|Hne]; [rewrite !lookup_insert_eq; exists lsn; split; [done|lia]|]. rewrite !lookup_insert_ne by done.
  specialize (Hkv key'). destruct (kv !! key') as [v|]; [|done]. destruct Hkv as (l & Hl & Hle). exists l. split; [done|lia].
Qed.

Lemma serves_get fuel n k kv key c :
  serves n k kv c -> zlen key = KEY_SIZE ->
  exists c', compute_get (S fuel) key c = (Ret (kv !! key), c') /\ serves n k kv c' /\ same_tree (ec_store c) (ec_store c').
Proof.
  intros [(s & [[Hg Hd] Hseq Hmeta Hbk Hdur Hnx Hlsns Hid Hids] & Hkv) Hix] Hkey.
  destruct (begin_read_run n s c Hg Hseq) as (guard & started & c1 & g & H1 & [[Bg Br Bp Bd Bs Bo] Bi _] & Hs).
  set (x := begun true (ip_durable_lsn s) guard started None) in *.
  assert (Hi1 : idle n c1) by (split; [exact Bg|by rewrite Bd]).
  destruct (get_latest_run n fuel key x c1 Hi1 Hkey eq_refl) as (t2 & H2 & [Sg Sr Sp Sd Ss So]).
  { rewrite Br. specialize (Hkv key). intros row Hrow. destruct (kv !! key) as [v|]; [|congruence]. destruct Hkv as (l & Hl & Hle).
    rewrite Hl in Hrow. by injection Hrow as <-. }
  assert (Hval : rows (ec_store c1) !! key ≫= row_value = kv !! key).
  { rewrite Br. specialize (Hkv key). destruct (kv !! key) as [v|]; [destruct Hkv as (l & -> & _)|rewrite Hkv]; reflexivity. }
  rewrite Hval in H2. exists (released x (with_store t2 c1)). split; [|split].
  - unfold compute_get. rewrite (st_bind_lift _ _ _ tt) by (unfold check_key; by rewrite Hkey, Z.eqb_refl).
    rewrite (st_bind_ret _ _ _ _ _ H1). unfold finish. rewrite H2, take_guard_run. reflexivity.
  - split; [|cbn; congruence]. exists s. split; [|intros key'; cbn; by rewrite Sr, Br; apply Hkv].
    split; try done; cbn.
    + split; [exact Sg|cbn; by rewrite Sd, Bd].
    + unfold storage. cbn. by rewrite Ss, Bs.
    + by rewrite Sp, Bp.
    + eapply backed_same; [|exact Hbk]. by eapply same_tree_trans.
  - cbn. by eapply same_tree_trans.
Qed.

End Put.

End CommitPut.
