(* ===== verification/TreeStoreProps.v ===== *)
(** * TreeStoreProps: the tree and its cache behave as a map

    [run_ops] runs the calls that a compute node makes of its store.  On the real store, a
    B+tree over an LRU page cache, they answer as on the store that is a finite map, for as
    many calls as the cache has room for; a new node with the default cache has room for
    sixty. *)

From stdpp Require Import base numbers list list_numbers gmap fin_maps sorting.
From S2P Require Import Prelude Common SlottedPage UndoPage MetaPage WalCodec Mvcc PageStore Node Sequencer Secondary BtreePage Latch Provider Cache CacheLaws Btree BtreeInv BtreeRun BtreeInsert BtreeMap BtreeCalm BtreeProps Compute ComputeSpec ComputeUndo ComputeProps TreeStore.
Import Bp BpSpec Btree MapStoreM Compute.Compute.

Module TreeStoreProps.

(** ** The calls of a compute node *)

Inductive store_op :=
| OpGet (key : bytes)
| OpInsert (key : bytes) (row : LeafValue)
| OpPage (id : PageId)
| OpPutPage (id : PageId) (page : Page)
| OpScope (dirty : option (gmap Z (list Z))).

Inductive answer :=
| AnsRow (row : option LeafValue)
| AnsPage (page : option Page)
| AnsDone.

Definition op_ok (op : store_op) : Prop :=
  match op with
  | OpGet key => zlen key = KEY_SIZE
  | OpInsert key row => zlen key = KEY_SIZE /\ lv_ok row
  | OpPage id | OpPutPage id _ => aux_page id
  | OpScope _ => True
  end.

Definition run_op {T} {CS : ComputeStore T} (op : store_op) : st T Error answer :=
  match op with
  | OpGet key => row ← cs_get key; mret (AnsRow row)
  | OpInsert key row => _ ← cs_insert key row; mret AnsDone
  | OpPage id => fun t => let '(page, t) := cs_cache_get id t in (Ret (AnsPage page), t)
  | OpPutPage id page => _ ← modify (cs_cache_insert id page); mret AnsDone
  | OpScope dirty => _ ← modify (cs_set_dirty dirty); mret AnsDone
  end.

Fixpoint run_ops {T} {CS : ComputeStore T} (ops : list store_op) (t : T) : list (outcome Error answer) * T :=
  match ops with
  | [] => ([], t)
  | op :: ops =>
      let '(r, t) := run_op op t in
      let '(rs, t) := run_ops ops t in
      (r :: rs, t)
  end.

(** What a call answers and leaves, by the rows and the pages. *)
Definition answer_of (op : store_op) (rs : lvmap) (ps : PageId -> option Page) : answer :=
  match op with
  | OpGet key => AnsRow (rs !! key)
  | OpPage id => AnsPage (ps id)
  | _ => AnsDone
  end.

Definition rows_after (op : store_op) (rs : lvmap) : lvmap :=
  match op with OpInsert key row => <[key := row]> rs | _ => rs end.

Definition pages_after (op : store_op) (ps : PageId -> option Page) (id : PageId) : option Page :=
  match op with OpPutPage i page => if decide (id = i) then Some page else ps id | _ => ps id end.

Section Lawful.
Context {T : Type} {CS : ComputeStore T} {SV : StoreView T} {SL : StoreLaws T} {OT : Others T}.

Lemma run_op_ok n op (t : T) :
  good (S n) t -> op_ok op ->
  exists t', run_op op t = (Ret (answer_of op (rows t) (page_of t)), t') /\ good n t' /\
    rows t' = rows_after op (rows t) /\ forall id, page_of t' id = pages_after op (page_of t) id.
Proof.
  intros Hg Hop. destruct op as [key|key row|id|id page|dirty]; cbn in Hop.
  - destruct (law_get (S n) key t Hg Hop) as (t' & Hr & [Sg Sr Sp _ _]). exists t'. cbn [run_op].
    rewrite (st_bind_ret _ _ _ _ _ Hr). split_and!; [done|by apply law_less|done|done].
  - destruct Hop as [Hk Hv]. destruct (law_insert n key row t Hg Hk Hv) as (t' & Hr & [Sg Sr Sp _ _]). exists t'. cbn [run_op].
    by rewrite (st_bind_ret _ _ _ _ _ Hr).
  - destruct (law_cache_get (S n) id t Hg Hop) as (t' & Hr & [Sg Sr Sp _ _]). exists t'. cbn [run_op]. rewrite Hr.
    split_and!; [done|by apply law_less|done|done].
  - destruct (law_cache_insert n id page t Hg Hop) as [Sg Sr Sp _ _]. eexists. split; [reflexivity|]. by split.
  - eexists. split; [reflexivity|]. split; [by apply law_less, law_set_dirty|]. cbn. rewrite law_set_dirty_rows. split; [done|].
    intros id. apply law_set_dirty_pages.
Qed.

End Lawful.

(** Two stores with the same rows and the same meta and undo pages. *)
Section Agree.
Context {T U : Type} {CT : ComputeStore T} {VT : StoreView T} {LT : StoreLaws T}.
Context {CU : ComputeStore U} {VU : StoreView U} {LU : StoreLaws U}.

Definition agree (t : T) (u : U) : Prop :=
  rows t = rows u /\ forall id, aux_page id -> page_of t id = page_of u id.

Lemma run_ops_agree ops : forall (t : T) (u : U),
  good (length ops) t -> good (length ops) u -> Forall op_ok ops -> agree t u ->
  (run_ops ops t).1 = (run_ops ops u).1 /\ Forall (fun r => is_ret r = true) (run_ops ops t).1 /\
  agree (run_ops ops t).2 (run_ops ops u).2.
Proof.
  induction ops as [|op ops IH]; intros t u Ht Hu Hops [Hr Hp]; [by repeat split|].
  apply Forall_cons in Hops as [Hop Hops]. cbn [length] in Ht, Hu.
  destruct (run_op_ok _ op t Ht Hop) as (t' & Et & Gt & Rt & Pt). destruct (run_op_ok _ op u Hu Hop) as (u' & Eu & Gu & Ru & Pu).
  cbn [run_ops]. rewrite Et, Eu. destruct (IH t' u' Gt Gu Hops) as (E1 & E2 & E3).
  { split; [by rewrite Rt, Ru, Hr|]. intros id Ha. rewrite Pt, Pu. unfold pages_after. destruct op; try by apply Hp.
    case_decide; [done|by apply Hp]. }
  destruct (run_ops ops t') as [rs t1], (run_ops ops u') as [rs' u1]. cbn in *. subst rs'.
  assert (answer_of op (rows t) (page_of t) = answer_of op (rows u) (page_of u)) as ->.
  { destruct op; cbn in *; rewrite ?Hr; try done. by rewrite Hp. }
  split; [done|]. split; [by apply Forall_cons|done].
Qed.

End Agree.

(** The finite map with the rows and the pages of a store. *)
Definition as_map {C} {L : LruCache C} {LL : LruLaws C} (t : PageBPlusTree (TxnProvider.TxnPageProvider C Storage)) : MapStore := {|
  ms_rows := rows t;
  ms_pages := aux_pages (TxnProvider.tp_pages (provider t));
  ms_root := cs_root t;
  ms_next := cs_next_page_id t;
  ms_dirty := cs_dirty t;
  ms_storage := cs_storage t
|}.

Lemma as_map_agree {C} {L : LruCache C} {LL : LruLaws C} (t : PageBPlusTree (TxnProvider.TxnPageProvider C Storage)) : agree t (as_map t).
Proof. by split. Qed.

(** ** The room of a new node *)

Lemma count_shard m i lo hi (l : list Z) :
  0 < m -> lo <= hi -> NoDup l -> (forall x, x ∈ l -> lo <= x < hi /\ x mod m = i) -> zlen l <= (hi - lo) / m + 1.
Proof.
  intros Hm Hlo Hnd Hl. set (q := (fun x => (x - lo) / m) <$> l).
  assert (Hnq : NoDup q).
  { apply NoDup_fmap_2_strong; [|done]. intros x y Hx Hy E. destruct (Hl x Hx) as [? Ex], (Hl y Hy) as [? Ey].
    pose proof (Z.div_mod x m ltac:(lia)). pose proof (Z.div_mod y m ltac:(lia)). rewrite Ex, Ey in *.
    destruct (Z.lt_trichotomy (x / m) (y / m)) as [Hlt|[He|Hlt]]; [exfalso| |exfalso].
    - assert (Hd : y - lo = (x - lo) + (y / m - x / m) * m) by lia. rewrite Hd, Z.div_add in E by lia. lia.
    - congruence.
    - assert (Hd : x - lo = (y - lo) + (x / m - y / m) * m) by lia. rewrite Hd, Z.div_add in E by lia. lia. }
  assert (Hsub : q ⊆+ seqZ 0 ((hi - lo) / m + 1)).
  { apply NoDup_submseteq; [done|]. intros y (x & -> & Hx)%list_elem_of_fmap. destruct (Hl x Hx) as [? _].
    apply elem_of_seqZ. pose proof (Z.div_le_mono (x - lo) (hi - lo) m ltac:(lia) ltac:(lia)).
    pose proof (Z.div_pos (x - lo) m ltac:(lia) ltac:(lia)). lia. }
  apply submseteq_length in Hsub. rewrite length_seqZ in Hsub. unfold q in Hsub. rewrite length_fmap in Hsub. unfold zlen.
  pose proof (Z.div_pos (hi - lo) m ltac:(lia) ltac:(lia)). lia.
Qed.

Definition per_shard (pages : Z) : Z := Z.max ((Z.max pages 1 + DEFAULT_PAGE_CACHE_SHARDS - 1) / DEFAULT_PAGE_CACHE_SHARDS) 1.

Lemma new_cache_ok {C} {L : LruCache C} {LL : LruLaws C} (R : IdRange) k pages :
  0 <= k -> BPTREE_ROOT_ID <= id_lo -> id_lo <= id_hi ->
  (id_hi - BtreeMetaPage.BTREE_META_PAGE_ID) / DEFAULT_PAGE_CACHE_SHARDS + 1 + k <= per_shard pages ->
  cache_ok (C := C) (reserved R) k (PageCacheM.new_with_capacity DEFAULT_PAGE_CACHE_SHARDS pages).
Proof.
  intros Hk Hlo Hhi Hroom. set (c := PageCacheM.new_with_capacity DEFAULT_PAGE_CACHE_SHARDS pages).
  assert (Hz : zlen (shards c) = DEFAULT_PAGE_CACHE_SHARDS) by (unfold c, zlen; cbn [shards PageCacheM.new_with_capacity]; by rewrite length_replicate).
  split; [by rewrite Hz|]. intros i s Hs. apply lookup_replicate in Hs as [-> Hi].
  split; rewrite ?lru_new_list, ?lru_new_cap.
  - constructor.
  - change (0 < per_shard pages). unfold per_shard. lia.
  - by intros id Hid%elem_of_nil.
  - intros l Hl Hin. change (zlen l + k <= per_shard pages). enough (zlen l <= (id_hi - BtreeMetaPage.BTREE_META_PAGE_ID) / DEFAULT_PAGE_CACHE_SHARDS + 1) by lia.
    apply (count_shard _ (Z.of_nat i)); [done|unfold BPTREE_ROOT_ID, BtreeMetaPage.BTREE_META_PAGE_ID in *; lia|done|].
    intros x Hx. destruct (Hin x Hx) as [Hsx [[]%elem_of_nil|Hr]]. split.
    + destruct Hr as [->|Hr]; unfold BPTREE_ROOT_ID, BtreeMetaPage.BTREE_META_PAGE_ID in *; lia.
    + rewrite <-Hsx. unfold PageCacheM.shard. rewrite Hz. pose proof (Z.mod_pos_bound x DEFAULT_PAGE_CACHE_SHARDS ltac:(done)). lia.
Qed.

Lemma new_cache_empty {C} {L : LruCache C} {LL : LruLaws C} pages id :
  cached (C := C) (PageCacheM.new_with_capacity DEFAULT_PAGE_CACHE_SHARDS pages) id = None.
Proof.
  unfold cached. destruct (_ !! _) as [s|] eqn:E; [|reflexivity]. apply lookup_replicate in E as [-> _]. cbn [mbind option_bind].
  by rewrite lru_new_list.
Qed.

(** What [init_pages] does to the store. *)
Definition init_store {T} {CS : ComputeStore T} (root btree_meta meta : Page) (t : T) : T :=
  cs_cache_insert META_PAGE_ID meta (cs_cache_insert BtreeMetaPage.BTREE_META_PAGE_ID btree_meta
    (cs_cache_insert BPTREE_ROOT_ID root
      (cs_set_next_page_id (BPTREE_ROOT_ID + 1) (cs_set_root BPTREE_ROOT_ID t)))).

Definition first_meta : MetaPage := {|
  MetaPage.root_page_id := BPTREE_ROOT_ID; next_bptree_page_id := BPTREE_ROOT_ID + 1;
  next_data_page_id := 1000000; next_undo_page_id := UNDO_BASE; undo_free := []; undo_history_head := 0; undo_history_tail := 0 |}.

Lemma write_page_raw {T} {CS : ComputeStore T} id pg x (c : EmbeddedCompute T) :
  tx_read_only x = false ->
  write_page id pg (x, c) =
    (Ret tt, (with_pages (<[id := pg]> (tx_dirty x)) (tx_bptree_dirty x) (tx_ro_cache x) x, with_store (cs_cache_insert id pg (ec_store c)) c)).
Proof. intros Hro. unfold write_page. rewrite get_tx_bind. cbn [fst]. by rewrite Hro. Qed.

Lemma set_root_raw {T} {CS : ComputeStore T} id x (c : EmbeddedCompute T) :
  on_compute (set_root_page_id id) (x, c) = (Ret tt, (x, with_store (cs_set_root id (ec_store c)) c)).
Proof. reflexivity. Qed.

Lemma set_next_raw {T} {CS : ComputeStore T} id x (c : EmbeddedCompute T) :
  on_compute (set_next_page_id id) (x, c) = (Ret tt, (x, with_store (cs_set_next_page_id id (ec_store c)) c)).
Proof. reflexivity. Qed.

(** The transaction that wrote the first pages. *)
Definition wrote_first (root btree_meta meta : Page) (x : EmbeddedTxn) : EmbeddedTxn :=
  with_pages (<[META_PAGE_ID := meta]> (<[BtreeMetaPage.BTREE_META_PAGE_ID := btree_meta]> (<[BPTREE_ROOT_ID := root]> (tx_dirty x))))
    (tx_bptree_dirty x) (tx_ro_cache x) x.

Lemma init_pages_run {T} {CS : ComputeStore T} x (c : EmbeddedCompute T) :
  tx_read_only x = false ->
  exists root h bm mp, init_pages (x, c) = (Ret tt, (wrote_first root bm mp x, with_store (init_store root bm mp (ec_store c)) c)) /\
    rep root h [] /\ page_type h = PAGE_TYPE_LEAF /\ high_key h = None /\ next_leaf h = None /\
    zlen bm = PAGE_SIZE /\ Meta.decode mp = Ret first_meta.
Proof.
  intros Hro. destruct (btree_new_page_ok PAGE_TYPE_LEAF 0) as (root & Hroot & _ & Hrep).
  specialize (Hrep ltac:(unfold is_byte, PAGE_TYPE_LEAF; lia) ltac:(unfold is_byte; lia)).
  destruct (btree_encode_ret {| btree_root_page_id := BPTREE_ROOT_ID |}) as (bm & Hbm).
  destruct (MetaProps.meta_roundtrip first_meta) as (mp & Hmp & _ & _ & Hdec).
  { split; cbn [first_meta MetaPage.root_page_id next_bptree_page_id next_data_page_id next_undo_page_id undo_free undo_history_head undo_history_tail];
      try apply Forall_nil_2; unfold BPTREE_ROOT_ID, UNDO_BASE, U64; lia. }
  eexists root, _, bm, mp.
  split; [|split; [exact Hrep|split_and!; [done|done|done|exact (btree_encode_len _ _ Hbm)|apply Hdec; [done|constructor]]]].
  unfold init_pages.
  rewrite (st_bind_ret _ _ _ _ _ (set_root_raw _ x c)), (st_bind_ret _ _ _ _ _ (set_next_raw _ x _)).
  rewrite (st_bind_lift _ _ _ root Hroot), (st_bind_ret _ _ _ _ _ (write_page_raw _ _ _ _ Hro)).
  set (x1 := with_pages _ _ _ x). assert (Hro1 : tx_read_only x1 = false) by exact Hro.
  rewrite (st_bind_lift _ _ _ bm Hbm), (st_bind_ret _ _ _ _ _ (write_page_raw _ _ _ _ Hro1)).
  set (x2 := with_pages _ _ _ x1). assert (Hro2 : tx_read_only x2 = false) by exact Hro.
  fold first_meta. rewrite (st_bind_lift _ _ _ mp Hmp). exact (write_page_raw _ _ _ _ Hro2).
Qed.

Definition node_ids (n : nat) : IdRange.
Proof.
  refine {| id_lo := BPTREE_ROOT_ID; id_hi := Z.min (73 + 66 * Z.of_nat n) DEFAULT_LATCH_STRIPES |};
    unfold BPTREE_ROOT_ID, DEFAULT_LATCH_STRIPES, U64; lia.
Defined.

Section Fresh.
Context {C : Type} {L : LruCache C} {LL : LruLaws C} {OT : Others (PageBPlusTree (TxnProvider.TxnPageProvider C Storage))}.

Lemma init_store_good n root h bm mp (p : TxnProvider.TxnPageProvider C Storage) :
  txn_ok (Z.of_nat n + 1) (node_ids n) p -> 73 + 66 * Z.of_nat n <= DEFAULT_LATCH_STRIPES -> rep root h [] ->
  page_type h = PAGE_TYPE_LEAF -> high_key h = None -> next_leaf h = None ->
  let t := init_store root bm mp (with_provider p) in
  good n t /\ rows t = ∅ /\ page_of t META_PAGE_ID = Some mp /\
  ((forall id, cached (TxnProvider.tp_pages p) id = None) -> tree_pages (TxnProvider.tp_pages (provider t)) = {[BPTREE_ROOT_ID := root]}).
Proof.
  intros [Hc Hm Hlo Hhi Hla] Hn Hrep Hty Hh Hnx t. destruct p as [pc nx rt meta w d]. cbn in Hc, Hm. subst meta.
  destruct (btree_encode_ret {| btree_root_page_id := BPTREE_ROOT_ID |}) as (pg & He).
  set (K := Z.of_nat n + 1) in *. assert (HK : 0 <= K <= K) by lia.
  destruct (insert_ok _ K K _ BtreeMetaPage.BTREE_META_PAGE_ID pg Hc HK) as [C1 L1]; [by right; left; left|].
  destruct (insert_ok _ K K _ BPTREE_ROOT_ID root C1 HK) as [C2 L2];
    [right; left; right; cbn; unfold BPTREE_ROOT_ID, DEFAULT_LATCH_STRIPES; lia|].
  destruct (insert_ok _ K K _ BtreeMetaPage.BTREE_META_PAGE_ID bm C2 HK) as [C3 L3]; [by right; left; left|].
  destruct (insert_ok _ K (Z.of_nat n) _ META_PAGE_ID mp C3) as [C4 L4]; [lia|right; right; lia|].
  set (c4 := PageCacheM.insert_arc META_PAGE_ID mp _) in *.
  assert (Et : t = {| provider := TxnProvider.mkTxnProvider c4 (BPTREE_ROOT_ID + 1) BPTREE_ROOT_ID
    BtreeMetaPage.BTREE_META_PAGE_ID w (<[BtreeMetaPage.BTREE_META_PAGE_ID := pg]> <$> d); len := 0 |}).
  { unfold t, init_store. cbn [cs_set_root btree_store with_provider]. unfold TxnProvider.set_root_page_id. cbn [on_provider provider len].
    rewrite He. reflexivity. }
  clearbody t. subst t. set (t := {| provider := _; len := 0 |}).
  assert (Hroot : cached c4 BPTREE_ROOT_ID = Some root) by (rewrite L4, decide_False, L3, decide_False, L2, decide_True by done; done).
  assert (Hok : store_ok n (node_ids n) t ∅).
  { eapply (@tree_ok_empty (node_ids n) _ _ (txn_laws n) t root h).
    - by split.
    - reflexivity.
    - cbn. apply map_lookup_filter_Some. rewrite cached_map_lookup. split; [done|].
      cbn. unfold tree_page, BPTREE_ROOT_ID, UNDO_BASE. lia.
    - exact Hrep.
    - exact Hty.
    - exact Hh.
    - exact Hnx.
    - unfold id_in. cbn. unfold BPTREE_ROOT_ID, DEFAULT_LATCH_STRIPES. lia.
    - cbn. lia.
    - cbn. unfold BPTREE_ROOT_ID, DEFAULT_LATCH_STRIPES. lia. }
  split_and!.
  - exists (node_ids n), ∅. split; [done|]. cbn. unfold BPTREE_ROOT_ID. lia.
  - by apply (store_ok_rows n (node_ids n)).
  - cbn. apply map_lookup_filter_Some. rewrite cached_map_lookup, L4, decide_True by done. split; [done|by left].
  - intros Hnone. unfold t. cbn [provider TxnProvider.tp_pages] in Hnone |- *. apply map_eq. intros id. unfold tree_pages.
    destruct (decide (id = BPTREE_ROOT_ID)) as [->|Hid].
    + rewrite lookup_singleton_eq. apply map_lookup_filter_Some. rewrite cached_map_lookup. split; [exact Hroot|].
      cbn. unfold tree_page, BPTREE_ROOT_ID, UNDO_BASE. lia.
    + rewrite lookup_singleton_ne by done. apply map_lookup_filter_None. rewrite cached_map_lookup.
      destruct (decide (id = META_PAGE_ID)) as [->|Hm0]; [right; intros ? _ Ht; apply (tree_not_aux _ Ht); by left|].
      destruct (decide (id = BtreeMetaPage.BTREE_META_PAGE_ID)) as [->|Hb0]; [right; intros ? _; apply meta_not_tree|].
      left. rewrite L4, decide_False, L3, decide_False, L2, decide_False, L1, decide_False by assumption. apply Hnone.
Qed.

(** The store of a new node, once its first pages are written: the tree is one leaf. *)
Record first_pages (n : nat) (root bm mp : Page) (g : Storage) (t : PageBPlusTree (TxnProvider.TxnPageProvider C Storage)) : Prop := {
  fp_good : good n t;
  fp_clean : cs_dirty t = None;
  fp_rows : rows t = ∅;
  fp_meta : page_of t META_PAGE_ID = Some mp;
  fp_decode : Meta.decode mp = Ret first_meta;
  fp_settled : settled t (<[BtreeMetaPage.BTREE_META_PAGE_ID := bm]> {[BPTREE_ROOT_ID := root]});
  fp_backed : backed t {[BPTREE_ROOT_ID := root]};
  fp_spare : forall key, spare_of t key = true;
  fp_storage : cs_storage t = g
}.

Lemma leaf_spare (ps : gmap Z (list Z)) root h key :
  ps !! BPTREE_ROOT_ID = Some root -> rep root h [] -> page_type h = PAGE_TYPE_LEAF ->
  match roomy_leaf TREE_FUEL ps BPTREE_ROOT_ID key with Some leaf => spare_leaf ps leaf | None => false end = true.
Proof.
  intros Hp Hrep Hty. pose proof (rep_header _ _ _ Hrep) as Hh. pose proof (rp_count _ _ _ Hrep) as Hc. cbn in Hc.
  assert (Hf : page_is_full_for_insert h = false) by (unfold page_is_full_for_insert, page_has_room_for_one_more; by rewrite Hc, Hty).
  change TREE_FUEL with (S 127). rewrite (roomy_leaf_at 127 ps BPTREE_ROOT_ID root h key Hp Hh Hf Hty).
  unfold spare_leaf. rewrite Hp, Hh. unfold page_has_room_for_one_more. cbn [with_key_count key_count page_type]. by rewrite Hc, Hty.
Qed.

(** A store with no page, and room for [n] insertions. *)
Record blank (n : nat) (g : Storage) (t : PageBPlusTree (TxnProvider.TxnPageProvider C Storage)) : Prop := {
  bl_ok : txn_ok (Z.of_nat n + 1) (node_ids n) (provider t);
  bl_empty : forall id, cached (TxnProvider.tp_pages (provider t)) id = None;
  bl_clean : cs_dirty t = None;
  bl_storage : cs_storage t = g;
  bl_len : len t = 0
}.

Lemma new_blank n env g k :
  73 + 66 * Z.of_nat n <= DEFAULT_LATCH_STRIPES ->
  (65 + 66 * Z.of_nat n) / DEFAULT_PAGE_CACHE_SHARDS + Z.of_nat n + 2 <=
    per_shard (read_duration_env_ms (env_cache_pages env) DEFAULT_CACHE_PAGES) ->
  blank n g (ec_store (new_compute (C := C) env g k)).
Proof.
  intros Hn Hroom. split; [|apply new_cache_empty|reflexivity|reflexivity|reflexivity]. split; [|reflexivity|reflexivity|cbn; unfold DEFAULT_LATCH_STRIPES, UNDO_BASE; lia|].
  2: { change (Z.min (73 + 66 * Z.of_nat n) DEFAULT_LATCH_STRIPES <= zlen (stripes (Latch.new DEFAULT_PAGE_CACHE_SHARDS))). 
       pose proof (LatchProps.lo_len _ _ (LatchProps.latches_ok_new DEFAULT_PAGE_CACHE_SHARDS)) as E. cbn [fst] in E. rewrite E. unfold Latch.count. lia. }
  apply new_cache_ok; [lia|reflexivity|cbn; unfold BPTREE_ROOT_ID, DEFAULT_LATCH_STRIPES; lia|].
  cbn [id_hi node_ids]. rewrite Z.min_l by exact Hn. unfold BtreeMetaPage.BTREE_META_PAGE_ID.
  replace (73 + 66 * Z.of_nat n - 8) with (65 + 66 * Z.of_nat n) by lia. lia.
Qed.

Lemma blank_miss n g t id : blank n g t -> exists t', cs_cache_get id t = (None, t') /\ blank n g t'.
Proof.
  intros [[Hc Hm Hlo Hhi Hla] He Hd Hs Hl]. destruct (get_ok _ _ _ id Hc) as (c' & Hget & Hc' & Hsame).
  exists (on_provider (TxnProvider.with_cache c') t). cbn. unfold PageCacheM.get. rewrite Hget, He. split; [reflexivity|].
  split; [split; try done; cbn; by rewrite (get_latches _ _ _ _ Hget)| |done|done|done]. intros i. cbn. by rewrite Hsame.
Qed.

Lemma blank_storage n g g' t : blank n g t -> blank n g' (cs_set_storage g' t).
Proof. intros [[Hc Hm Hlo Hhi Hla] He Hd Hs Hl]. by split; [split|..]. Qed.

Lemma blank_first n g x c :
  tx_read_only x = false -> 73 + 66 * Z.of_nat n <= DEFAULT_LATCH_STRIPES -> blank n g (ec_store c) ->
  exists root bm mp t, init_pages (x, c) = (Ret tt, (wrote_first root bm mp x, with_store t c)) /\ first_pages n root bm mp g t.
Proof.
  intros Hro Hn [Hp He Hc Hs Hl]. destruct (init_pages_run x c Hro) as (root & h & bm & mp & Hr & Hrep & Hty & Hh & Hnx & Hbm & Hdec).
  exists root, bm, mp. eexists. split; [exact Hr|]. destruct (ec_store c) as [p l]. cbn [provider len] in Hp, He, Hl. subst l.
  change (Build_PageBPlusTree _ p 0) with (with_provider p) in *.
  destruct (init_store_good n root h bm mp p Hp Hn Hrep Hty Hh Hnx) as (Hg & Hrows & Hmeta & Htree).
  specialize (Htree He). set (t := init_store root bm mp (with_provider p)) in *.
  assert (Hd : cs_dirty t = None /\ TxnProvider.tp_root (provider t) = BPTREE_ROOT_ID /\ cs_storage t = g).
  { unfold t, init_store. cbn [cs_dirty cs_storage cs_cache_insert cs_set_next_page_id cs_set_root btree_store on_provider provider with_provider].
    unfold TxnProvider.set_root_page_id. destruct (btree_encode_ret {| btree_root_page_id := BPTREE_ROOT_ID |}) as (pg & ->).
    split; [|split; [reflexivity|exact Hs]]. cbn in Hc |- *. by rewrite Hc. }
  clearbody t. destruct Hd as (Hd & Hroot & Hst). split; try assumption.
  - apply map_Forall_insert_2; [split; [exact Hbm|by right]|]. apply map_Forall_singleton. split; [apply Hrep|]. left.
    change (tree_pages (TxnProvider.tp_pages (provider t)) !! BPTREE_ROOT_ID = Some root). rewrite Htree. apply lookup_singleton_eq.
  - intros id pg [Hid|Hid] Hne; [|exact (False_ind _ (Hne Hid))]. rewrite <-Htree. exact Hid.
  - intros key. cbn. rewrite Hroot, Htree. by eapply leaf_spare; [apply lookup_singleton_eq|..].
Qed.

Lemma new_node_good n env g k x :
  tx_read_only x = false -> 73 + 66 * Z.of_nat n <= DEFAULT_LATCH_STRIPES ->
  (65 + 66 * Z.of_nat n) / DEFAULT_PAGE_CACHE_SHARDS + Z.of_nat n + 2 <=
    per_shard (read_duration_env_ms (env_cache_pages env) DEFAULT_CACHE_PAGES) ->
  exists x' c', init_pages (x, new_compute (C := C) env g k) = (Ret tt, (x', c')) /\
    idle n c' /\ rows (ec_store c') = ∅ /\ ec_indexes c' = SecIndex.default_manager /\
    exists mp, page_of (ec_store c') META_PAGE_ID = Some mp /\ Meta.decode mp = Ret first_meta.
Proof.
  intros Hro Hn Hroom. destruct (blank_first n g x (new_compute env g k) Hro Hn (new_blank n env g k Hn Hroom)) as (root & bm & mp & t & Hr & [Fg Fc Fr Fm Fd _ _ _ _]).
  do 2 eexists. split; [exact Hr|]. unfold idle. cbn [ec_store with_store ec_indexes new_compute].
  split; [split; assumption|]. split; [assumption|]. split; [reflexivity|]. exists mp. split; assumption.
Qed.

End Fresh.

(** ** Properties *)

(** C5: The tree and its page cache answer as a finite map.  Any sequence of look-ups and
    insertions of rows, look-ups and insertions of meta and undo pages, and changes of the
    dirty scope gets the same answers from a B+tree over an LRU page cache as from a store
    that keeps its rows and pages in maps, all of them [Ok], and the two hold the same rows
    and pages afterwards, as long as the cache has room for the pages the calls may add and
    the ids of the tree stay below the number of latch stripes ([good]): then no call waits
    for a latch it holds itself. *)
Theorem tree_store_equals_map {C} {L : LruCache C} {LL : LruLaws C} (t : PageBPlusTree (TxnProvider.TxnPageProvider C Storage)) ops :
  good (length ops) t -> Forall op_ok ops ->
  (run_ops ops t).1 = (run_ops ops (as_map t)).1 /\ Forall (fun r => is_ret r = true) (run_ops ops t).1 /\
  agree (run_ops ops t).2 (run_ops ops (as_map t)).2.
Proof. intros Ht Hops. apply run_ops_agree; [done|exact (law_ids _ t Ht)|done|apply as_map_agree]. Qed.

Definition default_env : Env := mkEnv None None None.
Definition writing_txn : EmbeddedTxn := ComputeProps.sample_txn 7 (Some 1).

Lemma tree_store_equals_map_witness :
  let row := ComputeProps.sample_row 0 in
  let ops := [OpInsert ComputeProps.sample_key row; OpPutPage UNDO_BASE []; OpGet ComputeProps.sample_key; OpPage UNDO_BASE] in
  exists t : PageBPlusTree (TxnProvider.TxnPageProvider CacheProps.ListLru Storage), rows t = ∅ /\
    (run_ops ops t).1 = (run_ops ops (as_map t)).1 /\ Forall (fun r => is_ret r = true) (run_ops ops t).1.
Proof.
  intros row ops. destruct (new_node_good (C := CacheProps.ListLru) 4 default_env ComputeProps.sample_storage (mkClock 0 []) writing_txn eq_refl)
    as (x1 & c1 & _ & [Hg _] & Hrows & _); [vm_compute; discriminate|vm_compute; discriminate|].
  exists (ec_store c1). split; [exact Hrows|].
  assert (Hops : Forall op_ok ops).
  { repeat (apply Forall_cons; split); try apply Forall_nil_2; cbn.
    - split; [apply ComputeProps.sample_key_len|]. apply (ComputeProps.sample_writable 0). lia.
    - right; right. done.
    - apply ComputeProps.sample_key_len.
    - right; right. done. }
  destruct (tree_store_equals_map (ec_store c1) ops Hg Hops) as (H1 & H2 & _). exact (conj H1 H2).
Defined.

(** A transaction that is about to write for the first time. *)
Record first_writer (x : EmbeddedTxn) : Prop := {
  fw_rw : tx_read_only x = false;
  fw_timeout : tx_timeout x = None;
  fw_txn : exists txn, tx_undo_txn_id x = Some txn /\ 0 <= txn < U64;
  fw_base : 0 <= tx_intent_base_lsn x < U64;
  fw_last : tx_seg_last x = None;
  fw_record : tx_seg_record x = None
}.

Lemma first_writer_ready {C} {L : LruCache C} {LL : LruLaws C} x (t : PageBPlusTree (TxnProvider.TxnPageProvider C Storage)) mp :
  first_writer x -> page_of t META_PAGE_ID = Some mp -> Meta.decode mp = Ret first_meta -> ComputeProps.writer 1 x t first_meta.
Proof.
  intros [Hrw Ht Htx Hb Hl Hr] Hmp Hdec. split; [|done|done|done].
  split; [by exists mp|apply (ComputeProps.sample_meta_inv 2); lia|done|by rewrite Hl|by rewrite Hr].
Qed.

(** A new node works end to end on its real store.  With a page cache of at least 1024
    pages, [init_pages] of a cold start succeeds and leaves an empty store; a transaction
    that then puts a value under a key succeeds and reads that value back, through the tree,
    the page provider and the cache. *)
Theorem fresh_node_put_get {C} {L : LruCache C} {LL : LruLaws C} {OT : Others (PageBPlusTree (TxnProvider.TxnPageProvider C Storage))} env g k order key value x y fuel :
  1024 <= read_duration_env_ms (env_cache_pages env) DEFAULT_CACHE_PAGES ->
  tx_read_only x = false -> first_writer y -> zlen key = KEY_SIZE -> zlen value = VALUE_SIZE ->
  exists x1 c1 y1 c2, init_pages (x, new_compute (C := C) env g k) = (Ret tt, (x1, c1)) /\ rows (ec_store c1) = ∅ /\
    put order key value (y, c1) = (Ret tt, (y1, c2)) /\ (get (S fuel) key (y1, c2)).1 = Ret (Some value).
Proof.
  intros Hpages Hro Hy Hkey Hval.
  destruct (new_node_good (C := C) (UNDO_PAGES + 1) env g k x Hro) as (x1 & c1 & Hinit & Hidle & Hrows & Hix & mp & Hmp & Hdec).
  { unfold UNDO_PAGES, DEFAULT_LATCH_STRIPES. lia. }
  { change ((65 + 66 * Z.of_nat (UNDO_PAGES + 1)) / DEFAULT_PAGE_CACHE_SHARDS + Z.of_nat (UNDO_PAGES + 1) + 2) with 13.
    unfold per_shard, DEFAULT_PAGE_CACHE_SHARDS. set (n := read_duration_env_ms _ _) in *. apply Z.le_trans with ((Z.max n 1 + 64 - 1) / 64); [|lia].
    apply Z.div_le_lower_bound; lia. }
  pose proof (first_writer_ready y _ mp Hy Hmp Hdec) as Hw. destruct Hy as [_ Ht (txn & Htx & _) _ _ _].
  destruct (ComputeProps.put_run 0 0 order key value [] first_meta y c1 Hidle ltac:(lia) Hw Hkey Hval) as (row & y1 & c2 & m' & Hput & Hwr & Hrow & _).
  { by rewrite Hrows, lookup_empty. }
  { rewrite Hix. unfold SecIndex.plan_mutations, SecIndex.values. by replace (omap _ order) with (@nil SecondaryIndexState) by (induction order; done). }
  exists x1, c1, y1, c2. split; [exact Hinit|]. split; [exact Hrows|]. split; [exact Hput|].
  destruct Hwr as [Wi _ Wr _ _ _ (Wt & _ & Wtm & _) _ _ _]. destruct Hrow as (txn' & u & Htx' & ->).
  rewrite (ComputeProps.own_read 0 fuel key y1 c2 _ txn' Wi Hkey ltac:(congruence) (eq_trans (f_equal (lookup key) Wr) (lookup_insert_eq _ _ _))
    ltac:(congruence) eq_refl eq_refl). done.
Qed.

#[local] Existing Instance alone.

Lemma fresh_node_put_get_witness :
  exists x1 c1 y1 c2, init_pages (writing_txn, new_compute (C := CacheProps.ListLru) default_env ComputeProps.sample_storage (mkClock 0 [])) =
      (Ret tt, (x1, c1)) /\ rows (ec_store c1) = ∅ /\
    put [] ComputeProps.sample_key (ComputeProps.sample_value 9) (writing_txn, c1) = (Ret tt, (y1, c2)) /\
    (get 1 ComputeProps.sample_key (y1, c2)).1 = Ret (Some (ComputeProps.sample_value 9)).
Proof.
  apply (fresh_node_put_get (C := CacheProps.ListLru) default_env ComputeProps.sample_storage (mkClock 0 []) [] ComputeProps.sample_key
    (ComputeProps.sample_value 9) writing_txn writing_txn 0).
  - vm_compute. discriminate.
  - reflexivity.
  - split; [reflexivity|reflexivity|exists 1; split; [reflexivity|unfold U64; lia]|cbn; unfold U64; lia|reflexivity|reflexivity].
  - apply ComputeProps.sample_key_len.
  - apply ComputeProps.sample_value_len.
Defined.

End TreeStoreProps.
