(* ===== verification/ColdStart.v ===== *)
(** * ColdStart: a node from its first page to a read

    [connect_inprocess] of src/src/embedded_compute.rs on an empty storage: the first pages,
    their commit, and the catalog of the secondary indexes.  The node is then ready for
    [put] and [get], on the tree and the page cache of the source. *)

From stdpp Require Import base numbers list list_numbers gmap fin_maps sorting.
From S2P Require Import Prelude Common SlottedPage UndoPage MetaPage WalCodec Mvcc PageStore Node Sequencer Secondary SecondaryProps BtreePage Latch Provider Cache CacheLaws Btree BtreeInv BtreeRun BtreeInsert BtreeMap BtreeCalm Compute ComputeSpec ComputeUndo ComputeProps TreeStore ComputeCommit CommitRun CommitPut TreeStoreProps.
Import Compute.Compute ComputeProps CommitProps CommitRun CommitPut TreeStoreProps.

Module ColdStart.

Section Cold.
Context {T : Type} {CS : ComputeStore T} {SV : StoreView T} {SL : StoreLaws T} {OT : Others T}.

(** ** The commit of pages *)

(** A transaction that wrote pages of the tree and the meta page, and no row. *)
Record page_writer (r : Z) (mp : Page) (d : gmap Z (list Z)) (x : EmbeddedTxn) : Prop := {
  pw_txn : tx_undo_txn_id x = Some r;
  pw_id : r <> 0;
  pw_rw : tx_read_only x = false;
  pw_timeout : tx_timeout x = None;
  pw_dirty : tx_dirty x = <[META_PAGE_ID := mp]> d;
  pw_bptree : tx_bptree_dirty x = ∅;
  pw_segment : tx_seg_first x = None;
  pw_mutations : tx_mutations x = [];
  pw_rows : tx_modified x = ∅
}.

(** The node after the commit of such pages at [lsn]. *)
Record paged (n : nat) (lsn : Z) (meta : MetaPage) (d : gmap Z (list Z)) (s : InProcessSequencer) (c c' : EmbeddedCompute T) : Prop := {
  pg_idle : idle n c';
  pg_rows : rows (ec_store c') = rows (ec_store c);
  pg_own : same_tree (ec_store c) (ec_store c');
  pg_indexes : ec_indexes c' = ec_indexes c;
  pg_posting : ec_posting_log c' = ec_posting_log c;
  pg_stored : exists root next, 0 <= root < U64 /\ 0 <= next < U64 /\
    let mp := MetaProps.encoded (meta_with root next (next_undo_page_id meta) (undo_history_head meta) (undo_history_tail meta) meta) in
    page_of (ec_store c') META_PAGE_ID = Some mp /\
    sg_seq (storage c') = InProcess (mkInProcess (mkPages (<[META_PAGE_ID := mp]> d ∪ ip_pages (ip_store s))) lsn (ip_request_id s)
      (Z.max (ip_durable_lsn s) lsn))
}.

Lemma paged_intro n r lsn meta d s x c (t1 t2 : T) g1 g2 :
  idle (S n) c -> restored (S n) (ec_store c) t1 g1 -> page_changed n (cs_set_storage g2 t1) t2 META_PAGE_ID (meta_page t1 meta) ->
  sg_seq g2 = InProcess (mkInProcess (mkPages (<[META_PAGE_ID := meta_page t1 meta]> d ∪ ip_pages (ip_store s))) lsn (ip_request_id s) (Z.max (ip_durable_lsn s) lsn)) ->
  paged n lsn meta d s c (released x (with_registry (base.delete r (ec_registry c)) (with_store t2 c))).
Proof.
  intros [Hg Hd] [G1 G2 G3 G4 G5 G6] [B1 B2 B3 B4 B5 B6] Hg2. set (c' := released _ _).
  assert (Hc : ec_store c' = t2 /\ ec_indexes c' = ec_indexes c /\ ec_posting_log c' = ec_posting_log c)
    by (unfold c', released; by destruct (tx_read_guard x)).
  destruct Hc as (Hs & Hix & Hpo). split; try done; unfold idle, storage; rewrite ?Hs.
  - split; [done|]. by rewrite B4, law_set_storage_dirty, G4.
  - by rewrite B2, law_set_storage_rows, G2.
  - eapply same_tree_trans; [exact G6|]. eapply same_tree_trans; [apply law_set_storage_own|exact B6].
  - exists (cs_root t1), (cs_next_page_id t1). destruct (law_ids _ _ G1). split; [done|]. split; [done|]. split.
    + rewrite B3, decide_True by done. reflexivity.
    + rewrite B5, law_set_storage_val. exact Hg2.
Qed.

Lemma stamp_no_rows r stamp missing x (c : EmbeddedCompute T) : tx_modified x = ∅ ->
  stamp_rows r stamp missing (key_list (tx_modified x)) (x, c) = (Ret tt, (x, c)).
Proof. intros ->. reflexivity. Qed.

(** [commit_pages] leaves the pages as they are. *)
Lemma commit_pages_only r start_lsn lsn meta posting mp d x c :
  tx_modified x = ∅ -> tx_seg_first x = None -> tx_mutations x = [] ->
  commit_pages r start_lsn lsn meta posting (<[META_PAGE_ID := mp]> d) (x, c) =
    (Ret (<[META_PAGE_ID := meta_page (ec_store c) meta]> d, posting), (x, c)).
Proof.
  intros Hmod Hseg Hmut. unfold commit_pages. rewrite get_tx_bind. cbn [fst id].
  rewrite (st_bind_ret _ _ _ _ _ (stamp_no_rows r _ _ x c Hmod)), get_tx_bind. rewrite bool_decide_true by done. cbv zeta.
  unfold refresh_meta, link_segment.
  rewrite (st_bind_ret _ _ _ (new_meta (ec_store c) meta) (x, c)) by done.
  rewrite (st_bind_ret _ _ _ (new_meta (ec_store c) meta, <[META_PAGE_ID := mp]> d) (x, c))
    by (rewrite get_tx_bind; cbn [fst id]; by rewrite Hseg).
  cbv beta iota. rewrite (st_bind_lift _ _ _ (meta_page (ec_store c) meta)) by apply MetaProps.encode_ok.
  rewrite (st_bind_ret _ _ _ _ _ (no_secondary_pages lsn posting x c Hmut)).
  cbv beta iota. rewrite map_empty_union, insert_insert_eq. reflexivity.
Qed.

Lemma commit_paged_run {AL : Allocator} node_now node_ms n r meta mp d s x c :
  page_writer r mp d x -> Meta.decode mp = Ret meta -> idle (S n) c -> settled (ec_store c) d ->
  sg_seq (storage c) = InProcess s -> 0 <= ip_next_lsn s -> ip_next_lsn s + Z.of_nat (S (size d)) < U64 ->
  exists x' c', let lsn := ip_next_lsn s + Z.of_nat (S (size d)) in
    commit_body node_now node_ms (x, c) = (Ret lsn, (x', c')) /\ tx_read_guard x' = None /\ paged n lsn meta d s c c'.
Proof.
  intros [Htx Hr Hro Ht Hd Hb Hseg Hmut Hmod] Hdec Hi Hset Hseq Hnx Hl. set (lsn := ip_next_lsn s + Z.of_nat (S (size d))) in *.
  pose proof (reserve_run s (Z.of_nat (S (size d))) r x c Hseq ltac:(lia) Hr ltac:(fold lsn; lia)) as H3. cbv zeta in H3. fold lsn in H3.
  set (g1 := with_seq _ _ _) in H3. pose proof (set_storage_run (S n) g1 _ (proj1 Hi)) as G. set (t1 := cs_set_storage g1 (ec_store c)) in *.
  set (c1 := with_store t1 c) in *.
  destruct (commit_reserved_run n (mkInProcess (ip_store s) lsn (ip_request_id s) (ip_durable_lsn s)) META_PAGE_ID d (meta_page t1 meta)
    node_now node_ms r (ip_next_lsn s) lsn c1) as (t2 & H5 & P5); [by left|apply G|unfold storage, c1; cbn; by rewrite (rd_storage _ _ _ _ G)|
    eapply settled_same; [apply (rd_own _ _ _ _ G)|done]|apply MetaProps.encoded_len|].
  set (g2 := with_seq _ _ _) in P5.
  exists (unguarded x), (released x (with_registry (base.delete r (ec_registry c)) (with_store t2 c))). cbv zeta.
  split; [|split; [unfold unguarded; by destruct (tx_read_guard x) eqn:E|by eapply paged_intro]].
  unfold commit_body. rewrite (st_bind_ret _ _ _ _ _ (ensure_run x c Ht)), get_tx_bind. cbn [fst]. rewrite Hro.
  assert (H1 : commit_meta (x, c) = (Ret meta, (x, c))).
  { unfold commit_meta. rewrite get_tx_bind. cbn [fst id]. rewrite Hd, lookup_insert_eq. unfold lift. by rewrite Hdec. }
  assert (Hx : with_pages (tx_dirty x) ∅ (tx_ro_cache x) x = x) by (rewrite <-Hb; apply with_pages_id).
  pose proof (commit_rw_exec node_now node_ms meta r (ec_posting_log c) (ip_next_lsn s) lsn ∅ (<[META_PAGE_ID := meta_page t1 meta]> d)
    x c c c c1 x c1 (with_store t2 c) Htx Hseg Hmut H1) as HX.
  cbv zeta in HX. rewrite map_empty_union, Hx, stamp_no_rows, Hd, insert_insert_eq, (pages_size _ _ _ Hset) in HX by done.
  rewrite HX; try done; [by apply commit_pages_only|by rewrite (pages_size _ _ _ Hset)].
Qed.

(** ** The catalog of no index *)

Lemma empty_catalog_page : exists p, IndexMeta.encode_secondary_index_catalog (mkCatalog [] PostingLog.default_state) = Ret p /\ zlen p = PAGE_SIZE.
Proof.
  destruct (CatalogProps.catalog_roundtrip (mkCatalog [] PostingLog.default_state)) as (p & Hp & Hz & _).
  - apply Forall_nil_2.
  - split; cbn; unfold SECONDARY_POSTING_LOG_BASE_PAGE_ID, U64; lia.
  - exists p. split; assumption.
Qed.

(** The storage after the catalog page. *)
Definition catalog_stored (p : Page) (s : InProcessSequencer) : InProcessSequencer :=
  mkInProcess (mkPages (<[SECONDARY_INDEX_META_PAGE_ID := p]> (ip_pages (ip_store s)))) (ip_next_lsn s + 1) (wrap64 (ip_request_id s + 1))
    (Z.max (ip_durable_lsn s) (ip_next_lsn s + 1)).

Lemma persist_run {AL : Allocator} node_now node_ms n s (c : EmbeddedCompute T) :
  good (S n) (ec_store c) -> sg_seq (storage c) = InProcess s -> ip_request_id s <> 0 -> 0 <= ip_next_lsn s -> ip_next_lsn s + 1 < U64 ->
  ec_indexes c = SecIndex.default_manager -> ec_posting_log c = PostingLog.default_state ->
  exists p t' t1 g1, persist_secondary_index_catalog node_now node_ms c = (Ret tt, with_store t' c) /\
    restored (S n) (ec_store c) t1 g1 /\ page_changed n t1 t' SECONDARY_INDEX_META_PAGE_ID p /\ sg_seq g1 = InProcess (catalog_stored p s).
Proof.
  intros Hg Hs Hid Hnx Hl Hix Hpo. destruct empty_catalog_page as (p & Hp & Hz).
  set (s1 := mkInProcess (ip_store s) (ip_next_lsn s + 1) (wrap64 (ip_request_id s + 1)) (ip_durable_lsn s)).
  set (g := with_seq (InProcess s1) (sg_cluster (storage c)) (storage c)).
  pose proof (set_storage_run (S n) g _ Hg) as G. set (t0 := cs_set_storage g (ec_store c)) in *. set (c1 := with_store t0 c).
  assert (Hs1 : sg_seq (storage c1) = InProcess s1) by (unfold storage, c1; cbn; by rewrite (rd_storage _ _ _ _ G)).
  destruct (commit_reserved_run n s1 SECONDARY_INDEX_META_PAGE_ID ∅ p node_now node_ms (ip_request_id s) (ip_next_lsn s) (ip_next_lsn s + 1) c1)
    as (t' & Hc & Hp'); [by right; left|apply G|exact Hs1|apply map_Forall_empty|exact Hz|].
  cbv zeta in Hc, Hp'. set (g2 := with_seq _ _ _) in Hp'.
  exists p, t', (cs_set_storage g2 t0), g2. split; [|split; [|split; [exact Hp'|]]].
  - unfold persist_secondary_index_catalog. rewrite st_bind_gets, Hpo.
    rewrite (st_bind_ret _ _ _ p c) by (unfold catalog_page; rewrite st_bind_gets, Hix; unfold lift; f_equal; exact Hp).
    assert (Hr : reserve_txn (Z.max (zlen [(SECONDARY_INDEX_META_PAGE_ID, p)]) 1) c = (Ret (ip_request_id s, ip_next_lsn s, ip_next_lsn s + 1), c1)).
    { unfold reserve_txn. rewrite st_bind_gets. unfold sequencer. rewrite Hs. change (Z.max (zlen [(SECONDARY_INDEX_META_PAGE_ID, p)]) 1) with 1.
      cbn [Seq.reserve_txn InProcessM.ip_reserve_txn InProcessM.ip_allocate_request_id InProcessM.ip_reserve_txn_with_request_id].
      unfold InProcessM.ip_reserve_txn, InProcessM.ip_allocate_request_id, InProcessM.ip_reserve_txn_with_request_id.
      rewrite (proj2 (Z.eqb_neq (ip_request_id s) 0)) by done. cbn [Z.eqb ip_next_lsn ip_store ip_request_id ip_durable_lsn].
      assert (Hw : wrap64 (ip_next_lsn s + 1) = ip_next_lsn s + 1) by (apply Z.mod_small; lia). rewrite Hw. reflexivity. }
    unfold write_pages_direct. rewrite bool_decide_false by discriminate. rewrite (st_bind_ret _ _ _ (ip_next_lsn s + 1) (with_store t' c)); [reflexivity|].
    rewrite (st_bind_ret _ _ _ _ _ Hr). cbv beta iota. etransitivity; [|exact Hc]. unfold commit_pages_reserved. by rewrite page_map_entries.
  - eapply restored_trans; [exact G|]. apply set_storage_run, G.
  - unfold g2, catalog_stored. cbn [sg_seq with_seq s1 ip_store ip_next_lsn ip_request_id ip_durable_lsn].
    by rewrite <-insert_union_l, map_empty_union.
Qed.

End Cold.

Lemma inprocess_inj s s' : InProcess s = InProcess s' -> s = s'.
Proof. by intros [=]. Qed.

Lemma backed_more {T} {SV : StoreView T} (t : T) m m' : m ⊆ m' -> backed t m -> backed t m'.
Proof. intros Hm Hb id pg Hid Hne. eapply lookup_weaken; [by apply Hb|done]. Qed.

Lemma first_meta_good : meta_good first_meta.
Proof.
  split; [|vm_compute; discriminate|apply Forall_nil_2].
  split; cbn [first_meta MetaPage.root_page_id next_bptree_page_id next_data_page_id next_undo_page_id undo_free undo_history_head undo_history_tail];
    try apply Forall_nil_2; unfold BPTREE_ROOT_ID, UNDO_BASE, U64; lia.
Qed.

(** ** The first start of a node *)

Section Start.
Context {C : Type} {L : LruCache C} {LL : LruLaws C} {OT : Others (PageBPlusTree (TxnProvider.TxnPageProvider C Storage))}.

(** The commit of the first pages: three of them, under as many LSNs. *)
Lemma first_commit_run {AL : Allocator} node_now node_ms n r g s root bm mp x (c : EmbeddedCompute (PageBPlusTree (TxnProvider.TxnPageProvider C Storage))) :
  first_pages (S n) root bm mp g (ec_store c) -> sg_seq g = InProcess s -> 0 <= ip_next_lsn s -> ip_next_lsn s + 3 < U64 ->
  tx_undo_txn_id x = Some r -> r <> 0 -> tx_read_only x = false -> tx_timeout x = None -> tx_dirty x = ∅ -> tx_bptree_dirty x = ∅ ->
  tx_seg_first x = None -> tx_mutations x = [] -> tx_modified x = ∅ ->
  exists x' c', commit_body node_now node_ms (wrote_first root bm mp x, c) = (Ret (ip_next_lsn s + 3), (x', c')) /\ tx_read_guard x' = None /\
    paged n (ip_next_lsn s + 3) first_meta (<[BtreeMetaPage.BTREE_META_PAGE_ID := bm]> {[BPTREE_ROOT_ID := root]}) s c c'.
Proof.
  intros [Fg Fc _ _ Fd Fs _ _ Fst] Hs Hnx Hl Htx Hr Hro Ht Hd Hb Hseg Hmut Hmod.
  set (d := <[BtreeMetaPage.BTREE_META_PAGE_ID := bm]> {[BPTREE_ROOT_ID := root]}).
  assert (Hsz : size d = 2%nat).
  { unfold d. rewrite map_size_insert_None, map_size_singleton; [done|]. by apply lookup_singleton_ne. }
  assert (Hw : page_writer r mp d (wrote_first root bm mp x)).
  { split; try assumption. cbn [wrote_first with_pages tx_dirty]. by rewrite Hd, insert_empty. }
  destruct (commit_paged_run node_now node_ms n r first_meta mp d s (wrote_first root bm mp x) c Hw Fd) as (x' & c' & Hrun & Hguard & Hpg).
  - by split.
  - exact Fs.
  - unfold storage. by rewrite Fst.
  - exact Hnx.
  - by rewrite Hsz.
  - rewrite Hsz in Hrun, Hpg. by exists x', c'.
Qed.

(** The node after its first pages and its catalog. *)
Lemma started n k s root bm mp g (t : PageBPlusTree (TxnProvider.TxnPageProvider C Storage)) p t1 g1 c c1 c2 :
  first_pages (S (S n)) root bm mp g t -> ec_store c = t ->
  paged (S n) (ip_next_lsn s + 3) first_meta (<[BtreeMetaPage.BTREE_META_PAGE_ID := bm]> {[BPTREE_ROOT_ID := root]}) s c c1 ->
  restored (S n) (ec_store c1) t1 g1 -> page_changed n t1 (ec_store c2) SECONDARY_INDEX_META_PAGE_ID p -> ec_indexes c2 = SecIndex.default_manager ->
  (forall s1, sg_seq (storage c1) = InProcess s1 -> sg_seq g1 = InProcess (catalog_stored p s1)) ->
  0 <= ip_next_lsn s -> ip_next_lsn s + 4 + 3 * k < U64 -> 0 <= k -> 0 <= ip_durable_lsn s < U64 ->
  0 < ip_request_id s -> ip_request_id s + 1 + k < U64 ->
  serves n k ∅ c2 /\ forall key, spare_of (ec_store c2) key = true.
Proof.
  intros [Fg Fc Fr Fm Fd Fs Fb Fsp Fst] <- [Pi Pr Po Pix Ppo (rt & next & Hrt & Hnext & Hmp & Hseq)] [G1 G2 G3 G4 G5 G6] [B1 B2 B3 B4 B5 B6] Hix Hg1.
  intros Hnx Hl Hk Hdur Hid Hids. specialize (Hg1 _ Hseq).
  assert (Hsame : same_tree (ec_store c) (ec_store c2)) by (eapply same_tree_trans; [exact Po|]; eapply same_tree_trans; [exact G6|exact B6]).
  assert (Hrows : rows (ec_store c2) = ∅) by congruence.
  split; [|intros key; destruct Hsame as (_ & _ & ->); apply Fsp]. split; [|exact Hix].
  set (m := meta_with rt next (next_undo_page_id first_meta) (undo_history_head first_meta) (undo_history_tail first_meta) first_meta) in *.
  assert (Hwr : wrap64 (ip_request_id s + 1) = ip_request_id s + 1) by (apply Z.mod_small; lia).
  eexists. split; [|intros key; rewrite lookup_empty, Hrows; apply lookup_empty]. split.
  - split; [exact B1|]. rewrite B4, G4. apply Pi.
  - unfold storage. rewrite B5, G5. exact Hg1.
  - exists m. split; [|by apply meta_good_with; [apply first_meta_good|..]]. rewrite B3, decide_False by discriminate. by rewrite G3.
  - eapply backed_same; [exact Hsame|]. apply backed_aux; [by right; left|]. cbn [ip_store ip_pages].
    rewrite <-insert_union_l. apply backed_aux; [by left|]. eapply backed_more; [|exact Fb]. etransitivity; [|apply map_union_subseteq_l].
    apply insert_subseteq. by apply lookup_singleton_ne.
  - cbn. lia.
  - cbn. lia.
  - cbn. lia.
  - cbn. lia.
  - cbn. lia.
Qed.

Lemma cold_start_run {AL : Allocator} node_now node_ms n k g s (c : EmbeddedCompute (PageBPlusTree (TxnProvider.TxnPageProvider C Storage))) :
  blank (S (S n)) g (ec_store c) -> 73 + 66 * Z.of_nat (S (S n)) <= DEFAULT_LATCH_STRIPES -> sg_seq g = InProcess s ->
  ec_posting_log c = PostingLog.default_state -> 0 <= ip_next_lsn s -> ip_next_lsn s + 4 + 3 * k < U64 -> 0 <= k ->
  0 <= ip_durable_lsn s < U64 -> 0 < ip_request_id s -> ip_request_id s + 2 + k < U64 ->
  exists c', cold_start node_now node_ms c = (Ret tt, c') /\ serves n k ∅ c' /\ forall key, spare_of (ec_store c') key = true.
Proof.
  intros Hb Hn Hs Hpo Hnx Hl Hk Hdur Hid Hids.
  destruct (begin_rw_raw s c) as (guard & started_at & c1 & g1 & H1 & Hst & _ & Hpo1); [unfold storage; by rewrite (bl_storage _ _ _ Hb)|].
  set (x := begun false (ip_durable_lsn s) guard started_at (Some (ip_request_id s))) in *.
  set (s1 := mkInProcess (ip_store s) (ip_next_lsn s) (wrap64 (ip_request_id s + 1)) (ip_durable_lsn s)).
  assert (Hwr : wrap64 (ip_request_id s + 1) = ip_request_id s + 1) by (apply Z.mod_small; lia).
  assert (Hb1 : blank (S (S n)) (begun_storage s c) (ec_store c1)) by (rewrite Hst; by eapply blank_storage, blank_storage).
  destruct (blank_first _ _ x c1 eq_refl Hn Hb1) as (root & bm & mp & t & H2 & Hf).
  destruct (first_commit_run node_now node_ms (S n) (ip_request_id s) _ s1 root bm mp x (with_store t c1) Hf) as (x' & c2 & H3 & Hguard & Hpg);
    try reflexivity; [exact Hnx|cbn; lia|lia|].
  set (c3 := with_indexes SecIndex.default_manager c2).
  destruct (pg_stored _ _ _ _ _ _ _ Hpg) as (rt & next & _ & _ & _ & Hseq).
  destruct (persist_run node_now node_ms n _ c3 (proj1 (pg_idle _ _ _ _ _ _ _ Hpg)) Hseq) as (p & t4 & t3 & g3 & H4 & Hr & Hp & Hg3).
  { cbn. lia. } { cbn. lia. } { cbn. lia. } { reflexivity. } { cbn. rewrite (pg_posting _ _ _ _ _ _ _ Hpg). cbn. congruence. }
  exists (with_store t4 c3). split.
  - unfold cold_start. rewrite (st_bind_ret _ _ _ _ _ H1).
    rewrite (st_bind_ret _ _ _ (ip_next_lsn s1 + 3) c2); [|apply (finish_run _ _ _ _ x'); [|exact Hguard]; by rewrite (st_bind_ret _ _ _ _ _ H2)].
    rewrite (st_bind_ret _ _ _ tt c3) by reflexivity. exact H4.
  - eapply (started n k s1 root bm mp _ t p t3 g3 (with_store t c1) c2); try eassumption; try reflexivity.
    + intros s2 Hs2. assert (s2 = _) as -> by (eapply inprocess_inj; exact (eq_trans (eq_sym Hs2) Hseq)). exact Hg3.
    + cbn. lia.
    + cbn. lia.
Qed.

(** An in-process node has no reader to warm up from, and starts cold. *)
Lemma connect_run {AL : Allocator} fuel now ms order n k env seed clk cl :
  73 + 66 * Z.of_nat (S (S n)) <= DEFAULT_LATCH_STRIPES ->
  (65 + 66 * Z.of_nat (S (S n))) / DEFAULT_PAGE_CACHE_SHARDS + Z.of_nat (S (S n)) + 2 <=
    per_shard (read_duration_env_ms (env_cache_pages env) DEFAULT_CACHE_PAGES) ->
  0 <= seed -> 0 <= k -> Z.max seed 1 + 2 + k < U64 -> 4 + 3 * k < U64 ->
  exists c', connect_inprocess (C := C) fuel now ms order env seed clk cl = (Ret tt, c') /\ serves n k ∅ c' /\
    forall key, spare_of (ec_store c') key = true.
Proof.
  intros Hn Hroom Hseed Hk Hids Hl. unfold connect_inprocess. set (s := InProcessM.new seed (mkPages ∅)).
  set (g := mkStorage (InProcess s) cl [] 0 now). set (c := new_compute env g clk).
  assert (Hid : ip_request_id s = Z.max seed 1) by (cbn; destruct (Z.eqb_spec seed 0); lia).
  destruct (blank_miss _ _ _ META_PAGE_ID (new_blank (S (S n)) env g clk Hn Hroom)) as (t & Hget & Hb).
  destruct (cold_start_run now ms n k g s (with_store t c) Hb Hn eq_refl eq_refl) as (c' & Hrun & Hsv); try (rewrite ?Hid; cbn; unfold U64 in *; lia).
  exists c'. split; [|exact Hsv]. unfold recover_or_init.
  rewrite (st_bind_ret _ _ _ (Ret (warmed_pages c)) c) by reflexivity.
  rewrite (st_bind_ret _ _ _ None (with_store t c)); [exact Hrun|]. unfold cache_get.
  change (ec_store c) with (ec_store (new_compute (C := C) env g clk)). by rewrite Hget.
Qed.

End Start.

(** ** Properties *)

(** C3: A compute node over the in-process storage behaves as a map under puts of new rows
    that split no page.  On a node that holds [kv], whose rows are all committed, whose
    storage has every page of the tree and which has no secondary index ([serves]), [put] of
    a key that is not there returns an LSN when no page on the way to the key's leaf is full
    and the leaf has room for the row ([spare_of]): it begins a transaction, writes the row
    as an intent, stamps it, reserves its LSNs, stores the pages and publishes the row.  The
    node then holds [kv] with the new row, and [get] of any key returns what that map has and
    leaves the node with it.  A put that splits a page is not covered: it can fail with
    [WouldBlock]. *)
Theorem put_get_refines_map {AL : Allocator} {T} {CS : ComputeStore T} {SV : StoreView T} {SL : StoreLaws T} {OT : Others T} node_now node_ms order fuel n k kv key value
    (c : EmbeddedCompute T) :
  serves (4 + n) (k + 1) kv c -> 0 <= k -> zlen key = KEY_SIZE -> zlen value = VALUE_SIZE ->
  kv !! key = None -> spare_of (ec_store c) key = true ->
  exists lsn c', compute_put node_now node_ms order key value c = (Ret lsn, c') /\ serves n k (<[key := value]> kv) c' /\
    forall key', zlen key' = KEY_SIZE ->
      exists c'', compute_get (S fuel) key' c' = (Ret (<[key := value]> kv !! key'), c'') /\ serves n k (<[key := value]> kv) c''.
Proof.
  intros Hsv Hk Hkey Hval Hnone Hspare.
  destruct (serves_put node_now node_ms order n k kv key value c Hsv Hk Hkey Hval Hnone Hspare) as (lsn & c' & Hput & Hsv').
  exists lsn, c'. split; [exact Hput|]. split; [exact Hsv'|]. intros key' Hkey'.
  destruct (serves_get fuel n k _ key' c' Hsv' Hkey') as (c'' & Hget & Hsv'' & _). by exists c''.
Qed.

#[local] Existing Instance machine.
#[local] Existing Instance alone.

Definition sample_connect : outcome Error unit * EmbeddedCompute (PageBPlusTree (TxnProvider.TxnPageProvider CacheProps.ListLru Storage)) :=
  connect_inprocess 1 0 0 [] default_env 7 (mkClock 0 []) (mkCluster [] []).

Lemma put_get_refines_map_witness :
  let value := ComputeProps.sample_value 9 in
  exists lsn c', compute_put 0 0 [] ComputeProps.sample_key value sample_connect.2 = (Ret lsn, c') /\
    (compute_get 1 ComputeProps.sample_key c').1 = Ret (Some value).
Proof.
  destruct (connect_run (C := CacheProps.ListLru) 1 0 0 [] 4 1 default_env 7 (mkClock 0 []) (mkCluster [] [])) as (c & Hc & Hsv & Hspare).
  - vm_compute. discriminate.
  - vm_compute. discriminate.
  - lia.
  - lia.
  - unfold U64. lia.
  - unfold U64. lia.
  - unfold sample_connect. rewrite Hc. cbn [snd].
    destruct (put_get_refines_map 0 0 [] 0 0 0 ∅ ComputeProps.sample_key (ComputeProps.sample_value 9) c Hsv) as (lsn & c' & Hput & _ & Hget).
    + lia.
    + apply ComputeProps.sample_key_len.
    + apply ComputeProps.sample_value_len.
    + apply lookup_empty.
    + apply Hspare.
    + exists lsn, c'. split; [exact Hput|]. destruct (Hget _ ComputeProps.sample_key_len) as (c'' & -> & _). cbn [fst].
      by rewrite lookup_insert_eq.
Defined.

(** C6: An in-process node works from its construction to its reads.  With a page cache of at
    least 1024 pages, [connect_inprocess] succeeds: it finds no page, writes and commits the
    first ones and the catalog of the secondary indexes.  [get] of any key then finds
    nothing; [put] of a key and a value returns an LSN; and afterwards [get] returns the
    value under that key and nothing under any other, through the tree, the page provider,
    the page cache and the in-process sequencer. *)
Theorem inprocess_put_get {AL : Allocator} {C} {L : LruCache C} {LL : LruLaws C}
    {OT : Others (PageBPlusTree (TxnProvider.TxnPageProvider C Storage))} fuel reads now ms order env seed clk cl key value :
  1024 <= read_duration_env_ms (env_cache_pages env) DEFAULT_CACHE_PAGES -> 0 <= seed -> seed + 3 < U64 ->
  zlen key = KEY_SIZE -> zlen value = VALUE_SIZE ->
  exists c0 lsn c1, connect_inprocess (C := C) fuel now ms order env seed clk cl = (Ret tt, c0) /\
    (forall key', zlen key' = KEY_SIZE -> (compute_get (S reads) key' c0).1 = Ret None) /\
    compute_put now ms order key value c0 = (Ret lsn, c1) /\
    forall key', zlen key' = KEY_SIZE -> (compute_get (S reads) key' c1).1 = Ret (if decide (key' = key) then Some value else None).
Proof.
  intros Hpages Hseed Hids Hkey Hval.
  destruct (connect_run (C := C) fuel now ms order 4 1 env seed clk cl) as (c0 & Hconn & Hsv & Hspare); try (unfold U64 in *; lia).
  { unfold DEFAULT_LATCH_STRIPES. lia. }
  { change ((65 + 66 * Z.of_nat 6) / DEFAULT_PAGE_CACHE_SHARDS + Z.of_nat 6 + 2) with 15.
    unfold per_shard, DEFAULT_PAGE_CACHE_SHARDS. set (n := read_duration_env_ms _ _) in *. apply Z.le_trans with ((Z.max n 1 + 64 - 1) / 64); [|lia].
    apply Z.div_le_lower_bound; lia. }
  destruct (serves_put now ms order 0 0 ∅ key value c0 Hsv ltac:(lia) Hkey Hval (lookup_empty _) (Hspare key)) as (lsn & c1 & Hput & Hsv1).
  exists c0, lsn, c1. split; [exact Hconn|]. split; [|split; [exact Hput|]]; intros key' Hkey'.
  - destruct (serves_get reads 4 1 ∅ key' c0 Hsv Hkey') as (c' & -> & _). cbn [fst]. by rewrite lookup_empty.
  - destruct (serves_get reads 0 0 _ key' c1 Hsv1 Hkey') as (c' & -> & _). cbn [fst]. f_equal.
    case_decide as E; [subst; apply lookup_insert_eq|]. rewrite lookup_insert_ne by congruence. apply lookup_empty.
Qed.

Lemma inprocess_put_get_witness :
  let value := ComputeProps.sample_value 9 in
  exists c0 lsn c1, sample_connect = (Ret tt, c0) /\ compute_put 0 0 [] ComputeProps.sample_key value c0 = (Ret lsn, c1) /\
    (compute_get 1 ComputeProps.sample_key c1).1 = Ret (Some value).
Proof.
  destruct (inprocess_put_get (C := CacheProps.ListLru) 1 0 0 0 [] default_env 7 (mkClock 0 []) (mkCluster [] []) ComputeProps.sample_key (ComputeProps.sample_value 9))
    as (c0 & lsn & c1 & Hc & _ & Hput & Hget).
  - vm_compute. discriminate.
  - lia.
  - unfold U64. lia.
  - apply ComputeProps.sample_key_len.
  - apply ComputeProps.sample_value_len.
  - exists c0, lsn, c1. split; [exact Hc|]. split; [exact Hput|]. rewrite (Hget _ ComputeProps.sample_key_len). by rewrite decide_True.
Defined.

End ColdStart.
