(* ===== verification/Tools.v ===== *)
(** * Tools: the binaries (src/src/bin) and the node's operations that only they and tests call

    - [Args]: the command line of both binaries.  A string is its UTF-8 bytes; a number is
      parsed as Rust's [FromStr] does it: an optional [+], decimal digits, no overflow.
    - [ServerBin]: what storage_server.rs makes of its command line.
    - [Observe]: the read handles' scopes and the metrics snapshot of node.rs.
    - [Bench]: workload_bench.rs over a compute node: the load phase, one worker's loop, the
      retries of a put, the percentiles.  The text of an error, the random draws and the
      rounding of a float rank are arguments; the workers' interleaving is not modelled. *)

From Stdlib Require Import Ascii String.
From stdpp Require Import base numbers list list_numbers gmap fin_maps sorting strings pretty.
From S2P Require Import Prelude Common Mvcc PageStore Node Compute.
#[local] Open Scope Z_scope.

Module Args.

(** [args.iter().position(|a| a == key).and_then(|i| args.get(i + 1))]. *)
Fixpoint parse_arg (args : list string) (key : string) : option string :=
  match args with
  | [] => None
  | a :: rest => if String.eqb a key then head rest else parse_arg rest key
  end.

Definition digit (c : ascii) : option Z :=
  let n := Z.of_nat (nat_of_ascii c) - 48 in
  if (0 <=? n) && (n <=? 9) then Some n else None.

(** The digits of [from_str_radix(10)] after [acc]; the checked multiplication and addition
    of the standard library fail from [bound] on. *)
Fixpoint digits (bound acc : Z) (s : string) : option Z :=
  match s with
  | EmptyString => Some acc
  | String c s =>
      match digit c with
      | None => None
      | Some d => if bound <=? 10 * acc + d then None else digits bound (10 * acc + d) s
      end
  end.

(** [parse::<u64>], [parse::<usize>] and [parse::<u32>]. *)
Definition parse_unsigned (bound : Z) (s : string) : option Z :=
  match s with
  | EmptyString => None
  | String c rest =>
      if Ascii.eqb c "+" then match rest with EmptyString => None | _ => digits bound 0 rest end
      else digits bound 0 s
  end.

Definition to_lower (c : ascii) : ascii :=
  let n := nat_of_ascii c in
  if ((65 <=? n) && (n <=? 90))%nat then ascii_of_nat (n + 32) else c.

Fixpoint to_ascii_lowercase (s : string) : string :=
  match s with EmptyString => EmptyString | String c s => String (to_lower c) (to_ascii_lowercase s) end.

End Args.

(** ** storage_server.rs *)

Module ServerBin.
Import Args.

Definition parse_u64 (args : list string) (key : string) : option Z :=
  v ← parse_arg args key; parse_unsigned U64 v.

Definition parse_usize (args : list string) (key : string) : option Z :=
  v ← parse_arg args key; parse_unsigned U64 v.

Definition parse_bool (args : list string) (key : string) : option bool :=
  v ← parse_arg args key;
  let v := to_ascii_lowercase v in
  if existsb (String.eqb v) ["1"; "true"; "yes"; "on"]%string then Some true else
  if existsb (String.eqb v) ["0"; "false"; "no"; "off"]%string then Some false else None.

Definition parse_u64_or_default (args : list string) (key : string) (default_ : Z) : Z :=
  default default_ (parse_u64 args key).

(** Nanoseconds of [Duration::from_secs]. *)
Definition from_secs (n : Z) : Z := n * 1000000000.

(** A field is replaced only when its argument is there and parses; [f] is its clamp. *)
Definition set_field {A B} (arg : option A) (f : A -> B) (old : B) : B :=
  match arg with Some v => f v | None => old end.

Definition at_least_one (v : Z) : Z := Z.max v 1.

Definition build_maintenance_from_args (args : list string) : StorageMaintenanceConfig :=
  let d := default_maintenance in
  let c := mc_checkpoint d in
  {| mc_checkpoint := {|
       interval := set_field (parse_u64 args "--checkpoint-interval-secs") (fun v => from_secs (at_least_one v)) (interval c);
       max_dirty_pages := set_field (parse_usize args "--checkpoint-max-dirty-pages") at_least_one (max_dirty_pages c);
       max_dirty_bytes := set_field (parse_usize args "--checkpoint-max-dirty-bytes") at_least_one (max_dirty_bytes c) |};
     truncate_wal_cfg := set_field (parse_bool args "--wal-truncate") id (truncate_wal_cfg d);
     max_wal_bytes := set_field (parse_u64 args "--wal-max-bytes") at_least_one (max_wal_bytes d);
     max_wal_segments := set_field (parse_usize args "--wal-max-segments") at_least_one (max_wal_segments d);
     mvcc_gc_every_wal_batches :=
       set_field (parse_usize args "--mvcc-gc-every-wal-batches") at_least_one (mvcc_gc_every_wal_batches d);
     wal_group_commit_max_batches :=
       set_field (parse_usize args "--wal-group-max-batches") at_least_one (wal_group_commit_max_batches d);
     wal_group_commit_wait_us := set_field (parse_u64 args "--wal-group-wait-us") id (wal_group_commit_wait_us d) |}.

(** The errors of [run_with_args]: the address does not parse, or the server does not start. *)
Inductive RunError := AddrParse | Start (e : Error).

Section Run.
(** [SocketAddr] and its parser are the standard library's; [bind] is the listener; a
    directory has the files [files] gives it. *)
Context {Addr : Type} (parse_addr : string -> option Addr) (port : Addr -> Z) (bind : Addr -> outcome Error unit).
Context (files : string -> NodeM.NodeFiles).

Definition data_dir (args : list string) (addr : Addr) : string :=
  match parse_arg args "--dir" with
  | Some v => v
  | None => ("./data/storage-" ++ pretty (port addr))%string
  end.

Definition start_with_dir_and_maintenance {AL : Allocator} (now : Z) (addr : Addr) (dir : string) (maintenance : StorageMaintenanceConfig) :
    outcome Error StorageNode :=
  _ ← bind addr; NodeM.open_with_maintenance now maintenance (files dir).

(** The node, and the interval and format of the metrics task if there is one. *)
Definition run_with_args {AL : Allocator} (now : Z) (args : list string) : outcome RunError (StorageNode * option (Z * bool)) :=
  match parse_addr (default "127.0.0.1:0"%string (parse_arg args "--addr")) with
  | None => Fail AddrParse
  | Some addr =>
      match start_with_dir_and_maintenance now addr (data_dir args addr) (build_maintenance_from_args args) with
      | Ret node =>
          let metrics_interval_secs := parse_u64_or_default args "--metrics-interval-secs" 0 in
          let fmt := to_ascii_lowercase (default "json"%string (parse_arg args "--metrics-format")) in
          let prometheus := String.eqb fmt "prom" || String.eqb fmt "prometheus" in
          Ret (node, if 0 <? metrics_interval_secs then Some (Z.max metrics_interval_secs 1, prometheus) else None)
      | Fail e => Fail (Start e)
      | Panic => Panic
      | Spin => Spin
      end
  end.

End Run.

End ServerBin.

(** ** Read scopes and metrics of the node (node.rs) *)

Module Observe.
Import NodeM.

Record StorageMetricsSnapshot := {
  ms_wal_segments : Z;
  ms_wal_bytes : Z;
  ms_counters : StorageMetricsInner;
  ms_mvcc_keys : Z;
  ms_mvcc_versions : Z;
  ms_active_reads : Z;
  ms_page_cache_resident_pages : Z;
  ms_page_cache_hits : Z;
  ms_page_cache_misses : Z
}.

Definition begin_mvcc_ro_guard (n : StorageNode) : Z * Z * StorageNode :=
  let read_lsn := sn_durable n in
  let '(guard, reads) := ActiveReadsM.register read_lsn (sn_reads n) in
  (read_lsn, guard, with_reads reads n).

Definition begin_mvcc_ro (now : Z) : StorageNode -> MvccReadHandle * StorageNode := begin_mvcc_ro_with_timeout now None.

Definition begin_mvcc_ro_timeout (now timeout : Z) : StorageNode -> MvccReadHandle * StorageNode :=
  begin_mvcc_ro_with_timeout now (Some timeout).

(** The closure works on the handle and the node; the handle goes out of scope, and its guard
    with it, however the closure ends. *)
Definition with_mvcc_ro_timeout {A} (now : Z) (timeout : option Z)
    (f : st (MvccReadHandle * StorageNode) Error A) (n : StorageNode) : outcome Error A * StorageNode :=
  let '(r, (h, n)) := f (begin_mvcc_ro_with_timeout now timeout n) in (r, (handle_close h n).2).

Definition with_mvcc_ro {A} (now : Z) (f : st (MvccReadHandle * StorageNode) Error A) (n : StorageNode) :
    outcome Error A * StorageNode := with_mvcc_ro_timeout now None f n.

Definition list_active_reads (n : StorageNode) : list Z := ActiveReadsM.list_active (sn_reads n).

(** The average of the snapshot is the quotient of its two counts. *)
Definition metrics_snapshot (n : StorageNode) : StorageMetricsSnapshot * StorageNode :=
  let '(u, n) := on_wal WalFilesM.wal_usage n in
  let '(wal_segments, wal_bytes) := match u with Ret u => u | _ => (0, 0) end in
  ({| ms_wal_segments := wal_segments; ms_wal_bytes := wal_bytes; ms_counters := sn_metrics n;
      ms_mvcc_keys := Z.of_nat (size (sn_mvcc n));
      ms_mvcc_versions := map_fold (fun _ vs acc => zlen vs + acc) 0 (sn_mvcc n);
      ms_active_reads := zlen (list_active_reads n);
      ms_page_cache_resident_pages := PageStoreM.store_len (sn_store n);
      ms_page_cache_hits := cache_hits (sn_store n);
      ms_page_cache_misses := cache_misses (sn_store n) |}, n).

End Observe.

(** ** workload_bench.rs *)

Module Bench.
Import Args.

(** The address is used only to connect. *)
Record BenchConfig := {
  records : Z;
  ops : Z;
  concurrency : Z;
  read_ratio : Z
}.

Record RunStats := {
  read_ops : Z;
  write_ops : Z;
  latencies_us : list Z
}.

Definition parse_usize (args : list string) (key : string) (default_ : Z) : Z :=
  default default_ (v ← parse_arg args key; parse_unsigned U64 v).

Definition parse_u32 (args : list string) (key : string) (default_ : Z) : Z :=
  default default_ (v ← parse_arg args key; parse_unsigned U32 v).

(** The configuration [main] runs. *)
Definition config_of_args (args : list string) : BenchConfig := {|
  records := parse_usize args "--records" 100000;
  ops := parse_usize args "--ops" 200000;
  concurrency := Z.max (parse_usize args "--concurrency" 16) 1;
  read_ratio := Z.min (parse_u32 args "--read-ratio" 80) 100 |}.

Definition key_for (id : Z) : bytes := le_bytes 8 id ++ zrepeat 0 (KEY_SIZE - 8).
Definition value_for (id : Z) : bytes := le_bytes 8 id ++ zrepeat 0 (VALUE_SIZE - 8).

(** [rank] is the rounded product of the last index and the quantile. *)
Definition percentile_us (values : list Z) (rank : Z) : Z :=
  match values with
  | [] => 0
  | _ => nth (Z.to_nat (Z.min rank (zlen values - 1))) (merge_sort Z.le values) 0
  end.

(** [str::contains]. *)
Fixpoint contains (pat s : string) : bool :=
  String.prefix pat s || match s with EmptyString => false | String _ s => contains pat s end.

Definition is_transient_by_text (msg : string) : bool :=
  contains "quorum not reached" msg || contains "out of order" msg ||
  contains "wal backpressure" msg || contains "WouldBlock" msg.

Definition MAX_ATTEMPTS : nat := 12.

(** The attempt after which it gave up and the error of that attempt; the second constructor
    is the line after the loop. *)
Inductive PutError := FailedAfter (attempt : Z) (err : Error) | FailedUnexpectedly.

Section Node.
Context {T : Type} {S : ComputeStore T} {OT : Others T}.
Context (fuel : nat) (node_now node_ms : Z) (order : list bytes).
(** What [err.to_string()] is for the error of each attempt: the model keeps the kind of an
    I/O error and not its message. *)
Context (text : Z -> Error -> string).

(** [tokio::time::sleep] for [ms] milliseconds, kept with the sleeps before it. *)
Definition sleep (ms : Z) (c : EmbeddedCompute T) : EmbeddedCompute T :=
  with_clock (mkClock (ck_now (ec_clock c) + ms) (ck_steps (ec_clock c))) c.

Fixpoint retry_loop {AL : Allocator} (more : nat) (attempt backoff : Z) (key value : bytes) (slept : list Z) :
    EmbeddedCompute T -> outcome PutError unit * (EmbeddedCompute T * list Z) := fun c =>
  match more with
  | O => (Fail FailedUnexpectedly, (c, slept))
  | Datatypes.S more =>
      match Compute.compute_put node_now node_ms order key value c with
      | (Ret _, c) => (Ret tt, (c, slept))
      | (Fail err, c) =>
          if (attempt =? Z.of_nat MAX_ATTEMPTS) || (negb (is_retryable err) && negb (is_transient_by_text (text attempt err)))
          then (Fail (FailedAfter attempt err), (c, slept))
          else retry_loop more (attempt + 1) (Z.min (backoff * 2) 25) key value (slept ++ [backoff]) (sleep backoff c)
      | (Panic, c) => (Panic, (c, slept))
      | (Spin, c) => (Spin, (c, slept))
      end
  end.

Definition put_with_retry {AL : Allocator} (key value : bytes) : EmbeddedCompute T -> outcome PutError unit * (EmbeddedCompute T * list Z) :=
  retry_loop MAX_ATTEMPTS 1 1 key value [].

(** The load phase: transactions of up to 256 rows. *)
Fixpoint load_rows (n : nat) (i records : Z) : st (EmbeddedTxn * EmbeddedCompute T) Error Z :=
  match n with
  | O => mret i
  | Datatypes.S n =>
      if i <? records then _ ← Compute.put order (key_for i) (value_for i); load_rows n (i + 1) records else mret i
  end.

Definition load_batch {AL : Allocator} (i records : Z) : st (EmbeddedCompute T) Error Z :=
  tx ← Compute.begin_rw;
  Compute.finish (i ← load_rows 256 i records; _ ← Compute.commit_body node_now node_ms; mret i) tx.

Fixpoint load_loop {AL : Allocator} (batches : nat) (i records : Z) : st (EmbeddedCompute T) Error Z :=
  if i <? records then
    match batches with
    | O => fun c => (Spin, c)
    | Datatypes.S batches => i ← load_batch i records; load_loop batches i records
    end
  else mret i.

(** A batch writes a row at least, so there are no more batches than records. *)
Definition load {AL : Allocator} (records : Z) : st (EmbeddedCompute T) Error Z := load_loop (Z.to_nat records) 0 records.

(** One worker: each operation comes with the key and the number it draws and the time it
    takes.  The errors are those of a read or of a put. *)
Inductive WorkerError := ReadError (e : Error) | WriteError (e : PutError).

Fixpoint worker_loop {AL : Allocator} (cfg : BenchConfig) (worker_id n : Z) (draws : list (Z * Z * Z)) (stats : RunStats) :
    st (EmbeddedCompute T) WorkerError RunStats := fun c =>
  match draws with
  | [] => (Ret stats, c)
  | (key_id, roll, elapsed) :: draws =>
      if records cfg =? 0 then (Panic, c) else
      if roll <? read_ratio cfg then
        match Compute.compute_get_exists fuel (key_for key_id) c with
        | (Ret _, c) =>
            worker_loop cfg worker_id (n + 1) draws
              {| read_ops := read_ops stats + 1; write_ops := write_ops stats;
                 latencies_us := latencies_us stats ++ [elapsed] |} c
        | (Fail e, c) => (Fail (ReadError e), c)
        | (Panic, c) => (Panic, c)
        | (Spin, c) => (Spin, c)
        end
      else
        match put_with_retry (key_for key_id) (value_for (Z.lor (wrap64 (Z.shiftl worker_id 32)) n)) c with
        | (Ret _, (c, _)) =>
            worker_loop cfg worker_id (n + 1) draws
              {| read_ops := read_ops stats; write_ops := write_ops stats + 1;
                 latencies_us := latencies_us stats ++ [elapsed] |} c
        | (Fail e, (c, _)) => (Fail (WriteError e), c)
        | (Panic, (c, _)) => (Panic, c)
        | (Spin, (c, _)) => (Spin, c)
        end
  end.

End Node.

Definition worker_ops (cfg : BenchConfig) (worker_id : Z) : Z :=
  let base := ops cfg / concurrency cfg in
  let rem := ops cfg mod concurrency cfg in
  if worker_id <? rem then base + 1 else base.

Definition no_stats : RunStats := {| read_ops := 0; write_ops := 0; latencies_us := [] |}.

(** What a worker adds under the lock when it is done. *)
Definition add_stats (stats local : RunStats) : RunStats := {|
  read_ops := read_ops stats + read_ops local;
  write_ops := write_ops stats + write_ops local;
  latencies_us := latencies_us stats ++ latencies_us local |}.

End Bench.
