(* ===== verification/ToolsProps.v ===== *)
(** * ToolsProps: what the binaries guarantee

    Whatever the command line, the maintenance settings of the server are accepted by the
    node, the bench's operations are shared out among its workers without loss, and a put is
    retried on a fixed schedule.  A read scope of the node leaves no read registered. *)

From Stdlib Require Import String.
From stdpp Require Import base numbers list list_numbers gmap fin_maps sorting strings.
From S2P Require Import Prelude Common Mvcc PageStore Node Cache Provider Sequencer Btree Compute ComputeProps Tools.
#[local] Open Scope Z_scope.

Module ToolsProps.

Lemma st_bind_inv {S E A B} (m : st S E A) (f : A -> st S E B) s b s' :
  (m ≫= f) s = (Ret b, s') -> exists a s1, m s = (Ret a, s1) /\ f a s1 = (Ret b, s').
Proof. unfold mbind, st_bind. destruct (m s) as [[a|e| |] s1]; try discriminate. eauto. Qed.

(** ** The server *)

Lemma set_field_ne {A} (arg : option A) (f : A -> Z) old :
  old <> 0 -> (forall v, f v <> 0) -> ServerBin.set_field arg f old <> 0.
Proof. destruct arg; cbn; auto. Qed.

Lemma at_least_one_ne v : ServerBin.at_least_one v <> 0.
Proof. unfold ServerBin.at_least_one. lia. Qed.

Lemma some_seconds_ne v : ServerBin.from_secs (ServerBin.at_least_one v) <> 0.
Proof. unfold ServerBin.from_secs, ServerBin.at_least_one. lia. Qed.

#[local] Hint Resolve at_least_one_ne some_seconds_ne : core.

(** C35: the settings storage_server builds are valid whatever its command line says: an
    argument that is missing, does not parse or overflows leaves the default, and one that is
    zero is raised to one, so the node that is opened with them never refuses them. *)
Theorem built_maintenance_valid args : NodeM.validate (ServerBin.build_maintenance_from_args args) = Ret tt.
Proof.
  unfold NodeM.validate, ServerBin.build_maintenance_from_args. cbn [mc_checkpoint interval max_dirty_pages max_dirty_bytes
    max_wal_bytes max_wal_segments mvcc_gc_every_wal_batches wal_group_commit_max_batches].
  repeat (rewrite (proj2 (Z.eqb_neq _ 0)) by (apply set_field_ne; [discriminate | auto])).
  reflexivity.
Qed.

(** ** Read scopes *)

(** [with_mvcc_ro_timeout] leaves the set of active reads as it found it, whatever its
    closure returns, when the closure does not itself change the set or the handle's guard;
    so a read that fails does not hold the garbage collector back. *)
Theorem read_scope_closes {A} now timeout (f : st (MvccReadHandle * StorageNode) Error A) n r n' :
  ar_map (sn_reads n) !! ar_next_id (sn_reads n) = None ->
  (forall h m, mh_guard (f (h, m)).2.1 = mh_guard h /\ sn_reads (f (h, m)).2.2 = sn_reads m) ->
  Observe.with_mvcc_ro_timeout now timeout f n = (r, n') ->
  ar_map (sn_reads n') = ar_map (sn_reads n).
Proof.
  intros Hfresh Hf. unfold Observe.with_mvcc_ro_timeout.
  destruct (NodeM.begin_mvcc_ro_with_timeout now timeout n) as [h m] eqn:Hb.
  specialize (Hf h m). destruct (f (h, m)) as [r0 [h' m']]. cbn in Hf. destruct Hf as [Hg Hr].
  unfold NodeM.begin_mvcc_ro_with_timeout, ActiveReadsM.register in Hb. injection Hb as <- <-. cbn in Hg, Hr.
  intros [= <- <-]. unfold NodeM.handle_close. rewrite Hg. cbn.
  rewrite Hr. cbn. apply delete_insert_id. exact Hfresh.
Qed.

(** ** The bench *)

(** How long [put_with_retry] sleeps after each attempt. *)
Definition schedule : list Z := [1; 2; 4; 8; 16; 25; 25; 25; 25; 25; 25].

(** The sleep that follows [n] sleeps. *)
Definition next_sleep (n : nat) : Z := nth n schedule 25.

Definition total (l : list Z) : Z := foldr Z.add 0 l.

Lemma total_schedule n : total (take n schedule) <= 181.
Proof. do 12 (destruct n as [|n]; [discriminate|]). discriminate. Qed.

Section Retry.
Context {T : Type} {S : ComputeStore T} {OT : Others T}.
Context (node_now node_ms : Z) (order : list bytes) (text : Z -> Error -> string).

Lemma next_sleep_step n : (n < 12)%nat -> Z.min (next_sleep n * 2) 25 = next_sleep (Datatypes.S n).
Proof. intros Hn. do 12 (destruct n as [|n]; [reflexivity|]). lia. Qed.

Lemma schedule_snoc n : (n < 11)%nat -> take n schedule ++ [next_sleep n] = take (Datatypes.S n) schedule.
Proof. intros Hn. do 11 (destruct n as [|n]; [reflexivity|]). lia. Qed.

(** A put is given up when the attempts are used up or the error is permanent. *)
Definition gives_up (attempt : Z) (e : Error) : Prop :=
  attempt = 12 \/ is_retryable e = false /\ Bench.is_transient_by_text (text attempt e) = false.

Lemma retry_loop_run {AL : Allocator} more n key value c r c' slept :
  (n + more = 12)%nat -> (0 < more)%nat ->
  Bench.retry_loop node_now node_ms order text more (Z.of_nat n + 1) (next_sleep n) key value (take n schedule) c = (r, (c', slept)) ->
  exists k, (n <= k < 12)%nat /\ slept = take k schedule /\
    match r with Fail (Bench.FailedAfter a e) => a = Z.of_nat k + 1 /\ gives_up a e | Fail Bench.FailedUnexpectedly => False | _ => True end.
Proof.
  revert n c. induction more as [|more IH]; intros n c Hn Hpos; [lia|]. cbn [Bench.retry_loop].
  destruct (Compute.compute_put node_now node_ms order key value c) as [[x|e| |] c1]; cycle 1.
  2,3,4: intros [= <- <- <-]; exists n; split; [lia|]; split; [reflexivity | exact I].
  destruct ((Z.of_nat n + 1 =? Z.of_nat Bench.MAX_ATTEMPTS) || _) eqn:Hstop.
  - intros [= <- <- <-]. exists n. split; [lia|]. split; [reflexivity|]. split; [reflexivity|].
    apply orb_true_iff in Hstop as [Hl|Hp]; [left; apply Z.eqb_eq in Hl; exact Hl|].
    apply andb_true_iff in Hp as [Hr Ht]. right. split; apply negb_true_iff; assumption.
  - assert (n <> 11%nat) by (intros ->; discriminate Hstop).
    rewrite next_sleep_step, schedule_snoc by lia.
    replace (Z.of_nat n + 1 + 1) with (Z.of_nat (Datatypes.S n) + 1) by lia.
    intros Hrun. apply IH in Hrun as (k & Hk & Hrest); [|lia|lia]. exists k. split; [lia|exact Hrest].
Qed.

End Retry.

(** C36: a put of the bench that the cluster keeps refusing ends: there are at most twelve
    attempts, the sleeps between them are the first ones of 1, 2, 4, 8, 16 and then 25 ms, a
    failure reports the number of the last attempt, and it gives up before the twelfth only
    for an error that neither its category nor its text calls transient.  The line after the
    loop is never reached. *)
Theorem put_retry_schedule {AL : Allocator} {T} {S : ComputeStore T} node_now node_ms order text key value c r c' slept :
  Bench.put_with_retry (S := S) node_now node_ms order text key value c = (r, (c', slept)) ->
  slept `prefix_of` schedule /\ total slept <= 181 /\ r <> Fail Bench.FailedUnexpectedly /\
  forall a e, r = Fail (Bench.FailedAfter a e) -> a = zlen slept + 1 /\ a <= 12 /\ gives_up text a e.
Proof.
  intros Hrun. apply (retry_loop_run _ _ _ _ 12 0) in Hrun as (k & Hk & -> & Hr); [|lia|lia].
  split; [apply prefix_take|]. split; [apply total_schedule|].
  assert (Hlen : zlen (take k schedule) = Z.of_nat k).
  { unfold zlen. rewrite length_take. cbn [length schedule]. lia. }
  destruct r as [x|[a e|]| |]; try contradiction; (split; [discriminate|]); try discriminate.
  intros a' e' [= <- <-]. destruct Hr as [-> Hg]. rewrite Hlen. split; [reflexivity|]. split; [lia|exact Hg].
Qed.

(** A node whose puts are refused: the value has the wrong size, which no retry mends. *)
#[local] Existing Instance machine.

Lemma put_retry_schedule_witness :
  let c := Compute.new_compute (C := CacheProps.ListLru) (Compute.mkEnv None None None) ComputeProps.sample_storage (mkClock 0 []) in
  exists r c' slept, Bench.put_with_retry 0 0 [] (fun _ _ => EmptyString) (Bench.key_for 1) [] c = (r, (c', slept)) /\
    slept `prefix_of` schedule /\ total slept <= 181 /\ r <> Fail Bench.FailedUnexpectedly /\
    forall a e, r = Fail (Bench.FailedAfter a e) -> a = zlen slept + 1 /\ a <= 12 /\ gives_up (fun _ _ => EmptyString) a e.
Proof.
  intros c. exists (Fail (Bench.FailedAfter 1 (InvalidValueSize 0 VALUE_SIZE))), c, []. split; [reflexivity|].
  apply (put_retry_schedule 0 0 [] (fun _ _ => EmptyString) (Bench.key_for 1) [] c _ c). reflexivity.
Defined.

(** ** The share of each worker *)

Lemma total_app l k : total (l ++ k) = total l + total k.
Proof. unfold total. induction l as [|x l IH]; cbn; lia. Qed.

Lemma total_shares base rem n : 0 <= rem ->
  total ((fun w => if w <? rem then base + 1 else base) <$> seqZ 0 (Z.of_nat n)) = Z.of_nat n * base + Z.min (Z.of_nat n) rem.
Proof.
  intros Hrem. induction n as [|n IH]; [change (0 = 0 + Z.min 0 rem); lia|].
  rewrite seqZ_S, fmap_app, total_app, IH by lia.
  change (total _) with ((if 0 + Z.of_nat n <? rem then base + 1 else base) + 0). case (Z.ltb_spec (0 + Z.of_nat n) rem); lia.
Qed.

(** The workers of the bench do together the number of operations asked for, whatever the
    command line, and no worker does more than one operation more than another. *)
Theorem workers_share_ops args :
  let cfg := Bench.config_of_args args in
  total (Bench.worker_ops cfg <$> seqZ 0 (Bench.concurrency cfg)) = Bench.ops cfg /\
  forall v w, Z.abs (Bench.worker_ops cfg v - Bench.worker_ops cfg w) <= 1.
Proof.
  intros cfg. assert (Hc : 1 <= Bench.concurrency cfg) by (cbn; lia).
  split; [|intros v w; unfold Bench.worker_ops; do 2 case Z.ltb; lia].
  pose proof (Z.mod_pos_bound (Bench.ops cfg) (Bench.concurrency cfg)) as Hmod.
  pose proof (total_shares (Bench.ops cfg / Bench.concurrency cfg) (Bench.ops cfg mod Bench.concurrency cfg)
    (Z.to_nat (Bench.concurrency cfg))) as Ht.
  rewrite Z2Nat.id in Ht by lia. unfold Bench.worker_ops. rewrite Ht by lia.
  pose proof (Z.div_mod (Bench.ops cfg) (Bench.concurrency cfg)). lia.
Qed.

(** ** Keys *)

(** The rows of the load phase have different keys. *)
Lemma key_for_inj i j : 0 <= i < U64 -> 0 <= j < U64 -> Bench.key_for i = Bench.key_for j -> i = j.
Proof.
  intros Hi Hj Heq. apply app_inv_tail in Heq.
  rewrite <- (le_val_u64 i), <- (le_val_u64 j), Heq by assumption. reflexivity.
Qed.

Lemma key_for_size i : zlen (Bench.key_for i) = KEY_SIZE.
Proof. unfold Bench.key_for. rewrite zlen_app, zlen_le_bytes, zlen_zrepeat by (unfold KEY_SIZE; lia). reflexivity. Qed.

(** ** The load phase *)

Section Load.
Context {T : Type} {S : ComputeStore T} {OT : Others T} (node_now node_ms : Z) (order : list bytes).

Lemma load_rows_next n i records s j s' :
  Bench.load_rows (S := S) order n i records s = (Ret j, s') -> i <= records -> j = Z.min (i + Z.of_nat n) records.
Proof.
  revert i s. induction n as [|n IH]; intros i s; cbn [Bench.load_rows]; [intros [= <- _]; lia|].
  case (Z.ltb_spec i records); [intros Hi Hrun Hle | intros Hi [= <- _]; lia].
  apply st_bind_inv in Hrun as (x & s1 & _ & Hrun). apply IH in Hrun; lia.
Qed.

Lemma finish_inv {A} (m : st (EmbeddedTxn * EmbeddedCompute T) Error A) tx c a c' :
  Compute.finish m tx c = (Ret a, c') -> exists s, m (tx, c) = (Ret a, s).
Proof. unfold Compute.finish. destruct (m (tx, c)) as [[x|e| |] s]; try discriminate. intros [= -> _]. eauto. Qed.

Lemma load_batch_next {AL : Allocator} i records c j c' :
  Bench.load_batch (S := S) node_now node_ms order i records c = (Ret j, c') -> i <= records -> j = Z.min (i + 256) records.
Proof.
  unfold Bench.load_batch. intros Hrun Hi. apply st_bind_inv in Hrun as (tx & c1 & _ & Hrun).
  apply finish_inv in Hrun as (s & Hb).
  apply st_bind_inv in Hb as (k & s1 & Hrows & Hb). apply st_bind_inv in Hb as (lsn & s2 & _ & [= <- _]).
  apply load_rows_next in Hrows; [exact Hrows | exact Hi].
Qed.

(** As many turns as there are rows left are enough: more of them change nothing. *)
Lemma load_loop_enough {AL : Allocator} more batches i records c :
  records - i <= Z.of_nat batches ->
  Bench.load_loop (S := S) node_now node_ms order (batches + more) i records c = Bench.load_loop node_now node_ms order batches i records c.
Proof.
  revert i c. induction batches as [|batches IH]; intros i c Hb.
  - destruct more as [|more]; [reflexivity|]. cbn [Nat.add Bench.load_loop].
    case (Z.ltb_spec i records); [lia | reflexivity].
  - cbn [Nat.add Bench.load_loop]. case (Z.ltb_spec i records); [intros Hi | reflexivity].
    unfold mbind, st_bind.
    destruct (Bench.load_batch node_now node_ms order i records c) as [[j|e| |] c1] eqn:Hrun; try reflexivity.
    apply IH. apply load_batch_next in Hrun; lia.
Qed.

Lemma load_loop_end {AL : Allocator} batches i records c j c' :
  Bench.load_loop (S := S) node_now node_ms order batches i records c = (Ret j, c') -> i <= records -> j = records.
Proof.
  revert i c. induction batches as [|batches IH]; intros i c; cbn [Bench.load_loop];
    (case (Z.ltb_spec i records); [intros Hi | intros Hi [= <- _]; lia]); [discriminate|].
  intros Hrun Hle. apply st_bind_inv in Hrun as (k & c1 & Hbatch & Hrun).
  apply load_batch_next in Hbatch; [|exact Hle]. apply IH in Hrun; lia.
Qed.

(** The bound [load] puts on its turns is never what ends it, and when it returns every row has
    been put. *)
Lemma load_complete {AL : Allocator} records c : 0 <= records ->
  (forall more, Bench.load_loop (S := S) node_now node_ms order (Z.to_nat records + more) 0 records c =
    Bench.load node_now node_ms order records c) /\
  forall j c', Bench.load node_now node_ms order records c = (Ret j, c') -> j = records.
Proof.
  intros Hr. split; [intros more; apply load_loop_enough; lia|].
  intros j c' Hrun. exact (load_loop_end _ _ _ _ _ _ Hrun Hr).
Qed.

End Load.

(** ** What the bench reports *)

Section Worker.
Context {T : Type} {S : ComputeStore T} {OT : Others T} (fuel : nat) (node_now node_ms : Z) (order : list bytes) (text : Z -> Error -> string).

(** Every operation of a worker that ends is counted once, with its latency. *)
Lemma worker_counts {AL : Allocator} cfg w draws n stats c stats' c' :
  Bench.worker_loop (S := S) fuel node_now node_ms order text cfg w n draws stats c = (Ret stats', c') ->
  Bench.read_ops stats' + Bench.write_ops stats' = Bench.read_ops stats + Bench.write_ops stats + zlen draws /\
  zlen (Bench.latencies_us stats') = zlen (Bench.latencies_us stats) + zlen draws.
Proof.
  revert n stats c. induction draws as [|[[key roll] elapsed] draws IH]; intros n stats c; cbn [Bench.worker_loop].
  { intros [= <- _]. change (zlen []) with 0. lia. }
  rewrite zlen_cons. destruct (Bench.records cfg =? 0); [discriminate|]. destruct (roll <? Bench.read_ratio cfg).
  - destruct (Compute.compute_get_exists fuel (Bench.key_for key) c) as [[x|e| |] c1]; try discriminate.
    intros Hrun. apply IH in Hrun. cbn in Hrun. rewrite zlen_app in Hrun. change (zlen [elapsed]) with 1 in Hrun. lia.
  - destruct (Bench.put_with_retry _ _ _ _ _ _ c) as [[x|e| |] [c1 sl]]; try discriminate.
    intros Hrun. apply IH in Hrun. cbn in Hrun. rewrite zlen_app in Hrun. change (zlen [elapsed]) with 1 in Hrun. lia.
Qed.

End Worker.

(** ** Percentiles *)

Lemma sorted_nth_le l i j : StronglySorted Z.le l -> (i <= j < length l)%nat -> nth i l 0 <= nth j l 0.
Proof.
  intros Hs. revert i j. induction Hs as [|x l Hs IH Hx]; intros i j; cbn [length]; [lia|].
  destruct i as [|i], j as [|j]; cbn [nth]; intros Hij; try lia; [|apply IH; lia].
  rewrite List.Forall_forall in Hx. apply Hx, nth_In. lia.
Qed.

Lemma sorted_values values : StronglySorted Z.le (merge_sort Z.le values) /\ length (merge_sort Z.le values) = length values.
Proof.
  split; [|apply Permutation_length, merge_sort_Permutation].
  apply Sorted_StronglySorted; [exact Z.le_trans|]. apply Sorted_merge_sort. intros x y. lia.
Qed.

(** A percentile is one of the measured values, and a higher rank does not give a lower one. *)
Lemma percentile_in values rank : values <> [] -> Bench.percentile_us values rank ∈ values.
Proof.
  intros Hne. destruct values as [|v vs]; [congruence|]. unfold Bench.percentile_us.
  apply list_elem_of_In. eapply Permutation_in; [apply (merge_sort_Permutation Z.le)|].
  apply nth_In. rewrite (proj2 (sorted_values (v :: vs))). unfold zlen. cbn [length]. lia.
Qed.

Lemma percentile_mono values r r' : r <= r' -> Bench.percentile_us values r <= Bench.percentile_us values r'.
Proof.
  intros Hr. destruct values as [|v vs]; [reflexivity|]. unfold Bench.percentile_us.
  destruct (sorted_values (v :: vs)) as [Hs Hlen].
  apply sorted_nth_le; [exact Hs|]. rewrite Hlen. unfold zlen. cbn [length]. lia.
Qed.

End ToolsProps.
